(* ===== verification/_CoqProject ===== *)
-Q . S2P
Prelude.v
TimerMgr.v
StateManager.v
StateTimeout.v
MachineRuns.v
StringUtil.v
Queues.v
AudioUtil.v
Settings.v
TriggerTypes.v
Connector.v
TriggerHelper.v
Recognition.v
InputPipe.v
TriggerManager.v
EngineTypes.v
EngineAudio.v
WakeupSource.v
UpdateController.v
EngineUtil.v
WakeupListener.v
CloudReporter.v
WakeupImpl.v
WakeupSafety.v
WakeupRuns.v
UpdateEngine.v
EnrollEngine.v
DeviceManager.v
HeadsetImpl.v
GlassesImpl.v
HeadsetSafety.v
GlassesSafety.v
WakeupFacade.v
FacadeTracking.v
FacadeImpls.v
EngineManager.v
ServiceManager.v
System.v
Parcel.v
EngineIpc.v
RemoteEngine.v
ServiceIpc.v
VoiceService.v
VoiceSystem.v
ImplicitEngine.v
ImplicitSafety.v
MessageBus.v
OnlyFirstEngine.v
OfflineAudio.v
Huks.v
Client.v
