(* ===== verification/Prelude.v ===== *)
(** * Intelligent voice framework: verification library

    A model of the intelligent voice framework, a system service that listens for a wake
    word.  A hardware abstraction layer (HAL) runs the models of the wake word; the trigger
    subsystem loads, starts and stops them, suspends them while a call, a recording or
    hibernation is in the way, and reports a detection.  On a detection a wakeup engine
    confirms the word with the audio that follows and lets the client read it.  Enrollment
    engines learn the voice of a user, the update engine brings the learned models to a new
    version.  The service manager decides which engines may exist, turns detection on and
    off, and runs updates; the system ability gives processes access to all of this.

    ** The program and the files

    Paths are relative to [src/]; [engine/] is [services/intell_voice_engine/server/].

    Common parts:
    - [utils/timer_mgr.cpp], [utils/id_allocator.cpp]: [TimerMgr.v].  A thread with a queue
      of timers ordered by deadline.  The clock is an argument of the operations, an
      iteration of the thread is [Run_step]; [Stop] and [ResetTimer] are, in the runs, the
      parts in which they hold the mutex ([Stop_first], [ResetTimer_first]).
    - [utils/state_manager.cpp]: [StateManager.v].  The state machine the engines are built
      on: a table of handlers per state, timeouts per state, groups of states.  A handler
      is a function on an environment; a null dereference is [None].  [StateTimeout.v]: a
      timeout is armed or in flight while the machine is in its state, and the timer thread
      leaves the state.  [MachineRuns.v]: what an owner of a machine (an engine) needs to
      lift an invariant of its handlers to all its runs.
    - [utils/string_util.cpp]: [StringUtil.v]; [utils/queue_util.h], [message_queue.cpp],
      [msg_handle_thread.cpp]: [Queues.v] (with the threads asleep on each condition
      variable and those notified but not yet running); [utils/pcm_buffer.cpp],
      [array_buffer_util.cpp] and the deinterleaving of [intell_voice_util.cpp]:
      [AudioUtil.v]; the settings, key-value strings, the version check of
      [update_engine_utils.cpp] and [wakeup_track.cpp]: [Settings.v].

    [services/intell_voice_trigger]:
    - [TriggerTypes.v] (models), [Connector.v] (host manager, connector, sessions, the
      validation layer), [TriggerHelper.v] and [Recognition.v] (which models run),
      [InputPipe.v] (recognition while other applications record, and the listeners),
      [TriggerManager.v] (data base, service, detectors, system services).

    [services/intell_voice_engine]:
    - [EngineTypes.v]: the record [Sys] of what an engine, the service manager and their
      surroundings share: the state of the component, the trigger manager, the settings,
      the tasks of the executor of the service, and what is sent to clients.
    - [EngineAudio.v]: [base/audio_source.cpp], the permissions and the privacy record of
      [utils/intell_voice_util.cpp].  [WakeupSource.v]: [wakeup/wakeup_source_process.cpp].
    - [EngineUtil.v]: [base/engine_util.cpp], [base/intell_voice_sensibility.cpp] and the HAL
      adapters of [hdi_adapter/].  [DeviceManager.v]: [base/engine_device_manager.cpp].
    - [WakeupListener.v], [CloudReporter.v], [WakeupImpl.v]: the wakeup engine of the phone
      ([wakeup/wakeup_engine_impl.cpp]) with its listener and its reports; [WakeupSafety.v]
      and [WakeupRuns.v] hold its invariants and runs.  [HeadsetImpl.v], [GlassesImpl.v] and
      [HeadsetSafety.v], [GlassesSafety.v]: the same for headsets and glasses.
      [OnlyFirstEngine.v]: [wakeup/only_first/], the engine of a build with a first stage.
    - [WakeupFacade.v]: [wakeup/wakeup_engine.cpp] and [wakeup_engine_impl_facade.cpp], which
      own the three implementations; [FacadeTracking.v] and [FacadeImpls.v]: which of them
      is processing a wakeup, and that the three machines keep the laws this needs.
    - [EnrollEngine.v] ([enroll/]), [ImplicitEngine.v] and [ImplicitSafety.v] ([implicit/]),
      [UpdateEngine.v] and [UpdateController.v] ([update/]).
    - [EngineManager.v]: [manager/], the arbitration between engines, uploads, clone files.
      [MessageBus.v]: [engine_callback_message.h] and the registrar of the service.
    - [OfflineAudio.v]: [base/engine_offline_audio_processor.cpp], which gives the pieces of
      an enrollment to an effect chain; code that reads memory comes to an [Outcome].
      [Huks.v]: [utils/huks_aes_adapter.cpp] and [base/data_operation_callback.cpp], the
      encryption of the files of the HAL.
    - [EngineIpc.v], [RemoteEngine.v]: proxies and stubs of engines and callbacks.

    [services/intell_voice_service]:
    - [ServiceManager.v]: [intell_voice_service_manager.cpp], switches, detection, tasks.
      [System.v]: the service manager with the engine manager as its base class.
    - [Parcel.v], [ServiceIpc.v]: parcels; proxy and stub of the service.
    - [VoiceService.v]: the system ability and the event observer.  [VoiceSystem.v]: the
      system ability over the service manager, with the threads of both.

    [frameworks/native]: [Client.v], the library an application links, over the proxies.

    [Prelude.v] (this file) has the machine integers, record updates, the state monad [St]
    in which stateful code is written, the loop [st_for] of range loops with [return], the
    Hoare triples, the tactics [keeps] and [run], the hint database [ivoice], and the calls
    in pieces ([Prog]) that other calls can come in between of.

    ** How the parts call each other

    A request of a client comes as a parcel ([ServiceIpc], [EngineIpc]) to a stub, which
    calls the service object or an engine.  The service manager runs most of its work as
    tasks of one executor; an asynchronous task is an element of the queue of [Sys], a
    synchronous one runs, with those before it, before the call returns
    ([VoiceSystem.AddSyncTask]).  Engines reach the service manager and the trigger manager
    only over the message bus; the files of the engines write a message as the call it
    stands for, and [MessageBus.v] proves that it is that call.  Events of the HAL, timers,
    audio callbacks and executors are steps of their own in the runs of each engine.

    ** Interfaces

    Components are proved against classes, each with a reference instance that the witnesses
    use.  Outside the repository: [TriggerHal] and [EngineHal] (the two HALs), [AudioFw]
    (audio framework, permissions, privacy kit), [HeadsetLib] and [GlassesLib] (libraries
    that are loaded), [KvStore] and [Rdb] (stores), [DataShare] (the settings of the system),
    [OfflineFx] (effect chains), [Huks] and [HksCodes] (the key store), [Files], [JsonLib],
    [ParcelLib], [Platform], [SystemIds] and the like (files, JSON, parcels, build switches
    and enumerators), with laws [TriggerHalLaws], [KvLaws], [RdbLaws], [ParcelLaws],
    [OfflineFxLaws], [HuksLaws].  No law says that the privacy kit or the key store
    succeeds: a use of the microphone that the kit refuses to record or to end is an output
    ([MicUse]) of its own, and [HuksLaws] says what the calls of a store with a key for each
    alias do when they succeed ([hk_works] that they do is a hypothesis of one part of C13).
    Between components: [ConnectorModule] with [ConnectorLaws], discharged by the connector; [ReliableModule] for the theorems that say
    recognition does run; [UpdateHost], what the update controller asks of its manager;
    [EngineOps], the engines as the engine manager uses them; [EngineMgr] with
    [EngineMgrLaws], discharged by the engine manager in [System.v]; [TriggerPort] with
    [TriggerLaws] and [TriggerLife], the trigger manager as engines and service use it;
    [WakeupImpls] with [WakeupImplsLaws], discharged by the three engines in
    [FacadeImpls.v]; [EngineObject] and [ServiceObject], the objects behind the stubs;
    [ServicePort], the service manager as the system ability uses it, with [PortKeeps];
    [Registrar], the service manager as the message bus uses it.

    ** What is proved

    - The whole service: whatever requests come in, from whomever and in whatever parcels,
      an enrollment is never disturbed by detection (C1); callers without the permission
      change nothing (C15); the service is initialised when the data share is there, and not
      again before the data service was lost (C16, event by event); a client in another
      process gets what a call in the process does, of engines and of the service (C4, C14),
      and its callbacks, or they are lost without a trace (C40); every message of the bus arrives (C19); the recordings of a
      user go from one device to another whole (C12).
    - Engine manager: which engines may exist together (C7, C23); updates refine an abstract
      machine of attempts and are retried a bounded number of times (C5, C9); devices
      settle, unless a registration has thrown (C38).
    - Wakeup engines: the microphone or the audio of the device is read exactly in the
      states that say so, whoever reads is on record as a user of the microphone and nobody
      else, except where the privacy kit itself refused a record or an end, and the timer
      thread alone ends it (C3, C10, C29, C30); behind the facade one implementation processes a wakeup at
      a time, and nothing crashes (C11, C28); audio and reports arrive in order and whole
      (C35, C34).
    - Enrollment: the use of the microphone is balanced, with the same exception (C27); what a detach saves (C39).  An
      implicit enrollment ends (C18), its executor answers every [Detach] (C31) unless the
      HAL was never ready (C32); what it saves (C33), with other calls in between the
      steps of the saving.  What is encrypted for the HAL is decrypted to the same or to an
      error (C13).  The pieces of an enrollment are inside of its recordings
      just when its text says so (C24), the task that processes them ends and leaves
      nothing behind (C25), and the text is read back (C26).
    - State machines: every state with a timeout is left (C17).  Timers: the queue is ordered
      and the flags match the armed ids (C21).
    - Trigger: records agree with the connector (C2), recognition runs exactly where it is
      requested and allowed (C8, C22), sessions refine an abstract contract (C6), one callback
      per start (C37); concurrent capture follows its specification (C20, C36).

    Theorems without a number state further properties of each part: the blocking queue
    ([queue_reachable_ok], [no_lost_producer]), the machine ([machine_reachable_wf],
    [HandleMsg_spec]), data base and settings ([stored_model_read_back],
    [settings_round_trip]), text and versions ([SplitStringToKVPair_inverts_print],
    [IsVersionUpdate_spec]), buffers ([PcmBuffer_appends], [DeinterleaveAudioData_spec]),
    glasses ([glasses_reading]), updates ([update_end_restarts], [failing_update_ends]),
    timers ([timers_drain]), switches ([switch_on_starts]), a deadlock of [clear_data]
    ([clear_data_deadlock]), events in order ([listener_in_order]), texts that are refused
    ([data_refused]) and more.  Behaviour that
    looks unintended is stated too, as theorems or as [Example]s on concrete runs, such as
    [group_actions_accumulate], [PopLen_loses_producer], [hal_wait_lost],
    [second_clone_discards], [channels_drift_apart], [timeout_leaves_adapter],
    [record_start_leaves_source], [frame_past_the_end], [part_of_a_list],
    [refused_record_leaves_use], [fold_attach_race], [reset_overtaken], [second_thread],
    [new_start_takes_over], [key_replaced], [bad_parameters_forget_device].

    ** Granularity, bounds and fuel

    An operation that holds the lock of its component is one step, and so is a task of an
    executor; what a thread does without a lock is interleaved at those steps.  Calls of the
    trigger helper that release [mutex_] on the way, or do not take it, are taken in pieces
    ([InputPipe.op_pieces]): each locked part, each access to a member outside of it, and,
    for the restart of the models when the fold listener is attached, each of
    [StopRecognition], [PrepareForRecognition] and [StartRecognition] of a model.  What can
    come inside of these three there is in [fold_attach_race]; C2 does not cover it.  A
    recognition event is two steps (taken off the queue of its session, received by the
    helper); a refresh of the devices, a read of a headset's stream and a callback of an
    audio source are one each.  A call that waits for a task of its own executor is split at
    the wait ([IE_Detach], [IE_HandleSetParam]); the executor of the implicit engine may have
    several threads, and the saving of a result is a step for each call ([IeWork]).  An
    exception of JsonCpp leaves [RegisterDevice] as [None]; what the IPC library does with
    it is outside of the model, and the service sees a failed registration.  [Split] has as fuel the length of its input
    plus one, enough for every separator that is not empty ([Split_terminates]); the loops of
    [Connector.v] and [CloudReporter.v] run over their data.  The loop that polls for files
    ([poll_files]) has fuel for its eleven turns, that over a piece ([process_loop]) for its
    bytes plus one, that over long data ([update_loop]) for its segments plus one, and the
    search of a line ([frame_groups]) for its length plus one; [offline_task_ends] and
    [data_round_trip] show that none of them runs out.  Integers are printed with up to
    20 digits, which covers 64 bits.  [std::map] is iterated in key order ([map_order]).
    Memory allocation does not fail.  The build switches of the source are fields of
    [TriggerHelper.Env], [TriggerManager.Build], [SvcBuild] and [Platform].

    ** What is not modelled

    Logging.  The death of the HAL, which ends the process.  The bindings to the script
    languages ([frameworks/js], [frameworks/taihe]), which hand calls on to the library of
    [Client.v].  The effect chains and the key store themselves.  The audio
    source that reads a file ([base/file_source.cpp]), which no build file names.  Files, time
    and threads ([utils/file_util.cpp], [time_util.cpp], [base_thread.cpp],
    [thread_wrapper.cpp]): system calls; where a modelled part calls them they are arguments
    or a class.  [MessageQueue]'s timed synchronous send.  The write of the helper to the
    data base on a folded device is an output event of the helper. *)

From stdpp Require Export base tactics list gmap strings sorting relations.
From Stdlib Require Export ZArith Lia.

#[global] Open Scope Z_scope.

(** ** Machine integers *)

(** Conversion of an integer to [uint32_t] (modulo 2^32). *)
Definition u32 (z : Z) : Z := z mod 2 ^ 32.

(** Conversion of an integer to [int32_t] (two's complement). *)
Definition i32 (z : Z) : Z := (z + 2 ^ 31) mod 2 ^ 32 - 2 ^ 31.

(** Conversion of an integer to [uint64_t] or [size_t] (modulo 2^64). *)
Definition u64 (z : Z) : Z := z mod 2 ^ 64.

(** [IntellVoiceUtil::GetHdiVersionId]; [VERSION_OFFSET] is 8. *)
Definition GetHdiVersionId (majorVer minorVer : Z) : Z :=
  Z.lor (u32 (Z.shiftl majorVer 8)) minorVer.

(** ** Functional update of record fields

    [r <| f := v |>] is the record [r] with its field [f] set to [v], the C++
    assignment [r.f = v].  A record type opts in with an [Eta] instance. *)

Class Eta (R : Type) := eta_rec : R → R.
Class Setter {R T : Type} (proj : R → T) := upd : (T → T) → R → R.
#[global] Arguments upd {_ _} proj {_} _ _ /.

Ltac solve_setter :=
  lazymatch goal with
  | |- @Setter ?R ?T ?proj =>
    let e := constr:(ltac:(typeclasses eauto) : Eta R) in
    let e' := eval hnf in e in
    let f := fresh "f" in let r := fresh "r" in
    refine (fun f r => _);
    let body := eval cbv beta in (e' r) in
    match eval pattern (proj r) in body with
    | ?g _ => let b := eval cbv beta in (g (f (proj r))) in exact b
    end
  end.
#[global] Hint Extern 1 (@Setter _ _ _) => solve_setter : typeclass_instances.

Notation "x <| proj ::= f |>" := (upd proj f x)
  (at level 12, f at level 200, left associativity, format "x  <|  proj  ::=  f  |>").
Notation "x <| proj := v |>" := (upd proj (λ _, v) x)
  (at level 12, v at level 200, left associativity, format "x  <|  proj  :=  v  |>").

(** ** A state monad

    Stateful C++ members become computations [St S A]: they take the object's
    state and return the C++ result with the new state.  The monadic notation
    ([x ← m; k]) is the one of stdpp. *)

Definition St (S A : Type) : Type := S → A * S.

#[global] Instance st_ret S : MRet (St S) := λ A a s, (a, s).
#[global] Instance st_bind S : MBind (St S) := λ A B k m s, let '(a, s') := m s in k a s'.

Definition st_get {S} : St S S := λ s, (s, s).
Definition st_gets {S A} (f : S → A) : St S A := λ s, (f s, s).
Definition st_put {S} (s' : S) : St S unit := λ _, ((), s').
Definition st_modify {S} (f : S → S) : St S unit := λ s, ((), f s).

(** Run a computation for its effect only: the C++ call whose result is ignored. *)
Definition st_void {S A} (m : St S A) : St S unit := _ ← m; mret ().

(** [for (x : l) body(x)], where the body may stop the whole loop by returning
    [true] (the C++ [return] inside the loop). *)
Fixpoint st_for {S A} (l : list A) (body : A → St S bool) : St S unit :=
  match l with
  | [] => mret ()
  | x :: l' => stop ← body x; if (stop : bool) then mret () else st_for l' body
  end.

(** [if (b) m] with no else branch. *)
Definition st_when {S} (b : bool) (m : St S unit) : St S unit :=
  if b then m else mret ().

(** ** Hoare triples for the state monad *)

Definition hoare {S A} (P : S → Prop) (m : St S A) (Q : A → S → Prop) : Prop :=
  ∀ s, P s → Q (m s).1 (m s).2.

Declare Scope ivoice_scope.
Delimit Scope ivoice_scope with ivoice.
Notation "⟪ P ⟫ m ⟪ Q ⟫" := (hoare P m Q)
  (at level 20, P, m, Q at level 200, format "⟪ P ⟫  m  ⟪ Q ⟫") : ivoice_scope.
#[global] Open Scope ivoice_scope.

Create HintDb ivoice discriminated.

(** ** Calls in pieces

    A call that does not hold the mutex of its object from its beginning to its end is
    a sequence of pieces, between which other calls may do theirs.  [prog_run] is the
    call when none does. *)

Inductive Prog (S : Type) :=
| Done
| Piece (act : S → S) (next : S → Prog S).
Arguments Done {S}.
Arguments Piece {S} act next.

(** A piece, and what follows for its result. *)
Definition piece {S A} (m : St S A) (c : A → Prog S) : Prog S := 
  Piece (λ s, (m s).2) (λ s, c (m s).1).
Definition last_piece {S A} (m : St S A) : Prog S := piece m (λ _, Done).
(** A loop, each round of which is given what follows it. *)
Fixpoint prog_each {S A} (l : list A) (body : A → Prog S → Prog S) (rest : Prog S) : Prog S :=
  match l with [] => rest | x :: l => body x (prog_each l body rest) end.
Fixpoint prog_run {S} (p : Prog S) (s : S) : S :=
  match p with Done => s | Piece act next => prog_run (next s) (act s) end.
(** Every piece keeps each of the predicates [P i], whatever the pieces before found. *)
Fixpoint prog_keeps {S I} (P : I → S → Prop) (p : Prog S) : Prop :=
  match p with
  | Done => True
  | Piece act next => (∀ i s, P i s → P i (act s)) ∧ ∀ s, prog_keeps P (next s)
  end.

(** ** Ordered traversal of a [std::map] with integer keys

    A [std::map<int32_t, T>] is a [gmap Z T]; its iteration order is the
    ascending order of the keys. *)

Definition map_order {V} (m : gmap Z V) : list Z :=
  merge_sort Z.le (elements (dom m)).

(** * Lemmas *)

Section monad_lemmas.
Context {S : Type}.

Lemma bind_run {A B} (m : St S A) (k : A → St S B) s :
  (m ≫= k) s = k (m s).1 (m s).2.
Proof. unfold mbind, st_bind. by destruct (m s). Qed.

Lemma void_run {A} (m : St S A) s : st_void m s = ((), (m s).2).
Proof. unfold st_void. by rewrite bind_run. Qed.

Lemma for_nil {A} (body : A → St S bool) s : st_for [] body s = ((), s).
Proof. done. Qed.

Lemma for_cons {A} x l (body : A → St S bool) s :
  st_for (x :: l) body s =
    if (body x s).1 then ((), (body x s).2) else st_for l body (body x s).2.
Proof. simpl. rewrite bind_run. by destruct (body x s) as [[] s']. Qed.

Lemma hoare_ret {A} (P : S → Prop) (a : A) (Q : A → S → Prop) :
  (∀ s, P s → Q a s) → ⟪ P ⟫ mret a ⟪ Q ⟫.
Proof. intros H s Hs. by apply H. Qed.

Lemma hoare_bind {A B} P (m : St S A) R (k : A → St S B) Q :
  ⟪ P ⟫ m ⟪ R ⟫ → (∀ a, ⟪ R a ⟫ k a ⟪ Q ⟫) → ⟪ P ⟫ m ≫= k ⟪ Q ⟫.
Proof. intros Hm Hk s Hs. rewrite bind_run. apply Hk, Hm, Hs. Qed.

Lemma hoare_conseq {A} (P P' : S → Prop) (m : St S A) (Q Q' : A → S → Prop) :
  ⟪ P' ⟫ m ⟪ Q' ⟫ → (∀ s, P s → P' s) → (∀ a s, Q' a s → Q a s) → ⟪ P ⟫ m ⟪ Q ⟫.
Proof. intros Hm HP HQ s Hs. apply HQ, Hm, HP, Hs. Qed.

Lemma hoare_if {A} P (b : bool) (m1 m2 : St S A) Q :
  (b = true → ⟪ P ⟫ m1 ⟪ Q ⟫) → (b = false → ⟪ P ⟫ m2 ⟪ Q ⟫) →
  ⟪ P ⟫ (if b then m1 else m2) ⟪ Q ⟫.
Proof. destruct b; auto. Qed.

Lemma hoare_modify (P : S → Prop) f (Q : unit → S → Prop) :
  (∀ s, P s → Q () (f s)) → ⟪ P ⟫ st_modify f ⟪ Q ⟫.
Proof. intros H s Hs. by apply H. Qed.

Lemma hoare_get (P : S → Prop) (Q : S → S → Prop) :
  (∀ s, P s → Q s s) → ⟪ P ⟫ st_get ⟪ Q ⟫.
Proof. intros H s Hs. by apply H. Qed.

Lemma hoare_gets {A} (P : S → Prop) (f : S → A) Q :
  (∀ s, P s → Q (f s) s) → ⟪ P ⟫ st_gets f ⟪ Q ⟫.
Proof. intros H s Hs. by apply H. Qed.

(** Reading the state and going on. *)
Lemma hoare_gets_bind {A B} (P : S → Prop) (f : S → A) (k : A → St S B) Q :
  (∀ x, ⟪ P ⟫ k x ⟪ Q ⟫) → ⟪ P ⟫ (x ← st_gets f; k x) ⟪ Q ⟫.
Proof. intros H s Hs. rewrite bind_run. by apply H. Qed.

Lemma hoare_get_bind {B} (P : S → Prop) (k : S → St S B) Q :
  (∀ x, ⟪ P ⟫ k x ⟪ Q ⟫) → ⟪ P ⟫ (x ← st_get; k x) ⟪ Q ⟫.
Proof. intros H s Hs. rewrite bind_run. by apply H. Qed.

Lemma hoare_ret_keep {A} (P : S → Prop) (a : A) : ⟪ P ⟫ mret a ⟪ λ _, P ⟫.
Proof. by intros s Hs. Qed.

(** A sequence of computations that keep an invariant. *)
Lemma hoare_seq {A B} (P : S → Prop) (m : St S A) (k : A → St S B) :
  ⟪ P ⟫ m ⟪ λ _, P ⟫ → (∀ a, ⟪ P ⟫ k a ⟪ λ _, P ⟫) → ⟪ P ⟫ m ≫= k ⟪ λ _, P ⟫.
Proof. intros Hm Hk. by eapply hoare_bind. Qed.

Lemma hoare_when (P : S → Prop) (b : bool) (m : St S unit) :
  ⟪ P ⟫ m ⟪ λ _, P ⟫ → ⟪ P ⟫ st_when b m ⟪ λ _, P ⟫.
Proof. unfold st_when. destruct b; [done|]. intros _. apply hoare_ret_keep. Qed.

Lemma hoare_void {A} P (m : St S A) (Q : unit → S → Prop) :
  ⟪ P ⟫ m ⟪ λ _, Q () ⟫ → ⟪ P ⟫ st_void m ⟪ Q ⟫.
Proof. intros H s Hs. rewrite void_run. by apply H. Qed.

(** The loop rule: an invariant kept by the body is kept by the loop. *)
Lemma hoare_for {A} (I : S → Prop) (l : list A) (body : A → St S bool) :
  (∀ x, x ∈ l → ⟪ I ⟫ body x ⟪ λ _, I ⟫) → ⟪ I ⟫ st_for l body ⟪ λ _, I ⟫.
Proof.
  induction l as [|x l IH]; intros Hbody s Hs; [done|].
  rewrite for_cons. pose proof (Hbody x ltac:(by left) s Hs) as Hx.
  destruct (body x s).1; [done|].
  apply IH; [|done]. intros y Hy. apply Hbody. by right.
Qed.
End monad_lemmas.

Section prog.
Context {S : Type}.
Implicit Types p : Prog S.

Lemma piece_run {A} (m : St S A) c s : prog_run (piece m c) s = prog_run (c (m s).1) (m s).2.
Proof. done. Qed.
(** Loops that stop early have nothing after them. *)
Lemma each_run {A} (l : list A) body (b : A → St S bool) rest s :
  (∀ x p s, (b x s).1 = false ∧ prog_run (body x p) s = prog_run p (b x s).2) →
  prog_run (prog_each l body rest) s = prog_run rest (st_for l b s).2.
Proof.
  intros Hb. revert s. induction l as [|x l IH]; intros s; cbn [prog_each]; [done|].
  rewrite for_cons. destruct (Hb x (prog_each l body rest) s) as [-> ->]. apply IH.
Qed.
Lemma piece_keeps {I A} (P : I → S → Prop) (m : St S A) c :
  (∀ i, ⟪ P i ⟫ m ⟪ λ _, P i ⟫) → (∀ a, prog_keeps P (c a)) → prog_keeps P (piece m c).
Proof. intros Hm Hc. split; [intros i s; apply Hm|intros s; apply Hc]. Qed.
Lemma last_keeps {I A} (P : I → S → Prop) (m : St S A) :
  (∀ i, ⟪ P i ⟫ m ⟪ λ _, P i ⟫) → prog_keeps P (last_piece m).
Proof. intros Hm. by apply piece_keeps. Qed.
Lemma each_keeps {I A} (P : I → S → Prop) (l : list A) body rest :
  (∀ x p, prog_keeps P p → prog_keeps P (body x p)) → prog_keeps P rest → prog_keeps P (prog_each l body rest).
Proof. intros Hb Hr. induction l as [|x l IH]; cbn; [done|]. by apply Hb. Qed.
End prog.

#[export] Hint Resolve hoare_ret_keep : ivoice.

(** [keeps] proves that a computation built from parts that keep an invariant
    keeps it: it splits binds, tests, matches and loops, and leaves the parts to
    the [ivoice] hints. *)
Ltac keeps :=
  cbv zeta beta;
  lazymatch goal with
  | |- hoare _ (mbind _ (st_gets _)) _ => apply hoare_gets_bind; intros ?; keeps
  | |- hoare _ (mbind _ st_get) _ => apply hoare_get_bind; intros ?; keeps
  | |- hoare _ (mbind _ _) _ => apply hoare_seq; [|intros ?]; keeps
  | |- hoare _ (mret _) _ => apply hoare_ret_keep
  | |- hoare _ (st_void _) _ => apply hoare_void; keeps
  | |- hoare _ (st_when _ _) _ => apply hoare_when; keeps
  | |- hoare _ (st_for _ _) _ => apply hoare_for; intros ? _; keeps
  | |- hoare _ (match ?x with _ => _ end) _ => destruct x; keeps
  | |- hoare _ _ _ => try solve [auto with ivoice nocore]
  end.

(** [run] unfolds one monadic computation applied to a state. *)
Ltac run :=
  repeat first
    [ rewrite bind_run | rewrite void_run
    | progress unfold st_get, st_gets, st_put, st_modify, st_when
    | progress unfold mret, st_ret
    | progress cbn [fst snd] ].

Section map_order_lemmas.
Context {V : Type}.
Implicit Types m : gmap Z V.

Lemma map_order_perm m : map_order m ≡ₚ elements (dom m).
Proof. apply merge_sort_Permutation. Qed.

Lemma elem_of_map_order m k : k ∈ map_order m ↔ is_Some (m !! k).
Proof. rewrite map_order_perm, elem_of_elements. apply elem_of_dom. Qed.

Lemma map_order_NoDup m : NoDup (map_order m).
Proof. rewrite map_order_perm. apply NoDup_elements. Qed.

Lemma map_order_sorted m : Sorted Z.le (map_order m).
Proof. apply Sorted_merge_sort. intros x y. lia. Qed.

(** The traversal depends on the key set only. *)
Lemma map_order_dom (m : gmap Z V) {W} (m' : gmap Z W) :
  dom m = dom m' → map_order m = map_order m'.
Proof. unfold map_order. by intros ->. Qed.

Lemma map_order_insert m k v :
  is_Some (m !! k) → map_order (<[k:=v]> m) = map_order m.
Proof. intros Hk. apply map_order_dom. by apply dom_insert_lookup_L. Qed.
End map_order_lemmas.

Lemma alter_present {V} (f : V → V) (m : gmap Z V) i x :
  m !! i = Some x → alter f i m = <[i := f x]> m.
Proof.
  intros Hi. apply map_eq. intros j. rewrite lookup_alter, lookup_insert.
  case_decide; [subst; by rewrite Hi|done].
Qed.

Lemma alter_absent {V} (f : V → V) (m : gmap Z V) i : m !! i = None → alter f i m = m.
Proof.
  intros Hi. apply map_eq. intros j. rewrite lookup_alter. case_decide; [subst|done].
  by rewrite Hi.
Qed.

Section list_lemmas.
Context {A : Type}.

Lemma Sorted_fmap_head (R : relation A) x l :
  Sorted R (x :: l) → Transitive R → Forall (R x) l.
Proof.
  intros Hs Ht. apply Sorted_StronglySorted in Hs; [|done]. by inversion Hs.
Qed.
End list_lemmas.

Lemma u32_small z : 0 ≤ z < 2 ^ 32 → u32 z = z.
Proof. intros. apply Z.mod_small. lia. Qed.

Lemma i32_small z : - 2 ^ 31 ≤ z < 2 ^ 31 → i32 z = z.
Proof. intros. unfold i32. rewrite Z.mod_small; lia. Qed.
Lemma i32_u32 z : i32 (u32 z) = i32 z.
Proof. unfold i32, u32. by rewrite Z.add_mod_idemp_l by lia. Qed.

Lemma u64_small z : 0 ≤ z < 2 ^ 64 → u64 z = z.
Proof. intros. apply Z.mod_small. lia. Qed.

#[export] Hint Resolve hoare_ret hoare_modify hoare_get hoare_gets : ivoice.
#[export] Hint Resolve map_order_NoDup map_order_sorted : ivoice.

(** An invariant of every step is an invariant of every run. *)
Lemma rtc_invariant {X} (R : X → X → Prop) (P : X → Prop) x y :
  (∀ a b, P a → R a b → P b) → P x → rtc R x y → P y.
Proof. intros HR Hx Hr. induction Hr; eauto. Qed.
