(* ===== verification/TimerMgr.v ===== *)
(** * Identifiers and timers

    [IdAllocator] ([utils/id_allocator.cpp]) hands out small integer ids from a
    vector of flags; [TimerMgr] ([utils/timer_mgr.cpp]) keeps a list of armed
    timers ordered by deadline, whose ids come from the allocator, and a thread
    ([Run]) that fires them.  [Start], [SetTimer] and [KillTimer] take [timeMutex_]
    for their whole bodies.  [Stop] gives it up to join the thread, and
    [ResetTimer] between its parts: each locked part is a step of its own, and a
    call that is between two of them is one of [calls].  The thread's loop is
    modelled one iteration at a time ([Run_step]).  The monotonic clock
    ([NowTimeUs]) is an argument of the operations that read it. *)

From S2P Require Import Prelude.

(** [constexpr int INVALID_ID = 0xffff]. *)
Definition INVALID_ID : Z := 65535.

Module IdAllocator.

(** The constructor: [maxTimerNum] flags, all free. *)
Definition init (maxTimerNum : Z) : list bool :=
  replicate (Z.to_nat maxTimerNum) false.

(** The search loop of [AllocId]: the first free flag is taken. *)
Fixpoint alloc_loop (idFlags : list bool) : option nat * list bool :=
  match idFlags with
  | [] => (None, [])
  | true :: fl => let '(r, fl') := alloc_loop fl in (S <$> r, true :: fl')
  | false :: fl => (Some 0%nat, true :: fl)
  end.

Definition AllocId : St (list bool) Z := λ idFlags,
  match alloc_loop idFlags with
  | (Some i, fl) => (Z.of_nat i, fl)
  | (None, fl) => (INVALID_ID, fl)
  end.

(** The argument is an [unsigned int]: a negative [int] wraps. *)
Definition ReleaseId (id : Z) : St (list bool) unit := λ idFlags,
  if Z.of_nat (length idFlags) <=? u32 id then ((), idFlags)
  else ((), <[Z.to_nat (u32 id) := false]> idFlags).

Definition ClearId (idFlags : list bool) : list bool := (λ _, false) <$> idFlags.

(** ** Properties *)

Lemma alloc_loop_None fl fl' :
  alloc_loop fl = (None, fl') ↔ fl' = fl ∧ Forall (eq true) fl.
Proof.
  revert fl'. induction fl as [|[] fl IH]; intros fl'; simpl.
  - split; [intros [= <-]; by split|by intros [-> _]].
  - destruct (alloc_loop fl) as [[i|] fl''] eqn:E; simpl.
    + split; [done|]. intros [-> Hf]. inversion Hf; subst.
      destruct (IH fl) as [_ IH']. by discriminate IH'.
    + split.
      * intros [= <-]. destruct (IH fl'') as [IH' _]. destruct IH' as [-> ?]; [done|].
        split; [done|]. by constructor.
      * intros [-> Hf]. inversion Hf; subst. destruct (IH fl) as [_ IH'].
        by injection IH' as ->.
  - split; [done|]. intros [_ Hf]. by inversion Hf.
Qed.

Lemma alloc_loop_Some fl i fl' :
  alloc_loop fl = (Some i, fl') →
  fl !! i = Some false ∧ fl' = <[i:=true]> fl ∧ ∀ j, (j < i)%nat → fl !! j = Some true.
Proof.
  revert i fl'. induction fl as [|[] fl IH]; intros i fl'; simpl; [done| |].
  - destruct (alloc_loop fl) as [[j|] fl''] eqn:E; simpl; [|done].
    intros [= <- <-]. destruct (IH _ _ eq_refl) as (? & -> & Hlt). simpl.
    split_and!; [done|done|]. intros [|k] ?; [done|]. simpl. apply Hlt. lia.
  - intros [= <- <-]. split_and!; [done|done|lia].
Qed.

Lemma alloc_loop_length fl : length (alloc_loop fl).2 = length fl.
Proof.
  induction fl as [|[] fl IH]; simpl; [done| |done].
  destruct (alloc_loop fl); simpl in *. lia.
Qed.

Lemma AllocId_ok fl id fl' :
  (Z.of_nat (length fl) ≤ INVALID_ID) →
  AllocId fl = (id, fl') →
  (id = INVALID_ID ∧ fl' = fl ∧ Forall (eq true) fl) ∨
  (0 ≤ id < Z.of_nat (length fl) ∧ fl !! Z.to_nat id = Some false ∧
   fl' = <[Z.to_nat id := true]> fl).
Proof.
  unfold AllocId. intros Hcap.
  destruct (alloc_loop fl) as [[i|] fl''] eqn:E; intros [= <- <-].
  - right. apply alloc_loop_Some in E as (Hi & -> & _).
    apply lookup_lt_Some in Hi as ?. rewrite Nat2Z.id. split_and!; [lia|lia|done|done].
  - left. by apply alloc_loop_None in E as [-> ?].
Qed.

Lemma ReleaseId_in_range fl id :
  0 ≤ id < 2 ^ 32 →
  (ReleaseId id fl).2 = if bool_decide (id < Z.of_nat (length fl))
                        then <[Z.to_nat id := false]> fl else fl.
Proof.
  intros Hid. unfold ReleaseId. rewrite u32_small by lia.
  case_bool_decide; destruct (Z.leb_spec (Z.of_nat (length fl)) id); done || lia.
Qed.

End IdAllocator.

Module TimerMgr.
Import IdAllocator.

(** [enum class TimerStatus]. *)
Inductive TimerStatus := TIMER_STATUS_INIT | TIMER_STATUS_STARTED | TIMER_STATUS_TO_QUIT.

#[global] Instance TimerStatus_eq_dec : EqDecision TimerStatus.
Proof. solve_decision. Defined.

(** [struct TimerItem]; an observer is a pointer, named by a number, or null. *)
Record TimerItem := mkTimerItem {
  timerId : Z; type : Z; cookie : Z; tgtUs : Z; observer : option nat }.

(** [struct TimerEvent], the argument of the observer's callback. *)
Record TimerEvent := mkTimerEvent { evType : Z; evTimeId : Z; evCookie : Z }.

(** The members of [class TimerMgr], with the flags of its [IdAllocator] base. *)
Record TimerMgr := mkTimerMgr {
  status_ : TimerStatus; timerObserver_ : option nat;
  itemQueue_ : list TimerItem; idFlags : list bool }.

#[global] Instance TimerMgr_eta : Eta TimerMgr :=
  λ m, mkTimerMgr (status_ m) (timerObserver_ m) (itemQueue_ m) (idFlags m).
#[global] Instance TimerItem_eta : Eta TimerItem :=
  λ i, mkTimerItem (timerId i) (type i) (cookie i) (tgtUs i) (observer i).

(** The constructor. *)
Definition make (maxTimerNum : Z) : TimerMgr :=
  mkTimerMgr TIMER_STATUS_INIT None [] (IdAllocator.init maxTimerNum).

(** [Start]; [threadOk] is the result of [ThreadWrapper::Start]. *)
Definition Start (threadOk : bool) (obs : option nat) (m : TimerMgr) : TimerMgr :=
  if decide (status_ m = TIMER_STATUS_STARTED) then m
  else if decide (status_ m ≠ TIMER_STATUS_INIT) then m
  else if negb threadOk then m
  else m <| timerObserver_ := obs |> <| status_ := TIMER_STATUS_STARTED |>.

(** [Clear], called by [Stop] once the thread has been joined. *)
Definition Clear (m : TimerMgr) : TimerMgr :=
  m <| itemQueue_ := [] |> <| idFlags ::= ClearId |>
    <| status_ := TIMER_STATUS_INIT |> <| timerObserver_ := None |>.

(** [Stop] up to [Join]: whether it goes on; and the call as a whole, for a caller
    in whose way nobody comes. *)
Definition Stop_first (m : TimerMgr) : bool * TimerMgr :=
  if decide (status_ m ≠ TIMER_STATUS_STARTED) then (false, m)
  else (true, m <| status_ := TIMER_STATUS_TO_QUIT |>).
Definition Stop (m : TimerMgr) : TimerMgr :=
  let '(on, m) := Stop_first m in if on then Clear m else m.

(** The insertion of [SetTimer]: before the first item that is not earlier. *)
Fixpoint insert_item (addItem : TimerItem) (q : list TimerItem) : list TimerItem :=
  match q with
  | [] => [addItem]
  | it :: q' => if tgtUs it <? tgtUs addItem then it :: insert_item addItem q'
                else addItem :: it :: q'
  end.

Definition SetTimer (now ty delayUs ck : Z) (currObserver : option nat) : St TimerMgr Z :=
  λ m,
  if decide (status_ m ≠ TIMER_STATUS_STARTED) then (INVALID_ID, m) else
  let obs := match currObserver with None => timerObserver_ m | Some o => Some o end in
  match obs with
  | None => (INVALID_ID, m)
  | Some _ =>
    let '(id, fl) := AllocId (idFlags m) in
    if id =? INVALID_ID then (INVALID_ID, m <| idFlags := fl |>) else
    let addItem := mkTimerItem id ty ck (now + delayUs) obs in
    (id, m <| idFlags := fl |> <| itemQueue_ ::= insert_item addItem |>)
  end.

(** The search loop of [KillTimer]: the item found with the remaining queue. *)
Fixpoint kill_loop (id : Z) (q : list TimerItem) : option (list TimerItem) :=
  match q with
  | [] => None
  | it :: q' => if timerId it =? id then Some q' else (it ::.) <$> kill_loop id q'
  end.

(** [KillTimer(int &timerId)]: the result is the new value of the reference,
    [INVALID_ID] whether or not the timer was found. *)
Definition KillTimer (id : Z) : St TimerMgr Z := λ m,
  match kill_loop id (itemQueue_ m) with
  | Some q => (INVALID_ID, m <| idFlags ::= λ fl, (ReleaseId id fl).2 |> <| itemQueue_ := q |>)
  | None => (INVALID_ID, m)
  end.

(** [ResetTimer]: the part with the mutex, with its result unless it goes on; and
    the call as a whole, for a caller in whose way nobody comes. *)
Definition ResetTimer_first (now id delayUs : Z) : St TimerMgr (option Z) := λ m,
  match itemQueue_ m with
  | [it] =>
    if negb (timerId it =? id) then (Some INVALID_ID, m)
    else (Some id, m <| itemQueue_ := [it <| tgtUs := now + delayUs |>] |>)
  | _ => (None, m)
  end.
Definition ResetTimer (now id ty delayUs ck : Z) (currObserver : option nat) : St TimerMgr Z :=
  λ m,
  match ResetTimer_first now id delayUs m with
  | (Some r, m) => (r, m)
  | (None, m) => SetTimer now ty delayUs ck currObserver (KillTimer id m).2
  end.

(** One iteration of the thread's loop: leave the loop, wait for a notification,
    wait at most [us] microseconds, or fire an item. *)
Inductive RunOutcome :=
| RunExit
| RunWait
| RunWaitFor (us : Z)
| RunFire (obs : option nat) (info : TimerEvent).

Definition Run_step (now : Z) : St TimerMgr RunOutcome := λ m,
  if decide (status_ m ≠ TIMER_STATUS_STARTED) then (RunExit, m) else
  match itemQueue_ m with
  | [] => (RunWait, m)
  | item :: q =>
    if now <? tgtUs item then (RunWaitFor (tgtUs item - now), m)
    else (RunFire (observer item) (mkTimerEvent (type item) (timerId item) (cookie item)),
          m <| idFlags ::= λ fl, (ReleaseId (timerId item) fl).2 |> <| itemQueue_ := q |>)
  end.

(** The events fired by [n] iterations at a fixed time, in order. *)
Fixpoint fires (n : nat) (now : Z) (m : TimerMgr) : list TimerEvent * TimerMgr :=
  match n with
  | O => ([], m)
  | S n' =>
    match Run_step now m with
    | (RunFire _ info, m') => let '(evs, m'') := fires n' now m' in (info :: evs, m'')
    | (_, m') => ([], m')
    end
  end.

(** The event an item raises. *)
Definition item_event (it : TimerItem) : TimerEvent :=
  mkTimerEvent (type it) (timerId it) (cookie it).

(** ** The invariant

    The queue is ordered by deadline, its ids are distinct, and the allocator's
    flags are set exactly for the ids of the queue. *)
Record wf (m : TimerMgr) : Prop := {
  wf_sorted : Sorted Z.le (tgtUs <$> itemQueue_ m);
  wf_nodup : NoDup (timerId <$> itemQueue_ m);
  wf_ids : ∀ i, idFlags m !! i = Some true ↔ Z.of_nat i ∈ timerId <$> itemQueue_ m;
  wf_range : Forall (λ it, 0 ≤ timerId it < Z.of_nat (length (idFlags m))) (itemQueue_ m);
  wf_cap : Z.of_nat (length (idFlags m)) ≤ INVALID_ID }.

(** The observer [SetTimer] uses. *)
Definition chosen_observer (currObserver : option nat) (m : TimerMgr) : option nat :=
  match currObserver with None => timerObserver_ m | Some o => Some o end.

(** A call that has given up the mutex: a [Stop] that joins the thread, a
    [ResetTimer] that is to kill its timer, and one that is to set it again. *)
Inductive Call :=
| InJoin
| InResetKill (id ty delayUs ck : Z) (currObserver : option nat)
| InResetSet (ty delayUs ck : Z) (currObserver : option nat).

(** A manager with its thread, that runs or has left its loop, and the calls under way. *)
Record TimerSys := mkTimers { mgr : TimerMgr; running : bool; calls : list Call }.
Definition new_timers (maxTimerNum : Z) : TimerSys := mkTimers (make maxTimerNum) false [].

(** The steps: a locked part of a call, or an iteration of the thread. *)
Inductive step : relation TimerSys :=
| step_start ok obs m r cs :
    step (mkTimers m r cs)
      (mkTimers (Start ok obs m) (r || bool_decide (status_ m = TIMER_STATUS_INIT) && ok) cs)
| step_stop m r cs :
    step (mkTimers m r cs)
      (mkTimers (Stop_first m).2 r (if (Stop_first m).1 then InJoin :: cs else cs))
| step_clear m cs1 cs2 :
    step (mkTimers m false (cs1 ++ InJoin :: cs2)) (mkTimers (Clear m) false (cs1 ++ cs2))
| step_set now ty d ck o m r cs :
    step (mkTimers m r cs) (mkTimers (SetTimer now ty d ck o m).2 r cs)
| step_kill id m r cs : step (mkTimers m r cs) (mkTimers (KillTimer id m).2 r cs)
| step_reset now id ty d ck o m r cs :
    step (mkTimers m r cs)
      (mkTimers (ResetTimer_first now id d m).2 r
         (match (ResetTimer_first now id d m).1 with
          | Some _ => cs | None => InResetKill id ty d ck o :: cs end))
| step_reset_kill id ty d ck o m r cs1 cs2 :
    step (mkTimers m r (cs1 ++ InResetKill id ty d ck o :: cs2))
      (mkTimers (KillTimer id m).2 r (cs1 ++ InResetSet ty d ck o :: cs2))
| step_reset_set now ty d ck o m r cs1 cs2 :
    step (mkTimers m r (cs1 ++ InResetSet ty d ck o :: cs2))
      (mkTimers (SetTimer now ty d ck o m).2 r (cs1 ++ cs2))
| step_run now m cs :
    step (mkTimers m true cs)
      (mkTimers (Run_step now m).2 (match (Run_step now m).1 with RunExit => false | _ => true end) cs).

(** ** Lemmas on the queue *)

Lemma insert_item_perm it q : insert_item it q ≡ₚ it :: q.
Proof.
  induction q as [|x q IH]; simpl; [done|].
  destruct (_ <? _); [|done]. rewrite IH. by constructor.
Qed.

Lemma insert_item_hd it q x :
  HdRel Z.le x (tgtUs <$> q) → x ≤ tgtUs it → HdRel Z.le x (tgtUs <$> insert_item it q).
Proof.
  intros Hx Hit. destruct q as [|y q]; simpl; [by constructor|].
  inversion Hx; subst. destruct (_ <? _); by constructor.
Qed.

Lemma insert_item_sorted it q :
  Sorted Z.le (tgtUs <$> q) → Sorted Z.le (tgtUs <$> insert_item it q).
Proof.
  induction q as [|x q IH]; simpl; intros Hs; [by repeat constructor|].
  inversion Hs as [|? ? Hs' Hhd]; subst.
  destruct (Z.ltb_spec (tgtUs x) (tgtUs it)); simpl.
  - constructor; [by apply IH|]. apply insert_item_hd; [done|lia].
  - constructor; [done|]. by constructor.
Qed.

Lemma kill_loop_None id q : kill_loop id q = None ↔ id ∉ timerId <$> q.
Proof.
  induction q as [|x q IH]; simpl; [set_solver|].
  destruct (Z.eqb_spec (timerId x) id) as [->|].
  - split; [done|set_solver].
  - destruct (kill_loop id q) eqn:E; simpl; [split; [done|]|]; set_solver.
Qed.

Lemma kill_loop_Some id q q' :
  kill_loop id q = Some q' →
  ∃ it l1 l2, q = l1 ++ it :: l2 ∧ q' = l1 ++ l2 ∧ timerId it = id.
Proof.
  revert q'. induction q as [|x q IH]; intros q'; simpl; [done|].
  destruct (Z.eqb_spec (timerId x) id) as [<-|].
  - intros [= <-]. by exists x, [], q.
  - intros (q'' & Hk & ->)%fmap_Some. destruct (IH _ Hk) as (it & l1 & l2 & -> & -> & ?).
    by exists it, (x :: l1), l2.
Qed.

Lemma filter_absent_id id (q : list TimerItem) :
  id ∉ timerId <$> q → filter (λ it, timerId it ≠ id) q = q.
Proof.
  induction q as [|x q IH]; intros Hx; [done|]. simpl in Hx.
  rewrite filter_cons_True, IH by set_solver. done.
Qed.

Lemma Sorted_app_remove l1 (x : Z) l2 : Sorted Z.le (l1 ++ x :: l2) → Sorted Z.le (l1 ++ l2).
Proof.
  intros Hs%(Sorted_StronglySorted Z.le).
  apply StronglySorted_Sorted. induction l1 as [|y l1 IH]; simpl in *.
  - by inversion Hs.
  - inversion Hs as [|? ? Hs' Hall]; subst. constructor; [by apply IH|].
    rewrite Forall_app in *. destruct Hall as [? Hc]. by inversion Hc.
Qed.

(** The flag vector after the release of a live id. *)
Lemma release_live m it :
  wf m → it ∈ itemQueue_ m →
  (ReleaseId (timerId it) (idFlags m)).2 = <[Z.to_nat (timerId it) := false]> (idFlags m).
Proof.
  intros Hm Hin. pose proof (wf_range _ Hm) as Hr. rewrite Forall_forall in Hr.
  specialize (Hr _ Hin). pose proof (wf_cap _ Hm) as Hcap. unfold INVALID_ID in Hcap.
  rewrite ReleaseId_in_range by lia. by rewrite bool_decide_true by lia.
Qed.

(** Removing one item and releasing its id keeps the invariant: the common part
    of [KillTimer] and of a firing. *)
Lemma wf_remove m l1 it l2 :
  wf m → itemQueue_ m = l1 ++ it :: l2 →
  wf (m <| idFlags ::= λ fl, (ReleaseId (timerId it) fl).2 |> <| itemQueue_ := l1 ++ l2 |>).
Proof.
  intros Hm Hq.
  assert (it ∈ itemQueue_ m) as Hin by (rewrite Hq; set_solver).
  destruct (Forall_forall (λ it, 0 ≤ timerId it < Z.of_nat (length (idFlags m))) (itemQueue_ m))
    as [Hr _]. specialize (Hr (wf_range _ Hm) _ Hin). simpl in Hr.
  pose proof (release_live _ _ Hm Hin) as Hrel.
  destruct Hm as [Hs Hnd Hid Hrg Hcap]. rewrite Hq in *.
  rewrite fmap_app, fmap_cons in *. constructor; simpl; rewrite ?Hrel, ?length_insert; try done.
  - rewrite fmap_app. by eapply Sorted_app_remove.
  - rewrite fmap_app. apply NoDup_app in Hnd as (? & Hd & [? ?]%NoDup_cons).
    apply NoDup_app; set_solver.
  - intros i. rewrite fmap_app, elem_of_app.
    destruct (decide (i = Z.to_nat (timerId it))) as [->|Hne].
    + rewrite list_lookup_insert_eq by lia. rewrite Z2Nat.id by lia.
      split; [done|]. apply NoDup_app in Hnd as (_ & Hd & [? _]%NoDup_cons). set_solver.
    + rewrite list_lookup_insert_ne by done. rewrite Hid, elem_of_app, elem_of_cons.
      assert (Z.of_nat i ≠ timerId it) by lia. naive_solver.
  - rewrite Forall_app, Forall_cons in *. by destruct Hrg as (? & ? & ?).
Qed.

(** ** Preservation of the invariant *)

Lemma make_wf n : 0 ≤ n ≤ INVALID_ID → wf (make n).
Proof.
  intros Hn. constructor; simpl; [constructor|constructor| |constructor|].
  - intros i. unfold IdAllocator.init. rewrite lookup_replicate. set_solver.
  - unfold IdAllocator.init. rewrite length_replicate. lia.
Qed.

Lemma Start_wf ok obs m : wf m → wf (Start ok obs m).
Proof.
  intros []. unfold Start. repeat case_decide; try done. destruct ok; done.
Qed.

Lemma Clear_wf m : wf m → wf (Clear m).
Proof.
  intros [? ? ? ? Hcap]. constructor; simpl; [constructor|constructor| |constructor|].
  - intros i. unfold ClearId. rewrite list_lookup_fmap.
    destruct (idFlags m !! i); simpl; set_solver.
  - unfold ClearId. by rewrite length_fmap.
Qed.

Lemma Stop_first_wf m : wf m → wf (Stop_first m).2.
Proof. intros Hm. unfold Stop_first. case_decide; [done|]. by destruct Hm. Qed.

Lemma Stop_wf m : wf m → wf (Stop m).
Proof.
  intros Hm%Stop_first_wf. unfold Stop. destruct (Stop_first m) as [[] m']; [by apply Clear_wf|done].
Qed.

Lemma KillTimer_wf id m : wf m → wf (KillTimer id m).2.
Proof.
  intros Hm. unfold KillTimer. destruct (kill_loop id _) as [q|] eqn:E; [|done].
  apply kill_loop_Some in E as (it & l1 & l2 & Hq & -> & <-). by eapply wf_remove.
Qed.

Lemma Run_step_wf now m : wf m → wf (Run_step now m).2.
Proof.
  intros Hm. unfold Run_step. case_decide; [done|].
  destruct (itemQueue_ m) as [|it q] eqn:E; [done|].
  destruct (_ <? _); [done|]. by apply (wf_remove m [] it q).
Qed.

Lemma wf_add m it :
  wf m → 0 ≤ timerId it < Z.of_nat (length (idFlags m)) →
  idFlags m !! Z.to_nat (timerId it) = Some false →
  wf (m <| idFlags ::= <[Z.to_nat (timerId it) := true]> |>
        <| itemQueue_ ::= insert_item it |>).
Proof.
  intros [Hs Hnd Hid Hrg Hcap] Hr Hf.
  assert (timerId it ∉ timerId <$> itemQueue_ m) as Hnin.
  { rewrite <- (Z2Nat.id (timerId it)) by lia. rewrite <- Hid. by rewrite Hf. }
  constructor; simpl; rewrite ?length_insert; try done.
  - by apply insert_item_sorted.
  - rewrite insert_item_perm. simpl. by constructor.
  - intros i. rewrite insert_item_perm. simpl. rewrite elem_of_cons, <- Hid.
    destruct (decide (i = Z.to_nat (timerId it))) as [->|Hne].
    + rewrite list_lookup_insert_eq by lia. rewrite Z2Nat.id by lia. naive_solver.
    + rewrite list_lookup_insert_ne by done. naive_solver lia.
  - rewrite insert_item_perm. by constructor.
Qed.

(** Every outcome of [SetTimer]. *)
Lemma SetTimer_cases now ty d ck o m :
  wf m →
  let '(id, m') := SetTimer now ty d ck o m in
  (id = INVALID_ID ∧ m' = m ∧
     (status_ m ≠ TIMER_STATUS_STARTED ∨ chosen_observer o m = None ∨
      Forall (eq true) (idFlags m))) ∨
  (status_ m = TIMER_STATUS_STARTED ∧ is_Some (chosen_observer o m) ∧
   0 ≤ id < Z.of_nat (length (idFlags m)) ∧
   idFlags m !! Z.to_nat id = Some false ∧
   m' = m <| idFlags ::= <[Z.to_nat id := true]> |>
          <| itemQueue_ ::= insert_item
               (mkTimerItem id ty ck (now + d) (chosen_observer o m)) |>).
Proof.
  intros Hm. unfold SetTimer. case_decide as Hst; [naive_solver|].
  fold (chosen_observer o m). destruct (chosen_observer o m) as [ob|] eqn:Ho; [|naive_solver].
  destruct (AllocId (idFlags m)) as [id fl] eqn:E.
  apply AllocId_ok in E as [(-> & -> & Hall)|(Hr & Hf & ->)]; [| |apply (wf_cap _ Hm)].
  - rewrite Z.eqb_refl. left. split_and!; [done| |by auto]. by destruct m.
  - pose proof (wf_cap _ Hm). destruct (Z.eqb_spec id INVALID_ID); [lia|].
    right. split_and!; eauto; lia.
Qed.

Lemma SetTimer_wf now ty d ck o m : wf m → wf (SetTimer now ty d ck o m).2.
Proof.
  intros Hm. pose proof (SetTimer_cases now ty d ck o m Hm) as H.
  destruct (SetTimer _ _ _ _ _ m) as [id m'].
  destruct H as [(_ & -> & _)|(_ & _ & Hr & Hf & ->)]; [done|].
  by apply (wf_add m (mkTimerItem id ty ck (now + d) _)).
Qed.

Lemma ResetTimer_first_wf now id d m : wf m → wf (ResetTimer_first now id d m).2.
Proof.
  intros Hm. unfold ResetTimer_first. destruct (itemQueue_ m) as [|it [|it2 q]] eqn:E; [done| |done].
  destruct (negb _); [done|]. destruct Hm as [Hs Hnd Hid Hrg Hcap]. rewrite E in *.
  apply Forall_cons in Hrg as [Hrg _]. simpl in *.
  constructor; simpl; [apply Sorted_cons; constructor|done|done|by constructor|done].
Qed.
Lemma ResetTimer_wf now id ty d ck o m : wf m → wf (ResetTimer now id ty d ck o m).2.
Proof.
  intros Hm%(ResetTimer_first_wf now id d). unfold ResetTimer.
  destruct (ResetTimer_first now id d m) as [[r|] m']; [done|]. by apply SetTimer_wf, KillTimer_wf.
Qed.

(** With one timer at most, what the thread does between the parts of [ResetTimer]
    makes no difference: a call that goes on has found no timer. *)
Lemma ResetTimer_gap now id d m m' :
  (length (itemQueue_ m) ≤ 1)%nat → ResetTimer_first now id d m = (None, m') →
  m' = m ∧ itemQueue_ m = [] ∧ (KillTimer id m).2 = m ∧ ∀ now', (Run_step now' m).2 = m.
Proof.
  unfold ResetTimer_first, KillTimer, Run_step. destruct (itemQueue_ m) as [|it [|it2 q]] eqn:E; cbn; [|by destruct (negb _)|lia].
  intros _ [= <-]. split_and!; [done..|]. intros now'. by case_decide.
Qed.

#[export] Hint Resolve make_wf Start_wf Stop_first_wf Clear_wf SetTimer_wf ResetTimer_first_wf
  ResetTimer_wf KillTimer_wf Run_step_wf : ivoice.

Lemma step_wf s s' : step s s' → wf (mgr s) → wf (mgr s').
Proof. intros []; cbn [mgr]; auto with ivoice. Qed.

Lemma Run_step_fire now m it q :
  status_ m = TIMER_STATUS_STARTED → itemQueue_ m = it :: q → tgtUs it ≤ now →
  Run_step now m =
    (RunFire (observer it) (item_event it),
     m <| idFlags ::= λ fl, (ReleaseId (timerId it) fl).2 |> <| itemQueue_ := q |>).
Proof.
  intros Hst Hq Hle. unfold Run_step. rewrite decide_False by naive_solver.
  rewrite Hq. by destruct (Z.ltb_spec now (tgtUs it)); [lia|].
Qed.

Lemma fires_drain_aux q now m :
  wf m → status_ m = TIMER_STATUS_STARTED → itemQueue_ m = q →
  Forall (λ it, tgtUs it ≤ now) q →
  ∃ m', fires (length q) now m = (item_event <$> q, m') ∧ wf m' ∧
        itemQueue_ m' = [] ∧ status_ m' = TIMER_STATUS_STARTED.
Proof.
  revert m. induction q as [|it q IH]; intros m Hm Hst Hq Hdue; simpl; [by exists m|].
  apply Forall_cons in Hdue as [Hit Hdue].
  pose proof (Run_step_wf now m Hm) as Hm'.
  rewrite (Run_step_fire now m it q) in * by done. cbn [snd] in Hm'.
  destruct (IH _ Hm' Hst eq_refl Hdue) as (m'' & Hf & ? & ? & ?).
  exists m''. by rewrite Hf.
Qed.

(** ** Properties *)

(** C21: whatever sequence of Start, Stop, SetTimer, ResetTimer, KillTimer and
    thread iterations is performed on a fresh timer manager of a capacity of at
    most 0xffff, in any interleaving of the parts in which Stop and ResetTimer
    hold the mutex, the queue stays ordered by deadline, its ids stay distinct,
    and the allocator's flags are set exactly for the armed ids (no id is leaked,
    none is handed out twice). *)
Theorem timer_reachable_wf n s :
  0 ≤ n ≤ INVALID_ID → rtc step (new_timers n) s → wf (mgr s).
Proof.
  intros Hn Hr. assert (wf (mgr (new_timers n))) as H0 by (cbn; auto with ivoice).
  induction Hr as [|x y z Hxy _ IH]; [done|]. apply IH. by apply (step_wf x).
Qed.

(** On a well-formed manager SetTimer fails exactly when the thread is not
    started, no observer is known, or every id is in use, and then changes
    nothing; otherwise it returns an id no armed timer has and adds one item
    with the deadline [now + delayUs]. *)
Theorem SetTimer_spec now ty d ck o m (Hm : wf m) :
  let '(id, m') := SetTimer now ty d ck o m in
  (id = INVALID_ID ↔ (status_ m ≠ TIMER_STATUS_STARTED ∨ chosen_observer o m = None ∨
                      Forall (eq true) (idFlags m))) ∧
  (id = INVALID_ID → m' = m) ∧
  (id ≠ INVALID_ID → (id ∉ timerId <$> itemQueue_ m) ∧
     itemQueue_ m' ≡ₚ (mkTimerItem id ty ck (now + d) (chosen_observer o m) :: itemQueue_ m)).
Proof.
  pose proof (SetTimer_cases now ty d ck o m Hm) as H.
  destruct (SetTimer now ty d ck o m) as [id m']. pose proof (wf_cap _ Hm).
  destruct H as [(-> & -> & Hc)|(Hst & [ob Ho] & Hr & Hf & ->)]; [naive_solver|].
  split_and!.
  - split; [lia|]. intros [?|[?|Hall]]; [naive_solver|naive_solver|].
    rewrite Forall_lookup in Hall. by specialize (Hall _ _ Hf).
  - lia.
  - intros _. split; [|apply insert_item_perm]. rewrite <- (Z2Nat.id id) by lia.
    rewrite <- (wf_ids _ Hm). by rewrite Hf.
Qed.

(** An iteration of the timer thread fires only an item whose deadline has
    passed, and no armed item has an earlier deadline; the fired id is free
    again afterwards. *)
Theorem Run_fires_earliest now m ob info m' (Hm : wf m)
    (Hrun : Run_step now m = (RunFire ob info, m')) :
  ∃ it, it ∈ itemQueue_ m ∧ info = item_event it ∧ ob = observer it ∧ tgtUs it ≤ now ∧
        (∀ it', it' ∈ itemQueue_ m → tgtUs it ≤ tgtUs it') ∧
        evTimeId info ∉ timerId <$> itemQueue_ m'.
Proof.
  unfold Run_step in Hrun. case_decide; [done|].
  destruct (itemQueue_ m) as [|it q] eqn:Hq; [done|].
  destruct (Z.ltb_spec now (tgtUs it)); simplify_eq. exists it.
  destruct Hm as [Hs Hnd _ _ _]. rewrite Hq in *. simpl in *.
  apply Sorted_fmap_head in Hs; [|intros ???; lia]. apply NoDup_cons in Hnd as [Hni _].
  split_and!; [by left|done|done|done| |done].
  rewrite Forall_fmap, Forall_forall in Hs. intros it' [->|Hin]%elem_of_cons; [lia|by apply Hs].
Qed.

(** Once every deadline has passed, the thread fires every armed timer
    exactly once, in deadline order, and ends with an empty queue and a
    well-formed state. *)
Theorem timers_drain now m
    (Hm : wf m) (Hst : status_ m = TIMER_STATUS_STARTED)
    (Hdue : Forall (λ it, tgtUs it ≤ now) (itemQueue_ m)) :
  ∃ m', fires (length (itemQueue_ m)) now m = (item_event <$> itemQueue_ m, m') ∧
        wf m' ∧ itemQueue_ m' = [] ∧ Sorted Z.le (tgtUs <$> itemQueue_ m).
Proof.
  destruct (fires_drain_aux _ now m Hm Hst eq_refl Hdue) as (m' & ? & ? & ? & ?).
  exists m'. split_and!; try done. apply (wf_sorted _ Hm).
Qed.

(** KillTimer removes the timer with the given id and no other, always
    resets the caller's id to INVALID_ID, and the killed timer can no longer
    fire. *)
Theorem KillTimer_spec id m (Hm : wf m) :
  (KillTimer id m).1 = INVALID_ID ∧
  itemQueue_ (KillTimer id m).2 = filter (λ it, timerId it ≠ id) (itemQueue_ m) ∧
  id ∉ timerId <$> itemQueue_ (KillTimer id m).2.
Proof.
  unfold KillTimer. destruct (kill_loop id (itemQueue_ m)) as [q|] eqn:E; simpl.
  - apply kill_loop_Some in E as (it & l1 & l2 & Hq & -> & Hid).
    pose proof (wf_nodup _ Hm) as Hnd. rewrite Hq in *. rewrite fmap_app, fmap_cons in Hnd.
    apply NoDup_app in Hnd as (_ & Hd & [Hn _]%NoDup_cons).
    rewrite filter_app, filter_cons_False, !filter_absent_id by set_solver.
    rewrite fmap_app. set_solver.
  - apply kill_loop_None in E. by rewrite filter_absent_id.
Qed.

(** ** Witnesses *)

Definition sample : TimerMgr := Start true (Some 7%nat) (make 10).
Definition sample2 : TimerMgr :=
  (SetTimer 100 3 50 0 None (SetTimer 100 2 900 0 None sample).2).2.

Lemma sample2_wf : wf sample2.
Proof. unfold sample2, sample. apply SetTimer_wf, SetTimer_wf, Start_wf, make_wf. unfold INVALID_ID. lia. Qed.

Lemma timer_reachable_wf_witness : wf sample2.
Proof.
  apply (timer_reachable_wf 10 (mkTimers sample2 true [])); [unfold INVALID_ID; lia|].
  eapply rtc_l; [apply (step_start true (Some 7%nat))|].
  eapply rtc_l; [apply (step_set 100 2 900 0 None)|].
  eapply rtc_l; [apply (step_set 100 3 50 0 None)|]. apply rtc_refl.
Defined.

(** A [ResetTimer] that another caller comes in the way of: the other one kills the
    timer and arms one of its own, of type 7, which gets the same id; the first one
    then kills that. *)
Example reset_overtaken :
  let m1 := (ResetTimer_first 100 0 500 sample2).2 in
  let m2 := (SetTimer 100 7 900 0 None (KillTimer 0 m1).2).2 in
  let m3 := (SetTimer 100 2 500 0 None (KillTimer 0 m2).2).2 in
  (ResetTimer_first 100 0 500 sample2).1 = None ∧
  type <$> itemQueue_ m2 = [3; 7] ∧ type <$> itemQueue_ m3 = [3; 2].
Proof. by vm_compute. Qed.

Lemma SetTimer_spec_witness :
  (SetTimer 100 4 10 0 None sample2).1 = 2 ∧
  itemQueue_ (SetTimer 100 4 10 0 None sample2).2 ≡ₚ (mkTimerItem 2 4 0 110 (Some 7%nat) :: itemQueue_ sample2).
Proof.
  split; [by vm_compute|].
  exact (proj2 (proj2 (proj2 (SetTimer_spec 100 4 10 0 None sample2 sample2_wf)) ltac:(by vm_compute))).
Defined.

Lemma Run_fires_earliest_witness :
  ∃ it, it ∈ itemQueue_ sample2 ∧ tgtUs it = 150.
Proof.
  destruct (Run_fires_earliest 200 sample2 (Some 7%nat) (mkTimerEvent 3 1 0)
    (Run_step 200 sample2).2 sample2_wf) as (it & Hin & Hev & _ & Hle & _); [by vm_compute|].
  exists it. split; [done|]. vm_compute in Hin. set_solver.
Defined.

Lemma timers_drain_witness :
  ∃ m', fires 2 1000 sample2 = ([mkTimerEvent 3 1 0; mkTimerEvent 2 0 0], m').
Proof.
  destruct (timers_drain 1000 sample2 sample2_wf) as (m' & Hf & _);
    [done|vm_compute; repeat constructor; done|].
  exists m'. exact Hf.
Defined.

Lemma KillTimer_spec_witness : timerId <$> itemQueue_ (KillTimer 1 sample2).2 = [0].
Proof. destruct (KillTimer_spec 1 sample2 sample2_wf) as (_ & -> & _). by vm_compute. Defined.

End TimerMgr.
