(* ===== verification/StateManager.v ===== *)
(** * The message-driven state machine of the engines

    [ModuleStates] ([utils/state_manager.h], [utils/state_manager.cpp]): a map
    from states to their actions (a handler per message id, and an optional
    timeout), a current state, and the timer manager of [TimerMgr.v].
    [HandleMsg] runs under [msgHandleMutex_], so an execution is a sequence of
    [HandleMsg] calls interleaved with iterations of the timer thread; a timer
    event that was popped is delivered by a later [HandleMsg].

    A null dereference or the dereference of [states_.end()] is [None]. *)

From S2P Require Import Prelude TimerMgr.
Import TimerMgr.

(** [constexpr int NO_PROCESS_RET = -2]. *)
Definition NO_PROCESS_RET : Z := -2.

(** [const State NULLSTATE(-1)]. *)
Definition NULLSTATE : Z := -1.

(** [struct StateMsg]: the id and the message body ([inMsg], null or not). *)
Record StateMsg (P : Type) := mkStateMsg { msgId : Z; inMsg : option P }.
Arguments mkStateMsg {P} _ _.
Arguments msgId {P} _.
Arguments inMsg {P} _.

(** What a handler answers: its return value, the value it leaves in
    [nextState], and whether it called [ResetTimerDelay()] on its machine. *)
Record HandlerResult := mkResult { hRet : Z; hNext : Z; hReset : bool }.

(** [using HandleMsg = std::function<int(const StateMsg &, State &)>]: a handler
    reads the message and the current state and works on the state [E] of the
    object that owns the machine. *)
Definition Handler (P E : Type) : Type := StateMsg P → Z → St E HandlerResult.

(** [struct StateActions] with the [TimerCfg] of its base [StateInfo]. *)
Record StateActions (P E : Type) := mkStateActions {
  cfgType : Z; cfgDelayUs : Z; cfgCookie : Z; actTimerId : Z;
  actions : gmap Z (Handler P E) }.
Arguments mkStateActions {P E} _ _ _ _ _.
Arguments cfgType {P E} _.
Arguments cfgDelayUs {P E} _.
Arguments cfgCookie {P E} _.
Arguments actTimerId {P E} _.
Arguments actions {P E} _.

#[global] Instance StateActions_eta P E : Eta (StateActions P E) :=
  λ a, mkStateActions (cfgType a) (cfgDelayUs a) (cfgCookie a) (actTimerId a) (actions a).

(** The members of [struct ModuleStates], its [TimerMgr] and [StateGroup] bases
    and the global [g_nullAction].  A [StateActions*] of the group is named by
    its state, [None] standing for [&g_nullAction].  [notified] is the sequence
    of [OnStateChange] calls made on the listener. *)
Record ModuleStates (P E : Type) := mkModuleStates {
  states_ : gmap Z (option (StateActions P E));
  currState_ : option Z;
  mActions : list (option Z);
  isInitSucc_ : bool;
  timers : TimerMgr;
  hasListener : bool;
  processType_ : Z;
  notified : list (Z * Z);
  g_nullAction : StateActions P E;
  env : E }.
Arguments mkModuleStates {P E} _ _ _ _ _ _ _ _ _ _.
Arguments states_ {P E} _.
Arguments currState_ {P E} _.
Arguments mActions {P E} _.
Arguments isInitSucc_ {P E} _.
Arguments timers {P E} _.
Arguments hasListener {P E} _.
Arguments processType_ {P E} _.
Arguments notified {P E} _.
Arguments g_nullAction {P E} _.
Arguments env {P E} _.

#[global] Instance ModuleStates_eta P E : Eta (ModuleStates P E) :=
  λ m, mkModuleStates (states_ m) (currState_ m) (mActions m) (isInitSucc_ m) (timers m)
         (hasListener m) (processType_ m) (notified m) (g_nullAction m) (env m).

(** The [ITimerObserver] the machine passes for itself. *)
Definition this : option nat := Some 0%nat.

Section machine.
Context {P E : Type}.
Implicit Types m : ModuleStates P E.

Definition newStateActions : StateActions P E := mkStateActions 0 0 0 INVALID_ID ∅.

(** [StateActions::Add], [Del] and [WaitUntil]. *)
Definition Add (msgid : Z) (h : Handler P E) (a : StateActions P E) : StateActions P E :=
  a <| actions ::= <[msgid := h]> |>.
Definition Del (msgid : Z) (a : StateActions P E) : StateActions P E :=
  a <| actions ::= delete msgid |>.
Definition WaitUntil (ty : Z) (h : Handler P E) (delayUs ck : Z) (a : StateActions P E)
    : StateActions P E :=
  Add ty h (a <| cfgType := ty |> <| cfgDelayUs := delayUs |> <| cfgCookie := ck |>).

(** [StateActions::Handle]. *)
Definition Handle (msg : StateMsg P) (a : StateActions P E) : option (Handler P E) :=
  actions a !! msgId msg.

(** The constructor: the default state has no actions yet and is the current
    one; the timer thread is started. *)
Definition make_states (defaultState : Z) (threadOk : bool) (pt : Z) (e : E) : ModuleStates P E :=
  mkModuleStates {[ defaultState := None ]} (Some defaultState) [] true
    (Start threadOk None (TimerMgr.make 10)) false pt [] newStateActions e.

(** [ForState]: the actions of the state, created on first use.  [alloc] is
    whether [new (std::nothrow)] succeeds.  The result names the actions the
    returned reference designates. *)
Definition ForState (alloc : bool) (s : Z) : St (ModuleStates P E) (option Z) := λ m,
  match states_ m !! s with
  | Some (Some _) => (Some s, m)
  | _ =>
    if alloc then (Some s, m <| states_ ::= <[s := Some newStateActions]> |>)
    else (None, m <| currState_ := None |> <| isInitSucc_ := false |>)
  end.

(** A change of the actions a reference designates. *)
Definition at_ref (r : option Z) (f : StateActions P E → StateActions P E) m : ModuleStates P E :=
  match r with
  | Some s => m <| states_ ::= alter (fmap f) s |>
  | None => m <| g_nullAction ::= f |>
  end.

(** The states [simpleStateStart..simpleStateEnd]. *)
Definition state_range (first last : Z) : list Z :=
  (λ i, first + Z.of_nat i) <$> seq 0 (Z.to_nat (last - first + 1)).

(** [FromState]: the actions of a range of states are added to the group, which
    is returned ([*this]); the group is never cleared. *)
Fixpoint from_states (alloc : bool) (l : list Z) m : ModuleStates P E :=
  match l with
  | [] => m
  | s :: l' => let '(r, m') := ForState alloc s m in
               from_states alloc l' (m' <| mActions ::= λ g, g ++ [r] |>)
  end.
Definition FromState (alloc : bool) (first last : Z) m : ModuleStates P E :=
  from_states alloc (state_range first last) m.

(** [StateGroup::Add] and [StateGroup::Del]. *)
Definition GroupAdd (msgid : Z) (h : Handler P E) m : ModuleStates P E :=
  foldl (λ m' r, at_ref r (Add msgid h) m') m (mActions m).
Definition GroupDel (msgid : Z) m : ModuleStates P E :=
  foldl (λ m' r, at_ref r (Del msgid) m') m (mActions m).

(** [ForState(s)] followed by changes of the actions; allocations succeed. *)
Definition for_state (s : Z) (f : StateActions P E → StateActions P E) m : ModuleStates P E :=
  let '(r, m1) := ForState true s m in at_ref r f m1.

(** A computation on the owner's state, outside a handler. *)
Definition with_env {B} (c : St E B) m : B * ModuleStates P E := let '(b, e) := c (env m) in (b, m <| env := e |>).

(** The actions of a state, [None] when absent or null. *)
Definition state_actions m (s : Z) : option (StateActions P E) := states_ m !! s ≫= id.

Definition set_timer_id (s id : Z) m : ModuleStates P E :=
  m <| states_ ::= alter (fmap (λ a, a <| actTimerId := id |>)) s |>.

(** Leaving a state kills its timer; the reference is reset to [INVALID_ID]. *)
Definition exit_state (cur : Z) (a : StateActions P E) m : ModuleStates P E :=
  if actTimerId a =? INVALID_ID then m
  else let '(id, t) := KillTimer (actTimerId a) (timers m) in
       set_timer_id cur id (m <| timers := t |>).

(** Entering a state arms its timeout, if it has one. *)
Definition enter_state (now next : Z) (b : StateActions P E) m : ModuleStates P E :=
  if cfgDelayUs b =? 0 then m
  else let '(id, t) := SetTimer now (cfgType b) (cfgDelayUs b) (cfgCookie b) this (timers m) in
       set_timer_id next id (m <| timers := t |>).

(** [SetStateListener], [SetProcessType], and [ToState]'s call of the listener. *)
Definition SetStateListener (listener : bool) m : ModuleStates P E := m <| hasListener := listener |>.
Definition SetProcessType (pt : Z) m : ModuleStates P E := m <| processType_ := pt |>.
Definition notify_listener (next : Z) m : ModuleStates P E :=
  if hasListener m then m <| notified ::= λ l, l ++ [(next, processType_ m)] |> else m.

(** [ToState]. *)
Definition ToState (now next : Z) m : option (ModuleStates P E) :=
  cur ← currState_ m;
  a ← state_actions m cur;
  let m1 := exit_state cur a m <| currState_ := Some next |> in
  b ← state_actions m1 next;
  Some (notify_listener next (enter_state now next b m1)).

(** [ResetTimerDelay].  [ResetTimer] is one step here: the caller has the mutex of the
    machine, and the timer thread does nothing between its parts ([reset_gap]). *)
Definition ResetTimerDelay (now : Z) m : ModuleStates P E :=
  match currState_ m with
  | None => m
  | Some cur =>
    match state_actions m cur with
    | None => m
    | Some a =>
      if (actTimerId a =? INVALID_ID) || (cfgDelayUs a =? 0) then m
      else let '(id, t) := ResetTimer now (actTimerId a) (cfgType a) (cfgDelayUs a)
                             (cfgCookie a) this (timers m) in
           set_timer_id cur id (m <| timers := t |>)
    end
  end.

(** [HandleMsg]. *)
Definition HandleMsg (now : Z) (msg : StateMsg P) m : option (Z * ModuleStates P E) :=
  match currState_ m with
  | None => Some (-1, m)
  | Some cur =>
    match state_actions m cur with
    | None => Some (-1, m)
    | Some a =>
      match Handle msg a with
      | None => Some (NO_PROCESS_RET, m)
      | Some h =>
        let '(r, e') := h msg cur (env m) in
        let m1 := m <| env := e' |> in
        let m2 := if hReset r then ResetTimerDelay now m1 else m1 in
        if negb (hRet r =? 0) then Some (hRet r, m2)
        else if cur =? hNext r then Some (0, m2)
        else match states_ m2 !! hNext r with
             | None => Some (0, m2)
             | Some _ => m3 ← ToState now (hNext r) m2; Some (0, m3)
             end
      end
    end
  end.

(** [OnTimerEvent]. *)
Definition OnTimerEvent (now : Z) (info : TimerEvent) (body : option P) m
    : option (Z * ModuleStates P E) :=
  HandleMsg now (mkStateMsg (evType info) body) m.

(** [CurrState]. *)
Definition CurrState m : Z := default NULLSTATE (currState_ m).

(** ** The invariant

    The current state exists; the timer manager is well formed; no state but the
    current one owns a timer, and every armed timer is the current state's: it
    has its id and its timeout message. *)
Record ms_wf m : Prop := {
  ms_timers : wf (timers m);
  ms_curr : ∀ cur, currState_ m = Some cur → is_Some (states_ m !! cur);
  ms_idle : ∀ s a, state_actions m s = Some a → currState_ m ≠ Some s →
            actTimerId a = INVALID_ID;
  ms_armed : ∀ it, it ∈ itemQueue_ (timers m) →
             ∃ cur a, currState_ m = Some cur ∧ state_actions m cur = Some a ∧
                      timerId it = actTimerId a ∧ type it = cfgType a ∧ cfgDelayUs a ≠ 0 }.

(** A machine whose states were all configured: every state has actions, the
    current state is one of them, and a timeout has a handler. *)
Record configured m : Prop := {
  cf_nonnull : ∀ s o, states_ m !! s = Some o → is_Some o;
  cf_curr : ∃ cur, currState_ m = Some cur ∧ is_Some (state_actions m cur);
  cf_timeout : ∀ s a, state_actions m s = Some a → cfgDelayUs a ≠ 0 →
               is_Some (actions a !! cfgType a) }.

(** One step of the machine: a message, or an iteration of the timer thread. *)
Inductive mstep : relation (ModuleStates P E) :=
| mstep_msg now msg m r m' : HandleMsg now msg m = Some (r, m') → mstep m m'
| mstep_timer now m : mstep m (m <| timers ::= λ t, (Run_step now t).2 |>).

(** ** Lemmas *)

Lemma state_actions_set_timer_id s id m s' :
  state_actions (set_timer_id s id m) s' =
    if decide (s = s') then (λ a, a <| actTimerId := id |>) <$> state_actions m s'
    else state_actions m s'.
Proof.
  unfold state_actions, set_timer_id. simpl. rewrite lookup_alter.
  case_decide; [subst|done]. by destruct (states_ m !! s') as [[]|].
Qed.

Lemma states_set_timer_id s id m s' :
  is_Some (states_ (set_timer_id s id m) !! s') ↔ is_Some (states_ m !! s').
Proof.
  unfold set_timer_id. simpl. rewrite lookup_alter. case_decide; [subst|done].
  by rewrite fmap_is_Some.
Qed.

Lemma state_actions_present m s a : state_actions m s = Some a → is_Some (states_ m !! s).
Proof. unfold state_actions. by destruct (states_ m !! s). Qed.

(** The machine between two states: no timer is armed and no state owns one. *)
Record quiet m : Prop := {
  quiet_timers : wf (timers m);
  quiet_queue : itemQueue_ (timers m) = [];
  quiet_ids : ∀ s a, state_actions m s = Some a → actTimerId a = INVALID_ID }.

(** Only the current state's id can be in the queue, so killing it empties it. *)
Lemma armed_queue_kill m cur a :
  ms_wf m → currState_ m = Some cur → state_actions m cur = Some a →
  itemQueue_ (KillTimer (actTimerId a) (timers m)).2 = [].
Proof.
  intros Hm Hc Ha. unfold KillTimer.
  destruct (kill_loop (actTimerId a) (itemQueue_ (timers m))) as [q|] eqn:Ek; simpl.
  - apply kill_loop_Some in Ek as (it & l1 & l2 & Hq & -> & Hid).
    pose proof (wf_nodup _ (ms_timers _ Hm)) as Hnd.
    rewrite Hq, fmap_app, fmap_cons in Hnd.
    apply NoDup_app in Hnd as (_ & Hd & [Hn _]%NoDup_cons).
    destruct (l1 ++ l2) as [|x l] eqn:El; [done|].
    assert (x ∈ itemQueue_ (timers m)) as Hx.
    { rewrite Hq. assert (x ∈ l1 ++ l2) by (rewrite El; by left). set_solver. }
    destruct (ms_armed _ Hm _ Hx) as (c & a' & Hc' & Ha' & Hid' & _). simplify_eq.
    assert (x ∈ l1 ++ l2) as [Hin|Hin]%elem_of_app by (rewrite El; by left).
    + exfalso. apply (Hd (timerId x)); [by apply list_elem_of_fmap_2|]. rewrite Hid', Hid. by left.
    + exfalso. apply Hn. rewrite Hid, <- Hid'. by apply list_elem_of_fmap_2.
  - apply kill_loop_None in Ek. destruct (itemQueue_ (timers m)) as [|x l] eqn:Hq; [done|].
    destruct (ms_armed _ Hm x) as (c & a' & Hc' & Ha' & Hid' & _); [rewrite Hq; by left|].
    simplify_eq. set_solver.
Qed.

(** A current state with no timer id has no armed timer. *)
Lemma unarmed_queue m cur a :
  ms_wf m → currState_ m = Some cur → state_actions m cur = Some a →
  actTimerId a = INVALID_ID → itemQueue_ (timers m) = [].
Proof.
  intros Hm Hc Ha Hinv. destruct (itemQueue_ (timers m)) as [|x l] eqn:Hq; [done|].
  assert (x ∈ itemQueue_ (timers m)) as Hx by (rewrite Hq; by left).
  destruct (ms_armed _ Hm _ Hx) as (c & a' & Hc' & Ha' & Hid' & _). simplify_eq.
  pose proof (wf_range _ (ms_timers _ Hm)) as Hr. rewrite Forall_forall in Hr.
  pose proof (Hr _ Hx). pose proof (wf_cap _ (ms_timers _ Hm)). lia.
Qed.

Lemma exit_state_quiet m cur a next :
  ms_wf m → currState_ m = Some cur → state_actions m cur = Some a →
  quiet (exit_state cur a m <| currState_ := Some next |>).
Proof.
  intros Hm Hc Ha. unfold exit_state. destruct (Z.eqb_spec (actTimerId a) INVALID_ID) as [Hi|Hi].
  - constructor; simpl; [apply Hm|by eapply unarmed_queue|].
    intros s b Hb. change (state_actions m s = Some b) in Hb.
    destruct (decide (s = cur)) as [->|Hne]; [by simplify_eq|].
    eapply (ms_idle _ Hm); [exact Hb|congruence].
  - pose proof (armed_queue_kill _ _ _ Hm Hc Ha) as Hq.
    pose proof (KillTimer_wf (actTimerId a) _ (ms_timers _ Hm)) as Hw.
    assert ((KillTimer (actTimerId a) (timers m)).1 = INVALID_ID) as Hid.
    { unfold KillTimer. by destruct (kill_loop _ _). }
    destruct (KillTimer (actTimerId a) (timers m)) as [id t]; simpl in *; subst id.
    constructor; simpl; [done|done|]. intros s b.
    intros Hb. change (state_actions (set_timer_id cur INVALID_ID (m <| timers := t |>)) s = Some b)
      in Hb. revert Hb. rewrite state_actions_set_timer_id. case_decide as Hs.
    + intros (b' & Hb' & ->)%fmap_Some. done.
    + intros Hb. eapply (ms_idle _ Hm); [exact Hb|congruence].
Qed.

Lemma enter_state_wf now next b m :
  quiet m → currState_ m = Some next → state_actions m next = Some b →
  ms_wf (enter_state now next b m).
Proof.
  intros [Hw Hq Hids] Hc Hb. unfold enter_state.
  destruct (Z.eqb_spec (cfgDelayUs b) 0) as [|Hd].
  - constructor; [done| |eauto|].
    + intros cur Hcur. rewrite Hc in Hcur. injection Hcur as <-. by eapply state_actions_present.
    + rewrite Hq. set_solver.
  - pose proof (SetTimer_cases now (cfgType b) (cfgDelayUs b) (cfgCookie b) this _ Hw) as Hset.
    pose proof (SetTimer_wf now (cfgType b) (cfgDelayUs b) (cfgCookie b) this _ Hw) as Hw'.
    destruct (SetTimer now _ _ _ _ (timers m)) as [id t]. cbn [snd] in Hw'.
    constructor.
    + done.
    + intros cur Hcur. rewrite states_set_timer_id. simpl in *. rewrite Hc in Hcur.
      injection Hcur as <-. by eapply state_actions_present.
    + intros s a. rewrite state_actions_set_timer_id. case_decide as Hs; simpl; [|eauto].
      subst. intros _ Hn. simpl in Hn. by rewrite Hc in Hn.
    + intros it Hit. simpl in Hit. exists next, (b <| actTimerId := id |>).
      assert (state_actions (set_timer_id next id (m <| timers := t |>)) next =
              Some (b <| actTimerId := id |>)) as Hst.
      { rewrite state_actions_set_timer_id, decide_True by done.
        change (state_actions (m <| timers := t |>) next) with (state_actions m next).
        by rewrite Hb. }
      destruct Hset as [(-> & -> & _)|(_ & _ & _ & _ & ->)].
      * rewrite Hq in Hit. set_solver.
      * simpl in Hit. rewrite Hq in Hit. apply list_elem_of_singleton in Hit as ->. done.
Qed.

Lemma notify_listener_wf next m : ms_wf m → ms_wf (notify_listener next m).
Proof. intros []. unfold notify_listener. by destruct (hasListener m). Qed.

Lemma ToState_wf now next m m' : ms_wf m → ToState now next m = Some m' → ms_wf m'.
Proof.
  intros Hm. unfold ToState.
  destruct (currState_ m) as [cur|] eqn:Hc; simpl; [|done].
  destruct (state_actions m cur) as [a|] eqn:Ha; simpl; [|done].
  pose proof (exit_state_quiet m cur a next Hm Hc Ha) as Hq. cbn in Hq |- *.
  destruct (state_actions _ next) as [b|] eqn:Hb; simpl; [|done].
  intros [= <-]. by apply notify_listener_wf, enter_state_wf.
Qed.

Lemma env_wf m e : ms_wf m → ms_wf (m <| env := e |>).
Proof. by intros []. Qed.

(** At most one timer is armed. *)
Lemma armed_at_most_one m : ms_wf m → (length (itemQueue_ (timers m)) ≤ 1)%nat.
Proof.
  intros Hm. destruct (itemQueue_ (timers m)) as [|x [|y q]] eqn:Hq; simpl; [lia|lia|].
  destruct (ms_armed _ Hm x) as (c & a & Hc & Ha & Hx & _); [rewrite Hq; set_solver|].
  destruct (ms_armed _ Hm y) as (c' & a' & Hc' & Ha' & Hy & _); [rewrite Hq; set_solver|].
  rewrite Hc in Hc'. injection Hc' as <-. rewrite Ha in Ha'. injection Ha' as <-.
  pose proof (wf_nodup _ (ms_timers _ Hm)) as Hnd. rewrite Hq in Hnd. simpl in Hnd.
  apply NoDup_cons in Hnd as [Hn _]. exfalso. apply Hn. rewrite Hx, <- Hy. by left.
Qed.

Lemma set_timer_id_wf m cur a id t :
  ms_wf m → currState_ m = Some cur → state_actions m cur = Some a → wf t →
  (∀ it, it ∈ itemQueue_ t → timerId it = id ∧ type it = cfgType a ∧ cfgDelayUs a ≠ 0) →
  ms_wf (set_timer_id cur id (m <| timers := t |>)).
Proof.
  intros Hm Hc Ha Hw Ht. constructor.
  - done.
  - intros c Hcc. rewrite states_set_timer_id. by apply (ms_curr _ Hm).
  - intros s b. rewrite state_actions_set_timer_id. case_decide as Hs; simpl.
    + subst. intros _ Hn. by rewrite Hc in Hn.
    + intros Hb Hn. by apply (ms_idle _ Hm s b).
  - intros it Hit. destruct (Ht it Hit) as (? & ? & ?).
    exists cur, (a <| actTimerId := id |>). split_and!; try done.
    rewrite state_actions_set_timer_id, decide_True by done.
    change (state_actions (m <| timers := t |>) cur) with (state_actions m cur). by rewrite Ha.
Qed.

Lemma reset_gap now id d m t :
  ms_wf m → ResetTimer_first now id d (timers m) = (None, t) → t = timers m ∧ ∀ now', (Run_step now' t).2 = t.
Proof.
  intros Hm Hf. destruct (ResetTimer_gap now id d _ _ (armed_at_most_one _ Hm) Hf) as (-> & _ & _ & Hr). done.
Qed.

Lemma ResetTimerDelay_wf now m : ms_wf m → ms_wf (ResetTimerDelay now m).
Proof.
  intros Hm. unfold ResetTimerDelay.
  destruct (currState_ m) as [cur|] eqn:Hc; [|done].
  destruct (state_actions m cur) as [a|] eqn:Ha; [|done].
  destruct (Z.eqb_spec (actTimerId a) INVALID_ID); [done|].
  destruct (Z.eqb_spec (cfgDelayUs a) 0) as [|Hd]; simpl; [done|].
  pose proof (ResetTimer_wf now (actTimerId a) (cfgType a) (cfgDelayUs a) (cfgCookie a) this _
    (ms_timers _ Hm)) as Hw.
  destruct (ResetTimer now _ _ _ _ _ (timers m)) as [id t] eqn:Er. cbn [snd] in Hw.
  apply (set_timer_id_wf m cur a); try done.
  pose proof (armed_at_most_one _ Hm) as Hle. unfold ResetTimer, ResetTimer_first in Er.
  destruct (itemQueue_ (timers m)) as [|x [|y q]] eqn:Hq; simpl in Hle; [| |lia].
  - unfold KillTimer in Er. rewrite Hq in Er. simpl in Er.
    pose proof (SetTimer_cases now (cfgType a) (cfgDelayUs a) (cfgCookie a) this _
      (ms_timers _ Hm)) as Hset. rewrite Er in Hset.
    destruct Hset as [(-> & -> & _)|(_ & _ & _ & _ & ->)]; rewrite Hq || (simpl; rewrite Hq).
    + set_solver.
    + intros it ->%list_elem_of_singleton. done.
  - destruct (ms_armed _ Hm x) as (c & a' & Hc' & Ha' & Hx & Hty & _); [rewrite Hq; set_solver|].
    simplify_eq. rewrite Hx, Z.eqb_refl in Er. simpl in Er. simplify_eq. simpl.
    intros it ->%list_elem_of_singleton. done.
Qed.

Lemma HandleMsg_wf now msg m r m' : ms_wf m → HandleMsg now msg m = Some (r, m') → ms_wf m'.
Proof.
  intros Hm. unfold HandleMsg.
  destruct (currState_ m) as [cur|] eqn:Hc; [|naive_solver].
  destruct (state_actions m cur) as [a|] eqn:Ha; [|naive_solver].
  destruct (Handle msg a) as [h|]; [|naive_solver].
  destruct (h msg cur (env m)) as [hr e'].
  set (m2 := if hReset hr then _ else _).
  assert (ms_wf m2) as Hm2.
  { unfold m2. destruct (hReset hr); [apply ResetTimerDelay_wf|]; by apply env_wf. }
  clearbody m2. destruct (negb _); [naive_solver|]. destruct (_ =? _); [naive_solver|].
  destruct (states_ m2 !! hNext hr) as [o|]; [|naive_solver].
  destruct (ToState now (hNext hr) m2) as [m3|] eqn:Et; simpl; [|done].
  intros [= <- <-]. by eapply ToState_wf.
Qed.

Lemma timer_step_wf now m : ms_wf m → ms_wf (m <| timers ::= λ t, (Run_step now t).2 |>).
Proof.
  intros Hm. constructor; simpl; [by apply Run_step_wf, Hm|apply Hm|apply (ms_idle _ Hm)|].
  intros it Hit. apply (ms_armed _ Hm). revert Hit. unfold Run_step. case_decide; [done|].
  destruct (itemQueue_ (timers m)) as [|x q] eqn:Hq; simpl; [by rewrite Hq|].
  destruct (_ <? _); simpl; [by rewrite Hq|]. set_solver.
Qed.

Lemma mstep_wf m m' : mstep m m' → ms_wf m → ms_wf m'.
Proof. intros [] Hm; [by eapply HandleMsg_wf|by apply timer_step_wf]. Qed.

(** ** The configuration never changes while messages are handled *)

Definition strip (a : StateActions P E) : StateActions P E := a <| actTimerId := 0 |>.
Definition shape m : gmap Z (option (StateActions P E)) :=
  fmap (M := gmap Z) (fmap (M := option) strip) (states_ m).

Lemma shape_set_timer_id s id m : shape (set_timer_id s id m) = shape m.
Proof.
  apply map_eq. intros i. unfold shape, set_timer_id. simpl.
  rewrite !lookup_fmap, lookup_alter. case_decide; [subst|done].
  by destruct (states_ m !! i) as [[]|].
Qed.

Lemma shape_exit cur a m : shape (exit_state cur a m) = shape m.
Proof.
  unfold exit_state. destruct (_ =? _); [done|].
  destruct (KillTimer _ _). by rewrite shape_set_timer_id.
Qed.

Lemma shape_enter now next b m : shape (enter_state now next b m) = shape m.
Proof.
  unfold enter_state. destruct (_ =? _); [done|].
  destruct (SetTimer _ _ _ _ _ _). by rewrite shape_set_timer_id.
Qed.

Lemma shape_reset now m : shape (ResetTimerDelay now m) = shape m.
Proof.
  unfold ResetTimerDelay. destruct (currState_ m); [|done].
  destruct (state_actions m _); [|done]. destruct (_ || _); [done|].
  destruct (ResetTimer _ _ _ _ _ _ _). by rewrite shape_set_timer_id.
Qed.

Lemma reset_curr now m : currState_ (ResetTimerDelay now m) = currState_ m.
Proof.
  unfold ResetTimerDelay. destruct (currState_ m) eqn:Hc; [|done].
  destruct (state_actions m _); [|done]. destruct (_ || _); [done|].
  by destruct (ResetTimer _ _ _ _ _ _ _).
Qed.

Lemma shape_state_actions m m' s a :
  shape m = shape m' → state_actions m s = Some a →
  ∃ a', state_actions m' s = Some a' ∧ strip a = strip a'.
Proof.
  intros Hsh Ha. unfold state_actions in *.
  assert (shape m !! s = shape m' !! s) as Hl by (by rewrite Hsh).
  unfold shape in Hl. rewrite !lookup_fmap in Hl.
  destruct (states_ m !! s) as [[x|]|] eqn:E1; simpl in Ha; [|done|done]. injection Ha as ->.
  destruct (states_ m' !! s) as [[y|]|]; simpl in Hl; [|done|done].
  injection Hl as Hl1 Hl2 Hl3 Hl4. exists y. split; [done|]. unfold strip. simpl. congruence.
Qed.

Lemma shape_present m m' s : shape m = shape m' → is_Some (states_ m !! s) → is_Some (states_ m' !! s).
Proof.
  intros Hsh. assert (shape m !! s = shape m' !! s) as Hl by (by rewrite Hsh).
  unfold shape in Hl. rewrite !lookup_fmap in Hl.
  destruct (states_ m !! s), (states_ m' !! s); simpl in *; naive_solver.
Qed.

Lemma configured_shape m m' cur :
  configured m → shape m = shape m' → currState_ m' = Some cur → is_Some (states_ m !! cur) →
  configured m'.
Proof.
  intros [Hn _ Ht] Hsh Hc Hcur. constructor.
  - intros s o Ho. assert (is_Some (states_ m !! s)) as [o' Ho'].
    { apply (shape_present m' m); eauto. }
    assert (shape m !! s = shape m' !! s) as Hl by (by rewrite Hsh).
    unfold shape in Hl. rewrite !lookup_fmap, Ho, Ho' in Hl. simpl in Hl.
    destruct (Hn _ _ Ho') as [a' ->]. destruct o; naive_solver.
  - destruct Hcur as [o Ho]. destruct (Hn _ _ Ho) as [a ->]. exists cur. split; [done|].
    destruct (shape_state_actions m m' cur a) as (a' & -> & _); [done| |eauto].
    unfold state_actions. by rewrite Ho.
  - intros s a Ha Hd. destruct (shape_state_actions m' m s a) as (a' & Ha' & Hst); [done|done|].
    unfold strip in Hst. simpl in Hst. injection Hst as Hty Hdl Hck Hac.
    rewrite Hty, Hac. apply (Ht s a'); [done|]. by rewrite <- Hdl.
Qed.

Lemma configured_curr m cur :
  configured m → currState_ m = Some cur → ∃ a, state_actions m cur = Some a.
Proof. intros [_ (c & Hc & [a Ha]) _] ?. simplify_eq. eauto. Qed.

Lemma configured_env m e : configured m → configured (m <| env := e |>).
Proof. by intros []. Qed.

Lemma configured_reset now m : configured m → configured (ResetTimerDelay now m).
Proof.
  intros Hm. destruct (cf_curr _ Hm) as (cur & Hc & [a Ha]).
  eapply (configured_shape m _ cur); [done|by rewrite shape_reset|by rewrite reset_curr|].
  by eapply state_actions_present.
Qed.

Lemma notify_shape next m : shape (notify_listener next m) = shape m.
Proof. unfold notify_listener. by destruct (hasListener m). Qed.

Lemma enter_curr now next b m : currState_ (enter_state now next b m) = currState_ m.
Proof. unfold enter_state. destruct (_ =? _); [done|]. by destruct (SetTimer _ _ _ _ _ _). Qed.

Lemma notify_curr next m : currState_ (notify_listener next m) = currState_ m.
Proof. unfold notify_listener. by destruct (hasListener m). Qed.

(** A transition of a configured machine to a known state succeeds. *)
Lemma ToState_total now next m :
  configured m → is_Some (states_ m !! next) →
  ∃ m', ToState now next m = Some m' ∧ currState_ m' = Some next ∧ shape m' = shape m.
Proof.
  intros Hm Hn. destruct (cf_curr _ Hm) as (cur & Hc & [a Ha]).
  unfold ToState. rewrite Hc. simpl. rewrite Ha. simpl.
  destruct Hn as [o Ho]. destruct (cf_nonnull _ Hm _ _ Ho) as [b ->].
  destruct (shape_state_actions m (exit_state cur a m) next b) as (b' & Hb' & _).
  { by rewrite shape_exit. } { unfold state_actions. by rewrite Ho. }
  change (state_actions _ next) with (state_actions (exit_state cur a m) next).
  rewrite Hb'. simpl. eexists. split; [done|]. rewrite notify_curr, enter_curr. split; [done|].
  rewrite notify_shape, shape_enter. apply (shape_exit cur a m).
Qed.

(** What [HandleMsg] computes on a configured machine: the machine after the
    handler ran, before a transition. *)
Definition after_handler (now : Z) (r : HandlerResult) (e' : E) m : ModuleStates P E :=
  if hReset r then ResetTimerDelay now (m <| env := e' |>) else m <| env := e' |>.

Lemma after_handler_facts now r e' m :
  configured m →
  configured (after_handler now r e' m) ∧ currState_ (after_handler now r e' m) = currState_ m ∧
  shape (after_handler now r e' m) = shape m.
Proof.
  intros Hm. unfold after_handler. destruct (hReset r).
  - split_and!; [by apply configured_reset, configured_env|by rewrite reset_curr|].
    by rewrite shape_reset.
  - by split_and!; [apply configured_env| |].
Qed.

(** What the listener was told, and the handlers' environment. *)
Definition heard m : list (Z * Z) * E * (bool * Z) :=
  (notified m, env m, (hasListener m, processType_ m)).

Lemma after_handler_heard now r e' m :
  heard (after_handler now r e' m) = (notified m, e', (hasListener m, processType_ m)).
Proof.
  unfold after_handler, ResetTimerDelay. destruct (hReset r); [|done]. simpl.
  destruct (currState_ m) as [cur|]; [|done].
  destruct (state_actions _ cur) as [a|]; [|done]. destruct (_ || _); [done|].
  by destruct (ResetTimer _ _ _ _ _ _ _).
Qed.

Lemma ToState_heard now next m m' :
  ToState now next m = Some m' →
  notified m' = notified m ++ (if hasListener m then [(next, processType_ m)] else []) ∧ env m' = env m ∧
  hasListener m' = hasListener m ∧ processType_ m' = processType_ m.
Proof.
  unfold ToState, exit_state, enter_state, notify_listener.
  destruct (currState_ m) as [cur|]; [|done]. simpl. destruct (state_actions m cur) as [a|]; [|done]. simpl.
  destruct (_ =? INVALID_ID); [|destruct (KillTimer _ _)]; simpl;
    (destruct (state_actions _ next) as [b|]; [|done]; simpl; intros [= <-];
     destruct (_ =? 0); [|destruct (SetTimer _ _ _ _ _ _)]; simpl;
     destruct (hasListener m); simpl; by rewrite ?app_nil_r).
Qed.

Lemma HandleMsg_unfold now msg m cur a h r e' :
  currState_ m = Some cur → state_actions m cur = Some a → Handle msg a = Some h →
  h msg cur (env m) = (r, e') →
  HandleMsg now msg m =
    if negb (hRet r =? 0) then Some (hRet r, after_handler now r e' m)
    else if cur =? hNext r then Some (0, after_handler now r e' m)
    else match states_ (after_handler now r e' m) !! hNext r with
         | None => Some (0, after_handler now r e' m)
         | Some _ => m3 ← ToState now (hNext r) (after_handler now r e' m); Some (0, m3)
         end.
Proof. intros Hc Ha Hh He. unfold HandleMsg. by rewrite Hc, Ha, Hh, He. Qed.

Lemma HandleMsg_total now msg m :
  configured m → ∃ r m', HandleMsg now msg m = Some (r, m') ∧ configured m'.
Proof.
  intros Hm. destruct (cf_curr _ Hm) as (cur & Hc & [a Ha]).
  destruct (Handle msg a) as [h|] eqn:Hh.
  - destruct (h msg cur (env m)) as [r e'] eqn:He.
    rewrite (HandleMsg_unfold now msg m cur a h r e') by done.
    destruct (after_handler_facts now r e' m Hm) as (Hm1 & Hc1 & Hs1).
    destruct (negb _); [eauto|]. destruct (_ =? _); [eauto|].
    destruct (states_ (after_handler now r e' m) !! hNext r) as [o|] eqn:Ho; [|eauto].
    destruct (ToState_total now (hNext r) (after_handler now r e' m)) as (m' & -> & Hc' & Hs');
      [done|by rewrite Ho|]. simpl.
    exists 0, m'. split; [done|]. apply (configured_shape (after_handler now r e' m) m' (hNext r));
      [done|done|done|by rewrite Ho].
  - exists NO_PROCESS_RET, m. unfold HandleMsg. by rewrite Hc, Ha, Hh.
Qed.

Lemma mstep_configured m m' : mstep m m' → configured m → configured m'.
Proof.
  intros [now msg m1 r m2 Hh|now m1] Hm.
  - destruct (HandleMsg_total now msg m1 Hm) as (r' & m3 & Hh' & ?). by simplify_eq.
  - by destruct Hm.
Qed.

(** [HandleMsg], case by case. *)
Lemma HandleMsg_cases now msg m cur a :
  configured m → currState_ m = Some cur → state_actions m cur = Some a →
  match actions a !! msgId msg with
  | None => HandleMsg now msg m = Some (NO_PROCESS_RET, m)
  | Some h =>
    let '(r, e') := h msg cur (env m) in
    ∃ m', HandleMsg now msg m = Some (hRet r, m') ∧ configured m' ∧ env m' = e' ∧ shape m' = shape m ∧
      (hasListener m', processType_ m') = (hasListener m, processType_ m) ∧
      (hRet r ≠ 0 ∨ hNext r = cur ∨ states_ m !! hNext r = None →
         currState_ m' = Some cur ∧ notified m' = notified m) ∧
      (hRet r = 0 → hNext r ≠ cur → is_Some (states_ m !! hNext r) →
         currState_ m' = Some (hNext r) ∧
         notified m' = notified m ++ (if hasListener m then [(hNext r, processType_ m)] else []))
  end.
Proof.
  intros Hm Hc Ha. destruct (actions a !! msgId msg) as [h|] eqn:Hh.
  2: { change (Handle msg a = None) in Hh. unfold HandleMsg. by rewrite Hc, Ha, Hh. }
  destruct (h msg cur (env m)) as [r e'] eqn:He.
  destruct (HandleMsg_total now msg m Hm) as (r0 & m0 & H0 & Hm0).
  rewrite (HandleMsg_unfold now msg m cur a h r e') in H0 |- * by done.
  destruct (after_handler_facts now r e' m Hm) as (Hm1 & Hc1 & Hs1).
  pose proof (after_handler_heard now r e' m) as Hd. unfold heard in Hd. injection Hd as Hn Hv Hl Hp.
  destruct (Z.eqb_spec (hRet r) 0) as [E0|E0]; simpl in *.
  2: { exists m0. simplify_eq. split_and!; try done; [by rewrite Hl, Hp|by rewrite Hc1]. }
  destruct (Z.eqb_spec cur (hNext r)) as [E1|E1].
  { exists m0. rewrite E0. simplify_eq. split_and!; try done; [by rewrite Hl, Hp|by rewrite Hc1..]. }
  destruct (states_ (after_handler now r e' m) !! hNext r) as [o|] eqn:Ho.
  - destruct (ToState_total now (hNext r) (after_handler now r e' m)) as (m' & Ht & Hc' & Hs');
      [done|by rewrite Ho|]. destruct (ToState_heard _ _ _ _ Ht) as (Hn' & Hv' & Hl' & Hp').
    rewrite Ht in H0 |- *. simpl in *. simplify_eq. rewrite E0.
    exists m0. split_and!; try done; [congruence|congruence|by rewrite Hl', Hp', Hl, Hp| |].
    + intros [?|[?|Hno]]; [done|congruence|].
      exfalso. destruct (shape_present _ m (hNext r) Hs1) as [x Hx]; [by rewrite Ho|]. congruence.
    + intros _ _ _. by rewrite Hn', Hn, Hl, Hp.
  - exists m0. simplify_eq. rewrite E0. split_and!; try done; [by rewrite Hl, Hp|by rewrite Hc1|].
    intros _ _ Hsome. destruct (shape_present m _ (hNext r) (eq_sym Hs1) Hsome) as [x Hx]. congruence.
Qed.

(** The owner's state is what the handler leaves. *)
Lemma HandleMsg_env now msg m cur a h r m' :
  configured m → currState_ m = Some cur → state_actions m cur = Some a → Handle msg a = Some h →
  HandleMsg now msg m = Some (r, m') → env m' = (h msg cur (env m)).2.
Proof.
  intros Hm Hc Ha Hh Hr. pose proof (HandleMsg_cases now msg m cur a Hm Hc Ha) as Hcs.
  destruct (actions a !! msgId msg) as [h'|] eqn:Hx.
  - assert (Some h' = Some h) as [= ->] by exact (eq_trans (eq_sym Hx) Hh).
    destruct (h msg cur (env m)) as [hr e']. destruct Hcs as (m2 & H2 & _ & He & _). cbn. congruence.
  - assert (None = Some h) by exact (eq_trans (eq_sym Hx) Hh). done.
Qed.

(** *** Invariants of the owner, state by state

    [I s] is what the owner's state satisfies while the machine is in [s]. *)

(** The handler of every message keeps [I], moving along with the state it chooses. *)
Definition handlers_keep (I : Z → E → Prop) m : Prop := ∀ s a mid h body e r e',
  state_actions m s = Some a → actions a !! mid = Some h → I s e → h (mkStateMsg mid body) s e = (r, e') →
  I (if (hRet r =? 0) && bool_decide (is_Some (states_ m !! hNext r)) then hNext r else s) e'.

Lemma handlers_keep_shape I m m' : shape m = shape m' → handlers_keep I m → handlers_keep I m'.
Proof.
  intros Hsh Hk s a mid h body e r e' Ha Hh HI He.
  destruct (shape_state_actions m' m s a (eq_sym Hsh) Ha) as (b & Hb & Hst).
  unfold strip in Hst. simpl in Hst. injection Hst as _ _ _ Hac. rewrite Hac in Hh.
  specialize (Hk s b mid h body e r e' Hb Hh HI He).
  assert (bool_decide (is_Some (states_ m' !! hNext r)) = bool_decide (is_Some (states_ m !! hNext r))) as ->; [|done].
  apply bool_decide_ext. split; by apply shape_present.
Qed.

(** What the handler of a message establishes of the state the machine goes to. *)
Lemma HandleMsg_post (Q : Z → E → Prop) now msg m cur r m' :
  configured m → currState_ m = Some cur → Q cur (env m) →
  (∀ a h hr e', state_actions m cur = Some a → actions a !! msgId msg = Some h → h msg cur (env m) = (hr, e') →
     Q (if (hRet hr =? 0) && bool_decide (is_Some (states_ m !! hNext hr)) then hNext hr else cur) e') →
  HandleMsg now msg m = Some (r, m') →
  configured m' ∧ shape m' = shape m ∧ (hasListener m', processType_ m') = (hasListener m, processType_ m) ∧
  ∃ cur', currState_ m' = Some cur' ∧ Q cur' (env m') ∧
          (cur' = cur ∧ notified m' = notified m ∨
           cur' ≠ cur ∧ notified m' = notified m ++ (if hasListener m then [(cur', processType_ m)] else [])).
Proof.
  intros Hm Hc HI Hk Hr. destruct (configured_curr _ _ Hm Hc) as [a Ha].
  pose proof (HandleMsg_cases now msg m cur a Hm Hc Ha) as Hcs.
  destruct (actions a !! msgId msg) as [h|] eqn:Hh; [|simplify_eq; by eauto 10].
  destruct (h msg cur (env m)) as [hr e'] eqn:He.
  destruct Hcs as (m2 & H2 & Hm2 & He2 & Hs2 & Hl2 & Hstay & Hgo). simpl in H2. rewrite Hr in H2. injection H2 as -> <-.
  split_and!; [done..|]. pose proof (Hk a h hr e' Ha Hh He) as HI'.
  destruct (Z.eqb_spec (hRet hr) 0) as [E0|E0]; simpl in HI'.
  2: { destruct Hstay as [Hc' Hn']; [by left|]. exists cur. rewrite He2. auto. }
  case_bool_decide as Hs.
  - destruct (decide (hNext hr = cur)) as [E1|E1].
    + destruct Hstay as [Hc' Hn']; [auto|]. exists cur. rewrite He2. rewrite E1 in HI'. auto.
    + destruct Hgo as [Hc' Hn']; [done..|]. exists (hNext hr). rewrite He2. auto.
  - destruct Hstay as [Hc' Hn']; [right; right; by apply eq_None_not_Some|]. exists cur. rewrite He2. auto.
Qed.

Lemma HandleMsg_invariant (I : Z → E → Prop) now msg m cur r m' :
  configured m → handlers_keep I m → currState_ m = Some cur → I cur (env m) → HandleMsg now msg m = Some (r, m') →
  configured m' ∧ shape m' = shape m ∧ (hasListener m', processType_ m') = (hasListener m, processType_ m) ∧
  ∃ cur', currState_ m' = Some cur' ∧ I cur' (env m') ∧
          (cur' = cur ∧ notified m' = notified m ∨
           cur' ≠ cur ∧ notified m' = notified m ++ (if hasListener m then [(cur', processType_ m)] else [])).
Proof.
  intros Hm Hk Hc HI. apply (HandleMsg_post I); [done..|]. intros a h hr e' Ha Hh He.
  destruct msg as [mid body]. by apply (Hk cur a mid h body (env m)).
Qed.

(** *** Machines given by their tables *)

(** The handlers of a machine: state, message, handler. *)
Definition actions_list m : list (Z * Z * Handler P E) :=
  x ← map_to_list (states_ m);
  match x.2 with
  | None => []
  | Some a => (λ y, (x.1, y.1, y.2)) <$> map_to_list (actions a)
  end.
(** Every state has actions, and a handler for its timeout if it has one. *)
Definition configured_b m : bool :=
  forallb (λ x, match x.2 with
                | None => false
                | Some a => (cfgDelayUs a =? 0) || match actions a !! cfgType a with Some _ => true | None => false end
                end) (map_to_list (states_ m)).

Lemma elem_of_actions_list m s a mid h :
  state_actions m s = Some a → actions a !! mid = Some h → (s, mid, h) ∈ actions_list m.
Proof.
  intros Ha Hh. unfold actions_list. apply list_elem_of_bind. unfold state_actions in Ha.
  destruct (states_ m !! s) as [[x|]|] eqn:Hs; simpl in Ha; [|done|done]. injection Ha as ->.
  exists (s, Some a). split; [|by apply elem_of_map_to_list]. simpl.
  apply list_elem_of_fmap. exists (mid, h). split; [done|by apply elem_of_map_to_list].
Qed.

Lemma configured_intro m cur :
  configured_b m = true → currState_ m = Some cur → is_Some (states_ m !! cur) → configured m.
Proof.
  unfold configured_b. rewrite forallb_forall. intros Hb Hc [o Ho].
  assert (∀ s o, states_ m !! s = Some o → ∃ a, o = Some a ∧ (cfgDelayUs a ≠ 0 → is_Some (actions a !! cfgType a))) as Hall.
  { intros s o' Ho'. assert (In (s, o') (map_to_list (states_ m))) as Hin
      by (by apply list_elem_of_In, elem_of_map_to_list).
    specialize (Hb _ Hin). simpl in Hb. destruct o' as [a|]; [|done]. exists a. split; [done|]. intros Hd.
    apply orb_true_iff in Hb as [Hb%Z.eqb_eq|Hb]; [done|]. destruct (actions a !! cfgType a); [by eexists|done]. }
  constructor.
  - intros s o' Ho'. destruct (Hall s o' Ho') as (a & -> & _). by eexists.
  - exists cur. split; [done|]. destruct (Hall cur o Ho) as (a & -> & _). unfold state_actions. rewrite Ho. by eexists.
  - intros s a Ha. unfold state_actions in Ha. destruct (states_ m !! s) as [o'|] eqn:Ho'; [|done].
    destruct (Hall s o' Ho') as (b & -> & Hb'). simpl in Ha. by injection Ha as ->.
Qed.

(** The states [I] keeps between are states of the machine. *)
Lemma handlers_keep_table (I : Z → E → Prop) (states : list Z) m :
  (∀ s, s ∈ states → is_Some (states_ m !! s)) →
  Forall (λ x : Z * Z * Handler P E, ∀ body e, I x.1.1 e →
            let '(r, e') := x.2 (mkStateMsg x.1.2 body) x.1.1 e in
            I (if hRet r =? 0 then hNext r else x.1.1) e' ∧ (hRet r = 0 → hNext r ∈ states)) (actions_list m) →
  handlers_keep I m.
Proof.
  intros Hst Hall s a mid h body e r e' Ha Hh HI He.
  rewrite Forall_forall in Hall. specialize (Hall _ (elem_of_actions_list m s a mid h Ha Hh) body e HI).
  simpl in Hall. rewrite He in Hall. destruct Hall as [HI' Hn].
  destruct (Z.eqb_spec (hRet r) 0) as [E0|E0]; simpl; [|done]. by rewrite bool_decide_true by auto.
Qed.

(** ** The configuration API *)

Lemma at_ref_Some s f m s' :
  state_actions (at_ref (Some s) f m) s' =
    if decide (s = s') then f <$> state_actions m s' else state_actions m s'.
Proof.
  unfold state_actions, at_ref. simpl. rewrite lookup_alter.
  case_decide; [subst|done]. by destruct (states_ m !! s') as [[]|].
Qed.

Lemma foldl_at_ref f refs m s :
  (∀ a, f (f a) = f a) →
  state_actions (foldl (λ m' r, at_ref r f m') m refs) s =
    if decide (Some s ∈ refs) then f <$> state_actions m s else state_actions m s.
Proof.
  intros Hf. revert m. induction refs as [|r refs IH]; intros m; simpl; [done|].
  rewrite IH. destruct r as [s0|].
  - rewrite !at_ref_Some. destruct (decide (s0 = s)) as [->|Hne].
    + rewrite (decide_True (P := Some s ∈ Some s :: refs)) by (by left).
      case_decide; [|done]. by destruct (state_actions m s); simpl; rewrite ?Hf.
    + do 2 case_decide; try done; set_solver.
  - change (state_actions (at_ref None f m) s) with (state_actions m s).
    do 2 case_decide; try done; set_solver.
Qed.

Lemma ForState_keeps s m s' a :
  state_actions m s' = Some a → state_actions (ForState true s m).2 s' = Some a.
Proof.
  intros Ha. unfold ForState. destruct (states_ m !! s) as [[x|]|] eqn:Hs; simpl; [done| |];
    unfold state_actions in *; simpl; rewrite lookup_insert; (case_decide; [subst|done]);
    by rewrite Hs in Ha.
Qed.

Lemma ForState_has s m : is_Some (state_actions (ForState true s m).2 s).
Proof.
  unfold ForState. destruct (states_ m !! s) as [[x|]|] eqn:Hs; simpl;
    unfold state_actions; simpl; rewrite ?lookup_insert_eq, ?Hs; by eexists.
Qed.

Lemma ForState_ref s m :
  (ForState true s m).1 = Some s ∧ mActions (ForState true s m).2 = mActions m.
Proof. unfold ForState. by destruct (states_ m !! s) as [[x|]|]. Qed.

Lemma from_states_spec l m :
  mActions (from_states true l m) = mActions m ++ (Some <$> l) ∧
  (∀ s, s ∈ l → is_Some (state_actions (from_states true l m) s)) ∧
  (∀ s, is_Some (state_actions m s) → is_Some (state_actions (from_states true l m) s)).
Proof.
  revert m. induction l as [|s l IH]; intros m; simpl.
  { rewrite app_nil_r. split_and!; [done|set_solver|done]. }
  pose proof (ForState_has s m) as Hhas. destruct (ForState_ref s m) as [Hr Hg].
  pose proof (ForState_keeps s m) as Hk.
  destruct (ForState true s m) as [r m1]. cbn [fst snd] in *. subst r.
  destruct (IH (m1 <| mActions ::= λ g, g ++ [Some s] |>)) as (H1 & H2 & H3).
  simpl in H1, H2, H3. split_and!.
  - rewrite H1, Hg, <- app_assoc. done.
  - intros s' [->|Hin]%elem_of_cons; [by apply H3|by apply H2].
  - intros s' [a Ha]. apply H3. exists a. by apply Hk.
Qed.

(** ** Properties *)

(** From a configured machine with no armed timer, every sequence of
    messages and timer-thread iterations keeps the machine configured (so no
    message ever dereferences a null action), keeps at most one timer armed,
    and every armed timer is the timeout of the current state. *)
Theorem machine_reachable_wf m0 m
    (Hq : quiet m0) (Hcf : configured m0) (Hr : rtc mstep m0 m) :
  configured m ∧ ms_wf m ∧ (length (itemQueue_ (timers m)) ≤ 1)%nat ∧
  ∀ now msg, is_Some (HandleMsg now msg m).
Proof.
  assert (ms_wf m0) as Hwf.
  { destruct Hq as [Hw Hqu Hids]. constructor; [done| |eauto|rewrite Hqu; set_solver].
    intros cur Hc. destruct (configured_curr _ _ Hcf Hc) as [a Ha].
    by eapply state_actions_present. }
  clear Hq. induction Hr as [m|x y z Hxy _ IH].
  - split_and!; [done|done|by apply armed_at_most_one|].
    intros now msg. destruct (HandleMsg_total now msg m Hcf) as (r & m' & -> & _). eauto.
  - apply IH; [by eapply mstep_configured|by eapply mstep_wf].
Qed.

(** On a configured machine in state [cur], a message without a handler
    answers NO_PROCESS_RET and changes nothing; otherwise the handler's code is
    returned and its effect kept: when it failed, chose the current state or a
    state that does not exist, the machine stays and the listener hears nothing;
    else the machine moves to the state it chose and the listener, if any, is
    told that state once. *)
Theorem HandleMsg_spec now msg m cur a
    (Hm : configured m) (Hc : currState_ m = Some cur) (Ha : state_actions m cur = Some a) :
  match actions a !! msgId msg with
  | None => HandleMsg now msg m = Some (NO_PROCESS_RET, m)
  | Some h =>
    let '(r, e') := h msg cur (env m) in
    ∃ m', HandleMsg now msg m = Some (hRet r, m') ∧ configured m' ∧ env m' = e' ∧
      (hRet r ≠ 0 ∨ hNext r = cur ∨ states_ m !! hNext r = None →
         currState_ m' = Some cur ∧ notified m' = notified m) ∧
      (hRet r = 0 → hNext r ≠ cur → is_Some (states_ m !! hNext r) →
         currState_ m' = Some (hNext r) ∧
         notified m' = notified m ++ (if hasListener m then [(hNext r, processType_ m)] else []))
  end.
Proof.
  pose proof (HandleMsg_cases now msg m cur a Hm Hc Ha) as H.
  destruct (actions a !! msgId msg) as [h|]; [|done]. destruct (h msg cur (env m)) as [r e'].
  destruct H as (m' & ? & ? & ? & _ & _ & ? & ?). by exists m'.
Qed.

(** A timer event popped by the timer thread carries the timeout message of
    the state the machine is in at that moment, and that state has a handler
    for it. *)
Theorem timer_event_is_current now m ob info t
    (Hm : ms_wf m) (Hcf : configured m) (Hrun : Run_step now (timers m) = (RunFire ob info, t)) :
  ∃ cur a h, currState_ m = Some cur ∧ state_actions m cur = Some a ∧
             evType info = cfgType a ∧ evTimeId info = actTimerId a ∧
             actions a !! evType info = Some h.
Proof.
  unfold Run_step in Hrun. case_decide; [done|].
  destruct (itemQueue_ (timers m)) as [|it q] eqn:Hq; [done|].
  destruct (_ <? _); [done|]. simplify_eq. simpl.
  destruct (ms_armed _ Hm it) as (cur & a & Hc & Ha & Hid & Hty & Hd); [rewrite Hq; set_solver|].
  destruct (cf_timeout _ Hcf _ _ Ha Hd) as [h Hh]. exists cur, a, h. by rewrite Hty.
Qed.

(** FromState never empties the group it returns: an action added to the
    group of a second FromState call is also added to every state of the first
    call's range. *)
Theorem group_actions_accumulate first1 last1 first2 last2 msgid h m s
    (Hg : mActions m = [])
    (Hs : s ∈ state_range first1 last1 ∨ s ∈ state_range first2 last2) :
  ∃ a, state_actions (GroupAdd msgid h (FromState true first2 last2 (FromState true first1 last1 m))) s
         = Some a ∧ actions a !! msgid = Some h.
Proof.
  unfold FromState, GroupAdd.
  destruct (from_states_spec (state_range first1 last1) m) as (H1 & H2 & _).
  set (m1 := from_states true (state_range first1 last1) m) in *.
  destruct (from_states_spec (state_range first2 last2) m1) as (G1 & G2 & G3).
  set (m2 := from_states true (state_range first2 last2) m1) in *.
  rewrite foldl_at_ref.
  2: { intros b. unfold Add. simpl. by rewrite insert_insert_eq. }
  rewrite decide_True.
  2: { rewrite G1, H1, Hg. simpl. rewrite elem_of_app.
       destruct Hs; [left|right]; by apply list_elem_of_fmap_2. }
  assert (is_Some (state_actions m2 s)) as [a ->] by (destruct Hs; auto).
  exists (Add msgid h a). split; [done|]. simpl. apply lookup_insert_eq.
Qed.

End machine.

(** ** Witnesses *)

(** A machine with two states: 0 goes to 1 on message 5, and state 1 falls back
    to 0 after 1000 us. *)
Definition demo_go (next : Z) : Handler unit nat :=
  λ _ _ e, (mkResult 0 next false, S e).
Definition demo : ModuleStates unit nat :=
  let m := (ForState true 1 (ForState true 0 (make_states 0 true 1 0%nat)).2).2 in
  at_ref (Some 1) (WaitUntil 9 (demo_go 0) 1000 0) (at_ref (Some 0) (Add 5 (demo_go 1)) m).

Lemma demo_states :
  states_ demo = {[ 0 := Some (Add 5 (demo_go 1) newStateActions);
                    1 := Some (WaitUntil 9 (demo_go 0) 1000 0 newStateActions) ]}.
Proof.
  by vm_compute.
Qed.

Lemma demo_actions s a :
  state_actions demo s = Some a →
  (s = 0 ∧ a = Add 5 (demo_go 1) newStateActions) ∨
  (s = 1 ∧ a = WaitUntil 9 (demo_go 0) 1000 0 newStateActions).
Proof.
  unfold state_actions. rewrite demo_states.
  destruct (decide (s = 0)) as [->|]; [rewrite lookup_insert_eq; naive_solver|].
  rewrite lookup_insert_ne by done. rewrite lookup_singleton. case_decide; naive_solver.
Qed.

Lemma demo_quiet : quiet demo.
Proof.
  constructor; [|done|].
  - apply Start_wf, make_wf. unfold INVALID_ID. lia.
  - intros s a [[_ ->]|[_ ->]]%demo_actions; done.
Qed.

Lemma demo_configured : configured demo.
Proof.
  constructor.
  - intros s o. rewrite demo_states, lookup_insert, lookup_singleton.
    repeat case_decide; intros ?; simplify_eq; by eexists.
  - exists 0. split; [done|]. unfold state_actions. rewrite demo_states. by eexists.
  - intros s a [[_ ->]|[_ ->]]%demo_actions ?; [done|]. simpl. by rewrite lookup_insert_eq.
Qed.

Definition demo1 : ModuleStates unit nat :=
  default demo (snd <$> HandleMsg 100 (mkStateMsg 5 None) demo).

Lemma demo_step : mstep demo demo1.
Proof. apply (mstep_msg 100 (mkStateMsg 5 None) demo 0). by vm_compute. Qed.

Lemma demo1_configured : configured demo1.
Proof. exact (mstep_configured _ _ demo_step demo_configured). Qed.

Lemma demo1_wf : ms_wf demo1.
Proof.
  apply (mstep_wf _ _ demo_step). destruct demo_quiet as [Hw Hq Hids].
  constructor; [done| |eauto|rewrite Hq; set_solver].
  intros cur Hc. destruct (configured_curr _ _ demo_configured Hc) as [a Ha].
  by eapply state_actions_present.
Qed.

Lemma machine_reachable_wf_witness : configured demo1 ∧ ms_wf demo1.
Proof.
  destruct (machine_reachable_wf demo demo1 demo_quiet demo_configured) as (? & ? & _); [|done].
  apply rtc_once, demo_step.
Defined.

Lemma HandleMsg_spec_witness :
  ∃ m', HandleMsg 100 (mkStateMsg 5 None) demo = Some (0, m') ∧ currState_ m' = Some 1.
Proof.
  destruct (HandleMsg_spec 100 (mkStateMsg 5 None) demo 0 (Add 5 (demo_go 1) newStateActions)
    demo_configured eq_refl ltac:(by vm_compute)) as (m' & H1 & _ & _ & _ & H2).
  exists m'. split; [exact H1|]. apply H2; [done|done|]. vm_compute. by eexists.
Defined.

Lemma timer_event_is_current_witness :
  ∃ cur a h, currState_ demo1 = Some cur ∧ state_actions demo1 cur = Some a ∧
             9 = cfgType a ∧ 0 = actTimerId a ∧ actions a !! 9 = Some h.
Proof.
  apply (timer_event_is_current 5000 demo1 this (mkTimerEvent 9 0 0)
    (Run_step 5000 (timers demo1)).2 demo1_wf demo1_configured). by vm_compute.
Defined.

Lemma group_actions_accumulate_witness :
  ∃ a, state_actions (GroupAdd 3 (demo_go 0)
         (FromState true 1 2 (FromState true 0 2 (make_states 0 true 1 0%nat)))) 0 = Some a ∧
       actions a !! 3 = Some (demo_go 0).
Proof.
  apply (group_actions_accumulate 0 2 1 2 3 (demo_go 0) (make_states 0 true 1 0%nat) 0);
    [done|left; vm_compute; by left].
Defined.
