(* ===== verification/StateTimeout.v ===== *)
(** * A state with a timeout is left

    The timer thread pops an event and then, without the lock of the timer manager, hands
    it to [OnTimerEvent]; messages can be handled in between, so a popped event is kept
    in flight here until it is delivered.  Whatever is handled meanwhile, a machine in a
    state with a timeout has the timer of that state armed, or its event is in flight. *)

From S2P Require Import Prelude TimerMgr StateManager.
Import TimerMgr.

Section timeout.
Context {P E : Type}.
Implicit Types m : ModuleStates P E.

(** A step of the timer thread, on the machine with the events in flight: the head of the
    queue is popped, or a popped event is delivered. *)
Inductive thread_step : relation (ModuleStates P E * list TimerEvent) :=
| ts_pop now m fl ob info t :
    Run_step now (timers m) = (RunFire ob info, t) → thread_step (m, fl) (m <| timers := t |>, fl ++ [info])
| ts_deliver now body info m fl fl' r m' :
    OnTimerEvent now info body m = Some (r, m') → thread_step (m, fl ++ info :: fl') (m', fl ++ fl').

(** A step of the thread, or a message of a client. *)
Inductive tstep : relation (ModuleStates P E * list TimerEvent) :=
| ts_msg now msg m fl r m' : HandleMsg now msg m = Some (r, m') → tstep (m, fl) (m', fl)
| ts_thread x y : thread_step x y → tstep x y.

(** The timer thread runs and has ids to give. *)
Definition alive (t : TimerMgr) : Prop := status_ t = TIMER_STATUS_STARTED ∧ idFlags t ≠ [].

(** The handler of a timeout leaves its state. *)
Definition timeouts_leave m : Prop := ∀ s a h body e r e',
  state_actions m s = Some a → cfgDelayUs a ≠ 0 → actions a !! cfgType a = Some h →
  h (mkStateMsg (cfgType a) body) s e = (r, e') → hRet r = 0 ∧ hNext r ≠ s ∧ is_Some (states_ m !! hNext r).

Record timed m (fl : list TimerEvent) : Prop := {
  td_wf : ms_wf m;
  td_conf : configured m;
  td_alive : alive (timers m);
  td_leave : timeouts_leave m;
  td_due : ∀ cur a, currState_ m = Some cur → state_actions m cur = Some a → cfgDelayUs a ≠ 0 →
             itemQueue_ (timers m) ≠ [] ∨ cfgType a ∈ evType <$> fl }.

(** The timeouts of a machine: state, message and handler. *)
Definition timeout_table m : list (Z * Z * option (Handler P E)) :=
  x ← map_to_list (states_ m);
  match x.2 with
  | None => []
  | Some a => if cfgDelayUs a =? 0 then [] else [(x.1, cfgType a, actions a !! cfgType a)]
  end.
Lemma state_actions_list m s a : state_actions m s = Some a ↔ (s, Some a) ∈ map_to_list (states_ m).
Proof. rewrite elem_of_map_to_list. unfold state_actions. by destruct (states_ m !! s) as [[]|]; naive_solver. Qed.
Lemma elem_of_timeout_table m s ty h :
  (s, ty, h) ∈ timeout_table m ↔
  ∃ a, state_actions m s = Some a ∧ cfgDelayUs a ≠ 0 ∧ ty = cfgType a ∧ h = actions a !! cfgType a.
Proof.
  unfold timeout_table. rewrite list_elem_of_bind. split.
  - intros ([s' [a|]] & Hin & Hx); simpl in *; [|by apply not_elem_of_nil in Hin].
    destruct (Z.eqb_spec (cfgDelayUs a) 0); [by apply not_elem_of_nil in Hin|].
    apply list_elem_of_singleton in Hin as [= -> -> ->]. exists a. by rewrite state_actions_list.
  - intros (a & Ha & Hd & -> & ->). exists (s, Some a). rewrite <- state_actions_list. split; [|done]. simpl.
    destruct (Z.eqb_spec (cfgDelayUs a) 0); [done|]. by apply list_elem_of_singleton.
Qed.
Lemma timeouts_leave_table m :
  Forall (λ x : Z * Z * option (Handler P E), ∀ h body e, x.2 = Some h →
    let r := (h (mkStateMsg x.1.2 body) x.1.1 e).1 in
    hRet r = 0 ∧ hNext r ≠ x.1.1 ∧ is_Some (states_ m !! hNext r)) (timeout_table m) → timeouts_leave m.
Proof.
  intros Hall s a h body e r e' Ha Hd Hh He. rewrite Forall_forall in Hall.
  assert ((s, cfgType a, actions a !! cfgType a) ∈ timeout_table m) as Hin by (apply elem_of_timeout_table; eauto).
  specialize (Hall _ Hin h body e Hh). simpl in Hall. by rewrite He in Hall.
Qed.

(** ** Timers *)

Lemma flags_kept (fl fl' : list bool) : length fl' = length fl → fl ≠ [] → fl' ≠ [].
Proof. by destruct fl, fl'. Qed.
Lemma ReleaseId_length id fl : length (IdAllocator.ReleaseId id fl).2 = length fl.
Proof. unfold IdAllocator.ReleaseId. destruct (_ <=? _); cbn; by rewrite ?length_insert. Qed.
Lemma AllocId_length fl : length (IdAllocator.AllocId fl).2 = length fl.
Proof.
  pose proof (IdAllocator.alloc_loop_length fl). unfold IdAllocator.AllocId.
  by destruct (IdAllocator.alloc_loop fl) as [[] ?].
Qed.
Lemma SetTimer_alive now ty d ck t : alive t → alive (SetTimer now ty d ck this t).2.
Proof.
  intros [Hs Hf]. unfold SetTimer. rewrite decide_False by naive_solver. unfold this at 1.
  pose proof (AllocId_length (idFlags t)) as Hl. destruct (IdAllocator.AllocId (idFlags t)) as [i fl].
  destruct (_ =? _); (split; [done|]); simpl in *; by eapply flags_kept.
Qed.
Lemma SetTimer_armed now ty d ck t :
  wf t → alive t → itemQueue_ t = [] → itemQueue_ (SetTimer now ty d ck this t).2 ≠ [].
Proof.
  intros Hw [Hs Hf] Hq. pose proof (SetTimer_cases now ty d ck this t Hw) as Hc.
  destruct (SetTimer now ty d ck this t) as [id t']. cbn [snd].
  destruct Hc as [(_ & _ & [?|[?|Hall]])|(_ & _ & _ & _ & ->)]; [done|done| |simpl; by rewrite Hq].
  exfalso. pose proof (wf_ids _ Hw 0%nat) as Hi. rewrite Hq in Hi.
  destruct (idFlags t) as [|b fl]; [done|]. apply Forall_cons in Hall as [<- _].
  simpl in Hi. by apply (not_elem_of_nil (Z.of_nat 0)), Hi.
Qed.
Lemma KillTimer_alive id t : alive t → alive (KillTimer id t).2.
Proof.
  intros [Hs Hf]. unfold KillTimer. destruct (kill_loop _ _); [|done]. split; [done|]. simpl.
  eapply flags_kept, Hf. apply ReleaseId_length.
Qed.
Lemma Run_fired now t ob info t' :
  Run_step now t = (RunFire ob info, t') →
  ∃ it q, itemQueue_ t = it :: q ∧ itemQueue_ t' = q ∧ info = item_event it ∧ (alive t → alive t').
Proof.
  unfold Run_step. case_decide as Hs; [done|]. destruct (itemQueue_ t) as [|it q]; [done|].
  destruct (_ <? _); [done|]. intros [= _ <- <-]. exists it, q. split_and!; [done..|].
  intros [? Hf]. split; [done|]. eapply flags_kept, Hf. apply ReleaseId_length.
Qed.
Lemma ResetTimer_alive now id ty d ck t : alive t → alive (ResetTimer now id ty d ck this t).2.
Proof.
  intros Ht. unfold ResetTimer, ResetTimer_first. destruct (itemQueue_ t) as [|it [|]];
    [by apply SetTimer_alive, KillTimer_alive| |by apply SetTimer_alive, KillTimer_alive].
  destruct (negb _); [done|]. by destruct Ht.
Qed.

Lemma SetTimer_grows now ty d ck o t :
  itemQueue_ t ≠ [] → itemQueue_ (SetTimer now ty d ck o t).2 ≠ [].
Proof.
  intros Hq. unfold SetTimer. case_decide; [done|]. fold (chosen_observer o t). destruct (chosen_observer o t); [|done].
  destruct (IdAllocator.AllocId _). destruct (_ =? _); [done|]. simpl.
  destruct (itemQueue_ t); [done|]. simpl. by destruct (_ <? _).
Qed.
Lemma reset_armed now id ty d ck t :
  itemQueue_ t ≠ [] → itemQueue_ (ResetTimer now id ty d ck this t).2 ≠ [].
Proof.
  intros Hq. unfold ResetTimer, ResetTimer_first. destruct (itemQueue_ t) as [|it [|it' q]] eqn:Hi; [done| |].
  - destruct (negb _); simpl; congruence.
  - apply SetTimer_grows. unfold KillTimer. rewrite Hi. simpl.
    destruct (_ =? _); simpl; [done|]. destruct (_ =? _); simpl; [done|]. destruct (kill_loop id q); simpl; congruence.
Qed.

(** ** One message *)

Lemma timeouts_leave_shape m m' : shape m = shape m' → timeouts_leave m → timeouts_leave m'.
Proof.
  intros Hsh Ht s a h body e r e' Ha Hd Hh He.
  destruct (shape_state_actions m' m s a (eq_sym Hsh) Ha) as (b & Hb & Hst).
  unfold strip in Hst. simpl in Hst. injection Hst as Hty Hdl _ Hac. rewrite Hty, Hdl, Hac in *.
  destruct (Ht s b h body e r e' Hb Hd Hh He) as (? & ? & ?). split_and!; [done..|]. by eapply shape_present.
Qed.

(** Resetting the delay leaves the current state's timer armed if it has one. *)
Lemma reset_timers now m :
  alive (timers m) → alive (timers (ResetTimerDelay now m)) ∧
  (itemQueue_ (timers m) ≠ [] → itemQueue_ (timers (ResetTimerDelay now m)) ≠ []).
Proof.
  intros Ha. unfold ResetTimerDelay. destruct (currState_ m) as [cur|]; [|done].
  destruct (state_actions m cur) as [a|]; [|done]. destruct (_ || _); [done|].
  pose proof (ResetTimer_alive now (actTimerId a) (cfgType a) (cfgDelayUs a) (cfgCookie a) _ Ha) as Hr.
  pose proof (reset_armed now (actTimerId a) (cfgType a) (cfgDelayUs a) (cfgCookie a) (timers m)) as Hq.
  by destruct (ResetTimer _ _ _ _ _ _ (timers m)).
Qed.
(** A transition arms the timeout of the state it enters. *)
Lemma ToState_due now next m m' a :
  ms_wf m → alive (timers m) → ToState now next m = Some m' →
  alive (timers m') ∧ (state_actions m' next = Some a → cfgDelayUs a ≠ 0 → itemQueue_ (timers m') ≠ []).
Proof.
  intros Hm Hl. unfold ToState. destruct (currState_ m) as [cur|] eqn:Hc; simpl; [|done].
  destruct (state_actions m cur) as [c|] eqn:Hcur; simpl; [|done].
  pose proof (exit_state_quiet m cur c next Hm Hc Hcur) as Hq.
  assert (alive (timers (exit_state cur c m))) as Hx.
  { unfold exit_state. destruct (_ =? _); [done|]. pose proof (KillTimer_alive (actTimerId c) _ Hl).
    by destruct (KillTimer _ _). }
  cbn in Hq |- *. match type of Hq with quiet ?x => remember x as m1 eqn:H1 end.
  assert (alive (timers m1)) as Hx1 by (rewrite H1; exact Hx). clear H1.
  destruct (state_actions m1 next) as [b|] eqn:Hb; simpl; [|done]. intros [= <-].
  assert (∀ x : ModuleStates P E, timers (notify_listener next x) = timers x) as Ht by (intros; unfold notify_listener; by destruct (hasListener _)).
  assert (∀ x : ModuleStates P E, state_actions (notify_listener next x) next = state_actions x next) as Hs
    by (intros; unfold notify_listener; by destruct (hasListener _)).
  rewrite Ht, Hs. clear Ht Hs. unfold enter_state.
  destruct (Z.eqb_spec (cfgDelayUs b) 0) as [E0|E0]; [by split; [done|]; rewrite Hb; intros [= <-]|].
  pose proof (SetTimer_alive now (cfgType b) (cfgDelayUs b) (cfgCookie b) _ Hx1).
  pose proof (SetTimer_armed now (cfgType b) (cfgDelayUs b) (cfgCookie b) _ (quiet_timers _ Hq) Hx1 (quiet_queue _ Hq)).
  by destruct (SetTimer _ _ _ _ _ (timers m1)).
Qed.

(** Handling a message keeps [timed]: the machine stays with its timer, or it moves and
    the timer of the state it enters is armed. *)
Lemma HandleMsg_due now msg m r m' fl :
  timed m fl → HandleMsg now msg m = Some (r, m') → timed m' fl ∧ shape m' = shape m.
Proof.
  intros [Hw Hcf Hl Hlv Hd] Hr. pose proof (HandleMsg_wf _ _ _ _ _ Hw Hr) as Hw'.
  destruct (HandleMsg_total now msg m Hcf) as (r0 & m0 & H0 & Hcf'). rewrite Hr in H0. injection H0 as <- <-.
  destruct (cf_curr _ Hcf) as (cur & Hc & [a Ha]).
  destruct (Handle msg a) as [h|] eqn:Hh.
  2: { unfold HandleMsg in Hr. rewrite Hc, Ha, Hh in Hr. by simplify_eq. }
  destruct (h msg cur (env m)) as [hr e'] eqn:He.
  rewrite (HandleMsg_unfold now msg m cur a h hr e') in Hr by done.
  destruct (after_handler_facts now hr e' m Hcf) as (Hm1 & Hc1 & Hs1).
  assert (ms_wf (after_handler now hr e' m)) as Hw1
    by (unfold after_handler; destruct (hReset hr); [apply ResetTimerDelay_wf|]; by apply env_wf).
  assert (alive (timers (after_handler now hr e' m)) ∧
          (itemQueue_ (timers m) ≠ [] → itemQueue_ (timers (after_handler now hr e' m)) ≠ [])) as [Hl1 Hq1].
  { unfold after_handler. destruct (hReset hr); [|done].
    match goal with |- alive (timers (ResetTimerDelay now ?x)) ∧ _ => exact (reset_timers now x Hl) end. }
  assert (timed (after_handler now hr e' m) fl) as Hstay.
  { constructor; [done..|by eapply timeouts_leave_shape|]. rewrite Hc1. intros c b ?? Hdb. simplify_eq.
    destruct (shape_state_actions _ m cur b Hs1) as (b0 & Hb0 & Hst); [done|].
    unfold strip in Hst. simpl in Hst. injection Hst as Hty Hdl _ _.
    destruct (Hd cur b0 Hc Hb0) as [?|?]; [congruence|auto|right; congruence]. }
  destruct (negb _); [by simplify_eq|]. destruct (_ =? _); [by simplify_eq|].
  destruct (states_ (after_handler now hr e' m) !! hNext hr) as [o|] eqn:Ho; [|by simplify_eq].
  destruct (ToState_total now (hNext hr) (after_handler now hr e' m)) as (m2 & Ht & Hc2 & Hs2); [done|by rewrite Ho|].
  rewrite Ht in Hr. simpl in Hr. simplify_eq. split; [|by rewrite Hs2].
  constructor; [done..| |by eapply (timeouts_leave_shape m); [rewrite Hs2|]|].
  - by destruct (ToState_due now (hNext hr) _ _ a Hw1 Hl1 Ht).
  - intros c b Hcb Hb Hdb. simplify_eq. left. by eapply ToState_due.
Qed.
(** The timeout message of a state takes the machine off it, and arms the timer of the
    state it goes to. *)
Lemma left_arms now body m cur a h r m' fl :
  timed m fl → currState_ m = Some cur → state_actions m cur = Some a → cfgDelayUs a ≠ 0 →
  actions a !! cfgType a = Some h → HandleMsg now (mkStateMsg (cfgType a) body) m = Some (r, m') →
  configured m' ∧ alive (timers m') ∧ shape m = shape m' ∧
  let next := hNext (h (mkStateMsg (cfgType a) body) cur (env m)).1 in
  currState_ m' = Some next ∧
  (∀ b, state_actions m' next = Some b → cfgDelayUs b ≠ 0 → itemQueue_ (timers m') ≠ []) ∧ next ≠ cur.
Proof.
  intros Ht Hc Ha Hda Hh Hr. destruct (HandleMsg_due _ _ _ _ _ _ Ht Hr) as [[_ Hcf' Hl' _ _] Hsh].
  split_and!; [done..|]. pose proof Ht as [Hw Hcf Hl Hlv _].
  destruct (h (mkStateMsg (cfgType a) body) cur (env m)) as [hr e'] eqn:He.
  destruct (Hlv cur a h body (env m) hr e' Ha Hda Hh He) as (H0 & Hne & Hs).
  rewrite (HandleMsg_unfold now _ m cur a h hr e') in Hr by done.
  destruct (after_handler_facts now hr e' m Hcf) as (Hm1 & Hc1 & Hs1).
  assert (ms_wf (after_handler now hr e' m) ∧ alive (timers (after_handler now hr e' m))) as [Hw1 Hl1].
  { unfold after_handler; destruct (hReset hr); [|by split; [apply env_wf|]].
    split; [by apply ResetTimerDelay_wf, env_wf|].
    match goal with |- alive (timers (ResetTimerDelay now ?x)) => exact (proj1 (reset_timers now x Hl)) end. }
  rewrite H0 in Hr. simpl in Hr. destruct (Z.eqb_spec cur (hNext hr)); [done|].
  apply (shape_present m _ _ (eq_sym Hs1)) in Hs as [o Ho]. rewrite Ho in Hr.
  destruct (ToState_total now (hNext hr) (after_handler now hr e' m)) as (m2 & Hts & Hc2 & _); [done|by rewrite Ho|].
  rewrite Hts in Hr. simpl in Hr. simplify_eq. split_and!; [done| |done].
  intros b. by destruct (ToState_due now (hNext hr) _ _ b Hw1 Hl1 Hts).
Qed.
Lemma tstep_timed x y : tstep x y → timed x.1 x.2 → timed y.1 y.2.
Proof.
  intros [now msg m fl r m' Hr|? ? [now m fl ob info t Hr|now body info m fl fl' r m' Hr]]; simpl.
  - intros Ht. by destruct (HandleMsg_due _ _ _ _ _ fl Ht Hr).
  - intros [Hw Hcf Hl Hlv Hd]. destruct (Run_fired _ _ _ _ _ Hr) as (it & q & Hq & Hq' & -> & Hl').
    constructor.
    + pose proof (timer_step_wf now _ Hw) as Hw'. simpl in Hw'. rewrite Hr in Hw'. exact Hw'.
    + by destruct Hcf.
    + by apply Hl'.
    + done.
    + simpl. intros c a Hc Ha Hda. right. rewrite fmap_app. apply elem_of_app.
      destruct (Hd c a Hc Ha Hda) as [_|Hin]; [right|by left]. apply list_elem_of_singleton.
      destruct (ms_armed _ Hw it) as (c' & a' & Hc' & Ha' & _ & Hty & _); [rewrite Hq; by left|]. simplify_eq; unfold state_actions in *; simpl in *; congruence.
  - intros Ht. pose proof Ht as [Hw Hcf Hl Hlv Hd]. unfold OnTimerEvent in Hr.
    destruct (cf_curr _ Hcf) as (cur & Hc & [a Ha]).
    destruct (decide (cfgDelayUs a ≠ 0 ∧ evType info = cfgType a)) as [[Hda Hty]|Hno].
    + destruct (cf_timeout _ Hcf _ _ Ha Hda) as [h Hh]. rewrite Hty in Hr.
      pose proof (left_arms now body m cur a h r m' _ Ht Hc Ha Hda Hh Hr) as (Hcf' & Hl' & Hsh & Hn & Harm & _).
      constructor; [by eapply HandleMsg_wf|done|done|by eapply timeouts_leave_shape|].
      intros c b Hcb Hb Hdb. left. simplify_eq. by eapply Harm.
    + assert (timed m (fl ++ fl')) as Ht'.
      { constructor; [done..|]. intros c b ?? Hdb. simplify_eq. destruct (Hd cur a Hc Ha Hdb) as [?|Hin]; [by left|].
        right. revert Hin. rewrite !fmap_app, fmap_cons, !elem_of_app, elem_of_cons.
        intros [?|[He|?]]; [by left| |by right]. exfalso. apply Hno. by split. }
      by destruct (HandleMsg_due _ _ _ _ _ _ Ht' Hr).
Qed.

(** ** Properties *)

(** The state the handler of the timeout of [cur] chooses. *)
Definition timeout_next m (cur : Z) (a : StateActions P E) : Z :=
  match Handle (mkStateMsg (cfgType a) None) a with Some h => hNext (h (mkStateMsg (cfgType a) None) cur (env m)).1 | None => cur end.

(** What that handler leaves of the owner's state. *)
Definition timeout_env m (cur : Z) (a : StateActions P E) : E :=
  match Handle (mkStateMsg (cfgType a) None) a with Some h => (h (mkStateMsg (cfgType a) None) cur (env m)).2 | None => env m end.

Lemma deliver_leaves m cur a fl1 info fl2 :
  timed m (fl1 ++ info :: fl2) → currState_ m = Some cur → state_actions m cur = Some a → cfgDelayUs a ≠ 0 →
  cfgType a = evType info → ∃ y, thread_step (m, fl1 ++ info :: fl2) y ∧
  currState_ y.1 = Some (timeout_next m cur a) ∧ timeout_next m cur a ≠ cur ∧ env y.1 = timeout_env m cur a.
Proof.
  intros Ht Hc Ha Hda Hty. pose proof (td_conf _ _ Ht) as Hcf.
  destruct (cf_timeout _ Hcf _ _ Ha Hda) as [h Hh].
  assert (timeout_next m cur a = hNext (h (mkStateMsg (cfgType a) None) cur (env m)).1) as ->
    by (change (Handle (mkStateMsg (cfgType a) None) a = Some h) in Hh; unfold timeout_next; by rewrite Hh).
  destruct (HandleMsg_total 0 (mkStateMsg (cfgType a) None) m Hcf) as (r & m' & Hr & _).
  destruct (left_arms _ _ _ _ _ _ _ _ _ Ht Hc Ha Hda Hh Hr) as (_ & _ & _ & Hn & _ & Hne).
  assert (env m' = timeout_env m cur a) as He.
  { unfold timeout_env. change (Handle (mkStateMsg (cfgType a) None) a = Some h) in Hh. rewrite Hh. by eapply HandleMsg_env. }
  exists (m', fl1 ++ fl2). split; [|done]. apply (ts_deliver 0 None info _ _ _ r).
  unfold OnTimerEvent. by rewrite <- Hty.
Qed.

(** The timer thread alone takes the machine off a state with a timeout, to the state its
    handler chooses. *)
Lemma timeout_delivered m fl cur a :
  timed m fl → currState_ m = Some cur → state_actions m cur = Some a → cfgDelayUs a ≠ 0 →
  ∃ y, rtc thread_step (m, fl) y ∧ currState_ y.1 = Some (timeout_next m cur a) ∧ timeout_next m cur a ≠ cur ∧
       env y.1 = timeout_env m cur a.
Proof.
  intros Ht Hc Ha Hda. destruct (td_due _ _ Ht cur a Hc Ha Hda) as [Harm|Hin].
  - destruct (itemQueue_ (timers m)) as [|it q] eqn:Hit; [done|].
    destruct (ms_armed _ (td_wf _ _ Ht) it) as (c & a' & Hc' & Ha' & _ & Hty & _); [rewrite Hit; by left|]. simplify_eq.
    assert (∃ t, Run_step (tgtUs it) (timers m) = (RunFire (observer it) (item_event it), t)) as [t Hrun].
    { unfold Run_step. rewrite decide_False by (destruct (td_alive _ _ Ht) as [-> _]; naive_solver).
      rewrite Hit, Z.ltb_irrefl. by eexists. }
    pose proof (ts_pop _ m fl _ _ _ Hrun) as Hpop. pose proof (tstep_timed _ _ (ts_thread _ _ Hpop) Ht) as Ht'.
    destruct (deliver_leaves _ cur a fl (item_event it) [] Ht') as (y & Hy & Hne); [done..|].
    exists y. split; [|done]. eapply rtc_l; [exact Hpop|]. by apply rtc_once.
  - apply list_elem_of_fmap in Hin as (info & Hty & Hinf). apply list_elem_of_split in Hinf as (fl1 & fl2 & ->).
    destruct (deliver_leaves m cur a fl1 info fl2 Ht) as (y & Hy & Hne); [done..|].
    exists y. split; [by apply rtc_once|done].
Qed.

(** A machine whose owner or listener changed, and no timer. *)
Lemma timed_owner m m' fl :
  (states_ m', currState_ m', timers m') = (states_ m, currState_ m, timers m) → timed m fl → timed m' fl.
Proof.
  destruct m, m'. simpl. intros [= -> -> ->] [[] [] ? ? ?]. by constructor; [constructor|constructor|..].
Qed.
Lemma quiet_intro m :
  wf (timers m) → itemQueue_ (timers m) = [] →
  forallb (λ x, match x.2 with Some a => actTimerId a =? INVALID_ID | None => true end) (map_to_list (states_ m)) = true →
  quiet m.
Proof.
  intros Hw Hq Hall. constructor; [done|done|]. intros s a Ha. rewrite forallb_forall in Hall.
  specialize (Hall (s, Some a)). simpl in Hall. by apply Z.eqb_eq, Hall, list_elem_of_In, state_actions_list.
Qed.
Lemma reachable_timed m0 m fl :
  quiet m0 → configured m0 → alive (timers m0) → timeouts_leave m0 →
  (∀ cur a, currState_ m0 = Some cur → state_actions m0 cur = Some a → cfgDelayUs a = 0) →
  rtc tstep (m0, []) (m, fl) → timed m fl.
Proof.
  intros [Hw Hqu Hids] Hcf Hl Hlv Hd0 Hr.
  assert (∀ x y, rtc tstep x y → timed x.1 x.2 → timed y.1 y.2) as Hall.
  { induction 1; [done|]. eauto using tstep_timed. }
  apply (Hall _ _ Hr). constructor; [|done..|].
  - constructor; [done| |eauto|simpl; rewrite Hqu; set_solver].
    intros cur Hc. destruct (configured_curr _ _ Hcf Hc) as [a Ha]. by eapply state_actions_present.
  - intros cur a Hc Ha Hda. by specialize (Hd0 _ _ Hc Ha).
Qed.

(** C17: in every machine reachable from a quiet, configured one whose timer thread runs and
    whose timeout handlers leave their states, a current state with a timeout has its
    timer armed or its event in flight, and the timer thread alone can take the machine
    off that state, to the state the handler of the timeout chooses. *)
Theorem timeout_leaves_state m0 m fl cur a
    (Hq : quiet m0) (Hcf : configured m0) (Hl : alive (timers m0)) (Hlv : timeouts_leave m0)
    (H0 : ∀ c b, currState_ m0 = Some c → state_actions m0 c = Some b → cfgDelayUs b = 0)
    (Hr : rtc tstep (m0, []) (m, fl))
    (Hc : currState_ m = Some cur) (Ha : state_actions m cur = Some a) (Hda : cfgDelayUs a ≠ 0) :
  (itemQueue_ (timers m) ≠ [] ∨ cfgType a ∈ evType <$> fl) ∧
  ∃ y, rtc thread_step (m, fl) y ∧ currState_ y.1 = Some (timeout_next m cur a) ∧ timeout_next m cur a ≠ cur.
Proof.
  pose proof (reachable_timed m0 m fl Hq Hcf Hl Hlv H0 Hr) as Ht.
  split; [by apply (td_due _ _ Ht cur a)|].
  destruct (timeout_delivered m fl cur a) as (y & Hy & Hn & Hne & _); [done..|by exists y].
Qed.
End timeout.

(** ** Witnesses *)

Lemma demo_leaves : timeouts_leave demo.
Proof.
  intros s a h body e r e' [[-> ->]|[-> ->]]%demo_actions Hd Hh He; [done|].
  simpl in Hh. rewrite lookup_insert_eq in Hh. injection Hh as <-. injection He as <- <-.
  split_and!; [done|done|]. rewrite demo_states. by eexists.
Qed.

Lemma timeout_leaves_state_witness :
  ∃ y : ModuleStates unit nat * list TimerEvent, rtc thread_step (demo1, []) y ∧ currState_ y.1 ≠ Some 1.
Proof.
  assert (∃ b, state_actions demo1 1 = Some b ∧ cfgDelayUs b ≠ 0) as (b & Hb & Hd)
    by (eexists; split; [by vm_compute|done]).
  destruct (timeout_leaves_state demo demo1 [] 1 b demo_quiet demo_configured) as (_ & y & Hy & Hn & Hne);
    [..|exists y; split; [done|congruence]].
  - by split.
  - exact demo_leaves.
  - intros c a [= <-] [[_ ->]|[Hc _]]%demo_actions; done.
  - apply rtc_once, (ts_msg 100 (mkStateMsg 5 None) _ _ 0). by vm_compute.
  - by vm_compute.
  - done.
  - done.
Defined.
