(* ===== verification/MachineRuns.v ===== *)
(** * Runs of a machine and of its owner

    A machine from [StateManager.v] whose handlers keep an invariant [I] of its owner's
    state, one for each state of the machine.  Besides messages and the timer thread, other
    threads change the owner's state, as long as they keep [I] of the current state.  What
    an engine does is a sequence of such steps, so [I] holds throughout, and the timer
    thread takes the machine off every state with a timeout. *)

From S2P Require Import Prelude TimerMgr StateManager StateTimeout.
Import TimerMgr.

(** ** Computations that leave a part of the state alone *)

Definition frames {S C B} (core : S → C) (m : St S B) : Prop := ∀ c, ⟪ λ s, core s = c ⟫ m ⟪ λ _ s, core s = c ⟫.
Definition framed {S C} (core : S → C) (P : S → Prop) : Prop := ∀ s s', core s' = core s → P s → P s'.
Lemma frames_run {S C B} (core : S → C) (m : St S B) (P : S → Prop) :
  framed core P → frames core m → ⟪ P ⟫ m ⟪ λ _, P ⟫.
Proof. intros HP Hm s Hs. apply (HP s); [by apply (Hm (core s))|done]. Qed.

(** ** Handlers that keep an invariant of each state *)

Section handlers.
Context {P E : Type} (I : Z → E → Prop) (first last : Z).

(** What a handler leaves in state [cur]: the invariant of the state the machine goes to,
    which is one of its states. *)
Definition post (cur : Z) (r : HandlerResult) (e : E) : Prop :=
  I (if hRet r =? 0 then hNext r else cur) e ∧ first ≤ hNext r ≤ last.
Definition good_handler (cur : Z) (h : Handler P E) : Prop := ∀ msg, ⟪ I cur ⟫ h msg cur ⟪ post cur ⟫.

Lemma answer_stay cur ret : first ≤ cur ≤ last → ⟪ I cur ⟫ mret (mkResult ret cur false) ⟪ post cur ⟫.
Proof. intros Hc e He. split; [|done]. cbn. by destruct (_ =? _). Qed.
Lemma answer_go cur next : first ≤ next ≤ last → ⟪ I next ⟫ mret (mkResult 0 next false) ⟪ post cur ⟫.
Proof. intros Hc e He. by split. Qed.
(** A machine all of whose handlers are good. *)
Lemma good_table (m : ModuleStates P E) :
  (∀ s, s ∈ seqZ first (last + 1 - first) → is_Some (states_ m !! s)) →
  Forall (λ x : Z * Z * Handler P E, good_handler x.1.1 x.2) (actions_list m) → handlers_keep I m.
Proof.
  intros Hst Hall. apply (handlers_keep_table I _ m Hst). eapply Forall_impl; [exact Hall|].
  intros [[s mid] h] Hg body e He. cbn [fst snd] in *.
  specialize (Hg (mkStateMsg mid body) e He). destruct (h _ s e) as [r e']. destruct Hg as [H1 H2].
  split; [done|]. intros _. apply elem_of_seqZ. cbn in H2. lia.
Qed.
End handlers.

(** Goes through a handler: calls that keep the parts, reads and case distinctions. *)
Ltac handler :=
  cbv zeta beta;
  lazymatch goal with
  | |- hoare _ (mbind _ _) _ =>
    first [eapply hoare_bind; [solve [auto with ivoice nocore]|intros ?; cbv beta]; handler | idtac]
  | |- hoare _ (if negb ?x then _ else _) _ => destruct x; cbn [negb]; handler
  | |- hoare _ (match ?x with _ => _ end) _ => destruct x; handler
  | |- hoare _ _ _ => try solve [auto with ivoice nocore]
  end.

(** ** [isInitSucc_] *)

Section init.
Context {P E : Type}.
Implicit Types m : ModuleStates P E.
Lemma init_exit cur a m : isInitSucc_ (exit_state cur a m) = isInitSucc_ m.
Proof. unfold exit_state. case_match; [done|]. by destruct (KillTimer _ _). Qed.
Lemma init_enter now next b m : isInitSucc_ (enter_state now next b m) = isInitSucc_ m.
Proof. unfold enter_state. case_match; [done|]. by destruct (SetTimer _ _ _ _ _ _). Qed.
Lemma init_notify next m : isInitSucc_ (notify_listener next m) = isInitSucc_ m.
Proof. unfold notify_listener. by case_match. Qed.
Lemma init_reset now m : isInitSucc_ (ResetTimerDelay now m) = isInitSucc_ m.
Proof. unfold ResetTimerDelay. destruct (currState_ m); [|done]. destruct (state_actions _ _); [|done]. destruct (_ || _); [done|].
  by destruct (ResetTimer _ _ _ _ _ _ _). Qed.
Lemma ToState_init now next m m' : ToState now next m = Some m' → isInitSucc_ m' = isInitSucc_ m.
Proof.
  unfold ToState. destruct (currState_ m) as [cur|]; [|done]. cbn. destruct (state_actions m cur) as [a|]; [|done]. cbn.
  destruct (state_actions _ next) as [b|]; [|done]. cbn. intros Hq%(inj Some). subst m'.
  rewrite init_notify, init_enter. apply (init_exit cur a m).
Qed.
Lemma HandleMsg_init now msg m r m' : HandleMsg now msg m = Some (r, m') → isInitSucc_ m' = isInitSucc_ m.
Proof.
  unfold HandleMsg. destruct (currState_ m) as [cur|]; [|by intros [= _ <-]].
  destruct (state_actions m cur) as [a|]; [|by intros [= _ <-]]. destruct (Handle msg a) as [h|]; [|by intros [= _ <-]].
  destruct (h msg cur (env m)) as [hr e']. cbv zeta.
  set (m2 := if hReset hr then _ else _). assert (isInitSucc_ m2 = isInitSucc_ m) as Hm2.
  { unfold m2. destruct (hReset hr); [by rewrite init_reset|done]. }
  clearbody m2. destruct (negb _); [by intros [= _ <-]|]. destruct (_ =? _); [by intros [= _ <-]|].
  destruct (states_ m2 !! hNext hr); [|by intros [= _ <-]]. destruct (ToState now (hNext hr) m2) as [m3|] eqn:Ht; [|done].
  cbn. intros Hq%(inj Some). injection Hq as _ <-. by rewrite (ToState_init _ _ _ _ Ht).
Qed.
End init.

(** Every state above [bound] has a handler for [mid]. *)
Definition handles_above {P E} (bound mid : Z) (m : ModuleStates P E) : bool :=
  forallb (λ x, (x.1 <=? bound) || match x.2 with Some a => match actions a !! mid with Some _ => true | None => false end | None => false end)
    (map_to_list (states_ m)).

Section runs.
Context {P E : Type} (I : Z → E → Prop) (m0 : ModuleStates P E).
Implicit Types m : ModuleStates P E.

(** A machine that has the actions of [m0], in a state whose invariant holds. *)
Record good m (fl : list TimerEvent) : Prop := {
  gd_timed : timed m fl;
  gd_shape : shape m = shape m0;
  gd_state : ∃ cur, currState_ m = Some cur ∧ I cur (env m) }.

Context (Hk : handlers_keep I m0).

Lemma good_handle now msg m fl r m' : good m fl → HandleMsg now msg m = Some (r, m') → good m' fl.
Proof.
  intros [Ht Hs (cur & Hc & Hi)] Hr. destruct (HandleMsg_due _ _ _ _ _ _ Ht Hr) as [Ht' Hs'].
  destruct (HandleMsg_invariant I now msg m cur r m') as (_ & _ & _ & cur' & Hc' & Hi' & _);
    [apply Ht|by apply (handlers_keep_shape _ m0)|done..|].
  constructor; [done|by rewrite Hs'|by exists cur'].
Qed.
(** What the handlers of one message establish, wherever the machine goes. *)
Lemma good_after (Q : Z → E → Prop) now msg m fl cur r m' :
  good m fl → currState_ m = Some cur → Q cur (env m) →
  (∀ h, (cur, msgId msg, h) ∈ actions_list m0 →
     ⟪ λ e, e = env m ⟫ h msg cur ⟪ λ r e, ∀ s, s = cur ∨ s = hNext r → Q s e ⟫) →
  HandleMsg now msg m = Some (r, m') → ∃ cur', currState_ m' = Some cur' ∧ Q cur' (env m').
Proof.
  intros [Ht Hs _] Hc HQ Hh Hr.
  destruct (HandleMsg_post Q now msg m cur r m') as (_ & _ & _ & cur' & Hc' & Hq & _); [apply Ht|done..| |done|by exists cur'].
  intros a h hr e' Ha Hact He. destruct (shape_state_actions m m0 cur a Hs Ha) as (b & Hb & Hst).
  unfold strip in Hst. simpl in Hst. injection Hst as _ _ _ Hac. rewrite Hac in Hact.
  specialize (Hh h (elem_of_actions_list m0 cur b _ h Hb Hact) (env m) eq_refl). rewrite He in Hh. apply Hh.
  destruct (_ && _); auto.
Qed.
Lemma good_env m fl e :
  good m fl → (∀ cur, I cur (env m) → currState_ m = Some cur → I cur e) → good (m <| env := e |>) fl.
Proof.
  intros [Ht Hs (cur & Hc & Hi)] He. constructor; [by apply (timed_owner m)|done|]. exists cur. by auto.
Qed.
Lemma good_with_env {B} (c : St E B) m fl :
  good m fl → (∀ cur, currState_ m = Some cur → ⟪ λ e, I cur e ∧ e = env m ⟫ c ⟪ λ _, I cur ⟫) →
  good (with_env c m).2 fl.
Proof.
  intros Hm Hc. unfold with_env. destruct (c (env m)) as [b e'] eqn:He. apply good_env; [done|].
  intros cur Hi Hcur. specialize (Hc cur Hcur (env m) (conj Hi eq_refl)). by rewrite He in Hc.
Qed.
(** A computation that keeps [I] of every state. *)
Lemma good_keeping {B} (c : St E B) m fl : (∀ s, ⟪ I s ⟫ c ⟪ λ _, I s ⟫) → good m fl → good (with_env c m).2 fl.
Proof. intros Hc Hm. apply good_with_env; [done|]. intros cur _ e [He _]. by apply Hc. Qed.
Lemma good_process pt m fl : good m fl → good (SetProcessType pt m) fl.
Proof. intros [Ht Hs Hi]. constructor; [by apply (timed_owner m)|done|done]. Qed.
Lemma good_thread x y : thread_step x y → good x.1 x.2 → good y.1 y.2.
Proof.
  intros Hxy Hm. pose proof (tstep_timed x y (ts_thread _ _ Hxy) (gd_timed _ _ Hm)) as Ht.
  destruct Hxy as [now m fl ob info t Hr|now body info m fl fl' r m' Hr]; simpl in *.
  - destruct Hm as [_ Hs Hi]. by constructor.
  - constructor; [done|..]; unfold OnTimerEvent in Hr; eapply good_handle in Hr; try exact Hm; by destruct Hr.
Qed.
Lemma good_threads x y : rtc thread_step x y → good x.1 x.2 → good y.1 y.2.
Proof. induction 1; [done|]. eauto using good_thread. Qed.

(** A relation whose steps keep [good] keeps it along its runs. *)
Lemma good_run (R : relation (ModuleStates P E * list TimerEvent)) x y :
  (∀ x y, R x y → good x.1 x.2 → good y.1 y.2) → rtc R x y → good x.1 x.2 → good y.1 y.2.
Proof. intros HR. induction 1; [done|]. eauto. Qed.

(** The timeout of [s] goes to [t], whatever the owner's state. *)
Definition timeout_to (s t : Z) : Prop := ∃ a, state_actions m0 s = Some a ∧ cfgDelayUs a ≠ 0 ∧
  ∀ h e body, actions a !! cfgType a = Some h → hNext (h (mkStateMsg (cfgType a) body) s e).1 = t.

Lemma timeout_to_table s t :
  (∃ ty h, (s, ty, Some h) ∈ timeout_table m0 ∧ ∀ e body, hNext (h (mkStateMsg ty body) s e).1 = t) → timeout_to s t.
Proof.
  intros (ty & h & Hin & Hh). apply elem_of_timeout_table in Hin as (a & Ha & Hd & -> & Hact).
  exists a. split_and!; [done..|]. intros h' e body Hh'. assert (Some h = Some h') as [= <-] by exact (eq_trans Hact Hh'). apply Hh.
Qed.

(** The timer thread alone brings the machine to [t], where the invariant of [t] holds and
    what the handler of the timeout establishes. *)
Lemma good_ends_post m fl s t (Q : E → Prop) :
  good m fl → currState_ m = Some s → timeout_to s t →
  (∀ ty h, (s, ty, Some h) ∈ timeout_table m0 → ⟪ I s ⟫ h (mkStateMsg ty None) s ⟪ λ _, Q ⟫) →
  ∃ y, rtc thread_step (m, fl) y ∧ currState_ y.1 = Some t ∧ I t (env y.1) ∧ Q (env y.1).
Proof.
  intros Hm Hs (b & Hb & Hd & Hgo) HQ. pose proof Hm as [Ht Hsh (s0 & Hs0 & Hi0)].
  assert (s0 = s) as -> by congruence.
  destruct (shape_state_actions _ m s b (eq_sym Hsh) Hb) as (a & Ha & Hst).
  unfold strip in Hst. simpl in Hst. injection Hst as Hty Hdl _ Hac. pose proof Hd as Hdb. rewrite Hdl in Hd.
  destruct (timeout_delivered m fl s a Ht Hs Ha Hd) as (y & Hy & Hn & _ & He).
  destruct (cf_timeout _ (td_conf _ _ Ht) _ _ Ha Hd) as [h Hh]. change (Handle (mkStateMsg (cfgType a) None) a = Some h) in Hh.
  assert (actions b !! cfgType b = Some h) as Hb' by (rewrite Hac, Hty; exact Hh).
  assert (timeout_next m s a = t) as E1 by (unfold timeout_next; rewrite Hh, <- Hty; by apply Hgo).
  rewrite E1 in Hn. destruct (good_threads _ _ Hy Hm) as [_ _ (s' & Hs' & Hi)].
  exists y. split_and!; [done|done|rewrite Hn in Hs'; by injection Hs' as <-|].
  rewrite He. unfold timeout_env. rewrite Hh. apply (HQ (cfgType a) h); [|done].
  apply elem_of_timeout_table. exists b. split_and!; [done|done|done|by rewrite Hb'].
Qed.
Lemma good_ends m fl s t :
  good m fl → currState_ m = Some s → timeout_to s t →
  ∃ y, rtc thread_step (m, fl) y ∧ currState_ y.1 = Some t ∧ I t (env y.1).
Proof.
  intros Hm Hs Ht. destruct (good_ends_post m fl s t (λ _, True) Hm Hs Ht) as (y & ? & ? & ? & _); [done|by exists y].
Qed.
End runs.

(** ** Machines whose timeouts all go to one state *)

Definition goes_to (next : Z) (r : HandlerResult) : Prop := hRet r = 0 ∧ hNext r = next.
(** What a computation returns, whatever the state. *)
Definition returns {S B} (c : St S B) (Q : B → Prop) : Prop := ⟪ λ _, True ⟫ c ⟪ λ b _, Q b ⟫.
Lemma returns_seq {S B C} (c : St S B) (k : B → St S C) Q : (∀ b, returns (k b) Q) → returns (b ← c; k b) Q.
Proof. intros Hk. apply (hoare_bind _ _ (λ _ _, True)); [by intros ? _|]. intros b. apply Hk. Qed.

Section fresh.
Context {P E : Type} (I : Z → E → Prop) (m0 : ModuleStates P E) (start target : Z).

Definition timeouts_to : Prop :=
  Forall (λ x : Z * Z * option (Handler P E), (x.1.1 ≠ start ∧ x.1.1 ≠ target) ∧
    ∀ h body e, x.2 = Some h → goes_to target (h (mkStateMsg x.1.2 body) x.1.1 e).1) (timeout_table m0).
Context (Hto : timeouts_to) (Htarget : is_Some (states_ m0 !! target)).

Lemma timeouts_to_leave : timeouts_leave m0.
Proof.
  apply timeouts_leave_table. unfold timeouts_to in Hto. rewrite Forall_forall in *. intros x Hx h body e Hh.
  destruct (Hto x Hx) as [[_ Hne] Hh']. destruct (Hh' h body e Hh) as [E1 E2]. cbv zeta. rewrite E1, E2.
  split_and!; [done|by intros ->|done].
Qed.
Lemma timeouts_to_timeout s : (∃ ty h, (s, ty, Some h) ∈ timeout_table m0) → timeout_to m0 s target.
Proof.
  intros (ty & h & Hin). apply timeout_to_table. exists ty, h. split; [done|]. unfold timeouts_to in Hto.
  rewrite Forall_forall in Hto. destruct (Hto _ Hin) as [_ Hh]. intros e body. by destruct (Hh h body e eq_refl).
Qed.

(** A machine that has just been made, in a state without a timeout. *)
Lemma good_fresh :
  timers m0 = TimerMgr.Start true None (TimerMgr.make 10) →
  forallb (λ x, match x.2 with Some a => actTimerId a =? INVALID_ID | None => true end) (map_to_list (states_ m0)) = true →
  configured m0 → currState_ m0 = Some start → I start (env m0) → good I m0 m0 [].
Proof.
  intros Hti Hids Hc Hs Hi. constructor; [|done|by exists start].
  apply (reachable_timed m0); [|done|by rewrite Hti|exact timeouts_to_leave| |apply rtc_refl].
  - apply quiet_intro; [|by rewrite Hti|done]. rewrite Hti. apply TimerMgr.Start_wf, TimerMgr.make_wf. unfold INVALID_ID. lia.
  - intros cur a Hcur Ha. rewrite Hs in Hcur. injection Hcur as <-. destruct (decide (cfgDelayUs a = 0)) as [|Hd]; [done|].
    exfalso. unfold timeouts_to in Hto. rewrite Forall_forall in Hto.
    destruct (Hto (start, cfgType a, actions a !! cfgType a)) as [[Hne _] _]; [apply elem_of_timeout_table; by exists a|done].
Qed.
End fresh.

(** ** Runs of operations that are given *)

Section ops.
Context {X O : Type} (do : O → X → option X) (R : relation X).
Definition run_ops (os : list O) (x : X) : option X := foldl (λ x o, x ≫= do o) (Some x) os.
Lemma run_ops_none os : foldl (λ x o, x ≫= do o) None os = None.
Proof. by induction os. Qed.
Lemma run_ops_rtc os x y : (∀ o x y, do o x = Some y → R x y) → run_ops os x = Some y → rtc R x y.
Proof.
  intros HR. unfold run_ops. revert x. induction os as [|o os IH]; intros x; cbn [foldl mbind option_bind].
  - intros Hq%(inj Some). subst y. apply rtc_refl.
  - destruct (do o x) as [x1|] eqn:Ho; [|by rewrite run_ops_none]. intros Hr. eapply rtc_l; [by eapply HR|by apply IH].
Qed.
End ops.
