(* ===== verification/StringUtil.v ===== *)
(** * String utilities

    [utils/string_util.cpp] and [utils/string_util.h], and the parts of the C++
    library they rely on ([std::string::find], [strtol], [std::stoi], printing of
    an integer).  A string is a list of characters; [long] has 64 bits; strings
    are shorter than 2^32, so that [unsigned int] positions do not wrap. *)

From S2P Require Import Prelude.
From Stdlib Require Import Ascii.

Abbreviation str := (list ascii).

(** A literal. *)
Definition lit (s : string) : str := String.list_ascii_of_string s.

(** ** The C++ library *)

Fixpoint starts_with (sep s : str) : bool :=
  match sep, s with
  | [], _ => true
  | c :: sep', d :: s' => bool_decide (c = d) && starts_with sep' s'
  | _ :: _, [] => false
  end.

(** [s.find(sep)]: the first occurrence. *)
Fixpoint find_sub (sep s : str) : option nat :=
  if starts_with sep s then Some 0%nat else
  match s with [] => None | _ :: s' => S <$> find_sub sep s' end.

(** [s.find(sep, pos)]. *)
Definition find_from (sep s : str) (pos : nat) : option nat :=
  if decide (pos ≤ length s)%nat then (λ i, (pos + i)%nat) <$> find_sub sep (drop pos s) else None.

(** [isspace] in the C locale. *)
Definition isspace (c : ascii) : bool :=
  let n := nat_of_ascii c in
  bool_decide (n = 32%nat) || ((9 <=? n)%nat && (n <=? 13)%nat).

Definition digit_of (c : ascii) : option Z :=
  let n := Z.of_nat (nat_of_ascii c) in
  if (48 <=? n) && (n <=? 57) then Some (n - 48) else None.

Fixpoint skip_spaces (s : str) : str :=
  match s with c :: s' => if isspace c then skip_spaces s' else s | [] => [] end.

(** The digits at the front of [s]: the value they denote after [acc], whether
    there was one, and the rest. *)
Fixpoint scan_digits (acc : Z) (seen : bool) (s : str) : Z * bool * str :=
  match s with
  | c :: s' => match digit_of c with
               | Some d => scan_digits (acc * 10 + d) true s'
               | None => (acc, seen, s)
               end
  | [] => (acc, seen, [])
  end.

(** The optional sign of a number. *)
Definition scan_sign (s : str) : bool * str :=
  match s with
  | c :: s' => if bool_decide (c = "-"%char) then (true, s')
               else if bool_decide (c = "+"%char) then (false, s') else (false, s)
  | [] => (false, [])
  end.

(** The mathematical value of the number at the front of [s], and what follows
    it; [None] when there is no digit. *)
Definition scan_int (s : str) : option (Z * str) :=
  let '(neg, s1) := scan_sign (skip_spaces s) in
  let '(v, seen, rest) := scan_digits 0 false s1 in
  if seen then Some (if neg then - v else v, rest) else None.

Definition LONG_MAX : Z := 2 ^ 63 - 1.
Definition LONG_MIN : Z := - 2 ^ 63.
Definition clamp_long (v : Z) : Z := Z.max LONG_MIN (Z.min LONG_MAX v).

(** The C string of a [std::string]: up to the first NUL. *)
Fixpoint c_str (s : str) : str :=
  match s with
  | c :: s' => if bool_decide (c = "000"%char) then [] else c :: c_str s'
  | [] => []
  end.

(** [std::strtol] in base 10: the value and [None] when nothing was converted,
    else the rest of the string. *)
Definition strtol (s : str) : Z * option str :=
  match scan_int s with
  | Some (v, rest) => (clamp_long v, Some rest)
  | None => (0, None)
  end.

(** [std::stoi]: [None] for [invalid_argument] and [out_of_range]. *)
Definition stoi (s : str) : option Z :=
  '(v, _) ← scan_int (c_str s);
  if (v <? - 2 ^ 31) || (2 ^ 31 - 1 <? v) then None else Some v.

(** Printing an integer ([operator<<]); 20 digits cover 64-bit values. *)
Definition digit (d : Z) : ascii := ascii_of_nat (Z.to_nat (48 + d)).
Fixpoint print_nat (fuel : nat) (n : Z) : str :=
  match fuel with
  | O => []
  | S fuel => if n <? 10 then [digit n] else print_nat fuel (n / 10) ++ [digit (n mod 10)]
  end.
Definition print_int (z : Z) : str :=
  if z <? 0 then "-"%char :: print_nat 20 (- z) else print_nat 20 z.

(** ** [StringUtil] *)

(** The loop of [Split]; [None] when the fuel runs out. *)
Fixpoint Split_loop (fuel : nat) (s sep : str) (startPos : nat) (res : list str)
    : option (list str) :=
  match fuel with
  | O => None
  | S fuel =>
    match find_from sep s startPos with
    | Some findPos =>
      let res' := if (startPos <? findPos)%nat
                  then res ++ [take (findPos - startPos) (drop startPos s)] else res in
      Split_loop fuel s sep (findPos + length sep) res'
    | None => Some (if (startPos <? length s)%nat then res ++ [drop startPos s] else res)
    end
  end.

Definition Split (s sep : str) : option (list str) := Split_loop (S (length s)) s sep 0 [].

(** [TrimL], [TrimR], [Trim]. *)
Definition TrimL (s : str) : str := skip_spaces s.
Definition TrimR (s : str) : str := reverse (skip_spaces (reverse s)).
Definition Trim (s : str) : str := TrimR (TrimL s).

(** [CalSubStrNum]. *)
Fixpoint CalSubStrNum_loop (fuel : nat) (s sub : str) (pos : nat) (count : nat) : option nat :=
  match fuel with
  | O => None
  | S fuel =>
    match find_from sub s pos with
    | Some p => CalSubStrNum_loop fuel s sub (p + length sub) (S count)
    | None => Some count
    end
  end.
Definition CalSubStrNum (s sub : str) : option nat :=
  match sub with [] => Some 0%nat | _ => CalSubStrNum_loop (S (length s)) s sub 0 0 end.

(** [SplitLineToPair]. *)
Definition SplitLineToPair (line : str) : option (str * str) :=
  match line with
  | [] => None
  | _ =>
    match find_sub ["="%char] line with
    | None => None
    | Some pos =>
      if (pos =? length line - 1)%nat then None else
      let first := Trim (take pos line) in
      let second := Trim (drop (S pos) line) in
      match first, second with
      | [], _ | _, [] => None
      | _, _ => Some (first, second)
      end
    end
  end.

(** [StringToInt]. *)
Definition StringToInt (s : str) : option Z :=
  match strtol (c_str s) with
  | (_, None) => None
  | (v, Some rest) =>
    if (v =? LONG_MAX) || (v =? LONG_MIN) then None else
    match rest with [] => Some (i32 v) | _ => None end
  end.

(** [Int2String], [StringToUpperX]. *)
Definition Int2String (arg : Z) : str := print_int arg.
Definition StringToUpperX (s : str) : str :=
  (λ c, let n := nat_of_ascii c in
        if ((97 <=? n)%nat && (n <=? 122)%nat) then ascii_of_nat (n - 32) else c) <$> s.

(** ** Reference definitions *)

(** The pieces of [s] between the separator characters, empty ones included. *)
Fixpoint split_on (c : ascii) (s : str) : list str :=
  match s with
  | [] => [[]]
  | d :: s' =>
    match split_on c s' with
    | [] => []
    | x :: xs => if decide (d = c) then [] :: x :: xs else (d :: x) :: xs
    end
  end.

(** The pieces joined by the separator. *)
Fixpoint join (c : ascii) (ps : list str) : str :=
  match ps with
  | [] => []
  | [p] => p
  | p :: ps' => p ++ c :: join c ps'
  end.

(** * Lemmas *)

(** [find] succeeds exactly when the text occurs. *)
Lemma starts_with_app p s : starts_with p (p ++ s) = true.
Proof. induction p as [|c p IH]; cbn; [done|]. by rewrite bool_decide_true, IH. Qed.
Lemma starts_with_Some p s : starts_with p s = true → ∃ b, s = p ++ b.
Proof.
  revert s. induction p as [|c p IH]; intros s Hs; [by exists s|]. destruct s as [|d s]; [done|]. cbn in Hs.
  apply andb_prop in Hs as [Hc Hs]. apply bool_decide_eq_true in Hc as ->. destruct (IH s Hs) as [b ->]. by exists b.
Qed.
Lemma find_sub_Some p s : is_Some (find_sub p s) ↔ ∃ a b, s = a ++ p ++ b.
Proof.
  induction s as [|c s IH].
  - cbn. destruct (starts_with p []) eqn:E; split.
    + intros _. apply starts_with_Some in E as [b Hb]. by exists [], b.
    + eauto.
    + by intros [? ?].
    + intros (a & b & Hab). symmetry in Hab. apply app_nil in Hab as [-> Hab]. apply app_nil in Hab as [-> ->]. done.
  - cbn [find_sub]. destruct (starts_with p (c :: s)) eqn:E.
    + split; [|eauto]. intros _. apply starts_with_Some in E as [b Hb]. by exists [], b.
    + rewrite fmap_is_Some, IH. split.
      * intros (a & b & ->). by exists (c :: a), b.
      * intros (a & b & Hab). destruct a as [|d a]; cbn in Hab.
        { rewrite Hab, starts_with_app in E. done. }
        injection Hab as -> ->. by exists a, b.
Qed.

Lemma find_sub_bound sep s i : find_sub sep s = Some i → (i + length sep ≤ length s)%nat.
Proof.
  assert (∀ a b : str, starts_with a b = true → (length a ≤ length b)%nat) as Hs.
  { induction a as [|x a IH]; intros [|y b]; simpl; try done; [lia|].
    intros [_ ?%IH]%andb_true_iff. lia. }
  revert i. induction s as [|c s IH]; intros i; simpl; destruct (starts_with sep _) eqn:Hw.
  - intros [= <-]. apply Hs in Hw. done.
  - done.
  - intros [= <-]. apply Hs in Hw. done.
  - destruct (find_sub sep s) as [j|]; simpl; [|done]. intros [= <-]. specialize (IH j eq_refl). lia.
Qed.

Lemma find_from_bound sep s pos p :
  find_from sep s pos = Some p → (pos ≤ p ∧ p + length sep ≤ length s)%nat.
Proof.
  unfold find_from. case_decide; [|done]. destruct (find_sub sep _) as [i|] eqn:Hi; simpl; [|done].
  intros [= <-]. apply find_sub_bound in Hi. rewrite length_drop in Hi. lia.
Qed.

Lemma Split_loop_total fuel s sep start res :
  sep ≠ [] → (start ≤ length s)%nat → (length s - start < fuel)%nat →
  is_Some (Split_loop fuel s sep start res).
Proof.
  intros Hsep. assert (0 < length sep)%nat as Hl by (destruct sep; simpl; [done|lia]).
  revert start res. induction fuel as [|fuel IH]; intros start res Hs Hf; [lia|]. simpl.
  destruct (find_from sep s start) as [p|] eqn:Hp; [|by eexists].
  apply find_from_bound in Hp. apply IH; lia.
Qed.

Lemma split_on_nonempty c s : split_on c s ≠ [].
Proof. induction s as [|d s IH]; simpl; [done|]. destruct (split_on c s); [by destruct IH|by case_decide]. Qed.

Lemma split_on_find c s i :
  find_sub [c] s = Some i → split_on c s = take i s :: split_on c (drop (S i) s).
Proof.
  revert i. induction s as [|d s IH]; intros i; simpl; [done|].
  pose proof (split_on_nonempty c s) as Hne.
  case_bool_decide as Hd; simpl.
  - intros [= <-]. subst. rewrite drop_0. destruct (split_on d s); [done|]. by rewrite decide_True.
  - destruct (find_sub [c] s) as [j|]; simpl; [|done]. intros [= <-].
    rewrite (IH j eq_refl). by rewrite decide_False.
Qed.

Lemma split_on_none c s : find_sub [c] s = None → split_on c s = [s].
Proof.
  induction s as [|d s IH]; simpl; [done|]. case_bool_decide; simpl; [done|].
  destruct (find_sub [c] s); [done|]. intros _. rewrite (IH eq_refl). by rewrite decide_False.
Qed.

Definition nonempty (p : str) : Prop := p ≠ [].
#[global] Instance nonempty_dec p : Decision (nonempty p).
Proof. unfold nonempty. apply _. Defined.

Lemma Split_loop_single fuel s c start res :
  (start ≤ length s)%nat → (length s - start < fuel)%nat →
  Split_loop fuel s [c] start res = Some (res ++ filter nonempty (split_on c (drop start s))).
Proof.
  revert start res. induction fuel as [|fuel IH]; intros start res Hs Hf; [lia|]. simpl.
  unfold find_from. rewrite decide_True by done.
  destruct (find_sub [c] (drop start s)) as [i|] eqn:Hi; simpl.
  - pose proof (find_sub_bound _ _ _ Hi) as Hb. rewrite length_drop in Hb. simpl in Hb.
    rewrite IH by lia. f_equal. rewrite (split_on_find _ _ _ Hi), filter_cons, drop_drop.
    replace (start + S i)%nat with (start + i + 1)%nat by lia.
    replace (start + i - start)%nat with i by lia.
    destruct (Nat.ltb_spec start (start + i)) as [Hlt|Hge].
    + rewrite decide_True; [by rewrite <- app_assoc|].
      intros Hnil%(f_equal length). rewrite length_take, length_drop in Hnil. simpl in Hnil. lia.
    + assert (i = 0%nat) as -> by lia. by rewrite take_0.
  - rewrite (split_on_none _ _ Hi), filter_cons, filter_nil.
    destruct (Nat.ltb_spec start (length s)) as [Hlt|Hge].
    + rewrite decide_True; [done|]. intros Hnil%(f_equal length). rewrite length_drop in Hnil.
      simpl in Hnil. lia.
    + rewrite drop_ge by lia. rewrite decide_False; [by rewrite app_nil_r|]. intros Hn. by apply Hn.
Qed.

Lemma split_on_app c p s : c ∉ p → split_on c (p ++ c :: s) = p :: split_on c s.
Proof.
  induction p as [|d p IH]; simpl; intros Hc.
  - pose proof (split_on_nonempty c s). destruct (split_on c s); [done|]. by rewrite decide_True.
  - apply not_elem_of_cons in Hc as [Hd Hc]. rewrite (IH Hc). by rewrite decide_False by congruence.
Qed.

Lemma split_on_plain c p : c ∉ p → split_on c p = [p].
Proof.
  induction p as [|d p IH]; simpl; intros Hc; [done|].
  apply not_elem_of_cons in Hc as [Hd Hc]. rewrite (IH Hc). by rewrite decide_False by congruence.
Qed.

Lemma split_on_join c ps :
  ps ≠ [] → Forall (λ p, c ∉ p) ps → split_on c (join c ps) = ps.
Proof.
  intros Hne. induction 1 as [|p ps Hp Hps IH]; [done|]. destruct ps as [|q ps].
  - by apply split_on_plain.
  - change (join c (p :: q :: ps)) with (p ++ c :: join c (q :: ps)).
    rewrite split_on_app by done. by rewrite IH.
Qed.

(** ** Numbers *)

Lemma nat_of_digit d : 0 ≤ d < 10 → nat_of_ascii (digit d) = Z.to_nat (48 + d).
Proof. intros Hd. unfold digit. apply nat_ascii_embedding. lia. Qed.

Lemma digit_of_digit d : 0 ≤ d < 10 → digit_of (digit d) = Some d.
Proof.
  intros Hd. unfold digit_of. rewrite nat_of_digit by done. rewrite Z2Nat.id by lia.
  rewrite (proj2 (Z.leb_le _ _)), (proj2 (Z.leb_le _ _)) by lia. simpl. f_equal. lia.
Qed.

Lemma scan_print_nat fuel n b rest :
  0 ≤ n < 10 ^ Z.of_nat fuel → (0 < fuel)%nat →
  scan_digits 0 b (print_nat fuel n ++ rest) = scan_digits n true rest.
Proof.
  revert n b rest. induction fuel as [|fuel IH]; intros n b rest Hn Hf; [lia|]. simpl.
  destruct (Z.ltb_spec n 10) as [Hlt|Hge].
  - simpl. by rewrite digit_of_digit by lia.
  - rewrite <- app_assoc.
    assert (0 < fuel)%nat as Hf' by (destruct fuel; [change (10 ^ Z.of_nat 1) with 10 in Hn|]; lia).
    rewrite IH; [|split|done].
    + simpl. rewrite digit_of_digit by (apply Z.mod_pos_bound; lia). f_equal.
      rewrite Z.mul_comm. symmetry. apply Z.div_mod. lia.
    + apply Z.div_pos; lia.
    + apply Z.div_lt_upper_bound; [lia|]. rewrite Nat2Z.inj_succ, Z.pow_succ_r in Hn by lia. lia.
Qed.

(** The characters of a printed number are digits, so neither NUL, nor blank. *)
Lemma print_nat_digits fuel n :
  0 ≤ n → Forall (λ c, (48 ≤ nat_of_ascii c ≤ 57)%nat) (print_nat fuel n).
Proof.
  revert n. induction fuel as [|fuel IH]; intros n Hn; simpl; [constructor|].
  destruct (Z.ltb_spec n 10).
  - constructor; [|constructor]. rewrite nat_of_digit; lia.
  - apply Forall_app. split; [apply IH, Z.div_pos; lia|]. constructor; [|constructor].
    pose proof (Z.mod_pos_bound n 10). rewrite nat_of_digit; lia.
Qed.

Lemma c_str_id s : Forall (λ c, nat_of_ascii c ≠ 0%nat) s → c_str s = s.
Proof.
  induction 1 as [|c s Hc _ IH]; simpl; [done|]. rewrite bool_decide_false, IH; [done|].
  by intros ->.
Qed.

Lemma print_nat_head fuel n :
  0 ≤ n → (0 < fuel)%nat → ∃ c s, print_nat fuel n = c :: s ∧ (48 ≤ nat_of_ascii c ≤ 57)%nat.
Proof.
  intros Hn Hf. pose proof (print_nat_digits fuel n Hn) as Hd.
  destruct (print_nat fuel n) as [|c s] eqn:Hp; [|inversion Hd; eauto].
  destruct fuel; [lia|]. simpl in Hp. destruct (n <? 10); [done|].
  by apply app_eq_nil in Hp as [_ ?].
Qed.

Lemma not_space c : (48 ≤ nat_of_ascii c ≤ 57)%nat ∨ c = "-"%char → isspace c = false.
Proof.
  intros [Hc| ->]; [|done]. unfold isspace. rewrite bool_decide_false by lia. simpl.
  destruct (Nat.leb_spec (nat_of_ascii c) 13); [lia|]. apply andb_false_r.
Qed.

#[global] Arguments print_nat : simpl never.

(** A printed 64-bit integer is read back. *)
Lemma scan_print_int z : - 10 ^ 20 < z < 10 ^ 20 → scan_int (print_int z) = Some (z, []).
Proof.
  intros Hz. unfold scan_int, print_int. destruct (Z.ltb_spec z 0).
  - simpl. pose proof (scan_print_nat 20 (- z) false []) as Hs. rewrite app_nil_r in Hs.
    rewrite Hs by lia. simpl. by rewrite Z.opp_involutive.
  - pose proof (scan_print_nat 20 z false []) as Hs. rewrite app_nil_r in Hs.
    destruct (print_nat_head 20 z) as (c & s & Hp & Hc); [lia|lia|]. rewrite Hp in *.
    cbn [skip_spaces]. rewrite not_space by auto. unfold scan_sign.
    rewrite !bool_decide_false by (intros ->; vm_compute in Hc; lia). rewrite Hs by lia. done.
Qed.

Lemma c_str_print_int z : c_str (print_int z) = print_int z.
Proof.
  apply c_str_id. unfold print_int.
  destruct (Z.ltb_spec z 0); [constructor; [done|]|];
    (eapply Forall_impl; [apply print_nat_digits; lia|]; intros c Hc; simpl in Hc; lia).
Qed.

Lemma Split_single s c : Split s [c] = Some (filter nonempty (split_on c s)).
Proof. unfold Split. rewrite Split_loop_single by lia. by rewrite drop_0. Qed.
Lemma Split_join c ps : Forall (λ p, (c ∉ p) ∧ p ≠ []) ps → Split (join c ps) [c] = Some ps.
Proof.
  intros Hps. rewrite Split_single. destruct (decide (ps = [])) as [->|Hne]; [done|].
  rewrite split_on_join; [|done|].
  - f_equal. clear Hne. induction Hps as [|p ps [_ Hp] Hps IH]; [done|].
    rewrite filter_cons, decide_True by done. by rewrite IH.
  - eapply Forall_impl; [exact Hps|]. by intros p [? _].
Qed.

(** * Properties *)

(** An [int32_t] written by [Int2String] is read back unchanged by
    [StringToInt] and by [std::stoi]. *)
Theorem Int2String_StringToInt z :
  - 2 ^ 31 ≤ z < 2 ^ 31 →
  StringToInt (Int2String z) = Some z ∧ stoi (Int2String z) = Some z.
Proof.
  intros Hz. assert (- 10 ^ 20 < z < 10 ^ 20) as Hz' by lia.
  unfold StringToInt, strtol, stoi, Int2String. rewrite c_str_print_int, scan_print_int by done.
  simpl. unfold clamp_long, LONG_MAX, LONG_MIN, i32. split.
  - rewrite Z.min_r, Z.max_r by lia.
    destruct (Z.eqb_spec z (2 ^ 63 - 1)), (Z.eqb_spec z (- 2 ^ 63)); simpl; try lia.
    f_equal. rewrite Z.mod_small by lia. lia.
  - destruct (Z.ltb_spec z (- 2 ^ 31)), (Z.ltb_spec (2 ^ 31 - 1) z); simpl; done || lia.
Qed.

Lemma Int2String_StringToInt_witness :
  StringToInt (lit "-2147483648") = Some (-2147483648) ∧ stoi (lit "-2147483648") = Some (-2147483648).
Proof. apply (Int2String_StringToInt (-2147483648)). lia. Defined.

(** [StringToInt] does not refuse a number that fits [long] but not
    [int32_t]: it wraps it around. *)
Theorem StringToInt_wraps z :
  LONG_MIN < z < LONG_MAX → StringToInt (print_int z) = Some (i32 z).
Proof.
  unfold LONG_MAX, LONG_MIN. intros Hz. unfold StringToInt, strtol.
  rewrite c_str_print_int, scan_print_int by lia. unfold clamp_long, LONG_MAX, LONG_MIN.
  rewrite Z.min_r, Z.max_r by lia.
  by destruct (Z.eqb_spec z (2 ^ 63 - 1)), (Z.eqb_spec z (- 2 ^ 63)); try lia.
Qed.

Lemma StringToInt_wraps_witness : StringToInt (lit "4294967297") = Some 1.
Proof. apply (StringToInt_wraps 4294967297). unfold LONG_MAX, LONG_MIN. lia. Defined.

(** [Split] with a one-character separator terminates and returns the
    non-empty pieces between the separators; in particular it inverts joining
    non-empty pieces free of the separator. *)
Theorem Split_spec s c :
  Split s [c] = Some (filter nonempty (split_on c s)) ∧
  (∀ ps, Forall (λ p, (c ∉ p) ∧ p ≠ []) ps → Split (join c ps) [c] = Some ps).
Proof. split; [apply Split_single|apply Split_join]. Qed.

Lemma Split_spec_witness :
  Split (lit "#ABC#WWW##XYZ#") (lit "#") = Some [lit "ABC"; lit "WWW"; lit "XYZ"] ∧
  Split (lit "a;bc") (lit ";") = Some [lit "a"; lit "bc"].
Proof.
  split; [exact (proj1 (Split_spec (lit "#ABC#WWW##XYZ#") "#"%char))|].
  apply (proj2 (Split_spec [] ";"%char) [lit "a"; lit "bc"]).
  repeat constructor; try discriminate; apply (bool_decide_unpack _); vm_compute; exact I.
Defined.

(** [Split] terminates for every separator that is not empty; with
    the empty separator its loop never ends. *)
Theorem Split_terminates s sep :
  (sep ≠ [] → is_Some (Split s sep)) ∧ (∀ fuel, Split_loop fuel s [] 0 [] = None).
Proof.
  split.
  - intros Hsep. apply Split_loop_total; [done|lia|lia].
  - induction fuel as [|fuel IH]; [done|]. simpl. unfold find_from.
    rewrite decide_True by lia. rewrite drop_0. by destruct s.
Qed.

Lemma Split_terminates_witness :
  is_Some (Split (lit "v.1.2") (lit "v.")) ∧ Split_loop 100 (lit "abc") [] 0 [] = None.
Proof.
  split; [apply (proj1 (Split_terminates (lit "v.1.2") (lit "v."))); discriminate|].
  apply (proj2 (Split_terminates (lit "abc") [])).
Defined.
