(* ===== verification/Queues.v ===== *)
(** * Queues

    [utils/queue_util.h] (a bounded blocking queue), [utils/task_executor.cpp/.h]
    (a worker thread on such a queue) and [utils/message_queue.cpp] with
    [utils/msg_handle_thread.cpp] (the message loop).

    A blocking queue is modelled with the threads that wait in it: those asleep
    on a condition variable, and those woken by a notification that have not
    taken the lock again.  Each step is one critical section under [queueMutex_];
    which sleeper a [notify_one] wakes is a parameter of the step. *)

From S2P Require Import Prelude.

(** [uint32_t] capacity of [Init] when none is given. *)
Definition MAX_CAPACITY : nat := 500%nat.

(** [class QueueUtil<T>].  [psleep], [pwoke]: the elements of the producers
    asleep on [notFullCv_] and of those woken; [csleep], [cwoke]: how many
    consumers are asleep on [notEmptyCv_], and woken.  [pushed], [popped]: the
    elements enqueued and dequeued since the queue was last cleared. *)
Record QueueUtil (T : Type) := mkQueue {
  isAvailable_ : bool; capacity_ : nat; queue_ : list T;
  psleep : list T; pwoke : list T; csleep : nat; cwoke : nat;
  pushed : list T; popped : list T }.
Arguments mkQueue {T} _ _ _ _ _ _ _ _ _.
Arguments isAvailable_ {T} _.
Arguments capacity_ {T} _.
Arguments queue_ {T} _.
Arguments psleep {T} _.
Arguments pwoke {T} _.
Arguments csleep {T} _.
Arguments cwoke {T} _.
Arguments pushed {T} _.
Arguments popped {T} _.
#[global] Instance QueueUtil_eta T : Eta (QueueUtil T) :=
  λ q, mkQueue (isAvailable_ q) (capacity_ q) (queue_ q) (psleep q) (pwoke q) (csleep q) (cwoke q)
         (pushed q) (popped q).

(** The outcome of a call: a result, or the thread sleeps in the queue. *)
Inductive Outcome (A : Type) := Done (a : A) | Sleeps.
Arguments Done {A} _.
Arguments Sleeps {A}.

Section queue.
Context {T : Type}.
Implicit Types q : QueueUtil T.

Definition new_queue : QueueUtil T := mkQueue false 0 [] [] [] 0 0 [] [].

(** [Init]. *)
Definition Init (capacity : nat) q : QueueUtil T :=
  q <| isAvailable_ := true |> <| capacity_ := capacity |>.

(** [notEmptyCv_.notify_one()] and [notFullCv_.notify_one()]; [i] chooses the
    producer that is woken. *)
Definition notify_consumer q : QueueUtil T :=
  match csleep q with
  | O => q
  | S n => q <| csleep := n |> <| cwoke ::= S |>
  end.
Definition notify_producer (i : nat) q : QueueUtil T :=
  match psleep q !! (i mod length (psleep q))%nat with
  | None => q
  | Some x => q <| psleep ::= λ l, take (i mod length l) l ++ drop (S (i mod length l)) l |>
                <| pwoke ::= λ l, l ++ [x] |>
  end.

Definition full q : bool := (capacity_ q <=? length (queue_ q))%nat.

Definition enqueue (x : T) q : QueueUtil T :=
  notify_consumer (q <| queue_ ::= λ l, l ++ [x] |> <| pushed ::= λ l, l ++ [x] |>).
Definition dequeue (x : T) (rest : list T) (i : nat) q : QueueUtil T :=
  notify_producer i (q <| queue_ := rest |> <| popped ::= λ l, l ++ [x] |>).

(** [Push]: the call, and what a woken producer does. *)
Definition Push (x : T) (isWait : bool) q : Outcome bool * QueueUtil T :=
  if negb (isAvailable_ q) then (Done false, q) else
  if full q then
    if negb isWait then (Done false, q) else (Sleeps, q <| psleep ::= λ l, l ++ [x] |>)
  else (Done true, enqueue x q).

Definition Push_resume (j : nat) q : Outcome bool * QueueUtil T :=
  match pwoke q !! j with
  | None => (Sleeps, q)
  | Some x =>
    let q1 := q <| pwoke ::= λ l, take j l ++ drop (S j) l |> in
    if negb (isAvailable_ q) then (Done false, q1) else
    if full q then (Sleeps, q1 <| psleep ::= λ l, l ++ [x] |>) else (Done true, enqueue x q1)
  end.

(** [Pop], and what a woken consumer does; [i] is the producer it wakes.  In
    [PopUntilTimeout] ([timed]) a consumer woken for nothing gives up. *)
Definition Pop (i : nat) q : Outcome (option T) * QueueUtil T :=
  if negb (isAvailable_ q) then (Done None, q) else
  match queue_ q with
  | [] => (Sleeps, q <| csleep ::= S |>)
  | x :: rest => (Done (Some x), dequeue x rest i q)
  end.

Definition Pop_resume (timed : bool) (i : nat) q : Outcome (option T) * QueueUtil T :=
  match cwoke q with
  | O => (Sleeps, q)
  | S n =>
    let q1 := q <| cwoke := n |> in
    if negb (isAvailable_ q) then (Done None, q1) else
    match queue_ q with
    | [] => if timed then (Done None, q1) else (Sleeps, q1 <| csleep ::= S |>)
    | x :: rest => (Done (Some x), dequeue x rest i q1)
    end
  end.

(** The time limit of [PopUntilTimeout] expires while the consumer sleeps. *)
Definition Pop_timeout q : QueueUtil T := q <| csleep ::= pred |>.

(** [PopLen]: up to [maxLen] elements; no producer is notified. *)
Definition PopLen (maxLen : nat) q : option (list T) * QueueUtil T :=
  if negb (isAvailable_ q) then (None, q) else
  (Some (take maxLen (queue_ q)),
   q <| queue_ ::= drop maxLen |> <| popped ::= λ l, l ++ take maxLen (queue_ q) |>).

(** [Uninit]: the queue is emptied and everybody is woken. *)
Definition Uninit q : QueueUtil T :=
  q <| capacity_ := 0%nat |> <| queue_ := [] |> <| isAvailable_ := false |>
    <| pwoke ::= λ l, l ++ psleep q |> <| psleep := [] |>
    <| cwoke ::= λ n, (n + csleep q)%nat |> <| csleep := 0%nat |>
    <| pushed := [] |> <| popped := [] |>.

(** The steps of the threads that use a queue; [lens] tells whether [PopLen] is
    used.  [Init] is called on a queue that is not available. *)
Inductive qstep (lens : bool) : QueueUtil T → QueueUtil T → Prop :=
| q_init c q : isAvailable_ q = false → qstep lens q (Init c q)
| q_push x w q : qstep lens q (Push x w q).2
| q_push_resume j q : (j < length (pwoke q))%nat → qstep lens q (Push_resume j q).2
| q_pop i q : qstep lens q (Pop i q).2
| q_pop_resume t i q : (0 < cwoke q)%nat → qstep lens q (Pop_resume t i q).2
| q_timeout q : (0 < csleep q)%nat → qstep lens q (Pop_timeout q)
| q_poplen n q : lens = true → qstep lens q (PopLen n q).2
| q_uninit q : qstep lens q (Uninit q).

(** ** Invariant *)

(** The queue is within its capacity and is empty when it is not available;
    elements leave in the order they came; nobody sleeps in a queue that is not
    available; and for every element waiting while consumers sleep, a consumer
    has been woken. *)
Record queue_ok q : Prop := {
  qo_bound : isAvailable_ q = true → (length (queue_ q) ≤ capacity_ q)%nat;
  qo_empty : isAvailable_ q = false → queue_ q = [] ∧ psleep q = [] ∧ csleep q = 0%nat;
  qo_fifo : pushed q = popped q ++ queue_ q;
  qo_consumer : (0 < csleep q)%nat → (length (queue_ q) ≤ cwoke q)%nat }.

(** For every free place while producers sleep, a producer has been woken. *)
Definition producers_ok q : Prop :=
  psleep q ≠ [] → (capacity_ q ≤ length (queue_ q) + length (pwoke q))%nat.

Lemma enqueue_ok x q :
  isAvailable_ q = true → full q = false → queue_ok q → queue_ok (enqueue x q).
Proof.
  unfold full. intros Ha Hf%Nat.leb_gt [H1 H2 H3 H4]. unfold enqueue, notify_consumer. cbn.
  assert (pushed q ++ [x] = popped q ++ queue_ q ++ [x]) as Hfifo by (by rewrite H3, <- app_assoc).
  destruct (csleep q) as [|n] eqn:Hc; constructor; cbn; rewrite ?length_app; cbn; try done;
    try congruence; intros; try lia.
Qed.

Lemma notify_producer_ok i q : queue_ok q → queue_ok (notify_producer i q).
Proof.
  intros [H1 H2 H3 H4]. unfold notify_producer.
  destruct (psleep q !! _) eqn:Hl; [|by constructor]. constructor; cbn; try done.
  intros Ha. destruct (H2 Ha) as (? & Hp & ?). rewrite Hp in Hl. done.
Qed.

Lemma dequeue_ok x rest i q :
  isAvailable_ q = true → queue_ q = x :: rest → queue_ok q → queue_ok (dequeue x rest i q).
Proof.
  intros Ha Hq [H1 H2 H3 H4]. apply notify_producer_ok. rewrite Hq in *. cbn in *.
  constructor; cbn; intros; try congruence.
  - specialize (H1 Ha). lia.
  - by rewrite H3, <- app_assoc.
  - specialize (H4 H). lia.
Qed.

Lemma qstep_ok lens q q' : queue_ok q → qstep lens q q' → queue_ok q'.
Proof.
  intros Hq Hs. pose proof Hq as [H1 H2 H3 H4].
  destruct Hs as [c q Ha|x w q|j q Hj|i q|t i q Hc|q Hc|n q _|q].
  - destruct (H2 Ha) as (E1 & E2 & E3). constructor; cbn; rewrite ?E1, ?E3 in *; cbn; try done; intros; lia.
  - unfold Push. destruct (isAvailable_ q) eqn:Ha; cbn [negb]; [|done].
    destruct (full q) eqn:Hf; [|by apply enqueue_ok].
    destruct w; cbn [negb snd]; [|done]. constructor; cbn; try done; intros; first [congruence | by apply H1].
  - unfold Push_resume. destruct (pwoke q !! j) as [x|]; [|done].
    assert (queue_ok (q <| pwoke ::= λ l, take j l ++ drop (S j) l |>)) as Hq1 by by constructor.
    destruct (isAvailable_ q) eqn:Ha; cbn [negb]; [|done].
    destruct (full q) eqn:Hf; [|by apply enqueue_ok]. constructor; cbn; try done; intros; first [congruence | by apply H1].
  - unfold Pop. destruct (isAvailable_ q) eqn:Ha; cbn [negb]; [|done].
    destruct (queue_ q) as [|x rest] eqn:Hqq; [|by apply dequeue_ok].
    constructor; cbn; rewrite ?Hqq in *; cbn; try done; intros; first [congruence|lia].
  - unfold Pop_resume. destruct (cwoke q) as [|n] eqn:Hn; [lia|].
    destruct (isAvailable_ q) eqn:Ha; cbn [negb].
    2: { destruct (H2 ltac:(done)) as (E1 & E2 & E3).
         constructor; cbn; rewrite ?E1, ?E3 in *; cbn; try done; intros; lia. }
    destruct (queue_ q) as [|x rest] eqn:Hqq.
    + destruct t; constructor; cbn; rewrite ?Hqq in *; cbn; try done; intros; first [congruence|lia].
    + apply notify_producer_ok. constructor; cbn; intros; try congruence.
      * specialize (H1 ltac:(done)). cbn in H1. lia.
      * by rewrite H3, <- app_assoc.
      * specialize (H4 H). cbn in H4. lia.
  - constructor; cbn; try done.
    + intros Ha. destruct (H2 ltac:(done)) as (? & ? & ?). lia.
    + intros Hc'. apply H4. lia.
  - unfold PopLen. destruct (isAvailable_ q) eqn:Ha; cbn [negb]; [|done].
    constructor; cbn; try (intros; congruence); rewrite ?length_drop.
    + intros _. specialize (H1 ltac:(done)). lia.
    + by rewrite <- app_assoc, take_drop.
    + intros Hc. specialize (H4 Hc). lia.
  - constructor; cbn; try done; lia.
Qed.

Lemma notify_producer_lengths i q :
  psleep q ≠ [] →
  length (pwoke (notify_producer i q)) = S (length (pwoke q)) ∧
  queue_ (notify_producer i q) = queue_ q ∧ capacity_ (notify_producer i q) = capacity_ q.
Proof.
  intros Hne. unfold notify_producer.
  assert (0 < length (psleep q))%nat as Hlen by (destruct (psleep q); cbn; [done|lia]).
  destruct (psleep q !! (i mod length (psleep q))%nat) eqn:Hl.
  - cbn. rewrite length_app. cbn. split_and!; try done. lia.
  - apply lookup_ge_None in Hl. pose proof (Nat.mod_upper_bound i (length (psleep q))). lia.
Qed.

Lemma notify_producer_sleepers i q : psleep q = [] → notify_producer i q = q.
Proof. intros Hn. unfold notify_producer. by rewrite Hn. Qed.

Lemma notify_consumer_producers q :
  psleep (notify_consumer q) = psleep q ∧ pwoke (notify_consumer q) = pwoke q ∧
  queue_ (notify_consumer q) = queue_ q ∧ capacity_ (notify_consumer q) = capacity_ q.
Proof. unfold notify_consumer. by destruct (csleep q). Qed.

Lemma dequeue_producers x rest i q :
  queue_ q = x :: rest → producers_ok q → producers_ok (dequeue x rest i q).
Proof.
  intros Hq Hp. unfold dequeue, producers_ok in *. rewrite Hq in Hp.
  set (q1 := q <| queue_ := rest |> <| popped ::= λ l, l ++ [x] |>).
  destruct (decide (psleep q1 = [])) as [Hn|Hn].
  - rewrite notify_producer_sleepers by done. done.
  - destruct (notify_producer_lengths i q1 Hn) as (-> & -> & ->). cbn in *. specialize (Hp Hn). lia.
Qed.

Lemma take_drop_length {X} (l : list X) j :
  (j < length l)%nat → length (take j l ++ drop (S j) l) = pred (length l).
Proof. intros Hj. rewrite length_app, length_take, length_drop. lia. Qed.

Lemma qstep_producers q q' :
  queue_ok q → producers_ok q → qstep false q q' → producers_ok q'.
Proof.
  intros Hq Hp Hs. pose proof Hq as [H1 H2 H3 H4].
  destruct Hs as [c q Ha|x w q|j q Hj|i q|t i q Hc|q Hc|n q ?|q]; try done.
  - unfold producers_ok. cbn. by destruct (H2 Ha) as (_ & -> & _).
  - unfold Push. destruct (isAvailable_ q); cbn [negb]; [|done].
    destruct (full q) eqn:Hf; unfold full in Hf.
    + destruct w; cbn [negb snd]; [|done]. apply Nat.leb_le in Hf. intros _. cbn. lia.
    + unfold enqueue, producers_ok in *. intros Hn. cbn [snd] in *.
      match goal with |- context [notify_consumer ?a] => destruct (notify_consumer_producers a) as (E1 & -> & -> & ->);
        rewrite E1 in Hn end. cbn in *. specialize (Hp Hn). rewrite length_app. lia.
  - unfold Push_resume. destruct (lookup_lt_is_Some_2 _ _ Hj) as [x Hx]. rewrite Hx.
    pose proof (take_drop_length (pwoke q) j Hj) as Hl.
    destruct (isAvailable_ q) eqn:Ha; cbn [negb].
    2: { unfold producers_ok. cbn. by destruct (H2 ltac:(done)) as (_ & -> & _). }
    destruct (full q) eqn:Hf; unfold full in Hf.
    + apply Nat.leb_le in Hf. intros _. cbn. lia.
    + apply Nat.leb_gt in Hf. unfold enqueue, producers_ok in *. intros Hn. cbn [snd] in *.
      match goal with |- context [notify_consumer ?a] => destruct (notify_consumer_producers a) as (E1 & -> & -> & ->);
        rewrite E1 in Hn end. cbn in *. specialize (Hp Hn). rewrite length_app, Hl. cbn. lia.
  - unfold Pop. destruct (isAvailable_ q); cbn [negb]; [|done].
    destruct (queue_ q) as [|x rest] eqn:Hqq; [done|]. by apply dequeue_producers.
  - unfold Pop_resume. destruct (cwoke q) as [|n]; [done|].
    destruct (isAvailable_ q); cbn [negb]; [|done].
    destruct (queue_ q) as [|x rest] eqn:Hqq; [by destruct t|]. by apply dequeue_producers.
  - intros Hn. by destruct Hn.
Qed.

Lemma new_queue_ok : queue_ok new_queue ∧ producers_ok new_queue.
Proof. split; [constructor; cbn; try done; lia|]. intros Hn. by destruct Hn. Qed.

End queue.

(** * Properties *)

(** In every reachable state of a blocking queue, whatever threads push,
    pop, pop several, time out, initialise and shut down, and whoever is woken:
    the queue is within its capacity, its content is what was pushed and not yet
    popped, in order, and sleeping consumers miss no element. *)
Theorem queue_reachable_ok {T} (q : QueueUtil T) :
  rtc (qstep true) new_queue q → queue_ok q.
Proof. apply rtc_invariant; [apply qstep_ok|apply new_queue_ok]. Qed.

Definition q_demo : QueueUtil nat := (Push 3%nat true (Push 2%nat true (Push 1%nat true (Init 2 new_queue)).2).2).2.

Lemma q_demo_rtc : rtc (qstep true) new_queue q_demo.
Proof.
  eapply rtc_l; [by apply (q_init true 2)|]. eapply rtc_l; [apply (q_push true 1%nat true)|].
  eapply rtc_l; [apply (q_push true 2%nat true)|]. eapply rtc_l; [apply (q_push true 3%nat true)|].
  apply rtc_refl.
Qed.

Lemma queue_reachable_ok_witness : psleep q_demo = [3%nat] ∧ queue_ok q_demo.
Proof. split; [reflexivity|]. apply queue_reachable_ok, q_demo_rtc. Defined.

(** As long as [PopLen] is not used, no producer is left behind: if
    one sleeps while the queue has room, another that was woken is about to
    run. *)
Theorem no_lost_producer {T} (q : QueueUtil T) :
  rtc (qstep false) new_queue q → psleep q ≠ [] →
  (length (queue_ q) < capacity_ q)%nat → pwoke q ≠ [].
Proof.
  intros Hr Hs Hl.
  assert (queue_ok q ∧ producers_ok q) as [_ Hp].
  { revert Hr. apply (rtc_invariant _ (λ q, queue_ok q ∧ producers_ok q)).
    - intros a b [? ?] ?. split; [by eapply qstep_ok|by eapply qstep_producers].
    - apply new_queue_ok. }
  specialize (Hp Hs). intros Hn. rewrite Hn in Hp. cbn in Hp. lia.
Qed.

Definition q_two : QueueUtil nat :=
  (Pop 0 (Push 3%nat true (Push 2%nat true (Push 1%nat true (Init 1 new_queue)).2).2).2).2.

Lemma no_lost_producer_witness : psleep q_two = [3%nat] ∧ pwoke q_two ≠ [].
Proof.
  split; [reflexivity|]. apply (no_lost_producer q_two).
  - eapply rtc_l; [by apply (q_init false 1)|]. eapply rtc_l; [apply (q_push false 1%nat true)|].
    eapply rtc_l; [apply (q_push false 2%nat true)|]. eapply rtc_l; [apply (q_push false 3%nat true)|].
    eapply rtc_l; [apply (q_pop false 0)|]. apply rtc_refl.
  - discriminate.
  - vm_compute. lia.
Defined.

(** [PopLen] notifies nobody: after it a producer can sleep on an empty
    queue with no woken thread that would ever wake it. *)
Theorem PopLen_loses_producer :
  ∃ q : QueueUtil nat, rtc (qstep true) new_queue q ∧ isAvailable_ q = true ∧
    capacity_ q = 2%nat ∧ queue_ q = [] ∧ psleep q = [3%nat] ∧ pwoke q = [] ∧ cwoke q = 0%nat.
Proof.
  exists (PopLen 5 q_demo).2. split; [|vm_compute; split_and!; reflexivity].
  etrans; [apply q_demo_rtc|]. apply rtc_once. by apply (q_poplen true 5).
Qed.

(** ** Message queue and message thread *)

(** [class MessageQueue]; a message is of type [A], [None] the null pointer. *)
Record MessageQueue (A : Type) := mkMsgQueue { size_ : nat; messages : list A }.
Arguments mkMsgQueue {A} _ _.
Arguments size_ {A} _.
Arguments messages {A} _.
#[global] Instance MessageQueue_eta A : Eta (MessageQueue A) := λ q, mkMsgQueue (size_ q) (messages q).

Definition MSQ_QUEUE_MAX_LEN : nat := 100%nat.

Section messages.
Context {A : Type}.
Implicit Types q : MessageQueue A.

(** [SendMsg]. *)
Definition Queue_SendMsg (msg : option A) : St (MessageQueue A) bool := λ q,
  match msg with
  | None => (false, q)
  | Some m => if (size_ q <=? length (messages q))%nat then (false, q)
              else (true, q <| messages ::= λ l, l ++ [m] |>)
  end.

(** [ReceiveMsg]: [None] while the caller waits. *)
Definition ReceiveMsg : St (MessageQueue A) (option A) := λ q,
  match messages q with
  | [] => (None, q)
  | m :: rest => (Some m, q <| messages := rest |>)
  end.

Definition Queue_Clear : St (MessageQueue A) unit := st_modify (λ q, q <| messages := [] |>).

(** [MsgHandleThread::SendMsg]: the result of the queue is not looked at. *)
Definition Thread_SendMsg (msg : option A) : St (MessageQueue A) bool :=
  match msg with
  | None => mret false
  | Some _ => _ ← Queue_SendMsg msg; mret true
  end.

(** [Run], over the messages that are there: it stops after the first message
    [HandleMsg] quits on, or waits ([false]) when there is none left.  The result
    lists the messages handled. *)
Fixpoint Run_loop (HandleMsg : A → bool) (l : list A) : list A * list A * bool :=
  match l with
  | [] => ([], [], false)
  | m :: l =>
    if HandleMsg m then ([m], l, true)
    else let '(done, rest, quit) := Run_loop HandleMsg l in (m :: done, rest, quit)
  end.
Definition Run (HandleMsg : A → bool) : St (MessageQueue A) (list A * bool) := λ q,
  let '(done, rest, quit) := Run_loop HandleMsg (messages q) in
  ((done, quit), q <| messages := rest |>).

(** Sending a sequence of messages. *)
Fixpoint send_all (l : list A) : St (MessageQueue A) (list bool) :=
  match l with
  | [] => mret []
  | m :: l => r ← Thread_SendMsg (Some m); rs ← send_all l; mret (r :: rs)
  end.

Lemma send_all_messages l q :
  messages (send_all l q).2 = messages q ++ take (size_ q - length (messages q)) l.
Proof.
  revert q. induction l as [|m l IH]; intros q; cbn [send_all].
  { by rewrite take_nil, app_nil_r. }
  rewrite !bind_run. cbn [mret st_ret fst snd]. rewrite IH. unfold Thread_SendMsg. rewrite bind_run.
  cbn [mret st_ret fst snd]. unfold Queue_SendMsg.
  destruct (Nat.leb_spec (size_ q) (length (messages q))) as [Hle|Hgt]; cbn.
  - by replace (size_ q - length (messages q))%nat with 0%nat by lia.
  - rewrite length_app. cbn.
    replace (size_ q - length (messages q))%nat with (S (size_ q - (length (messages q) + 1)))%nat by lia.
    cbn. by rewrite <- app_assoc.
Qed.

Lemma send_all_results l q : (send_all l q).1 = replicate (length l) true.
Proof.
  revert q. induction l as [|m l IH]; intros q; cbn [send_all]; [done|]. rewrite !bind_run.
  cbn [mret st_ret fst snd]. rewrite IH. cbn [length replicate]. f_equal.
  unfold Thread_SendMsg. by rewrite bind_run.
Qed.

Lemma Run_loop_spec H l :
  ∃ done rest quit, Run_loop H l = (done, rest, quit) ∧ l = done ++ rest ∧
    (quit = true → ∃ pre m, done = pre ++ [m] ∧ H m = true ∧ Forall (λ x, H x = false) pre) ∧
    (quit = false → rest = [] ∧ Forall (λ x, H x = false) done).
Proof.
  induction l as [|m l (done & rest & quit & Hr & Hl & Ht & Hf)]; cbn [Run_loop].
  { exists [], [], false. split_and!; try done; by constructor. }
  destruct (H m) eqn:Hm.
  - exists [m], l, true. split_and!; try done. intros _. exists [], m. split_and!; try done; by constructor.
  - rewrite Hr. exists (m :: done), rest, quit. split; [done|]. split; [by rewrite Hl|]. split.
    + intros Hq. destruct (Ht Hq) as (pre & x & -> & Hx & Hpre). exists (m :: pre), x.
      split_and!; try done; by constructor.
    + intros Hq. destruct (Hf Hq) as [-> Hd]. split; [done|]. by constructor.
Qed.
End messages.

(** Messages sent to a message thread are handled in the order they were
    sent, up to and including the first one its handler quits on; those that find
    the queue of [MSQ_QUEUE_MAX_LEN] full are lost although every send reports
    success. *)
Theorem message_thread_order {A} (H : A → bool) (l : list A) :
  let q0 := mkMsgQueue MSQ_QUEUE_MAX_LEN [] in
  let '(results, q1) := send_all l q0 in
  let '((handled, quit), q2) := Run H q1 in
  results = replicate (length l) true ∧ handled ++ messages q2 = take MSQ_QUEUE_MAX_LEN l ∧
  (quit = true → ∃ pre m, handled = pre ++ [m] ∧ H m = true ∧ Forall (λ x, H x = false) pre) ∧
  (quit = false → messages q2 = [] ∧ Forall (λ x, H x = false) handled).
Proof.
  cbv zeta. pose proof (send_all_messages l (mkMsgQueue MSQ_QUEUE_MAX_LEN [])) as Hm.
  pose proof (send_all_results l (mkMsgQueue MSQ_QUEUE_MAX_LEN [])) as Hr.
  destruct (send_all l _) as [results q1]. cbn [fst snd] in *. unfold Run.
  destruct (Run_loop_spec H (messages q1)) as (done & rest & quit & -> & Hl & Ht & Hf).
  split; [done|]. split; [|done]. cbn [messages]. rewrite Hm in Hl. exact (eq_sym Hl).
Qed.
