(* ===== verification/AudioUtil.v ===== *)
(** * Audio buffers

    [utils/pcm_buffer.cpp] (an append-only recording buffer),
    [utils/array_buffer_util.cpp/.h] and [IntellVoiceUtil::DeinterleaveAudioData]
    of [utils/intell_voice_util.cpp].  A byte is a [Z] between 0 and 255, a sample
    a 16-bit [Z]; [size_t] has 64 bits. *)

From S2P Require Import Prelude.

(** ** [PcmBuffer] *)

Record PcmBuffer := mkPcm { mCapacity : Z; mBuffer : list Z; mWritePos : Z }.
#[global] Instance PcmBuffer_eta : Eta PcmBuffer := λ b, mkPcm (mCapacity b) (mBuffer b) (mWritePos b).

(** The constructor. *)
Definition new_pcm (capacity : Z) : PcmBuffer :=
  mkPcm capacity (replicate (Z.to_nat capacity) 0) 0.

(** The bytes of [data] written over those of [buf] from position [pos] on. *)
Definition overwrite (pos : nat) (data buf : list Z) : list Z :=
  take pos buf ++ data ++ drop (pos + length data) buf.

Section pcm.
(** What [memcpy_s] leaves in the destination when it refuses to copy. *)
Context (memcpy_refused : list Z → nat → list Z).

(** [Write]: [None] is the null pointer; the [len] bytes are those of [data].
    The sum is computed in [size_t]. *)
Definition Write (data : option (list Z)) (len : Z) (b : PcmBuffer) : bool * PcmBuffer :=
  match data with
  | None => (false, b)
  | Some d =>
    if (len <=? 0) || (mCapacity b <? u64 (mWritePos b + len)) then (false, b) else
    let buf := if len <=? u64 (mCapacity b - mWritePos b)
               then overwrite (Z.to_nat (mWritePos b)) (take (Z.to_nat len) d) (mBuffer b)
               else memcpy_refused (mBuffer b) (Z.to_nat (mWritePos b)) in
    (true, b <| mBuffer := buf |> <| mWritePos := u64 (mWritePos b + len) |>)
  end.

(** [Clear]. *)
Definition Pcm_Clear (b : PcmBuffer) : bool * PcmBuffer :=
  (true, b <| mWritePos := 0 |> <| mBuffer := replicate (Z.to_nat (mCapacity b)) 0 |>).

(** A sequence of writes, with their results. *)
Fixpoint write_all (ds : list (list Z)) (b : PcmBuffer) : list bool * PcmBuffer :=
  match ds with
  | [] => ([], b)
  | d :: ds =>
    let '(r, b1) := Write (Some d) (Z.of_nat (length d)) b in
    let '(rs, b2) := write_all ds b1 in (r :: rs, b2)
  end.

(** The bytes of the writes that were accepted. *)
Definition accepted (ds : list (list Z)) (rs : list bool) : list Z :=
  concat (zip_with (λ d (r : bool), if r then d else []) ds rs).

(** [b] holds exactly [content], followed by zeros. *)
Record holds (content : list Z) (b : PcmBuffer) : Prop := {
  ho_cap : 0 ≤ mCapacity b < 2 ^ 63;
  ho_fits : Z.of_nat (length content) ≤ mCapacity b;
  ho_pos : mWritePos b = Z.of_nat (length content);
  ho_buf : mBuffer b = content ++ replicate (Z.to_nat (mCapacity b) - length content) 0 }.

Lemma Write_holds content d b :
  holds content b → Z.of_nat (length d) < 2 ^ 63 →
  let '(r, b') := Write (Some d) (Z.of_nat (length d)) b in
  r = bool_decide (d ≠ [] ∧ Z.of_nat (length content + length d) ≤ mCapacity b) ∧
  mCapacity b' = mCapacity b ∧ holds (content ++ (if r then d else [])) b'.
Proof.
  intros [Hc Hf Hp Hb] Hd. unfold Write. rewrite Hp. unfold u64.
  rewrite (Z.mod_small (Z.of_nat (length content) + Z.of_nat (length d))) by lia.
  destruct (decide (d ≠ [] ∧ Z.of_nat (length content + length d) ≤ mCapacity b)) as [[Hne Hle]|Hno].
  - assert (0 < length d)%nat by (destruct d; cbn; [done|lia]).
    rewrite (proj2 (Z.leb_gt _ _)), (proj2 (Z.ltb_ge _ _)) by lia. cbn [orb].
    rewrite Z.mod_small by lia. rewrite (proj2 (Z.leb_le _ _)) by lia.
    rewrite bool_decide_true by done. split; [done|]. split; [done|]. constructor; cbn.
    + done.
    + rewrite length_app. lia.
    + rewrite length_app. lia.
    + rewrite !Nat2Z.id, take_ge by lia. unfold overwrite. rewrite Hb.
      rewrite take_app_length, <- app_assoc. f_equal. f_equal.
      rewrite drop_app_ge by lia. rewrite drop_replicate, length_app. f_equal. lia.
  - rewrite bool_decide_false by done.
    destruct ((Z.of_nat (length d) <=? 0) || _) eqn:Hor.
    + split; [done|]. split; [done|]. rewrite app_nil_r. by constructor.
    + apply orb_false_elim in Hor as [H1%Z.leb_gt H2%Z.ltb_ge]. exfalso. apply Hno.
      split; [by intros ->|lia].
Qed.

Lemma write_all_holds ds content b :
  holds content b → Forall (λ d, Z.of_nat (length d) < 2 ^ 63) ds →
  let '(rs, b') := write_all ds b in
  length rs = length ds ∧ holds (content ++ accepted ds rs) b'.
Proof.
  revert content b. induction ds as [|d ds IH]; intros content b Hb Hds; cbn [write_all].
  { split; [done|]. unfold accepted. cbn. by rewrite app_nil_r. }
  apply Forall_cons in Hds as [Hd Hds]. pose proof (Write_holds content d b Hb Hd) as Hw.
  destruct (Write (Some d) (Z.of_nat (length d)) b) as [r b1]. destruct Hw as (_ & _ & Hb1).
  specialize (IH _ b1 Hb1 Hds). destruct (write_all ds b1) as [rs b2]. destruct IH as [Hl Hh].
  split; [cbn; lia|]. unfold accepted in *. cbn. by rewrite app_assoc.
Qed.

Lemma new_pcm_holds capacity : 0 ≤ capacity < 2 ^ 63 → holds [] (new_pcm capacity).
Proof. intros Hc. constructor; cbn; try done; try lia. by rewrite Nat.sub_0_r. Qed.
End pcm.

(** ** [ArrayBufferUtil] *)

(** [CreateArrayBuffer]: the content, [None] for a null result. *)
Definition CreateArrayBuffer (size : Z) (data : option (list Z)) : option (list Z) :=
  if size =? 0 then None else
  Some (match data with
        | None => replicate (Z.to_nat size) 0
        | Some d => take (Z.to_nat size) d
        end).

(** ** [DeinterleaveAudioData] *)

(** The bytes of a 16-bit sample, little endian. *)
Definition sample_bytes (s : Z) : list Z := [s mod 256; (s / 256) mod 256].

Section deinterleave.
Context (buffer : list Z) (size channelCnt : Z).

(** [size / channelCnt] is an unsigned division. *)
Definition channelLen : Z := u32 size / u32 channelCnt.

(** The index [i + j * channelCnt], in unsigned arithmetic; [None] is a read
    outside the buffer. *)
Definition sample_at (i j : nat) : option Z :=
  buffer !! Z.to_nat (u32 (Z.of_nat i + u32 (Z.of_nat j * u32 channelCnt))).
Definition channel (i : nat) : option (list Z) := mapM (sample_at i) (seq 0 (Z.to_nat channelLen)).

Definition DeinterleaveAudioData : option (bool * list (list Z)) :=
  if channelCnt =? 0 then Some (false, []) else
  (λ chans, (true, (λ c, c ≫= sample_bytes) <$> chans)) <$> mapM channel (seq 0 (Z.to_nat channelCnt)).
End deinterleave.

Lemma mapM_seq_Some {X} (f : nat → option X) n :
  (∀ i, (i < n)%nat → is_Some (f i)) →
  ∃ l, mapM f (seq 0 n) = Some l ∧ length l = n ∧ ∀ i, (i < n)%nat → l !! i = f i.
Proof.
  intros Hf.
  assert (Forall (λ i, is_Some (f i)) (seq 0 n)) as Hall.
  { apply Forall_forall. intros i Hi%elem_of_seq. apply Hf. lia. }
  apply mapM_is_Some_2 in Hall as [l Hl]. exists l. split; [done|].
  pose proof (length_mapM _ _ _ Hl) as Hlen. rewrite length_seq in Hlen. split; [done|].
  intros i Hi. apply mapM_Some in Hl.
  assert (seq 0 n !! i = Some i) as Hs by (apply lookup_seq; lia).
  destruct (Forall2_lookup_l _ _ _ _ _ Hl Hs) as (x & Hx & Hfx). by rewrite Hx.
Qed.

(** * Properties *)

(** After any sequence of writes shorter than 2^63 bytes each, a recording
    buffer of fewer than 2^63 bytes holds exactly the accepted writes, in order,
    followed by zeros, never beyond its capacity, and the next write is accepted
    exactly when it is not empty and fits. *)
Theorem PcmBuffer_appends memcpy_refused capacity ds d :
  0 ≤ capacity < 2 ^ 63 → Forall (λ d, Z.of_nat (length d) < 2 ^ 63) ds →
  Z.of_nat (length d) < 2 ^ 63 →
  let '(rs, b) := write_all memcpy_refused ds (new_pcm capacity) in
  holds (accepted ds rs) b ∧
  (Write memcpy_refused (Some d) (Z.of_nat (length d)) b).1 =
    bool_decide (d ≠ [] ∧ Z.of_nat (length (accepted ds rs) + length d) ≤ capacity).
Proof.
  intros Hc Hds Hd.
  assert (mCapacity (write_all memcpy_refused ds (new_pcm capacity)).2 = capacity) as Hcap.
  { change capacity with (mCapacity (new_pcm capacity)) at 2. generalize (new_pcm capacity) as b.
    clear. induction ds as [|d ds IH]; intros b; cbn [write_all]; [done|].
    destruct (Write memcpy_refused (Some d) _ b) as [r b1] eqn:Hw.
    specialize (IH b1). destruct (write_all memcpy_refused ds b1) as [rs b2]. cbn in *. rewrite IH.
    unfold Write in Hw. destruct (_ || _); by injection Hw as <- <-. }
  pose proof (write_all_holds memcpy_refused ds [] (new_pcm capacity) (new_pcm_holds capacity Hc) Hds) as Hw.
  destruct (write_all memcpy_refused ds (new_pcm capacity)) as [rs b]. destruct Hw as [_ Hh].
  cbn in Hh, Hcap. split; [done|].
  pose proof (Write_holds memcpy_refused (accepted ds rs) d b Hh Hd) as Hw.
  destruct (Write memcpy_refused (Some d) _ b) as [r b']. destruct Hw as (-> & _). cbn. by rewrite Hcap.
Qed.

Lemma PcmBuffer_appends_witness :
  let '(rs, b) := write_all (λ l _, l) [[1; 2]; [3; 4; 5]; [6]] (new_pcm 4) in
  rs = [true; false; true] ∧ mBuffer b = [1; 2; 6; 0] ∧ holds (accepted [[1; 2]; [3; 4; 5]; [6]] rs) b.
Proof.
  destruct (PcmBuffer_appends (λ l _, l) 4 [[1; 2]; [3; 4; 5]; [6]] [7]) as [H _];
    [lia|repeat constructor; cbn; lia|cbn; lia|].
  split; [reflexivity|]. split; [reflexivity|exact H].
Defined.

(** For a positive channel count and a buffer of [size] samples,
    [DeinterleaveAudioData] never reads outside the buffer and returns, for each
    channel, the samples [channelCnt] apart, as bytes. *)
Theorem DeinterleaveAudioData_spec buffer size channelCnt :
  0 < channelCnt < 2 ^ 31 → size < 2 ^ 32 → Z.of_nat (length buffer) = size →
  ∃ chans, DeinterleaveAudioData buffer size channelCnt =
             Some (true, (λ c, c ≫= sample_bytes) <$> chans) ∧
    length chans = Z.to_nat channelCnt ∧
    ∀ i, (i < Z.to_nat channelCnt)%nat → ∃ c, chans !! i = Some c ∧
      length c = Z.to_nat (size / channelCnt) ∧
      ∀ j, (j < Z.to_nat (size / channelCnt))%nat → c !! j = buffer !! (i + j * Z.to_nat channelCnt)%nat.
Proof.
  intros Hc Hs Hl. assert (u32 size = size) as Hus by (apply Z.mod_small; lia).
  assert (u32 channelCnt = channelCnt) as Huc by (apply Z.mod_small; lia).
  assert (∀ i j, (i < Z.to_nat channelCnt)%nat → (j < Z.to_nat (size / channelCnt))%nat →
            sample_at buffer channelCnt i j = buffer !! (i + j * Z.to_nat channelCnt)%nat ∧
            is_Some (buffer !! (i + j * Z.to_nat channelCnt)%nat)) as Hat.
  { intros i j Hi Hj. assert (Z.of_nat j + 1 ≤ size / channelCnt) as Hj' by lia.
    assert ((Z.of_nat j + 1) * channelCnt ≤ size) as Hb.
    { transitivity (size / channelCnt * channelCnt); [nia|]. pose proof (Z.mul_div_le size channelCnt). lia. }
    assert (Z.of_nat i + Z.of_nat j * channelCnt < size) as Hidx by lia.
    unfold sample_at. rewrite Huc. unfold u32. rewrite (Z.mod_small (Z.of_nat j * channelCnt)) by nia.
    rewrite Z.mod_small by nia.
    replace (Z.to_nat (Z.of_nat i + Z.of_nat j * channelCnt)) with (i + j * Z.to_nat channelCnt)%nat by nia.
    split; [done|]. apply lookup_lt_is_Some_2. nia. }
  assert (∀ i, (i < Z.to_nat channelCnt)%nat → ∃ c, channel buffer size channelCnt i = Some c ∧
      length c = Z.to_nat (size / channelCnt) ∧
      ∀ j, (j < Z.to_nat (size / channelCnt))%nat → c !! j = buffer !! (i + j * Z.to_nat channelCnt)%nat)
    as Hch.
  { intros i Hi. unfold channel, channelLen. rewrite Hus, Huc.
    destruct (mapM_seq_Some (sample_at buffer channelCnt i) (Z.to_nat (size / channelCnt))) as (c & H1 & H2 & H3).
    - intros j Hj. destruct (Hat i j Hi Hj) as [-> ?]. done.
    - exists c. split; [done|]. split; [done|]. intros j Hj. rewrite H3 by done. by apply Hat. }
  destruct (mapM_seq_Some (channel buffer size channelCnt) (Z.to_nat channelCnt)) as (chans & H1 & H2 & H3).
  { intros i Hi. destruct (Hch i Hi) as (c & -> & _). done. }
  exists chans. unfold DeinterleaveAudioData. rewrite (proj2 (Z.eqb_neq _ _)) by lia. rewrite H1.
  split; [done|]. split; [done|]. intros i Hi. destruct (Hch i Hi) as (c & Hc1 & Hc2). exists c.
  split; [by rewrite H3|done].
Qed.

Lemma DeinterleaveAudioData_spec_witness :
  ∃ chans, DeinterleaveAudioData [1; 10; 2; 20; 3; 30; 4] 7 2 = Some (true, (λ c, c ≫= sample_bytes) <$> chans) ∧
           length chans = 2%nat.
Proof.
  destruct (DeinterleaveAudioData_spec [1; 10; 2; 20; 3; 30; 4] 7 2) as (chans & H1 & H2 & _);
    [lia|lia|reflexivity|]. exists chans. split; [exact H1|exact H2].
Defined.
