(* ===== verification/Settings.v ===== *)
(** * Settings and reports

    [utils/service_db_helper.cpp] and [utils/history_info_mgr.cpp] (settings in a
    key-value store), [IntellVoiceUtil::SplitStringToKVPair] of
    [utils/intell_voice_util.cpp], the version check of
    [services/intell_voice_engine/server/update/update_engine_utils.cpp], and
    [utils/wakeup_track.cpp].  The key-value store is outside the repository: it
    is the class [KvStore]. *)

From S2P Require Import Prelude StringUtil.
From Stdlib Require Import Ascii.

(** ** [ServiceDbHelper] and [HistoryInfoMgr] *)

Class KvStore (D : Type) := {
  (** [Put], with whether it succeeded, [Get] (empty when it fails), [Delete]. *)
  kv_Put : string → str → St D bool;
  kv_Get : string → D → str;
  kv_Delete : string → St D unit }.

Section history.
Context {D : Type} `{!KvStore D}.

(** The store is [None] when it could not be opened. *)
Definition SetValue (key : string) (value : str) : St (option D) unit := λ db,
  match db with None => ((), db) | Some d => ((), Some (kv_Put key value d).2) end.
Definition GetValue (key : string) (db : option D) : str :=
  match db with None => [] | Some d => kv_Get key d end.
Definition Delete (key : string) : St (option D) unit := λ db,
  match db with None => ((), db) | Some d => ((), Some (kv_Delete key d).2) end.

Definition SetIntKVPair (key : string) (value : Z) : St (option D) unit := SetValue key (Int2String value).
Definition GetIntKVPair (key : string) (db : option D) : Z := i32 (strtol (c_str (GetValue key db))).1.
Definition SetStringKVPair (key : string) (value : str) : St (option D) unit := SetValue key value.
Definition GetStringKVPair (key : string) (db : option D) : str := GetValue key db.
Fixpoint DeleteKey (keyList : list string) : St (option D) unit :=
  match keyList with [] => mret () | k :: l => _ ← Delete k; DeleteKey l end.
End history.

(** What is relied on of the store. *)
Class KvLaws (D : Type) `{!KvStore D} := {
  kv_put_law k v d :
    (kv_Put k v d).1 = true →
    kv_Get k (kv_Put k v d).2 = v ∧ ∀ k', k' ≠ k → kv_Get k' (kv_Put k v d).2 = kv_Get k' d;
  kv_delete_law k d :
    kv_Get k (kv_Delete k d).2 = [] ∧ ∀ k', k' ≠ k → kv_Get k' (kv_Delete k d).2 = kv_Get k' d }.

#[global] Instance ref_kv : KvStore (gmap string str) := {|
  kv_Put k v := λ d, (true, <[k := v]> d);
  kv_Get k d := default [] (d !! k);
  kv_Delete k := λ d, ((), delete k d) |}.
#[global] Instance ref_kv_laws : KvLaws (gmap string str).
Proof.
  constructor.
  - intros k v d _. cbn. split; [by rewrite lookup_insert_eq|]. intros k' Hk. by rewrite lookup_insert_ne.
  - intros k d. cbn. split; [rewrite lookup_delete; by case_decide|]. intros k' Hk. by rewrite lookup_delete_ne.
Qed.

(** ** Key-value strings *)

(** [SplitStringToKVPair]: a later pair replaces an earlier one; [None] when
    [Split] does not end (it does). *)
Definition SplitStringToKVPair (inputStr : str) (kvpairs : gmap str str) : option (gmap str str) :=
  paramsList ← Split inputStr [";"%char];
  Some (foldl (λ m it, match SplitLineToPair it with Some (k, v) => <[k := v]> m | None => m end)
          kvpairs paramsList).

(** ** Wakeup version *)

(** [GetWakeupVesion]: the first line of the version file, [None] when it cannot
    be opened; the result is what is appended to [versionNumber]. *)
Definition pad2 (t : str) : str := if (length t =? 1)%nat then "0"%char :: t else t.
Definition GetWakeupVesion (line : option str) : str :=
  match line with
  | None | Some [] => []
  | Some wakeupVersion =>
    match Split wakeupVersion (lit "v.") with
    | Some [_; version] =>
      match version with
      | [] => []
      | _ => match Split version (lit ".") with
             | Some [a; b; c] => pad2 a ++ pad2 b ++ pad2 c
             | _ => []
             end
      end
    | _ => []
    end
  end.

(** [IsBackupSourceExist]: the result of [EngineHostManager::GetWakeupSourceFilesList]
    and the files it lists. *)
Definition IsBackupSourceExist (ret : Z) (cloneFiles : list str) : bool :=
  if ret =? 0 then existsb (λ file, bool_decide (is_Some (find_sub (lit "enroll_phrase.txt") file))) cloneFiles
  else false.

Definition KEY_WAKEUP_VESRION : string := "WakeupVersion".

Section update.
Context {D : Type} `{!KvStore D}.

Definition SaveWakeupVesion (line : option str) : St (option D) unit :=
  match GetWakeupVesion line with
  | [] => mret ()
  | versionNumber => SetStringKVPair KEY_WAKEUP_VESRION versionNumber
  end.

(** [IsVersionUpdate]: the store, the version file and the backup sources. *)
Definition IsVersionUpdate (db : option D) (line : option str) (ret : Z) (cloneFiles : list str) : bool :=
  match GetStringKVPair KEY_WAKEUP_VESRION db with
  | [] => false
  | versionNumberSave =>
    match GetWakeupVesion line with
    | [] => false
    | versionNumberCur =>
      match StringToInt versionNumberSave, StringToInt versionNumberCur with
      | Some historyVersion, Some curVersion =>
        if negb (IsBackupSourceExist ret cloneFiles) then false else historyVersion <? curVersion
      | _, _ => false
      end
    end
  end.
End update.

(** ** [WakeupTrack] *)

(** A report to the device: the command of the [ioctl] and its three fields. *)
Inductive ReportCmd := START_CHECK_CMD | TRACK_REPORT_CMD | SWITCH_REPORT_CMD.
#[global] Instance ReportCmd_eq : EqDecision ReportCmd.
Proof. solve_decision. Defined.
Definition Info : Type := Z * Z * Z.

(** The static state: whether opening the device has failed, the last switch
    reported, and the reports the device received. *)
Record WakeupTrack := mkTrack { sHasFailed : bool; lastReport : option Info; sent : list (ReportCmd * Info) }.
#[global] Instance WakeupTrack_eta : Eta WakeupTrack := λ t, mkTrack (sHasFailed t) (lastReport t) (sent t).
Definition init_track : WakeupTrack := mkTrack false None [].

(** [reportWakeupStart], [reportWakeupTrack] and [reportWakeupStatus]; [opened]
    tells whether the device could be opened, [ret] is the result of [ioctl]. *)
Definition reportWakeupStart (opened : bool) (ret : Z) (info : Info) (t : WakeupTrack) : bool * WakeupTrack :=
  if sHasFailed t then (false, t) else
  if negb opened then (false, t <| sHasFailed := true |>) else
  let t1 := t <| sent ::= λ l, l ++ [(START_CHECK_CMD, info)] |> in
  if ret <? 0 then (false, t1) else (true, t1).
Definition reportWakeupTrack (opened : bool) (ret : Z) (info : Info) (t : WakeupTrack) : bool * WakeupTrack :=
  if sHasFailed t then (false, t) else
  if negb opened then (false, t <| sHasFailed := true |>) else
  let t1 := t <| sent ::= λ l, l ++ [(TRACK_REPORT_CMD, info)] |> in
  if ret <? 0 then (false, t1) else (true, t1).
Definition reportWakeupStatus (opened : bool) (ret : Z) (info : Info) (t : WakeupTrack) : bool * WakeupTrack :=
  if sHasFailed t then (false, t) else
  if bool_decide (lastReport t = Some info) then (true, t) else
  if negb opened then (false, t <| sHasFailed := true |>) else
  let t1 := t <| sent ::= λ l, l ++ [(SWITCH_REPORT_CMD, info)] |> in
  if ret <? 0 then (false, t1) else (true, t1 <| lastReport := Some info |>).

(** A call of one of the three, and a sequence of calls. *)
Definition report (opened : bool) (ret : Z) (r : ReportCmd * Info) : WakeupTrack → bool * WakeupTrack :=
  match r.1 with
  | START_CHECK_CMD => reportWakeupStart opened ret r.2
  | TRACK_REPORT_CMD => reportWakeupTrack opened ret r.2
  | SWITCH_REPORT_CMD => reportWakeupStatus opened ret r.2
  end.
Definition reports (opened : bool) (ret : Z) (rs : list (ReportCmd * Info)) (t : WakeupTrack) : WakeupTrack :=
  foldl (λ t r, (report opened ret r t).2) t rs.

(** The reports without the switches that repeat the last one, [prev] at first. *)
Fixpoint squeeze (prev : option Info) (rs : list (ReportCmd * Info)) : list (ReportCmd * Info) :=
  match rs with
  | [] => []
  | (SWITCH_REPORT_CMD, x) as r :: rs =>
    if bool_decide (prev = Some x) then squeeze prev rs else r :: squeeze (Some x) rs
  | r :: rs => r :: squeeze prev rs
  end.

(** * Lemmas *)

(** A string that trimming leaves alone. *)
Definition clean (s : str) : Prop :=
  ∃ c d m, (s = [c] ∨ s = c :: m ++ [d]) ∧ isspace c = false ∧ (s = [c] ∨ isspace d = false).

Lemma Trim_clean s : clean s → Trim s = s ∧ s ≠ [].
Proof.
  intros (c & d & m & Hs & Hc & Hd). unfold Trim, TrimR, TrimL. destruct Hs as [->| ->].
  - cbn. rewrite Hc. cbn. by rewrite Hc.
  - destruct Hd as [Hd|Hd]; [by destruct m|]. cbn [skip_spaces]. rewrite Hc.
    assert (reverse (c :: m ++ [d]) = d :: (reverse m ++ [c])) as Hr
      by (by rewrite reverse_cons, reverse_snoc).
    rewrite Hr. cbn [skip_spaces]. rewrite Hd, <- Hr. by rewrite reverse_involutive.
Qed.

Lemma find_sub_char c p s : c ∉ p → find_sub [c] (p ++ c :: s) = Some (length p).
Proof.
  induction p as [|x p IH]; intros Hc; cbn [app find_sub starts_with].
  - by rewrite bool_decide_true.
  - apply not_elem_of_cons in Hc as [Hx Hp]. rewrite bool_decide_false by done. cbn [andb].
    by rewrite (IH Hp).
Qed.

Lemma SplitLineToPair_clean k v :
  clean k → clean v → "="%char ∉ k → SplitLineToPair (k ++ "="%char :: v) = Some (k, v).
Proof.
  intros Hk Hv Hnot. destruct (Trim_clean k Hk) as [Tk Nk], (Trim_clean v Hv) as [Tv Nv].
  unfold SplitLineToPair. rewrite find_sub_char by done.
  destruct (k ++ "="%char :: v) as [|z l] eqn:Hline; [by destruct k|]. rewrite <- Hline.
  assert (0 < length v)%nat by (destruct v; cbn; [done|lia]).
  rewrite length_app. cbn [length]. rewrite (proj2 (Nat.eqb_neq _ _)) by lia.
  rewrite take_app_length.
  assert (drop (S (length k)) (k ++ "="%char :: v) = v) as ->.
  { rewrite drop_app_ge by lia. by replace (S (length k) - length k)%nat with 1%nat by lia. }
  rewrite Tk, Tv. by destruct k, v.
Qed.

(** Pairs that survive being written as [key=value;key=value]. *)
Definition clean_pair (kv : str * str) : Prop :=
  clean kv.1 ∧ clean kv.2 ∧ ("="%char ∉ kv.1) ∧ (";"%char ∉ kv.1) ∧ (";"%char ∉ kv.2).
Definition show_pair (kv : str * str) : str := kv.1 ++ "="%char :: kv.2.

Lemma Split_pairs kvs : Forall clean_pair kvs → Split (join ";"%char (show_pair <$> kvs)) [";"%char] = Some (show_pair <$> kvs).
Proof.
  intros H. apply Split_join, Forall_fmap. eapply Forall_impl; [exact H|].
  intros [k v] (Hk & Hv & H1 & H2 & H3). cbn in *. unfold show_pair, compose. cbn [fst snd]. split; [|by destruct k].
  rewrite elem_of_app, elem_of_cons. intros [?|[?|?]]; done.
Qed.

(** ** Versions *)

Definition show_version (a b c : Z) : str :=
  print_nat 20 a ++ "."%char :: print_nat 20 b ++ "."%char :: print_nat 20 c.
Definition show_padded (a b c : Z) : str :=
  pad2 (print_nat 20 a) ++ pad2 (print_nat 20 b) ++ pad2 (print_nat 20 c).

Lemma print_small n : 0 ≤ n < 10 → print_nat 20 n = [digit n].
Proof.
  intros Hn. change (print_nat 20 n) with
    (if n <? 10 then [digit n] else print_nat 19 (n / 10) ++ [digit (n mod 10)]).
  by rewrite (proj2 (Z.ltb_lt _ _)) by lia.
Qed.
Lemma print_two n : 10 ≤ n < 100 → print_nat 20 n = [digit (n / 10); digit (n mod 10)].
Proof.
  intros Hn. change (print_nat 20 n) with
    (if n <? 10 then [digit n] else print_nat 19 (n / 10) ++ [digit (n mod 10)]).
  rewrite (proj2 (Z.ltb_ge _ _)) by lia.
  change (print_nat 19 (n / 10)) with
    (if n / 10 <? 10 then [digit (n / 10)] else print_nat 18 (n / 10 / 10) ++ [digit (n / 10 mod 10)]).
  assert (n / 10 < 10) by (apply Z.div_lt_upper_bound; lia).
  by rewrite (proj2 (Z.ltb_lt _ _)) by lia.
Qed.

Lemma scan_pad2 n acc seen rest :
  0 ≤ n < 100 → scan_digits acc seen (pad2 (print_nat 20 n) ++ rest) = scan_digits (acc * 100 + n) true rest.
Proof.
  intros Hn. destruct (decide (n < 10)).
  - rewrite print_small by lia. cbn [pad2 length Nat.eqb app scan_digits].
    change (digit_of "0") with (Some 0). cbn [scan_digits]. rewrite digit_of_digit by lia.
    f_equal. lia.
  - rewrite print_two by lia. cbn [pad2 length Nat.eqb app scan_digits].
    pose proof (Z.mod_pos_bound n 10). pose proof (Z.div_mod n 10).
    assert (0 ≤ n / 10) by (apply Z.div_pos; lia). assert (n / 10 < 10) by (apply Z.div_lt_upper_bound; lia).
    rewrite !digit_of_digit by lia. f_equal. lia.
Qed.

Lemma pad2_digits n : 0 ≤ n < 100 → Forall (λ c, (48 ≤ nat_of_ascii c ≤ 57)%nat) (pad2 (print_nat 20 n)).
Proof.
  intros Hn. pose proof (print_nat_digits 20 n ltac:(lia)) as Hd. unfold pad2.
  destruct (_ =? _)%nat; [|done]. constructor; [vm_compute; lia|done].
Qed.

Lemma StringToInt_padded a b c :
  0 ≤ a < 100 → 0 ≤ b < 100 → 0 ≤ c < 100 →
  show_padded a b c ≠ [] ∧ StringToInt (show_padded a b c) = Some (a * 10000 + b * 100 + c).
Proof.
  intros Ha Hb Hc.
  assert (Forall (λ c, (48 ≤ nat_of_ascii c ≤ 57)%nat) (show_padded a b c)) as Hd.
  { unfold show_padded. rewrite !Forall_app. split_and!; by apply pad2_digits. }
  assert (scan_digits 0 false (show_padded a b c) = (a * 10000 + b * 100 + c, true, [])) as Hs.
  { unfold show_padded. rewrite scan_pad2, scan_pad2 by done.
    rewrite <- (app_nil_r (pad2 (print_nat 20 c))), scan_pad2 by done. cbn. f_equal. f_equal. lia. }
  assert (c_str (show_padded a b c) = show_padded a b c) as Hcs.
  { apply c_str_id. eapply Forall_impl; [exact Hd|]. intros y Hy. cbn in Hy. lia. }
  unfold StringToInt, strtol. rewrite Hcs. unfold scan_int.
  destruct (show_padded a b c) as [|x l] eqn:Hl; [done|]. split; [done|].
  apply Forall_cons in Hd as [Hx _]. cbn [skip_spaces]. rewrite not_space by auto. unfold scan_sign.
  rewrite !bool_decide_false by (intros ->; vm_compute in Hx; lia). rewrite Hs.
  unfold clamp_long, LONG_MAX, LONG_MIN. rewrite Z.min_r, Z.max_r by lia.
  rewrite (proj2 (Z.eqb_neq _ _)), (proj2 (Z.eqb_neq _ _)) by lia. cbn [orb]. f_equal. unfold i32.
  rewrite Z.mod_small by lia. lia.
Qed.

(** The separator "v." in front of a version. *)
Lemma find_v p s : "v"%char ∉ p → find_sub (lit "v.") (p ++ lit "v." ++ s) = Some (length p).
Proof.
  induction p as [|x p IH]; intros Hc; [done|]. apply not_elem_of_cons in Hc as [Hx Hp].
  change ((x :: p) ++ lit "v." ++ s) with (x :: (p ++ lit "v." ++ s)). cbn [find_sub].
  change (starts_with (lit "v.") (x :: p ++ lit "v." ++ s)) with
    (bool_decide ("v"%char = x) && starts_with (lit ".") (p ++ lit "v." ++ s)).
  rewrite bool_decide_false by done. cbn [andb]. by rewrite (IH Hp).
Qed.
Lemma find_v_none s : "v"%char ∉ s → find_sub (lit "v.") s = None.
Proof.
  induction s as [|x s IH]; intros Hc; [done|]. apply not_elem_of_cons in Hc as [Hx Hs]. cbn [find_sub].
  change (starts_with (lit "v.") (x :: s)) with (bool_decide ("v"%char = x) && starts_with (lit ".") s).
  rewrite bool_decide_false by done. cbn [andb]. by rewrite (IH Hs).
Qed.

Lemma Split_v p s :
  "v"%char ∉ p → "v"%char ∉ s → p ≠ [] → s ≠ [] → Split (p ++ lit "v." ++ s) (lit "v.") = Some [p; s].
Proof.
  intros Hp Hs Hnp Hns. unfold Split.
  assert (0 < length p)%nat by (destruct p; cbn; [done|lia]).
  assert (0 < length s)%nat by (destruct s; cbn; [done|lia]).
  rewrite !length_app. change (length (lit "v.")) with 2%nat.
  replace (S (length p + (2 + length s)))%nat with (S (S (length p + S (length s))))%nat by lia.
  cbn [Split_loop]. unfold find_from at 1. rewrite decide_True by lia. rewrite drop_0, find_v by done.
  cbn [fmap option_fmap option_map]. rewrite Nat.add_0_l, Nat.sub_0_r.
  rewrite (proj2 (Nat.ltb_lt _ _)) by lia. rewrite take_app_length.
  change (length (lit "v.")) with 2%nat. cbn [app].
  assert (drop (length p + 2) (p ++ lit "v." ++ s) = s) as Hdrop.
  { rewrite drop_app_ge by lia. by replace (length p + 2 - length p)%nat with 2%nat by lia. }
  unfold find_from. rewrite Hdrop. rewrite decide_True by (rewrite !length_app; cbn; lia).
  rewrite find_v_none by done. cbn [fmap option_fmap option_map].
  rewrite (proj2 (Nat.ltb_lt _ _)); [done|]. rewrite !length_app. change (length (lit "v.")) with 2%nat. lia.
Qed.

Lemma digits_free c n : nat_of_ascii c ∉ seq 48 10 → 0 ≤ n → c ∉ print_nat 20 n.
Proof.
  intros Hc Hn Hin. pose proof (print_nat_digits 20 n Hn) as Hd. rewrite Forall_forall in Hd.
  apply Hc, elem_of_seq. specialize (Hd c Hin). cbn in Hd. lia.
Qed.

Lemma letter_v : nat_of_ascii "v"%char ∉ seq 48 10.
Proof. change (nat_of_ascii "v"%char) with 118%nat. rewrite elem_of_seq. lia. Qed.
Lemma letter_dot : nat_of_ascii "."%char ∉ seq 48 10.
Proof. change (nat_of_ascii "."%char) with 46%nat. rewrite elem_of_seq. lia. Qed.

Lemma GetWakeupVesion_shown p a b c :
  "v"%char ∉ p → p ≠ [] → 0 ≤ a → 0 ≤ b → 0 ≤ c →
  GetWakeupVesion (Some (p ++ lit "v." ++ show_version a b c)) = show_padded a b c.
Proof.
  intros Hv Hp Ha Hb Hc.
  assert (∀ x n, nat_of_ascii x ∉ seq 48 10 → 0 ≤ n → x ∉ print_nat 20 n) as Hfree by apply digits_free.
  destruct (print_nat_head 20 a Ha ltac:(lia)) as (xa & la & Ea & _).
  destruct (print_nat_head 20 b Hb ltac:(lia)) as (xb & lb & Eb & _).
  destruct (print_nat_head 20 c Hc ltac:(lia)) as (xc & lc & Ec & _).
  assert (show_version a b c ≠ []) as Hne by (unfold show_version; by rewrite Ea).
  assert ("v"%char ∉ show_version a b c) as Hvs.
  { unfold show_version. rewrite elem_of_app, elem_of_cons, elem_of_app, elem_of_cons.
    pose proof letter_v as Hx.
    pose proof (Hfree _ a Hx Ha). pose proof (Hfree _ b Hx Hb). pose proof (Hfree _ c Hx Hc).
    intros [?|[?|[?|[?|?]]]]; done. }
  unfold GetWakeupVesion. rewrite Split_v by done.
  destruct (p ++ lit "v." ++ show_version a b c) as [|z l] eqn:Hz; [by destruct p|].
  assert (Split (show_version a b c) (lit ".") = Some [print_nat 20 a; print_nat 20 b; print_nat 20 c]) as Hs.
  { change (lit ".") with ["."%char]. unfold Split. rewrite Split_loop_single by lia. rewrite drop_0. cbn [app]. f_equal.
    pose proof letter_dot as Hx.
    unfold show_version. rewrite split_on_app by (by apply Hfree). rewrite split_on_app by (by apply Hfree).
    rewrite split_on_plain by (by apply Hfree). rewrite Ea, Eb, Ec. done. }
  destruct (show_version a b c) as [|y m] eqn:Hy; [done|]. by rewrite Hs.
Qed.

(** ** Reports *)

Lemma reports_ok rs t :
  sHasFailed t = false →
  let t' := reports true 0 rs t in
  sent t' = sent t ++ squeeze (lastReport t) rs ∧ sHasFailed t' = false.
Proof.
  revert t. unfold reports. induction rs as [|[c x] rs IH]; intros t Ht; cbn [foldl].
  { cbn. by rewrite app_nil_r. }
  assert (∀ t1 l, sHasFailed t1 = false → sent t1 = sent t ++ [(c, x)] → squeeze (lastReport t1) rs = l →
    sent (foldl (λ t r, (report true 0 r t).2) t1 rs) = sent t ++ (c, x) :: l ∧
    sHasFailed (foldl (λ t r, (report true 0 r t).2) t1 rs) = false) as Hstep.
  { intros t1 l H1 H2 <-. destruct (IH t1 H1) as [E1 E2]. split; [|done]. by rewrite E1, H2, <- app_assoc. }
  destruct c; cbn [squeeze];
    unfold report at 2 4, reportWakeupStart, reportWakeupTrack, reportWakeupStatus; cbn [fst snd]; rewrite Ht.
  - by apply Hstep.
  - by apply Hstep.
  - case_bool_decide as Hl; cbn [snd]; [by apply IH|by apply Hstep].
Qed.

Lemma reports_failed opened ret rs t : sHasFailed t = true → reports opened ret rs t = t.
Proof.
  revert t. unfold reports. induction rs as [|[c x] rs IH]; intros t Ht; cbn [foldl]; [done|].
  assert ((report opened ret (c, x) t).2 = t) as ->; [|by apply IH].
  destruct c; unfold report, reportWakeupStart, reportWakeupTrack, reportWakeupStatus; cbn [fst snd];
    by rewrite Ht.
Qed.

(** ** Settings *)

Lemma GetInt_printed z : - 2 ^ 31 ≤ z < 2 ^ 31 → i32 (strtol (c_str (Int2String z))).1 = z.
Proof.
  intros Hz. unfold Int2String, strtol. rewrite c_str_print_int, scan_print_int by lia. cbn [fst].
  unfold clamp_long, LONG_MAX, LONG_MIN. rewrite Z.min_r, Z.max_r by lia.
  unfold i32. rewrite Z.mod_small by lia. lia.
Qed.

Lemma Delete_all {D} `{!KvStore D, !KvLaws D} ks (d : D) :
  ∃ d', (DeleteKey ks (Some d)).2 = Some d' ∧
  (∀ k, k ∈ ks → kv_Get k d' = []) ∧ (∀ k, k ∉ ks → kv_Get k d' = kv_Get k d).
Proof.
  revert d. induction ks as [|k ks IH]; intros d.
  { exists d. split; [done|]. split; [by intros k ?%elem_of_nil|done]. }
  destruct (IH (kv_Delete k d).2) as (d' & Hrun & Hin & Hout).
  destruct (kv_delete_law k d) as [Hk Hother].
  exists d'. split; [exact Hrun|]. split.
  - intros k' Hk'. destruct (decide (k' ∈ ks)) as [Hi|Hi]; [by apply Hin|].
    apply elem_of_cons in Hk' as [->|?]; [|done]. by rewrite Hout.
  - intros k' [Hne Hni]%not_elem_of_cons. by rewrite Hout, Hother.
Qed.

(** * Properties *)

(** An integer or a string saved in the history store (when the store
    accepts it) is read back unchanged and the other settings stay; deleting a list
    of keys resets those and no others. *)
Theorem settings_round_trip {D} `{!KvStore D, !KvLaws D} (d : D) (k : string) (z : Z) (s : str) (ks : list string) :
  - 2 ^ 31 ≤ z < 2 ^ 31 → (kv_Put k (Int2String z) d).1 = true → (kv_Put k s d).1 = true →
  (GetIntKVPair k (SetIntKVPair k z (Some d)).2 = z ∧
   ∀ k', k' ≠ k → GetStringKVPair k' (SetIntKVPair k z (Some d)).2 = GetStringKVPair k' (Some d)) ∧
  (GetStringKVPair k (SetStringKVPair k s (Some d)).2 = s ∧
   ∀ k', k' ≠ k → GetStringKVPair k' (SetStringKVPair k s (Some d)).2 = GetStringKVPair k' (Some d)) ∧
  (∀ k', k' ∈ ks → GetStringKVPair k' (DeleteKey ks (Some d)).2 = [] ∧ GetIntKVPair k' (DeleteKey ks (Some d)).2 = 0) ∧
  (∀ k', k' ∉ ks → GetStringKVPair k' (DeleteKey ks (Some d)).2 = GetStringKVPair k' (Some d)).
Proof.
  intros Hz H1 H2. destruct (kv_put_law _ _ _ H1) as [I1 I2], (kv_put_law _ _ _ H2) as [S1 S2].
  unfold GetStringKVPair, GetIntKVPair, SetIntKVPair, SetStringKVPair, SetValue, GetValue. cbn [fst snd].
  split_and!; [by rewrite I1, GetInt_printed|done|done|done| |].
  - intros k' Hk. destruct (Delete_all ks d) as (d' & -> & Hin & _). by rewrite (Hin k' Hk).
  - intros k' Hk. destruct (Delete_all ks d) as (d' & -> & _ & Hout). by rewrite (Hout k' Hk).
Qed.

Lemma settings_round_trip_witness :
  GetIntKVPair "b" (SetIntKVPair "b" (-7) (Some (<["a" := lit "1"]> ∅ : gmap string str))).2 = -7.
Proof.
  exact (proj1 (proj1 (settings_round_trip (<["a" := lit "1"]> ∅ : gmap string str) "b" (-7) [] []
    ltac:(lia) eq_refl eq_refl))).
Defined.

(** [SplitStringToKVPair] reads back a list of pairs written as
    [key=value;key=value] (keys and values without separators and not starting or
    ending in white space): a later pair wins over an earlier one, and keys that are
    not in the string keep their value. *)
Theorem SplitStringToKVPair_inverts_print kvs m :
  Forall clean_pair kvs →
  SplitStringToKVPair (join ";"%char (show_pair <$> kvs)) m = Some (foldl (λ m kv, <[kv.1 := kv.2]> m) m kvs).
Proof.
  intros H. unfold SplitStringToKVPair. rewrite Split_pairs by done. cbn [mbind option_bind].
  f_equal. revert m. induction H as [|[k v] kvs (Hk & Hv & Hne & _) H IH]; intros m; [done|].
  cbn [fmap list_fmap foldl]. change (show_pair (k, v)) with (k ++ "="%char :: v). cbn [fst snd] in *.
  rewrite SplitLineToPair_clean by done. apply IH.
Qed.

Lemma SplitStringToKVPair_inverts_print_witness :
  SplitStringToKVPair (lit "path=/a/b;sensibility=1;path=/c") ∅ =
    Some (<[lit "path" := lit "/c"]> (<[lit "sensibility" := lit "1"]> (<[lit "path" := lit "/a/b"]> ∅))).
Proof.
  refine (SplitStringToKVPair_inverts_print
    [(lit "path", lit "/a/b"); (lit "sensibility", lit "1"); (lit "path", lit "/c")] ∅ _).
  apply Forall_cons; split; [|apply Forall_cons; split; [|apply Forall_cons; split; [|apply Forall_nil; exact I]]].
  - split_and!; try (apply (bool_decide_unpack _); exact I);
      [exists "p"%char, "h"%char, (lit "at")|exists "/"%char, "b"%char, (lit "a/")]; auto.
  - split_and!; try (apply (bool_decide_unpack _); exact I);
      [exists "s"%char, "y"%char, (lit "ensibilit")|exists "1"%char, "1"%char, []]; auto.
  - split_and!; try (apply (bool_decide_unpack _); exact I);
      [exists "p"%char, "h"%char, (lit "at")|exists "/"%char, "c"%char, []]; auto.
Defined.

(** After [SaveWakeupVesion] of version a.b.c, [IsVersionUpdate] with
    version a'.b'.c' in the version file and the backup sources present tells
    whether a'.b'.c' comes after a.b.c, for components below 100. *)
Theorem IsVersionUpdate_spec {D} `{!KvStore D, !KvLaws D} (d : D) p p' a b c a' b' c' files :
  "v"%char ∉ p → p ≠ [] → "v"%char ∉ p' → p' ≠ [] →
  Forall (λ n, 0 ≤ n < 100) [a; b; c; a'; b'; c'] →
  (kv_Put KEY_WAKEUP_VESRION (show_padded a b c) d).1 = true → IsBackupSourceExist 0 files = true →
  IsVersionUpdate (SaveWakeupVesion (Some (p ++ lit "v." ++ show_version a b c)) (Some d)).2
    (Some (p' ++ lit "v." ++ show_version a' b' c')) 0 files = true ↔
  a < a' ∨ (a = a' ∧ (b < b' ∨ (b = b' ∧ c < c'))).
Proof.
  intros Hp Hp0 Hp' Hp0' Hall Hput Hfiles. rewrite !Forall_cons in Hall.
  destruct Hall as (Ha & Hb & Hc & Ha' & Hb' & Hc' & _).
  unfold IsVersionUpdate, SaveWakeupVesion. rewrite !GetWakeupVesion_shown by (done || lia).
  destruct (StringToInt_padded a b c) as [H1 E1]; [done..|].
  destruct (StringToInt_padded a' b' c') as [H2 E2]; [done..|].
  destruct (show_padded a b c) as [|x s] eqn:Hs; [done|].
  unfold SetStringKVPair, SetValue, GetStringKVPair, GetValue. cbn [snd].
  rewrite (proj1 (kv_put_law _ _ _ Hput)).
  destruct (show_padded a' b' c') as [|x' s'] eqn:Hs'; [done|].
  rewrite E1, E2, Hfiles. cbn [negb]. rewrite Z.ltb_lt. lia.
Qed.

Lemma IsVersionUpdate_spec_witness :
  IsVersionUpdate (SaveWakeupVesion (Some (lit "dsp v.5.2.1")) (Some (∅ : gmap string str))).2
    (Some (lit "dsp v.5.10.0")) 0 [lit "/a/enroll_phrase.txt"] = true.
Proof.
  apply (IsVersionUpdate_spec (∅ : gmap string str) (lit "dsp ") (lit "dsp ") 5 2 1 5 10 0
    [lit "/a/enroll_phrase.txt"]); try discriminate; apply (bool_decide_unpack _); exact I.
Defined.

(** With a component of three digits the comparison fails: version
    5.3.0 after 5.2.100 is not seen as an update, and 5.2.100 after 5.3.0 is. *)
Theorem IsVersionUpdate_three_digits :
  let seen old new :=
    IsVersionUpdate (SaveWakeupVesion (Some (lit "dsp v." ++ lit old)) (Some (∅ : gmap string str))).2
      (Some (lit "dsp v." ++ lit new)) 0 [lit "enroll_phrase.txt"] in
  seen "5.2.100" "5.3.0" = false ∧ seen "5.3.0" "5.2.100" = true ∧ seen "5.2.99" "5.3.0" = true.
Proof. vm_compute. auto. Qed.

(** As long as the device can be opened, it receives every report in
    order, less the switch reports that repeat the last one; the first report that
    finds it closed ends reporting for good. *)
Theorem reports_spec rs r rs' opened ret :
  lastReport (reports true 0 rs init_track) ≠ Some r.2 →
  sent (reports true 0 rs init_track) = squeeze None rs ∧
  let t := (report false ret r (reports true 0 rs init_track)).2 in
  (report false ret r (reports true 0 rs init_track)).1 = false ∧
  reports opened ret rs' t = t ∧ sent t = squeeze None rs.
Proof.
  intros Hr. destruct (reports_ok rs init_track eq_refl) as [Hs Hf]. cbn in Hs. cbv zeta. split; [done|].
  set (t0 := reports true 0 rs init_track) in *. destruct r as [cmd x].
  assert (report false ret (cmd, x) t0 = (false, t0 <| sHasFailed := true |>)) as E.
  { destruct cmd; unfold report, reportWakeupStart, reportWakeupTrack, reportWakeupStatus; cbn [fst snd];
      rewrite Hf; [done..|]. by rewrite bool_decide_false. }
  rewrite E. cbn [fst snd]. split_and!; [done|by apply reports_failed|done].
Qed.

Lemma reports_spec_witness :
  let rs := [(SWITCH_REPORT_CMD, (1, 1, 0)); (SWITCH_REPORT_CMD, (1, 1, 0)); (TRACK_REPORT_CMD, (2, 0, 0))] in
  sent (reports true 0 rs init_track) = [(SWITCH_REPORT_CMD, (1, 1, 0)); (TRACK_REPORT_CMD, (2, 0, 0))].
Proof.
  exact (proj1 (reports_spec
    [(SWITCH_REPORT_CMD, (1, 1, 0)); (SWITCH_REPORT_CMD, (1, 1, 0)); (TRACK_REPORT_CMD, (2, 0, 0))]
    (TRACK_REPORT_CMD, (3, 0, 0)) [] true 0 ltac:(vm_compute; discriminate))).
Defined.
