(* ===== verification/TriggerTypes.v ===== *)
(** * Trigger models

    The data of the trigger subsystem: [TriggerModel] and [GenericTriggerModel]
    ([intell_voice_trigger/inc/trigger_base_type.h], [trigger_base_type.cpp]),
    the model types of [intell_voice_definitions.h], and [TriggerModelData], the
    per-uuid record of the trigger helper ([trigger_helper.h],
    [trigger_helper.cpp]).  A byte is a [Z] between 0 and 255; a callback object
    is named by a number. *)

From S2P Require Import Prelude.

(** [enum TriggerModelType] and the model uuids. *)
Definition UNKNOWN_TYPE : Z := -1.
Definition VOICE_WAKEUP_TYPE : Z := 1.
Definition PROXIMAL_WAKEUP_TYPE : Z := 2.
Definition VOICE_WAKEUP_MODEL_UUID : Z := 1.
Definition PROXIMAL_WAKEUP_MODEL_UUID : Z := 2.

(** [enum TriggerModelVersion]. *)
Definition MODLE_VERSION_1 : Z := 1.
Definition MODLE_VERSION_2 : Z := 2.

(** [class TriggerModel] (and [GenericTriggerModel], which adds nothing). *)
Record GenericTriggerModel := mkModel {
  model_uuid : Z; vendorUuid_ : Z; version_ : Z; type_ : Z; data_ : list Z }.

#[global] Instance GenericTriggerModel_eta : Eta GenericTriggerModel :=
  λ m, mkModel (model_uuid m) (vendorUuid_ m) (version_ m) (type_ m) (data_ m).

#[global] Instance GenericTriggerModel_eq_dec : EqDecision GenericTriggerModel.
Proof. solve_decision. Defined.

(** The constructor. *)
Definition new_model (uuid version type : Z) : GenericTriggerModel :=
  mkModel uuid (-1) version type [].

(** [SetData(const uint8_t *data, uint32_t size)]: [data] is the source buffer,
    at least [size] bytes long. *)
Definition SetData_ptr (data : list Z) (size : Z) (m : GenericTriggerModel)
    : bool * GenericTriggerModel :=
  if size =? 0 then (false, m) else (true, m <| data_ := take (Z.to_nat size) data |>).

(** [SetData(std::vector<uint8_t> &data)]: the vectors are swapped; the second
    component is the model, the third what is left in the argument. *)
Definition SetData (data : list Z) (m : GenericTriggerModel)
    : bool * GenericTriggerModel * list Z :=
  if decide (length data = 0%nat) then (false, m, data)
  else (true, m <| data_ := data |>, data_ m).

(** [enum ModelState] of [trigger_helper.h]. *)
Inductive ModelState := MODEL_NOTLOADED | MODEL_LOADED | MODEL_STARTED.

#[global] Instance ModelState_eq_dec : EqDecision ModelState.
Proof. solve_decision. Defined.

(** [class TriggerModelData]. *)
Record TriggerModelData := mkModelData {
  uuid_ : Z; state_ : ModelState; model_ : option GenericTriggerModel;
  callback_ : option nat; modelHandle_ : Z; requested_ : bool }.

#[global] Instance TriggerModelData_eta : Eta TriggerModelData :=
  λ d, mkModelData (uuid_ d) (state_ d) (model_ d) (callback_ d) (modelHandle_ d) (requested_ d).

(** The constructor with the member initialisers. *)
Definition new_model_data (uuid : Z) : TriggerModelData :=
  mkModelData uuid MODEL_NOTLOADED None None 0 false.

(** [SetCallback]: a null callback is refused. *)
Definition SetCallback (cb : option nat) (d : TriggerModelData) : TriggerModelData :=
  match cb with None => d | Some _ => d <| callback_ := cb |> end.

(** [SameModel]: same bytes; a null model is never the same. *)
Definition SameModel (model : option GenericTriggerModel) (d : TriggerModelData) : bool :=
  match model, model_ d with
  | Some x, Some y => bool_decide (data_ y = data_ x)
  | _, _ => false
  end.

(** [SetModel]. *)
Definition SetModel (model : option GenericTriggerModel) (d : TriggerModelData)
    : TriggerModelData :=
  if SameModel model d then d else d <| model_ := model |>.

(** [Clear] and [ClearCallback]. *)
Definition ClearData (d : TriggerModelData) : TriggerModelData :=
  d <| callback_ := None |> <| state_ := MODEL_NOTLOADED |>.
Definition ClearCallback (d : TriggerModelData) : TriggerModelData :=
  d <| callback_ := None |>.

(** A model the connector accepts: see [ValidateGenericModel]. *)
Definition ValidateGenericModel (model : option GenericTriggerModel) : bool :=
  match model with
  | None => false
  | Some m => ((type_ m =? VOICE_WAKEUP_TYPE) || (type_ m =? PROXIMAL_WAKEUP_TYPE)) &&
              negb (bool_decide (length (data_ m) = 0%nat))
  end.

(** ** Lemmas *)

Lemma SetModel_SameModel model d :
  is_Some model → SameModel model (SetModel model d) = true.
Proof.
  intros [x ->]. unfold SetModel. destruct (SameModel (Some x) d) eqn:H; [done|].
  simpl. by rewrite bool_decide_true.
Qed.

Lemma SetData_nonempty data m :
  data ≠ [] → (SetData data m).1.1 = true ∧ data_ (SetData data m).1.2 = data ∧
              (SetData data m).2 = data_ m.
Proof. intros Hd. unfold SetData. rewrite decide_False; [done|]. by destruct data. Qed.
