(* ===== verification/Connector.v ===== *)
(** * The trigger connector

    [trigger_connector.cpp] (the sessions and models opened on the trigger
    HAL), [trigger_host_manager.cpp] (the HAL proxy and adapter),
    [trigger_connector_internal_impl.cpp], [trigger_connector_internal_validation.cpp]
    and [trigger_connector_mgr.cpp].

    The HAL (the [IIntellVoiceTriggerManager] proxy and its adapter) and the
    shared-memory service are not part of the repository: they are the
    operations of the class [TriggerHal], over a HAL state [H].  All members of
    a session run under the connector's [mutex_]. *)

From S2P Require Import Prelude TriggerTypes.

(** The HAL as the connector sees it. *)
Class TriggerHal (H : Type) := {
  (** [IIntellVoiceTriggerManager::Get()] is not null. *)
  hal_Get : St H bool;
  (** [GetVersion], and whether the cast to the V1_1 interface succeeds. *)
  hal_GetVersion : St H (Z * Z);
  hal_CastV1_1 : St H bool;
  (** [LoadAdapter] / [LoadAdapter_V1_1] left a non-null adapter. *)
  hal_LoadAdapter : string → St H bool;
  hal_LoadAdapterV1_1 : string → St H bool;
  hal_UnloadAdapter : string → St H unit;
  (** The ashmem holding the model data was created, mapped and written. *)
  hal_Ashmem : list Z → St H bool;
  (** The adapter: error code, and the handle for [LoadModel]. *)
  hal_LoadModel : list Z → Z → Z → St H (Z * Z);
  hal_UnloadModel : Z → St H Z;
  hal_Start : Z → St H Z;
  hal_Stop : Z → St H Z;
  hal_SetParams : string → string → St H Z;
  hal_GetParams : string → St H (Z * string) }.

(** [enum ModelState] of [TriggerSession::Model]. *)
Inductive ConnState := IDLE | LOADED | ACTIVE.

#[global] Instance ConnState_eq_dec : EqDecision ConnState.
Proof. solve_decision. Defined.

(** [class TriggerSession::Model]. *)
Record Model := mkConnModel { handle_ : Z; cstate_ : ConnState }.
#[global] Instance Model_eta : Eta Model := λ m, mkConnModel (handle_ m) (cstate_ m).

(** [class TriggerSession]: the loaded models and the queue of its
    [TaskExecutor], which holds the handles of recognition events. *)
Record TriggerSession := mkSession { loadedModels_ : gmap Z Model; tasks : list Z }.
#[global] Instance TriggerSession_eta : Eta TriggerSession :=
  λ s, mkSession (loadedModels_ s) (tasks s).

(** [MAX_RECOGNITION_EVENT_NUM], the capacity of that queue. *)
Definition MAX_RECOGNITION_EVENT_NUM : nat := 200%nat.

(** [class TriggerConnector] with its [TriggerHostManager] base: whether the
    proxies and the adapters are non-null, the service state, the sessions and
    how often the service-start callback [cb_] was invoked. *)
Record TriggerConnector (H : Type) := mkConnector {
  hal : H;
  triggerHostProxy_ : bool; triggerHostProxyV1_1_ : bool;
  adapter_ : bool; adapterV1_1_ : bool;
  adapterName : string;
  serviceState_ : Z; getModuleFail_ : bool; cbCalls : nat;
  activeSessions_ : list TriggerSession }.
Arguments mkConnector {H} _ _ _ _ _ _ _ _ _ _.
Arguments hal {H} _.
Arguments triggerHostProxy_ {H} _.
Arguments triggerHostProxyV1_1_ {H} _.
Arguments adapter_ {H} _.
Arguments adapterV1_1_ {H} _.
Arguments adapterName {H} _.
Arguments serviceState_ {H} _.
Arguments getModuleFail_ {H} _.
Arguments cbCalls {H} _.
Arguments activeSessions_ {H} _.

#[global] Instance TriggerConnector_eta H : Eta (TriggerConnector H) :=
  λ c, mkConnector (hal c) (triggerHostProxy_ c) (triggerHostProxyV1_1_ c) (adapter_ c)
         (adapterV1_1_ c) (adapterName c) (serviceState_ c) (getModuleFail_ c) (cbCalls c)
         (activeSessions_ c).

(** The HDI service whose status is observed. *)
Definition INTELL_VOICE_TRIGGER_SERVICE : string := "intell_voice_trigger_manager_service".

Section connector.
Context {H : Type} `{!TriggerHal H}.
Implicit Types c : TriggerConnector H.

(** A HAL call made by the connector. *)
Definition call {A} (f : St H A) : St (TriggerConnector H) A := λ c,
  let '(a, h) := f (hal c) in (a, c <| hal := h |>).

(** [TriggerHostManager::Init]. *)
Definition Init : St (TriggerConnector H) bool :=
  c ← st_get;
  if triggerHostProxy_ c then mret true else
  ok ← call hal_Get;
  if negb ok then mret false else
  _ ← st_modify (λ c, c <| triggerHostProxy_ := true |>);
  ver ← call hal_GetVersion;
  if GetHdiVersionId ver.1 ver.2 =? GetHdiVersionId 1 1 then
    cast ← call hal_CastV1_1;
    _ ← st_when cast (st_modify (λ c, c <| triggerHostProxyV1_1_ := true |>));
    mret true
  else mret true.

(** [TriggerHostManager::LoadTriggerAdapter]. *)
Definition LoadTriggerAdapter : St (TriggerConnector H) bool :=
  c ← st_get;
  if negb (triggerHostProxy_ c) then mret false else
  if triggerHostProxyV1_1_ c then
    ok ← call (hal_LoadAdapterV1_1 (adapterName c));
    _ ← st_modify (λ c, c <| adapterV1_1_ := ok |>);
    if negb ok then mret false else
    _ ← st_modify (λ c, c <| adapter_ := true |>);
    mret true
  else
    ok ← call (hal_LoadAdapter (adapterName c));
    _ ← st_modify (λ c, c <| adapter_ := ok |>);
    mret ok.

(** [TriggerHostManager::UnloadTriggerAdapter]. *)
Definition UnloadTriggerAdapter : St (TriggerConnector H) unit :=
  c ← st_get;
  _ ← st_when (triggerHostProxy_ c) (call (hal_UnloadAdapter (adapterName c)));
  st_modify (λ c, c <| adapter_ := false |> <| adapterV1_1_ := false |>).

(** [TriggerConnector::LoadHdiAdapter].  The death recipient it registers ends
    the process and has no other effect. *)
Definition LoadHdiAdapter : St (TriggerConnector H) bool :=
  ok ← Init;
  if negb ok then mret false else LoadTriggerAdapter.

(** The constructor; [statusMax] is [SERVIE_STATUS_MAX]. *)
Definition new_connector (statusMax : Z) (h : H) (name : string) : TriggerConnector H :=
  (LoadHdiAdapter (mkConnector h false false false false name statusMax false 0 [])).2.

(** [TriggerConnector::GetModule]: a new session, named by its index. *)
Definition GetModule (callback : bool) : St (TriggerConnector H) (option nat) :=
  if negb callback then mret None else
  c ← st_get;
  ok ← (if adapter_ c then mret true else LoadHdiAdapter);
  if negb ok then
    _ ← st_modify (λ c, c <| getModuleFail_ := true |>); mret None
  else
    c ← st_get;
    _ ← st_modify (λ c, c <| getModuleFail_ := false |>
                          <| activeSessions_ ::= λ l, l ++ [mkSession ∅ []] |>);
    mret (Some (length (activeSessions_ c))).

(** [TriggerConnector::OnReceive]; [startStatus] is [SERVIE_STATUS_START]. *)
Definition OnReceive (startStatus : Z) (serviceName : string) (status : Z)
    : St (TriggerConnector H) unit :=
  if negb (bool_decide (serviceName = INTELL_VOICE_TRIGGER_SERVICE)) then mret () else
  c ← st_get;
  if status =? serviceState_ c then mret () else
  _ ← st_modify (λ c, c <| serviceState_ := status |>);
  if negb (getModuleFail_ c) || negb (status =? startStatus) || adapter_ c then mret ()
  else st_modify (λ c, c <| cbCalls ::= S |>).

(** ** Models *)

(** [Model::CreateAshmemFromModelData]. *)
Definition CreateAshmemFromModelData (data : list Z) : St (TriggerConnector H) bool :=
  if decide (length data = 0%nat) then mret false else call (hal_Ashmem data).

(** [Model::Load]: the error code, the handle and the model. *)
Definition Model_Load (model : GenericTriggerModel) (md : Model)
    : St (TriggerConnector H) (Z * Model) :=
  if decide (cstate_ md ≠ IDLE) then mret (-1, md) else
  ok ← CreateAshmemFromModelData (data_ model);
  if negb ok then mret (-1, md) else
  r ← call (hal_LoadModel (data_ model) (type_ model) (u32 (model_uuid model)));
  if negb (r.1 =? 0) then mret (r.1, md)
  else mret (r.1, mkConnModel r.2 LOADED).

(** [Model::Start], [Model::Stop] and [Model::Unload]. *)
Definition Model_Start (md : Model) : St (TriggerConnector H) (Z * Model) :=
  if decide (cstate_ md ≠ LOADED) then mret (-1, md) else
  r ← call (hal_Start (handle_ md));
  if negb (r =? 0) then mret (r, md) else mret (r, md <| cstate_ := ACTIVE |>).

Definition Model_Stop (md : Model) : St (TriggerConnector H) (Z * Model) :=
  if decide (cstate_ md ≠ ACTIVE) then mret (-1, md) else
  r ← call (hal_Stop (handle_ md));
  if negb (r =? 0) then mret (r, md) else mret (r, md <| cstate_ := LOADED |>).

Definition Model_Unload (md : Model) : St (TriggerConnector H) (Z * Model) :=
  if decide (cstate_ md = IDLE) then mret (-1, md) else
  r ← call (hal_UnloadModel (handle_ md));
  if negb (r =? 0) then mret (r, md) else mret (r, md <| cstate_ := IDLE |>).

(** ** Sessions *)

Definition session c (sid : nat) : TriggerSession :=
  default (mkSession ∅ []) (activeSessions_ c !! sid).

Definition on_session (sid : nat) (f : TriggerSession → TriggerSession)
    : St (TriggerConnector H) unit :=
  st_modify (λ c, c <| activeSessions_ ::= alter f sid |>).

Definition find_model c (sid : nat) (modelHandle : Z) : option Model :=
  loadedModels_ (session c sid) !! modelHandle.

(** [TriggerSession::LoadModel].  [std::map::insert] keeps an existing entry. *)
Definition Session_LoadModel (sid : nat) (model : GenericTriggerModel)
    : St (TriggerConnector H) (Z * Z) :=
  c ← st_get;
  if negb (adapter_ c) then mret (-1, 0) else
  r ← Model_Load model (mkConnModel 0 IDLE);
  if negb (r.1 =? 0) then mret (r.1, 0) else
  let h := handle_ r.2 in
  _ ← on_session sid (λ s, s <| loadedModels_ ::= λ ms,
        match ms !! h with Some _ => ms | None => <[h := r.2]> ms end |>);
  mret (r.1, h).

(** A member of the session that works on one loaded model. *)
Definition with_model (sid : nat) (modelHandle : Z)
    (k : Model → St (TriggerConnector H) Z) : St (TriggerConnector H) Z :=
  c ← st_get;
  if negb (adapter_ c) then mret (-1) else
  match find_model c sid modelHandle with
  | None => mret (-1)
  | Some md => k md
  end.

Definition Session_UnloadModel (sid : nat) (modelHandle : Z) : St (TriggerConnector H) Z :=
  with_model sid modelHandle (λ md,
    r ← Model_Unload md;
    _ ← on_session sid (λ s, s <| loadedModels_ ::= delete modelHandle |>);
    mret r.1).

Definition Session_Start (sid : nat) (modelHandle : Z) : St (TriggerConnector H) Z :=
  with_model sid modelHandle (λ md,
    r ← Model_Start md;
    _ ← on_session sid (λ s, s <| loadedModels_ ::= <[modelHandle := r.2]> |>);
    mret r.1).

Definition Session_Stop (sid : nat) (modelHandle : Z) : St (TriggerConnector H) Z :=
  with_model sid modelHandle (λ md,
    r ← Model_Stop md;
    _ ← on_session sid (λ s, s <| loadedModels_ ::= <[modelHandle := r.2]> |>);
    mret r.1).

Definition Session_SetParams (key value : string) : St (TriggerConnector H) Z :=
  c ← st_get;
  if negb (adapterV1_1_ c) then mret (-1) else call (hal_SetParams key value).

Definition Session_GetParams (key : string) : St (TriggerConnector H) (Z * string) :=
  c ← st_get;
  if negb (adapterV1_1_ c) then mret (-1, EmptyString) else call (hal_GetParams key).

(** [Model::OnRecognitionHdiEvent] and [TriggerSession::HandleRecognitionHdiEvent]:
    the event is queued, or dropped when the queue is full. *)
Definition HandleRecognitionHdiEvent (sid : nat) (modelHandle : Z) : St (TriggerConnector H) unit :=
  on_session sid (λ s, s <| tasks ::= λ q,
    if decide (length q < MAX_RECOGNITION_EVENT_NUM)%nat then q ++ [modelHandle] else q |>).

(** [ProcessRecognitionHdiEvent], up to the callback: [true] when the callback
    [OnRecognition] is to be made. *)
Definition ProcessRecognitionHdiEvent (sid : nat) (modelHandle : Z) : St (TriggerConnector H) bool :=
  c ← st_get;
  match find_model c sid modelHandle with
  | None => mret false
  | Some md =>
    if decide (cstate_ md ≠ ACTIVE) then mret false else
    _ ← on_session sid (λ s, s <| loadedModels_ ::= <[modelHandle := md <| cstate_ := LOADED |>]> |>);
    mret true
  end.

(** One turn of the session's worker thread: the oldest task, if any, and the
    handle whose callback it leads to. *)
Definition worker_turn (sid : nat) : St (TriggerConnector H) (option Z) :=
  c ← st_get;
  match tasks (session c sid) with
  | [] => mret None
  | h :: q =>
    _ ← on_session sid (λ s, s <| tasks := q |>);
    cb ← ProcessRecognitionHdiEvent sid h;
    mret (if (cb : bool) then Some h else None)
  end.

End connector.

(** ** The connector manager

    [TriggerConnectorMgr] delegates to [TriggerConnectorInternalValidation],
    which delegates to [TriggerConnectorInternalImpl].  The implementation has
    one connector, for the adapter "primary", or none when the HDI service
    manager is missing; the validation remembers the adapter names it has
    listed. *)
Record ConnectorMgr (H : Type) := mkConnectorMgr {
  connectors_ : option (TriggerConnector H); moduleDescs_ : gset string }.
Arguments mkConnectorMgr {H} _ _.
Arguments connectors_ {H} _.
Arguments moduleDescs_ {H} _.

#[global] Instance ConnectorMgr_eta H : Eta (ConnectorMgr H) :=
  λ g, mkConnectorMgr (connectors_ g) (moduleDescs_ g).

(** What the trigger helper uses of the connector manager and of the module
    (session) it obtained: the interface of
    [IIntellVoiceTriggerConnectorInternal] and [IIntellVoiceTriggerConnectorModule]. *)
Class ConnectorModule (M : Type) := {
  cm_ListModuleDescriptors : St M (list string);
  cm_GetModule : string → St M (option nat);
  cm_LoadModel : nat → option GenericTriggerModel → St M (Z * Z);
  cm_UnloadModel : nat → Z → St M Z;
  cm_Start : nat → Z → St M Z;
  cm_Stop : nat → Z → St M Z;
  cm_SetParams : nat → string → string → St M Z;
  cm_GetParams : nat → string → St M (Z * string);
  (** The session's half of a recognition event: [ProcessRecognitionHdiEvent]. *)
  cm_Recognize : nat → Z → St M bool }.

Section manager.
Context {H : Type} `{!TriggerHal H}.
Implicit Types g : ConnectorMgr H.

Definition primary : string := "primary".

(** [TriggerConnectorInternalImpl]: the constructor ([servmgr] is whether the HDI
    service manager was found), and its members. *)
Definition new_connector_mgr (statusMax : Z) (servmgr : bool) (h : H) : ConnectorMgr H :=
  mkConnectorMgr (if servmgr then Some (new_connector statusMax h primary) else None) ∅.

Definition Impl_ListModuleDescriptors g : list string :=
  match connectors_ g with Some _ => [primary] | None => [] end.

(** A member call on the connector of the manager, [dflt] when there is none. *)
Definition on_connector {A} (dflt : A) (f : St (TriggerConnector H) A) : St (ConnectorMgr H) A :=
  λ g, match connectors_ g with
       | None => (dflt, g)
       | Some c => let '(a, c') := f c in (a, g <| connectors_ := Some c' |>)
       end.

Definition Impl_GetModule (adapterName : string) : St (ConnectorMgr H) (option nat) :=
  if bool_decide (adapterName = primary) then on_connector None (GetModule true) else mret None.

(** [TriggerConnectorInternalValidation::ListModuleDescriptors]. *)
Definition Validation_ListModuleDescriptors : St (ConnectorMgr H) (list string) :=
  g ← st_get;
  let ret := Impl_ListModuleDescriptors g in
  if decide (ret = []) then mret ret else
  if decide (moduleDescs_ g = ∅) then
    _ ← st_modify (λ g, g <| moduleDescs_ := list_to_set ret |>);
    mret ret
  else if decide (length ret ≠ size (moduleDescs_ g)) then mret []
  else if forallb (λ n, bool_decide (n ∈ moduleDescs_ g)) ret then mret ret
  else mret [].

(** [TriggerConnectorInternalValidation::GetModule] (the callback is not null). *)
Definition Validation_GetModule (adapterName : string) : St (ConnectorMgr H) (option nat) :=
  g ← st_get;
  if bool_decide (adapterName ∈ moduleDescs_ g) then Impl_GetModule adapterName else mret None.

(** [TriggerConnectorModuleValidation::LoadModel]. *)
Definition Validation_LoadModel (sid : nat) (model : option GenericTriggerModel)
    : St (ConnectorMgr H) (Z * Z) :=
  match model with
  | Some md => if ValidateGenericModel model then on_connector (-1, 0) (Session_LoadModel sid md)
               else mret (-1, 0)
  | None => mret (-1, 0)
  end.

(** The other members of the validating module forward to the session. *)
#[global] Instance connector_module : ConnectorModule (ConnectorMgr H) := {|
  cm_ListModuleDescriptors := Validation_ListModuleDescriptors;
  cm_GetModule := Validation_GetModule;
  cm_LoadModel := Validation_LoadModel;
  cm_UnloadModel sid h := on_connector (-1) (Session_UnloadModel sid h);
  cm_Start sid h := on_connector (-1) (Session_Start sid h);
  cm_Stop sid h := on_connector (-1) (Session_Stop sid h);
  cm_SetParams sid k v := on_connector (-1) (Session_SetParams k v);
  cm_GetParams sid k := on_connector (-1, EmptyString) (Session_GetParams k);
  cm_Recognize sid h := on_connector false (ProcessRecognitionHdiEvent sid h) |}.

End manager.

(** ** The contract of the interface

    [cm_view] is the state of the models loaded in a session; [cm_used] the
    handles handed out so far.  A failed operation leaves the view as it was,
    except [UnloadModel], which may forget the model it was asked to unload. *)
Class ConnectorLaws (M : Type) `{!ConnectorModule M} := {
  cm_wf : M → Prop;
  cm_valid : M → nat → Prop;
  cm_view : M → nat → gmap Z ConnState;
  cm_used : M → gset Z;
  cm_keep (m m' : M) (sid : nat) : Prop :=
    cm_wf m' ∧ cm_valid m' sid ∧ cm_used m ⊆ cm_used m';
  cm_used_0 m : cm_wf m → 0 ∈ cm_used m;
  cm_ListModuleDescriptors_law m :
    cm_wf m → let m' := (cm_ListModuleDescriptors m).2 in cm_wf m' ∧ cm_used m ⊆ cm_used m';
  cm_GetModule_law name m :
    cm_wf m →
    let '(r, m') := cm_GetModule name m in
    cm_wf m' ∧ cm_used m ⊆ cm_used m' ∧
    ∀ sid, r = Some sid → cm_valid m' sid ∧ cm_view m' sid = ∅;
  cm_LoadModel_law sid md m :
    cm_wf m → cm_valid m sid →
    let '((r, h), m') := cm_LoadModel sid md m in
    cm_keep m m' sid ∧
    (r = 0 → (h ∉ cm_used m) ∧ h ∈ cm_used m' ∧ cm_view m' sid = <[h := LOADED]> (cm_view m sid)) ∧
    (r ≠ 0 → cm_view m' sid = cm_view m sid);
  cm_UnloadModel_law sid h m :
    cm_wf m → cm_valid m sid →
    let '(r, m') := cm_UnloadModel sid h m in
    cm_keep m m' sid ∧
    (cm_view m' sid = delete h (cm_view m sid) ∨ cm_view m' sid = cm_view m sid);
  cm_Start_law sid h m :
    cm_wf m → cm_valid m sid →
    let '(r, m') := cm_Start sid h m in
    cm_keep m m' sid ∧
    (r = 0 → cm_view m sid !! h = Some LOADED ∧ cm_view m' sid = <[h := ACTIVE]> (cm_view m sid)) ∧
    (r ≠ 0 → cm_view m' sid = cm_view m sid);
  cm_Stop_law sid h m :
    cm_wf m → cm_valid m sid →
    let '(r, m') := cm_Stop sid h m in
    cm_keep m m' sid ∧
    (r = 0 → cm_view m sid !! h = Some ACTIVE ∧ cm_view m' sid = <[h := LOADED]> (cm_view m sid)) ∧
    (r ≠ 0 → cm_view m' sid = cm_view m sid);
  cm_SetParams_law sid k v m :
    cm_wf m → cm_valid m sid →
    let m' := (cm_SetParams sid k v m).2 in cm_keep m m' sid ∧ cm_view m' sid = cm_view m sid;
  cm_GetParams_law sid k m :
    cm_wf m → cm_valid m sid →
    let m' := (cm_GetParams sid k m).2 in cm_keep m m' sid ∧ cm_view m' sid = cm_view m sid;
  cm_Recognize_law sid h m :
    cm_wf m → cm_valid m sid →
    let '(b, m') := cm_Recognize sid h m in
    cm_keep m m' sid ∧
    (b = true → cm_view m sid !! h = Some ACTIVE ∧ cm_view m' sid = <[h := LOADED]> (cm_view m sid)) ∧
    (b = false → cm_view m' sid = cm_view m sid) }.

(** What the connector relies on of the HAL: model handles are not 0 and are
    never handed out twice. *)
Class TriggerHalLaws (H : Type) `{!TriggerHal H} := {
  hal_used : H → gset Z;
  hal_used_0 h : 0 ∈ hal_used h;
  hal_load_fresh d t u h :
    let '((r, hd), h') := hal_LoadModel d t u h in
    hal_used h ⊆ hal_used h' ∧ (r = 0 → (hd ∉ hal_used h) ∧ hd ∈ hal_used h');
  hal_Get_used h : hal_used h ⊆ hal_used (hal_Get h).2;
  hal_GetVersion_used h : hal_used h ⊆ hal_used (hal_GetVersion h).2;
  hal_CastV1_1_used h : hal_used h ⊆ hal_used (hal_CastV1_1 h).2;
  hal_LoadAdapter_used n h : hal_used h ⊆ hal_used (hal_LoadAdapter n h).2;
  hal_LoadAdapterV1_1_used n h : hal_used h ⊆ hal_used (hal_LoadAdapterV1_1 n h).2;
  hal_Ashmem_used d h : hal_used h ⊆ hal_used (hal_Ashmem d h).2;
  hal_UnloadModel_used x h : hal_used h ⊆ hal_used (hal_UnloadModel x h).2;
  hal_Start_used x h : hal_used h ⊆ hal_used (hal_Start x h).2;
  hal_Stop_used x h : hal_used h ⊆ hal_used (hal_Stop x h).2;
  hal_SetParams_used k v h : hal_used h ⊆ hal_used (hal_SetParams k v h).2;
  hal_GetParams_used k h : hal_used h ⊆ hal_used (hal_GetParams k h).2 }.

Section laws.
Context {H : Type} `{!TriggerHal H} `{!TriggerHalLaws H}.
Implicit Types c : TriggerConnector H.
Implicit Types g : ConnectorMgr H.

(** Every loaded model is stored under its own handle, is not idle, and its
    handle was handed out by the HAL. *)
Definition session_ok (used : gset Z) (s : TriggerSession) : Prop :=
  ∀ h md, loadedModels_ s !! h = Some md → handle_ md = h ∧ cstate_ md ≠ IDLE ∧ h ∈ used.

Definition conn_ok c : Prop := Forall (session_ok (hal_used (hal c))) (activeSessions_ c).

Definition conn_view c (sid : nat) : gmap Z ConnState := cstate_ <$> loadedModels_ (session c sid).

Lemma session_ok_mono u u' s : u ⊆ u' → session_ok u s → session_ok u' s.
Proof. intros Hu Hs h md Hl. destruct (Hs h md Hl) as (? & ? & ?). set_solver. Qed.

(** A HAL call keeps the sessions and their well-formedness. *)
Lemma call_facts {A} (f : St H A) c :
  hal_used (hal c) ⊆ hal_used (f (hal c)).2 →
  (call f c).1 = (f (hal c)).1 ∧
  hal (call f c).2 = (f (hal c)).2 ∧
  activeSessions_ (call f c).2 = activeSessions_ c ∧ adapter_ (call f c).2 = adapter_ c ∧
  hal_used (hal c) ⊆ hal_used (hal (call f c).2) ∧ (conn_ok c → conn_ok (call f c).2).
Proof.
  intros Hu. unfold call. destruct (f (hal c)) as [a h]. simpl in *. split_and!; try done.
  unfold conn_ok. simpl. intros Hc. eapply Forall_impl; [exact Hc|].
  intros s. by apply session_ok_mono.
Qed.

Lemma session_ok_lookup c sid :
  conn_ok c → session_ok (hal_used (hal c)) (session c sid).
Proof.
  intros Hc. unfold session. destruct (activeSessions_ c !! sid) as [s|] eqn:Hs; simpl.
  - unfold conn_ok in Hc. rewrite Forall_lookup in Hc. by eapply Hc.
  - intros h md. simpl. by rewrite lookup_empty.
Qed.

Lemma on_session_facts sid f c :
  (sid < length (activeSessions_ c))%nat →
  conn_ok c → session_ok (hal_used (hal c)) (f (session c sid)) →
  let c' := (on_session sid f c).2 in
  conn_ok c' ∧ hal c' = hal c ∧ length (activeSessions_ c') = length (activeSessions_ c) ∧
  session c' sid = f (session c sid).
Proof.
  intros Hlt Hc Hf. destruct (lookup_lt_is_Some_2 _ _ Hlt) as [s Hs].
  assert (session c sid = s) as Hse by (unfold session; by rewrite Hs).
  split_and!.
  - unfold conn_ok in *. simpl. apply Forall_lookup. intros i s' Hi.
    rewrite Forall_lookup in Hc. destruct (decide (i = sid)) as [->|Hne].
    + rewrite list_lookup_alter_eq, Hs in Hi. simpl in Hi. injection Hi as <-. by rewrite <- Hse.
    + rewrite list_lookup_alter_ne in Hi by done. by eapply Hc.
  - done.
  - simpl. apply length_alter.
  - unfold session at 1. simpl. rewrite list_lookup_alter_eq, Hs. simpl. by rewrite Hse.
Qed.

(** A computation that makes HAL calls only. *)
Definition hal_only {A} (f : St (TriggerConnector H) A) : Prop :=
  ∀ c, activeSessions_ (f c).2 = activeSessions_ c ∧
       hal_used (hal c) ⊆ hal_used (hal (f c).2).

Lemma hal_only_ret {A} (a : A) : hal_only (mret a).
Proof. by intros c. Qed.

Lemma hal_only_call {A} (f : St H A) :
  (∀ h, hal_used h ⊆ hal_used (f h).2) → hal_only (call f).
Proof. intros Hf c. destruct (call_facts f c (Hf _)) as (_ & _ & ? & _ & ? & _). done. Qed.

Lemma hal_only_bind {A B} (f : St (TriggerConnector H) A) (k : A → St (TriggerConnector H) B) :
  hal_only f → (∀ a, hal_only (k a)) → hal_only (f ≫= k).
Proof.
  intros Hf Hk c. rewrite bind_run. destruct (Hf c) as [H1 H2].
  destruct (Hk (f c).1 (f c).2) as [H3 H4]. split; [congruence|set_solver].
Qed.

Lemma hal_only_get {A} (k : TriggerConnector H → St (TriggerConnector H) A) :
  (∀ c, hal_only (k c)) → hal_only (c ← st_get; k c).
Proof. intros Hk c. rewrite bind_run. apply Hk. Qed.

Lemma hal_only_modify (f : TriggerConnector H → TriggerConnector H) :
  (∀ c, activeSessions_ (f c) = activeSessions_ c ∧ hal (f c) = hal c) → hal_only (st_modify f).
Proof. intros Hf c. destruct (Hf c) as [H1 H2]. simpl. by rewrite H1, H2. Qed.

Lemma hal_only_ok {A} (f : St (TriggerConnector H) A) c :
  hal_only f → conn_ok c → conn_ok (f c).2.
Proof.
  intros Hf Hc. destruct (Hf c) as [H1 H2]. unfold conn_ok. rewrite H1.
  eapply Forall_impl; [exact Hc|]. intros s. by apply session_ok_mono.
Qed.

Lemma hal_only_session {A} (f : St (TriggerConnector H) A) c sid :
  hal_only f → session (f c).2 sid = session c sid.
Proof. intros Hf. unfold session. by rewrite (proj1 (Hf c)). Qed.

Create HintDb hal discriminated.
Hint Resolve hal_only_ret hal_Get_used hal_GetVersion_used hal_CastV1_1_used hal_LoadAdapter_used
  hal_LoadAdapterV1_1_used hal_Ashmem_used hal_UnloadModel_used hal_Start_used hal_Stop_used
  hal_SetParams_used hal_GetParams_used : hal.

Lemma hal_LoadModel_used d t u h : hal_used h ⊆ hal_used (hal_LoadModel d t u h).2.
Proof. pose proof (hal_load_fresh d t u h) as Hl.
  destruct (hal_LoadModel d t u h) as [[r hd] h']. apply Hl. Qed.
Hint Resolve hal_LoadModel_used : hal.

(** [hal_solve] shows that a computation makes HAL calls only. *)
Ltac hal_solve :=
  repeat lazymatch goal with
  | |- hal_only (mret _) => apply hal_only_ret
  | |- hal_only (st_get ≫= _) => apply hal_only_get; intros ?
  | |- hal_only (_ ≫= _) => apply hal_only_bind; [|intros ?]
  | |- hal_only (call _) => apply hal_only_call; intros ?
  | |- hal_only (st_modify _) => apply hal_only_modify; intros ?
  | |- hal_only (if ?b then _ else _) => destruct b
  | |- hal_used _ ⊆ _ => auto with hal
  end.

Lemma Model_Load_hal model md : hal_only (Model_Load model md).
Proof. unfold Model_Load, CreateAshmemFromModelData. hal_solve. Qed.
Lemma Model_Start_hal md : hal_only (Model_Start md).
Proof. unfold Model_Start. hal_solve. Qed.
Lemma Model_Stop_hal md : hal_only (Model_Stop md).
Proof. unfold Model_Stop. hal_solve. Qed.
Lemma Model_Unload_hal md : hal_only (Model_Unload md).
Proof. unfold Model_Unload. hal_solve. Qed.

Lemma LoadHdiAdapter_hal : hal_only LoadHdiAdapter.
Proof. unfold LoadHdiAdapter, Init, LoadTriggerAdapter, st_when. hal_solve; done. Qed.

(** The outcome of the model members, with the model they leave. *)
Lemma Model_Start_out md c :
  let '(r, md') := (Model_Start md c).1 in
  (r = 0 ∧ cstate_ md = LOADED ∧ md' = md <| cstate_ := ACTIVE |>) ∨ (r ≠ 0 ∧ md' = md).
Proof.
  unfold Model_Start. case_decide as Hs; [right; by split|]. run.
  destruct (call _ c) as [r c']. simpl. destruct (Z.eqb_spec r 0); simpl; eauto.
Qed.

Lemma Model_Stop_out md c :
  let '(r, md') := (Model_Stop md c).1 in
  (r = 0 ∧ cstate_ md = ACTIVE ∧ md' = md <| cstate_ := LOADED |>) ∨ (r ≠ 0 ∧ md' = md).
Proof.
  unfold Model_Stop. case_decide as Hs; [right; by split|]. run.
  destruct (call _ c) as [r c']. simpl. destruct (Z.eqb_spec r 0); simpl; eauto.
Qed.

Lemma Model_Load_out model md c :
  let '(r, md') := (Model_Load model md c).1 in
  r = 0 → cstate_ md' = LOADED ∧ (handle_ md' ∉ hal_used (hal c)) ∧
          handle_ md' ∈ hal_used (hal (Model_Load model md c).2).
Proof.
  unfold Model_Load. case_decide; [done|]. run.
  destruct (CreateAshmemFromModelData (data_ model) c) as [ok c1] eqn:Ha.
  assert (hal_only (CreateAshmemFromModelData (data_ model))) as Hho.
  { unfold CreateAshmemFromModelData. hal_solve. }
  destruct (Hho c) as [_ Hu]. rewrite Ha in Hu. cbn [fst snd] in *.
  destruct ok; simpl; [|done]. run.
  destruct (call_facts (hal_LoadModel (data_ model) (type_ model) (u32 (model_uuid model))) c1
    (hal_LoadModel_used _ _ _ _)) as (H1 & H2 & _). revert H1 H2.
  pose proof (hal_load_fresh (data_ model) (type_ model) (u32 (model_uuid model)) (hal c1)) as Hl.
  destruct (hal_LoadModel _ _ _ (hal c1)) as [[r hd] h'].
  destruct (call _ c1) as [[r2 hd2] c2]. cbn [fst snd]. intros [= -> ->] Hh.
  destruct Hl as [_ Hl]. destruct (Z.eqb_spec r 0) as [->|]; simpl; [|done].
  intros _. destruct (Hl eq_refl) as [Hn Hi]. rewrite Hh. split_and!; [done|set_solver|done].
Qed.

(** The part of the contract every session member satisfies. *)
Definition conn_keep c c' (sid : nat) : Prop :=
  conn_ok c' ∧ (sid < length (activeSessions_ c'))%nat ∧ hal_used (hal c) ⊆ hal_used (hal c').

Lemma conn_keep_refl c sid :
  conn_ok c → (sid < length (activeSessions_ c))%nat → conn_keep c c sid.
Proof. by repeat split. Qed.

Lemma hal_only_keep {A} (f : St (TriggerConnector H) A) c sid :
  hal_only f → conn_ok c → (sid < length (activeSessions_ c))%nat →
  conn_keep c (f c).2 sid ∧ conn_view (f c).2 sid = conn_view c sid.
Proof.
  intros Hf Hc Hl. split; [unfold conn_keep; split_and!; [by apply hal_only_ok| |apply Hf]|].
  - by rewrite (proj1 (Hf c)).
  - unfold conn_view. by rewrite hal_only_session.
Qed.

(** A HAL-only computation followed by a change of the session. *)
Lemma hal_then_session {A} (f : St (TriggerConnector H) A) upds c sid :
  hal_only f → conn_ok c → (sid < length (activeSessions_ c))%nat →
  session_ok (hal_used (hal (f c).2)) (upds (session c sid)) →
  let c' := (on_session sid upds (f c).2).2 in
  conn_keep c c' sid ∧ conn_view c' sid = cstate_ <$> loadedModels_ (upds (session c sid)).
Proof.
  intros Hf Hc Hl Hok. destruct (Hf c) as [H1 H2].
  destruct (on_session_facts sid upds (f c).2) as (G1 & G2 & G3 & G4).
  - by rewrite H1.
  - by apply hal_only_ok.
  - by rewrite hal_only_session.
  - split; [unfold conn_keep; split_and!; [done|by rewrite G3, H1|by rewrite G2]|].
    unfold conn_view. by rewrite G4, hal_only_session.
Qed.

Lemma session_ok_insert u h md s :
  session_ok u s → handle_ md = h → cstate_ md ≠ IDLE → h ∈ u →
  session_ok u (s <| loadedModels_ ::= <[h := md]> |>).
Proof.
  intros Hs Hh Hi Hu h' md'. simpl. rewrite lookup_insert. case_decide; [naive_solver|apply Hs].
Qed.

Lemma session_ok_delete u h s :
  session_ok u s → session_ok u (s <| loadedModels_ ::= delete h |>).
Proof. intros Hs h' md'. simpl. rewrite lookup_delete. case_decide; [done|apply Hs]. Qed.

(** Members that change the state of one loaded model: [Start] and [Stop]. *)
Lemma with_model_update sid h (k : Model → St (TriggerConnector H) (Z * Model)) c from to :
  (∀ md, hal_only (k md)) →
  (∀ md c, let '(r, md') := (k md c).1 in
     (r = 0 ∧ cstate_ md = from ∧ md' = md <| cstate_ := to |>) ∨ (r ≠ 0 ∧ md' = md)) →
  to ≠ IDLE → conn_ok c → (sid < length (activeSessions_ c))%nat →
  let '(r, c') := with_model sid h (λ md,
      r ← k md;
      _ ← on_session sid (λ s, s <| loadedModels_ ::= <[h := r.2]> |>);
      mret r.1) c in
  conn_keep c c' sid ∧
  (r = 0 → conn_view c sid !! h = Some from ∧ conn_view c' sid = <[h := to]> (conn_view c sid)) ∧
  (r ≠ 0 → conn_view c' sid = conn_view c sid).
Proof.
  intros Hk Hout Hto Hc Hl. unfold with_model. run.
  destruct (adapter_ c); simpl; [|split_and!; [by apply conn_keep_refl|done|done]].
  destruct (find_model c sid h) as [md|] eqn:Hf.
  2: { run. split_and!; [by apply conn_keep_refl|done|done]. }
  run. destruct (session_ok_lookup c sid Hc h md Hf) as (Hh & Hi & Hu).
  pose proof (Hout md c) as Ho. destruct (k md c).1 as [r md'] eqn:Hr. cbn [fst snd].
  assert (handle_ md' = h ∧ cstate_ md' ≠ IDLE) as [Hh' Hi'].
  { destruct Ho as [(_ & _ & ->)|(_ & ->)]; done. }
  destruct (hal_then_session (k md) (λ s, s <| loadedModels_ ::= <[h := md']> |>) c sid)
    as [H1 H2]; [done|done|done| |].
  { apply session_ok_insert; [|done|done|].
    - eapply session_ok_mono; [apply (Hk md c)|by apply session_ok_lookup].
    - pose proof (proj2 (Hk md c)). set_solver. }
  simpl in H2. rewrite fmap_insert in H2. fold (conn_view c sid) in H2.
  assert (conn_view c sid !! h = Some (cstate_ md)) as Hv.
  { unfold conn_view. rewrite lookup_fmap. unfold find_model in Hf. by rewrite Hf. }
  split; [exact H1|]. destruct Ho as [(-> & Hst & ->)|(Hne & ->)]; simpl in *.
  - split; [|done]. intros _. split; [by rewrite Hv, Hst|exact H2].
  - split; [done|]. intros _. transitivity (<[h := cstate_ md]> (conn_view c sid)); [exact H2|].
    by apply insert_id.
Qed.

Lemma Session_UnloadModel_ok sid h c :
  conn_ok c → (sid < length (activeSessions_ c))%nat →
  let '(r, c') := Session_UnloadModel sid h c in
  conn_keep c c' sid ∧
  (conn_view c' sid = delete h (conn_view c sid) ∨ r ≠ 0 ∧ conn_view c' sid = conn_view c sid).
Proof.
  intros Hc Hl. unfold Session_UnloadModel, with_model. run.
  destruct (adapter_ c); simpl; [|split; [by apply conn_keep_refl|by right]].
  destruct (find_model c sid h) as [md|] eqn:Hf; run.
  2: { split; [by apply conn_keep_refl|by right]. }
  destruct (hal_then_session (Model_Unload md) (λ s, s <| loadedModels_ ::= delete h |>) c sid)
    as [H1 H2]; [apply Model_Unload_hal|done|done| |].
  { apply session_ok_delete. eapply session_ok_mono; [apply (Model_Unload_hal md c)|].
    by apply session_ok_lookup. }
  split; [exact H1|left]. simpl in H2. by rewrite fmap_delete in H2.
Qed.

Lemma Session_LoadModel_ok sid model c :
  conn_ok c → (sid < length (activeSessions_ c))%nat →
  let '((r, h), c') := Session_LoadModel sid model c in
  conn_keep c c' sid ∧
  (r = 0 → (h ∉ hal_used (hal c)) ∧ h ∈ hal_used (hal c') ∧
           conn_view c' sid = <[h := LOADED]> (conn_view c sid)) ∧
  (r ≠ 0 → conn_view c' sid = conn_view c sid).
Proof.
  intros Hc Hl. unfold Session_LoadModel. run.
  destruct (adapter_ c); simpl; [|split_and!; [by apply conn_keep_refl|done|done]]. run.
  pose proof (Model_Load_out model (mkConnModel 0 IDLE) c) as Ho.
  pose proof (Model_Load_hal model (mkConnModel 0 IDLE)) as Hh.
  destruct (Model_Load model (mkConnModel 0 IDLE) c).1 as [r md] eqn:Hr. cbn [fst snd].
  destruct (Z.eqb_spec r 0) as [->|Hr0]; simpl.
  2: { destruct (hal_only_keep _ c sid Hh Hc Hl). by split_and!. }
  destruct (Ho eq_refl) as (Hld & Hn & Hin). run.
  assert (loadedModels_ (session c sid) !! handle_ md = None) as Hnone.
  { destruct (loadedModels_ (session c sid) !! handle_ md) as [x|] eqn:Hx; [|done].
    destruct (session_ok_lookup c sid Hc _ _ Hx) as (_ & _ & ?). done. }
  destruct (hal_then_session (Model_Load model (mkConnModel 0 IDLE))
     (λ s, s <| loadedModels_ ::= λ ms,
        match ms !! handle_ md with Some _ => ms | None => <[handle_ md := md]> ms end |>) c sid)
     as [H1 H2]; [done|done|done| |].
  { intros h' md'. simpl. rewrite Hnone.
    apply (session_ok_insert _ (handle_ md) md (session c sid)); [|done|by rewrite Hld|done].
    eapply session_ok_mono; [apply (Hh c)|by apply session_ok_lookup]. }
  simpl in H2. rewrite Hnone, fmap_insert, Hld in H2.
  split; [exact H1|]. split; [|done]. intros _. split_and!; [done|exact Hin|exact H2].
Qed.

Lemma ProcessRecognitionHdiEvent_ok sid h c :
  conn_ok c → (sid < length (activeSessions_ c))%nat →
  let '(b, c') := ProcessRecognitionHdiEvent sid h c in
  conn_keep c c' sid ∧
  (b = true → conn_view c sid !! h = Some ACTIVE ∧
              conn_view c' sid = <[h := LOADED]> (conn_view c sid)) ∧
  (b = false → conn_view c' sid = conn_view c sid).
Proof.
  intros Hc Hl. unfold ProcessRecognitionHdiEvent. run.
  destruct (find_model c sid h) as [md|] eqn:Hf.
  2: { run. split_and!; [by apply conn_keep_refl|done|done]. }
  case_decide as Ha; run; [split_and!; [by apply conn_keep_refl|done|done]|].
  destruct (session_ok_lookup c sid Hc h md Hf) as (Hh & Hi & Hu).
  destruct (hal_then_session (mret ())
     (λ s, s <| loadedModels_ ::= <[h := md <| cstate_ := LOADED |>]> |>) c sid)
     as [H1 H2]; [apply hal_only_ret|done|done| |].
  { apply session_ok_insert; [by apply session_ok_lookup|done|done|done]. }
  split; [exact H1|]. split; [|done]. intros _. simpl in H2. rewrite fmap_insert in H2.
  split; [|exact H2]. unfold conn_view. rewrite lookup_fmap. unfold find_model in Hf.
  rewrite Hf. simpl. by rewrite Ha.
Qed.

(** ** The implementation satisfies the contract *)

Definition mgr_wf g : Prop := from_option conn_ok True (connectors_ g).
Definition mgr_valid g (sid : nat) : Prop :=
  from_option (λ c, (sid < length (activeSessions_ c))%nat) False (connectors_ g).
Definition mgr_view g (sid : nat) : gmap Z ConnState :=
  from_option (λ c, conn_view c sid) ∅ (connectors_ g).
Definition mgr_used g : gset Z := from_option (λ c, hal_used (hal c)) {[0]} (connectors_ g).

(** A contract proved for a session member holds through the manager. *)
Lemma on_connector_law {A} (d : A) (f : St (TriggerConnector H) A) sid
    (Q : A → gset Z → gset Z → gmap Z ConnState → gmap Z ConnState → Prop) g :
  (∀ c, conn_ok c → (sid < length (activeSessions_ c))%nat →
     let '(a, c') := f c in
     conn_keep c c' sid ∧
     Q a (hal_used (hal c)) (hal_used (hal c')) (conn_view c sid) (conn_view c' sid)) →
  mgr_wf g → mgr_valid g sid →
  let '(a, g') := on_connector d f g in
  (mgr_wf g' ∧ mgr_valid g' sid ∧ mgr_used g ⊆ mgr_used g') ∧
  Q a (mgr_used g) (mgr_used g') (mgr_view g sid) (mgr_view g' sid).
Proof.
  intros Hf Hw Hv. unfold on_connector, mgr_wf, mgr_valid, mgr_used, mgr_view in *.
  destruct (connectors_ g) as [c|]; simpl in *; [|done].
  specialize (Hf c Hw Hv). destruct (f c) as [a c']. simpl. exact Hf.
Qed.

(** A call that only reaches the HAL changes no session. *)
Lemma on_connector_hal {A} (d : A) (f : St (TriggerConnector H) A) sid g :
  hal_only f → mgr_wf g → mgr_valid g sid →
  let g' := (on_connector d f g).2 in
  (mgr_wf g' ∧ mgr_valid g' sid ∧ mgr_used g ⊆ mgr_used g') ∧ mgr_view g' sid = mgr_view g sid.
Proof.
  intros Hh Hw Hv. pose proof (on_connector_law d f sid (λ _ _ _ v v', v' = v) g) as Hl.
  destruct (on_connector d f g) as [r g']. apply Hl; [|done|done]. intros c Hc Hs.
  pose proof (hal_only_keep f c sid Hh Hc Hs). by destruct (f c).
Qed.

Lemma Validation_List_facts g :
  (connectors_ (Validation_ListModuleDescriptors g).2 = connectors_ g).
Proof.
  unfold Validation_ListModuleDescriptors. run. repeat case_decide; try done. by destruct (forallb _ _).
Qed.

Lemma GetModule_ok b c :
  conn_ok c →
  let '(r, c') := GetModule b c in
  conn_ok c' ∧ hal_used (hal c) ⊆ hal_used (hal c') ∧
  ∀ sid, r = Some sid → (sid < length (activeSessions_ c'))%nat ∧ conn_view c' sid = ∅.
Proof.
  intros Hc. unfold GetModule. destruct b; simpl; [|by run].
  rewrite !bind_run. change (st_get c) with (c, c). cbn [fst snd].
  set (f := if adapter_ c then mret true else LoadHdiAdapter).
  assert (hal_only f) as Hf.
  { unfold f. destruct (adapter_ c); [apply hal_only_ret|apply LoadHdiAdapter_hal]. }
  pose proof (hal_only_ok f c Hf Hc) as Hok. destruct (Hf c) as [H1 H2].
  destruct (f c) as [ok c1]. cbn [fst snd] in *. destruct ok; simpl; run.
  - split; [|split; [done|]].
    + unfold conn_ok. simpl. apply Forall_app. split; [exact Hok|].
      apply Forall_singleton. intros h md. simpl. by rewrite lookup_empty.
    + intros sid [= <-]. split; [simpl; rewrite length_app; simpl; lia|].
      unfold conn_view, session. simpl. by rewrite list_lookup_middle.
  - split; [exact Hok|]. split; [done|]. by intros.
Qed.

#[global] Instance connector_laws : ConnectorLaws (ConnectorMgr H).
Proof.
  refine {| cm_wf := mgr_wf; cm_valid := mgr_valid; cm_view := mgr_view; cm_used := mgr_used |}.
  - intros g _. unfold mgr_used. destruct (connectors_ g); simpl; [apply hal_used_0|set_solver].
  - intros g Hw. simpl. unfold mgr_wf, mgr_used in *. by rewrite Validation_List_facts.
  - intros name g Hw. simpl. unfold Validation_GetModule, Impl_GetModule. run.
    do 2 (case_bool_decide; [|by run]). unfold on_connector, mgr_wf, mgr_used, mgr_valid, mgr_view in *.
    destruct (connectors_ g) as [c|] eqn:Hcn; simpl in *; [|by rewrite Hcn].
    pose proof (GetModule_ok true c Hw) as Hg. destruct (GetModule true c) as [r c']. exact Hg.
  - intros sid md g Hw Hv. simpl. unfold Validation_LoadModel.
    destruct md as [m|]; [|by run]. destruct (ValidateGenericModel (Some m)); [|by run].
    pose proof (on_connector_law (-1, 0) (Session_LoadModel sid m) sid
      (λ a u u' v v', (a.1 = 0 → (a.2 ∉ u) ∧ a.2 ∈ u' ∧ v' = <[a.2 := LOADED]> v) ∧
                      (a.1 ≠ 0 → v' = v)) g) as Hl.
    destruct (on_connector _ _ g) as [[r h] g']. apply Hl; [|done|done].
    intros c Hc Hs. pose proof (Session_LoadModel_ok sid m c Hc Hs) as Hsl.
    by destruct (Session_LoadModel sid m c) as [[? ?] ?].
  - intros sid h g Hw Hv. apply (on_connector_law (-1) (Session_UnloadModel sid h) sid
      (λ a u u' v v', v' = delete h v ∨ v' = v)); [|done|done].
    intros c Hc Hs. pose proof (Session_UnloadModel_ok sid h c Hc Hs) as Hl.
    destruct (Session_UnloadModel sid h c). naive_solver.
  - intros sid h g Hw Hv. apply (on_connector_law (-1) (Session_Start sid h) sid
      (λ a u u' v v', (a = 0 → v !! h = Some LOADED ∧ v' = <[h := ACTIVE]> v) ∧ (a ≠ 0 → v' = v)));
      [|done|done].
    intros c Hc Hs. by apply (with_model_update sid h Model_Start c LOADED ACTIVE);
      [apply Model_Start_hal|apply Model_Start_out|..].
  - intros sid h g Hw Hv. apply (on_connector_law (-1) (Session_Stop sid h) sid
      (λ a u u' v v', (a = 0 → v !! h = Some ACTIVE ∧ v' = <[h := LOADED]> v) ∧ (a ≠ 0 → v' = v)));
      [|done|done].
    intros c Hc Hs. by apply (with_model_update sid h Model_Stop c ACTIVE LOADED);
      [apply Model_Stop_hal|apply Model_Stop_out|..].
  - intros sid k v g Hw Hv. apply on_connector_hal; [|done|done]. unfold Session_SetParams. hal_solve.
  - intros sid k g Hw Hv. apply on_connector_hal; [|done|done]. unfold Session_GetParams. hal_solve.
  - intros sid h g Hw Hv. apply (on_connector_law false (ProcessRecognitionHdiEvent sid h) sid
      (λ a u u' v v', (a = true → v !! h = Some ACTIVE ∧ v' = <[h := LOADED]> v) ∧
                      (a = false → v' = v))); [|done|done].
    intros c. apply ProcessRecognitionHdiEvent_ok.
Defined.

(** ** Session traces

    The observable behaviour of one session: the calls of the helper with their
    results, the recognition events of the HAL and the turns of the worker
    thread. *)

Inductive SessCmd :=
| CmdLoad (model : GenericTriggerModel) | CmdUnload (h : Z) | CmdStart (h : Z) | CmdStop (h : Z)
| CmdHalEvent (h : Z) | CmdTurn.

Inductive SessObs :=
| ObsLoad (r h : Z) | ObsUnload (h r : Z) | ObsStart (h r : Z) | ObsStop (h r : Z)
| ObsHalEvent (h : Z) | ObsTurn (callback : option Z).

#[global] Instance SessObs_eq_dec : EqDecision SessObs.
Proof. solve_decision. Defined.

Definition exec (sid : nat) (cmd : SessCmd) : St (TriggerConnector H) SessObs :=
  match cmd with
  | CmdLoad model => r ← Session_LoadModel sid model; mret (ObsLoad r.1 r.2)
  | CmdUnload h => r ← Session_UnloadModel sid h; mret (ObsUnload h r)
  | CmdStart h => r ← Session_Start sid h; mret (ObsStart h r)
  | CmdStop h => r ← Session_Stop sid h; mret (ObsStop h r)
  | CmdHalEvent h => _ ← HandleRecognitionHdiEvent sid h; mret (ObsHalEvent h)
  | CmdTurn => cb ← worker_turn sid; mret (ObsTurn cb)
  end.

Fixpoint exec_all (sid : nat) (cmds : list SessCmd) : St (TriggerConnector H) (list SessObs) :=
  match cmds with
  | [] => mret []
  | cmd :: cmds => o ← exec sid cmd; os ← exec_all sid cmds; mret (o :: os)
  end.

(** The contract of a session: a model is loaded, active between a successful
    start and a stop or a callback, and gone after an unload. *)
Inductive abs_step : gmap Z ConnState → SessObs → gmap Z ConnState → Prop :=
| abs_load v h : v !! h = None → abs_step v (ObsLoad 0 h) (<[h := LOADED]> v)
| abs_load_fail v r h : r ≠ 0 → abs_step v (ObsLoad r h) v
| abs_unload v h r : abs_step v (ObsUnload h r) (delete h v)
| abs_unload_fail v h r : r ≠ 0 → abs_step v (ObsUnload h r) v
| abs_start v h : v !! h = Some LOADED → abs_step v (ObsStart h 0) (<[h := ACTIVE]> v)
| abs_start_fail v h r : r ≠ 0 → abs_step v (ObsStart h r) v
| abs_stop v h : v !! h = Some ACTIVE → abs_step v (ObsStop h 0) (<[h := LOADED]> v)
| abs_stop_fail v h r : r ≠ 0 → abs_step v (ObsStop h r) v
| abs_event v h : abs_step v (ObsHalEvent h) v
| abs_callback v h : v !! h = Some ACTIVE → abs_step v (ObsTurn (Some h)) (<[h := LOADED]> v)
| abs_idle v : abs_step v (ObsTurn None) v.

Inductive abs_steps : gmap Z ConnState → list SessObs → gmap Z ConnState → Prop :=
| abs_nil v : abs_steps v [] v
| abs_cons v o v' os v'' : abs_step v o v' → abs_steps v' os v'' → abs_steps v (o :: os) v''.

Definition starts (h : Z) (os : list SessObs) : nat :=
  length (filter (λ o, o = ObsStart h 0) os).
Definition callbacks (h : Z) (os : list SessObs) : nat :=
  length (filter (λ o, o = ObsTurn (Some h)) os).

Lemma tasks_ok sid f c :
  conn_ok c → (sid < length (activeSessions_ c))%nat →
  let c' := (on_session sid (λ s, s <| tasks ::= f |>) c).2 in
  conn_keep c c' sid ∧ conn_view c' sid = conn_view c sid.
Proof.
  intros Hc Hl. destruct (hal_then_session (mret ()) (λ s, s <| tasks ::= f |>) c sid) as [H1 H2];
    [apply hal_only_ret|done|done|by apply session_ok_lookup|]. split; [exact H1|exact H2].
Qed.

Lemma worker_turn_ok sid c :
  conn_ok c → (sid < length (activeSessions_ c))%nat →
  let '(cb, c') := worker_turn sid c in
  conn_keep c c' sid ∧ abs_step (conn_view c sid) (ObsTurn cb) (conn_view c' sid).
Proof.
  intros Hc Hl. unfold worker_turn. rewrite bind_run. cbn [st_get fst snd].
  destruct (tasks (session c sid)) as [|h q].
  { split; [by apply conn_keep_refl|constructor]. }
  rewrite bind_run.
  destruct (tasks_ok sid (λ _, q) c Hc Hl) as [(Ha & Hb & Hd) Hv].
  set (c1 := (on_session sid (λ s, s <| tasks := q |>) c).2) in *.
  rewrite bind_run. pose proof (ProcessRecognitionHdiEvent_ok sid h c1 Ha Hb) as Hp.
  destruct (ProcessRecognitionHdiEvent sid h c1) as [b c2]. cbn [fst snd mret st_ret].
  destruct Hp as ((Ha' & Hb' & Hd') & Ht & Hf).
  split; [split; [done|split; [done|set_solver]]|]. destruct b.
  - destruct (Ht eq_refl) as [H1 ->]. rewrite <- Hv. constructor. done.
  - rewrite (Hf eq_refl), <- Hv. constructor.
Qed.

(** Every command follows the contract. *)
Lemma exec_ok sid cmd c :
  conn_ok c → (sid < length (activeSessions_ c))%nat →
  let '(o, c') := exec sid cmd c in
  conn_keep c c' sid ∧ abs_step (conn_view c sid) o (conn_view c' sid).
Proof.
  intros Hc Hl. destruct cmd as [md|h|h|h|h|]; unfold exec; rewrite bind_run; cbn [mret st_ret].
  - pose proof (Session_LoadModel_ok sid md c Hc Hl) as Hs.
    destruct (Session_LoadModel sid md c) as [[r h] c']. cbn [fst snd]. destruct Hs as (Hk & Ho & Hf).
    split; [done|]. destruct (decide (r = 0)) as [->|Hr].
    + destruct (Ho eq_refl) as (Hn & _ & ->). constructor. unfold conn_view. rewrite lookup_fmap.
      destruct (loadedModels_ (session c sid) !! h) as [x|] eqn:Hx; [|done].
      by destruct (session_ok_lookup c sid Hc _ _ Hx) as (_ & _ & ?).
    + rewrite (Hf Hr). by constructor.
  - pose proof (Session_UnloadModel_ok sid h c Hc Hl) as Hs.
    destruct (Session_UnloadModel sid h c) as [r c']. cbn [fst snd]. destruct Hs as [Hk Ho].
    split; [done|]. destruct Ho as [->|[Hr ->]]; by constructor.
  - pose proof (with_model_update sid h Model_Start c LOADED ACTIVE) as Hs.
    unfold Session_Start. destruct (with_model _ _ _ _) as [r c']. cbn [fst snd].
    destruct Hs as (Hk & Ho & Hf); [apply Model_Start_hal|apply Model_Start_out|done..|].
    split; [done|]. destruct (decide (r = 0)) as [->|Hr].
    + destruct (Ho eq_refl) as [? ->]. by constructor.
    + rewrite (Hf Hr). by constructor.
  - pose proof (with_model_update sid h Model_Stop c ACTIVE LOADED) as Hs.
    unfold Session_Stop. destruct (with_model _ _ _ _) as [r c']. cbn [fst snd].
    destruct Hs as (Hk & Ho & Hf); [apply Model_Stop_hal|apply Model_Stop_out|done..|].
    split; [done|]. destruct (decide (r = 0)) as [->|Hr].
    + destruct (Ho eq_refl) as [? ->]. by constructor.
    + rewrite (Hf Hr). by constructor.
  - destruct (tasks_ok sid (λ q, if decide (length q < MAX_RECOGNITION_EVENT_NUM)%nat
                                 then q ++ [h] else q) c Hc Hl) as [Hk Hv].
    split; [exact Hk|]. rewrite <- Hv. constructor.
  - pose proof (worker_turn_ok sid c Hc Hl) as Hw. by destruct (worker_turn sid c).
Qed.

Lemma exec_all_ok sid cmds c :
  conn_ok c → (sid < length (activeSessions_ c))%nat →
  let '(os, c') := exec_all sid cmds c in
  conn_keep c c' sid ∧ abs_steps (conn_view c sid) os (conn_view c' sid).
Proof.
  revert c. induction cmds as [|cmd cmds IH]; intros c Hc Hl; simpl.
  { split; [by apply conn_keep_refl|constructor]. }
  rewrite bind_run. pose proof (exec_ok sid cmd c Hc Hl) as He.
  destruct (exec sid cmd c) as [o c1]. cbn [fst snd]. destruct He as [(Ha & Hb & Hd) Hs].
  rewrite bind_run. specialize (IH c1 Ha Hb). destruct (exec_all sid cmds c1) as [os c2].
  cbn [fst snd mret st_ret]. destruct IH as [(Ha' & Hb' & Hd') Hss].
  split; [split; [done|split; [done|set_solver]]|]. by econstructor.
Qed.

(** Each callback consumes the start of its model. *)
Lemma abs_callbacks_le_starts h v os v' :
  abs_steps v os v' →
  (callbacks h os + (if decide (v' !! h = Some ACTIVE) then 1 else 0) ≤
   starts h os + (if decide (v !! h = Some ACTIVE) then 1 else 0))%nat.
Proof.
  unfold callbacks, starts. induction 1 as [|v o v1 os v2 Hs _ IH]; [done|].
  rewrite !filter_cons.
  inversion Hs; subst; rewrite ?lookup_insert, ?lookup_delete in IH;
    repeat case_decide; simplify_eq; simpl in *; try lia; congruence.
Qed.

(** The queue of recognition events stays within its capacity. *)
Definition queue_bounded c (sid : nat) : Prop :=
  (length (tasks (session c sid)) ≤ MAX_RECOGNITION_EVENT_NUM)%nat.

Lemma on_session_tasks sid f c :
  tasks (session (on_session sid f c).2 sid) = tasks (session c sid) ∨
  tasks (session (on_session sid f c).2 sid) = tasks (f (session c sid)).
Proof.
  unfold session. simpl. rewrite list_lookup_alter_eq.
  destruct (activeSessions_ c !! sid); simpl; auto.
Qed.

Lemma hal_session_tasks {A} (f : St (TriggerConnector H) A) (k : TriggerSession → TriggerSession) c sid :
  hal_only f → (∀ s, tasks (k s) = tasks s) →
  tasks (session (on_session sid k (f c).2).2 sid) = tasks (session c sid).
Proof.
  intros Hf Hk. destruct (on_session_tasks sid k (f c).2) as [->| ->]; rewrite ?Hk;
    by rewrite hal_only_session.
Qed.

Lemma with_model_tasks sid h (k : Model → St (TriggerConnector H) Z) c :
  (∀ md, tasks (session (k md c).2 sid) = tasks (session c sid)) →
  tasks (session (with_model sid h k c).2 sid) = tasks (session c sid).
Proof.
  intros Hk. unfold with_model. rewrite bind_run. cbn [st_get fst snd].
  destruct (adapter_ c); [|done]. cbn [negb]. by destruct (find_model c sid h).
Qed.

Lemma exec_queue_bounded sid cmd c :
  queue_bounded c sid → queue_bounded (exec sid cmd c).2 sid.
Proof.
  unfold queue_bounded. intros Hq. destruct cmd as [md|h|h|h|h|]; unfold exec; rewrite bind_run; cbn [mret st_ret fst snd].
  - unfold Session_LoadModel. rewrite bind_run. cbn [st_get fst snd].
    destruct (adapter_ c); [|done]. cbn [negb]. rewrite bind_run.
    pose proof (Model_Load_hal md (mkConnModel 0 IDLE)) as Hh.
    destruct (negb _); [simpl; by rewrite hal_only_session|].
    cbv zeta. rewrite bind_run. cbn [mret st_ret snd]. by rewrite hal_session_tasks.
  - unfold Session_UnloadModel. rewrite with_model_tasks; [done|]. intros md. rewrite !bind_run.
    cbn [mret st_ret snd]. by rewrite hal_session_tasks by (done || apply Model_Unload_hal).
  - unfold Session_Start. rewrite with_model_tasks; [done|]. intros md. rewrite !bind_run.
    cbn [mret st_ret snd]. by rewrite hal_session_tasks by (done || apply Model_Start_hal).
  - unfold Session_Stop. rewrite with_model_tasks; [done|]. intros md. rewrite !bind_run.
    cbn [mret st_ret snd]. by rewrite hal_session_tasks by (done || apply Model_Stop_hal).
  - unfold HandleRecognitionHdiEvent.
    match goal with |- context [on_session _ ?f _] =>
      destruct (on_session_tasks sid f c) as [->| ->] end; [done|].
    cbn. case_decide; [rewrite length_app; simpl; lia|done].
  - unfold worker_turn. rewrite bind_run. cbn [st_get fst snd].
    destruct (tasks (session c sid)) as [|h q] eqn:Ht; [cbn [mret st_ret fst snd]; rewrite Ht; simpl; lia|]. rewrite !bind_run.
    match goal with |- context [on_session sid ?f c] => set (c1 := (on_session sid f c).2) end.
    assert ((length (tasks (session c1 sid)) ≤ MAX_RECOGNITION_EVENT_NUM)%nat) as H1.
    { unfold c1. destruct (on_session_tasks sid (λ s, s <| tasks := q |>) c) as [->| ->]; simpl;
        rewrite ?Ht; simpl in *; lia. }
    clearbody c1. cbn [mret st_ret snd]. unfold ProcessRecognitionHdiEvent. rewrite bind_run.
    cbn [st_get fst snd]. destruct (find_model c1 sid h); [|done]. case_decide; [done|].
    rewrite bind_run. cbn [mret st_ret snd].
    match goal with |- context [on_session _ ?f _] =>
      destruct (on_session_tasks sid f c1) as [->| ->] end; done.
Qed.

End laws.

(** ** A reference HAL

    A HAL that numbers the models it loads from 1 on; its fields switch the
    version 1.1 interface, its availability and the failures of the adapter's
    calls.  It satisfies the laws above. *)
Record RefHal := mkRefHal {
  rh_loads : nat; rh_up : bool; rh_v11 : bool; rh_start_fails : bool; rh_stop_fails : bool }.
#[global] Instance RefHal_eta : Eta RefHal :=
  λ h, mkRefHal (rh_loads h) (rh_up h) (rh_v11 h) (rh_start_fails h) (rh_stop_fails h).

#[global] Instance ref_hal : TriggerHal RefHal := {|
  hal_Get := st_gets rh_up;
  hal_GetVersion := st_gets (λ h, (1, if rh_v11 h then 1 else 0));
  hal_CastV1_1 := mret true;
  hal_LoadAdapter _ := mret true;
  hal_LoadAdapterV1_1 _ := mret true;
  hal_UnloadAdapter _ := mret ();
  hal_Ashmem _ := mret true;
  hal_LoadModel _ _ _ := λ h, ((0, Z.of_nat (S (rh_loads h))), h <| rh_loads ::= S |>);
  hal_UnloadModel _ := mret 0;
  hal_Start _ := st_gets (λ h, if rh_start_fails h then -1 else 0);
  hal_Stop _ := st_gets (λ h, if rh_stop_fails h then -1 else 0);
  hal_SetParams _ _ := mret 0;
  hal_GetParams key :=
    mret (0, if bool_decide (key = "audio_hal_status"%string) then "true"%string else EmptyString) |}.

(** The handles 0 to [n]. *)
Definition handles (n : nat) : gset Z := list_to_set (Z.of_nat <$> seq 0 (S n)).
#[global] Arguments handles : simpl never.

Lemma elem_of_handles x n : x ∈ handles n ↔ 0 ≤ x ≤ Z.of_nat n.
Proof.
  unfold handles. rewrite elem_of_list_to_set, list_elem_of_fmap. setoid_rewrite elem_of_seq. split.
  - intros (y & -> & ?). lia.
  - intros ?. exists (Z.to_nat x). lia.
Qed.

#[global] Instance ref_hal_laws : TriggerHalLaws RefHal.
Proof.
  refine {| hal_used h := handles (rh_loads h) |}; try done.
  - intros h. apply elem_of_handles. lia.
  - intros d t u h. cbn. split.
    + intros x ?%elem_of_handles. apply elem_of_handles. simpl. lia.
    + intros _. split; [|apply elem_of_handles; simpl; lia].
      intros ?%elem_of_handles. lia.
Defined.

(** The models of the witnesses, and a connector with one open session. *)
Definition wake_model : GenericTriggerModel := mkModel 1 (-1) 1 VOICE_WAKEUP_TYPE [1; 2; 3].
Definition whisper_model : GenericTriggerModel := mkModel 2 (-1) 2 PROXIMAL_WAKEUP_TYPE [4; 5].
Definition ref_connector : TriggerConnector RefHal :=
  (GetModule true (new_connector 9 (mkRefHal 0 true true false false) "primary")).2.

Lemma ref_connector_ok : conn_ok ref_connector.
Proof. apply Forall_singleton. intros h md. simpl. by rewrite lookup_empty. Qed.

(** ** Properties *)

(** C6: whatever sequence of loads, unloads, starts, stops, HAL
    events and worker turns a session goes through, its observable results are a
    trace of the session contract: handles are fresh, only loaded models start,
    only active models stop or are called back, and failed calls (unload apart)
    change nothing. *)
Theorem session_refines {H} `{!TriggerHal H} `{!TriggerHalLaws H} sid cmds (c : TriggerConnector H) :
  conn_ok c → (sid < length (activeSessions_ c))%nat →
  abs_steps (conn_view c sid) (exec_all sid cmds c).1 (conn_view (exec_all sid cmds c).2 sid) ∧
  conn_ok (exec_all sid cmds c).2.
Proof.
  intros Hc Hl. pose proof (exec_all_ok sid cmds c Hc Hl) as He.
  destruct (exec_all sid cmds c) as [os c']. destruct He as [(? & _) ?]. done.
Qed.

Definition ref_cmds : list SessCmd :=
  [CmdLoad wake_model; CmdStart 1; CmdHalEvent 1; CmdHalEvent 1; CmdTurn; CmdTurn; CmdStart 1;
   CmdStop 1; CmdUnload 1; CmdStart 1].

Lemma session_refines_witness :
  (exec_all 0 ref_cmds ref_connector).1 =
    [ObsLoad 0 1; ObsStart 1 0; ObsHalEvent 1; ObsHalEvent 1; ObsTurn (Some 1); ObsTurn None;
     ObsStart 1 0; ObsStop 1 0; ObsUnload 1 0; ObsStart 1 (-1)] ∧
  abs_steps (conn_view ref_connector 0) (exec_all 0 ref_cmds ref_connector).1
            (conn_view (exec_all 0 ref_cmds ref_connector).2 0) ∧
  conn_ok (exec_all 0 ref_cmds ref_connector).2.
Proof.
  split; [vm_compute; reflexivity|].
  apply (session_refines 0 ref_cmds ref_connector ref_connector_ok). vm_compute. lia.
Defined.

(** C37: a model that is not active at the beginning gets at most one
    recognition callback per successful start, however many HAL events arrive. *)
Theorem one_callback_per_start {H} `{!TriggerHal H} `{!TriggerHalLaws H} sid cmds h
    (c : TriggerConnector H) :
  conn_ok c → (sid < length (activeSessions_ c))%nat → conn_view c sid !! h ≠ Some ACTIVE →
  (callbacks h (exec_all sid cmds c).1 ≤ starts h (exec_all sid cmds c).1)%nat.
Proof.
  intros Hc Hl Hn. pose proof (exec_all_ok sid cmds c Hc Hl) as He.
  destruct (exec_all sid cmds c) as [os c']. destruct He as [_ Ha].
  apply (abs_callbacks_le_starts h) in Ha. simpl. repeat case_decide; try done; lia.
Qed.

Lemma one_callback_per_start_witness :
  callbacks 1 (exec_all 0 ref_cmds ref_connector).1 = 1%nat ∧
  (callbacks 1 (exec_all 0 ref_cmds ref_connector).1 ≤
   starts 1 (exec_all 0 ref_cmds ref_connector).1)%nat.
Proof.
  split; [vm_compute; reflexivity|].
  apply (one_callback_per_start 0 ref_cmds 1 ref_connector ref_connector_ok); [vm_compute; lia|].
  vm_compute. discriminate.
Defined.

(** The queue of recognition events never exceeds
    [MAX_RECOGNITION_EVENT_NUM], whatever the HAL and the helper do. *)
Theorem event_queue_bounded {H} `{!TriggerHal H} `{!TriggerHalLaws H} sid cmds
    (c : TriggerConnector H) :
  queue_bounded c sid → queue_bounded (exec_all sid cmds c).2 sid.
Proof.
  revert c. induction cmds as [|cmd cmds IH]; intros c Hq; [done|].
  simpl. rewrite !bind_run. simpl. by apply IH, exec_queue_bounded.
Qed.

Lemma event_queue_bounded_witness :
  queue_bounded (exec_all 0 (replicate 300 (CmdHalEvent 1)) ref_connector).2 0 ∧
  length (tasks (session (exec_all 0 (replicate 300 (CmdHalEvent 1)) ref_connector).2 0)) = 200%nat.
Proof.
  split; [|vm_compute; reflexivity].
  apply (event_queue_bounded 0 (replicate 300 (CmdHalEvent 1)) ref_connector). vm_compute. lia.
Defined.

(** The adapter is missing; service state, callback count and sessions are those of [c0]. *)
Definition no_adapter {H} (c0 c : TriggerConnector H) : Prop :=
  adapter_ c = false ∧ serviceState_ c = serviceState_ c0 ∧ cbCalls c = cbCalls c0 ∧
  activeSessions_ c = activeSessions_ c0.

Lemma call_no_adapter {H} {A} (f : St H A) c0 :
  ⟪ no_adapter c0 ⟫ call f ⟪ λ _, no_adapter c0 ⟫.
Proof. intros c Hc. unfold call. by destruct (f (hal c)). Qed.

Lemma LoadHdiAdapter_fail {H} `{!TriggerHal H} c0 :
  ⟪ no_adapter c0 ⟫ LoadHdiAdapter ⟪ λ ok c, ok = false → no_adapter (H := H) c0 c ⟫.
Proof.
  unfold LoadHdiAdapter. apply (hoare_bind _ _ (λ _, no_adapter c0)).
  - unfold Init. keeps; first [apply call_no_adapter | by apply hoare_modify].
  - intros ok. destruct ok; cbn [negb]; [|by apply hoare_ret].
    unfold LoadTriggerAdapter. apply hoare_get_bind. intros c.
    destruct (triggerHostProxy_ c); cbn [negb]; [|by apply hoare_ret].
    destruct (triggerHostProxyV1_1_ c); (eapply hoare_bind; [apply call_no_adapter|]); intros [].
    all: intros c' (Hc1 & Hc2 & Hc3 & Hc4); rewrite bind_run; cbn; try rewrite bind_run; cbn.
    all: by intros; try split_and!.
Qed.

(** When the adapter cannot be obtained, [GetModule] fails without
    creating a session, and the next start notification of the HAL service calls
    the service-start callback exactly once, also when it is repeated. *)
Theorem failed_GetModule_is_retried {H} `{!TriggerHal H} (c : TriggerConnector H) start :
  adapter_ c = false → (GetModule true c).1 = None → serviceState_ c ≠ start →
  let c1 := (GetModule true c).2 in
  let notify := OnReceive start INTELL_VOICE_TRIGGER_SERVICE start in
  activeSessions_ c1 = activeSessions_ c ∧ cbCalls c1 = cbCalls c ∧
  cbCalls (notify c1).2 = S (cbCalls c) ∧ (notify (notify c1).2).2 = (notify c1).2.
Proof.
  intros Ha Hg Hs. unfold GetModule in *. cbn [negb] in *. rewrite !bind_run in *.
  cbn [st_get fst snd] in *. rewrite Ha in *.
  pose proof (LoadHdiAdapter_fail c c) as Hf.
  destruct (LoadHdiAdapter c) as [ok c']. cbn [fst snd] in *. destruct ok; [done|].
  cbn [negb] in *. rewrite bind_run. cbn [mret st_ret fst snd].
  destruct (Hf ltac:(done) eq_refl) as (H1 & H2 & H3 & H4). unfold OnReceive. rewrite bool_decide_true by done.
  cbn [negb]. split; [done|]. split; [done|]. rewrite !bind_run. cbn [st_get st_modify fst snd].
  simpl. rewrite H2. destruct (Z.eqb_spec start (serviceState_ c)); [congruence|].
  rewrite bind_run. cbn. rewrite Z.eqb_refl, H1. cbn. rewrite H3, Z.eqb_refl. done.
Qed.

Lemma failed_GetModule_is_retried_witness :
  let c := new_connector 9 (mkRefHal 0 false true false false) "primary" in
  cbCalls (OnReceive 0 INTELL_VOICE_TRIGGER_SERVICE 0 (GetModule true c).2).2 = 1%nat.
Proof.
  destruct (failed_GetModule_is_retried
    (new_connector 9 (mkRefHal 0 false true false false) "primary") 0) as (_ & _ & H & _);
    [reflexivity|reflexivity|vm_compute; discriminate|exact H].
Defined.
