(* ===== verification/TriggerHelper.v ===== *)
(** * The trigger helper

    [trigger_helper.h] and [trigger_helper.cpp]: for every model uuid the helper
    remembers the model, its callback, its handle in the connector and whether
    recognition is requested, and it starts and stops recognition as the call,
    capture, audio-scene and hibernation states change.

    Every operation below runs under the helper's [mutex_].  The build switches
    of the sources are the fields of [Env]; so are the reads of files and of the
    key-value store, which are outside the repository.  A [TriggerModelData]
    pointer is named by the uuid it is stored under ([modelDataMap_] owns the
    objects, [CreateTriggerModelData] never stores null).  [out] is the sequence
    of calls the helper makes to the outside. *)

From S2P Require Import Prelude TriggerTypes Connector.

(** [AudioScene] and [FoldStatus] belong to the audio and window frameworks; the
    enumerators the code names are constructors. *)
Inductive AudioScene :=
| AUDIO_SCENE_DEFAULT | AUDIO_SCENE_RINGING | AUDIO_SCENE_PHONE_CALL | AUDIO_SCENE_PHONE_CHAT
| AUDIO_SCENE_OTHER (n : Z).
Inductive FoldStatus := FOLD_UNKNOWN | FOLD_EXPAND | FOLD_FOLDED | FOLD_HALF_FOLD | FOLD_OTHER (n : Z).

#[global] Instance AudioScene_eq_dec : EqDecision AudioScene.
Proof. solve_decision. Defined.
#[global] Instance FoldStatus_eq_dec : EqDecision FoldStatus.
Proof. solve_decision. Defined.

(** Calls to the outside: the wakeup tracker, the hibernation delay, the
    recognition callback, the model data base, the audio effect parameter and
    the parameters sent to the connector module. *)
Inductive HelperEvent :=
| EvReportStatus (opened : bool)
| EvSleep (ms : Z)
| EvDetected (callback : nat) (modelHandle : Z)
| EvDbUpdate (model : GenericTriggerModel)
| EvInputGain (gain : Z)
| EvSetParams (key value : string).

(** The build switches and the outside values the helper reads. *)
Record Env := mkEnv {
  SUPPORT_RECORD_WAKEUP_CONCURRENT : bool;
  SUPPORT_WINDOW_MANAGER : bool;
  ONLY_FIRST_STAGE : bool;
  (** [HistoryInfoMgr::GetStringKVPair(KEY_COUNTRY_INFO_NAME)]. *)
  env_country : string;
  (** [IntellVoiceUtil::ReadFile] of the whisper model, for the folded or the
      unfolded device. *)
  env_whisper_file : bool → option (list Z) }.

(** The scene state [IsConflictSceneActive] reads. *)
Record Scene := mkScene {
  callActive_ : bool; systemHibernate_ : bool; audioCaptureActive_ : bool;
  audioScene_ : AudioScene;
  audioConcurrentCapture_ : bool; mVoipConcurrency_ : bool; mCallConcurrency_ : bool }.
#[global] Instance Scene_eta : Eta Scene :=
  λ s, mkScene (callActive_ s) (systemHibernate_ s) (audioCaptureActive_ s) (audioScene_ s)
         (audioConcurrentCapture_ s) (mVoipConcurrency_ s) (mCallConcurrency_ s).

(** The member initialisers of the scene state. *)
Definition init_scene : Scene := mkScene false false false AUDIO_SCENE_DEFAULT true false false.

(** [class TriggerHelper]: the connector, the module obtained from it, the model
    data, the scene and the fold status. *)
Record TriggerHelper (M : Type) := mkHelper {
  conn : M; module_ : option nat; modelDataMap_ : gmap Z TriggerModelData;
  scene : Scene; isFoldable_ : bool; curFoldStatus_ : FoldStatus; out : list HelperEvent }.
Arguments mkHelper {M} _ _ _ _ _ _ _.
Arguments conn {M} _.
Arguments module_ {M} _.
Arguments modelDataMap_ {M} _.
Arguments scene {M} _.
Arguments isFoldable_ {M} _.
Arguments curFoldStatus_ {M} _.
Arguments out {M} _.
#[global] Instance TriggerHelper_eta M : Eta (TriggerHelper M) :=
  λ s, mkHelper (conn s) (module_ s) (modelDataMap_ s) (scene s) (isFoldable_ s)
         (curFoldStatus_ s) (out s).

(** [TriggerHelper::Create]. *)
Definition Create {M} (m : M) : TriggerHelper M :=
  mkHelper m None ∅ init_scene false FOLD_UNKNOWN [].

Definition HIBERNATE_WAIT_TIME : Z := 500.
Definition DEFAULT_WAKEUP_INPUT_GAIN : Z := 10.
Definition MX_WAKEUP_INPUT_GAIN : Z := 22.

(** [IsConflictSceneActive]. *)
Definition IsConflictSceneActive (E : Env) (s : Scene) : bool :=
  let scene_is x := bool_decide (audioScene_ s = x) in
  if SUPPORT_RECORD_WAKEUP_CONCURRENT E then
    if mVoipConcurrency_ s && negb (mCallConcurrency_ s) then
      systemHibernate_ s ||
      (negb (scene_is AUDIO_SCENE_DEFAULT) && negb (scene_is AUDIO_SCENE_PHONE_CHAT) &&
       negb (scene_is AUDIO_SCENE_RINGING)) ||
      (negb (audioConcurrentCapture_ s) && audioCaptureActive_ s)
    else if mVoipConcurrency_ s && mCallConcurrency_ s then
      systemHibernate_ s ||
      (negb (scene_is AUDIO_SCENE_DEFAULT) && negb (scene_is AUDIO_SCENE_PHONE_CHAT) &&
       negb (scene_is AUDIO_SCENE_PHONE_CALL) && negb (scene_is AUDIO_SCENE_RINGING)) ||
      (negb (audioConcurrentCapture_ s) && audioCaptureActive_ s)
    else
      callActive_ s || systemHibernate_ s || negb (scene_is AUDIO_SCENE_DEFAULT) ||
      (negb (audioConcurrentCapture_ s) && audioCaptureActive_ s)
  else
    callActive_ s || audioCaptureActive_ s || systemHibernate_ s ||
    negb (scene_is AUDIO_SCENE_DEFAULT).

Section helper.
Context (E : Env) {M : Type} `{!ConnectorModule M}.
Abbreviation HM := (St (TriggerHelper M)).

Definition emit (e : HelperEvent) : HM unit := st_modify (λ s, s <| out ::= λ l, l ++ [e] |>).

(** A call on the connector. *)
Definition on_conn {A} (f : St M A) : HM A := λ s,
  let '(a, m) := f (conn s) in (a, s <| conn := m |>).

(** Access through a model-data pointer. *)
Definition get_data (uuid : Z) : HM (option TriggerModelData) :=
  st_gets (λ s, modelDataMap_ s !! uuid).
Definition on_data (uuid : Z) (f : TriggerModelData → TriggerModelData) : HM unit :=
  st_modify (λ s, s <| modelDataMap_ ::= alter f uuid |>).
Definition SetState (uuid : Z) (st : ModelState) : HM unit :=
  on_data uuid (λ d, d <| state_ := st |>).

(** [GetModule]: the module of the first connector descriptor, obtained once. *)
Definition GetModule : HM bool :=
  m ← st_gets module_;
  match m with
  | Some _ => mret true
  | None =>
    descs ← on_conn cm_ListModuleDescriptors;
    match descs with
    | [] => mret false
    | adapterName :: _ =>
      r ← on_conn (cm_GetModule adapterName);
      _ ← st_modify (λ s, s <| module_ := r |>);
      mret (match r with Some _ => true | None => false end)
    end
  end.

(** [SetParameter], [SetParameterForInputPipe]: the parameter goes to the module. *)
Definition SetParameter (key value : string) : HM Z :=
  ok ← GetModule;
  if negb (ok : bool) then mret (-1) else
  m ← st_gets module_;
  match m with
  | None => mret (-1)
  | Some sid => _ ← emit (EvSetParams key value); on_conn (cm_SetParams sid key value)
  end.

(** [LoadModel]. *)
Definition LoadModel (uuid : Z) : HM Z :=
  d ← get_data uuid;
  match d with
  | None => mret (-1)
  | Some d =>
    if decide (state_ d ≠ MODEL_NOTLOADED) then mret 0 else
    m ← st_gets module_;
    match m with
    | None => mret (-1)
    | Some sid =>
      r ← on_conn (cm_LoadModel sid (model_ d));
      if negb (r.1 =? 0) then mret r.1 else
      _ ← on_data uuid (λ d, d <| modelHandle_ := r.2 |>);
      _ ← SetState uuid MODEL_LOADED;
      mret r.1
    end
  end.

(** [UnloadModel]. *)
Definition UnloadModel (uuid : Z) : HM Z :=
  d ← get_data uuid;
  match d with
  | None => mret (-1)
  | Some d =>
    if decide (state_ d ≠ MODEL_LOADED) then mret 0 else
    m ← st_gets module_;
    match m with
    | None => mret (-1)
    | Some sid =>
      r ← on_conn (cm_UnloadModel sid (modelHandle_ d));
      _ ← SetState uuid MODEL_NOTLOADED;
      mret r
    end
  end.

(** [StopRecognition]. *)
Definition StopRecognition (uuid : Z) : HM Z :=
  d ← get_data uuid;
  match d with
  | None => mret (-1)
  | Some d =>
    if decide (state_ d ≠ MODEL_STARTED) then mret 0 else
    m ← st_gets module_;
    match m with
    | None => mret (-1)
    | Some sid =>
      r ← on_conn (cm_Stop sid (modelHandle_ d));
      if negb (r =? 0) then mret r else
      _ ← SetState uuid MODEL_LOADED;
      mret r
    end
  end.

(** ** Fold status ([SUPPORT_WINDOW_MANAGER]) *)

(** [ReadWhisperModel]. *)
Definition ReadWhisperModel (fold : FoldStatus) : option GenericTriggerModel :=
  buffer ← env_whisper_file E (bool_decide (fold = FOLD_FOLDED));
  Some (SetData buffer
          (new_model PROXIMAL_WAKEUP_MODEL_UUID MODLE_VERSION_2 PROXIMAL_WAKEUP_TYPE)).1.2.

(** [ReLoadWhisperModel]. *)
Definition ReLoadWhisperModel (uuid : Z) : HM unit :=
  d ← get_data uuid;
  match d with
  | None => mret ()
  | Some d =>
    if negb (uuid_ d =? PROXIMAL_WAKEUP_MODEL_UUID) then mret () else
    fold ← st_gets curFoldStatus_;
    match ReadWhisperModel fold with
    | None => mret ()
    | Some model =>
      _ ← emit (EvDbUpdate model);
      if SameModel (Some model) d then mret () else
      _ ← UnloadModel uuid;
      _ ← on_data uuid (SetModel (Some model));
      st_void (LoadModel uuid)
    end
  end.

(** [SetFoldStatus]. *)
Definition SetFoldStatus : HM unit :=
  fold ← st_gets curFoldStatus_;
  st_void (SetParameter "is_folded" (if bool_decide (fold = FOLD_FOLDED) then "true" else "false")).

(** [FoldStatusOperation]: the first model of the map also sends the status. *)
Definition FoldStatusOperation (uuid : Z) : HM unit :=
  foldable ← st_gets isFoldable_;
  if negb (foldable : bool) then mret () else
  _ ← ReLoadWhisperModel uuid;
  s ← st_get;
  match modelDataMap_ s !! uuid, map_order (modelDataMap_ s) with
  | Some d, first :: _ =>
    match modelDataMap_ s !! first with
    | Some fd => st_when (uuid_ fd =? uuid_ d) SetFoldStatus
    | None => mret ()
    end
  | _, _ => mret ()
  end.

(** [HandleWakeupInputGain] ([ONLY_FIRST_STAGE]). *)
Definition HandleWakeupInputGain : HM unit :=
  emit (EvInputGain (if bool_decide (env_country E = "MX"%string)
                     then MX_WAKEUP_INPUT_GAIN else DEFAULT_WAKEUP_INPUT_GAIN)).

(** [StartRecognition]. *)
Definition StartRecognition (uuid : Z) : HM Z :=
  d ← get_data uuid;
  match d with
  | None => mret (-1)
  | Some d =>
    if decide (state_ d ≠ MODEL_LOADED) then mret 0 else
    m ← st_gets module_;
    match m with
    | None => mret (-1)
    | Some sid =>
      _ ← st_when (SUPPORT_WINDOW_MANAGER E) (FoldStatusOperation uuid);
      _ ← st_when (ONLY_FIRST_STAGE E) HandleWakeupInputGain;
      h ← st_gets (λ s, from_option modelHandle_ 0 (modelDataMap_ s !! uuid));
      r ← on_conn (cm_Start sid h);
      if negb (r =? 0) then mret r else
      _ ← SetState uuid MODEL_STARTED;
      mret r
    end
  end.

(** [InitRecognition]. *)
Definition InitRecognition (uuid : Z) (unload : bool) : HM Z :=
  d ← get_data uuid;
  if bool_decide (state_ <$> d = Some MODEL_NOTLOADED) then mret 0 else
  ret ← StopRecognition uuid;
  if unload then
    ret ← UnloadModel uuid;
    _ ← on_data uuid ClearData;
    mret ret
  else mret ret.

(** [PrepareForRecognition]. *)
Definition PrepareForRecognition (uuid : Z) : HM Z :=
  ok ← GetModule;
  if negb (ok : bool) then mret (-1) else
  r ← LoadModel uuid;
  if negb (r =? 0) then mret (-1) else mret 0.

(** [CreateTriggerModelData]: [std::map::insert]; it is called for an absent uuid. *)
Definition CreateTriggerModelData (uuid : Z) : HM unit :=
  st_modify (λ s, s <| modelDataMap_ ::= <[uuid := new_model_data uuid]> |>).

(** [StartGenericRecognition]; the model is not null. *)
Definition StartGenericRecognition (uuid : Z) (model : GenericTriggerModel) (callback : option nat)
    : HM Z :=
  d ← get_data uuid;
  _ ← (match d with None => CreateTriggerModelData uuid | Some _ => mret () end);
  d ← get_data uuid;
  let unload := negb (from_option (SameModel (Some model)) false d) in
  ret ← InitRecognition uuid unload;
  if negb (ret =? 0) then mret (-1) else
  _ ← on_data uuid (SetModel (Some model));
  _ ← on_data uuid (SetCallback callback);
  _ ← on_data uuid (λ d, d <| requested_ := true |>);
  sc ← st_gets scene;
  if IsConflictSceneActive E sc then mret 0 else
  ret ← PrepareForRecognition uuid;
  if negb (ret =? 0) then mret ret else
  StartRecognition uuid.

(** [StopGenericRecognition]. *)
Definition StopGenericRecognition (uuid : Z) : HM Z :=
  d ← get_data uuid;
  match d with
  | None => mret (-1)
  | Some _ =>
    _ ← on_data uuid (λ d, d <| requested_ := false |>);
    ret ← StopRecognition uuid;
    if negb (ret =? 0) then mret ret else
    _ ← on_data uuid ClearCallback;
    mret ret
  end.

(** [UnloadGenericTriggerModel]. *)
Definition UnloadGenericTriggerModel (uuid : Z) : HM unit :=
  d ← get_data uuid;
  match d with
  | None => mret ()
  | Some d =>
    if decide (state_ d = MODEL_NOTLOADED) then mret () else
    _ ← StopRecognition uuid;
    _ ← UnloadModel uuid;
    st_modify (λ s, s <| modelDataMap_ ::= delete uuid |>)
  end.

(** [GetParameter]. *)
Definition GetFoldStatusInfo : HM string :=
  s ← st_get;
  mret ((if isFoldable_ s then "is_foldable=true" else "is_foldable=false") +:+ ";" +:+
        (if bool_decide (curFoldStatus_ s = FOLD_FOLDED) then "fold_status=fold"
         else "fold_status=expand"))%string.

Definition GetParameter (key : string) : HM string :=
  ok ← GetModule;
  if negb (ok : bool) then mret EmptyString else
  if SUPPORT_WINDOW_MANAGER E && bool_decide (key = "fold_status_info"%string)
  then GetFoldStatusInfo
  else
    m ← st_gets module_;
    match m with
    | None => mret EmptyString
    | Some sid =>
      r ← on_conn (cm_GetParams sid key);
      mret (if r.1 =? 0 then r.2 else EmptyString)
    end.

(** [OnRecognition]: the first model, in uuid order, with the event's handle. *)
Fixpoint find_handle (l : list Z) (mm : gmap Z TriggerModelData) (modelHandle : Z) : option Z :=
  match l with
  | [] => None
  | u :: l' =>
    match mm !! u with
    | Some d => if modelHandle_ d =? modelHandle then Some u else find_handle l' mm modelHandle
    | None => find_handle l' mm modelHandle
    end
  end.

Definition OnRecognition (modelHandle : Z) : HM unit :=
  s ← st_get;
  match find_handle (map_order (modelDataMap_ s)) (modelDataMap_ s) modelHandle with
  | None => mret ()
  | Some u =>
    _ ← SetState u MODEL_LOADED;
    d ← get_data u;
    match d ≫= callback_ with
    | None => mret ()
    | Some cb => emit (EvDetected cb modelHandle)
    end
  end.

(** ** Reactions to scene changes *)

(** The body of the loop of [OnUpdateAllRecognitionState]; [true] leaves it. *)
Definition update_one (uuid : Z) : HM bool :=
  d ← get_data uuid;
  match d with
  | None => mret false
  | Some d =>
    sc ← st_gets scene;
    let needStart := requested_ d && negb (IsConflictSceneActive E sc) in
    if Bool.eqb needStart (bool_decide (state_ d = MODEL_STARTED)) then mret false
    else if needStart then
      r ← PrepareForRecognition uuid;
      if negb (r =? 0) then mret true else
      _ ← emit (EvReportStatus true);
      _ ← StartRecognition uuid;
      mret false
    else
      _ ← emit (EvReportStatus false);
      _ ← StopRecognition uuid;
      if systemHibernate_ sc then
        _ ← UnloadModel uuid;
        _ ← emit (EvSleep HIBERNATE_WAIT_TIME);
        mret false
      else mret false
  end.

Definition OnUpdateAllRecognitionState : HM unit :=
  s ← st_get; st_for (map_order (modelDataMap_ s)) update_one.

Definition on_scene (f : Scene → Scene) : HM unit := st_modify (λ s, s <| scene ::= f |>).

(** [OnCallStateUpdated] up to the release of [mutex_]: [unknown], [idle] and
    [disconnected] are the enumerators of [TelCallState].  The result tells
    whether the function goes on. *)
Definition OnCallStateUpdated_locked (unknown idle disconnected : Z) (callState : Z) : HM bool :=
  if (callState <? unknown) || (idle <? callState) then mret false else
  let cur := negb (callState =? disconnected) && negb (callState =? idle) &&
             negb (callState =? unknown) in
  sc ← st_gets scene;
  if Bool.eqb (callActive_ sc) cur then mret false else
  _ ← on_scene (λ sc, sc <| callActive_ := cur |>);
  _ ← OnUpdateAllRecognitionState;
  mret true.

(** [OnAudioSceneChange] up to the release of [mutex_]. *)
Definition OnAudioSceneChange_locked (audioScene : AudioScene) : HM bool :=
  sc ← st_gets scene;
  if bool_decide (audioScene_ sc = audioScene) then mret false else
  _ ← on_scene (λ sc, sc <| audioScene_ := audioScene |>);
  _ ← OnUpdateAllRecognitionState;
  mret true.

(** [OnHibernateStateUpdated]. *)
Definition OnHibernateStateUpdated (isHibernate : bool) : HM unit :=
  sc ← st_gets scene;
  if Bool.eqb (systemHibernate_ sc) isHibernate then mret () else
  _ ← on_scene (λ sc, sc <| systemHibernate_ := isHibernate |>);
  OnUpdateAllRecognitionState.

(** [HibernateCallback] and [SleepCallback]. *)
Definition OnSyncHibernate : HM unit := OnHibernateStateUpdated true.
Definition Hibernate_OnSyncWakeup : HM unit := OnHibernateStateUpdated false.
Definition OnSyncSleep (onForceSleep : bool) : HM unit :=
  if negb onForceSleep then mret () else OnHibernateStateUpdated true.
Definition Sleep_OnSyncWakeup (onForceSleep : bool) : HM unit :=
  if negb onForceSleep then mret () else OnHibernateStateUpdated false.

(** [OnCapturerStateChange] (without [SUPPORT_RECORD_WAKEUP_CONCURRENT]). *)
Definition OnCapturerStateChange (isActive : bool) : HM unit :=
  sc ← st_gets scene;
  if Bool.eqb (audioCaptureActive_ sc) isActive then mret () else
  _ ← on_scene (λ sc, sc <| audioCaptureActive_ := isActive |>);
  OnUpdateAllRecognitionState.

(** [StartAllRecognition], [StopAllRecognition], [RestartAllRecognition]. *)
Definition need_start (uuid : Z) : HM bool :=
  s ← st_get;
  mret (from_option requested_ false (modelDataMap_ s !! uuid) &&
        negb (IsConflictSceneActive E (scene s))).

Definition StartAllRecognition : HM unit :=
  s ← st_get;
  st_for (map_order (modelDataMap_ s)) (λ uuid,
    need ← need_start uuid;
    if negb (need : bool) then mret false else
    r ← PrepareForRecognition uuid;
    if negb (r =? 0) then mret true else
    _ ← StartRecognition uuid;
    mret false).

Definition StopAllRecognition : HM unit :=
  s ← st_get;
  st_for (map_order (modelDataMap_ s)) (λ uuid,
    need ← need_start uuid;
    if negb (need : bool) then mret false else
    _ ← StopRecognition uuid;
    mret false).

Definition RestartAllRecognition : HM unit :=
  _ ← StopAllRecognition; StartAllRecognition.

(** [OnFoldStatusChanged]. *)
Definition OnFoldStatusChanged (foldStatus : FoldStatus) : HM unit :=
  let newFoldStatus := if decide (foldStatus = FOLD_HALF_FOLD) then FOLD_EXPAND else foldStatus in
  cur ← st_gets curFoldStatus_;
  if bool_decide (cur = newFoldStatus) then mret () else
  _ ← st_modify (λ s, s <| curFoldStatus_ := newFoldStatus |>);
  RestartAllRecognition.

(** ** Agreement between the helper and the connector

    [pend] is the handle of a recognition event the session has processed and
    whose callback is still to be delivered to the helper.  A started model is
    active in the session (or its event is pending), a loaded model is loaded
    there; handles of different models differ unless they are still 0. *)

Context `{!ConnectorLaws M}.
Implicit Types s : TriggerHelper M.

Definition view s : gmap Z ConnState :=
  match module_ s with Some sid => cm_view (conn s) sid | None => ∅ end.

Definition data_ok (v : gmap Z ConnState) (pend : option Z) (d : TriggerModelData) : Prop :=
  match state_ d with
  | MODEL_STARTED => v !! modelHandle_ d = Some ACTIVE ∨
                     (pend = Some (modelHandle_ d) ∧ v !! modelHandle_ d = Some LOADED)
  | MODEL_LOADED => v !! modelHandle_ d = Some LOADED
  | MODEL_NOTLOADED => True
  end.

Record agree (pend : option Z) s : Prop := {
  ag_wf : cm_wf (conn s);
  ag_valid : ∀ sid, module_ s = Some sid → cm_valid (conn s) sid;
  ag_key : ∀ u d, modelDataMap_ s !! u = Some d → uuid_ d = u;
  ag_used : ∀ u d, modelDataMap_ s !! u = Some d → modelHandle_ d ∈ cm_used (conn s);
  ag_distinct : ∀ u1 u2 d1 d2,
    modelDataMap_ s !! u1 = Some d1 → modelDataMap_ s !! u2 = Some d2 → u1 ≠ u2 →
    modelHandle_ d1 = modelHandle_ d2 → modelHandle_ d1 = 0;
  ag_zero : view s !! 0 = None;
  ag_vused : ∀ k, is_Some (view s !! k) → k ∈ cm_used (conn s);
  ag_data : ∀ u d, modelDataMap_ s !! u = Some d → data_ok (view s) pend d;
  ag_pend : ∀ h, pend = Some h → view s !! h = Some LOADED ∧
    ∀ u d, modelDataMap_ s !! u = Some d → modelHandle_ d = h → state_ d ≠ MODEL_LOADED }.

Lemma data_ok_zero v pend d :
  v !! 0 = None → modelHandle_ d = 0 → data_ok v pend d → state_ d = MODEL_NOTLOADED.
Proof. unfold data_ok. intros Hv ->. rewrite Hv. destruct (state_ d); naive_solver. Qed.

(** A change of one model and of the connector at that model's handle. *)
Lemma agree_step pend s s' u d d' :
  agree pend s → modelDataMap_ s !! u = Some d →
  module_ s' = module_ s → modelDataMap_ s' = <[u := d']> (modelDataMap_ s) →
  cm_wf (conn s') → (∀ sid, module_ s = Some sid → cm_valid (conn s') sid) →
  cm_used (conn s) ⊆ cm_used (conn s') →
  uuid_ d' = uuid_ d →
  (modelHandle_ d' = modelHandle_ d ∨
   (modelHandle_ d' ∉ cm_used (conn s)) ∧ modelHandle_ d' ∈ cm_used (conn s')) →
  (∀ k, k ≠ modelHandle_ d' → view s' !! k = view s !! k) →
  view s' !! 0 = None →
  data_ok (view s') pend d' →
  (pend = Some (modelHandle_ d') →
     view s' !! modelHandle_ d' = Some LOADED ∧ state_ d' ≠ MODEL_LOADED) →
  agree pend s'.
Proof.
  intros Ha Hd Hm Hmap Hw Hv Hu Huu Hh Hview H0 Hok Hp.
  assert (modelHandle_ d' ∈ cm_used (conn s')) as Hin.
  { destruct Hh as [->|[_ ?]]; [|done]. apply Hu. by eapply ag_used. }
  assert (∀ u2 d2, u2 ≠ u → modelDataMap_ s !! u2 = Some d2 →
            modelHandle_ d2 = modelHandle_ d' → modelHandle_ d2 = 0) as Hdist.
  { intros u2 d2 Hne Hd2 Heq. destruct Hh as [Hh|[Hh _]].
    - apply (ag_distinct _ _ Ha u2 u d2 d); try done. congruence.
    - exfalso. apply Hh. rewrite <- Heq. by eapply (ag_used _ _ Ha). }
  constructor; rewrite ?Hm, ?Hmap; try done.
  - intros u2 d2. rewrite lookup_insert. case_decide; intros Hl; simplify_eq;
      [rewrite Huu; by apply (ag_key _ _ Ha)|by apply (ag_key _ _ Ha)].
  - intros u2 d2. rewrite lookup_insert. case_decide; intros Hl; simplify_eq; [done|].
    apply Hu. by eapply (ag_used _ _ Ha).
  - intros u1 u2 d1 d2 H1 H2 Hne Heq. rewrite lookup_insert in H1, H2.
    destruct (decide (u = u1)), (decide (u = u2)); simplify_eq.
    + rewrite Heq. by eapply (Hdist u2).
    + by eapply (Hdist u1).
    + by eapply (ag_distinct _ _ Ha u1 u2).
  - intros k Hk. destruct (decide (k = modelHandle_ d')) as [->|Hne]; [done|].
    rewrite Hview in Hk by done. apply Hu. by apply (ag_vused _ _ Ha).
  - intros u2 d2. rewrite lookup_insert. case_decide; intros Hl; simplify_eq; [done|].
    pose proof (ag_data _ _ Ha _ _ Hl) as Hd2. unfold data_ok in *.
    destruct (decide (modelHandle_ d2 = modelHandle_ d')) as [Heq|Hne].
    + rewrite (data_ok_zero (view s) pend d2); [done|apply Ha|by eapply (Hdist u2)|done].
    + by rewrite Hview.
  - intros h ->. destruct (ag_pend _ _ Ha h eq_refl) as [Hl Hn].
    destruct (decide (h = modelHandle_ d')) as [->|Hne].
    + destruct (Hp eq_refl) as [? ?]. split; [done|]. intros u2 d2. rewrite lookup_insert.
      case_decide; intros ?; simplify_eq; [done|]. by apply (Hn u2).
    + rewrite Hview by done. split; [done|]. intros u2 d2. rewrite lookup_insert.
      case_decide; intros ?; simplify_eq; [|by apply (Hn u2)]. congruence.
Qed.

(** A change of the connector that keeps the view. *)
Lemma agree_same pend s s' :
  agree pend s → modelDataMap_ s' = modelDataMap_ s → view s' = view s →
  cm_wf (conn s') → (∀ sid, module_ s' = Some sid → cm_valid (conn s') sid) →
  cm_used (conn s) ⊆ cm_used (conn s') → agree pend s'.
Proof.
  intros [? ? ? Hus ? ? Hvu ? ?] Hm Hv Hw Hva Hu.
  constructor; rewrite ?Hm, ?Hv; try done.
  - intros u d Hd. apply Hu. by eapply Hus.
  - intros k Hk. apply Hu. by apply Hvu.
Qed.

Lemma on_conn_run {A} (f : St M A) s :
  on_conn f s = ((f (conn s)).1, s <| conn := (f (conn s)).2 |>).
Proof. unfold on_conn. by destruct (f (conn s)). Qed.

Lemma emit_agree pend e : ⟪ agree pend ⟫ emit e ⟪ λ _, agree pend ⟫.
Proof. intros s Hs. apply (agree_same pend s); try done; apply Hs. Qed.

(** A change of one model data that does not touch its handle and either keeps
    its state or declares it not loaded. *)
Lemma on_data_agree pend u f :
  (∀ d, uuid_ (f d) = uuid_ d ∧ modelHandle_ (f d) = modelHandle_ d ∧
        (state_ (f d) = state_ d ∨ state_ (f d) = MODEL_NOTLOADED)) →
  ⟪ agree pend ⟫ on_data u f ⟪ λ _, agree pend ⟫.
Proof.
  intros Hf s Hs. unfold on_data, st_modify. cbn [fst snd].
  destruct (modelDataMap_ s !! u) as [d|] eqn:Hd.
  - destruct (Hf d) as (H1 & H2 & H3).
    eapply (agree_step pend s _ u d (f d)); try done; simpl.
    + by apply alter_present.
    + apply Hs.
    + apply Hs.
    + by left.
    + apply (ag_zero _ _ Hs).
    + pose proof (ag_data _ _ Hs _ _ Hd) as Ho. unfold data_ok in *. rewrite H2.
      destruct H3 as [->| ->]; done.
    + rewrite H2. intros Hp. destruct (ag_pend _ _ Hs _ Hp) as [? Hn]. split; [done|].
      destruct H3 as [->| ->]; [|done]. by apply (Hn u d).
  - apply (agree_same pend s); try done; simpl; [by apply alter_absent|apply Hs|apply Hs].
Qed.

Lemma delete_agree pend u :
  ⟪ agree pend ⟫ st_modify (λ s : TriggerHelper M, s <| modelDataMap_ ::= delete u |>)
  ⟪ λ _, agree pend ⟫.
Proof.
  intros s [H1 H2 H3 H4 H5 H6 H7 H8 H9]. constructor; simpl; try done.
  - intros u' d [_ Hd]%lookup_delete_Some. by apply H3.
  - intros u' d [_ Hd]%lookup_delete_Some. by eapply H4.
  - intros u1 u2 d1 d2 [_ Hd1]%lookup_delete_Some [_ Hd2]%lookup_delete_Some. by apply (H5 u1 u2).
  - intros u' d [_ Hd]%lookup_delete_Some. by eapply H8.
  - intros h Hp. destruct (H9 h Hp) as [? Hn]. split; [done|].
    intros u' d [_ Hd]%lookup_delete_Some. by eapply Hn.
Qed.

Lemma create_agree pend u :
  ⟪ λ s, agree pend s ∧ modelDataMap_ s !! u = None ⟫ CreateTriggerModelData u ⟪ λ _, agree pend ⟫.
Proof.
  intros s [Hs Hnone]. pose proof (cm_used_0 _ (ag_wf _ _ Hs)) as H0.
  destruct Hs as [H1 H2 H3 H4 H5 H6 H7 H8 H9]. constructor; simpl; try done.
  - intros u' d. rewrite lookup_insert. case_decide; intros ?; simplify_eq; [done|by apply H3].
  - intros u' d. rewrite lookup_insert. case_decide; intros ?; simplify_eq; [done|by eapply H4].
  - intros u1 u2 d1 d2. rewrite !lookup_insert. repeat case_decide; intros ???Heq; simplify_eq; try done.
    by apply (H5 u1 u2).
  - intros u' d. rewrite lookup_insert. case_decide; intros ?; simplify_eq; [done|by eapply H8].
  - intros h Hp. destruct (H9 h Hp) as [? Hn]. split; [done|].
    intros u' d. rewrite lookup_insert. case_decide; intros ??; simplify_eq; [done|by eapply Hn].
Qed.

Lemma GetModule_agree pend : ⟪ agree pend ⟫ GetModule ⟪ λ _, agree pend ⟫.
Proof.
  intros s Hs. unfold GetModule. rewrite bind_run. cbn [st_gets fst snd].
  destruct (module_ s) as [sid|] eqn:Hm; [done|].
  rewrite bind_run, !on_conn_run.
  pose proof (cm_ListModuleDescriptors_law _ (ag_wf _ _ Hs)) as [Hw Hu].
  destruct (cm_ListModuleDescriptors (conn s)) as [descs m1]. cbn [fst snd] in *.
  assert (agree pend (s <| conn := m1 |>)) as Hs1.
  { apply (agree_same pend s); try done; simpl; [|by rewrite Hm].
    unfold view. simpl. by rewrite Hm. }
  destruct descs as [|n descs]; [exact Hs1|].
  rewrite !bind_run, !on_conn_run. unfold st_modify. cbn [fst snd].
  pose proof (cm_GetModule_law n m1 Hw) as Hg. simpl.
  destruct (cm_GetModule n m1) as [r m2]. destruct Hg as (Hw2 & Hu2 & Hr). simpl.
  apply (agree_same pend (s <| conn := m1 |>)); try done; simpl.
  - unfold view. simpl. rewrite Hm. destruct r as [sid|]; [|done]. by apply Hr.
  - intros sid ->. by apply Hr.
Qed.

Lemma SetParameter_agree pend k v : ⟪ agree pend ⟫ SetParameter k v ⟪ λ _, agree pend ⟫.
Proof.
  unfold SetParameter. eapply hoare_bind; [apply GetModule_agree|]. intros ok.
  destruct ok; simpl; [|by apply hoare_ret].
  intros s Hs. rewrite bind_run. cbn [st_gets fst snd].
  destruct (module_ s) as [sid|] eqn:Hm; [|done].
  rewrite bind_run. pose proof (emit_agree pend (EvSetParams k v) s Hs) as Hs1.
  set (s1 := (emit (EvSetParams k v) s).2) in *.
  assert (module_ s1 = Some sid) as Hm1 by done. clearbody s1.
  pose proof (cm_SetParams_law sid k v _ (ag_wf _ _ Hs1) (ag_valid _ _ Hs1 _ Hm1))
    as [(Hw & Hva & Hu) Hv].
  unfold on_conn. destruct (cm_SetParams sid k v (conn s1)) as [r m]. cbn [fst snd] in *.
  apply (agree_same pend s1); try done; simpl.
  - unfold view. simpl. by rewrite Hm1.
  - intros ? ?. simplify_eq. congruence.
Qed.

Lemma view_module s sid : module_ s = Some sid → view s = cm_view (conn s) sid.
Proof. unfold view. by intros ->. Qed.

Lemma LoadModel_agree pend u : ⟪ agree pend ⟫ LoadModel u ⟪ λ _, agree pend ⟫.
Proof.
  intros s Hs. unfold LoadModel, get_data. rewrite bind_run. cbn [st_gets fst snd].
  destruct (modelDataMap_ s !! u) as [d|] eqn:Hd; [|done].
  case_decide as Hst; [done|]. rewrite bind_run. cbn [st_gets fst snd].
  destruct (module_ s) as [sid|] eqn:Hm; [|done]. rewrite bind_run, !on_conn_run.
  pose proof (cm_LoadModel_law sid (model_ d) _ (ag_wf _ _ Hs) (ag_valid _ _ Hs _ Hm)) as Hl.
  destruct (cm_LoadModel sid (model_ d) (conn s)) as [[r h] m]. cbn [fst snd] in *.
  destruct Hl as ((Hw & Hva & Hu) & Hok & Hfail).
  destruct (Z.eqb_spec r 0) as [->|Hr]; cbn [negb].
  - rewrite !bind_run. unfold on_data, SetState, on_data, st_modify. cbn [fst snd].
    destruct (Hok eq_refl) as (Hnu & Hin & Hv).
    assert (h ≠ 0) as Hh0 by (intros ->; apply Hnu, cm_used_0, (ag_wf _ _ Hs)).
    eapply (agree_step pend s _ u d (d <| modelHandle_ := h |> <| state_ := MODEL_LOADED |>));
      try done; simpl.
    + rewrite (alter_present _ _ u (d <| modelHandle_ := h |>)).
      * by rewrite (alter_present _ _ _ d Hd), insert_insert_eq.
      * rewrite lookup_alter, decide_True by done. by rewrite Hd.
    + intros ? ?. by simplify_eq.
    + by right.
    + intros k Hk. rewrite !(view_module _ sid) by done. simpl. by rewrite Hv, lookup_insert_ne.
    + rewrite (view_module _ sid) by done. simpl. rewrite Hv, lookup_insert_ne by done.
      rewrite <- (view_module s sid) by done. apply Hs.
    + unfold data_ok. simpl. rewrite (view_module _ sid) by done. simpl.
      by rewrite Hv, lookup_insert_eq.
    + intros Hp. exfalso. apply Hnu, (ag_vused _ _ Hs).
      destruct (ag_pend _ _ Hs _ Hp) as [-> _]. by eexists.
  - apply (agree_same pend s); try done; simpl; [|intros ? ?; by simplify_eq].
    rewrite !(view_module _ sid) by done. by apply Hfail.
Qed.

Lemma UnloadModel_agree pend u : ⟪ agree pend ⟫ UnloadModel u ⟪ λ _, agree pend ⟫.
Proof.
  intros s Hs. unfold UnloadModel, get_data. rewrite bind_run. cbn [st_gets fst snd].
  destruct (modelDataMap_ s !! u) as [d|] eqn:Hd; [|done].
  case_decide as Hst; [done|]. rewrite bind_run. cbn [st_gets fst snd].
  destruct (module_ s) as [sid|] eqn:Hm; [|done]. rewrite bind_run, !on_conn_run.
  pose proof (cm_UnloadModel_law sid (modelHandle_ d) _ (ag_wf _ _ Hs) (ag_valid _ _ Hs _ Hm)) as Hl.
  destruct (cm_UnloadModel sid (modelHandle_ d) (conn s)) as [r m]. cbn [fst snd] in *.
  destruct Hl as ((Hw & Hva & Hu) & Hv). rewrite !bind_run.
  unfold SetState, on_data, st_modify. cbn [fst snd].
  eapply (agree_step pend s _ u d (d <| state_ := MODEL_NOTLOADED |>)); try done; simpl.
  - by rewrite (alter_present _ _ _ d Hd).
  - intros ? ?. by simplify_eq.
  - by left.
  - intros k Hk. rewrite !(view_module _ sid) by done. simpl.
    destruct Hv as [->| ->]; [by rewrite lookup_delete_ne|done].
  - rewrite (view_module _ sid) by done. simpl. pose proof (ag_zero _ _ Hs) as H0.
    rewrite (view_module _ sid) in H0 by done.
    destruct Hv as [->| ->]; [rewrite lookup_delete; by case_decide|done].
  - intros Hp. destruct (ag_pend _ _ Hs _ Hp) as [_ Hn]. by destruct (Hn u d).
Qed.

Lemma StopRecognition_agree pend u : ⟪ agree pend ⟫ StopRecognition u ⟪ λ _, agree pend ⟫.
Proof.
  intros s Hs. unfold StopRecognition, get_data. rewrite bind_run. cbn [st_gets fst snd].
  destruct (modelDataMap_ s !! u) as [d|] eqn:Hd; [|done].
  case_decide as Hst; [done|]. rewrite bind_run. cbn [st_gets fst snd].
  destruct (module_ s) as [sid|] eqn:Hm; [|done]. rewrite bind_run, !on_conn_run.
  pose proof (cm_Stop_law sid (modelHandle_ d) _ (ag_wf _ _ Hs) (ag_valid _ _ Hs _ Hm)) as Hl.
  destruct (cm_Stop sid (modelHandle_ d) (conn s)) as [r m]. cbn [fst snd] in *.
  destruct Hl as ((Hw & Hva & Hu) & Hok & Hfail).
  destruct (Z.eqb_spec r 0) as [->|Hr]; cbn [negb].
  - rewrite !bind_run. unfold SetState, on_data, st_modify. cbn [fst snd].
    destruct (Hok eq_refl) as [Hact Hv]. pose proof (ag_zero _ _ Hs) as H0.
    rewrite (view_module _ sid) in H0 by done.
    assert (modelHandle_ d ≠ 0) as Hh0 by congruence.
    eapply (agree_step pend s _ u d (d <| state_ := MODEL_LOADED |>)); try done; simpl.
    + by rewrite (alter_present _ _ _ d Hd).
    + intros ? ?. by simplify_eq.
    + by left.
    + intros k Hk. rewrite !(view_module _ sid) by done. simpl. by rewrite Hv, lookup_insert_ne.
    + rewrite (view_module _ sid) by done. simpl. by rewrite Hv, lookup_insert_ne.
    + unfold data_ok. simpl. rewrite (view_module _ sid) by done. simpl.
      by rewrite Hv, lookup_insert_eq.
    + intros Hp. destruct (ag_pend _ _ Hs _ Hp) as [Hl _].
      rewrite (view_module _ sid) in Hl by done. congruence.
  - apply (agree_same pend s); try done; simpl; [|intros ? ?; by simplify_eq].
    rewrite !(view_module _ sid) by done. by apply Hfail.
Qed.

(** The end of [StartRecognition]: the start call and the new state. *)
Lemma start_tail_agree pend u sid :
  ⟪ λ s, agree pend s ∧ module_ s = Some sid ∧
         ∃ d, modelDataMap_ s !! u = Some d ∧ pend ≠ Some (modelHandle_ d) ⟫
  (h ← st_gets (λ s, from_option modelHandle_ 0 (modelDataMap_ s !! u));
   r ← on_conn (cm_Start sid h);
   if negb (r =? 0) then mret r else (_ ← SetState u MODEL_STARTED; mret r))
  ⟪ λ _, agree pend ⟫.
Proof.
  intros s (Hs & Hm & d & Hd & Hpd). rewrite bind_run. cbn [st_gets fst snd]. rewrite Hd. simpl.
  rewrite bind_run, !on_conn_run.
  pose proof (cm_Start_law sid (modelHandle_ d) _ (ag_wf _ _ Hs) (ag_valid _ _ Hs _ Hm)) as Hl.
  destruct (cm_Start sid (modelHandle_ d) (conn s)) as [r m]. cbn [fst snd] in *.
  destruct Hl as ((Hw & Hva & Hu) & Hok & Hfail).
  destruct (Z.eqb_spec r 0) as [->|Hr]; cbn [negb].
  - rewrite !bind_run. unfold SetState, on_data, st_modify. cbn [fst snd].
    destruct (Hok eq_refl) as [Hact Hv]. pose proof (ag_zero _ _ Hs) as H0.
    rewrite (view_module _ sid) in H0 by done.
    assert (modelHandle_ d ≠ 0) as Hh0 by congruence.
    eapply (agree_step pend s _ u d (d <| state_ := MODEL_STARTED |>)); try done; simpl.
    + by rewrite (alter_present _ _ _ d Hd).
    + intros ? ?. by simplify_eq.
    + by left.
    + intros k Hk. rewrite !(view_module _ sid) by done. simpl. by rewrite Hv, lookup_insert_ne.
    + rewrite (view_module _ sid) by done. simpl. by rewrite Hv, lookup_insert_ne.
    + unfold data_ok. simpl. rewrite (view_module _ sid) by done. simpl.
      left. by rewrite Hv, lookup_insert_eq.
  - apply (agree_same pend s); try done; simpl; [|intros ? ?; by simplify_eq].
    rewrite !(view_module _ sid) by done. by apply Hfail.
Qed.

(** What [StartRecognition] relies on until it calls the module: the module is
    there and no event of the model is pending. *)
Definition ready (pend : option Z) (u : Z) (sid : nat) s : Prop :=
  agree pend s ∧ module_ s = Some sid ∧
  ∃ d, modelDataMap_ s !! u = Some d ∧ pend ≠ Some (modelHandle_ d).

Lemma on_data_ready pend u sid f :
  (∀ d, uuid_ (f d) = uuid_ d ∧ modelHandle_ (f d) = modelHandle_ d ∧
        (state_ (f d) = state_ d ∨ state_ (f d) = MODEL_NOTLOADED)) →
  ⟪ ready pend u sid ⟫ on_data u f ⟪ λ _, ready pend u sid ⟫.
Proof.
  intros Hf s (Hs & Hm & d & Hd & Hp). split; [by apply on_data_agree|]. split; [done|].
  exists (f d). simpl. rewrite (alter_present _ _ _ d Hd), lookup_insert_eq. split; [done|].
  destruct (Hf d) as (_ & -> & _). done.
Qed.

Lemma UnloadModel_ready pend u sid :
  ⟪ ready pend u sid ⟫ UnloadModel u ⟪ λ _, ready pend u sid ⟫.
Proof.
  intros s (Hs & Hm & d & Hd & Hp). split; [by apply UnloadModel_agree|].
  unfold UnloadModel, get_data. rewrite bind_run. cbn [st_gets fst snd]. rewrite Hd.
  case_decide; [by eauto|]. rewrite bind_run. cbn [st_gets fst snd]. rewrite Hm.
  rewrite !bind_run, !on_conn_run. simpl. split; [done|].
  exists (d <| state_ := MODEL_NOTLOADED |>).
  by rewrite (alter_present _ _ _ d Hd), lookup_insert_eq.
Qed.

Lemma LoadModel_ready pend u sid :
  ⟪ ready pend u sid ⟫ LoadModel u ⟪ λ _, ready pend u sid ⟫.
Proof.
  intros s (Hs & Hm & d & Hd & Hp). split; [by apply LoadModel_agree|].
  unfold LoadModel, get_data. rewrite bind_run. cbn [st_gets fst snd]. rewrite Hd.
  case_decide; [by eauto|]. rewrite bind_run. cbn [st_gets fst snd]. rewrite Hm.
  rewrite !bind_run, !on_conn_run.
  pose proof (cm_LoadModel_law sid (model_ d) _ (ag_wf _ _ Hs) (ag_valid _ _ Hs _ Hm)) as Hl.
  destruct (cm_LoadModel sid (model_ d) (conn s)) as [[r h] m]. cbn [fst snd] in *.
  destruct Hl as (_ & Hok & _). destruct (Z.eqb_spec r 0) as [->|Hr]; cbn [negb]; [|by eauto].
  simpl. split; [done|]. exists (d <| modelHandle_ := h |> <| state_ := MODEL_LOADED |>).
  rewrite (alter_present _ _ u (d <| modelHandle_ := h |>)).
  2: { rewrite (alter_present _ _ _ d Hd). by rewrite lookup_insert_eq. }
  rewrite lookup_insert_eq. split; [done|]. simpl. intros ->.
  destruct (Hok eq_refl) as [Hn _]. apply Hn, (ag_vused _ _ Hs).
  destruct (ag_pend _ _ Hs _ eq_refl) as [-> _]. done.
Qed.

Lemma SetParameter_ready pend u sid k v :
  ⟪ ready pend u sid ⟫ SetParameter k v ⟪ λ _, ready pend u sid ⟫.
Proof.
  intros s (Hs & Hm & d & Hd & Hp). split; [by apply SetParameter_agree|].
  unfold SetParameter, GetModule. rewrite !bind_run. cbn [st_gets fst snd]. rewrite Hm.
  cbn [mret st_ret fst snd negb]. rewrite bind_run. cbn [st_gets fst snd]. rewrite Hm.
  rewrite !bind_run, on_conn_run. simpl. eauto.
Qed.

Lemma SetModel_keeps model d :
  uuid_ (SetModel model d) = uuid_ d ∧ modelHandle_ (SetModel model d) = modelHandle_ d ∧
  (state_ (SetModel model d) = state_ d ∨ state_ (SetModel model d) = MODEL_NOTLOADED).
Proof. unfold SetModel. destruct (SameModel model d); simpl; auto. Qed.

Lemma emit_ready pend u sid e : ⟪ ready pend u sid ⟫ emit e ⟪ λ _, ready pend u sid ⟫.
Proof. intros s (Hs & Hm & Hd). split; [by apply emit_agree|]. done. Qed.

#[local] Hint Resolve UnloadModel_ready LoadModel_ready SetParameter_ready emit_ready : ivoice.

Lemma FoldStatusOperation_ready pend u sid :
  ⟪ ready pend u sid ⟫ FoldStatusOperation u ⟪ λ _, ready pend u sid ⟫.
Proof.
  unfold FoldStatusOperation, ReLoadWhisperModel, SetFoldStatus, get_data. keeps.
  apply on_data_ready, SetModel_keeps.
Qed.

Lemma StartRecognition_agree pend u : ⟪ agree pend ⟫ StartRecognition u ⟪ λ _, agree pend ⟫.
Proof.
  intros s Hs. unfold StartRecognition, get_data. rewrite bind_run. cbn [st_gets fst snd].
  destruct (modelDataMap_ s !! u) as [d|] eqn:Hd; [|done].
  case_decide as Hst; [done|]. rewrite bind_run. cbn [st_gets fst snd].
  destruct (module_ s) as [sid|] eqn:Hm; [|done].
  assert (ready pend u sid s) as Hr.
  { split; [done|]. split; [done|]. exists d. split; [done|]. intros Hp.
    destruct (ag_pend _ _ Hs _ Hp) as [_ Hn]. by apply (Hn u d). }
  refine ((_ : ⟪ ready pend u sid ⟫ _ ⟪ λ _, agree pend ⟫) s Hr).
  eapply hoare_bind; [apply hoare_when, FoldStatusOperation_ready|].
  intros []. eapply hoare_bind; [apply hoare_when, emit_ready|]. intros [].
  apply start_tail_agree.
Qed.

#[local] Hint Resolve emit_agree delete_agree GetModule_agree SetParameter_agree LoadModel_agree
  UnloadModel_agree StopRecognition_agree StartRecognition_agree : ivoice.

Lemma ClearData_agree pend u : ⟪ agree pend ⟫ on_data u ClearData ⟪ λ _, agree pend ⟫.
Proof. apply on_data_agree. intros d. simpl. auto. Qed.

Lemma ClearCallback_agree pend u : ⟪ agree pend ⟫ on_data u ClearCallback ⟪ λ _, agree pend ⟫.
Proof. apply on_data_agree. intros d. simpl. auto. Qed.

Lemma requested_agree pend u b :
  ⟪ agree pend ⟫ on_data u (λ d, d <| requested_ := b |>) ⟪ λ _, agree pend ⟫.
Proof. apply on_data_agree. intros d. simpl. auto. Qed.

Lemma SetModel_agree pend u model : ⟪ agree pend ⟫ on_data u (SetModel model) ⟪ λ _, agree pend ⟫.
Proof. apply on_data_agree, SetModel_keeps. Qed.

Lemma SetCallback_agree pend u cb : ⟪ agree pend ⟫ on_data u (SetCallback cb) ⟪ λ _, agree pend ⟫.
Proof. apply on_data_agree. intros d. destruct cb; simpl; auto. Qed.

(** Changing the scene, the fold status or the fold ability. *)
Lemma modify_agree pend (f : TriggerHelper M → TriggerHelper M) :
  (∀ s, conn (f s) = conn s ∧ module_ (f s) = module_ s ∧ modelDataMap_ (f s) = modelDataMap_ s) →
  ⟪ agree pend ⟫ st_modify f ⟪ λ _, agree pend ⟫.
Proof.
  intros Hf s Hs. destruct (Hf s) as (Hc & Hm & Hd). simpl.
  apply (agree_same pend s); try done; unfold view; rewrite ?Hc, ?Hm; try done; apply Hs.
Qed.

Lemma on_scene_agree pend f : ⟪ agree pend ⟫ on_scene f ⟪ λ _, agree pend ⟫.
Proof. by apply modify_agree. Qed.

#[local] Hint Resolve ClearData_agree ClearCallback_agree requested_agree SetModel_agree
  SetCallback_agree on_scene_agree : ivoice.

Lemma InitRecognition_agree pend u b : ⟪ agree pend ⟫ InitRecognition u b ⟪ λ _, agree pend ⟫.
Proof. unfold InitRecognition, get_data. keeps. Qed.

Lemma PrepareForRecognition_agree pend u :
  ⟪ agree pend ⟫ PrepareForRecognition u ⟪ λ _, agree pend ⟫.
Proof. unfold PrepareForRecognition. keeps. Qed.
#[local] Hint Resolve InitRecognition_agree PrepareForRecognition_agree : ivoice.

Lemma StartGenericRecognition_agree pend u model cb :
  ⟪ agree pend ⟫ StartGenericRecognition u model cb ⟪ λ _, agree pend ⟫.
Proof.
  unfold StartGenericRecognition. intros s Hs. rewrite bind_run. cbn [get_data st_gets fst snd].
  refine ((_ : ⟪ λ s', s' = s ⟫ _ ⟪ λ _, agree pend ⟫) s eq_refl).
  eapply (hoare_bind _ _ (λ _, agree pend)).
  - intros ? ->. destruct (modelDataMap_ s !! u) eqn:Hd; [done|]. by apply create_agree.
  - intros []. unfold get_data. keeps.
Qed.

Lemma StopGenericRecognition_agree pend u :
  ⟪ agree pend ⟫ StopGenericRecognition u ⟪ λ _, agree pend ⟫.
Proof. unfold StopGenericRecognition, get_data. keeps. Qed.

Lemma UnloadGenericTriggerModel_agree pend u :
  ⟪ agree pend ⟫ UnloadGenericTriggerModel u ⟪ λ _, agree pend ⟫.
Proof. unfold UnloadGenericTriggerModel, get_data. keeps. Qed.

Lemma GetParameter_agree pend k : ⟪ agree pend ⟫ GetParameter k ⟪ λ _, agree pend ⟫.
Proof.
  unfold GetParameter, GetFoldStatusInfo. apply hoare_seq; [auto with ivoice|]. intros ok.
  destruct (negb ok); [keeps|]. destruct (_ && _); [keeps|].
  intros s Hs. rewrite bind_run. cbn [st_gets fst snd].
  destruct (module_ s) as [sid|] eqn:Hm; [|done]. rewrite bind_run, on_conn_run.
  pose proof (cm_GetParams_law sid k _ (ag_wf _ _ Hs) (ag_valid _ _ Hs _ Hm)) as [(Hw & Hva & Hu) Hv].
  apply (agree_same pend s); try done; simpl.
  - by rewrite !(view_module _ sid).
  - intros ? ?. by simplify_eq.
Qed.

Lemma update_one_agree pend u : ⟪ agree pend ⟫ update_one u ⟪ λ _, agree pend ⟫.
Proof. unfold update_one, get_data. keeps. Qed.
#[local] Hint Resolve update_one_agree : ivoice.

Lemma OnUpdateAllRecognitionState_agree pend :
  ⟪ agree pend ⟫ OnUpdateAllRecognitionState ⟪ λ _, agree pend ⟫.
Proof. unfold OnUpdateAllRecognitionState. keeps. Qed.
#[local] Hint Resolve OnUpdateAllRecognitionState_agree : ivoice.

Lemma OnFoldStatusChanged_agree pend f :
  ⟪ agree pend ⟫ OnFoldStatusChanged f ⟪ λ _, agree pend ⟫.
Proof.
  unfold OnFoldStatusChanged, RestartAllRecognition, StopAllRecognition, StartAllRecognition, need_start.
  keeps. all: by apply modify_agree.
Qed.

(** The session turns an active model back to loaded and the callback is on its way. *)
Lemma recognize_agree h sid s :
  agree None s → module_ s = Some sid →
  agree (if (cm_Recognize sid h (conn s)).1 then Some h else None)
        (s <| conn := (cm_Recognize sid h (conn s)).2 |>).
Proof.
  intros Hs Hm.
  pose proof (cm_Recognize_law sid h _ (ag_wf _ _ Hs) (ag_valid _ _ Hs _ Hm)) as Hl.
  destruct (cm_Recognize sid h (conn s)) as [b m]. cbn [fst snd].
  destruct Hl as ((Hw & Hva & Hu) & Hok & Hfail). pose proof (view_module s sid Hm) as Hvs.
  destruct b.
  2: { apply (agree_same None s); try done; simpl; [|intros ? ?; by simplify_eq].
       rewrite Hvs, (view_module _ sid) by done. by apply Hfail. }
  destruct (Hok eq_refl) as [Hact Hv]. rewrite <- Hvs in Hact.
  assert (view (s <| conn := m |>) = <[h := LOADED]> (view s)) as Hv'.
  { rewrite Hvs, (view_module _ sid) by done. exact Hv. }
  assert (h ≠ 0) as Hh0 by (intros ->; pose proof (ag_zero _ _ Hs); congruence).
  destruct Hs as [H1 H2 H3 H4 H5 H6 H7 H8 H9]. constructor; rewrite ?Hv'; try done; simpl.
  - intros ? ?. by simplify_eq.
  - intros u d Hd. apply Hu. by eapply H4.
  - by rewrite lookup_insert_ne.
  - intros k Hk. apply Hu. rewrite lookup_insert in Hk. case_decide; subst; apply H7; [by eexists|done].
  - intros u d Hd. specialize (H8 u d Hd). unfold data_ok in *. rewrite lookup_insert.
    case_decide as Hh; [subst h|].
    + destruct (state_ d); [done|done|]. by right.
    + destruct (state_ d); [done|done|]. destruct H8 as [?|[? ?]]; [by left|done].
  - intros ? [= <-]. split; [by rewrite lookup_insert_eq|]. intros u d Hd Hh Hst.
    specialize (H8 u d Hd). unfold data_ok in H8. rewrite Hst, Hh in H8. congruence.
Qed.

Lemma find_handle_Some l mm h u :
  find_handle l mm h = Some u → u ∈ l ∧ ∃ d, mm !! u = Some d ∧ modelHandle_ d = h.
Proof.
  induction l as [|x l IH]; simpl; [done|]. destruct (mm !! x) as [d|] eqn:Hx.
  - destruct (Z.eqb_spec (modelHandle_ d) h); [|intros ?%IH; set_solver].
    intros [= <-]. split; [by left|by eauto].
  - intros ?%IH. set_solver.
Qed.

Lemma find_handle_None l mm h :
  find_handle l mm h = None → ∀ u d, u ∈ l → mm !! u = Some d → modelHandle_ d ≠ h.
Proof.
  induction l as [|x l IH]; simpl; [set_solver|]. intros Hf u d Hu Hd.
  apply elem_of_cons in Hu as [->|Hu].
  - rewrite Hd in Hf. by destruct (Z.eqb_spec (modelHandle_ d) h).
  - destruct (mm !! x) as [d'|]; [destruct (_ =? _); [done|]|]; by eapply IH.
Qed.

(** Delivery of the pending event. *)
Lemma OnRecognition_agree h : ⟪ agree (Some h) ⟫ OnRecognition h ⟪ λ _, agree None ⟫.
Proof.
  intros s Hs. unfold OnRecognition. rewrite bind_run. cbn [st_get fst snd].
  destruct (ag_pend _ _ Hs h eq_refl) as [Hld Hnl].
  assert (h ≠ 0) as Hh0 by (intros ->; pose proof (ag_zero _ _ Hs); congruence).
  destruct (find_handle _ _ h) as [u|] eqn:Hf.
  - apply find_handle_Some in Hf as (_ & d & Hd & Hh).
    set (s1 := s <| modelDataMap_ := <[u := d <| state_ := MODEL_LOADED |>]> (modelDataMap_ s) |>).
    assert (agree None s1) as Hs1.
    { destruct Hs as [H1 H2 H3 H4 H5 H6 H7 H8 H9]. constructor; try done; simpl.
      - intros u' d'. rewrite lookup_insert. case_decide; intros ?; simplify_eq; simpl; [|by apply H3].
        by apply H3.
      - intros u' d'. rewrite lookup_insert. case_decide; intros ?; simplify_eq; simpl; by eapply H4.
      - intros u1 u2 d1 d2. rewrite !lookup_insert.
        repeat case_decide; intros ????; simplify_eq; simpl in *; try done.
        + by apply (H5 u1 u2 d d2).
        + by apply (H5 u1 u2 d1 d).
        + by apply (H5 u1 u2 d1 d2).
      - intros u' d'. rewrite lookup_insert. case_decide; intros Hd'.
        + simplify_eq. exact Hld.
        + specialize (H8 u' d' Hd'). unfold data_ok in *. change (view s1) with (view s).
          destruct (state_ d'); [done|done|]. destruct H8 as [?|[[= He] _]]; [by left|].
          exfalso. apply Hh0. rewrite He. apply (H5 u' u d' d); [done|done|done|congruence]. }
    assert ((SetState u MODEL_LOADED s).2 = s1) as Hset.
    { unfold s1. simpl. by rewrite (alter_present _ _ _ d Hd). }
    rewrite bind_run, Hset.
    change (agree None ((match (modelDataMap_ s1 !! u) ≫= callback_ with
                         | None => mret () | Some cb => emit (EvDetected cb h) end : HM unit) s1).2).
    destruct (_ ≫= _); [by apply emit_agree|done].
  - assert (∀ u d, modelDataMap_ s !! u = Some d → modelHandle_ d ≠ h) as Hn.
    { intros u d Hd. eapply find_handle_None; [done| |done]. apply elem_of_map_order. by eexists. }
    destruct Hs as [H1 H2 H3 H4 H5 H6 H7 H8 H9]. constructor; try done.
    intros u d Hd. specialize (H8 u d Hd). unfold data_ok in *.
    destruct (state_ d); [done|done|]. destruct H8 as [?|[[= He] _]]; [by left|].
    exfalso. by eapply Hn.
Qed.

(** ** What the operations do not touch

    An invariant of the helper that does not depend on the connector, the module
    pointer once it is set, the model data, or on events other than parameters
    with a key of its own. *)
Definition own_event (e : HelperEvent) : Prop :=
  match e with EvSetParams key _ => key = "is_folded"%string | _ => True end.

Record framed (P : TriggerHelper M → Prop) : Prop := {
  fr_conn : ∀ s m, P s → P (s <| conn := m |>);
  fr_data : ∀ s g, P s → P (s <| modelDataMap_ ::= g |>);
  fr_out : ∀ s e, own_event e → P s → P (s <| out ::= λ l, l ++ [e] |>);
  fr_module : ∀ s r, module_ s = None → P s → P (s <| module_ := r |>) }.

Section framed.
Context (P : TriggerHelper M → Prop) (HP : framed P).

Lemma on_conn_framed {A} (f : St M A) : ⟪ P ⟫ on_conn f ⟪ λ _, P ⟫.
Proof. intros s Hs. rewrite on_conn_run. by apply (fr_conn P HP). Qed.
Lemma on_data_framed u f : ⟪ P ⟫ on_data u f ⟪ λ _, P ⟫.
Proof. intros s Hs. by apply (fr_data P HP). Qed.
Lemma emit_framed e : own_event e → ⟪ P ⟫ emit e ⟪ λ _, P ⟫.
Proof. intros He s Hs. by apply (fr_out P HP). Qed.
Lemma GetModule_framed : ⟪ P ⟫ GetModule ⟪ λ _, P ⟫.
Proof.
  intros s Hs. unfold GetModule. rewrite bind_run. cbn [st_gets fst snd].
  destruct (module_ s) eqn:Hm; [done|]. rewrite bind_run, on_conn_run. cbn [fst snd].
  destruct (cm_ListModuleDescriptors (conn s)) as [[|n l] m1]; cbn [fst snd].
  { by apply (fr_conn P HP). }
  rewrite !bind_run, on_conn_run. cbn [mret st_ret st_modify fst snd].
  apply (fr_module P HP); [done|]. do 2 apply (fr_conn P HP). done.
Qed.
#[local] Hint Resolve @on_conn_framed on_data_framed GetModule_framed : ivoice.

Lemma SetParameter_framed v : ⟪ P ⟫ SetParameter "is_folded" v ⟪ λ _, P ⟫.
Proof. unfold SetParameter. keeps. by apply emit_framed. Qed.
Lemma LoadModel_framed u : ⟪ P ⟫ LoadModel u ⟪ λ _, P ⟫.
Proof. unfold LoadModel, SetState, get_data. keeps. Qed.
Lemma UnloadModel_framed u : ⟪ P ⟫ UnloadModel u ⟪ λ _, P ⟫.
Proof. unfold UnloadModel, SetState, get_data. keeps. Qed.
Lemma StopRecognition_framed u : ⟪ P ⟫ StopRecognition u ⟪ λ _, P ⟫.
Proof. unfold StopRecognition, SetState, get_data. keeps. Qed.
#[local] Hint Resolve SetParameter_framed LoadModel_framed UnloadModel_framed
  StopRecognition_framed : ivoice.
Lemma StartRecognition_framed u : ⟪ P ⟫ StartRecognition u ⟪ λ _, P ⟫.
Proof.
  unfold StartRecognition, FoldStatusOperation, ReLoadWhisperModel, SetFoldStatus,
    HandleWakeupInputGain, SetState, get_data. keeps; by apply emit_framed.
Qed.
#[local] Hint Resolve StartRecognition_framed : ivoice.
Lemma OnUpdateAll_framed : ⟪ P ⟫ OnUpdateAllRecognitionState ⟪ λ _, P ⟫.
Proof.
  unfold OnUpdateAllRecognitionState, update_one, PrepareForRecognition, get_data.
  keeps; by apply emit_framed.
Qed.
Lemma StartGenericRecognition_framed u model cb :
  ⟪ P ⟫ StartGenericRecognition u model cb ⟪ λ _, P ⟫.
Proof.
  unfold StartGenericRecognition, InitRecognition, PrepareForRecognition, CreateTriggerModelData,
    get_data. keeps. intros s Hs. by apply (fr_data P HP).
Qed.
Lemma StopGenericRecognition_framed u : ⟪ P ⟫ StopGenericRecognition u ⟪ λ _, P ⟫.
Proof. unfold StopGenericRecognition, get_data. keeps. Qed.
Lemma UnloadGenericTriggerModel_framed u : ⟪ P ⟫ UnloadGenericTriggerModel u ⟪ λ _, P ⟫.
Proof.
  unfold UnloadGenericTriggerModel, get_data. keeps. intros s Hs. by apply (fr_data P HP).
Qed.
Lemma OnRecognition_framed h : ⟪ P ⟫ OnRecognition h ⟪ λ _, P ⟫.
Proof. unfold OnRecognition, SetState, get_data. keeps. by apply emit_framed. Qed.
Lemma RestartAllRecognition_framed : ⟪ P ⟫ RestartAllRecognition ⟪ λ _, P ⟫.
Proof.
  unfold RestartAllRecognition, StopAllRecognition, StartAllRecognition, PrepareForRecognition,
    need_start. keeps.
Qed.
End framed.

End helper.
