(* ===== verification/Recognition.v ===== *)
(** * Recognition control

    What the trigger helper achieves over a connector whose calls succeed when
    they are legal: recognition runs exactly for the requested models, as long
    as no conflicting scene is active; and what goes wrong when a stop fails. *)

From S2P Require Import Prelude TriggerTypes Connector TriggerHelper.

(** A module whose legal calls succeed. *)
Class ReliableModule (M : Type) `{!ConnectorModule M} `{!ConnectorLaws M} := {
  rm_good : M → nat → Prop;
  rm_load sid md m :
    rm_good m sid → rm_good (cm_LoadModel sid md m).2 sid ∧
    (ValidateGenericModel md = true → (cm_LoadModel sid md m).1.1 = 0);
  rm_unload sid h m :
    rm_good m sid → rm_good (cm_UnloadModel sid h m).2 sid ∧
    (cm_view m sid !! h = Some LOADED → (cm_UnloadModel sid h m).1 = 0);
  rm_start sid h m :
    rm_good m sid → rm_good (cm_Start sid h m).2 sid ∧
    (cm_view m sid !! h = Some LOADED → (cm_Start sid h m).1 = 0);
  rm_stop sid h m :
    rm_good m sid → rm_good (cm_Stop sid h m).2 sid ∧
    (cm_view m sid !! h = Some ACTIVE → (cm_Stop sid h m).1 = 0);
  rm_params sid k m : rm_good m sid → rm_good (cm_GetParams sid k m).2 sid }.

Section reliable.
Context (E : Env) {M : Type} `{!ConnectorModule M} `{!ConnectorLaws M} `{!ReliableModule M}.
Context (sid : nat) (sc : Scene).
Implicit Types s : TriggerHelper M.

(** The helper works on an open, reliable module, in the scene [sc], on a device
    that does not swap models when it is folded. *)
Record operating s : Prop := {
  op_agree : agree None s;
  op_module : module_ s = Some sid;
  op_good : rm_good (conn s) sid;
  op_scene : scene s = sc;
  op_fold : SUPPORT_WINDOW_MANAGER E && isFoldable_ s = false }.

(** From [s] to [s'] only model [u] changed: its state is now [st]. *)
Definition moved (u : Z) (st : ModelState) s s' : Prop :=
  ∃ d d', modelDataMap_ s !! u = Some d ∧ modelDataMap_ s' = <[u := d']> (modelDataMap_ s) ∧
          state_ d' = st ∧ requested_ d' = requested_ d ∧ model_ d' = model_ d ∧
          callback_ d' = callback_ d.

Lemma moved_refl u d s : modelDataMap_ s !! u = Some d → moved u (state_ d) s s.
Proof. intros Hd. exists d, d. split_and!; try done. by rewrite insert_id. Qed.

Lemma moved_trans u st1 st2 s s1 s2 : moved u st1 s s1 → moved u st2 s1 s2 → moved u st2 s s2.
Proof.
  intros (d & d1 & Hd & Hm & _ & H1 & H2 & H3) (d1' & d2 & Hd1 & Hm2 & H4 & H5 & H6 & H7).
  rewrite Hm, lookup_insert_eq in Hd1. injection Hd1 as <-.
  exists d, d2. rewrite Hm2, Hm, insert_insert_eq. split_and!; congruence.
Qed.

Lemma moved_lookup u st s s' :
  moved u st s s' → ∃ d, modelDataMap_ s' !! u = Some d ∧ state_ d = st.
Proof. intros (d & d' & _ & -> & ? & _). exists d'. by rewrite lookup_insert_eq. Qed.

(** What the operations keep besides the agreement. *)
Definition stable (fo : bool) s : Prop := module_ s = Some sid ∧ scene s = sc ∧ isFoldable_ s = fo.
Lemma stable_framed fo : framed (stable fo).
Proof. constructor; try done. intros s r Hn (Hm & _). congruence. Qed.

Lemma operating_step s s' :
  operating s → agree None s' → stable (isFoldable_ s) s' → rm_good (conn s') sid → operating s'.
Proof.
  intros [? ? ? ? Hf] Ha (Hm & Hs & Hfo) Hg. constructor; try done. by rewrite Hfo.
Qed.

Lemma operating_stable s : operating s → stable (isFoldable_ s) s.
Proof. by intros [? ? ? ? ?]. Qed.

Lemma StopRecognition_works u d s :
  operating s → modelDataMap_ s !! u = Some d →
  let '(r, s') := StopRecognition u s in
  operating s' ∧ r = 0 ∧
  moved u (if decide (state_ d = MODEL_STARTED) then MODEL_LOADED else state_ d) s s'.
Proof.
  intros Hs Hd. pose proof (StopRecognition_agree None u s (op_agree _ Hs)) as Ha.
  pose proof (StopRecognition_framed _ (stable_framed _) u s (operating_stable _ Hs)) as Hst.
  assert (rm_good (conn (StopRecognition u s).2) sid ∧ (StopRecognition u s).1 = 0 ∧
    moved u (if decide (state_ d = MODEL_STARTED) then MODEL_LOADED else state_ d) s
      (StopRecognition u s).2) as (Hg & Hr & Hm).
  2: { destruct (StopRecognition u s) as [r s']. split; [by eapply operating_step|done]. }
  clear Ha Hst. unfold StopRecognition, get_data. rewrite bind_run. cbn [st_gets fst snd]. rewrite Hd.
  destruct (decide (state_ d ≠ MODEL_STARTED)) as [Hne|Heq].
  { rewrite decide_False by done. split; [apply Hs|]. split; [done|by apply moved_refl]. }
  rewrite decide_True by (by destruct (decide (state_ d = MODEL_STARTED)) as [|?]; [|destruct Heq]).
  assert (state_ d = MODEL_STARTED) as Hstd
    by (by destruct (decide (state_ d = MODEL_STARTED)) as [|?]; [|destruct Heq]).
  rewrite bind_run. cbn [st_gets fst snd]. rewrite (op_module _ Hs), bind_run, !on_conn_run.
  destruct (rm_stop sid (modelHandle_ d) (conn s) (op_good _ Hs)) as [Hg Hok].
  assert (cm_view (conn s) sid !! modelHandle_ d = Some ACTIVE) as Hact.
  { pose proof (ag_data _ _ (op_agree _ Hs) u d Hd) as Ho. unfold data_ok in Ho. rewrite Hstd in Ho.
    rewrite (view_module s sid (op_module _ Hs)) in Ho. by destruct Ho as [?|[? _]]. }
  cbn [fst snd]. rewrite (Hok Hact). cbn [Z.eqb negb]. rewrite bind_run. cbn.
  split; [exact Hg|]. split; [done|]. exists d, (d <| state_ := MODEL_LOADED |>). cbn.
  by rewrite (alter_present _ _ _ d Hd).
Qed.

Lemma UnloadModel_works u d s :
  operating s → modelDataMap_ s !! u = Some d →
  let '(r, s') := UnloadModel u s in
  operating s' ∧ r = 0 ∧
  moved u (if decide (state_ d = MODEL_LOADED) then MODEL_NOTLOADED else state_ d) s s'.
Proof.
  intros Hs Hd. pose proof (UnloadModel_agree None u s (op_agree _ Hs)) as Ha.
  pose proof (UnloadModel_framed _ (stable_framed _) u s (operating_stable _ Hs)) as Hst.
  assert (rm_good (conn (UnloadModel u s).2) sid ∧ (UnloadModel u s).1 = 0 ∧
    moved u (if decide (state_ d = MODEL_LOADED) then MODEL_NOTLOADED else state_ d) s
      (UnloadModel u s).2) as (Hg & Hr & Hm).
  2: { destruct (UnloadModel u s) as [r s']. split; [by eapply operating_step|done]. }
  clear Ha Hst. unfold UnloadModel, get_data. rewrite bind_run. cbn [st_gets fst snd]. rewrite Hd.
  destruct (decide (state_ d = MODEL_LOADED)) as [Hl|Hne].
  2: { rewrite decide_True by done. split; [apply Hs|]. split; [done|by apply moved_refl]. }
  rewrite decide_False by (by intros ?). rewrite bind_run. cbn [st_gets fst snd].
  rewrite (op_module _ Hs), !bind_run, !on_conn_run. cbn.
  destruct (rm_unload sid (modelHandle_ d) (conn s) (op_good _ Hs)) as [Hg Hok].
  assert (cm_view (conn s) sid !! modelHandle_ d = Some LOADED) as Hact.
  { pose proof (ag_data _ _ (op_agree _ Hs) u d Hd) as Ho. unfold data_ok in Ho. rewrite Hl in Ho.
    by rewrite (view_module s sid (op_module _ Hs)) in Ho. }
  split; [exact Hg|]. split; [by apply Hok|]. exists d, (d <| state_ := MODEL_NOTLOADED |>). cbn.
  by rewrite (alter_present _ _ _ d Hd).
Qed.

Lemma PrepareForRecognition_works u d s :
  operating s → modelDataMap_ s !! u = Some d → ValidateGenericModel (model_ d) = true →
  let '(r, s') := PrepareForRecognition u s in
  operating s' ∧ r = 0 ∧
  moved u (if decide (state_ d = MODEL_NOTLOADED) then MODEL_LOADED else state_ d) s s'.
Proof.
  intros Hs Hd Hv. pose proof (LoadModel_agree None u s (op_agree _ Hs)) as Ha.
  pose proof (LoadModel_framed _ (stable_framed _) u s (operating_stable _ Hs)) as Hst.
  assert (rm_good (conn (LoadModel u s).2) sid ∧ (LoadModel u s).1 = 0 ∧
    moved u (if decide (state_ d = MODEL_NOTLOADED) then MODEL_LOADED else state_ d) s
      (LoadModel u s).2) as (Hg & Hr & Hm).
  2: { unfold PrepareForRecognition, GetModule. rewrite !bind_run. cbn [st_gets fst snd].
       rewrite (op_module _ Hs). cbn [mret st_ret fst snd negb]. rewrite bind_run, Hr.
       cbn [Z.eqb negb mret st_ret]. split; [by eapply operating_step|done]. }
  clear Ha Hst. unfold LoadModel, get_data. rewrite bind_run. cbn [st_gets fst snd]. rewrite Hd.
  destruct (decide (state_ d = MODEL_NOTLOADED)) as [Hl|Hne].
  2: { rewrite decide_True by done. split; [apply Hs|]. split; [done|by apply moved_refl]. }
  rewrite decide_False by (by intros ?). rewrite bind_run. cbn [st_gets fst snd].
  rewrite (op_module _ Hs), bind_run, !on_conn_run.
  destruct (rm_load sid (model_ d) (conn s) (op_good _ Hs)) as [Hg Hok].
  destruct (cm_LoadModel sid (model_ d) (conn s)) as [[r h] m]. cbn [fst snd] in *.
  rewrite (Hok Hv). cbn [Z.eqb negb]. rewrite !bind_run. cbn.
  split; [exact Hg|]. split; [done|]. exists d, (d <| modelHandle_ := h |> <| state_ := MODEL_LOADED |>).
  cbn. rewrite (alter_present _ _ u (d <| modelHandle_ := h |>)).
  - by rewrite (alter_present _ _ _ d Hd), insert_insert_eq.
  - by rewrite (alter_present _ _ _ d Hd), lookup_insert_eq.
Qed.

Lemma StartRecognition_works u d s :
  operating s → modelDataMap_ s !! u = Some d →
  let '(r, s') := StartRecognition E u s in
  operating s' ∧ r = 0 ∧
  moved u (if decide (state_ d = MODEL_LOADED) then MODEL_STARTED else state_ d) s s'.
Proof.
  intros Hs Hd. pose proof (StartRecognition_agree E None u s (op_agree _ Hs)) as Ha.
  pose proof (StartRecognition_framed E _ (stable_framed _) u s (operating_stable _ Hs)) as Hst.
  assert (rm_good (conn (StartRecognition E u s).2) sid ∧ (StartRecognition E u s).1 = 0 ∧
    moved u (if decide (state_ d = MODEL_LOADED) then MODEL_STARTED else state_ d) s
      (StartRecognition E u s).2) as (Hg & Hr & Hm).
  2: { destruct (StartRecognition E u s) as [r s']. split; [by eapply operating_step|done]. }
  clear Ha Hst. unfold StartRecognition, get_data. rewrite bind_run. cbn [st_gets fst snd]. rewrite Hd.
  destruct (decide (state_ d = MODEL_LOADED)) as [Hl|Hne].
  2: { rewrite decide_True by done. split; [apply Hs|]. split; [done|by apply moved_refl]. }
  rewrite decide_False by (by intros ?). rewrite bind_run. cbn [st_gets fst snd].
  rewrite (op_module _ Hs). rewrite !bind_run.
  assert ((st_when (SUPPORT_WINDOW_MANAGER E) (FoldStatusOperation E u) s).2 = s) as ->.
  { pose proof (op_fold _ Hs) as Hf. unfold st_when. destruct (SUPPORT_WINDOW_MANAGER E); [|done].
    simpl in Hf. unfold FoldStatusOperation. rewrite bind_run. cbn [st_gets fst snd]. by rewrite Hf. }
  set (s1 := (st_when (ONLY_FIRST_STAGE E) (HandleWakeupInputGain E) s).2).
  assert (conn s1 = conn s ∧ modelDataMap_ s1 = modelDataMap_ s) as [Hc Hmm]
    by (unfold s1, st_when; by destruct (ONLY_FIRST_STAGE E)). clearbody s1.
  cbn [st_gets fst snd]. rewrite Hmm, Hd. cbn [from_option]. rewrite !on_conn_run, Hc.
  destruct (rm_start sid (modelHandle_ d) (conn s) (op_good _ Hs)) as [Hg Hok].
  assert (cm_view (conn s) sid !! modelHandle_ d = Some LOADED) as Hact.
  { pose proof (ag_data _ _ (op_agree _ Hs) u d Hd) as Ho. unfold data_ok in Ho. rewrite Hl in Ho.
    by rewrite (view_module s sid (op_module _ Hs)) in Ho. }
  cbn [fst snd]. rewrite (Hok Hact). cbn [Z.eqb negb]. rewrite bind_run. cbn.
  split; [exact Hg|]. split; [done|]. exists d, (d <| state_ := MODEL_STARTED |>). cbn.
  by rewrite Hmm, (alter_present _ _ _ d Hd).
Qed.

Lemma emit_operating e s : operating s → operating (emit e s).2.
Proof.
  intros Hs. eapply operating_step; [done|apply emit_agree, Hs| |apply Hs].
  destruct Hs as [_ ? _ ? _]. done.
Qed.

(** Reading a parameter changes nothing the helper relies on. *)
Lemma GetParameter_operating k s :
  operating s → operating (GetParameter E k s).2 ∧
                modelDataMap_ (GetParameter E k s).2 = modelDataMap_ s.
Proof.
  intros Hs. pose proof (GetParameter_agree E None k s (op_agree _ Hs)) as Ha. revert Ha.
  unfold GetParameter, GetModule. rewrite !bind_run. cbn [st_gets fst snd]. rewrite (op_module _ Hs).
  cbn [mret st_ret fst snd negb]. destruct (_ && _); [done|]. rewrite !bind_run. cbn [st_gets fst snd].
  rewrite (op_module _ Hs), bind_run, on_conn_run. cbn [mret st_ret fst snd]. intros Ha. split; [|done].
  eapply operating_step; [exact Hs|exact Ha|by apply operating_stable in Hs|].
  apply rm_params, Hs.
Qed.

(** The state [OnUpdateAllRecognitionState] aims at for a model. *)
Definition wanted (d : TriggerModelData) : bool := requested_ d && negb (IsConflictSceneActive E sc).
Definition settled s (u : Z) : Prop :=
  ∀ d, modelDataMap_ s !! u = Some d → bool_decide (state_ d = MODEL_STARTED) = wanted d.

(** The requested models are ones the connector accepts. *)
Definition loadable s : Prop :=
  ∀ u d, modelDataMap_ s !! u = Some d → requested_ d = true → ValidateGenericModel (model_ d) = true.

Lemma moved_wanted u st s s' d :
  moved u st s s' → modelDataMap_ s !! u = Some d →
  ∃ d', modelDataMap_ s' !! u = Some d' ∧ state_ d' = st ∧ wanted d' = wanted d ∧
        model_ d' = model_ d ∧ requested_ d' = requested_ d.
Proof.
  intros (d0 & d' & Hd0 & Hm & Hst & Hr & Hmo & _) Hd. rewrite Hd0 in Hd. injection Hd as <-.
  exists d'. rewrite Hm, lookup_insert_eq. unfold wanted. by rewrite Hr.
Qed.

Lemma moved_settled u st s s' d :
  moved u st s s' → modelDataMap_ s !! u = Some d → bool_decide (st = MODEL_STARTED) = wanted d →
  settled s' u.
Proof.
  intros Hm Hd Hb d' Hd'. destruct (moved_wanted _ _ _ _ d Hm Hd) as (d2 & H1 & H2 & H3 & _).
  rewrite H1 in Hd'. injection Hd' as <-. by rewrite H2, H3.
Qed.

(** The two branches of [update_one]: a model to start and one to stop. *)
Lemma update_starts u d s :
  operating s → modelDataMap_ s !! u = Some d → ValidateGenericModel (model_ d) = true →
  state_ d ≠ MODEL_STARTED →
  let '(stop, s') :=
    (r ← PrepareForRecognition u;
     if negb (r =? 0) then mret true else
     _ ← emit (EvReportStatus true); _ ← StartRecognition E u; mret false) s in
  operating s' ∧ stop = false ∧ moved u MODEL_STARTED s s'.
Proof.
  intros Hs Hd Hv Hns. rewrite bind_run.
  pose proof (PrepareForRecognition_works u d s Hs Hd Hv) as Hp.
  destruct (PrepareForRecognition u s) as [r s1]. cbn [fst snd]. destruct Hp as (Hs1 & -> & Hm1).
  cbn [Z.eqb negb]. rewrite bind_run. pose proof (emit_operating (EvReportStatus true) s1 Hs1) as Hs2.
  set (s2 := (emit (EvReportStatus true) s1).2) in *.
  assert (modelDataMap_ s2 = modelDataMap_ s1) as Hmm by done. clearbody s2.
  destruct (moved_wanted _ _ _ _ d Hm1 Hd) as (d1 & Hd1 & Hst1 & _).
  assert (state_ d1 = MODEL_LOADED) as Hl1.
  { rewrite Hst1. case_decide; [done|]. by destruct (state_ d). }
  assert (modelDataMap_ s2 !! u = Some d1) as Hd2 by congruence.
  pose proof (StartRecognition_works u d1 s2 Hs2 Hd2) as Hst. rewrite !bind_run.
  destruct (StartRecognition E u s2) as [r3 s3]. cbn [mret st_ret fst snd].
  destruct Hst as (Hs3 & _ & Hm3). rewrite Hl1 in Hm3. cbn in Hm3. split; [done|]. split; [done|].
  eapply moved_trans; [exact Hm1|]. unfold moved in *. by rewrite <- Hmm.
Qed.

Lemma update_stops u d s :
  operating s → modelDataMap_ s !! u = Some d →
  let '(stop, s') :=
    (_ ← emit (EvReportStatus false); _ ← StopRecognition u;
     if systemHibernate_ sc then
       _ ← UnloadModel u; _ ← emit (EvSleep HIBERNATE_WAIT_TIME); mret false
     else mret false) s in
  operating s' ∧ stop = false ∧ ∃ st, st ≠ MODEL_STARTED ∧ moved u st s s'.
Proof.
  intros Hs Hd. rewrite bind_run. pose proof (emit_operating (EvReportStatus false) s Hs) as Hs2.
  set (s2 := (emit (EvReportStatus false) s).2) in *.
  assert (modelDataMap_ s2 = modelDataMap_ s) as Hmm by done. clearbody s2.
  assert (modelDataMap_ s2 !! u = Some d) as Hd2 by congruence.
  pose proof (StopRecognition_works u d s2 Hs2 Hd2) as Hst. rewrite bind_run.
  destruct (StopRecognition u s2) as [r3 s3]. cbn [fst snd]. destruct Hst as (Hs3 & _ & Hm3).
  set (st3 := if decide (state_ d = MODEL_STARTED) then MODEL_LOADED else state_ d) in *.
  assert (st3 ≠ MODEL_STARTED) as Hst3 by (unfold st3; by case_decide).
  assert (moved u st3 s s3) as Hm by (unfold moved in *; by rewrite <- Hmm).
  destruct (systemHibernate_ sc); [|split; [done|]; split; [done|]; by exists st3].
  destruct (moved_wanted _ _ _ _ d Hm Hd) as (d3 & Hd3 & Hst3' & _).
  pose proof (UnloadModel_works u d3 s3 Hs3 Hd3) as Hun. rewrite !bind_run.
  destruct (UnloadModel u s3) as [r4 s4]. cbn [mret st_ret fst snd]. destruct Hun as (Hs4 & _ & Hm4).
  split; [by apply emit_operating|]. split; [done|].
  exists (if decide (state_ d3 = MODEL_LOADED) then MODEL_NOTLOADED else state_ d3).
  split; [destruct (decide (state_ d3 = MODEL_LOADED)); congruence|].
  by apply (moved_trans u st3 _ s s3 s4).
Qed.

(** One model is brought to the state it should be in; the loop goes on. *)
Lemma update_one_works u d s :
  operating s → modelDataMap_ s !! u = Some d →
  (requested_ d = true → ValidateGenericModel (model_ d) = true) →
  let '(stop, s') := update_one E u s in
  operating s' ∧ stop = false ∧ settled s' u ∧ ∃ st, moved u st s s'.
Proof.
  intros Hs Hd Hv. unfold update_one, get_data. rewrite bind_run. cbn [st_gets fst snd]. rewrite Hd.
  rewrite bind_run. cbn [st_gets fst snd]. rewrite (op_scene _ Hs). cbv zeta. fold (wanted d).
  destruct (Bool.eqb (wanted d) _) eqn:Hq.
  { apply Bool.eqb_prop in Hq. split; [done|]. split; [done|]. split; [|eexists; by apply moved_refl].
    eapply moved_settled; [by apply moved_refl|done|done]. }
  apply Bool.eqb_false_iff in Hq. destruct (wanted d) eqn:Hw.
  - assert (requested_ d = true) as Hreq by (apply andb_prop in Hw; apply Hw).
    assert (state_ d ≠ MODEL_STARTED) as Hns by (intros Heq; apply Hq; by rewrite bool_decide_true).
    pose proof (update_starts u d s Hs Hd (Hv Hreq) Hns) as Hup.
    destruct (@mbind (St (TriggerHelper M)) _ _ _ _ _ s) as [stop s'] in *. destruct Hup as (? & ? & Hm).
    split_and!; [done|done| |by eexists]. by eapply moved_settled; [exact Hm|exact Hd|].
  - pose proof (update_stops u d s Hs Hd) as Hup.
    destruct (@mbind (St (TriggerHelper M)) _ _ _ _ _ s) as [stop s'] in *. destruct Hup as (? & ? & st & Hst & Hm).
    split_and!; [done|done| |by eexists]. eapply moved_settled; [exact Hm|exact Hd|].
    rewrite Hw. by apply bool_decide_false.
Qed.

(** A change of one model leaves the others and the request of every model alone. *)
Lemma moved_other u st s s' v :
  moved u st s s' → u ≠ v → modelDataMap_ s' !! v = modelDataMap_ s !! v.
Proof. intros (d & d' & _ & -> & _) Hne. by rewrite lookup_insert_ne. Qed.

Lemma moved_loadable u st s s' : moved u st s s' → loadable s → loadable s'.
Proof.
  intros (d & d' & Hd & Hm & _ & Hr & Hmo & _) Hl v x. rewrite Hm, lookup_insert.
  case_decide; intros ?; simplify_eq; [rewrite Hr, Hmo; by apply (Hl v)|by apply (Hl v)].
Qed.

Lemma moved_requests u st s s' :
  moved u st s s' → requested_ <$> modelDataMap_ s' = requested_ <$> modelDataMap_ s.
Proof.
  intros (d & d' & Hd & Hm & _ & Hr & _). rewrite Hm, fmap_insert, Hr.
  apply insert_id. by rewrite lookup_fmap, Hd.
Qed.

Lemma update_loop_works l s :
  operating s → loadable s → NoDup l →
  (∀ u, u ∈ l → is_Some (modelDataMap_ s !! u)) →
  let s' := (st_for l (update_one E) s).2 in
  operating s' ∧ (∀ u, u ∈ l → settled s' u) ∧
  (∀ v, v ∉ l → modelDataMap_ s' !! v = modelDataMap_ s !! v) ∧
  requested_ <$> modelDataMap_ s' = requested_ <$> modelDataMap_ s.
Proof.
  revert s. induction l as [|u l IH]; intros s Hs Hl Hnd Hin.
  { split_and!; try done. intros u Hu. by apply elem_of_nil in Hu. }
  apply NoDup_cons in Hnd as [Hu Hnd]. rewrite for_cons.
  destruct (Hin u ltac:(by left)) as [d Hd].
  pose proof (update_one_works u d s Hs Hd (Hl u d Hd)) as Ho.
  destruct (update_one E u s) as [stop s1]. cbn [fst snd]. destruct Ho as (Hs1 & -> & Hset & st & Hm).
  destruct (IH s1) as (H1 & H2 & H3 & H4); [done|by eapply moved_loadable|done| |].
  { intros v Hv. destruct (decide (v = u)) as [->|Hne]; [done|].
    rewrite (moved_other _ _ _ _ v Hm) by done. apply Hin. by right. }
  split; [done|]. split; [|split].
  - intros v [->|Hv]%elem_of_cons; [|by apply H2]. intros x Hx. rewrite H3 in Hx by done. by apply Hset.
  - intros v [Hne Hv]%not_elem_of_cons. rewrite H3 by done. by eapply moved_other.
  - rewrite H4. by eapply moved_requests.
Qed.

Lemma update_all_works s :
  operating s → loadable s →
  let s' := (OnUpdateAllRecognitionState E s).2 in
  operating s' ∧ (∀ u, settled s' u) ∧
  requested_ <$> modelDataMap_ s' = requested_ <$> modelDataMap_ s.
Proof.
  intros Hs Hl. unfold OnUpdateAllRecognitionState. rewrite bind_run. cbn [st_get fst snd].
  destruct (update_loop_works (map_order (modelDataMap_ s)) s) as (H1 & H2 & H3 & H4);
    [done|done|apply map_order_NoDup|intros u; apply elem_of_map_order|].
  cbv zeta. split; [done|]. split; [|done]. intros u.
  destruct (decide (u ∈ map_order (modelDataMap_ s))) as [Hu|Hu]; [by apply H2|].
  intros d Hd. rewrite H3 in Hd by done. exfalso. apply Hu, elem_of_map_order. by eexists.
Qed.

(** ** Client operations *)

Lemma on_data_works u d f s :
  (∀ d, uuid_ (f d) = uuid_ d ∧ modelHandle_ (f d) = modelHandle_ d ∧
        (state_ (f d) = state_ d ∨ state_ (f d) = MODEL_NOTLOADED)) →
  operating s → modelDataMap_ s !! u = Some d →
  operating (on_data u f s).2 ∧ modelDataMap_ (on_data u f s).2 = <[u := f d]> (modelDataMap_ s).
Proof.
  intros Hf Hs Hd. split.
  - eapply operating_step; [done|by apply on_data_agree, Hs| |apply Hs].
    destruct Hs as [_ ? _ ? _]. done.
  - cbn. by rewrite (alter_present _ _ _ d Hd).
Qed.

(** Model [u] is now described by [d], the other models are as in [s]. *)
Definition becomes (u : Z) (d : TriggerModelData) s s' : Prop :=
  modelDataMap_ s' = <[u := d]> (modelDataMap_ s).

Lemma becomes_trans u d1 d2 s s1 s2 : becomes u d1 s s1 → becomes u d2 s1 s2 → becomes u d2 s s2.
Proof. unfold becomes. intros -> ->. by rewrite insert_insert_eq. Qed.

Lemma becomes_lookup u d s s' : becomes u d s s' → modelDataMap_ s' !! u = Some d.
Proof. unfold becomes. intros ->. by rewrite lookup_insert_eq. Qed.

Lemma moved_becomes u st s s' d :
  modelDataMap_ s !! u = Some d → moved u st s s' →
  ∃ d', becomes u d' s s' ∧ state_ d' = st ∧ requested_ d' = requested_ d ∧ model_ d' = model_ d ∧
        callback_ d' = callback_ d.
Proof.
  intros Hd (d0 & d' & Hd0 & Hm & H). rewrite Hd in Hd0. injection Hd0 as <-. by exists d'.
Qed.

Lemma InitRecognition_works u d b s :
  operating s → modelDataMap_ s !! u = Some d →
  let '(r, s') := InitRecognition u b s in
  operating s' ∧ r = 0 ∧
  ∃ d', becomes u d' s s' ∧ model_ d' = model_ d ∧ state_ d' ≠ MODEL_STARTED ∧
        (b = true → state_ d' = MODEL_NOTLOADED).
Proof.
  intros Hs Hd. unfold InitRecognition, get_data. rewrite bind_run. cbn [st_gets fst snd]. rewrite Hd.
  destruct (decide (state_ d = MODEL_NOTLOADED)) as [Hn|Hn];
    [rewrite bool_decide_true by (cbn; by rewrite Hn)|rewrite bool_decide_false by (cbn; congruence)].
  { split; [done|]. split; [done|]. exists d. rewrite Hn. split_and!; try done.
    unfold becomes. by rewrite insert_id. }
  rewrite bind_run. pose proof (StopRecognition_works u d s Hs Hd) as Hw.
  destruct (StopRecognition u s) as [r1 s1]. cbn [fst snd]. destruct Hw as (Hs1 & -> & Hm1).
  destruct (moved_becomes _ _ _ _ d Hd Hm1) as (d1 & Hb1 & Hst1 & Hr1 & Hmo1 & _).
  assert (state_ d1 = MODEL_LOADED) as Hl1 by (rewrite Hst1; case_decide; [done|]; destruct (state_ d) eqn:Hx; congruence).
  destruct b.
  2: { split; [done|]. split; [done|]. exists d1. rewrite Hl1. by split_and!. }
  rewrite bind_run. pose proof (UnloadModel_works u d1 s1 Hs1 (becomes_lookup _ _ _ _ Hb1)) as Hw.
  destruct (UnloadModel u s1) as [r2 s2]. cbn [fst snd]. destruct Hw as (Hs2 & -> & Hm2).
  destruct (moved_becomes _ _ _ _ d1 (becomes_lookup _ _ _ _ Hb1) Hm2)
    as (d2 & Hb2 & Hst2 & Hr2 & Hmo2 & _).
  rewrite bind_run. cbn [mret st_ret].
  destruct (on_data_works u d2 ClearData s2) as [Hs3 Hb3];
    [intros x; cbn; auto|done|by eapply becomes_lookup|].
  split; [done|]. split; [done|]. exists (ClearData d2). cbn. split_and!; try done.
  - eapply becomes_trans; [|exact Hb3]. by eapply becomes_trans.
  - congruence.
Qed.

Lemma StartGeneric_absent u model cb s :
  modelDataMap_ s !! u = None →
  StartGenericRecognition E u model cb s =
  StartGenericRecognition E u model cb (CreateTriggerModelData u s).2.
Proof.
  intros Hn. unfold StartGenericRecognition, get_data. rewrite !bind_run. cbn [st_gets fst snd].
  rewrite Hn. assert (modelDataMap_ (CreateTriggerModelData u s).2 !! u = Some (new_model_data u)) as Hc.
  { cbn. by rewrite lookup_insert_eq. }
  rewrite Hc. cbn [mret st_ret fst snd]. by rewrite !Hc.
Qed.

Lemma create_operating u s :
  operating s → modelDataMap_ s !! u = None → operating (CreateTriggerModelData u s).2.
Proof.
  intros Hs Hn. eapply operating_step; [done|by apply create_agree; split; [apply Hs|]| |apply Hs].
  destruct Hs as [_ ? _ ? _]. done.
Qed.

(** What a start request leaves behind for its model. *)
Definition start_done (model : GenericTriggerModel) (cb : option nat) (d : TriggerModelData) : Prop :=
  requested_ d = true ∧ SameModel (Some model) d = true ∧ (is_Some cb → callback_ d = cb) ∧
  bool_decide (state_ d = MODEL_STARTED) = negb (IsConflictSceneActive E sc).

(** The record a start request writes, over the record [d1] left by
    [InitRecognition] for [d]. *)
Lemma start_record model cb d d1 :
  ValidateGenericModel (Some model) = true → model_ d1 = model_ d →
  (SameModel (Some model) d = true → ValidateGenericModel (model_ d) = true) →
  let d4 := SetCallback cb (SetModel (Some model) d1) <| requested_ := true |> in
  SameModel (Some model) d4 = true ∧ ValidateGenericModel (model_ d4) = true ∧
  state_ d4 = state_ d1 ∧ (is_Some cb → callback_ d4 = cb).
Proof.
  intros Hv Hmo1 Hsame d4.
  assert (model_ d4 = model_ (SetModel (Some model) d1) ∧ state_ d4 = state_ (SetModel (Some model) d1))
    as [Hm4 Hs4'] by (unfold d4; by destruct cb).
  unfold SameModel. rewrite Hm4, Hs4'.
  pose proof (SetModel_SameModel (Some model) d1 ltac:(by eexists)) as Hq.
  split; [exact Hq|]. split; [|split].
  - unfold SetModel. destruct (SameModel (Some model) d1) eqn:Hq1; [|done]. rewrite Hmo1.
    apply Hsame. unfold SameModel in *. by rewrite Hmo1 in Hq1.
  - unfold SetModel. by destruct (SameModel (Some model) d1).
  - intros [c ->]. done.
Qed.

Lemma StartGeneric_present u model cb d s :
  operating s → modelDataMap_ s !! u = Some d → ValidateGenericModel (Some model) = true →
  (SameModel (Some model) d = true → ValidateGenericModel (model_ d) = true) →
  let '(r, s') := StartGenericRecognition E u model cb s in
  operating s' ∧ r = 0 ∧ ∃ d', becomes u d' s s' ∧ start_done model cb d'.
Proof.
  intros Hs Hd Hv Hsame. unfold StartGenericRecognition, get_data. rewrite !bind_run.
  cbn [st_gets fst snd]. rewrite Hd. cbn [mret st_ret fst snd]. rewrite Hd. cbn [from_option].
  cbv zeta.
  set (b := negb (SameModel (Some model) d)).
  pose proof (InitRecognition_works u d b s Hs Hd) as Hi.
  destruct (InitRecognition u b s) as [r1 s1]. cbn [fst snd].
  destruct Hi as (Hs1 & -> & d1 & Hb1 & Hmo1 & Hst1 & Hld1). cbn [Z.eqb negb]. rewrite bind_run.
  destruct (on_data_works u d1 (SetModel (Some model)) s1) as [Hs2 Hb2];
    [apply SetModel_keeps|done|by eapply becomes_lookup|].
  set (s2 := (on_data u (SetModel (Some model)) s1).2) in *. clearbody s2.
  rewrite bind_run. destruct (on_data_works u (SetModel (Some model) d1) (SetCallback cb) s2)
    as [Hs3 Hb3]; [by intros x; destruct cb; cbn; auto|done|by eapply becomes_lookup|].
  set (s3 := (on_data u (SetCallback cb) s2).2) in *. clearbody s3. rewrite bind_run.
  set (d3 := SetCallback cb (SetModel (Some model) d1)) in *.
  destruct (on_data_works u d3 (λ d, d <| requested_ := true |>) s3) as [Hs4 Hb4];
    [by intros x; cbn; auto|done|by eapply becomes_lookup|].
  set (s4 := (on_data u (λ d, d <| requested_ := true |>) s3).2) in *. clearbody s4.
  set (d4 := d3 <| requested_ := true |>) in *.
  assert (becomes u d4 s s4) as Hb by (do 3 (eapply becomes_trans; [|done]); done).
  destruct (start_record model cb d d1 Hv Hmo1 Hsame) as (Hsm & Hva & Hst4 & Hcb).
  change (SetCallback cb (SetModel (Some model) d1) <| requested_ := true |>) with d4 in *.
  rewrite bind_run. cbn [st_gets fst snd]. rewrite (op_scene _ Hs4).
  destruct (IsConflictSceneActive E sc) eqn:Hcf.
  { split; [done|]. split; [done|]. exists d4. split; [done|]. split_and!; try done.
    rewrite bool_decide_false; [by rewrite Hcf|congruence]. }
  rewrite bind_run.
  pose proof (PrepareForRecognition_works u d4 s4 Hs4 (becomes_lookup _ _ _ _ Hb) Hva) as Hp.
  destruct (PrepareForRecognition u s4) as [r5 s5]. cbn [fst snd]. destruct Hp as (Hs5 & -> & Hm5).
  cbn [Z.eqb negb].
  destruct (moved_becomes _ _ _ _ d4 (becomes_lookup _ _ _ _ Hb) Hm5) as (d5 & Hb5 & Hst5 & Hr5 & Hmo5 & Hc5).
  assert (state_ d5 = MODEL_LOADED) as Hl5 by (rewrite Hst5, Hst4; by destruct (state_ d1)).
  pose proof (StartRecognition_works u d5 s5 Hs5 (becomes_lookup _ _ _ _ Hb5)) as Hst.
  destruct (StartRecognition E u s5) as [r6 s6]. destruct Hst as (Hs6 & -> & Hm6).
  destruct (moved_becomes _ _ _ _ d5 (becomes_lookup _ _ _ _ Hb5) Hm6) as (d6 & Hb6 & Hst6 & Hr6 & Hmo6 & Hc6).
  rewrite Hl5 in Hst6. cbn in Hst6.
  split; [done|]. split; [done|]. exists d6. split.
  - eapply becomes_trans; [exact Hb|]. by eapply becomes_trans.
  - split; [by rewrite Hr6, Hr5|]. split; [unfold SameModel in *; by rewrite Hmo6, Hmo5|].
    split; [intros ?; rewrite Hc6, Hc5; by apply Hcb|]. rewrite Hst6. by rewrite Hcf.
Qed.

Lemma StopGeneric_works u d s :
  operating s → modelDataMap_ s !! u = Some d →
  let '(r, s') := StopGenericRecognition u s in
  operating s' ∧ r = 0 ∧ ∃ d', becomes u d' s s' ∧ requested_ d' = false ∧ callback_ d' = None ∧
                              state_ d' ≠ MODEL_STARTED ∧ model_ d' = model_ d.
Proof.
  intros Hs Hd. unfold StopGenericRecognition, get_data. rewrite bind_run. cbn [st_gets fst snd].
  rewrite Hd, bind_run.
  destruct (on_data_works u d (λ d, d <| requested_ := false |>) s) as [Hs1 Hb1];
    [by intros x; cbn; auto|done|done|].
  set (s1 := (on_data u (λ d, d <| requested_ := false |>) s).2) in *. clearbody s1. rewrite bind_run.
  pose proof (StopRecognition_works u _ s1 Hs1 (becomes_lookup _ _ _ _ Hb1)) as Hw.
  destruct (StopRecognition u s1) as [r2 s2]. cbn [fst snd]. destruct Hw as (Hs2 & -> & Hm2).
  cbn [Z.eqb negb]. destruct (moved_becomes _ _ _ _ _ (becomes_lookup _ _ _ _ Hb1) Hm2)
    as (d2 & Hb2 & Hst2 & Hr2 & Hmo2 & Hc2).
  rewrite bind_run. cbn [mret st_ret].
  destruct (on_data_works u d2 ClearCallback s2) as [Hs3 Hb3];
    [by intros x; cbn; auto|done|by eapply becomes_lookup|].
  split; [done|]. split; [done|]. exists (ClearCallback d2). split_and!; try done.
  - eapply becomes_trans; [|exact Hb3]. by eapply becomes_trans.
  - cbn. rewrite Hst2. cbn. destruct (decide (state_ d = MODEL_STARTED)); congruence.
Qed.

End reliable.

(** ** The connector over the reference HAL is reliable *)

Definition sound_conn (c : TriggerConnector RefHal) : Prop :=
  adapter_ c = true ∧ rh_start_fails (hal c) = false ∧ rh_stop_fails (hal c) = false.

Lemma call_sound {A} (f : St RefHal A) :
  (∀ h, rh_start_fails (f h).2 = rh_start_fails h ∧ rh_stop_fails (f h).2 = rh_stop_fails h) →
  ⟪ sound_conn ⟫ call f ⟪ λ _, sound_conn ⟫.
Proof.
  intros Hf c (H1 & H2 & H3). unfold call. destruct (Hf (hal c)) as [F1 F2].
  destruct (f (hal c)) as [a h]. unfold sound_conn. cbn in *. by rewrite F1, F2.
Qed.

Lemma on_session_sound sid g : ⟪ sound_conn ⟫ on_session (H := RefHal) sid g ⟪ λ _, sound_conn ⟫.
Proof. by intros c Hc. Qed.

#[local] Hint Resolve on_session_sound : ivoice.

Lemma session_sound sid h md :
  ⟪ sound_conn ⟫ Session_LoadModel sid md ⟪ λ _, sound_conn ⟫ ∧
  ⟪ sound_conn ⟫ Session_UnloadModel sid h ⟪ λ _, sound_conn ⟫ ∧
  ⟪ sound_conn ⟫ Session_Start sid h ⟪ λ _, sound_conn ⟫ ∧
  ⟪ sound_conn ⟫ Session_Stop sid h ⟪ λ _, sound_conn ⟫.
Proof.
  unfold Session_LoadModel, Session_UnloadModel, Session_Start, Session_Stop, with_model, Model_Load,
    Model_Start, Model_Stop, Model_Unload, CreateAshmemFromModelData.
  split_and!; keeps; by apply call_sound.
Qed.

Definition ref_good (g : ConnectorMgr RefHal) (sid : nat) : Prop :=
  ∃ c, connectors_ g = Some c ∧ sound_conn c.

Lemma on_connector_good {A} (x : A) (f : St (TriggerConnector RefHal) A) g sid :
  ⟪ sound_conn ⟫ f ⟪ λ _, sound_conn ⟫ → ref_good g sid → ref_good (on_connector x f g).2 sid.
Proof.
  intros Hf (c & Hc & Hs). unfold on_connector. rewrite Hc. specialize (Hf c Hs).
  destruct (f c) as [a c']. by exists c'.
Qed.

Lemma conn_view_model (c : TriggerConnector RefHal) sid h st :
  conn_view c sid !! h = Some st → ∃ md, find_model c sid h = Some md ∧ cstate_ md = st.
Proof.
  unfold conn_view, find_model. rewrite lookup_fmap.
  destruct (loadedModels_ (session c sid) !! h) as [md|]; [|done]. intros [= <-]. by exists md.
Qed.

#[global] Instance ref_reliable : ReliableModule (ConnectorMgr RefHal).
Proof.
  refine {| rm_good := ref_good |}.
  - intros sid md g Hg. destruct md as [m|]; [|by split].
    cbn [cm_LoadModel connector_module]. unfold Validation_LoadModel.
    destruct (ValidateGenericModel (Some m)) eqn:Hv; [|by split].
    split; [apply on_connector_good; [apply (session_sound sid 0 m)|done]|]. intros _.
    destruct Hg as (c & Hc & Ha & Hst & Hsp). unfold on_connector. rewrite Hc.
    apply andb_prop in Hv as [_ Hd]. apply negb_true_iff, bool_decide_eq_false in Hd.
    unfold Session_LoadModel. rewrite bind_run. cbn [st_get fst snd]. rewrite Ha. cbn [negb].
    unfold Model_Load, CreateAshmemFromModelData. cbn [cstate_]. rewrite decide_False by (by intros ?).
    rewrite decide_False by done. by rewrite !bind_run.
  - intros sid h g Hg. cbn [cm_UnloadModel connector_module].
    split; [apply on_connector_good; [apply (session_sound sid h wake_model)|done]|]. intros Hview.
    destruct Hg as (c & Hc & Ha & Hst & Hsp). unfold on_connector.
    change (cm_view g sid) with (mgr_view g sid) in Hview. unfold mgr_view in Hview.
    rewrite Hc in *. destruct (conn_view_model _ _ _ _ Hview) as (md & Hf & Hm).
    unfold Session_UnloadModel, with_model, Model_Unload. rewrite bind_run. cbn [st_get fst snd].
    rewrite Ha, Hf. cbn [negb]. rewrite bind_run, decide_False by congruence. by rewrite bind_run.
  - intros sid h g Hg. cbn [cm_Start connector_module].
    split; [apply on_connector_good; [apply (session_sound sid h wake_model)|done]|]. intros Hview.
    destruct Hg as (c & Hc & Ha & Hst & Hsp). unfold on_connector.
    change (cm_view g sid) with (mgr_view g sid) in Hview. unfold mgr_view in Hview.
    rewrite Hc in *. destruct (conn_view_model _ _ _ _ Hview) as (md & Hf & Hm).
    unfold Session_Start, with_model, Model_Start. rewrite bind_run. cbn [st_get fst snd].
    rewrite Ha, Hf. cbn [negb]. rewrite bind_run, decide_False by (intros ?; congruence).
    rewrite bind_run. cbn. rewrite bind_run. cbn. by rewrite Hst.
  - intros sid h g Hg. cbn [cm_Stop connector_module].
    split; [apply on_connector_good; [apply (session_sound sid h wake_model)|done]|]. intros Hview.
    destruct Hg as (c & Hc & Ha & Hst & Hsp). unfold on_connector.
    change (cm_view g sid) with (mgr_view g sid) in Hview. unfold mgr_view in Hview.
    rewrite Hc in *. destruct (conn_view_model _ _ _ _ Hview) as (md & Hf & Hm).
    unfold Session_Stop, with_model, Model_Stop. rewrite bind_run. cbn [st_get fst snd].
    rewrite Ha, Hf. cbn [negb]. rewrite bind_run, decide_False by (intros ?; congruence).
    rewrite bind_run. cbn. rewrite bind_run. cbn. by rewrite Hsp.
  - intros sid k g Hg. cbn [cm_GetParams connector_module]. apply on_connector_good; [|done].
    unfold Session_GetParams. keeps. by apply call_sound.
Defined.

(** ** Concrete states for the witnesses *)

Definition ref_env : Env := mkEnv true false false "" (λ _, None).
Definition ref_mgr : ConnectorMgr RefHal := new_connector_mgr 9 true (mkRefHal 0 true true false false).

Lemma ref_mgr_wf : cm_wf ref_mgr.
Proof. change (mgr_wf ref_mgr). vm_compute. apply Forall_nil_2. Qed.

(** A helper that has started the wake-up model, in the scene [sc]. *)
Definition ref_helper (sc : Scene) : TriggerHelper (ConnectorMgr RefHal) :=
  (StartGenericRecognition ref_env 1 wake_model (Some 7%nat) (Create ref_mgr)).2 <| scene := sc |>.

Lemma Create_agree {M} `{!ConnectorModule M} `{!ConnectorLaws M} (m : M) :
  cm_wf m → agree None (Create m).
Proof.
  intros Hm. constructor; cbn; try done.
  all: intros *; rewrite ?lookup_empty; try done.
  all: try (by intros []).
Qed.

Lemma ref_helper_operating sc : operating ref_env 0 sc (ref_helper sc).
Proof.
  constructor; [|vm_compute; reflexivity| |reflexivity|reflexivity].
  - assert (agree None (StartGenericRecognition ref_env 1 wake_model (Some 7%nat) (Create ref_mgr)).2)
      as Ha by (by apply StartGenericRecognition_agree, Create_agree, ref_mgr_wf).
    by apply (modify_agree None (λ s : TriggerHelper (ConnectorMgr RefHal), s <| scene := sc |>)) in Ha.
  - vm_compute. eexists. split; [reflexivity|]. split_and!; reflexivity.
Qed.

Definition calling : Scene := init_scene <| callActive_ := true |>.

(** * Properties *)

(** C8: when the helper operates, [OnUpdateAllRecognitionState] leaves every model
    started exactly when it is requested and no conflicting scene is active, and
    changes no request. The helper operates ([operating]) when its records agree with
    the connector and no event is on its way, the module is open and reliable (it does
    not refuse a valid request), and the device does not fold or is built without the
    window manager; and every requested model must be one the connector accepts
    ([loadable]). A requested model that is not ends the loop: see
    [refused_type_sticks]. *)
Theorem recognition_converges E {M} `{!ConnectorModule M} `{!ConnectorLaws M} `{!ReliableModule M}
    sid (s : TriggerHelper M) :
  operating E sid (scene s) s → loadable s →
  let s' := (OnUpdateAllRecognitionState E s).2 in
  (∀ u d, modelDataMap_ s' !! u = Some d →
     (state_ d = MODEL_STARTED ↔ requested_ d = true ∧ IsConflictSceneActive E (scene s) = false)) ∧
  requested_ <$> modelDataMap_ s' = requested_ <$> modelDataMap_ s ∧
  agree None s' ∧ scene s' = scene s.
Proof.
  intros Hs Hl. destruct (update_all_works E sid (scene s) s Hs Hl) as (H1 & H2 & H3).
  cbv zeta. split_and!; [|done|apply H1|apply H1]. intros u d Hd. specialize (H2 u d Hd).
  unfold wanted in H2. rewrite <- (bool_decide_eq_true (state_ d = MODEL_STARTED)), H2.
  by rewrite andb_true_iff, negb_true_iff.
Qed.

Lemma recognition_converges_witness :
  state_ <$> modelDataMap_ (ref_helper calling) !! 1 = Some MODEL_STARTED ∧
  state_ <$> modelDataMap_ (OnUpdateAllRecognitionState ref_env (ref_helper calling)).2 !! 1 =
    Some MODEL_LOADED ∧
  agree None (OnUpdateAllRecognitionState ref_env (ref_helper calling)).2.
Proof.
  split; [vm_compute; reflexivity|]. split; [vm_compute; reflexivity|].
  apply (recognition_converges ref_env 0 (ref_helper calling) (ref_helper_operating calling)).
  intros u d. assert (modelDataMap_ (ref_helper calling) =
    {[1 := mkModelData 1 MODEL_STARTED (Some wake_model) (Some 7%nat) 1 true]}) as -> by (vm_compute; reflexivity).
  rewrite lookup_singleton_Some. intros [_ <-] _. reflexivity.
Defined.

(** C22: when the helper operates (see [recognition_converges]),
    [StartGenericRecognition] with a model the connector accepts succeeds for every
    uuid, unless the uuid has the same bytes on record with a type that the connector
    refuses ([refused_type_sticks]): the model is recorded as requested with its bytes
    and callback, recognition runs unless a conflicting scene is active, and no other
    model changes. *)
Theorem StartGenericRecognition_spec E {M} `{!ConnectorModule M} `{!ConnectorLaws M}
    `{!ReliableModule M} sid u model cb (s : TriggerHelper M) :
  operating E sid (scene s) s → ValidateGenericModel (Some model) = true →
  (∀ d, modelDataMap_ s !! u = Some d → SameModel (Some model) d = true →
        ValidateGenericModel (model_ d) = true) →
  let '(r, s') := StartGenericRecognition E u model cb s in
  r = 0 ∧ operating E sid (scene s) s' ∧
  ∃ d, modelDataMap_ s' = <[u := d]> (modelDataMap_ s) ∧
       requested_ d = true ∧ SameModel (Some model) d = true ∧ (is_Some cb → callback_ d = cb) ∧
       bool_decide (state_ d = MODEL_STARTED) = negb (IsConflictSceneActive E (scene s)).
Proof.
  intros Hs Hv Hsame. destruct (modelDataMap_ s !! u) as [d|] eqn:Hd.
  - pose proof (StartGeneric_present E sid (scene s) u model cb d s Hs Hd Hv (Hsame d eq_refl)) as Hp.
    destruct (StartGenericRecognition E u model cb s) as [r s'].
    destruct Hp as (H1 & H2 & d' & Hb & Hd'). split; [done|]. split; [done|]. by exists d'.
  - rewrite StartGeneric_absent by done.
    pose proof (StartGeneric_present E sid (scene s) u model cb (new_model_data u)
      (CreateTriggerModelData u s).2 (create_operating E sid (scene s) u s Hs Hd)) as Hp.
    destruct (StartGenericRecognition E u model cb _) as [r s'].
    destruct Hp as (H1 & H2 & d' & Hb & Hd'); [cbn; by rewrite lookup_insert_eq|done|done|].
    split; [done|]. split; [done|]. exists d'. split; [|done]. unfold becomes in Hb. rewrite Hb. cbn.
    by rewrite insert_insert_eq.
Qed.

Lemma StartGenericRecognition_spec_witness :
  let '(r, s') := StartGenericRecognition ref_env 2 whisper_model (Some 8%nat) (ref_helper init_scene) in
  r = 0 ∧ operating ref_env 0 init_scene s' ∧
  ∃ d, modelDataMap_ s' = <[2 := d]> (modelDataMap_ (ref_helper init_scene)) ∧
       requested_ d = true ∧ SameModel (Some whisper_model) d = true ∧
       (is_Some (Some 8%nat) → callback_ d = Some 8%nat) ∧
       bool_decide (state_ d = MODEL_STARTED) = negb (IsConflictSceneActive ref_env init_scene).
Proof.
  apply (StartGenericRecognition_spec ref_env 0 2 whisper_model (Some 8%nat) (ref_helper init_scene)
           (ref_helper_operating init_scene)); [reflexivity|].
  intros d. assert (modelDataMap_ (ref_helper init_scene) !! 2 = None) as -> by (vm_compute; reflexivity).
  discriminate.
Defined.

(** [StopGenericRecognition] of a known model over a reliable connector
    succeeds and leaves it not started, not requested and without callback, its
    model kept and the other models unchanged; for an unknown uuid it fails with
    -1 and changes nothing. *)
Theorem StopGenericRecognition_spec E {M} `{!ConnectorModule M} `{!ConnectorLaws M}
    `{!ReliableModule M} sid u (s : TriggerHelper M) :
  operating E sid (scene s) s →
  let '(r, s') := StopGenericRecognition u s in
  match modelDataMap_ s !! u with
  | None => r = -1 ∧ s' = s
  | Some d =>
    r = 0 ∧ operating E sid (scene s) s' ∧
    ∃ d', modelDataMap_ s' = <[u := d']> (modelDataMap_ s) ∧ requested_ d' = false ∧
          callback_ d' = None ∧ state_ d' ≠ MODEL_STARTED ∧ model_ d' = model_ d
  end.
Proof.
  intros Hs. destruct (modelDataMap_ s !! u) as [d|] eqn:Hd.
  - pose proof (StopGeneric_works E sid (scene s) u d s Hs Hd) as Hp.
    destruct (StopGenericRecognition u s) as [r s']. destruct Hp as (H1 & H2 & d' & Hb & Hd').
    split; [done|]. split; [done|]. by exists d'.
  - unfold StopGenericRecognition, get_data. rewrite bind_run. cbn [st_gets fst snd]. by rewrite Hd.
Qed.

Lemma StopGenericRecognition_spec_witness :
  (StopGenericRecognition 1 (ref_helper init_scene)).1 = 0 ∧
  (StopGenericRecognition 5 (ref_helper init_scene)).1 = -1.
Proof.
  pose proof (StopGenericRecognition_spec ref_env 0 1 (ref_helper init_scene)
                (ref_helper_operating init_scene)) as H1.
  pose proof (StopGenericRecognition_spec ref_env 0 5 (ref_helper init_scene)
                (ref_helper_operating init_scene)) as H5.
  assert (modelDataMap_ (ref_helper init_scene) !! 1 =
    Some (mkModelData 1 MODEL_STARTED (Some wake_model) (Some 7%nat) 1 true)) as E1 by (vm_compute; reflexivity).
  assert (modelDataMap_ (ref_helper init_scene) !! 5 = None) as E5 by (vm_compute; reflexivity).
  rewrite E1 in H1. rewrite E5 in H5.
  destruct (StopGenericRecognition 1 _) as [r1 s1], (StopGenericRecognition 5 _) as [r5 s5].
  split; [apply H1|apply H5].
Defined.

(** Delivery of a recognition event changes only the model with the
    event's handle, which becomes loaded again, and makes exactly one call of
    that model's callback, or none when it has been removed. *)
Theorem OnRecognition_spec {M} `{!ConnectorModule M} `{!ConnectorLaws M} h u d (s : TriggerHelper M) :
  agree (Some h) s → modelDataMap_ s !! u = Some d → modelHandle_ d = h →
  let s' := (OnRecognition h s).2 in
  modelDataMap_ s' = <[u := d <| state_ := MODEL_LOADED |>]> (modelDataMap_ s) ∧
  out s' = out s ++ from_option (λ cb, [EvDetected cb h]) [] (callback_ d) ∧ agree None s'.
Proof.
  intros Ha Hd Hh. cbv zeta.
  assert (find_handle (map_order (modelDataMap_ s)) (modelDataMap_ s) h = Some u) as Hf.
  { destruct (find_handle _ _ h) as [u'|] eqn:Hf.
    - apply find_handle_Some in Hf as (_ & d' & Hd' & Hh'). f_equal.
      destruct (decide (u' = u)) as [|Hne]; [done|]. exfalso.
      destruct (ag_pend _ _ Ha h eq_refl) as [Hl _].
      assert (h = 0) as ->; [|pose proof (ag_zero _ _ Ha); congruence].
      rewrite <- Hh'. apply (ag_distinct _ _ Ha u' u d' d); [done|done|done|congruence].
    - exfalso. eapply find_handle_None; [exact Hf| |exact Hd|exact Hh].
      apply elem_of_map_order. by eexists. }
  assert (agree None (OnRecognition h s).2) as Hag by by apply OnRecognition_agree.
  revert Hag. unfold OnRecognition. rewrite bind_run. cbn [st_get fst snd]. rewrite Hf.
  rewrite !bind_run. cbn. rewrite (alter_present _ _ _ d Hd), lookup_insert_eq. cbn.
  destruct (callback_ d) as [cb|]; intros Hag; (split; [done|split; [|exact Hag]]); cbn.
  - done.
  - by rewrite app_nil_r.
Qed.

(** The started helper with the recognition event of its model under way. *)
Definition ref_recognized : TriggerHelper (ConnectorMgr RefHal) :=
  ref_helper init_scene <| conn := (cm_Recognize 0 1 (conn (ref_helper init_scene))).2 |>.

Lemma OnRecognition_spec_witness :
  out (OnRecognition 1 ref_recognized).2 = out ref_recognized ++ [EvDetected 7 1].
Proof.
  destruct (OnRecognition_spec 1 1 (mkModelData 1 MODEL_STARTED (Some wake_model) (Some 7%nat) 1 true)
              ref_recognized) as (_ & H & _); [|vm_compute; reflexivity|reflexivity|exact H].
  exact (recognize_agree 1 0 (ref_helper init_scene)
           (op_agree _ _ _ _ (ref_helper_operating init_scene)) eq_refl).
Defined.

(** When the connector fails to stop a model that is being replaced, the
    failure is lost: [StartGenericRecognition] reports success and runs the new
    model while the old one stays active in the session under a handle the
    helper no longer knows. *)
Theorem replaced_model_stays_active :
  let m := new_connector_mgr 9 true (mkRefHal 0 true true false true) in
  let s := (StartGenericRecognition ref_env 1 wake_model (Some 7%nat) (Create m)).2 in
  let '(r, s') := StartGenericRecognition ref_env 1 whisper_model (Some 7%nat) s in
  r = 0 ∧
  (modelHandle_ <$> modelDataMap_ s' !! 1 = Some 2) ∧
  (mgr_view (conn s') 0 !! 1 = Some ACTIVE) ∧ (mgr_view (conn s') 0 !! 2 = Some ACTIVE).
Proof. vm_compute. split_and!; reflexivity. Qed.

(** A model refused for its type blocks its uuid: the same bytes with a
    valid type are taken for the same model, so that the refused one is tried
    again and again. *)
Theorem refused_type_sticks :
  let bad := wake_model <| type_ := 9 |> in
  let '(r1, s1) := StartGenericRecognition ref_env 1 bad (Some 7%nat) (Create ref_mgr) in
  let '(r2, s2) := StartGenericRecognition ref_env 1 wake_model (Some 7%nat) s1 in
  r1 = -1 ∧ r2 = -1 ∧ ValidateGenericModel (Some wake_model) = true ∧
  (StartGenericRecognition ref_env 1 wake_model (Some 7%nat) (Create ref_mgr)).1 = 0.
Proof. vm_compute. split_and!; reflexivity. Qed.
