(* ===== verification/InputPipe.v ===== *)
(** * Concurrent capture

    The part of [trigger_helper.cpp] that decides whether recognition may go on
    while other applications record: the input-pipe listener of the audio engine
    ([AudioInputPipeListener]), the concurrency lists, the renderer callback, and
    the attachment of the listeners.  The audio, bundle and telephony services
    and the JSON parser are outside the repository: their enumerators are the
    fields of [AudioIds], their answers those of [World]. *)

From S2P Require Import Prelude StringUtil TriggerTypes Connector TriggerHelper Recognition.

(** The enumerators of the audio framework the code names. *)
Record AudioIds := mkAudioIds {
  SOURCE_TYPE_MIC : Z; SOURCE_TYPE_VOICE_RECOGNITION : Z; SOURCE_TYPE_ULTRASONIC : Z;
  SOURCE_TYPE_VOICE_TRANSCRIPTION : Z; SOURCE_TYPE_CAMCORDER : Z; SOURCE_TYPE_UNPROCESSED : Z;
  SOURCE_TYPE_VOICE_CALL : Z; SOURCE_TYPE_VOICE_COMMUNICATION : Z;
  CAPTURER_RUNNING : Z; RENDERER_RUNNING : Z;
  HDI_ADAPTER_TYPE_PRIMARY : Z;
  AUDIO_FLAG_NONE : Z; AUDIO_INPUT_FLAG_OFFLOAD : Z; AUDIO_INPUT_FLAG_WAKEUP : Z;
  STREAM_USAGE_VOICE_COMMUNICATION : Z; STREAM_USAGE_VIDEO_COMMUNICATION : Z;
  STREAM_USAGE_VOICE_MODEM_COMMUNICATION : Z }.

(** [CapturerStreamInfo], [AudioInputPipeInfo] and the renderer information. *)
Record CapturerStreamInfo := mkStream {
  source_ : Z; stream_state : Z; uid_ : Z; mute_ : bool; mixWithWakeUp_ : bool }.
Record AudioInputPipeInfo := mkPipe {
  pipe_adapter : Z; pipe_flag : Z; pipe_streams : gmap Z CapturerStreamInfo }.
Record RendererInfo := mkRenderer { rendererState : Z; streamUsage : Z }.

(** The JSON value of a "sourceTypes" member: [None] when it is not an array;
    an element that is not a string is [None]. *)
Definition JsonSources : Type := option (list (option str)).

(** What the listener reads from outside. *)
Record World := mkWorld {
  (** [IBundleMgr::GetBundleNameForUid], empty when it fails. *)
  w_bundle : Z → string;
  (** [GetCurrentInputPipeChangeInfos]; [None] when it fails. *)
  w_pipes : option (list (option AudioInputPipeInfo));
  (** [HistoryInfoMgr::GetStringKVPair]. *)
  w_kv : string → string;
  (** [Json::parseFromStream]: the items' "bundleName" and "sourceTypes". *)
  w_json : string → option (list (string * JsonSources)) }.

(** The members of [TriggerHelper] this part uses. *)
Record PipeState := mkPipeState {
  mFirstProc : bool; mExtensionConcurrency_ : bool; mCameraConcurrency_ : bool;
  whitelistWhisperEnbale_ : bool;
  concurrentWhitelist_ : gmap string (gset Z); concurrentBlacklist_ : gmap string (gset Z);
  concurrentTypeSet_ : gset Z; ExtensionConcurrentTypeSet_ : gset Z;
  hasStreamBesidesVoip_ : bool; hasStreamBesidesVoice_ : bool;
  audioInputPipeCallback_ : bool; isCapturerDetached_ : bool;
  rendererStateMap_ : gmap Z bool; isRendererDetached_ : bool; isSceneDetached_ : bool;
  foldStatusListener_ : bool; isFoldStatusDetached_ : bool;
  perfGeniusHandle_ : bool; fanRunning_ : bool; isFanListenerDetached_ : bool;
  (** [g_fanHelperInstance] is this helper. *)
  g_fanHelperInstance : bool;
  telephonyObserver0_ : bool; isTelephonyDetached_ : bool;
  hibernateCallback_ : bool; isHibernateDetached_ : bool }.
#[global] Instance PipeState_eta : Eta PipeState :=
  λ p, mkPipeState (mFirstProc p) (mExtensionConcurrency_ p) (mCameraConcurrency_ p)
         (whitelistWhisperEnbale_ p) (concurrentWhitelist_ p) (concurrentBlacklist_ p)
         (concurrentTypeSet_ p) (ExtensionConcurrentTypeSet_ p) (hasStreamBesidesVoip_ p)
         (hasStreamBesidesVoice_ p) (audioInputPipeCallback_ p) (isCapturerDetached_ p)
         (rendererStateMap_ p) (isRendererDetached_ p) (isSceneDetached_ p)
         (foldStatusListener_ p) (isFoldStatusDetached_ p) (perfGeniusHandle_ p) (fanRunning_ p)
         (isFanListenerDetached_ p) (g_fanHelperInstance p) (telephonyObserver0_ p)
         (isTelephonyDetached_ p) (hibernateCallback_ p) (isHibernateDetached_ p).

(** The helper with those members. *)
Record Full (M : Type) := mkFull { core : TriggerHelper M; pipe : PipeState }.
Arguments mkFull {M} _ _.
Arguments core {M} _.
Arguments pipe {M} _.
#[global] Instance Full_eta M : Eta (Full M) := λ f, mkFull (core f) (pipe f).

(** [enum class captureMethod]. *)
Inductive captureMethod :=
| SAME_STATE
| DO_CONCURRENT_CLOSE_SOURCE
| DO_CONCURRENT_OPEN_SOURCE
| DO_NO_CONCURRENT_STOP_SOURCE
| DO_NO_CONCURRENT_OPEN_SOURCE
| DO_CONCURRENT_STOP_AND_NO_CONCURRENT_OPEN_SOURCE
| DO_NO_CONCURRENT_STOP_AND_CONCURRENT_OPEN_SOURCE.

(** [stateToInt] and [methodTable]. *)
Definition stateToInt (concurrentState sourceState : bool) : nat :=
  ((if concurrentState then 2 else 0) + (if sourceState then 1 else 0))%nat.

Definition methodTable : list (list captureMethod) :=
  [ [SAME_STATE; DO_NO_CONCURRENT_OPEN_SOURCE; DO_NO_CONCURRENT_STOP_SOURCE;
     DO_NO_CONCURRENT_STOP_AND_CONCURRENT_OPEN_SOURCE];
    [DO_NO_CONCURRENT_STOP_SOURCE; SAME_STATE; DO_NO_CONCURRENT_STOP_SOURCE;
     DO_NO_CONCURRENT_STOP_AND_CONCURRENT_OPEN_SOURCE];
    [DO_NO_CONCURRENT_OPEN_SOURCE; DO_NO_CONCURRENT_OPEN_SOURCE; SAME_STATE;
     DO_CONCURRENT_OPEN_SOURCE];
    [DO_CONCURRENT_STOP_AND_NO_CONCURRENT_OPEN_SOURCE;
     DO_CONCURRENT_STOP_AND_NO_CONCURRENT_OPEN_SOURCE; DO_CONCURRENT_CLOSE_SOURCE; SAME_STATE] ].

Definition method (oldState newState : nat) : captureMethod :=
  default SAME_STATE ((methodTable !! oldState) ≫= (.!! newState)).

Section pipe.
Context (E : Env) (A : AudioIds) {M : Type} `{!ConnectorModule M}.
Abbreviation FM := (St (Full M)).
Implicit Types f : Full M.

(** The member initialisers. *)
Definition init_pipe : PipeState :=
  mkPipeState false false false true ∅ ∅ ∅
    {[SOURCE_TYPE_MIC A; SOURCE_TYPE_VOICE_RECOGNITION A; SOURCE_TYPE_ULTRASONIC A;
      SOURCE_TYPE_VOICE_TRANSCRIPTION A; SOURCE_TYPE_CAMCORDER A; SOURCE_TYPE_UNPROCESSED A]}
    false false false false ∅ false false false false false false false false false false false false.
Definition new_full (m : M) : Full M := mkFull (Create m) init_pipe.

Definition on_core {X} (k : St (TriggerHelper M) X) : FM X := λ f,
  let '(x, c) := k (core f) in (x, f <| core := c |>).
Definition on_pipe (g : PipeState → PipeState) : FM unit := st_modify (λ f, f <| pipe ::= g |>).

(** ** The concurrency lists *)

(** [ParseSourceTypes]: the types added to both sets. *)
Definition ParseSourceTypes (sources : JsonSources) : gset Z :=
  match sources with
  | None => ∅
  | Some l => list_to_set (omap (λ src : option str, src ≫= stoi) l)
  end.

(** [SetConcurrencyControlList] for the white list and for the black list.  The
    source sets are keyed by bundle name, a later item replaces an earlier one. *)
Definition parsed_items (W : World) (key : string) : list (string * JsonSources) :=
  let value := w_kv W key in
  if bool_decide (value = EmptyString) then [] else default [] (w_json W value).

Definition lists_of (items : list (string * JsonSources)) : gmap string (gset Z) :=
  foldl (λ m it, <[it.1 := ParseSourceTypes it.2]> m) ∅ items.
Definition types_of (items : list (string * JsonSources)) : gset Z :=
  ⋃ ((λ it, ParseSourceTypes it.2) <$> items).

Definition SetConcurrencyControlList_white (W : World) : FM unit :=
  let items := parsed_items W "concurrentWhiteList" in
  on_pipe (λ p, p <| concurrentWhitelist_ := lists_of items |>
                  <| concurrentTypeSet_ := types_of items |>).
Definition SetConcurrencyControlList_black (W : World) : FM unit :=
  on_pipe (λ p, p <| concurrentBlacklist_ := lists_of (parsed_items W "concurrentBlackList") |>).

(** [ClearConcurrentControlList]. *)
Definition ClearConcurrentControlList (isWhiteList isBlackList : bool) : FM unit :=
  if isWhiteList then
    on_pipe (λ p, p <| concurrentWhitelist_ := ∅ |> <| concurrentTypeSet_ := ∅ |>)
  else if isBlackList then on_pipe (λ p, p <| concurrentBlacklist_ := ∅ |>)
  else mret ().

(** ** The checks of the listener *)

(** [CheckCallConflict]. *)
Definition CheckCallConflict (s : Scene) : bool :=
  let scene_is x := bool_decide (audioScene_ s = x) in
  if negb (mVoipConcurrency_ s) && callActive_ s then true else
  if mVoipConcurrency_ s && negb (mCallConcurrency_ s) && negb (scene_is AUDIO_SCENE_DEFAULT) &&
     negb (scene_is AUDIO_SCENE_PHONE_CHAT) && negb (scene_is AUDIO_SCENE_RINGING) then true else
  if mVoipConcurrency_ s && mCallConcurrency_ s && negb (scene_is AUDIO_SCENE_DEFAULT) &&
     negb (scene_is AUDIO_SCENE_PHONE_CHAT) && negb (scene_is AUDIO_SCENE_PHONE_CALL) &&
     negb (scene_is AUDIO_SCENE_RINGING) then true else false.

(** [CheckCallOnly]. *)
Definition CheckCallOnly (s : Scene) (p : PipeState) : bool :=
  if negb (mCallConcurrency_ s) then false else
  bool_decide (audioScene_ s = AUDIO_SCENE_PHONE_CALL) && hasStreamBesidesVoice_ p.

(** [CheckBlacklistConflict]: an empty list is read again. *)
Definition CheckBlacklistConflict (W : World) (bundleName : string) (i : CapturerStreamInfo)
    : FM bool :=
  f ← st_get;
  if negb (mExtensionConcurrency_ (pipe f)) then mret false else
  _ ← st_when (bool_decide (concurrentBlacklist_ (pipe f) = ∅)) (SetConcurrencyControlList_black W);
  f ← st_get;
  mret (match concurrentBlacklist_ (pipe f) !! bundleName with
        | Some types => bool_decide (source_ i ∈ types) && (stream_state i =? CAPTURER_RUNNING A)
        | None => false
        end).

(** [CheckInWhitelist]. *)
Definition CheckInWhitelist (W : World) (bundleName : string) (i : CapturerStreamInfo) : FM bool :=
  f ← st_get;
  _ ← st_when (bool_decide (concurrentTypeSet_ (pipe f) = ∅) ||
               bool_decide (concurrentWhitelist_ (pipe f) = ∅)) (SetConcurrencyControlList_white W);
  f ← st_get;
  if negb (bool_decide (source_ i ∈ concurrentTypeSet_ (pipe f))) then mret false else
  mret (match concurrentWhitelist_ (pipe f) !! bundleName with
        | Some types => bool_decide (source_ i ∈ types)
        | None => false
        end).

(** [CheckSourceWhisperEnable], [CheckSourceConcurrency] and [CheckVoipOnly]. *)
Definition CheckSourceWhisperEnable (p : PipeState) (i : CapturerStreamInfo) : bool :=
  if negb (stream_state i =? CAPTURER_RUNNING A) || mute_ i || (source_ i =? SOURCE_TYPE_ULTRASONIC A)
  then true else
  mCameraConcurrency_ p && (source_ i =? SOURCE_TYPE_UNPROCESSED A) && mixWithWakeUp_ i.

Definition CheckSourceConcurrency (p : PipeState) (i : CapturerStreamInfo) : bool :=
  if negb (stream_state i =? CAPTURER_RUNNING A) || mute_ i || (source_ i =? SOURCE_TYPE_ULTRASONIC A)
  then true else
  if mExtensionConcurrency_ p && bool_decide (source_ i ∈ ExtensionConcurrentTypeSet_ p)
  then true else
  mCameraConcurrency_ p && (source_ i =? SOURCE_TYPE_UNPROCESSED A) && mixWithWakeUp_ i.

Definition CheckVoipOnly (s : Scene) (p : PipeState) (i : CapturerStreamInfo) : bool :=
  if negb (mVoipConcurrency_ s) then false else
  (stream_state i =? CAPTURER_RUNNING A) && (source_ i =? SOURCE_TYPE_VOICE_COMMUNICATION A) &&
  hasStreamBesidesVoip_ p.

(** The streams of a pipe map in the order of its two nested loops. *)
Abbreviation PipeMap := (gmap Z (gmap Z CapturerStreamInfo)).
Definition in_order {V} (m : gmap Z V) : list V := omap (m !!.) (map_order m).
Definition streams_of (m : PipeMap) : list CapturerStreamInfo := in_order m ≫= in_order.

(** [GetConcurrentState]: the loop stops at the first stream that forbids
    concurrency. *)
Fixpoint concurrent_loop (W : World) (l : list CapturerStreamInfo) : FM bool :=
  match l with
  | [] => mret true
  | i :: l =>
    let bundleName := if bool_decide (w_bundle W (uid_ i) = EmptyString)
                      then "ERROR! CANT GET BUNDLENAME"%string else w_bundle W (uid_ i) in
    black ← CheckBlacklistConflict W bundleName i;
    if (black : bool) then mret false else
    f ← st_get;
    if CheckVoipOnly (scene (core f)) (pipe f) i then mret false else
    if CheckSourceConcurrency (pipe f) i then concurrent_loop W l else
    if mExtensionConcurrency_ (pipe f) then mret false else
    white ← CheckInWhitelist W bundleName i;
    if (white : bool) then concurrent_loop W l else mret false
  end.

Definition GetConcurrentState (W : World) (m : PipeMap) : FM bool :=
  f ← st_get;
  if CheckCallConflict (scene (core f)) then mret false else
  if CheckCallOnly (scene (core f)) (pipe f) then mret false else
  concurrent_loop W (streams_of m).

(** [GetWhisperEnable]. *)
Fixpoint whisper_loop (W : World) (l : list CapturerStreamInfo) : FM bool :=
  match l with
  | [] => mret true
  | i :: l =>
    white ← CheckInWhitelist W (w_bundle W (uid_ i)) i;
    if (white : bool) then whisper_loop W l else
    f ← st_get;
    if CheckSourceWhisperEnable (pipe f) i then whisper_loop W l else mret false
  end.
Definition GetWhisperEnable (W : World) (m : PipeMap) : FM bool := whisper_loop W (streams_of m).

(** [GetPipeInfo]: a later pipe with the same route flag replaces an earlier one. *)
Definition pipe_relevant (i : AudioInputPipeInfo) : bool :=
  (pipe_adapter i =? HDI_ADAPTER_TYPE_PRIMARY A) && negb (pipe_flag i =? AUDIO_FLAG_NONE A) &&
  negb (pipe_flag i =? AUDIO_INPUT_FLAG_OFFLOAD A) && negb (pipe_flag i =? AUDIO_INPUT_FLAG_WAKEUP A).
Definition GetPipeInfo (W : World) : PipeMap :=
  match w_pipes W with
  | None => ∅
  | Some l => foldl (λ m (i : option AudioInputPipeInfo),
                match i with
                | Some i => if pipe_relevant i then <[pipe_flag i := pipe_streams i]> m else m
                | None => m
                end) ∅ l
  end.

(** ** State transitions *)

Definition SetParameterForInputPipe (key value : string) : FM unit :=
  st_void (on_core (SetParameter key value)).

(** The parameter that opens concurrent capture. *)
Definition open_capture : FM unit :=
  f ← st_get;
  SetParameterForInputPipe "concurrent_capture"
    (if mExtensionConcurrency_ (pipe f)
     then (if whitelistWhisperEnbale_ (pipe f) then "start_withwhisper" else "start_nowhisper")
     else "start")%string.

(** [ExecuteStateTransition] for the model of [modelData], if any. *)
Definition ExecuteStateTransition (oldState newState : nat) (modelData : option Z) : FM unit :=
  match method oldState newState with
  | SAME_STATE =>
    f ← st_get;
    st_when (mExtensionConcurrency_ (pipe f))
      (SetParameterForInputPipe "concurrent_capture"
        (if whitelistWhisperEnbale_ (pipe f) then "enablewhisper" else "disablewhisper")%string)
  | DO_CONCURRENT_CLOSE_SOURCE => SetParameterForInputPipe "concurrent_capture" "stop"
  | DO_CONCURRENT_OPEN_SOURCE => open_capture
  | DO_NO_CONCURRENT_STOP_SOURCE => on_core (OnUpdateAllRecognitionState E)
  | DO_NO_CONCURRENT_OPEN_SOURCE => on_core (OnUpdateAllRecognitionState E)
  | DO_CONCURRENT_STOP_AND_NO_CONCURRENT_OPEN_SOURCE =>
    _ ← SetParameterForInputPipe "concurrent_capture" "stop";
    on_core (OnUpdateAllRecognitionState E)
  | DO_NO_CONCURRENT_STOP_AND_CONCURRENT_OPEN_SOURCE =>
    f ← st_get;
    _ ← (match modelData with
         | Some u =>
           st_when (from_option (λ d, negb (bool_decide (state_ d = MODEL_STARTED))) false
                      (modelDataMap_ (core f) !! u))
             (st_void (on_core (StartRecognition E u)))
         | None => mret ()
         end);
    open_capture
  end.

(** Whether a capturer is running, as [OnInputPipeChange] computes it. *)
Definition source_running (s : Scene) (m : PipeMap) : bool :=
  (mCallConcurrency_ s && bool_decide (audioScene_ s = AUDIO_SCENE_PHONE_CALL)) ||
  existsb (λ i, stream_state i =? CAPTURER_RUNNING A) (streams_of m).

Definition set_scene (g : Scene → Scene) : FM unit := on_core (on_scene g).

(** The end of [OnInputPipeChange]: the transition for every model. *)
Definition run_transitions (oldState newState : nat) : FM unit :=
  f ← st_get;
  if decide (modelDataMap_ (core f) = ∅) then ExecuteStateTransition oldState newState None
  else st_for (map_order (modelDataMap_ (core f)))
         (λ u, _ ← ExecuteStateTransition oldState newState (Some u); mret false).

(** [OnInputPipeChange]. *)
Definition OnInputPipeChange (W : World) : FM unit :=
  f ← st_get;
  _ ← (if mFirstProc (pipe f) then
         _ ← SetParameterForInputPipe "concurrent_capture" "stop";
         on_pipe (λ p, p <| mFirstProc := false |>)
       else mret ());
  let pipes := GetPipeInfo W in
  let isSourceRunning := source_running (scene (core f)) pipes in
  isConcurrent ← GetConcurrentState W pipes;
  whisper ← (if mExtensionConcurrency_ (pipe f) then GetWhisperEnable W pipes else mret true);
  f ← st_get;
  let sc := scene (core f) in
  let oldState := stateToInt (audioConcurrentCapture_ sc) (audioCaptureActive_ sc) in
  let newState := stateToInt isConcurrent isSourceRunning in
  if Bool.eqb isConcurrent (audioConcurrentCapture_ sc) &&
     Bool.eqb isSourceRunning (audioCaptureActive_ sc) &&
     (negb (mExtensionConcurrency_ (pipe f)) || Bool.eqb whisper (whitelistWhisperEnbale_ (pipe f)))
  then mret () else
  _ ← set_scene (λ sc, sc <| audioConcurrentCapture_ := isConcurrent |>
                          <| audioCaptureActive_ := isSourceRunning |>);
  _ ← on_pipe (λ p, p <| whitelistWhisperEnbale_ := whisper |>);
  run_transitions oldState newState.

(** ** Callers of the listener *)

(** [OnCallStateUpdated]; [tu], [ti] and [td] are the [TelCallState] enumerators
    unknown, idle and disconnected. *)
Definition OnCallStateUpdated (W : World) (tu ti td callState : Z) : FM unit :=
  go ← on_core (OnCallStateUpdated_locked E tu ti td callState);
  if negb (go : bool) then mret () else
  if negb (SUPPORT_RECORD_WAKEUP_CONCURRENT E) then mret () else
  f ← st_get;
  if negb (audioInputPipeCallback_ (pipe f)) then mret () else
  if mVoipConcurrency_ (scene (core f)) then mret () else OnInputPipeChange W.

(** [OnAudioSceneChange]. *)
Definition OnAudioSceneChange (W : World) (audioScene : AudioScene) : FM unit :=
  go ← on_core (OnAudioSceneChange_locked E audioScene);
  if negb (go : bool) then mret () else
  f ← st_get;
  if SUPPORT_RECORD_WAKEUP_CONCURRENT E && mVoipConcurrency_ (scene (core f))
  then OnInputPipeChange W else mret ().

(** [OnRendererStateChange]: which other streams play, and a parameter per
    stream usage whose state changed. *)
Definition renderer_playing (r : RendererInfo) : bool := rendererState r =? RENDERER_RUNNING A.
Definition besides_voip (infos : list (option RendererInfo)) : bool :=
  existsb (λ i, match i with
    | Some r => renderer_playing r && negb (streamUsage r =? STREAM_USAGE_VOICE_COMMUNICATION A) &&
                negb (streamUsage r =? STREAM_USAGE_VIDEO_COMMUNICATION A)
    | None => false end) infos.
Definition besides_voice (infos : list (option RendererInfo)) : bool :=
  existsb (λ i, match i with
    | Some r => renderer_playing r && negb (streamUsage r =? STREAM_USAGE_VOICE_MODEM_COMMUNICATION A)
    | None => false end) infos.
Definition usage_map (infos : list (option RendererInfo)) : gmap Z bool :=
  foldl (λ m (i : option RendererInfo),
    match i with
    | None => m
    | Some r => match m !! streamUsage r with
                | Some true => m
                | _ => <[streamUsage r := renderer_playing r]> m
                end
    end) ∅ infos.

Definition OnRendererStateChange (W : World) (infos : list (option RendererInfo)) : FM unit :=
  _ ← on_pipe (λ p, p <| hasStreamBesidesVoip_ := besides_voip infos |>
                      <| hasStreamBesidesVoice_ := besides_voice infos |>);
  let stateMap := usage_map infos in
  _ ← st_for (map_order stateMap) (λ usage,
        f ← st_get;
        let playing := default false (stateMap !! usage) in
        if decide (rendererStateMap_ (pipe f) !! usage = Some playing) then mret false else
        _ ← on_pipe (λ p, p <| rendererStateMap_ ::= <[usage := playing]> |>);
        _ ← SetParameterForInputPipe (if playing then "start_stream" else "stop_stream")%string
              (String.string_of_list_ascii (print_int usage));
        mret false);
  f ← st_get;
  if SUPPORT_RECORD_WAKEUP_CONCURRENT E && mVoipConcurrency_ (scene (core f))
  then OnInputPipeChange W else mret ().

(** [AttachAudioEngineListener]; [registered] is the result of registering with
    the audio engine, [ability] is [GetSupportAbility]. *)
Definition AttachAudioEngineListener (W : World) (registered : Z) (ability : string → bool)
    : FM unit :=
  f ← st_get;
  if isCapturerDetached_ (pipe f) then mret () else
  _ ← on_pipe (λ p, p <| audioInputPipeCallback_ := true |>);
  if negb (registered =? 0) then mret () else
  _ ← st_when (ability "camera_concurrency") (on_pipe (λ p, p <| mCameraConcurrency_ := true |>));
  _ ← st_when (ability "extension_concurrency") (on_pipe (λ p, p <| mExtensionConcurrency_ := true |>));
  _ ← st_when (ability "voip_concurrency") (set_scene (λ sc, sc <| mVoipConcurrency_ := false |>));
  _ ← st_when (ability "call_concurrency")
        (_ ← set_scene (λ sc, sc <| mCallConcurrency_ := true |>);
         on_pipe (λ p, p <| ExtensionConcurrentTypeSet_ ::= λ t, {[SOURCE_TYPE_VOICE_CALL A]} ∪ t |>));
  _ ← on_pipe (λ p, p <| mFirstProc := true |>);
  OnInputPipeChange W.

(** [DetachAudioEngineListener]. *)
Definition DetachAudioEngineListener : FM unit := on_pipe (λ p, p <| isCapturerDetached_ := true |>).

(** [AttachAudioRendererEventListener]: a new callback object has an empty
    [rendererStateMap_]; [infos] are the current renderers. *)
Definition AttachAudioRendererEventListener (W : World) (registered : Z)
    (infos : list (option RendererInfo)) : FM unit :=
  f ← st_get;
  if isRendererDetached_ (pipe f) then mret () else
  _ ← on_pipe (λ p, p <| rendererStateMap_ := ∅ |>);
  if negb (registered =? 0) then mret () else OnRendererStateChange W infos.
Definition DetachAudioRendererEventListener : FM unit :=
  on_pipe (λ p, p <| isRendererDetached_ := true |>).

(** [AttachAudioSceneEventListener]. *)
Definition AttachAudioSceneEventListener (W : World) (registered : Z) (cur : AudioScene) : FM unit :=
  f ← st_get;
  if isSceneDetached_ (pipe f) then mret () else
  if negb (registered =? 0) then mret () else OnAudioSceneChange W cur.
Definition DetachAudioSceneEventListener : FM unit :=
  on_pipe (λ p, p <| isSceneDetached_ := true |>).

(** [AttachTelephonyObserver], [DetachTelephonyObserver], [AttachHibernateObserver],
    [DetachHibernateObserver]: the results of the registrations are only logged. *)
Definition AttachTelephonyObserver : FM unit :=
  on_pipe (λ p, if isTelephonyDetached_ p then p else p <| telephonyObserver0_ := true |>).
Definition DetachTelephonyObserver : FM unit :=
  on_pipe (λ p, p <| isTelephonyDetached_ := true |> <| telephonyObserver0_ := false |>).
Definition AttachHibernateObserver : FM unit :=
  on_pipe (λ p, if isHibernateDetached_ p then p else p <| hibernateCallback_ := true |>).
Definition DetachHibernateObserver : FM unit :=
  on_pipe (λ p, p <| isHibernateDetached_ := true |>).

(** ** Fold status and fan *)

(** [AttachFoldStatusListener]; [foldable] and [fileExist] are the answers of the
    display manager and of the file system, [registered] whether registering the
    listener succeeded, [cur] the current fold status. *)
Definition AttachFoldStatusListener (foldable fileExist registered : bool) (cur : FoldStatus)
    : FM unit :=
  f ← st_get;
  if isFoldStatusDetached_ (pipe f) then mret () else
  _ ← on_core (st_modify (λ s, s <| isFoldable_ := fileExist && foldable |>));
  if negb (fileExist && foldable) then mret () else
  _ ← on_pipe (λ p, p <| foldStatusListener_ := registered |>);
  _ ← on_core (st_modify (λ s, s <| curFoldStatus_ := cur |>));
  st_when (bool_decide (cur = FOLD_FOLDED)) (on_core (RestartAllRecognition E)).

(** [DetachFoldStatusListener]. *)
Definition DetachFoldStatusListener : FM unit :=
  on_pipe (λ p, p <| isFoldStatusDetached_ := true |> <| foldStatusListener_ := false |>).

(** A report of the fan: [FanStatus] entries of 8 bytes, little endian. *)
Definition PERF_REPORT_LEN_MAX : Z := 512.
Definition DATA_TYPE_POWER : Z := 19.
Definition DATA_TYPE_POWER_VAL_ON : Z := 1.
Definition sizeof_FanStatus : nat := 8%nat.

Definition le32 (b : list Z) : Z :=
  foldr (λ x acc, x + 256 * acc) 0 (take 4 b).

(** The data of the first entry of type [DATA_TYPE_POWER] among [count], -1 when
    there is none. *)
Fixpoint power_val (count : nat) (b : list Z) : Z :=
  match count with
  | O => -1
  | S n => if u32 (le32 b) =? DATA_TYPE_POWER then i32 (le32 (drop 4 b))
           else power_val n (drop sizeof_FanStatus b)
  end.

Definition fan_param (running : bool) : FM unit :=
  SetParameterForInputPipe "fan_status_change" (if running then "start" else "stop")%string.

(** [HandleFanStateChanged]; [None] is the null buffer. *)
Definition HandleFanStateChanged (buffer : option (list Z)) (len : Z) : FM unit :=
  match buffer with
  | None => mret ()
  | Some b =>
    if len =? 0 then mret () else
    if PERF_REPORT_LEN_MAX <? len then mret () else
    if negb (len mod Z.of_nat sizeof_FanStatus =? 0) then mret () else
    let v := power_val (Z.to_nat (len / Z.of_nat sizeof_FanStatus)) b in
    let cur := u64 v =? DATA_TYPE_POWER_VAL_ON in
    f ← st_get;
    if Bool.eqb (fanRunning_ (pipe f)) cur then mret () else
    _ ← on_pipe (λ p, p <| fanRunning_ := cur |>);
    fan_param cur
  end.

(** [OnFanStateChanged]. *)
Definition OnFanStateChanged (buffer : option (list Z)) (len : Z) : FM Z :=
  f ← st_get;
  if negb (g_fanHelperInstance (pipe f)) then mret (-1) else
  _ ← HandleFanStateChanged buffer len; mret 0.

(** [SyncFanState]. *)
Definition SyncFanState : FM unit :=
  f ← st_get;
  if negb (fanRunning_ (pipe f)) then mret () else fan_param true.

(** The registration loop: up to [n] attempts, the results of which are [rets]. *)
Fixpoint register_retry (n : nat) (rets : list Z) : bool :=
  match n, rets with
  | S n, r :: rets => (r =? 0) || register_retry n rets
  | _, _ => false
  end.
Definition REGISTER_RETRY_COUNT : nat := 3%nat.

(** [AttachFanStateListener]; [opened] and [sym] tell whether [dlopen] and
    [dlsym] succeed, [rets] are the results of registering, [report] is the
    report the initial command triggers, if any. *)
Definition AttachFanStateListener (ability : string → bool) (opened sym : bool) (rets : list Z)
    (report : option (option (list Z) * Z)) : FM unit :=
  if negb (ability "fan_status_listen") then mret () else
  f ← st_get;
  if isFanListenerDetached_ (pipe f) then mret () else
  if negb (perfGeniusHandle_ (pipe f) || opened) then mret () else
  if negb (sym && register_retry REGISTER_RETRY_COUNT rets)
  then on_pipe (λ p, p <| perfGeniusHandle_ := false |>) else
  _ ← on_pipe (λ p, p <| perfGeniusHandle_ := true |> <| g_fanHelperInstance := true |>);
  _ ← (match report with
       | Some (b, len) => st_void (OnFanStateChanged b len)
       | None => mret ()
       end);
  SyncFanState.

(** [DetachFanStateListener]. *)
Definition DetachFanStateListener (ability : string → bool) : FM unit :=
  if negb (ability "fan_status_listen") then mret () else
  f ← st_get;
  _ ← on_pipe (λ p, p <| isFanListenerDetached_ := true |>);
  st_when (perfGeniusHandle_ (pipe f))
    (on_pipe (λ p, p <| g_fanHelperInstance := false |> <| perfGeniusHandle_ := false |>)).

(** ** The decision, as a specification

    [load_black] and [load_white] fill an empty list from the key-value store;
    [stream_allowed] is the decision for one stream under the filled lists. *)
Definition load_black (W : World) (p : PipeState) : PipeState :=
  if bool_decide (concurrentBlacklist_ p = ∅)
  then p <| concurrentBlacklist_ := lists_of (parsed_items W "concurrentBlackList") |> else p.
Definition load_white (W : World) (p : PipeState) : PipeState :=
  if bool_decide (concurrentTypeSet_ p = ∅) || bool_decide (concurrentWhitelist_ p = ∅)
  then p <| concurrentWhitelist_ := lists_of (parsed_items W "concurrentWhiteList") |>
         <| concurrentTypeSet_ := types_of (parsed_items W "concurrentWhiteList") |>
  else p.
Definition filled (W : World) (p : PipeState) : PipeState := load_white W (load_black W p).

Definition black_listed (p : PipeState) (name : string) (i : CapturerStreamInfo) : bool :=
  mExtensionConcurrency_ p &&
  match concurrentBlacklist_ p !! name with
  | Some types => bool_decide (source_ i ∈ types) && (stream_state i =? CAPTURER_RUNNING A)
  | None => false
  end.
Definition white_listed (p : PipeState) (name : string) (i : CapturerStreamInfo) : bool :=
  bool_decide (source_ i ∈ concurrentTypeSet_ p) &&
  match concurrentWhitelist_ p !! name with
  | Some types => bool_decide (source_ i ∈ types)
  | None => false
  end.
Definition bundle_of (W : World) (i : CapturerStreamInfo) : string :=
  if bool_decide (w_bundle W (uid_ i) = EmptyString)
  then "ERROR! CANT GET BUNDLENAME"%string else w_bundle W (uid_ i).
Definition stream_allowed (W : World) (sc : Scene) (p : PipeState) (i : CapturerStreamInfo) : bool :=
  negb (black_listed p (bundle_of W i) i) && negb (CheckVoipOnly sc p i) &&
  (CheckSourceConcurrency p i ||
   (negb (mExtensionConcurrency_ p) && white_listed p (bundle_of W i) i)).
Definition concurrent_ref (W : World) (sc : Scene) (p : PipeState) (l : list CapturerStreamInfo) : bool :=
  negb (CheckCallConflict sc) && negb (CheckCallOnly sc p) && forallb (stream_allowed W sc p) l.
Definition whisper_ref (W : World) (p : PipeState) (l : list CapturerStreamInfo) : bool :=
  forallb (λ i, white_listed p (w_bundle W (uid_ i)) i || CheckSourceWhisperEnable p i) l.

Lemma load_black_idem W p : load_black W (load_black W p) = load_black W p.
Proof.
  unfold load_black. destruct (bool_decide (concurrentBlacklist_ p = ∅)) eqn:Hb; simpl.
  - by case_match.
  - by rewrite Hb.
Qed.
Lemma load_white_idem W p : load_white W (load_white W p) = load_white W p.
Proof.
  unfold load_white.
  destruct (bool_decide (concurrentTypeSet_ p = ∅) || bool_decide (concurrentWhitelist_ p = ∅))
    eqn:Hw; simpl.
  - by case_match.
  - by rewrite Hw.
Qed.
Lemma load_black_white W p : load_black W (load_white W p) = load_white W (load_black W p).
Proof.
  unfold load_black, load_white.
  destruct (bool_decide (concurrentBlacklist_ p = ∅)) eqn:Hb;
  destruct (bool_decide (concurrentTypeSet_ p = ∅) || bool_decide (concurrentWhitelist_ p = ∅)) eqn:Hw;
    simpl; rewrite ?Hb, ?Hw; done.
Qed.
Lemma filled_black W p : filled W (load_black W p) = filled W p.
Proof. unfold filled. by rewrite load_black_idem. Qed.
Lemma filled_white W p : filled W (load_white W p) = filled W p.
Proof. unfold filled. by rewrite load_black_white, load_white_idem. Qed.

(** Loading does not touch what else the checks read. *)
Lemma load_black_other W p :
  mExtensionConcurrency_ (load_black W p) = mExtensionConcurrency_ p ∧
  concurrentWhitelist_ (load_black W p) = concurrentWhitelist_ p ∧
  concurrentTypeSet_ (load_black W p) = concurrentTypeSet_ p ∧
  CheckSourceConcurrency (load_black W p) = CheckSourceConcurrency p ∧
  CheckSourceWhisperEnable (load_black W p) = CheckSourceWhisperEnable p ∧
  (∀ sc i, CheckVoipOnly sc (load_black W p) i = CheckVoipOnly sc p i) ∧
  (∀ sc, CheckCallOnly sc (load_black W p) = CheckCallOnly sc p).
Proof. unfold load_black. by case_bool_decide. Qed.
Lemma load_white_other W p :
  mExtensionConcurrency_ (load_white W p) = mExtensionConcurrency_ p ∧
  concurrentBlacklist_ (load_white W p) = concurrentBlacklist_ p ∧
  CheckSourceConcurrency (load_white W p) = CheckSourceConcurrency p ∧
  CheckSourceWhisperEnable (load_white W p) = CheckSourceWhisperEnable p ∧
  (∀ sc i, CheckVoipOnly sc (load_white W p) i = CheckVoipOnly sc p i) ∧
  (∀ sc, CheckCallOnly sc (load_white W p) = CheckCallOnly sc p).
Proof. unfold load_white. by destruct (_ || _). Qed.

Lemma filled_other W p :
  mExtensionConcurrency_ (filled W p) = mExtensionConcurrency_ p ∧
  CheckSourceConcurrency (filled W p) = CheckSourceConcurrency p ∧
  CheckSourceWhisperEnable (filled W p) = CheckSourceWhisperEnable p ∧
  (∀ sc i, CheckVoipOnly sc (filled W p) i = CheckVoipOnly sc p i) ∧
  (∀ sc, CheckCallOnly sc (filled W p) = CheckCallOnly sc p).
Proof.
  unfold filled. destruct (load_black_other W p) as (H1 & _ & _ & H2 & H3 & H4 & H5).
  destruct (load_white_other W (load_black W p)) as (H1' & _ & H2' & H3' & H4' & H5').
  rewrite H1', H2', H3'. split_and!; try done; intros; congruence.
Qed.

Lemma CheckBlacklistConflict_run W name i f :
  (CheckBlacklistConflict W name i f).1 = black_listed (filled W (pipe f)) name i ∧
  core (CheckBlacklistConflict W name i f).2 = core f ∧
  filled W (pipe (CheckBlacklistConflict W name i f).2) = filled W (pipe f).
Proof.
  unfold CheckBlacklistConflict. rewrite bind_run. cbn [st_get fst snd].
  unfold black_listed. rewrite (proj1 (filled_other W (pipe f))).
  destruct (mExtensionConcurrency_ (pipe f)) eqn:He; cbn [negb]; [|done]. rewrite !bind_run.
  assert ((st_when (bool_decide (concurrentBlacklist_ (pipe f) = ∅))
            (SetConcurrencyControlList_black W) f).2 = f <| pipe ::= load_black W |>) as ->.
  { destruct f as [c p]. unfold load_black. simpl. by case_bool_decide. }
  cbn [st_get mret st_ret fst snd]. split; [|split; [done|apply filled_black]].
  unfold filled. by rewrite (proj1 (proj2 (load_white_other W _))).
Qed.

Lemma CheckInWhitelist_run W name i f :
  (CheckInWhitelist W name i f).1 = white_listed (filled W (pipe f)) name i ∧
  core (CheckInWhitelist W name i f).2 = core f ∧
  filled W (pipe (CheckInWhitelist W name i f).2) = filled W (pipe f).
Proof.
  unfold CheckInWhitelist. rewrite !bind_run. cbn [st_get fst snd].
  assert ((st_when (bool_decide (concurrentTypeSet_ (pipe f) = ∅) ||
                    bool_decide (concurrentWhitelist_ (pipe f) = ∅))
            (SetConcurrencyControlList_white W) f).2 = f <| pipe ::= load_white W |>) as ->.
  { destruct f as [c p]. unfold load_white. simpl. by destruct (_ || _). }
  set (f1 := f <| pipe ::= load_white W |>).
  assert (concurrentTypeSet_ (filled W (pipe f)) = concurrentTypeSet_ (pipe f1) ∧
          concurrentWhitelist_ (filled W (pipe f)) = concurrentWhitelist_ (pipe f1)) as [Ht Hw].
  { unfold filled. rewrite <- load_black_white.
    destruct (load_black_other W (load_white W (pipe f))) as (_ & -> & -> & _). done. }
  unfold white_listed. rewrite Ht, Hw.
  assert (filled W (pipe f1) = filled W (pipe f)) as Hf by apply filled_white.
  cbn [st_get fst snd]. by destruct (bool_decide (source_ i ∈ _)).
Qed.

Lemma concurrent_loop_run W l f :
  (concurrent_loop W l f).1 = forallb (stream_allowed W (scene (core f)) (filled W (pipe f))) l ∧
  core (concurrent_loop W l f).2 = core f ∧
  filled W (pipe (concurrent_loop W l f).2) = filled W (pipe f).
Proof.
  revert f. induction l as [|i l IH]; intros f; [done|]. cbn [concurrent_loop forallb].
  rewrite bind_run. fold (bundle_of W i).
  destruct (CheckBlacklistConflict_run W (bundle_of W i) i f) as (H1 & H2 & H3).
  destruct (CheckBlacklistConflict W (bundle_of W i) i f) as [b f1]. cbn [fst snd] in *. subst b.
  unfold stream_allowed at 1.
  destruct (black_listed _ _ _); cbn [negb andb]; [done|]. rewrite bind_run. cbn [st_get fst snd].
  rewrite <- H2, <- H3. destruct (filled_other W (pipe f1)) as (F1 & F2 & F3 & F4 & F5).
  rewrite F1, F2, F4. destruct (CheckVoipOnly _ _ _); cbn [negb andb]; [done|].
  destruct (CheckSourceConcurrency (pipe f1) i); cbn [orb andb]; [apply IH|].
  destruct (mExtensionConcurrency_ (pipe f1)); cbn [negb orb andb]; [done|]. rewrite bind_run.
  destruct (CheckInWhitelist_run W (bundle_of W i) i f1) as (G1 & G2 & G3).
  destruct (CheckInWhitelist W (bundle_of W i) i f1) as [w f2]. cbn [fst snd] in *. subst w.
  rewrite <- G3, <- G2. destruct (white_listed _ _ _); cbn [andb]; [apply IH|done].
Qed.

Lemma whisper_loop_run W l f :
  (whisper_loop W l f).1 = whisper_ref W (filled W (pipe f)) l ∧
  core (whisper_loop W l f).2 = core f ∧
  filled W (pipe (whisper_loop W l f).2) = filled W (pipe f).
Proof.
  unfold whisper_ref. revert f. induction l as [|i l IH]; intros f; [done|].
  cbn [whisper_loop forallb]. rewrite bind_run.
  destruct (CheckInWhitelist_run W (w_bundle W (uid_ i)) i f) as (H1 & H2 & H3).
  destruct (CheckInWhitelist W _ i f) as [w f1]. cbn [fst snd] in *. subst w.
  destruct (filled_other W (pipe f)) as (F1 & F2 & F3 & F4 & F5).
  destruct (filled_other W (pipe f1)) as (G1 & G2 & G3 & G4 & G5).
  destruct (white_listed _ _ _) eqn:Hw; cbn [orb andb].
  - specialize (IH f1). rewrite H3, H2 in IH. exact IH.
  - rewrite bind_run. cbn [st_get fst snd]. rewrite <- G3, H3.
    destruct (CheckSourceWhisperEnable _ i) eqn:Hc; cbn [orb andb]; [|done].
    specialize (IH f1). rewrite H3, H2 in IH. exact IH.
Qed.

Lemma GetConcurrentState_run W m f :
  (GetConcurrentState W m f).1 =
    concurrent_ref W (scene (core f)) (filled W (pipe f)) (streams_of m) ∧
  core (GetConcurrentState W m f).2 = core f ∧
  filled W (pipe (GetConcurrentState W m f).2) = filled W (pipe f).
Proof.
  unfold GetConcurrentState, concurrent_ref. rewrite bind_run. cbn [st_get fst snd].
  destruct (filled_other W (pipe f)) as (_ & _ & _ & _ & ->).
  destruct (CheckCallConflict _); [done|]. destruct (CheckCallOnly _ _); [done|].
  apply concurrent_loop_run.
Qed.

(** ** Lifting invariants of the helper *)

Definition lift (P : TriggerHelper M → Prop) : Full M → Prop := λ f, P (core f).

Lemma on_core_run {X} (k : St (TriggerHelper M) X) f :
  on_core k f = ((k (core f)).1, f <| core := (k (core f)).2 |>).
Proof. unfold on_core. by destruct (k (core f)). Qed.

Lemma on_core_lift {X} (P : TriggerHelper M → Prop) (k : St (TriggerHelper M) X) :
  ⟪ P ⟫ k ⟪ λ _, P ⟫ → ⟪ lift P ⟫ on_core k ⟪ λ _, lift P ⟫.
Proof. intros Hk f Hf. rewrite on_core_run. by apply Hk. Qed.

Lemma on_pipe_lift P g : ⟪ lift P ⟫ on_pipe g ⟪ λ _, lift P ⟫.
Proof. by intros f Hf. Qed.
#[local] Hint Resolve on_pipe_lift : ivoice.

(** What an invariant of the helper must be closed under to be kept by every
    operation of this file. *)
Record core_closed (P : TriggerHelper M → Prop) : Prop := {
  cc_param : ∀ k v, ⟪ P ⟫ SetParameter k v ⟪ λ _, P ⟫;
  cc_update : ⟪ P ⟫ OnUpdateAllRecognitionState E ⟪ λ _, P ⟫;
  cc_start : ∀ u, ⟪ P ⟫ StartRecognition E u ⟪ λ _, P ⟫;
  cc_restart : ⟪ P ⟫ RestartAllRecognition E ⟪ λ _, P ⟫;
  cc_scene : ∀ g, (∀ sc, mVoipConcurrency_ (g sc) = mVoipConcurrency_ sc ∨
                         mVoipConcurrency_ (g sc) = false) →
             ⟪ P ⟫ on_scene g ⟪ λ _, P ⟫;
  cc_foldable : ∀ b, ⟪ P ⟫ st_modify (λ s, s <| isFoldable_ := b |>) ⟪ λ _, P ⟫;
  cc_fold : ∀ x, ⟪ P ⟫ st_modify (λ s, s <| curFoldStatus_ := x |>) ⟪ λ _, P ⟫ }.

Section closed.
Context (P : TriggerHelper M → Prop) (HP : core_closed P).

Lemma param_lift k v : ⟪ lift P ⟫ SetParameterForInputPipe k v ⟪ λ _, lift P ⟫.
Proof. apply hoare_void, on_core_lift, (cc_param P HP). Qed.
Lemma update_lift : ⟪ lift P ⟫ on_core (OnUpdateAllRecognitionState E) ⟪ λ _, lift P ⟫.
Proof. apply on_core_lift, (cc_update P HP). Qed.
Lemma start_lift u : ⟪ lift P ⟫ on_core (StartRecognition E u) ⟪ λ _, lift P ⟫.
Proof. apply on_core_lift, (cc_start P HP). Qed.
Lemma restart_lift : ⟪ lift P ⟫ on_core (RestartAllRecognition E) ⟪ λ _, lift P ⟫.
Proof. apply on_core_lift, (cc_restart P HP). Qed.
#[local] Hint Resolve param_lift update_lift start_lift restart_lift : ivoice.

Lemma black_lift W n i : ⟪ lift P ⟫ CheckBlacklistConflict W n i ⟪ λ _, lift P ⟫.
Proof. unfold CheckBlacklistConflict, SetConcurrencyControlList_black. keeps. Qed.
Lemma white_lift W n i : ⟪ lift P ⟫ CheckInWhitelist W n i ⟪ λ _, lift P ⟫.
Proof. unfold CheckInWhitelist, SetConcurrencyControlList_white. keeps. Qed.
#[local] Hint Resolve black_lift white_lift : ivoice.

Lemma concurrent_loop_lift W l : ⟪ lift P ⟫ concurrent_loop W l ⟪ λ _, lift P ⟫.
Proof. induction l; cbn [concurrent_loop]; keeps. Qed.
Lemma whisper_loop_lift W l : ⟪ lift P ⟫ whisper_loop W l ⟪ λ _, lift P ⟫.
Proof. induction l; cbn [whisper_loop]; keeps. Qed.
#[local] Hint Resolve concurrent_loop_lift whisper_loop_lift : ivoice.

Lemma transition_lift o n md : ⟪ lift P ⟫ ExecuteStateTransition o n md ⟪ λ _, lift P ⟫.
Proof. unfold ExecuteStateTransition, open_capture. keeps. Qed.
#[local] Hint Resolve transition_lift : ivoice.

Lemma OnInputPipeChange_lift W : ⟪ lift P ⟫ OnInputPipeChange W ⟪ λ _, lift P ⟫.
Proof.
  unfold OnInputPipeChange, GetConcurrentState, GetWhisperEnable, run_transitions, set_scene. keeps.
  apply on_core_lift, (cc_scene P HP). by left.
Qed.
#[local] Hint Resolve OnInputPipeChange_lift : ivoice.

Lemma OnCallStateUpdated_lift W tu ti td cs :
  ⟪ lift P ⟫ OnCallStateUpdated W tu ti td cs ⟪ λ _, lift P ⟫.
Proof.
  unfold OnCallStateUpdated. keeps. apply on_core_lift. unfold OnCallStateUpdated_locked. keeps.
  - apply (cc_scene P HP). by left.
  - apply (cc_update P HP).
Qed.
Lemma OnAudioSceneChange_lift W sc : ⟪ lift P ⟫ OnAudioSceneChange W sc ⟪ λ _, lift P ⟫.
Proof.
  unfold OnAudioSceneChange. keeps. apply on_core_lift. unfold OnAudioSceneChange_locked. keeps.
  - apply (cc_scene P HP). by left.
  - apply (cc_update P HP).
Qed.
Lemma OnRendererStateChange_lift W infos : ⟪ lift P ⟫ OnRendererStateChange W infos ⟪ λ _, lift P ⟫.
Proof. unfold OnRendererStateChange. keeps. Qed.
#[local] Hint Resolve OnAudioSceneChange_lift OnRendererStateChange_lift : ivoice.
Lemma AttachAudioEngineListener_lift W r ability :
  ⟪ lift P ⟫ AttachAudioEngineListener W r ability ⟪ λ _, lift P ⟫.
Proof.
  unfold AttachAudioEngineListener, set_scene. keeps; apply on_core_lift, (cc_scene P HP).
  - by right.
  - by left.
Qed.
Lemma HandleFanStateChanged_lift b len : ⟪ lift P ⟫ HandleFanStateChanged b len ⟪ λ _, lift P ⟫.
Proof. unfold HandleFanStateChanged, fan_param. keeps. Qed.
#[local] Hint Resolve HandleFanStateChanged_lift : ivoice.
Lemma AttachFanStateListener_lift ab o sy rets rep :
  ⟪ lift P ⟫ AttachFanStateListener ab o sy rets rep ⟪ λ _, lift P ⟫.
Proof. unfold AttachFanStateListener, OnFanStateChanged, SyncFanState, fan_param. keeps. Qed.
Lemma AttachFoldStatusListener_lift a b c d :
  ⟪ lift P ⟫ AttachFoldStatusListener a b c d ⟪ λ _, lift P ⟫.
Proof.
  unfold AttachFoldStatusListener. keeps; apply on_core_lift; [apply (cc_foldable P HP)|].
  apply (cc_fold P HP).
Qed.
End closed.

(** ** The whole helper as a transition system *)

(** The calls the service, the audio framework, the telephony, power, display and
    fan services make on the helper. *)
Inductive HelperOp :=
| OpStartGeneric (uuid : Z) (model : GenericTriggerModel) (callback : option nat)
| OpStopGeneric (uuid : Z)
| OpUnloadGeneric (uuid : Z)
| OpSetParameter (key value : string)
| OpGetParameter (key : string)
| OpCallState (W : World) (tu ti td callState : Z)
| OpAudioScene (W : World) (audioScene : AudioScene)
| OpHibernate (isHibernate : bool)
| OpCapturer (isActive : bool)
| OpInputPipe (W : World)
| OpRenderer (W : World) (infos : list (option RendererInfo))
| OpFold (foldStatus : FoldStatus)
| OpFan (buffer : option (list Z)) (len : Z)
| OpAttachEngine (W : World) (registered : Z) (ability : string → bool)
| OpDetachEngine
| OpAttachRenderer (W : World) (registered : Z) (infos : list (option RendererInfo))
| OpDetachRenderer
| OpAttachScene (W : World) (registered : Z) (cur : AudioScene)
| OpDetachScene
| OpAttachFold (foldable fileExist registered : bool) (cur : FoldStatus)
| OpDetachFold
| OpAttachFan (ability : string → bool) (opened sym : bool) (rets : list Z)
    (report : option (option (list Z) * Z))
| OpDetachFan (ability : string → bool)
| OpAttachTelephony | OpDetachTelephony | OpAttachHibernate | OpDetachHibernate
| OpClearList (isWhiteList isBlackList : bool).

Definition run_op (op : HelperOp) : FM unit :=
  match op with
  | OpStartGeneric u m cb => st_void (on_core (StartGenericRecognition E u m cb))
  | OpStopGeneric u => st_void (on_core (StopGenericRecognition u))
  | OpUnloadGeneric u => on_core (UnloadGenericTriggerModel u)
  | OpSetParameter k v => SetParameterForInputPipe k v
  | OpGetParameter k => st_void (on_core (GetParameter E k))
  | OpCallState W tu ti td cs => OnCallStateUpdated W tu ti td cs
  | OpAudioScene W sc => OnAudioSceneChange W sc
  | OpHibernate b => on_core (OnHibernateStateUpdated E b)
  | OpCapturer b => on_core (OnCapturerStateChange E b)
  | OpInputPipe W => OnInputPipeChange W
  | OpRenderer W infos => OnRendererStateChange W infos
  | OpFold x => on_core (OnFoldStatusChanged E x)
  | OpFan b len => st_void (OnFanStateChanged b len)
  | OpAttachEngine W r ab => AttachAudioEngineListener W r ab
  | OpDetachEngine => DetachAudioEngineListener
  | OpAttachRenderer W r infos => AttachAudioRendererEventListener W r infos
  | OpDetachRenderer => DetachAudioRendererEventListener
  | OpAttachScene W r cur => AttachAudioSceneEventListener W r cur
  | OpDetachScene => DetachAudioSceneEventListener
  | OpAttachFold a b c d => AttachFoldStatusListener a b c d
  | OpDetachFold => DetachFoldStatusListener
  | OpAttachFan ab o sy rets rep => AttachFanStateListener ab o sy rets rep
  | OpDetachFan ab => DetachFanStateListener ab
  | OpAttachTelephony => AttachTelephonyObserver
  | OpDetachTelephony => DetachTelephonyObserver
  | OpAttachHibernate => AttachHibernateObserver
  | OpDetachHibernate => DetachHibernateObserver
  | OpClearList w b => ClearConcurrentControlList w b
  end.

(** ** The calls in pieces

    Which pieces of a call hold the mutex, and what is done between them without it.
    The other mutexes of the helper keep an attachment and a detachment of the same
    listener apart, or two reports of the fan; that is not used here: more happens at
    the same time than can.  What is done without the mutex is taken call by call and,
    for the models, member function by member function ([StopRecognition],
    [PrepareForRecognition], [StartRecognition]). *)

(** The listener is told when the VoIP switch is on. *)
Definition voip_change_pieces (W : World) : Prog (Full M) :=
  if negb (SUPPORT_RECORD_WAKEUP_CONCURRENT E) then Done else
  piece (st_gets (λ f, mVoipConcurrency_ (scene (core f)))) (λ voip : bool,
  if voip then last_piece (OnInputPipeChange W) else Done).

Definition OnCallStateUpdated_pieces (W : World) (tu ti td callState : Z) : Prog (Full M) :=
  piece (on_core (OnCallStateUpdated_locked E tu ti td callState)) (λ go : bool,
  if negb go then Done else
  if negb (SUPPORT_RECORD_WAKEUP_CONCURRENT E) then Done else
  piece (st_gets (λ f, audioInputPipeCallback_ (pipe f))) (λ callback : bool,
  if negb callback then Done else
  piece (st_gets (λ f, mVoipConcurrency_ (scene (core f)))) (λ voip : bool,
  if voip then Done else last_piece (OnInputPipeChange W)))).

Definition OnAudioSceneChange_pieces (W : World) (audioScene : AudioScene) : Prog (Full M) :=
  piece (on_core (OnAudioSceneChange_locked E audioScene)) (λ go : bool,
  if negb go then Done else voip_change_pieces W).

(** The listener's entry of a usage, and whether it has changed. *)
Definition change_renderer (usage : Z) (playing : bool) : FM bool := λ f,
  if decide (rendererStateMap_ (pipe f) !! usage = Some playing) then (false, f)
  else (true, f <| pipe ::= λ p, p <| rendererStateMap_ ::= <[usage := playing]> |> |>).
(** [playMutex_] is held while the flags are set. *)
Definition OnRendererStateChange_pieces (W : World) (infos : list (option RendererInfo)) : Prog (Full M) :=
  let stateMap := usage_map infos in
  piece (on_pipe (λ p, p <| hasStreamBesidesVoip_ := besides_voip infos |>
                         <| hasStreamBesidesVoice_ := besides_voice infos |>)) (λ _,
  prog_each (map_order stateMap) (λ usage rest,
    let playing := default false (stateMap !! usage) in
    piece (change_renderer usage playing) (λ changed : bool,
    if changed
    then piece (SetParameterForInputPipe (if playing then "start_stream" else "stop_stream")%string
                  (String.string_of_list_ascii (print_int usage))) (λ _, rest)
    else rest))
  (voip_change_pieces W)).

Definition piece_when (b : bool) (m : FM unit) (rest : Prog (Full M)) : Prog (Full M) :=
  if b then piece m (λ _, rest) else rest.
Definition AttachAudioEngineListener_pieces (W : World) (registered : Z) (ability : string → bool)
    : Prog (Full M) :=
  piece (st_gets (λ f, isCapturerDetached_ (pipe f))) (λ detached : bool,
  if detached then Done else
  piece (on_pipe (λ p, p <| audioInputPipeCallback_ := true |>)) (λ _,
  if negb (registered =? 0) then Done else
  piece_when (ability "camera_concurrency") (on_pipe (λ p, p <| mCameraConcurrency_ := true |>)) (
  piece_when (ability "extension_concurrency") (on_pipe (λ p, p <| mExtensionConcurrency_ := true |>)) (
  piece_when (ability "voip_concurrency") (set_scene (λ sc, sc <| mVoipConcurrency_ := false |>)) (
  piece_when (ability "call_concurrency") (set_scene (λ sc, sc <| mCallConcurrency_ := true |>)) (
  piece_when (ability "call_concurrency")
    (on_pipe (λ p, p <| ExtensionConcurrentTypeSet_ ::= λ t, {[SOURCE_TYPE_VOICE_CALL A]} ∪ t |>)) (
  piece (on_pipe (λ p, p <| mFirstProc := true |>)) (λ _,
  last_piece (OnInputPipeChange W))))))))).

Definition AttachAudioRendererEventListener_pieces (W : World) (registered : Z)
    (infos : list (option RendererInfo)) : Prog (Full M) :=
  piece (st_gets (λ f, isRendererDetached_ (pipe f))) (λ detached : bool,
  if detached then Done else
  piece (on_pipe (λ p, p <| rendererStateMap_ := ∅ |>)) (λ _,
  if negb (registered =? 0) then Done else OnRendererStateChange_pieces W infos)).

Definition AttachAudioSceneEventListener_pieces (W : World) (registered : Z) (cur : AudioScene)
    : Prog (Full M) :=
  piece (st_gets (λ f, isSceneDetached_ (pipe f))) (λ detached : bool,
  if detached then Done else
  if negb (registered =? 0) then Done else OnAudioSceneChange_pieces W cur).

(** [StopAllRecognition] and [StartAllRecognition] without the mutex, over the models
    there are when they begin. *)
Definition models : FM (list Z) := st_gets (λ f, map_order (modelDataMap_ (core f))).
Definition stop_all_pieces (rest : Prog (Full M)) : Prog (Full M) :=
  piece models (λ l, prog_each l (λ uuid rest,
    piece (on_core (need_start E uuid)) (λ need : bool,
    if need then piece (on_core (StopRecognition uuid)) (λ _, rest) else rest)) rest).
Definition start_all_pieces : Prog (Full M) :=
  piece models (λ l, prog_each l (λ uuid rest,
    piece (on_core (need_start E uuid)) (λ need : bool,
    if negb need then rest else
    piece (on_core (PrepareForRecognition uuid)) (λ r,
    if negb (r =? 0) then Done else
    piece (on_core (StartRecognition E uuid)) (λ _, rest)))) Done).
Definition AttachFoldStatusListener_pieces (foldable fileExist registered : bool) (cur : FoldStatus)
    : Prog (Full M) :=
  piece (st_gets (λ f, isFoldStatusDetached_ (pipe f))) (λ detached : bool,
  if detached then Done else
  piece (on_core (st_modify (λ s, s <| isFoldable_ := fileExist && foldable |>))) (λ _,
  if negb (fileExist && foldable) then Done else
  piece (on_pipe (λ p, p <| foldStatusListener_ := registered |>)) (λ _,
  piece (on_core (st_modify (λ s, s <| curFoldStatus_ := cur |>))) (λ _,
  if bool_decide (cur = FOLD_FOLDED) then stop_all_pieces start_all_pieces else Done)))).

Definition change_fan (cur : bool) : FM bool := λ f,
  if Bool.eqb (fanRunning_ (pipe f)) cur then (false, f)
  else (true, f <| pipe ::= λ p, p <| fanRunning_ := cur |> |>).
Definition HandleFanStateChanged_pieces (buffer : option (list Z)) (len : Z) (rest : Prog (Full M))
    : Prog (Full M) :=
  match buffer with
  | None => rest
  | Some b =>
    if len =? 0 then rest else
    if PERF_REPORT_LEN_MAX <? len then rest else
    if negb (len mod Z.of_nat sizeof_FanStatus =? 0) then rest else
    let v := power_val (Z.to_nat (len / Z.of_nat sizeof_FanStatus)) b in
    let cur := u64 v =? DATA_TYPE_POWER_VAL_ON in
    piece (change_fan cur) (λ changed : bool,
    if changed then piece (fan_param cur) (λ _, rest) else rest)
  end.
Definition OnFanStateChanged_pieces (buffer : option (list Z)) (len : Z) (rest : Prog (Full M)) : Prog (Full M) :=
  piece (st_gets (λ f, g_fanHelperInstance (pipe f))) (λ there : bool,
  if negb there then rest else HandleFanStateChanged_pieces buffer len rest).
Definition SyncFanState_pieces : Prog (Full M) :=
  piece (st_gets (λ f, fanRunning_ (pipe f))) (λ running : bool,
  if negb running then Done else last_piece (fan_param true)).
Definition AttachFanStateListener_pieces (ability : string → bool) (opened sym : bool) (rets : list Z)
    (report : option (option (list Z) * Z)) : Prog (Full M) :=
  if negb (ability "fan_status_listen") then Done else
  piece (st_gets (λ f, (isFanListenerDetached_ (pipe f), perfGeniusHandle_ (pipe f)))) (λ x : bool * bool,
  if x.1 then Done else
  if negb (x.2 || opened) then Done else
  if negb (sym && register_retry REGISTER_RETRY_COUNT rets)
  then last_piece (on_pipe (λ p, p <| perfGeniusHandle_ := false |>)) else
  piece (on_pipe (λ p, p <| perfGeniusHandle_ := true |> <| g_fanHelperInstance := true |>)) (λ _,
  match report with
  | Some (b, len) => OnFanStateChanged_pieces b len SyncFanState_pieces
  | None => SyncFanState_pieces
  end)).

(** The operations not named here are one piece. *)
Definition op_pieces (op : HelperOp) : Prog (Full M) :=
  match op with
  | OpCallState W tu ti td cs => OnCallStateUpdated_pieces W tu ti td cs
  | OpAudioScene W sc => OnAudioSceneChange_pieces W sc
  | OpRenderer W infos => OnRendererStateChange_pieces W infos
  | OpFan b len => OnFanStateChanged_pieces b len Done
  | OpAttachEngine W r ab => AttachAudioEngineListener_pieces W r ab
  | OpAttachRenderer W r infos => AttachAudioRendererEventListener_pieces W r infos
  | OpAttachScene W r cur => AttachAudioSceneEventListener_pieces W r cur
  | OpAttachFold a b c d => AttachFoldStatusListener_pieces a b c d
  | OpAttachFan ab o sy rets rep => AttachFanStateListener_pieces ab o sy rets rep
  | _ => last_piece (run_op op)
  end.

(** A state of the system: the handle of the recognition event that the session's
    worker thread has taken and not yet delivered, the helper, and what is left of the
    calls under way.  A step begins a call, does the next piece of one, or is one half
    of an event. *)
Definition HState : Type := option Z * Full M * list (Prog (Full M)).
Inductive sstep : HState → HState → Prop :=
| step_call pend f ps op : sstep (pend, f, ps) (pend, f, op_pieces op :: ps)
| step_piece pend f ps1 act next ps2 :
    sstep (pend, f, ps1 ++ Piece act next :: ps2) (pend, act f, ps1 ++ next f :: ps2)
| step_return pend f ps1 ps2 : sstep (pend, f, ps1 ++ Done :: ps2) (pend, f, ps1 ++ ps2)
| step_event f sid h ps :
    module_ (core f) = Some sid →
    sstep (None, f, ps)
      (if (cm_Recognize sid h (conn (core f))).1 then Some h else None,
       f <| core ::= λ s, s <| conn := (cm_Recognize sid h (conn s)).2 |> |>, ps)
| step_deliver h f ps : sstep (Some h, f, ps) (None, (on_core (OnRecognition h) f).2, ps).

(** A call that is begun, done piece by piece, and returns. *)
Lemma call_run op pend f ps : rtc sstep (pend, f, ps) (pend, prog_run (op_pieces op) f, ps).
Proof.
  eapply rtc_l; [apply (step_call _ _ _ op)|]. generalize (op_pieces op). intros p. revert f.
  induction p as [|act next IH]; intros f; cbn [prog_run].
  - apply rtc_once. apply (step_return _ _ []).
  - eapply rtc_l; [apply (step_piece _ _ [])|]. apply IH.
Qed.

(** The loops of the pieces do to the model data what those of the sequential code do. *)
Lemma each_core {X} (l : list X) body (b : X → St (TriggerHelper M) bool) rest f :
  (∀ x p f, (b x (core f)).1 = false ∧ prog_run (body x p) f = prog_run p (f <| core := (b x (core f)).2 |>)) →
  prog_run (prog_each l body rest) f = prog_run rest (f <| core := (st_for l b (core f)).2 |>).
Proof.
  intros Hb. revert f. induction l as [|x l IH]; intros f; cbn [prog_each]; [by destruct f|].
  rewrite for_cons. destruct (Hb x (prog_each l body rest) f) as [-> ->]. rewrite IH. by destruct f.
Qed.
Lemma each_core_break {X} (l : list X) body (b : X → St (TriggerHelper M) bool) f :
  (∀ x p f, prog_run (body x p) f =
     if (b x (core f)).1 then f <| core := (b x (core f)).2 |> else prog_run p (f <| core := (b x (core f)).2 |>)) →
  prog_run (prog_each l body Done) f = f <| core := (st_for l b (core f)).2 |>.
Proof.
  intros Hb. revert f. induction l as [|x l IH]; intros f; cbn [prog_each]; [by destruct f|].
  rewrite for_cons, Hb. destruct (b x (core f)).1; [by destruct f|]. rewrite IH. by destruct f.
Qed.
Lemma need_start_same u (s : TriggerHelper M) : (need_start E u s).2 = s.
Proof. unfold need_start. by rewrite bind_run. Qed.
Lemma restart_run f :
  prog_run (stop_all_pieces start_all_pieces) f = (on_core (RestartAllRecognition E) f).2.
Proof.
  rewrite on_core_run. unfold RestartAllRecognition. rewrite bind_run. cbn [snd].
  unfold stop_all_pieces. rewrite piece_run. cbn [models st_gets fst snd].
  erewrite (each_core _ _ (λ uuid, need ← need_start E uuid; if negb (need : bool) then mret false else
                             _ ← StopRecognition uuid; mret false)).
  - set (f1 := f <| core := _ |>). assert ((StopAllRecognition E (core f)).2 = core f1) as -> by done.
    unfold start_all_pieces. rewrite piece_run. cbn [models st_gets fst snd].
    rewrite (each_core_break _ _ (λ uuid, need ← need_start E uuid; if negb (need : bool) then mret false else
      r ← PrepareForRecognition uuid; if negb (r =? 0) then mret true else _ ← StartRecognition E uuid; mret false)).
    + unfold StartAllRecognition. rewrite bind_run. done.
    + intros u p g. rewrite piece_run, on_core_run. cbn [fst snd]. rewrite bind_run.
      rewrite need_start_same.
      destruct (need_start E u (core g)).1; cbn [negb]; [|by destruct g].
      rewrite piece_run, on_core_run. cbn [fst snd]. rewrite bind_run. cbn [core]. destruct g as [c q]. cbn.
      destruct (PrepareForRecognition u c) as [r c1]. cbn. destruct (r =? 0); cbn [negb]; [|done].
      rewrite piece_run, on_core_run, bind_run. done.
  - intros u p g. rewrite bind_run. rewrite need_start_same.
    rewrite piece_run, on_core_run. cbn [fst snd]. rewrite need_start_same.
    destruct (need_start E u (core g)).1; cbn [negb]; [|by destruct g].
    rewrite piece_run, on_core_run, bind_run. destruct g as [c q]. cbn. done.
Qed.
Lemma voip_change_run W f :
  prog_run (voip_change_pieces W) f =
  (if SUPPORT_RECORD_WAKEUP_CONCURRENT E && mVoipConcurrency_ (scene (core f)) then OnInputPipeChange W f else ((), f)).2.
Proof.
  unfold voip_change_pieces. destruct (SUPPORT_RECORD_WAKEUP_CONCURRENT E); cbn; [|done].
  by destruct (mVoipConcurrency_ _).
Qed.
Lemma call_state_run W tu ti td cs f :
  prog_run (OnCallStateUpdated_pieces W tu ti td cs) f = (OnCallStateUpdated W tu ti td cs f).2.
Proof.
  unfold OnCallStateUpdated_pieces, OnCallStateUpdated. rewrite piece_run, bind_run. destruct (on_core _ f) as [[] g]; [|done].
  cbn [fst snd negb]. destruct (SUPPORT_RECORD_WAKEUP_CONCURRENT E); cbn [negb]; [|done].
  rewrite piece_run, bind_run. cbn [st_gets st_get fst snd]. destruct (audioInputPipeCallback_ _); cbn [negb]; [|done].
  rewrite piece_run. cbn. by destruct (mVoipConcurrency_ _).
Qed.
Lemma audio_scene_run W sc f :
  prog_run (OnAudioSceneChange_pieces W sc) f = (OnAudioSceneChange W sc f).2.
Proof.
  unfold OnAudioSceneChange_pieces, OnAudioSceneChange. rewrite piece_run, bind_run. destruct (on_core _ f) as [[] g]; [|done].
  cbn [fst snd negb]. rewrite voip_change_run, bind_run. cbn [st_get fst snd]. by destruct (_ && _).
Qed.
Lemma renderer_run W infos f :
  prog_run (OnRendererStateChange_pieces W infos) f = (OnRendererStateChange W infos f).2.
Proof.
  unfold OnRendererStateChange_pieces, OnRendererStateChange. rewrite piece_run, bind_run. cbn [fst snd].
  set (g := (on_pipe _ f).2). rewrite bind_run.
  erewrite (each_run _ _ (λ usage, f ← st_get;
        let playing := default false (usage_map infos !! usage) in
        if decide (rendererStateMap_ (pipe f) !! usage = Some playing) then mret false else
        _ ← on_pipe (λ p, p <| rendererStateMap_ ::= <[usage := playing]> |>);
        _ ← SetParameterForInputPipe (if playing then "start_stream" else "stop_stream")%string
              (String.string_of_list_ascii (print_int usage));
        mret false)).
  - rewrite voip_change_run, bind_run. cbn [st_get fst snd]. by destruct (_ && _).
  - intros u p h. rewrite piece_run, bind_run. cbn [st_get fst snd]. unfold change_renderer. case_decide; [done|].
    cbn [fst snd]. rewrite piece_run, !bind_run. done.
Qed.
Lemma fan_run b len rest f :
  prog_run (OnFanStateChanged_pieces b len rest) f = prog_run rest (OnFanStateChanged b len f).2.
Proof.
  unfold OnFanStateChanged_pieces, OnFanStateChanged, HandleFanStateChanged_pieces, HandleFanStateChanged.
  rewrite piece_run, bind_run. cbn [st_gets st_get fst snd]. destruct (g_fanHelperInstance (pipe f)); cbn [negb]; [|done].
  rewrite bind_run. cbn [mret st_ret snd]. destruct b as [b|]; [|done]. do 3 (destruct (_ : bool); [done|]).
  rewrite piece_run, bind_run. unfold change_fan. cbn [st_get fst snd]. destruct (Bool.eqb _ _); [done|].
  cbn [fst snd]. by rewrite piece_run, bind_run.
Qed.
Lemma sync_run f : prog_run SyncFanState_pieces f = (SyncFanState f).2.
Proof.
  unfold SyncFanState_pieces, SyncFanState. rewrite piece_run, bind_run. cbn [st_gets st_get fst snd].
  by destruct (fanRunning_ (pipe f)).
Qed.
Lemma attach_fan_run ab o sy rets rep f :
  prog_run (AttachFanStateListener_pieces ab o sy rets rep) f = (AttachFanStateListener ab o sy rets rep f).2.
Proof.
  unfold AttachFanStateListener_pieces, AttachFanStateListener. destruct (ab _); cbn [negb]; [|done].
  rewrite piece_run, bind_run. cbn [st_gets st_get fst snd]. destruct (isFanListenerDetached_ (pipe f)); [done|].
  destruct (negb (_ || _)); [done|]. destruct (negb (_ && _)); [done|]. rewrite piece_run, bind_run. cbn [fst snd].
  rewrite bind_run. destruct rep as [[b len]|]; cbn [snd].
  - by rewrite fan_run, sync_run, void_run.
  - by rewrite sync_run.
Qed.
Lemma attach_engine_run W r ab f :
  prog_run (AttachAudioEngineListener_pieces W r ab) f = (AttachAudioEngineListener W r ab f).2.
Proof.
  unfold AttachAudioEngineListener_pieces, AttachAudioEngineListener. rewrite piece_run, bind_run. cbn [st_gets st_get fst snd].
  destruct (isCapturerDetached_ (pipe f)); [done|]. rewrite piece_run, bind_run. destruct (negb (r =? 0)); [done|].
  rewrite !bind_run. unfold piece_when.
  destruct (ab "camera_concurrency"%string), (ab "extension_concurrency"%string), (ab "voip_concurrency"%string),
    (ab "call_concurrency"%string); cbn [st_when]; rewrite ?piece_run, ?bind_run; done.
Qed.
Lemma attach_fold_run a b c d f :
  prog_run (AttachFoldStatusListener_pieces a b c d) f = (AttachFoldStatusListener a b c d f).2.
Proof.
  unfold AttachFoldStatusListener_pieces, AttachFoldStatusListener. rewrite piece_run, bind_run. cbn [st_gets st_get fst snd].
  destruct (isFoldStatusDetached_ (pipe f)); [done|]. rewrite piece_run, bind_run. destruct (negb (b && a)); [done|].
  rewrite piece_run, bind_run, piece_run, bind_run. destruct (bool_decide (d = FOLD_FOLDED)); [|done]. by rewrite restart_run.
Qed.
(** A call that nobody comes in the way of is the operation. *)
Lemma pieces_run op f : prog_run (op_pieces op) f = (run_op op f).2.
Proof.
  destruct op; cbn [op_pieces run_op]; try done.
  - apply call_state_run.
  - apply audio_scene_run.
  - apply renderer_run.
  - by rewrite fan_run, void_run.
  - apply attach_engine_run.
  - unfold AttachAudioRendererEventListener_pieces, AttachAudioRendererEventListener. rewrite piece_run, bind_run.
    cbn [st_gets st_get fst snd]. destruct (isRendererDetached_ _); [done|]. rewrite piece_run, bind_run.
    destruct (negb _); [done|]. apply renderer_run.
  - unfold AttachAudioSceneEventListener_pieces, AttachAudioSceneEventListener. rewrite piece_run, bind_run.
    cbn [st_gets st_get fst snd]. destruct (isSceneDetached_ _); [done|]. destruct (negb _); [done|]. apply audio_scene_run.
  - apply attach_fold_run.
  - apply attach_fan_run.
Qed.

(** The generic-model operations, in addition to [core_closed]. *)
Record api_closed (P : TriggerHelper M → Prop) : Prop := {
  ac_core : core_closed P;
  ac_start : ∀ u m cb, ⟪ P ⟫ StartGenericRecognition E u m cb ⟪ λ _, P ⟫;
  ac_stop : ∀ u, ⟪ P ⟫ StopGenericRecognition u ⟪ λ _, P ⟫;
  ac_unload : ∀ u, ⟪ P ⟫ UnloadGenericTriggerModel u ⟪ λ _, P ⟫;
  ac_get : ∀ k, ⟪ P ⟫ GetParameter E k ⟪ λ _, P ⟫;
  ac_stop1 : ∀ u, ⟪ P ⟫ StopRecognition u ⟪ λ _, P ⟫;
  ac_prepare : ∀ u, ⟪ P ⟫ PrepareForRecognition u ⟪ λ _, P ⟫ }.

Lemma run_op_lift P op : api_closed P → ⟪ lift P ⟫ run_op op ⟪ λ _, lift P ⟫.
Proof.
  intros [HP H1 H2 H3 H4 _ _]. pose proof HP as [C1 C2 C3 C4 C5 C6 C7].
  destruct op; cbn [run_op]; try (apply hoare_void); try (apply on_core_lift);
    eauto using OnCallStateUpdated_lift, OnAudioSceneChange_lift, OnInputPipeChange_lift,
      OnRendererStateChange_lift, AttachAudioEngineListener_lift, AttachFanStateListener_lift,
      AttachFoldStatusListener_lift, on_pipe_lift.
  all: try (unfold OnHibernateStateUpdated, OnCapturerStateChange, OnFoldStatusChanged;
            keeps; first [done | apply C2 | apply C4 | apply C7 | apply C5; by left]).
  all: unfold OnFanStateChanged, AttachAudioRendererEventListener, AttachAudioSceneEventListener,
    DetachFanStateListener, ClearConcurrentControlList; keeps;
    eauto using HandleFanStateChanged_lift, OnRendererStateChange_lift, OnAudioSceneChange_lift.
Qed.

(** Every piece of every call keeps what every operation keeps. *)
Lemma fold_pieces_keep {I} (P : I → TriggerHelper M → Prop) a b c d :
  (∀ i, api_closed (P i)) → prog_keeps (λ i, lift (P i)) (AttachFoldStatusListener_pieces a b c d).
Proof.
  intros HP. pose proof (λ i, ac_core _ (HP i)) as HC. unfold AttachFoldStatusListener_pieces, stop_all_pieces, start_all_pieces, models, need_start.
  assert (∀ X (m : St (TriggerHelper M) X), (∀ i, ⟪ P i ⟫ m ⟪ λ _, P i ⟫) → ∀ i, ⟪ lift (P i) ⟫ on_core m ⟪ λ _, lift (P i) ⟫) as Hc
    by (intros X m Hm i; apply on_core_lift, Hm).
  assert (∀ u i, ⟪ P i ⟫ (s ← st_get; mret (from_option requested_ false (modelDataMap_ s !! u) &&
            negb (IsConflictSceneActive E (scene s)))) ⟪ λ _, P i ⟫) as Hn by (intros u i s Hs; exact Hs).
  apply piece_keeps; [by intros i f|intros []; [done|]].
  apply piece_keeps; [apply Hc; intros i; apply (cc_foldable _ (HC i))|intros _]. destruct (negb _); [done|].
  apply piece_keeps; [intros i; apply on_pipe_lift|intros _].
  apply piece_keeps; [apply Hc; intros i; apply (cc_fold _ (HC i))|intros _]. destruct (bool_decide _); [|done].
  apply piece_keeps; [by intros i f|intros l]. apply each_keeps.
  - intros u p Hp. apply piece_keeps; [apply Hc, Hn|intros []; [|done]].
    apply piece_keeps; [apply Hc; intros i; apply (ac_stop1 _ (HP i))|done].
  - apply piece_keeps; [by intros i f|intros l']. apply each_keeps; [|done].
    intros u p Hp. apply piece_keeps; [apply Hc, Hn|intros []; cbn [negb]; [|done]].
    apply piece_keeps; [apply Hc; intros i; apply (ac_prepare _ (HP i))|intros r]. destruct (negb _); [done|].
    apply piece_keeps; [apply Hc; intros i; apply (cc_start _ (HC i))|done].
Qed.
Lemma fan_pieces_keep {I} (P : I → TriggerHelper M → Prop) b len rest :
  (∀ i, api_closed (P i)) → prog_keeps (λ i, lift (P i)) rest → prog_keeps (λ i, lift (P i)) (OnFanStateChanged_pieces b len rest).
Proof.
  intros HP Hr. pose proof (λ i, ac_core _ (HP i)) as HC. unfold OnFanStateChanged_pieces, HandleFanStateChanged_pieces.
  apply piece_keeps; [by intros i f|intros []; cbn [negb]; [|done]]. destruct b as [b|]; [|done].
  do 3 (destruct (_ : bool); [done|]).
  apply piece_keeps; [intros i f Hf; unfold change_fan; by destruct (Bool.eqb _ _)|intros []; [|done]].
  apply piece_keeps; [|done]. intros i. unfold fan_param, SetParameterForInputPipe. apply hoare_void, on_core_lift, (cc_param _ (HC i)).
Qed.
Lemma voip_pieces_keep {I} (P : I → TriggerHelper M → Prop) W :
  (∀ i, api_closed (P i)) → prog_keeps (λ i, lift (P i)) (voip_change_pieces W).
Proof.
  intros HP. unfold voip_change_pieces. destruct (negb _); [done|]. apply piece_keeps; [by intros i f|intros []; [|done]].
  apply last_keeps. intros i. apply OnInputPipeChange_lift, HP.
Qed.
Lemma scene_pieces_keep {I} (P : I → TriggerHelper M → Prop) W sc :
  (∀ i, api_closed (P i)) → prog_keeps (λ i, lift (P i)) (OnAudioSceneChange_pieces W sc).
Proof.
  intros HP. apply piece_keeps; [|intros []; [by apply voip_pieces_keep|done]].
  intros i. apply on_core_lift. pose proof (ac_core _ (HP i)) as HC. unfold OnAudioSceneChange_locked. keeps.
  - apply (cc_scene _ HC). by left.
  - apply (cc_update _ HC).
Qed.
Lemma renderer_pieces_keep {I} (P : I → TriggerHelper M → Prop) W infos :
  (∀ i, api_closed (P i)) → prog_keeps (λ i, lift (P i)) (OnRendererStateChange_pieces W infos).
Proof.
  intros HP. apply piece_keeps; [intros i; apply on_pipe_lift|intros _]. apply each_keeps; [|by apply voip_pieces_keep].
  intros u p Hp. apply piece_keeps; [intros i f Hf; unfold change_renderer; by case_decide|intros []; [|done]].
  apply piece_keeps; [|done]. intros i. unfold SetParameterForInputPipe. apply hoare_void, on_core_lift, (cc_param _ (ac_core _ (HP i))).
Qed.
Lemma engine_pieces_keep {I} (P : I → TriggerHelper M → Prop) W r ab :
  (∀ i, api_closed (P i)) → prog_keeps (λ i, lift (P i)) (AttachAudioEngineListener_pieces W r ab).
Proof.
  intros HP. assert (∀ b m rest, (∀ i, ⟪ lift (P i) ⟫ m ⟪ λ _, lift (P i) ⟫) → prog_keeps (λ i, lift (P i)) rest →
    prog_keeps (λ i, lift (P i)) (piece_when b m rest)) as Hw by (intros [] m rest Hm Hr; [by apply piece_keeps|done]).
  apply piece_keeps; [by intros i f|intros []; [done|]]. apply piece_keeps; [intros i; apply on_pipe_lift|intros _].
  destruct (negb _); [done|]. pose proof (λ i, ac_core _ (HP i)) as HC.
  do 2 (apply Hw; [intros i; apply on_pipe_lift|]).
  apply Hw; [intros i; apply on_core_lift, (cc_scene _ (HC i)); by right|].
  apply Hw; [intros i; apply on_core_lift, (cc_scene _ (HC i)); by left|].
  apply Hw; [intros i; apply on_pipe_lift|]. apply piece_keeps; [intros i; apply on_pipe_lift|intros _].
  apply last_keeps. intros i. apply OnInputPipeChange_lift, HC.
Qed.
Lemma op_pieces_keep {I} (P : I → TriggerHelper M → Prop) op :
  (∀ i, api_closed (P i)) → prog_keeps (λ i, lift (P i)) (op_pieces op).
Proof.
  intros HP. assert (∀ op, prog_keeps (λ i, lift (P i)) (last_piece (run_op op))) as Hl
    by (intros o; apply last_keeps; intros i; by apply run_op_lift). pose proof (λ i, ac_core _ (HP i)) as HC.
  destruct op; cbn [op_pieces]; try apply Hl.
  - unfold OnCallStateUpdated_pieces. apply piece_keeps; [|intros []; [|done]].
    { intros i. apply on_core_lift. unfold OnCallStateUpdated_locked. keeps; [apply (cc_scene _ (HC i)); by left|apply (cc_update _ (HC i))]. }
    cbn [negb]. destruct (negb _); [done|]. apply piece_keeps; [by intros i f|intros []; [|done]]. cbn [negb].
    apply piece_keeps; [by intros i f|intros []; [done|]]. apply last_keeps. intros i. apply OnInputPipeChange_lift, HC.
  - by apply scene_pieces_keep.
  - by apply renderer_pieces_keep.
  - by apply fan_pieces_keep.
  - by apply engine_pieces_keep.
  - apply piece_keeps; [by intros i f|intros []; [done|]]. apply piece_keeps; [intros i; apply on_pipe_lift|intros _].
    destruct (negb _); [done|]. by apply renderer_pieces_keep.
  - apply piece_keeps; [by intros i f|intros []; [done|]]. destruct (negb _); [done|]. by apply scene_pieces_keep.
  - by apply fold_pieces_keep.
  - assert (prog_keeps (λ i, lift (P i)) SyncFanState_pieces) as Hs.
    { apply piece_keeps; [by intros i f|intros []; [|done]]. apply last_keeps. intros i. unfold fan_param, SetParameterForInputPipe.
      apply hoare_void, on_core_lift, (cc_param _ (HC i)). }
    unfold AttachFanStateListener_pieces. destruct (negb _); [done|]. apply piece_keeps; [by intros i f|intros [x y]].
    destruct x; [done|]. destruct (negb _); [done|]. destruct (negb _); [apply last_keeps; intros i; apply on_pipe_lift|].
    apply piece_keeps; [intros i; apply on_pipe_lift|intros _]. destruct report as [[b len]|]; [by apply fan_pieces_keep|done].
Qed.

(** An invariant of the operations, and of both halves of an event, is one of the system. *)
Definition state_ok (P : option Z → TriggerHelper M → Prop) (x : HState) : Prop :=
  P x.1.1 (core x.1.2) ∧ Forall (prog_keeps (λ i, lift (P i))) x.2.
Lemma sstep_keeps (P : option Z → TriggerHelper M → Prop) x y :
  (∀ i, api_closed (P i)) →
  (∀ sid h s, P None s → module_ s = Some sid →
     P (if (cm_Recognize sid h (conn s)).1 then Some h else None) (s <| conn := (cm_Recognize sid h (conn s)).2 |>)) →
  (∀ h s, P (Some h) s → P None (OnRecognition h s).2) →
  state_ok P x → sstep x y → state_ok P y.
Proof.
  intros HP Hr Hd [Hx Hps] Hs. destruct Hs as [pend f ps op|pend f ps1 act next ps2|pend f ps1 ps2|f sid h ps Hm|h f ps]; cbn in *.
  - split; [done|]. apply Forall_cons. split; [by apply op_pieces_keep|done].
  - apply Forall_app in Hps as [H1 [[Ha Hn] H2]%Forall_cons]. split; [by apply Ha|].
    apply Forall_app. split; [done|]. by apply Forall_cons.
  - split; [done|]. apply Forall_app in Hps as [H1 [_ H2]%Forall_cons]. by apply Forall_app.
  - split; [|done]. by apply Hr.
  - split; [|done]. rewrite on_core_run. by apply Hd.
Qed.

(** The VoIP switch is off. *)
Definition voip_off (s : TriggerHelper M) : Prop := mVoipConcurrency_ (scene s) = false.

Lemma voip_framed : framed voip_off.
Proof. by constructor. Qed.

Lemma SetParameter_keeps (P : TriggerHelper M → Prop) k v :
  framed P → (∀ s, P s → P (s <| out ::= λ l, l ++ [EvSetParams k v] |>)) →
  ⟪ P ⟫ SetParameter k v ⟪ λ _, P ⟫.
Proof.
  intros HP Hout. unfold SetParameter.
  keeps; eauto using GetModule_framed, on_conn_framed.
Qed.

Lemma GetParameter_keeps (P : TriggerHelper M → Prop) k :
  framed P → ⟪ P ⟫ GetParameter E k ⟪ λ _, P ⟫.
Proof.
  intros HP. unfold GetParameter, GetFoldStatusInfo.
  keeps; eauto using GetModule_framed, on_conn_framed.
Qed.

Lemma PrepareForRecognition_keeps (P : TriggerHelper M → Prop) u :
  framed P → ⟪ P ⟫ PrepareForRecognition u ⟪ λ _, P ⟫.
Proof.
  intros HP. unfold PrepareForRecognition.
  keeps; eauto using GetModule_framed, LoadModel_framed, UnloadModel_framed.
Qed.

Lemma voip_closed : api_closed voip_off.
Proof.
  pose proof voip_framed as HP. constructor; [constructor|..];
    eauto using OnUpdateAll_framed, StartRecognition_framed, RestartAllRecognition_framed,
      StartGenericRecognition_framed, StopGenericRecognition_framed,
      UnloadGenericTriggerModel_framed, GetParameter_keeps, StopRecognition_framed,
      PrepareForRecognition_keeps.
  - intros k v. by apply SetParameter_keeps.
  - intros g Hg s Hs. unfold voip_off in *. cbn. destruct (Hg (scene s)) as [->| ->]; done.
  - by intros b s Hs.
  - by intros x s Hs.
Qed.

Context `{!ConnectorLaws M}.

Lemma RestartAllRecognition_agree pend :
  ⟪ agree pend ⟫ RestartAllRecognition E ⟪ λ _, agree pend ⟫.
Proof.
  unfold RestartAllRecognition, StopAllRecognition, StartAllRecognition, need_start.
  keeps; auto using StopRecognition_agree, PrepareForRecognition_agree, StartRecognition_agree.
Qed.

Lemma agree_closed pend : api_closed (agree pend).
Proof.
  constructor; [constructor|..];
    auto using SetParameter_agree, OnUpdateAllRecognitionState_agree, StartRecognition_agree,
      RestartAllRecognition_agree, on_scene_agree, StartGenericRecognition_agree,
      StopGenericRecognition_agree, UnloadGenericTriggerModel_agree, GetParameter_agree,
      StopRecognition_agree, PrepareForRecognition_agree.
  - intros b. by apply modify_agree.
  - intros x. by apply modify_agree.
Qed.

Lemma new_full_agree m : cm_wf m → agree None (core (new_full m)).
Proof.
  intros Hm. constructor; cbn; try done.
  all: intros *; rewrite ?lookup_empty; try done.
  all: try (by intros []).
Qed.

Lemma sstep_agree x y : state_ok agree x → sstep x y → state_ok agree y.
Proof.
  apply sstep_keeps; [apply agree_closed|intros sid h s; apply recognize_agree|intros h s; apply OnRecognition_agree].
Qed.

Lemma sstep_voip x y : state_ok (λ _, voip_off) x → sstep x y → state_ok (λ _, voip_off) y.
Proof.
  apply sstep_keeps; [intros _; apply voip_closed|done|]. intros h. apply OnRecognition_framed, voip_framed.
Qed.

(** ** Capture parameter *)

(** Whether concurrent capture is on after the parameters sent so far. *)
Definition capture_event (b : bool) (e : HelperEvent) : bool :=
  match e with
  | EvSetParams key v =>
    if bool_decide (key = "concurrent_capture"%string) then
      if bool_decide (v = "stop"%string) then false else
      if bool_decide (v = "start"%string) || bool_decide (v = "start_withwhisper"%string) ||
         bool_decide (v = "start_nowhisper"%string) then true else b
    else b
  | _ => b
  end.
Definition capture_on (l : list HelperEvent) : bool := foldl capture_event false l.

Lemma capture_on_snoc l e : capture_on (l ++ [e]) = capture_event (capture_on l) e.
Proof. unfold capture_on. by rewrite foldl_app. Qed.

(** The module is there, capture is as given, and so is the scene. *)
Definition captured (b : bool) (sc : Scene) (s : TriggerHelper M) : Prop :=
  is_Some (module_ s) ∧ capture_on (out s) = b ∧ scene s = sc.

Lemma captured_framed b sc : framed (captured b sc).
Proof.
  constructor; try done.
  - intros s e He (Hm & Hc & Hs). split; [done|]. split; [|done]. simpl.
    rewrite capture_on_snoc, Hc. destruct e; try done. cbn in He. subst. done.
  - intros s r Hn ([x Hx] & _). congruence.
Qed.

Lemma SetParameter_captured b sc k v :
  ⟪ lift (captured b sc) ⟫ SetParameterForInputPipe k v
  ⟪ λ _, lift (captured (capture_event b (EvSetParams k v)) sc) ⟫.
Proof.
  intros f ([sid Hm] & Hc & Hs). unfold SetParameterForInputPipe. rewrite void_run, on_core_run.
  cbn [fst snd]. unfold lift. cbn. unfold SetParameter, GetModule. rewrite !bind_run.
  cbn [st_gets fst snd]. rewrite Hm. cbn [mret st_ret fst snd negb]. rewrite bind_run.
  cbn [st_gets fst snd]. rewrite Hm, bind_run, on_conn_run. cbn. unfold captured. cbn.
  rewrite Hm, capture_on_snoc, Hc. by split_and!.
Qed.

Lemma open_capture_captured b sc :
  ⟪ lift (captured b sc) ⟫ open_capture ⟪ λ _, lift (captured true sc) ⟫.
Proof.
  unfold open_capture. apply hoare_get_bind. intros f.
  eapply hoare_conseq; [apply SetParameter_captured|done|]. intros [] f'. cbn beta.
  destruct (mExtensionConcurrency_ (pipe f)); [destruct (whitelistWhisperEnbale_ (pipe f))|]; done.
Qed.

(** Capture after a transition: state 3 is concurrent capture. *)
Definition capture_after (o n : nat) (b : bool) : bool :=
  if decide (o = 3%nat) then (if decide (n = 3%nat) then b else false)
  else if decide (n = 3%nat) then true else b.

Lemma transition_captured o n md b sc :
  (o < 4)%nat → (n < 4)%nat →
  ⟪ lift (captured b sc) ⟫ ExecuteStateTransition o n md
  ⟪ λ _, lift (captured (capture_after o n b) sc) ⟫.
Proof.
  intros Ho Hn.
  assert (∀ b, ⟪ lift (captured b sc) ⟫ on_core (OnUpdateAllRecognitionState E)
               ⟪ λ _, lift (captured b sc) ⟫) as Hu.
  { intros b'. apply on_core_lift, OnUpdateAll_framed, captured_framed. }
  assert (∀ u, ⟪ lift (captured b sc) ⟫ on_core (StartRecognition E u)
               ⟪ λ _, lift (captured b sc) ⟫) as Hst.
  { intros u. apply on_core_lift, StartRecognition_framed, captured_framed. }
  assert (⟪ lift (captured b sc) ⟫
    (f ← st_get; st_when (mExtensionConcurrency_ (pipe f))
      (SetParameterForInputPipe "concurrent_capture"
        (if whitelistWhisperEnbale_ (pipe f) then "enablewhisper" else "disablewhisper")%string))
    ⟪ λ _, lift (captured b sc) ⟫) as Hsame.
  { apply hoare_get_bind. intros f. apply hoare_when.
    eapply hoare_conseq; [apply SetParameter_captured|done|]. intros [] f'. cbn beta.
    by destruct (whitelistWhisperEnbale_ (pipe f)). }
  assert (⟪ lift (captured b sc) ⟫ SetParameterForInputPipe "concurrent_capture" "stop"
          ⟪ λ _, lift (captured false sc) ⟫) as Hstop by apply SetParameter_captured.
  assert (n = 0 ∨ n = 1 ∨ n = 2 ∨ n = 3)%nat as Hn' by lia.
  assert (o = 0 ∨ o = 1 ∨ o = 2 ∨ o = 3)%nat as Ho' by lia. clear Ho Hn.
  destruct Ho' as [->|[->|[->| ->]]], Hn' as [->|[->|[->| ->]]];
    unfold ExecuteStateTransition; cbn [method methodTable lookup list_lookup default mbind option_bind
      from_option]; cbn; auto using open_capture_captured.
  all: first
    [ eapply hoare_bind; [exact Hstop|intros []; apply Hu]
    | apply hoare_get_bind; intros f; apply (hoare_bind _ _ (λ _, lift (captured b sc)));
      [destruct md; [apply hoare_when, hoare_void, Hst|apply hoare_ret_keep]
      |intros []; apply open_capture_captured] ].
Qed.

Lemma stateToInt_lt b c : (stateToInt b c < 4)%nat.
Proof. destruct b, c; unfold stateToInt; lia. Qed.

Lemma capture_after_idem o n b : capture_after o n (capture_after o n b) = capture_after o n b.
Proof. unfold capture_after. repeat case_decide; done. Qed.

Lemma run_transitions_captured o n b sc :
  (o < 4)%nat → (n < 4)%nat →
  ⟪ lift (captured b sc) ⟫ run_transitions o n ⟪ λ _, lift (captured (capture_after o n b) sc) ⟫.
Proof.
  intros Ho Hn f Hf. unfold run_transitions. rewrite bind_run. cbn [st_get fst snd].
  case_decide as Hmap; [by apply transition_captured|].
  assert (map_order (modelDataMap_ (core f)) ≠ []) as Hne.
  { intros Hnil. apply Hmap, map_empty. intros u.
    destruct (modelDataMap_ (core f) !! u) eqn:Hu; [|done].
    assert (u ∈ map_order (modelDataMap_ (core f))) as Hin by (apply elem_of_map_order; by eexists).
    rewrite Hnil in Hin. by apply elem_of_nil in Hin. }
  destruct (map_order _) as [|u l]; [done|]. rewrite for_cons, !bind_run. cbn [mret st_ret fst snd].
  apply (hoare_for (lift (captured (capture_after o n b) sc))); [|by apply transition_captured].
  intros x _. apply hoare_seq; [|intros []; apply hoare_ret_keep].
  eapply hoare_conseq; [by apply transition_captured|done|]. intros [] f'. cbn beta.
  by rewrite capture_after_idem.
Qed.

(** The transitions leave the scene and the members of this file alone. *)
Lemma scene_framed sc : framed (λ s : TriggerHelper M, scene s = sc).
Proof. by constructor. Qed.

Lemma run_transitions_lift_scene sc o n :
  ⟪ λ f, scene (core f) = sc ⟫ run_transitions o n ⟪ λ _ f, scene (core f) = sc ⟫.
Proof.
  change (⟪ lift (λ s, scene s = sc) ⟫ run_transitions o n ⟪ λ _, lift (λ s, scene s = sc) ⟫).
  unfold run_transitions, ExecuteStateTransition, open_capture, SetParameterForInputPipe.
  keeps; apply on_core_lift;
    first [ apply SetParameter_keeps; [apply scene_framed|done]
          | apply OnUpdateAll_framed, scene_framed | apply StartRecognition_framed, scene_framed ].
Qed.

Lemma run_transitions_pipe o n f : pipe (run_transitions o n f).2 = pipe f.
Proof.
  assert (∀ X (k : St (TriggerHelper M) X), ⟪ λ g, pipe g = pipe f ⟫ on_core k ⟪ λ _ g, pipe g = pipe f ⟫)
    as Hk by (intros X k g Hg; by rewrite on_core_run).
  enough (⟪ λ g, pipe g = pipe f ⟫ run_transitions o n ⟪ λ _ g, pipe g = pipe f ⟫) as H by by apply H.
  unfold run_transitions, ExecuteStateTransition, open_capture, SetParameterForInputPipe.
  keeps; apply Hk.
Qed.

(** The first steps of [OnInputPipeChange], up to the decision. *)
Definition first_proc : FM unit :=
  f ← st_get;
  if mFirstProc (pipe f) then
    _ ← SetParameterForInputPipe "concurrent_capture" "stop";
    on_pipe (λ p, p <| mFirstProc := false |>)
  else mret ().

Lemma SetParameterForInputPipe_pipe k v f :
  pipe (SetParameterForInputPipe k v f).2 = pipe f.
Proof. unfold SetParameterForInputPipe. by rewrite void_run, on_core_run. Qed.

Lemma SetParameterForInputPipe_scene k v f :
  scene (core (SetParameterForInputPipe k v f).2) = scene (core f).
Proof.
  unfold SetParameterForInputPipe. rewrite void_run, on_core_run. cbn.
  by apply (SetParameter_keeps (λ s, scene s = scene (core f))).
Qed.

(** The members of the helper the decision reads are those of the start. *)
Lemma filled_first W p :
  filled W (p <| mFirstProc := false |>) = filled W p <| mFirstProc := false |>.
Proof.
  unfold filled, load_black, load_white. cbn.
  destruct (bool_decide (concurrentBlacklist_ p = ∅)); cbn;
    by destruct (bool_decide (concurrentTypeSet_ p = ∅) || bool_decide (concurrentWhitelist_ p = ∅)).
Qed.

Lemma first_proc_facts f :
  scene (core (first_proc f).2) = scene (core f) ∧
  (pipe (first_proc f).2 = pipe f ∨ pipe (first_proc f).2 = pipe f <| mFirstProc := false |>).
Proof.
  unfold first_proc. rewrite bind_run. cbn [st_get fst snd].
  destruct (mFirstProc (pipe f)); [|by auto]. rewrite bind_run. cbn [st_modify on_pipe snd].
  cbn. rewrite SetParameterForInputPipe_pipe, SetParameterForInputPipe_scene. auto.
Qed.

Lemma filled_flags W p :
  mExtensionConcurrency_ (filled W p) = mExtensionConcurrency_ p ∧
  whitelistWhisperEnbale_ (filled W p) = whitelistWhisperEnbale_ p.
Proof.
  unfold filled, load_black, load_white. cbn.
  destruct (bool_decide (concurrentBlacklist_ p = ∅)); cbn;
    by destruct (bool_decide (concurrentTypeSet_ p = ∅) || bool_decide (concurrentWhitelist_ p = ∅)).
Qed.

(** The decision of [OnInputPipeChange] and its effect. *)
Definition decided_concurrent (W : World) f : bool :=
  concurrent_ref W (scene (core f)) (filled W (pipe f)) (streams_of (GetPipeInfo W)).
Definition decided_running (W : World) f : bool := source_running (scene (core f)) (GetPipeInfo W).
Definition decided_whisper (W : World) f : bool :=
  if mExtensionConcurrency_ (pipe f)
  then whisper_ref W (filled W (pipe f)) (streams_of (GetPipeInfo W)) else true.

(** [OnInputPipeChange] after its first steps: either nothing changed, or the
    flags are set and the transitions run, from a state with the same model data. *)
Lemma OnInputPipeChange_cases W f :
  ∃ f1 : Full M,
    let sc := scene (core f) in
    let c := decided_concurrent W f in let r := decided_running W f in
    let w := decided_whisper W f in
    core f1 = core (first_proc f).2 ∧
    mExtensionConcurrency_ (pipe f1) = mExtensionConcurrency_ (pipe f) ∧
    whitelistWhisperEnbale_ (pipe f1) = whitelistWhisperEnbale_ (pipe f) ∧
    (OnInputPipeChange W f).2 =
      if Bool.eqb c (audioConcurrentCapture_ sc) && Bool.eqb r (audioCaptureActive_ sc) &&
         (negb (mExtensionConcurrency_ (pipe f)) || Bool.eqb w (whitelistWhisperEnbale_ (pipe f)))
      then f1
      else (run_transitions (stateToInt (audioConcurrentCapture_ sc) (audioCaptureActive_ sc))
              (stateToInt c r)
              (f1 <| core ::= λ s, s <| scene ::= λ sc, sc <| audioConcurrentCapture_ := c |>
                                                          <| audioCaptureActive_ := r |> |> |>
                  <| pipe ::= λ p, p <| whitelistWhisperEnbale_ := w |> |>)).2.
Proof.
  destruct (first_proc_facts f) as [Hsc Hp].
  set (f0 := (first_proc f).2) in *.
  assert (filled W (pipe f0) = filled W (pipe f) ∨
          filled W (pipe f0) = filled W (pipe f) <| mFirstProc := false |>) as Hf0.
  { destruct Hp as [->| ->]; [by left|right; apply filled_first]. }
  destruct (GetConcurrentState_run W (GetPipeInfo W) f0) as (C1 & C2 & C3).
  set (m := if mExtensionConcurrency_ (pipe f) then GetWhisperEnable W (GetPipeInfo W) else mret true).
  set (fc := (GetConcurrentState W (GetPipeInfo W) f0).2) in *.
  assert ((m fc).1 = decided_whisper W f ∧ core (m fc).2 = core fc ∧
          filled W (pipe (m fc).2) = filled W (pipe fc)) as (W1 & W2 & W3).
  { unfold m, decided_whisper. destruct (mExtensionConcurrency_ (pipe f)); [|done].
    destruct (whisper_loop_run W (streams_of (GetPipeInfo W)) fc) as (V1 & V2 & V3).
    split; [|done]. unfold GetWhisperEnable. rewrite V1, C3. by destruct Hf0 as [->| ->]. }
  assert (decided_concurrent W f = (GetConcurrentState W (GetPipeInfo W) f0).1) as Hc.
  { rewrite C1, Hsc. by destruct Hf0 as [->| ->]. }
  exists (m fc).2. split; [congruence|].
  assert (mExtensionConcurrency_ (pipe (m fc).2) = mExtensionConcurrency_ (pipe f) ∧
          whitelistWhisperEnbale_ (pipe (m fc).2) = whitelistWhisperEnbale_ (pipe f)) as [X1 X2].
  { destruct (filled_flags W (pipe (m fc).2)) as [G1 G2], (filled_flags W (pipe f)) as [G3 G4].
    rewrite W3, C3 in G1, G2. rewrite <- G1, <- G2, <- G3, <- G4. by destruct Hf0 as [->| ->]. }
  split; [done|]. split; [done|]. unfold OnInputPipeChange. rewrite bind_run. cbn [st_get fst snd].
  rewrite bind_run.
  match goal with |- context [(if mFirstProc (pipe f) then ?a else ?b) f] =>
    change ((if mFirstProc (pipe f) then a else b) f) with (first_proc f) end.
  fold f0. cbv zeta. rewrite bind_run, <- Hc. fold fc. rewrite bind_run. fold m.
  rewrite W1, bind_run. cbn [st_get fst snd].
  assert (scene (core (m fc).2) = scene (core f)) as -> by congruence.
  rewrite X1, X2. fold (decided_running W f).
  destruct (_ && _ && _); [done|]. rewrite !bind_run. unfold set_scene. rewrite on_core_run. done.
Qed.

End pipe.

(** ** Concrete values for the witnesses *)

Definition ref_ids : AudioIds := mkAudioIds 0 1 18 5 6 13 4 7 1 1 1 0 16 32 3 4 20.

(** A pipe with one stream of the given source type that is running. *)
Definition ref_world (sources : list Z) : World :=
  mkWorld (λ _, "com.example.recorder"%string)
    (Some [Some (mkPipe 1 1 (list_to_map (imap (λ i src, (Z.of_nat i, mkStream src 1 7 false false)) sources)))])
    (λ _, "json"%string)
    (λ _, Some [("com.example.recorder"%string, Some [Some (lit "6")])]).

Abbreviation ref_full := (new_full ref_ids ref_mgr).
Abbreviation ref_run := (run_op (M := ConnectorMgr RefHal) ref_env ref_ids).

(** The state after a sequence of operations. *)
Definition after (ops : list HelperOp) (f : Full (ConnectorMgr RefHal)) : Full (ConnectorMgr RefHal) :=
  foldl (λ f op, (ref_run op f).2) f ops.

Lemma after_rtc pend ops f : rtc (sstep ref_env ref_ids) (pend, f, []) (pend, after ops f, []).
Proof.
  revert f. induction ops as [|op ops IH]; intros f; [apply rtc_refl|].
  etrans; [apply (call_run ref_env ref_ids op)|]. rewrite pieces_run. apply IH.
Qed.

(** * Properties *)

(** C2: in every state the helper reaches, under any sequence of client
    calls, scene changes, audio, fold and fan notifications and recognition
    events, its records agree with the connector: a model it believes started is
    active in the session (or its event is on the way), a model it believes
    loaded is loaded there, and different models have different handles.  The
    calls that do not hold the mutex throughout are interleaved with the others
    piece by piece, the restart of the models at the attachment of the fold
    listener model by model. *)
Theorem helper_reachable_agree E A {M} `{!ConnectorModule M} `{!ConnectorLaws M} (m : M) pend f ps :
  cm_wf m → rtc (sstep E A) (None, new_full A m, []) (pend, f, ps) → agree pend (core f).
Proof.
  intros Hm Hr. refine (proj1 (rtc_invariant _ (state_ok agree) _ _ (sstep_agree E A) _ Hr)).
  split; [by apply new_full_agree|by constructor].
Qed.

Lemma helper_reachable_agree_witness :
  let f := after [OpStartGeneric 1 wake_model (Some 7%nat)] ref_full in
  state_ <$> modelDataMap_ (core f) !! 1 = Some MODEL_STARTED ∧ agree None (core f).
Proof.
  split; [vm_compute; reflexivity|].
  exact (helper_reachable_agree ref_env ref_ids ref_mgr None _ [] ref_mgr_wf
    (after_rtc None [OpStartGeneric 1 wake_model (Some 7%nat)] ref_full)).
Defined.

(** The VoIP concurrency switch is off in every reachable state: the only
    assignment to it, made when the device supports the ability, clears it. *)
Theorem voip_never_enabled E A {M} `{!ConnectorModule M} (m : M) pend f ps :
  rtc (sstep E A) (None, new_full A m, []) (pend, f, ps) → mVoipConcurrency_ (scene (core f)) = false.
Proof.
  intros Hr. refine (proj1 (rtc_invariant _ (state_ok (λ _, voip_off)) _ _ (sstep_voip E A) _ Hr)).
  split; [done|by constructor].
Qed.

Lemma voip_never_enabled_witness :
  mVoipConcurrency_ (scene (core (after [OpAttachEngine (ref_world []) 0 (λ _, true)] ref_full))) = false.
Proof.
  exact (voip_never_enabled ref_env ref_ids ref_mgr None _ []
    (after_rtc None [OpAttachEngine (ref_world []) 0 (λ _, true)] ref_full)).
Defined.

(** ** When recognition may go on beside other recordings

    The rules, stated on the scene, the switches, the streams and the texts of
    the key-value store, without the checks of the code. *)
Section may_go_on.
Context (A : AudioIds) (W : World).

(** The text stored under [key] lists the source type [t] for the application
    [name]: the last item of that name counts, and of its types those that read
    as a number. *)
Definition stored_for (key name : string) (t : Z) : Prop :=
  w_kv W key ≠ EmptyString ∧
  ∃ before types after src,
    w_json W (w_kv W key) = Some (before ++ (name, Some types) :: after) ∧
    name ∉ after.*1 ∧ Some src ∈ types ∧ stoi src = Some t.

(** The lists in force: what the helper has read, and the stored text while it
    has read nothing. *)
Definition forbidden_for (p : PipeState) (name : string) (t : Z) : Prop :=
  if decide (concurrentBlacklist_ p = ∅) then stored_for "concurrentBlackList" name t
  else ∃ types, concurrentBlacklist_ p !! name = Some types ∧ t ∈ types.
Definition permitted_for (p : PipeState) (name : string) (t : Z) : Prop :=
  if decide (concurrentTypeSet_ p = ∅ ∨ concurrentWhitelist_ p = ∅)
  then stored_for "concurrentWhiteList" name t
  else t ∈ concurrentTypeSet_ p ∧ ∃ types, concurrentWhitelist_ p !! name = Some types ∧ t ∈ types.

(** No call is in the way: without the VoIP switch no call is active; with it
    the scene is one of those that leave the microphone free, a phone call only
    with the call switch; and a phone call is not recorded by a second stream. *)
Definition free_scenes (calls : bool) : list AudioScene :=
  [AUDIO_SCENE_DEFAULT; AUDIO_SCENE_PHONE_CHAT; AUDIO_SCENE_RINGING] ++
  (if calls then [AUDIO_SCENE_PHONE_CALL] else []).
Definition no_call (sc : Scene) (p : PipeState) : Prop :=
  (if mVoipConcurrency_ sc then audioScene_ sc ∈ free_scenes (mCallConcurrency_ sc)
   else callActive_ sc = false) ∧
  (mCallConcurrency_ sc = true → audioScene_ sc = AUDIO_SCENE_PHONE_CALL →
   hasStreamBesidesVoice_ p = false).

(** The application that records, and the streams that are heard. *)
Definition recorder (i : CapturerStreamInfo) (name : string) : Prop :=
  w_bundle W (uid_ i) = name ∧ name ≠ EmptyString ∨
  w_bundle W (uid_ i) = EmptyString ∧ name = "ERROR! CANT GET BUNDLENAME"%string.
Definition running (i : CapturerStreamInfo) : Prop := stream_state i = CAPTURER_RUNNING A.

(** A stream is in nobody's way. *)
Record harmless (sc : Scene) (p : PipeState) (i : CapturerStreamInfo) : Prop := {
  (** With the extension, the application is not forbidden to be heard. *)
  hl_black : mExtensionConcurrency_ p = true → running i →
    ∀ name, recorder i name → ¬ forbidden_for p name (source_ i);
  (** It is not a VoIP call beside another stream. *)
  hl_voip : mVoipConcurrency_ sc = true → running i →
    source_ i = SOURCE_TYPE_VOICE_COMMUNICATION A → hasStreamBesidesVoip_ p = false;
  (** A stream that is heard is ultrasonic, the camera's mixed source, of a
      concurrent source of the extension, or, without it, permitted. *)
  hl_source : running i → mute_ i = false → source_ i ≠ SOURCE_TYPE_ULTRASONIC A →
    mCameraConcurrency_ p = true ∧ source_ i = SOURCE_TYPE_UNPROCESSED A ∧ mixWithWakeUp_ i = true ∨
    (if mExtensionConcurrency_ p then source_ i ∈ ExtensionConcurrentTypeSet_ p
     else ∀ name, recorder i name → permitted_for p name (source_ i)) }.

End may_go_on.

(** The checks of the code decide those rules. *)
Lemma elem_of_in_order {V} (m : gmap Z V) x : x ∈ in_order m ↔ ∃ k, m !! k = Some x.
Proof.
  unfold in_order. rewrite list_elem_of_omap. split; [naive_solver|].
  intros [k Hk]. exists k. split; [|done]. apply elem_of_map_order. eauto.
Qed.

Lemma elem_of_streams_of (m : gmap Z (gmap Z CapturerStreamInfo)) i :
  i ∈ streams_of m ↔ ∃ flag streams id, m !! flag = Some streams ∧ streams !! id = Some i.
Proof.
  unfold streams_of. rewrite list_elem_of_bind. setoid_rewrite elem_of_in_order. naive_solver.
Qed.

(** The last item of a name is what the list of the code has. *)
Lemma lists_of_lookup items name types :
  lists_of items !! name = Some types ↔
  ∃ before sources after, items = before ++ (name, sources) :: after ∧ name ∉ after.*1 ∧
    types = ParseSourceTypes sources.
Proof.
  induction items as [|[n sources] items IH] using rev_ind.
  { unfold lists_of. cbn. rewrite lookup_empty. split; [done|].
    by intros ([|??] & ? & ? & ? & ?). }
  unfold lists_of in *. rewrite foldl_app. cbn [foldl fst snd]. destruct (decide (n = name)) as [->|Hn].
  - rewrite lookup_insert_eq. split.
    + intros [= <-]. exists items, sources, []. split_and!; [done|apply not_elem_of_nil|done].
    + intros (b & src & a & Heq & Ha & ->). destruct a as [|x a _] using rev_ind.
      * by apply app_inj_tail in Heq as [_ [= ->]].
      * rewrite app_comm_cons, app_assoc in Heq. apply app_inj_tail in Heq as [_ <-].
        rewrite fmap_app in Ha. set_solver.
  - rewrite lookup_insert_ne by done. rewrite IH. split.
    + intros (b & src & a & -> & Ha & ->). exists b, src, (a ++ [(n, sources)]).
      split_and!; [by rewrite <- app_assoc| |done]. rewrite fmap_app. set_solver.
    + intros (b & src & a & Heq & Ha & ->). destruct a as [|x a _] using rev_ind.
      * apply app_inj_tail in Heq as [_ [= ? _]]. done.
      * rewrite app_comm_cons, app_assoc in Heq. apply app_inj_tail in Heq as [-> <-].
        exists b, src, a. rewrite fmap_app in Ha. set_solver.
Qed.

Lemma elem_of_parsed sources t :
  t ∈ ParseSourceTypes sources ↔ ∃ types src, sources = Some types ∧ Some src ∈ types ∧ stoi src = Some t.
Proof.
  unfold ParseSourceTypes. destruct sources as [l|]; [|set_solver].
  rewrite elem_of_list_to_set, list_elem_of_omap. split.
  - intros ([src|] & Hin & Hs); [|done]. by exists l, src.
  - intros (? & src & [= <-] & Hin & Hs). by exists (Some src).
Qed.

Lemma stored_for_iff W key name t :
  stored_for W key name t ↔
  ∃ types, lists_of (parsed_items W key) !! name = Some types ∧ t ∈ types.
Proof.
  unfold stored_for, parsed_items. setoid_rewrite lists_of_lookup. case_bool_decide as Hk.
  { split; [naive_solver|]. intros (? & ([|??] & ? & ? & ? & ?) & _); done. }
  split.
  - intros (_ & b & types & a & src & Hj & Ha & Hin & Hs). rewrite Hj. cbn [default].
    exists (ParseSourceTypes (Some types)). split; [by exists b, (Some types), a|].
    apply elem_of_parsed. by exists types, src.
  - intros (? & (b & sources & a & Hj & Ha & ->) & Ht). split; [done|].
    apply elem_of_parsed in Ht as (types & src & -> & Hin & Hs). exists b, types, a, src.
    destruct (w_json W (w_kv W key)); cbn [default from_option id] in Hj; subst; [done|].
    by destruct b.
Qed.

Lemma stored_in_types W key name t :
  stored_for W key name t → t ∈ types_of (parsed_items W key).
Proof.
  rewrite stored_for_iff. intros (types & Hl & Ht).
  apply lists_of_lookup in Hl as (b & sources & a & Heq & _ & ->).
  unfold types_of. apply elem_of_union_list. exists (ParseSourceTypes sources). split; [|done].
  apply list_elem_of_fmap. exists (name, sources). split; [done|]. rewrite Heq. set_solver.
Qed.

Lemma black_listed_iff A W p name i :
  black_listed A (filled W p) name i = true ↔
  mExtensionConcurrency_ p = true ∧ running A i ∧ forbidden_for W p name (source_ i).
Proof.
  unfold black_listed, forbidden_for, running. rewrite (proj1 (filled_other A W p)).
  assert (concurrentBlacklist_ (filled W p) = concurrentBlacklist_ (load_black W p)) as ->
    by apply (load_white_other A W).
  unfold load_black. rewrite andb_true_iff. case_bool_decide; [|case_match];
    rewrite ?decide_True, ?decide_False by done; cbn; rewrite ?stored_for_iff;
    try destruct (lists_of _ !! name) eqn:Hl; rewrite ?andb_true_iff, ?bool_decide_eq_true, ?Z.eqb_eq;
    naive_solver.
Qed.

Lemma white_listed_iff (A : AudioIds) W p name i :
  white_listed (filled W p) name i = true ↔ permitted_for W p name (source_ i).
Proof.
  unfold white_listed, permitted_for, filled. rewrite <- load_black_white.
  destruct (load_black_other A W (load_white W p)) as (_ & Hw & Ht & _).
  rewrite Hw, Ht. clear Hw Ht.
  unfold load_white. destruct (bool_decide _ || bool_decide _) eqn:Hb.
  - rewrite decide_True by (by apply orb_true_iff in Hb; rewrite !bool_decide_eq_true in Hb).
    cbn. rewrite andb_true_iff, bool_decide_eq_true. split.
    + intros [_ Hl]. apply stored_for_iff. case_match; [|done]. apply bool_decide_eq_true in Hl. eauto.
    + intros Hs. split; [by apply stored_in_types in Hs|].
      apply stored_for_iff in Hs as (types & -> & Ht). by apply bool_decide_eq_true.
  - apply orb_false_iff in Hb as [Ht Hw]. rewrite bool_decide_eq_false in Ht, Hw.
    rewrite decide_False by tauto. rewrite andb_true_iff, bool_decide_eq_true.
    case_match; rewrite ?bool_decide_eq_true; naive_solver.
Qed.

Lemma recorder_bundle W i name : recorder W i name ↔ name = bundle_of W i.
Proof. unfold recorder, bundle_of. case_bool_decide; naive_solver. Qed.

(** A stream that is heard. *)
Lemma heard_source A W p i :
  ((if mExtensionConcurrency_ p && bool_decide (source_ i ∈ ExtensionConcurrentTypeSet_ p) then true
    else mCameraConcurrency_ p && (source_ i =? SOURCE_TYPE_UNPROCESSED A) && mixWithWakeUp_ i) = true ∨
   mExtensionConcurrency_ p = false ∧ permitted_for W p (bundle_of W i) (source_ i)) ↔
  mCameraConcurrency_ p = true ∧ source_ i = SOURCE_TYPE_UNPROCESSED A ∧ mixWithWakeUp_ i = true ∨
  (if mExtensionConcurrency_ p then source_ i ∈ ExtensionConcurrentTypeSet_ p
   else ∀ name, recorder W i name → permitted_for W p name (source_ i)).
Proof.
  destruct (mExtensionConcurrency_ p); cbn [andb]; [case_bool_decide|setoid_rewrite recorder_bundle];
    rewrite ?andb_true_iff, ?Z.eqb_eq; naive_solver.
Qed.

Lemma stream_allowed_iff A W sc p i :
  stream_allowed A W sc (filled W p) i = true ↔ harmless A W sc p i.
Proof.
  destruct (filled_other A W p) as (He & Hs & _ & Hv & _).
  unfold stream_allowed. rewrite Hv, Hs, He, !andb_true_iff, !negb_true_iff, orb_true_iff, andb_true_iff,
    <- (not_true_iff_false (black_listed _ _ _ _)), black_listed_iff, (white_listed_iff A), negb_true_iff.
  split.
  - intros [[Hb Hvo] Hso]. split.
    + intros ? ? name ->%recorder_bundle ?. naive_solver.
    + intros Hm Hr%Z.eqb_eq Hsrc%Z.eqb_eq. unfold CheckVoipOnly in Hvo. by rewrite Hm, Hr, Hsrc in Hvo.
    + intros Hr%Z.eqb_eq Hm Hu%Z.eqb_neq. unfold CheckSourceConcurrency in Hso.
      rewrite Hr, Hm, Hu in Hso. apply heard_source.
      by destruct Hso; [left|right].
  - intros [Hb Hvo Hso]. split; [split|].
    + intros (? & ? & ?). by eapply Hb; [..|apply recorder_bundle|].
    + unfold CheckVoipOnly. destruct (mVoipConcurrency_ sc); cbn [negb]; [|done].
      apply not_true_iff_false. rewrite !andb_true_iff, !Z.eqb_eq. intros [[Hr Hsrc] Hh].
      by rewrite (Hvo eq_refl Hr Hsrc) in Hh.
    + unfold CheckSourceConcurrency, running in *.
      destruct (stream_state i =? CAPTURER_RUNNING A) eqn:Hr; [|by left].
      destruct (mute_ i) eqn:Hm; [by left|].
      destruct (source_ i =? SOURCE_TYPE_ULTRASONIC A) eqn:Hu; [by left|]. cbn [negb orb].
      apply Z.eqb_eq in Hr. apply Z.eqb_neq in Hu. specialize (Hso Hr eq_refl Hu).
      by apply heard_source in Hso.
Qed.

Lemma no_call_iff sc p :
  CheckCallConflict sc = false ∧ CheckCallOnly sc p = false ↔ no_call sc p.
Proof.
  unfold CheckCallConflict, CheckCallOnly, no_call, free_scenes.
  destruct (mVoipConcurrency_ sc), (mCallConcurrency_ sc), (audioScene_ sc), (callActive_ sc),
    (hasStreamBesidesVoice_ p); cbn; rewrite ?elem_of_cons, ?elem_of_nil; intuition discriminate.
Qed.

Lemma concurrent_ref_iff A W sc p m :
  concurrent_ref A W sc (filled W p) (streams_of m) = true ↔
  no_call sc p ∧
  ∀ flag streams id i, m !! flag = Some streams → streams !! id = Some i → harmless A W sc p i.
Proof.
  unfold concurrent_ref. destruct (filled_other A W p) as (_ & _ & _ & _ & ->).
  rewrite !andb_true_iff, !negb_true_iff, no_call_iff, forallb_forall. setoid_rewrite <- list_elem_of_In.
  setoid_rewrite stream_allowed_iff. setoid_rewrite elem_of_streams_of. naive_solver.
Qed.

(** C20: [GetConcurrentState] decides that recognition may go on exactly when no
    call is in the way ([no_call]) and every stream of every pipe is [harmless]:
    if it runs, its application is not black-listed for it (with the extension),
    it is not a VoIP call beside another stream, and it is muted, ultrasonic, the
    camera's mixed source, a concurrent source (with the extension) or
    white-listed (without it).  A list the helper has not read yet is the stored
    text, where the last item of an application counts.  The model data and the
    scene are left alone. *)
Theorem GetConcurrentState_spec A {M} `{!ConnectorModule M} W (m : gmap Z (gmap Z CapturerStreamInfo)) (f : Full M) :
  let '(b, f') := GetConcurrentState A W m f in
  (b = true ↔
     no_call (scene (core f)) (pipe f) ∧
     ∀ flag streams id i, m !! flag = Some streams → streams !! id = Some i →
       harmless A W (scene (core f)) (pipe f) i) ∧
  core f' = core f.
Proof.
  destruct (GetConcurrentState_run A W m f) as (H1 & H2 & _).
  destruct (GetConcurrentState A W m f) as [b f']. cbn [fst snd] in *. subst b. split; [|done].
  by rewrite concurrent_ref_iff.
Qed.

(** After [OnInputPipeChange] the capture flags, and with the extension
    the whisper flag, are the decision for the current pipes, and the rest of the
    scene is unchanged. *)
Theorem OnInputPipeChange_spec E A {M} `{!ConnectorModule M} W (f : Full M) :
  let f' := (OnInputPipeChange E A W f).2 in
  scene (core f') = scene (core f) <| audioConcurrentCapture_ := decided_concurrent A W f |>
                                   <| audioCaptureActive_ := decided_running A W f |> ∧
  (mExtensionConcurrency_ (pipe f) = true → whitelistWhisperEnbale_ (pipe f') = decided_whisper A W f).
Proof.
  destruct (OnInputPipeChange_cases E A W f) as (f1 & Hc & He & Hw & Hf).
  cbv zeta in *. rewrite Hf. destruct (first_proc_facts f) as [Hsc _].
  destruct (Bool.eqb _ _ && _ && _) eqn:Hb.
  - apply andb_prop in Hb as [[Ha Hr]%andb_prop Hx]. apply Bool.eqb_prop in Ha, Hr.
    rewrite Hc, Hsc, Ha, Hr. split; [by destruct (scene (core f))|]. intros Hext.
    rewrite Hext in Hx. apply Bool.eqb_prop in Hx. congruence.
  - match goal with |- context [run_transitions _ _ _ ?g] => set (g0 := g) end.
    set (o := stateToInt _ _). set (n := stateToInt _ _).
    assert (scene (core g0) = scene (core f) <| audioConcurrentCapture_ := decided_concurrent A W f |>
              <| audioCaptureActive_ := decided_running A W f |>) as Hg by (cbn; by rewrite Hc, Hsc).
    rewrite <- Hg. split.
    + by apply (run_transitions_lift_scene E (scene (core g0)) o n g0).
    + intros _. by rewrite run_transitions_pipe.
Qed.

Lemma OnInputPipeChange_spec_witness :
  let f := after [OpAttachEngine (ref_world []) 0 (λ _, false);
                  OpStartGeneric 1 wake_model (Some 7%nat)] ref_full in
  let f' := (OnInputPipeChange ref_env ref_ids (ref_world [5]) f).2 in
  audioCaptureActive_ (scene (core f')) = true ∧ audioConcurrentCapture_ (scene (core f')) = false ∧
  state_ <$> modelDataMap_ (core f') !! 1 = Some MODEL_LOADED.
Proof.
  pose proof (OnInputPipeChange_spec ref_env ref_ids (ref_world [5])
    (after [OpAttachEngine (ref_world []) 0 (λ _, false);
            OpStartGeneric 1 wake_model (Some 7%nat)] ref_full)) as [H _].
  split_and!; [rewrite H; vm_compute; reflexivity|rewrite H; vm_compute; reflexivity|].
  vm_compute. reflexivity.
Defined.

(** C36: the "concurrent_capture" parameter follows the capture state: once the module
    is open, the first decision after the listener was attached is made ([mFirstProc]
    is false) and capture is on exactly in state 3 (concurrent, source running), it is
    so again after every [OnInputPipeChange], whatever the pipes, the lists and the
    models. For the first decision see [reattach_stops_capture]. *)
Theorem capture_follows_state E A {M} `{!ConnectorModule M} W (f : Full M) :
  is_Some (module_ (core f)) → mFirstProc (pipe f) = false →
  capture_on (out (core f)) =
    audioConcurrentCapture_ (scene (core f)) && audioCaptureActive_ (scene (core f)) →
  let f' := (OnInputPipeChange E A W f).2 in
  capture_on (out (core f')) =
    audioConcurrentCapture_ (scene (core f')) && audioCaptureActive_ (scene (core f')).
Proof.
  intros Hm Hfirst Hon. destruct (OnInputPipeChange_cases E A W f) as (f1 & Hc & _ & _ & Hf).
  cbv zeta in *. rewrite Hf. assert ((first_proc f).2 = f) as Hff.
  { unfold first_proc. rewrite bind_run. cbn [st_get fst snd]. by rewrite Hfirst. }
  rewrite Hff in Hc. destruct (Bool.eqb _ _ && _ && _) eqn:Hb; [by rewrite Hc|].
  match goal with |- context [run_transitions _ _ _ ?g] => set (g0 := g) end.
  assert (lift (captured (capture_on (out (core f))) (scene (core g0))) g0) as Hg.
  { unfold lift, captured. cbn. by rewrite Hc. }
  apply (run_transitions_captured E (stateToInt (audioConcurrentCapture_ (scene (core f)))
           (audioCaptureActive_ (scene (core f))))
         (stateToInt (decided_concurrent A W f) (decided_running A W f))) in Hg
    as (_ & Hon' & Hsc').
  - rewrite Hon', Hsc', Hon. cbn.
    by destruct (audioConcurrentCapture_ (scene (core f))), (audioCaptureActive_ (scene (core f))),
      (decided_concurrent A W f), (decided_running A W f).
  - apply stateToInt_lt.
  - apply stateToInt_lt.
Qed.

Definition ref_attached : Full (ConnectorMgr RefHal) :=
  after [OpAttachEngine (ref_world []) 0 (λ _, false);
         OpStartGeneric 1 wake_model (Some 7%nat)] ref_full.

Lemma capture_follows_state_witness :
  let f' := (OnInputPipeChange ref_env ref_ids (ref_world [6]) ref_attached).2 in
  audioCaptureActive_ (scene (core f')) = true ∧ audioConcurrentCapture_ (scene (core f')) = true ∧
  capture_on (out (core f')) =
    audioConcurrentCapture_ (scene (core f')) && audioCaptureActive_ (scene (core f')).
Proof.
  split; [vm_compute; reflexivity|]. split; [vm_compute; reflexivity|].
  apply (capture_follows_state ref_env ref_ids (ref_world [6]) ref_attached);
    [vm_compute; eexists; reflexivity|vm_compute; reflexivity|vm_compute; reflexivity].
Defined.

(** Attaching the listener again while capture is on and stays on
    sends "stop" and nothing else, so that capture is off although the state is
    still concurrent with a running source. *)
Theorem reattach_stops_capture :
  let f := after [OpInputPipe (ref_world [6])] ref_attached in
  let f' := after [OpAttachEngine (ref_world [6]) 0 (λ _, false)] f in
  capture_on (out (core f)) = true ∧
  scene (core f') = scene (core f) ∧
  audioConcurrentCapture_ (scene (core f')) && audioCaptureActive_ (scene (core f')) = true ∧
  capture_on (out (core f')) = false.
Proof. vm_compute. split_and!; reflexivity. Qed.

(** The transition into concurrent capture starts every loaded model,
    also one whose recognition the client has stopped. *)
Theorem stopped_model_restarted :
  let f := after [OpInputPipe (ref_world [5]); OpStopGeneric 1] ref_attached in
  let f' := after [OpInputPipe (ref_world [6])] f in
  (requested_ <$> modelDataMap_ (core f) !! 1 = Some false) ∧
  (state_ <$> modelDataMap_ (core f) !! 1 = Some MODEL_LOADED) ∧
  (requested_ <$> modelDataMap_ (core f') !! 1 = Some false) ∧
  (state_ <$> modelDataMap_ (core f') !! 1 = Some MODEL_STARTED).
Proof. vm_compute. split_and!; reflexivity. Qed.

(** ** Fan reports *)

(** The bytes of a [FanStatus]. *)
Definition le32_bytes (z : Z) : list Z :=
  [z mod 256; (z / 256) mod 256; (z / 65536) mod 256; (z / 16777216) mod 256].
Definition fan_bytes (l : list (Z * Z)) : list Z := l ≫= λ e, le32_bytes e.1 ++ le32_bytes e.2.

(** The power entry of a report, as the sender wrote it. *)
Definition power_entry (l : list (Z * Z)) : option Z :=
  snd <$> find (λ e : Z * Z, e.1 =? DATA_TYPE_POWER) l.

Lemma le32_bytes_u32 z rest : le32 (le32_bytes z ++ rest) = u32 z.
Proof.
  unfold le32, le32_bytes, u32. cbn [app take foldr]. change (2 ^ 32) with 4294967296.
  rewrite !Z.mod_eq by lia.
  assert (z / 65536 = z / 256 / 256) as -> by (by rewrite Z.div_div by lia).
  assert (z / 16777216 = z / 256 / 256 / 256) as -> by (by rewrite !Z.div_div by lia).
  assert (z / 4294967296 = z / 256 / 256 / 256 / 256) as -> by (by rewrite !Z.div_div by lia).
  rewrite take_0. cbn [foldr]. lia.
Qed.

Lemma power_val_bytes l :
  Forall (λ e : Z * Z, 0 ≤ e.1 < 2 ^ 32 ∧ - 2 ^ 31 ≤ e.2 < 2 ^ 31) l →
  power_val (length l) (fan_bytes l) = default (-1) (power_entry l).
Proof.
  induction 1 as [|[t d] l [Ht Hd] _ IH]; [done|]. simpl in Ht, Hd.
  change (fan_bytes ((t, d) :: l)) with ((le32_bytes t ++ le32_bytes d) ++ fan_bytes l).
  rewrite <- app_assoc. cbn [length power_val]. rewrite le32_bytes_u32.
  assert (u32 (u32 t) = t) as Htt.
  { unfold u32. rewrite Z.mod_mod by lia. apply Z.mod_small. lia. }
  rewrite Htt. unfold power_entry. cbn [find fst]. destruct (t =? DATA_TYPE_POWER).
  - change (drop 4 (le32_bytes t ++ le32_bytes d ++ fan_bytes l)) with (le32_bytes d ++ fan_bytes l).
    rewrite le32_bytes_u32. by rewrite i32_u32, i32_small.
  - exact IH.
Qed.

(** A well-formed fan report of at most 64 entries sets [fanRunning_] to
    whether its first power entry reads 1 (off when there is none), and the
    connector module is told exactly when that changes. *)
Theorem HandleFanStateChanged_spec {M} `{!ConnectorModule M} l (f : Full M) :
  Forall (λ e : Z * Z, 0 ≤ e.1 < 2 ^ 32 ∧ - 2 ^ 31 ≤ e.2 < 2 ^ 31) l → l ≠ [] →
  (length l ≤ 64)%nat →
  let on := bool_decide (power_entry l = Some 1) in
  (HandleFanStateChanged (Some (fan_bytes l)) (8 * Z.of_nat (length l)) f).2 =
    if Bool.eqb (fanRunning_ (pipe f)) on then f
    else (SetParameterForInputPipe "fan_status_change" (if on then "start" else "stop")%string
            (f <| pipe ::= λ p, p <| fanRunning_ := on |> |>)).2.
Proof.
  intros Hl Hne Hlen. unfold HandleFanStateChanged, sizeof_FanStatus, PERF_REPORT_LEN_MAX.
  assert (0 < length l)%nat by (destruct l; simpl; [done|lia]).
  destruct (Z.eqb_spec (8 * Z.of_nat (length l)) 0); [lia|].
  destruct (Z.ltb_spec 512 (8 * Z.of_nat (length l))); [lia|].
  change (Z.of_nat 8) with 8. rewrite (Z.mul_comm 8), Z.mod_mul by lia. cbn [negb Z.eqb].
  rewrite Z.div_mul, Nat2Z.id by lia. rewrite power_val_bytes by done. cbv zeta.
  assert ((u64 (default (-1) (power_entry l)) =? DATA_TYPE_POWER_VAL_ON) =
          bool_decide (power_entry l = Some 1)) as ->.
  { unfold power_entry, DATA_TYPE_POWER_VAL_ON. destruct (find _ l) as [[t d]|] eqn:Hf; [|done].
    cbn. apply find_some in Hf as [Hin _]. rewrite List.Forall_forall in Hl.
    destruct (Hl _ Hin) as [_ Hd]. simpl in Hd. unfold u64.
    destruct (decide (d = 1)) as [->|Hd1]; [by rewrite bool_decide_true|].
    rewrite bool_decide_false by congruence. apply Z.eqb_neq. intros Hm.
    destruct (decide (0 ≤ d)); [rewrite Z.mod_small in Hm by lia; lia|].
    rewrite <- (Z_mod_plus_full d 1), Z.mod_small in Hm by lia. lia. }
  rewrite bind_run. cbn [st_get fst snd]. by destruct (Bool.eqb _ _).
Qed.

Lemma HandleFanStateChanged_spec_witness :
  let l := [(7, 3); (19, 1)] in
  fanRunning_ (pipe (HandleFanStateChanged (Some (fan_bytes l)) 16 ref_attached).2) = true.
Proof.
  pose proof (HandleFanStateChanged_spec [(7, 3); (19, 1)] ref_attached) as H.
  etransitivity; [apply (f_equal (fanRunning_ ∘ pipe)), H|];
    [repeat constructor; simpl; lia|discriminate|simpl; lia|vm_compute; reflexivity].
Defined.

(** A model replaced while its recognition event is on the way can come
    back: the late event marks the record loaded under the old handle, the new
    bytes are never loaded, and recognition runs the old model in their place. *)
Theorem late_event_revives_old_model :
  ∃ f, rtc (sstep ref_env ref_ids) (None, ref_full, []) (None, f, []) ∧
    (state_ <$> modelDataMap_ (core f) !! 1 = Some MODEL_STARTED) ∧
    (modelDataMap_ (core f) !! 1 ≫= model_) = Some whisper_model ∧
    ((rh_loads ∘ hal) <$> connectors_ (conn (core f)) = Some 1%nat).
Proof.
  pose (f1 := after [OpStartGeneric 1 wake_model (Some 7%nat)] ref_full).
  pose (f2 := f1 <| core ::= λ s, s <| conn := (cm_Recognize 0 1 (conn s)).2 |> |>).
  pose (f3 := after [OpCallState (ref_world []) 0 10 7 2;
                     OpStartGeneric 1 whisper_model (Some 7%nat)] f2).
  pose (f4 := (on_core (OnRecognition 1) f3).2).
  exists (after [OpCallState (ref_world []) 0 10 7 10] f4). split; [|vm_compute; split_and!; reflexivity].
  etrans; [apply (after_rtc None [OpStartGeneric 1 wake_model (Some 7%nat)])|].
  fold f1. eapply rtc_l; [apply (step_event ref_env ref_ids f1 0 1 []); vm_compute; reflexivity|].
  assert ((cm_Recognize 0 1 (conn (core f1))).1 = true) as -> by (vm_compute; reflexivity).
  fold f2. etrans; [apply (after_rtc (Some 1) [OpCallState (ref_world []) 0 10 7 2;
                     OpStartGeneric 1 whisper_model (Some 7%nat)])|].
  fold f3. eapply rtc_l; [apply (step_deliver ref_env ref_ids 1 f3 [])|]. fold f4. apply after_rtc.
Qed.

(** What the pieces leave out.  [RestartAllRecognition] of [AttachFoldStatusListener]
    runs without [mutex_], so an event can also come inside of [StartRecognition],
    between the connector's [Start] and the helper's record of it: the callback is
    told, and then the helper takes the model for started, which the session has
    stopped. *)
Example fold_attach_race :
  let f1 := after [OpStartGeneric 1 wake_model (Some 7%nat)] ref_full in
  let s0 := (StopRecognition 1 (core f1)).2 in
  let s1 := (on_conn (cm_Start 0 1) s0).2 in
  let s2 := s1 <| conn ::= λ m, (cm_Recognize 0 1 m).2 |> in
  let s3 := (OnRecognition 1 s2).2 in
  let s4 := (SetState 1 MODEL_STARTED s3).2 in
  (StartRecognition ref_env 1 s0).1 = 0 ∧ (cm_Start 0 1 (conn s0)).1 = 0 ∧
  (cm_Recognize 0 1 (conn s1)).1 = true ∧ last (out s4) = Some (EvDetected 7 1) ∧
  state_ <$> modelDataMap_ s4 !! 1 = Some MODEL_STARTED ∧ view s4 !! 1 = Some LOADED.
Proof. vm_compute. split_and!; reflexivity. Qed.
