(* ===== verification/TriggerManager.v ===== *)
(** * The trigger service and manager

    [trigger_db_helper.cpp] (the stored models), [trigger_service.cpp],
    [trigger_detector.cpp] with its callbacks, and [trigger_manager.cpp].  The
    relational store is outside the repository: it is the class [Rdb].  The
    service and helper pointers, made in the constructors, are not null.  The
    helper's own write to the data base, when a folded device swaps its whisper
    model, is the event [EvDbUpdate] of its output and not part of [db] here. *)

From S2P Require Import Prelude StringUtil TriggerTypes Connector TriggerHelper Recognition InputPipe.

(** A row of the table "trigger", and the columns a query of one uuid yields: an
    error code (0 is [E_OK]) and a value each. *)
Record Row := mkRow {
  r_model_uuid : Z; r_vendor_uuid : Z; r_data : list Z; r_model_version : Z; r_model_type : Z }.
Record ResultSet := mkSet {
  c_vendor_uuid : Z * Z; c_data : Z * list Z; c_model_version : Z * Z; c_model_type : Z * Z }.

(** The store. *)
Class Rdb (D : Type) := {
  (** [InsertWithConflictResolution] with replacement. *)
  rdb_Insert : Row → St D Z;
  (** The query by uuid, at its first row; [None] for a null set. *)
  rdb_Query : Z → D → option ResultSet;
  rdb_Delete : Z → St D unit }.

(** ** [TriggerDbHelper] *)

Section db.
Context {D : Type} `{!Rdb D}.

(** [UpdateGenericTriggerModel]; the store is [None] when it could not be opened. *)
Definition Db_UpdateGenericTriggerModel (model : GenericTriggerModel) : St (option D) bool := λ db,
  match db with
  | None => (false, db)
  | Some d =>
    let '(ret, d') := rdb_Insert (mkRow (model_uuid model) (vendorUuid_ model) (data_ model)
                                   (version_ model) (type_ model)) d in
    (ret =? 0, Some d')
  end.

(** [GetGenericTriggerModel] with the column readers. *)
Definition GetColumn {A} (c : Z * A) : option A := if c.1 =? 0 then Some c.2 else None.
Definition Db_GetGenericTriggerModel (modelUuid : Z) (db : option D) : option GenericTriggerModel :=
  d ← db;
  set ← rdb_Query modelUuid d;
  _ ← GetColumn (c_vendor_uuid set);
  data ← GetColumn (c_data set);
  modelVersion ← GetColumn (c_model_version set);
  type ← (if MODLE_VERSION_2 <=? modelVersion then GetColumn (c_model_type set)
          else Some (if modelUuid =? VOICE_WAKEUP_MODEL_UUID then VOICE_WAKEUP_TYPE
                     else PROXIMAL_WAKEUP_TYPE));
  Some (SetData data (new_model modelUuid modelVersion type)).1.2.

(** [DeleteGenericTriggerModel]. *)
Definition Db_DeleteGenericTriggerModel (modelUuid : Z) : St (option D) unit := λ db,
  match db with
  | None => ((), db)
  | Some d => ((), Some (rdb_Delete modelUuid d).2)
  end.
End db.

(** ** [TriggerManager]

    The manager with its service: the helper, the data base, and the detectors by
    uuid, each with the callback it reports detections to. *)
Record TriggerManager (M D : Type) := mkManager {
  helper : Full M; db : option D; detectors_ : gmap Z nat }.
Arguments mkManager {M D} _ _ _.
Arguments helper {M D} _.
Arguments db {M D} _.
Arguments detectors_ {M D} _.
#[global] Instance TriggerManager_eta M D : Eta (TriggerManager M D) :=
  λ m, mkManager (helper m) (db m) (detectors_ m).

Section manager.
Context (E : Env) (A : AudioIds) {M D : Type} `{!ConnectorModule M} `{!Rdb D}.
Abbreviation TM := (St (TriggerManager M D)).
Implicit Types m : TriggerManager M D.

Definition on_helper {X} (k : St (Full M) X) : TM X := λ m,
  let '(x, h) := k (helper m) in (x, m <| helper := h |>).
Definition on_db {X} (k : St (option D) X) : TM X := λ m,
  let '(x, d) := k (db m) in (x, m <| db := d |>).

(** [UpdateModel], [DeleteModel], [IsModelExist], [GetModel]. *)
Definition UpdateModel (buffer : list Z) (uuid type : Z) : TM unit :=
  let model := (SetData buffer (new_model uuid MODLE_VERSION_2 type)).1.2 in
  st_void (on_db (Db_UpdateGenericTriggerModel model)).
Definition DeleteModel (uuid : Z) : TM unit := on_db (Db_DeleteGenericTriggerModel uuid).
Definition GetModel (uuid : Z) m : option GenericTriggerModel := Db_GetGenericTriggerModel uuid (db m).
Definition IsModelExist (uuid : Z) m : bool :=
  match GetModel uuid m with Some _ => true | None => false end.

(** [TriggerService::StartRecognition], [StopRecognition], [UnloadTriggerModel]. *)
Definition Service_StartRecognition (uuid : Z) (callback : nat) : TM Z :=
  model ← st_gets (GetModel uuid);
  match model with
  | None => mret (-1)
  | Some model => on_helper (on_core (StartGenericRecognition E uuid model (Some callback)))
  end.
Definition Service_StopRecognition (uuid : Z) : TM Z :=
  on_helper (on_core (StopGenericRecognition uuid)).
Definition Service_UnloadTriggerModel (uuid : Z) : TM unit :=
  on_helper (on_core (UnloadGenericTriggerModel uuid)).
Definition Manager_SetParameter (key value : string) : TM Z := on_helper (on_core (SetParameter key value)).
Definition Manager_GetParameter (key : string) : TM string := on_helper (on_core (GetParameter E key)).

(** [CreateDetector]: an existing detector is kept. *)
Definition CreateDetector (uuid : Z) (onDetected : nat) : TM unit :=
  st_modify (λ m, match detectors_ m !! uuid with
                  | Some _ => m
                  | None => m <| detectors_ ::= <[uuid := onDetected]> |>
                  end).

(** [ReleaseTriggerDetector]. *)
Definition ReleaseTriggerDetector (uuid : Z) : TM unit :=
  m ← st_get;
  match detectors_ m !! uuid with
  | None => mret ()
  | Some _ =>
    _ ← Service_UnloadTriggerModel uuid;
    st_modify (λ m, m <| detectors_ ::= delete uuid |>)
  end.

(** [StartDetection] with [TriggerDetector::StartRecognition]. *)
Definition StartDetection (uuid : Z) : TM Z :=
  m ← st_get;
  match detectors_ m !! uuid with
  | None => mret (-1)
  | Some cb =>
    status ← Manager_GetParameter "audio_hal_status";
    if bool_decide (status = "true"%string) then
      r ← Service_StartRecognition uuid cb;
      mret (if r =? 0 then 1 else -1)
    else mret 0
  end.

(** [StopDetection] with [TriggerDetector::StopRecognition]. *)
Definition StopDetection (uuid : Z) : TM unit :=
  m ← st_get;
  match detectors_ m !! uuid with
  | None => mret ()
  | Some _ => st_void (Service_StopRecognition uuid)
  end.

(** ** Service life cycle *)

(** The build switches of the manager. *)
Record Build := mkBuild { FAN : bool; TELEPHONY : bool; POWER : bool }.
Context (B : Build).

(** [OnServiceStart] and [OnServiceStop]. *)
Definition OnServiceStart (ability : string → bool) (opened sym : bool) (rets : list Z)
    (report : option (option (list Z) * Z)) : TM unit :=
  st_when (FAN B) (on_helper (AttachFanStateListener ability opened sym rets report)).

Definition OnServiceStop (ability : string → bool) : TM unit :=
  _ ← st_when (TELEPHONY B) (on_helper DetachTelephonyObserver);
  _ ← on_helper DetachAudioRendererEventListener;
  _ ← st_when (SUPPORT_RECORD_WAKEUP_CONCURRENT E) (on_helper DetachAudioEngineListener);
  _ ← st_when (POWER B) (on_helper DetachHibernateObserver);
  _ ← st_when (SUPPORT_WINDOW_MANAGER E) (on_helper DetachFoldStatusListener);
  _ ← on_helper DetachAudioSceneEventListener;
  st_when (FAN B) (on_helper (DetachFanStateListener ability)).

(** [OnTelephonyStateRegistryServiceChange], [OnAudioPolicyServiceChange],
    [OnPowerManagerServiceChange], [OnDisplayManagerServiceChange]. *)
Definition OnTelephonyStateRegistryServiceChange (isAdded : bool) : TM unit :=
  st_when (TELEPHONY B && isAdded) (on_helper AttachTelephonyObserver).
Definition OnAudioPolicyServiceChange (isAdded : bool) (W : World) (r1 r2 r3 : Z)
    (infos : list (option RendererInfo)) (cur : AudioScene) (ability : string → bool) : TM unit :=
  if negb isAdded then mret () else
  _ ← on_helper (AttachAudioRendererEventListener E A W r1 infos);
  _ ← on_helper (AttachAudioSceneEventListener E A W r2 cur);
  st_when (SUPPORT_RECORD_WAKEUP_CONCURRENT E) (on_helper (AttachAudioEngineListener E A W r3 ability)).
Definition OnPowerManagerServiceChange (isAdded : bool) : TM unit :=
  st_when (POWER B && isAdded) (on_helper AttachHibernateObserver).
Definition OnDisplayManagerServiceChange (isAdded foldable fileExist registered : bool)
    (cur : FoldStatus) : TM unit :=
  st_when (SUPPORT_WINDOW_MANAGER E && isAdded)
    (on_helper (AttachFoldStatusListener E foldable fileExist registered cur)).

(** * Lemmas *)

Lemma on_helper_run {X} (k : St (Full M) X) m :
  on_helper k m = ((k (helper m)).1, m <| helper := (k (helper m)).2 |>).
Proof. unfold on_helper. by destruct (k (helper m)). Qed.

Lemma on_db_run {X} (k : St (option D) X) m :
  on_db k m = ((k (db m)).1, m <| db := (k (db m)).2 |>).
Proof. unfold on_db. by destruct (k (db m)). Qed.

(** A helper operation that does nothing does nothing in the manager. *)
Lemma on_helper_skip (k : St (Full M) unit) m :
  (k (helper m)).2 = helper m → (on_helper k m).2 = m.
Proof. intros Hk. rewrite on_helper_run. cbn. rewrite Hk. by destruct m. Qed.

(** All listeners are detached. *)
Record detached (p : PipeState) : Prop := {
  dt_tel : TELEPHONY B = true → isTelephonyDetached_ p = true;
  dt_rend : isRendererDetached_ p = true;
  dt_capt : SUPPORT_RECORD_WAKEUP_CONCURRENT E = true → isCapturerDetached_ p = true;
  dt_hib : POWER B = true → isHibernateDetached_ p = true;
  dt_fold : SUPPORT_WINDOW_MANAGER E = true → isFoldStatusDetached_ p = true;
  dt_scene : isSceneDetached_ p = true;
  dt_fan : FAN B = true → isFanListenerDetached_ p = true }.

Lemma OnServiceStop_detached ability m :
  ability "fan_status_listen"%string = true → detached (pipe (helper (OnServiceStop ability m).2)).
Proof.
  intros Hab. unfold OnServiceStop, st_when, DetachFanStateListener. rewrite Hab. cbn [negb].
  destruct (TELEPHONY B) eqn:?, (SUPPORT_RECORD_WAKEUP_CONCURRENT E) eqn:?, (POWER B) eqn:?,
    (SUPPORT_WINDOW_MANAGER E) eqn:?, (FAN B) eqn:?;
    rewrite !bind_run, ?on_helper_run; cbn; rewrite ?bind_run; cbn; unfold st_when;
    try destruct (perfGeniusHandle_ _); cbn; constructor; cbn; congruence.
Qed.

End manager.
Arguments mkBuild : clear implicits.

(** ** What is relied on of the store *)

Definition all_ok (r : Row) (set : ResultSet) : Prop :=
  c_vendor_uuid set = (0, r_vendor_uuid r) ∧ c_data set = (0, r_data r) ∧
  c_model_version set = (0, r_model_version r) ∧ c_model_type set = (0, r_model_type r).

(** A successful insertion is read back, a deleted row is not, and neither
    touches the rows of other uuids; reading a column without a row fails. *)
Class RdbLaws (D : Type) `{!Rdb D} := {
  rdb_insert_law r d :
    (rdb_Insert r d).1 = 0 →
    (∃ set, rdb_Query (r_model_uuid r) (rdb_Insert r d).2 = Some set ∧ all_ok r set) ∧
    ∀ u, u ≠ r_model_uuid r → rdb_Query u (rdb_Insert r d).2 = rdb_Query u d;
  rdb_delete_law u d :
    (∀ set, rdb_Query u (rdb_Delete u d).2 = Some set → (c_vendor_uuid set).1 ≠ 0) ∧
    ∀ v, v ≠ u → rdb_Query v (rdb_Delete u d).2 = rdb_Query v d }.

(** A reference store: rows by uuid. *)
#[global] Instance ref_rdb : Rdb (gmap Z Row) := {|
  rdb_Insert r := λ d, (0, <[r_model_uuid r := r]> d);
  rdb_Query u d := Some (match d !! u with
    | Some r => mkSet (0, r_vendor_uuid r) (0, r_data r) (0, r_model_version r) (0, r_model_type r)
    | None => mkSet (1, 0) (1, []) (1, 0) (1, 0)
    end);
  rdb_Delete u := λ d, ((), delete u d) |}.

#[global] Instance ref_rdb_laws : RdbLaws (gmap Z Row).
Proof.
  constructor.
  - intros r d _. cbn. split.
    + eexists. split; [reflexivity|]. by rewrite lookup_insert_eq.
    + intros u Hu. by rewrite lookup_insert_ne.
  - intros u d. cbn. split.
    + intros set [= <-]. rewrite lookup_delete. by case_decide.
    + intros v Hv. by rewrite lookup_delete_ne.
Qed.

Lemma Db_get_update {D} `{!Rdb D} `{!RdbLaws D} (model : GenericTriggerModel) (d : option D) d' :
  Db_UpdateGenericTriggerModel model d = (true, d') →
  Db_GetGenericTriggerModel (model_uuid model) d' =
    Some (model <| vendorUuid_ := -1 |>
      <| type_ := if MODLE_VERSION_2 <=? version_ model then type_ model
                  else if model_uuid model =? VOICE_WAKEUP_MODEL_UUID then VOICE_WAKEUP_TYPE
                  else PROXIMAL_WAKEUP_TYPE |>).
Proof.
  unfold Db_UpdateGenericTriggerModel. destruct d as [d|]; [|done].
  pose proof (rdb_insert_law (mkRow (model_uuid model) (vendorUuid_ model) (data_ model)
                                (version_ model) (type_ model)) d) as Hl.
  destruct (rdb_Insert _ d) as [ret d1]. cbn [fst snd] in Hl. intros [= Hr <-].
  apply Z.eqb_eq in Hr. destruct (Hl Hr) as [(set & Hq & (H1 & H2 & H3 & H4)) _].
  unfold Db_GetGenericTriggerModel. cbn in *. rewrite Hq. cbn. rewrite H1, H2, H3. cbn.
  destruct (MODLE_VERSION_2 <=? version_ model); cbn.
  - rewrite H4. cbn. unfold SetData. case_decide as Hn; [|by destruct model].
    cbn. destruct model as [? ? ? ? data]. cbn in *. by destruct data.
  - unfold SetData. case_decide as Hn; [|by destruct model].
    cbn. destruct model as [? ? ? ? data]. cbn in *. by destruct data.
Qed.

(** * Properties *)

(** A model stored successfully is read back with its bytes, version and
    type (for a version 1 model, the type its uuid implies); the vendor uuid is
    not read back but reset to -1; the other uuids read as before. *)
Theorem stored_model_read_back {D} `{!Rdb D} `{!RdbLaws D} (model : GenericTriggerModel)
    (d d' : option D) :
  Db_UpdateGenericTriggerModel model d = (true, d') →
  (∃ m, Db_GetGenericTriggerModel (model_uuid model) d' = Some m ∧
     model_uuid m = model_uuid model ∧ data_ m = data_ model ∧ version_ m = version_ model ∧
     vendorUuid_ m = -1 ∧ (MODLE_VERSION_2 ≤ version_ model → type_ m = type_ model)) ∧
  (∀ u, u ≠ model_uuid model → Db_GetGenericTriggerModel u d' = Db_GetGenericTriggerModel u d).
Proof.
  intros Hu. split.
  - rewrite (Db_get_update model d d' Hu). eexists. split; [reflexivity|]. cbn. split_and!; try done.
    intros Hv. by rewrite (proj2 (Z.leb_le _ _) Hv).
  - intros u Hne. unfold Db_UpdateGenericTriggerModel in Hu. destruct d as [d|]; [|done].
    pose proof (rdb_insert_law (mkRow (model_uuid model) (vendorUuid_ model) (data_ model)
                                  (version_ model) (type_ model)) d) as Hl.
    destruct (rdb_Insert _ d) as [ret d1]. cbn [fst snd] in Hl. injection Hu as Hr <-.
    apply Z.eqb_eq in Hr. destruct (Hl Hr) as [_ Ho].
    unfold Db_GetGenericTriggerModel. cbn. by rewrite Ho.
Qed.

Lemma stored_model_read_back_witness :
  ∃ m, Db_GetGenericTriggerModel 1 (Some {[1 := mkRow 1 5 [1; 2; 3] 1 1]} : option (gmap Z Row)) = Some m ∧
       data_ m = [1; 2; 3] ∧ vendorUuid_ m = -1.
Proof.
  destruct (stored_model_read_back (wake_model <| vendorUuid_ := 5 |>) (Some (∅ : gmap Z Row))
              (Some {[1 := mkRow 1 5 [1; 2; 3] 1 1]}))
    as [(m & H1 & _ & H2 & _ & H3 & _) _]; [vm_compute; reflexivity|].
  exists m. split; [exact H1|]. split; [exact H2|exact H3].
Defined.

(** When the audio HAL is ready and a model the connector accepts is
    stored for the uuid, starting detection on an existing detector returns 1:
    the model is requested with the stored bytes and the detector's callback, and
    recognition runs unless a conflicting scene is active. *)
Theorem StartDetection_spec E {M D} `{!ConnectorModule M} `{!ConnectorLaws M} `{!ReliableModule M}
    `{!Rdb D} sid uuid cb model (m : TriggerManager M D) :
  let s := core (helper m) in
  operating E sid (scene s) s → detectors_ m !! uuid = Some cb →
  (GetParameter E "audio_hal_status" s).1 = "true"%string →
  GetModel uuid m = Some model → ValidateGenericModel (Some model) = true →
  (∀ d, modelDataMap_ s !! uuid = Some d → SameModel (Some model) d = true →
        ValidateGenericModel (model_ d) = true) →
  let '(r, m') := StartDetection E uuid m in
  r = 1 ∧ operating E sid (scene s) (core (helper m')) ∧
  ∃ d, modelDataMap_ (core (helper m')) = <[uuid := d]> (modelDataMap_ s) ∧
       start_done E (scene s) model (Some cb) d.
Proof.
  cbv zeta. intros Hs Hdet Hst Hmod Hv Hsame. unfold StartDetection. rewrite bind_run. cbn [st_get fst snd].
  rewrite Hdet, bind_run. unfold Manager_GetParameter. rewrite !on_helper_run, !on_core_run. cbn [fst snd].
  rewrite Hst, bool_decide_true by done. rewrite bind_run.
  destruct (GetParameter_operating E sid _ "audio_hal_status"%string _ Hs) as [Hs1 Hm1].
  set (s1 := (GetParameter E "audio_hal_status" (core (helper m))).2) in *.
  unfold Service_StartRecognition. rewrite !bind_run. cbn [st_gets fst snd].
  set (m1 := m <| helper := helper m <| core := s1 |> |>).
  assert (GetModel uuid m1 = Some model) as -> by exact Hmod.
  rewrite !on_helper_run, !on_core_run. cbn [fst snd].
  change (core (helper m1)) with s1.
  destruct (modelDataMap_ s1 !! uuid) as [d|] eqn:Hd.
  - pose proof (StartGeneric_present E sid _ uuid model (Some cb) d s1 Hs1 Hd Hv) as Hp.
    rewrite Hm1 in Hd. specialize (Hp (Hsame d Hd)).
    destruct (StartGenericRecognition E uuid model (Some cb) s1) as [r s2].
    destruct Hp as (H1 & -> & d' & Hb & Hd'). cbn. split; [done|]. split; [done|]. exists d'.
    unfold becomes in Hb. by rewrite Hb, Hm1.
  - rewrite StartGeneric_absent by done.
    pose proof (StartGeneric_present E sid _ uuid model (Some cb) (new_model_data uuid)
      (CreateTriggerModelData uuid s1).2 (create_operating E sid _ uuid s1 Hs1 Hd)) as Hp.
    destruct (StartGenericRecognition E uuid model (Some cb) _) as [r s2].
    destruct Hp as (H1 & -> & d' & Hb & Hd'); [cbn; by rewrite lookup_insert_eq|done|done|].
    cbn. split; [done|]. split; [done|]. exists d'. unfold becomes in Hb. rewrite Hb. cbn.
    by rewrite insert_insert_eq, Hm1.
Qed.

(** A manager whose wake-up model is stored and recognised, and a second model
    that is stored and has a detector. *)
Definition ref_manager : TriggerManager (ConnectorMgr RefHal) (gmap Z Row) :=
  (CreateDetector 2 8 (UpdateModel [4; 5] 2 PROXIMAL_WAKEUP_TYPE
     (mkManager (mkFull (ref_helper init_scene) (init_pipe ref_ids)) (Some ∅) ∅)).2).2.

Lemma StartDetection_spec_witness :
  let '(r, m') := StartDetection ref_env 2 ref_manager in
  r = 1 ∧ operating ref_env 0 init_scene (core (helper m')) ∧
  ∃ d, modelDataMap_ (core (helper m')) = <[2 := d]> (modelDataMap_ (ref_helper init_scene)) ∧
       start_done ref_env init_scene (mkModel 2 (-1) 2 PROXIMAL_WAKEUP_TYPE [4; 5]) (Some 8%nat) d.
Proof.
  apply (StartDetection_spec ref_env 0 2 8 (mkModel 2 (-1) 2 PROXIMAL_WAKEUP_TYPE [4; 5]) ref_manager).
  - exact (ref_helper_operating init_scene).
  - vm_compute. reflexivity.
  - vm_compute. reflexivity.
  - vm_compute. reflexivity.
  - vm_compute. reflexivity.
  - intros d. assert (modelDataMap_ (core (helper ref_manager)) !! 2 = None) as -> by (vm_compute; reflexivity).
    discriminate.
Defined.

(** Once the service has stopped, no system service that comes up attaches
    a listener again: every later notification, and a restart of the fan
    listener, leaves the manager exactly as it is. *)
Theorem stopped_service_stays_detached E A {M D} `{!ConnectorModule M} `{!Rdb D} B ability
    (m : TriggerManager M D) :
  ability "fan_status_listen"%string = true →
  let m' := (OnServiceStop E B ability m).2 in
  (∀ b, (OnTelephonyStateRegistryServiceChange B b m').2 = m') ∧
  (∀ b W r1 r2 r3 infos cur ab, (OnAudioPolicyServiceChange E A b W r1 r2 r3 infos cur ab m').2 = m') ∧
  (∀ b, (OnPowerManagerServiceChange B b m').2 = m') ∧
  (∀ b f x r c, (OnDisplayManagerServiceChange E b f x r c m').2 = m') ∧
  (∀ o sy rets rep, (OnServiceStart B ability o sy rets rep m').2 = m').
Proof.
  intros Hab. cbv zeta. pose proof (OnServiceStop_detached E B ability m Hab) as Hd.
  set (m' := (OnServiceStop E B ability m).2) in *. clearbody m'.
  destruct Hd as [D1 D2 D3 D4 D5 D6 D7].
  assert (∀ b (k : St (Full M) unit), (b = true → (k (helper m')).2 = helper m') →
            (st_when b (on_helper k) m').2 = m') as Hw.
  { intros b k Hk. unfold st_when. destruct b; [|done]. by apply on_helper_skip, Hk. }
  split_and!.
  - intros b. apply Hw. intros [Ht _]%andb_prop. cbn. rewrite (D1 Ht). by destruct (helper m').
  - intros b W r1 r2 r3 infos cur ab. unfold OnAudioPolicyServiceChange. destruct b; [|done]. cbn [negb].
    rewrite !bind_run. rewrite (on_helper_skip (AttachAudioRendererEventListener E A W r1 infos)).
    2: { unfold AttachAudioRendererEventListener. rewrite bind_run. cbn [st_get fst snd]. by rewrite D2. }
    rewrite (on_helper_skip (AttachAudioSceneEventListener E A W r2 cur)).
    2: { unfold AttachAudioSceneEventListener. rewrite bind_run. cbn [st_get fst snd]. by rewrite D6. }
    apply Hw. intros Hc. unfold AttachAudioEngineListener. rewrite bind_run. cbn [st_get fst snd].
    by rewrite (D3 Hc).
  - intros b. apply Hw. intros [Ht _]%andb_prop. cbn. rewrite (D4 Ht). by destruct (helper m').
  - intros b f x r c. apply Hw. intros [Ht _]%andb_prop. unfold AttachFoldStatusListener.
    rewrite bind_run. cbn [st_get fst snd]. by rewrite (D5 Ht).
  - intros o sy rets rep. apply Hw. intros Ht. unfold AttachFanStateListener. rewrite Hab. cbn [negb].
    rewrite bind_run. cbn [st_get fst snd]. by rewrite (D7 Ht).
Qed.

Lemma stopped_service_stays_detached_witness :
  let m' := (OnServiceStop ref_env (mkBuild true true true) (λ _, true) ref_manager).2 in
  (OnAudioPolicyServiceChange ref_env ref_ids true (ref_world [5]) 0 0 0 [] AUDIO_SCENE_RINGING
     (λ _, true) m').2 = m'.
Proof.
  destruct (stopped_service_stays_detached ref_env ref_ids (mkBuild true true true) (λ _, true)
              ref_manager eq_refl) as (_ & H & _).
  exact (H true (ref_world [5]) 0 0 0 [] AUDIO_SCENE_RINGING (λ _, true)).
Defined.

(** Releasing a detector while a conflicting scene keeps its model from
    being loaded does not withdraw the request: when the scene ends, recognition
    starts for the released detector. *)
Theorem released_detector_restarts :
  let m0 := mkManager (mkFull (Create ref_mgr) (init_pipe ref_ids)) (Some (∅ : gmap Z Row)) ∅ in
  let m1 := (UpdateModel [1; 2; 3] 1 VOICE_WAKEUP_TYPE m0).2 in
  let call st := on_helper (OnCallStateUpdated ref_env ref_ids (ref_world []) 0 10 7 st) in
  let m2 := (ReleaseTriggerDetector 1 (StartDetection ref_env 1 (CreateDetector 1 7 (call 2 m1).2).2).2).2 in
  let m3 := (call 10 m2).2 in
  detectors_ m2 = ∅ ∧
  (state_ <$> modelDataMap_ (core (helper m2)) !! 1 = Some MODEL_NOTLOADED) ∧
  (state_ <$> modelDataMap_ (core (helper m3)) !! 1 = Some MODEL_STARTED).
Proof. vm_compute. split_and!; reflexivity. Qed.
