(* ===== verification/EngineTypes.v ===== *)
(** * What the engine side shares

    Engine types and keys ([i_intell_voice_engine.h], [intell_voice_definitions.h],
    [intell_voice_util.h]), the tasks the service manager's executor runs
    ([task_executor.h]), the message bus between the engines and the service manager
    ([engine_callback_message.h] with [intell_voice_engine_registrar.cpp]), the reads
    of the JSON configuration ([intell_voice_util.cpp]) and the record [Sys] in which
    engines, engine manager and service manager run.

    [Sys X T D] is a component of state [X] with what it shares with the others: the
    trigger manager [T], the settings [D], the queue of the executor, the clock and
    the effects outside the process.  A component inside another one is run with
    [zoom]. *)

From S2P Require Import Prelude StringUtil Settings.

(** ** Constants *)

(** [enum IntellVoiceEngineType]. *)
Definition INTELL_VOICE_ENROLL : Z := 0.
Definition INTELL_VOICE_WAKEUP : Z := 1.
Definition INTELL_VOICE_UPDATE : Z := 2.
Definition INTELL_VOICE_DEVICE : Z := 3.
Definition INTELL_VOICE_IMPLICIT_ENROLL : Z := 4.
Definition ENGINE_TYPE_BUT : Z := 5.

(** Settings keys. *)
Definition KEY_WAKEUP_ENGINE_BUNDLE_NAME : string := "WakeupEngineBundleName".
Definition KEY_WAKEUP_ENGINE_ABILITY_NAME : string := "WakeupEngineAbilityName".
Definition KEY_COUNTRY_INFO_NAME : string := "CountryInfoName".
Definition KEY_GET_WAKEUP_FEATURE : string := "wakeup_features".
Definition KEY_LANGUAGE : string := "Language".
Definition KEY_AREA : string := "Area".
Definition KEY_WAKEUP_PHRASE : string := "WakeupPhrase".
Definition KEY_SENSIBILITY : string := "Sensibility".
Definition KEY_WAKEUP_DSP_FEATURE : string := "WakeupDspFeature".
Definition KEY_WHISPER_VPR : string := "WhisperVpr".
Definition KEY_DUALMIC_ENABLE : string := "dualMicEnable".
Definition WAKEUP_SENSIBILITY : string := "WAKEUP_SENSIBILITY".
(** Switches. *)
Definition SHORTWORD_KEY : string := "intell_voice_trigger_shortword".
Definition DUALMIC_KEY : string := "dualmic_intell_voice_trigger_enabled".
Definition TRIGGER_PARAMS : list string :=
  ["skipIntensityCheck"; "skipTimingCheck"; "skipTimingAccumulate"; "sndIntensityThres";
   "dualMicBudget"; "dualMicSuspen"; "closeCountThres"; "openCountThres"]%string.

(** ** Maps of strings *)

(** The order of [std::map<std::string, _>]: bytes, lexicographically. *)
Fixpoint str_le (a b : str) : Prop :=
  match a, b with
  | [], _ => True
  | _ :: _, [] => False
  | x :: a, y :: b =>
    (Ascii.nat_of_ascii x < Ascii.nat_of_ascii y)%nat ∨
    (Ascii.nat_of_ascii x = Ascii.nat_of_ascii y ∧ str_le a b)
  end.
#[global] Instance str_le_dec a b : Decision (str_le a b).
Proof. revert b. induction a as [|x a IH]; intros [|y b]; cbn; apply _. Defined.
Definition pairs_in_order (m : gmap str str) : list (str * str) :=
  merge_sort (λ a b, str_le a.1 b.1) (map_to_list m).

(** ** Effects outside the process, and tasks *)

(** What the privacy kit has answered about a use of the microphone: it took the start; it
    took the start and then refused to add the record; it took the end; it refused the end. *)
Inductive UseAnswer := UseStarted | RecordRefused | UseEnded | EndRefused.

Inductive Out :=
| OnUpdateComplete (callback : nat) (result : Z)
| AbilityStarted (bundleName abilityName : str) (event : string)
| OfflineAudioProcessed
| UnloadSystemAbility
| SwingEvent (subscribed : bool)
| SwitchReport (opened : bool) (reason : Z)
| EngineEvent (callback : nat) (msgId result : Z) (info : str)
| MicUse (token : Z) (answer : UseAnswer)
| AbilityOnDetected (bundleName abilityName : str) (event : string) (macAddress parameters : str) (endFrameIndex : Z)
| CommonEvent (name : string)
| EnrollResult (type : Z) (result : bool)
| TrackReport (stage result errCode : Z).

(** The lambdas the service manager hands to its executor, with [AddAsyncTask] or
    [AddSyncTask]. *)
Inductive Task :=
| THandleUpdateComplete (result : Z) (param : str)
| THandleUpdateRetry
| THandleCloseWakeupSource (isNeedStop : bool)
| TStopWakeupSource
| TReleaseEngine (type : Z)
| TSilenceUpdate
| TWhisperVprUpdate
| TCloneUpdate (wakeupInfo : str) (object : option nat)
| TOnDetected (uuid : Z)
| TSwitchOn (uuid : Z) (needUpdateAdapter : bool)
| TSwitchOff (uuid : Z)
| TShortWordChange
| TDualMicChange
| TStartDetection (uuid : Z)
| TSetTriggerParam (key : string) (value : str)
| TCreateEngine (type : Z)
| TClearUserData
| TServiceStop
| TClearWakeupEngineCb
| TDeviceServiceDie (serviceName : str)
| TSensibility (key value : str)
| TDataClear (key value : str)
| TOnIdle
| TUnload.

#[global] Instance UseAnswer_eq_dec : EqDecision UseAnswer.
Proof. solve_decision. Defined.
#[global] Instance Out_eq_dec : EqDecision Out.
Proof. solve_decision. Defined.
#[global] Instance Task_eq_dec : EqDecision Task.
Proof. solve_decision. Defined.

(** [static constexpr uint32_t MAX_TASK_NUM]. *)
Definition MAX_TASK_NUM : Z := 2048.

(** ** A component and what it shares *)

Record Sys (X T D : Type) := mkSys {
  own : X; trig : T; db : option D; tasks : list Task; outs : list Out; now : Z }.
Arguments mkSys {X T D} _ _ _ _ _ _.
Arguments own {X T D} _.
Arguments trig {X T D} _.
Arguments db {X T D} _.
Arguments tasks {X T D} _.
Arguments outs {X T D} _.
Arguments now {X T D} _.
#[global] Instance Sys_eta X T D : Eta (Sys X T D) :=
  λ s, mkSys (own s) (trig s) (db s) (tasks s) (outs s) (now s).

(** A component's state inside the state of the one that contains it. *)
Class Lens (Y X : Type) := { view : Y → X; set : X → Y → Y }.
Class LensLaws (Y X : Type) `{!Lens Y X} := {
  view_set x y : view (set x y) = x;
  set_view y : set (view y) y = y;
  set_set x x' y : set x (set x' y) = set x y }.

Definition with_own {X Y T D} (x : Y) (s : Sys X T D) : Sys Y T D :=
  mkSys x (trig s) (db s) (tasks s) (outs s) (now s).

Section sys.
Context {X T D : Type}.
Definition zoom {Y} `{!Lens Y X} {A} (m : St (Sys X T D) A) : St (Sys Y T D) A := λ s,
  let '(a, s') := m (with_own (view (own s)) s) in (a, with_own (set (own s') (own s)) s').

(** A computation on the settings, or on the trigger manager. *)
Definition on_settings {A} (m : St (option D) A) : St (Sys X T D) A := λ s,
  let '(a, d) := m (db s) in (a, s <| db := d |>).
Definition on_trigger {A} (m : St T A) : St (Sys X T D) A := λ s,
  let '(a, t) := m (trig s) in (a, s <| trig := t |>).
Definition emit (o : Out) : St (Sys X T D) unit := st_modify (λ s, s <| outs ::= λ l, l ++ [o] |>).

(** Reading and changing the component's own state. *)
Definition getc {A} (f : X → A) : St (Sys X T D) A := st_gets (λ s, f (own s)).
Definition modc (f : X → X) : St (Sys X T D) unit := st_modify (λ s, s <| own ::= f |>).

(** [TaskExecutor::AddAsyncTask]: with [isWait] the caller waits for room in the
    queue, without it a task that finds the queue full is dropped. *)
Definition AddAsyncTask (t : Task) (isWait : bool) : St (Sys X T D) unit :=
  st_modify (λ s, if isWait || (Z.of_nat (length (tasks s)) <? MAX_TASK_NUM)
                  then s <| tasks ::= λ l, l ++ [t] |> else s).
End sys.

(** ** The trigger manager, as the engines and the service manager see it

    The members of [class TriggerManager] and of [class DummyTriggerManager] that
    [IntellVoiceServiceManager<T, E>] calls on [T]. *)
Class TriggerPort (T : Type) := {
  tp_GetParameter : string → St T str;
  tp_SetParameter : string → str → St T Z;
  tp_UpdateModel : list Z → Z → Z → St T unit;
  tp_DeleteModel : Z → St T unit;
  tp_IsModelExist : Z → T → bool;
  tp_CreateDetector : Z → St T unit;
  tp_ReleaseTriggerDetector : Z → St T unit;
  tp_StartDetection : Z → St T Z;
  tp_StopDetection : Z → St T unit;
  tp_ClearConcurrentControlList : bool → bool → St T unit }.

(** ** JSON and the platform

    The JSON parser and the files are outside the repository. *)
Class JsonLib := {
  json : Type;
  parseFromStream : str → option json;
  isMember : json → str → bool;
  member : json → str → json;
  isString : json → bool;
  asString : json → str;
  asBool : json → bool;
  isInt : json → bool;
  asInt : json → Z;
  isArray : json → bool;
  elems : json → list json;
  jnull : json;
  isMember_ok : json → bool;
  asBool_ok : json → bool;
  asString_ok : json → bool }.

(** Files that are read, files that exist, the first line of the wakeup version
    file, whether the ability manager's client is there, and whether a thread can be
    started. *)
Class Platform := {
  ReadFile : string → option str;
  IsFileExist : string → bool;
  version_line : option str;
  ability_client : bool;
  thread_ok : bool }.

Definition WAKEUP_CONFIG_PATH : string :=
  "/sys_prod/variant/region_comm/china/etc/intellvoice/wakeup/ap/wakeup_config.json".
Definition ABILITY_TSE : str := lit "tse_enable".
Definition ABILITY_SHORT_WORD : str := lit "short_word_enable".
Definition ABILITY_DUAL_MIC : str := lit "dual_mic_enable".

Section config.
Context {JL : JsonLib} {PL : Platform}.

(** [IntellVoiceUtil::GetSupportAbility]. *)
Definition GetSupportAbility (ability : str) : bool :=
  match ReadFile WAKEUP_CONFIG_PATH with
  | None => false
  | Some text =>
    match parseFromStream text with
    | None => false
    | Some wakeupJson =>
      if negb (isMember wakeupJson (lit "Features")) then false else
      let features := member wakeupJson (lit "Features") in
      if negb (isArray features) || bool_decide (elems features = []) then false else
      existsb (λ feature, isString feature && bool_decide (asString feature = ability)) (elems features)
    end
  end.

(** [IntellVoiceUtil::IsImplicitEnroll]. *)
Definition IsImplicitEnroll (param : str) : bool :=
  match parseFromStream param with
  | None => false
  | Some root =>
    isMember root (lit "implicit_enroll") &&
    bool_decide (asString (member root (lit "implicit_enroll")) = lit "true")
  end.

(** [IntellVoiceUtil::StartAbility]. *)
Definition StartAbility {X T D} `{!KvStore D} (event : string) : St (Sys X T D) unit :=
  bundleName ← st_gets (λ s, GetStringKVPair KEY_WAKEUP_ENGINE_BUNDLE_NAME (db s));
  abilityName ← st_gets (λ s, GetStringKVPair KEY_WAKEUP_ENGINE_ABILITY_NAME (db s));
  if bool_decide (bundleName = []) || bool_decide (abilityName = []) then mret () else
  if negb ability_client then mret () else emit (AbilityStarted bundleName abilityName event).

(** [IntellVoiceUtil::StartAbilityOnDetected]. *)
Definition StartAbilityOnDetected {X T D} `{!KvStore D} (event : string) (macAddress parameters : str)
    (endFrameIndex : Z) : St (Sys X T D) unit :=
  bundleName ← st_gets (λ s, GetStringKVPair KEY_WAKEUP_ENGINE_BUNDLE_NAME (db s));
  abilityName ← st_gets (λ s, GetStringKVPair KEY_WAKEUP_ENGINE_ABILITY_NAME (db s));
  if bool_decide (bundleName = []) || bool_decide (abilityName = []) then mret () else
  if negb ability_client then mret () else
  emit (AbilityOnDetected bundleName abilityName event macAddress parameters endFrameIndex).
End config.

(** Reference instances.  JSON values, and a parser that makes an object of strings
    of a text of [key=value] pairs; a parser for one more text can be added. *)
#[local] Set Warnings "-register-all".
Inductive Jval := JNull | JBool (b : bool) | JInt (z : Z) | JStr (s : str) | JArr (l : list Jval) | JObj (l : list (str * Jval)).
Definition jmember (j : Jval) (k : str) : option Jval :=
  match j with JObj l => (λ x, x.2.2) <$> list_find (λ kv, kv.1 = k) l | _ => None end.
Definition json_with (extra : str → option Jval) : JsonLib := {|
  json := Jval;
  parseFromStream text :=
    match extra text with
    | Some j => Some j
    | None => kv ← SplitStringToKVPair text ∅; Some (JObj (prod_map id JStr <$> map_to_list kv))
    end;
  isMember j k := match jmember j k with Some _ => true | None => false end;
  member j k := default JNull (jmember j k);
  isString j := match j with JStr _ => true | _ => false end;
  asString j := match j with JStr s => s | JBool b => lit (if b then "true" else "false") | JInt z => print_int z | _ => [] end;
  asBool j := match j with JBool b => b | JInt z => negb (z =? 0) | _ => false end;
  isInt j := match j with JInt _ => true | _ => false end;
  asInt j := match j with JInt z => z | _ => 0 end;
  isArray j := match j with JArr _ => true | _ => false end;
  elems j := match j with JArr l => l | _ => [] end;
  jnull := JNull;
  isMember_ok j := match j with JNull | JObj _ => true | _ => false end;
  asBool_ok j := match j with JNull | JBool _ | JInt _ => true | _ => false end;
  asString_ok j := match j with JArr _ | JObj _ => false | _ => true end |}.
#[global] Instance ref_json : JsonLib := json_with (λ _, None).

(** A platform without files, and a trigger manager that knows two models. *)
#[global] Instance ref_platform : Platform := {|
  ReadFile _ := None; IsFileExist _ := false; version_line := None; ability_client := true; thread_ok := true |}.
#[global] Instance ref_trigger : TriggerPort (gmap string str) := {|
  tp_GetParameter k := st_gets (λ t, default [] (t !! k));
  tp_SetParameter k v := λ t, (0, <[k := v]> t);
  tp_UpdateModel _ _ _ := mret ();
  tp_DeleteModel _ := mret ();
  tp_IsModelExist u _ := bool_decide (u ∈ [1; 2]);
  tp_CreateDetector _ := mret ();
  tp_ReleaseTriggerDetector _ := mret ();
  tp_StartDetection _ := mret 1;
  tp_StopDetection _ := mret ();
  tp_ClearConcurrentControlList _ _ := mret () |}.

(** * Lemmas *)

Section sys_lemmas.
Context {X T D : Type}.
Implicit Types s : Sys X T D.

Lemma with_own_own s : with_own (own s) s = s.
Proof. by destruct s. Qed.
Lemma own_with_own {Y} (y : Y) s : own (with_own y s) = y.
Proof. done. Qed.
Lemma with_own_twice {Y Z'} (y : Y) (z : Z') s : with_own z (with_own y s) = with_own z s.
Proof. done. Qed.

Lemma on_settings_run {A} (m : St (option D) A) s :
  on_settings m s = ((m (db s)).1, s <| db := (m (db s)).2 |>).
Proof. unfold on_settings. by destruct (m (db s)). Qed.
Lemma on_trigger_run {A} (m : St T A) s :
  on_trigger m s = ((m (trig s)).1, s <| trig := (m (trig s)).2 |>).
Proof. unfold on_trigger. by destruct (m (trig s)). Qed.

Lemma getc_bind {A B} (f : X → A) (k : A → St (Sys X T D) B) s : (a ← getc f; k a) s = k (f (own s)) s.
Proof. done. Qed.

Lemma zoom_run {Y} `{!Lens Y X} {A} (m : St (Sys X T D) A) (s : Sys Y T D) :
  zoom m s = ((m (with_own (view (own s)) s)).1,
              with_own (set (own (m (with_own (view (own s)) s)).2) (own s))
                       (m (with_own (view (own s)) s)).2).
Proof. unfold zoom. by destruct (m _). Qed.

(** Two computations of an inner component, one after the other, are one. *)
Lemma zoom_bind {Y} `{L : Lens Y X} `{!LensLaws Y X} {A B} (m : St (Sys X T D) A) (k : A → St (Sys X T D) B)
    (s : Sys Y T D) : zoom (m ≫= k) s = (zoom m ≫= λ a, zoom (k a)) s.
Proof.
  rewrite zoom_run, !bind_run. cbn beta. rewrite !zoom_run. cbn [fst snd].
  rewrite !own_with_own, view_set, !with_own_twice, with_own_own.
  by rewrite set_set.
Qed.

(** What an inner computation establishes of the inner state holds of the view. *)
Lemma hoare_zoom {Y} `{L : Lens Y X} `{!LensLaws Y X} {A} (P : Sys X T D → Prop) (m : St (Sys X T D) A) Q :
  ⟪ P ⟫ m ⟪ Q ⟫ →
  ⟪ λ s : Sys Y T D, P (with_own (view (own s)) s) ⟫ zoom m
  ⟪ λ a (s : Sys Y T D), Q a (with_own (view (own s)) s) ⟫.
Proof.
  intros Hm s Hs. specialize (Hm _ Hs). rewrite zoom_run. cbn [fst snd].
  rewrite own_with_own, view_set, with_own_twice, with_own_own. done.
Qed.
End sys_lemmas.

(** ** Computations without effects outside the process *)

Section mute.
Context {X T D : Type}.
Definition outs_are (l : list Out) (s : Sys X T D) : Prop := outs s = l.
Definition mute {A} (m : St (Sys X T D) A) : Prop := ∀ l, ⟪ outs_are l ⟫ m ⟪ λ _, outs_are l ⟫.

Lemma mute_outs {A} (m : St (Sys X T D) A) s : mute m → outs (m s).2 = outs s.
Proof. intros Hm. by apply (Hm (outs s) s). Qed.
Lemma mute_settings {A} (m : St (option D) A) l : ⟪ outs_are l ⟫ on_settings m ⟪ λ _, outs_are l ⟫.
Proof. intros s Hs. rewrite on_settings_run. exact Hs. Qed.
Lemma mute_trigger {A} (m : St T A) l : ⟪ outs_are l ⟫ on_trigger m ⟪ λ _, outs_are l ⟫.
Proof. intros s Hs. rewrite on_trigger_run. exact Hs. Qed.
Lemma mute_getc {A} (f : X → A) l : ⟪ outs_are l ⟫ getc f ⟪ λ _, outs_are l ⟫.
Proof. by intros s Hs. Qed.
Lemma mute_modc f l : ⟪ outs_are l ⟫ modc f ⟪ λ _, outs_are l ⟫.
Proof. by intros s Hs. Qed.
Lemma mute_task t w l : ⟪ outs_are l ⟫ AddAsyncTask t w ⟪ λ _, outs_are l ⟫.
Proof. intros s Hs. unfold AddAsyncTask. run. by destruct (_ || _). Qed.
End mute.
#[export] Hint Resolve mute_settings mute_trigger mute_getc mute_modc mute_task : ivoice.
Lemma mute_zoom {X Y T D} `{!Lens Y X} {A} (m : St (Sys X T D) A) : mute m → mute (zoom (Y := Y) m).
Proof. intros Hm l s Hs. rewrite zoom_run. exact (Hm l (with_own (view (own s)) s) Hs). Qed.
