(* ===== verification/EngineAudio.v ===== *)
(** * Audio input and permissions of the engines

    [base/audio_source.cpp] (the thread that reads the microphone) and the permission
    checks and records of [utils/intell_voice_util.cpp].  The audio framework, the
    access tokens and the privacy kit are outside the repository: they are the class
    [AudioFw], with the two reads the engines make of other parts of the service, the
    switches and the screen state. *)

From S2P Require Import Prelude StringUtil Settings EngineTypes.

(** ** The audio framework *)

(** Enumerators of the audio framework and of the privacy kit, and whether the build
    lets root in ([INTELL_VOICE_BUILD_VARIANT_ROOT]) and has a window manager
    ([SUPPORT_WINDOW_MANAGER]). *)
Class AudioModes := {
  SOURCE_TYPE_VOICE_RECOGNITION : Z; SOURCE_TYPE_WAKEUP : Z;
  AEC_STANDARD : Z; AEC_BYPASS : Z; AEC_FOLDED : Z; AEC_EXPAND : Z;
  NS_STANDARD : Z; NS_NEAR_FIELD : Z; NS_BYPASS : Z; NS_NORMAL_REG : Z; NS_TOPMIC_REG : Z;
  ERR_PERMISSION_ALREADY_START_USING : Z; VARIANT_ROOT : bool; WINDOW_MANAGER : bool }.

Class AudioFw (A : Type) := {
  (** [AudioSystemManager] and [AudioStreamManager], if they are there. *)
  af_system : A → bool;
  af_stream : A → bool;
  af_SetAsrAecMode : Z → St A unit;
  af_SetAsrNoiseSuppressionMode : Z → St A unit;
  af_SetWakeUpSourceCloseCallback : bool → St A unit;
  af_SelectInputDevice : St A unit;
  (** The source types of the current capturers, [None] for a null pointer. *)
  af_capturers : A → list (option Z);
  (** [AudioCapturer]: [Create] for a source type and a number of channels. *)
  af_Create : Z → Z → St A bool;
  af_Start : St A bool;
  af_Stop : St A unit;
  af_Release : St A unit;
  (** The caller: uid 0, a native token, a system application, the microphone
      permission, and its token. *)
  at_root : A → bool;
  at_native : A → bool;
  at_system_app : A → bool;
  at_granted : A → bool;
  at_TokenID : A → Z;
  (** [PrivacyKit]. *)
  pk_StartUsingPermission : Z → St A Z;
  pk_AddPermissionUsedRecord : Z → St A Z;
  pk_StopUsingPermission : Z → St A Z;
  (** [get_current_time_ms], [QUERY_SWITCH_STATUS] and [GetScreenOff]. *)
  af_time_ms : A → Z;
  af_switch : string → A → bool;
  af_screenoff : A → bool }.

(** [enum IntelligentVoiceErrorCode], as far as it is used. *)
Definition INTELLIGENT_VOICE_SUCCESS : Z := 0.
Definition INTELLIGENT_VOICE_PERMISSION_DENIED : Z := 201.
Definition INTELLIGENT_VOICE_NOT_SYSTEM_APPLICATION : Z := 202.
Definition INTELLIGENT_VOICE_START_CAPTURER_FAILED : Z := 22700105.

(** ** Permissions *)

Section permissions.
Context {A : Type} `{!AudioFw A} `{!AudioModes}.

Definition CheckIsSystemApp (a : A) : bool :=
  if at_native a then true else if negb (at_system_app a) then false else true.
Definition VerifyClientPermission (a : A) : bool := at_granted a.
Definition VerifySystemPermission (a : A) : Z :=
  if VARIANT_ROOT && at_root a then INTELLIGENT_VOICE_SUCCESS else
  if negb (CheckIsSystemApp a) then INTELLIGENT_VOICE_NOT_SYSTEM_APPLICATION else
  if negb (VerifyClientPermission a) then INTELLIGENT_VOICE_PERMISSION_DENIED else
  INTELLIGENT_VOICE_SUCCESS.

(** A component with access to the framework. *)
Context {X T D : Type} `{!Lens X A}.
Abbreviation M := (St (Sys X T D)).
Definition on_fw {B} (m : St A B) : M B := λ s,
  let '(b, a) := m (view (own s)) in (b, s <| own ::= set a |>).
Definition get_fw {B} (f : A → B) : M B := getc (λ x, f (view x)).

(** [RecordPermissionPrivacy]; what the kit answered is on the record of [Sys]. *)
Definition RecordPermissionPrivacy (targetTokenId : Z) (start : bool) : M bool :=
  if start then
    ret ← on_fw (pk_StartUsingPermission targetTokenId);
    if negb (ret =? 0) && negb (ret =? ERR_PERMISSION_ALREADY_START_USING) then mret false else
    _ ← emit (MicUse targetTokenId UseStarted);
    ret ← on_fw (pk_AddPermissionUsedRecord targetTokenId);
    if negb (ret =? 0) && negb (ret =? ERR_PERMISSION_ALREADY_START_USING)
    then _ ← emit (MicUse targetTokenId RecordRefused); mret false
    else mret true
  else
    ret ← on_fw (pk_StopUsingPermission targetTokenId);
    if negb (ret =? 0) then _ ← emit (MicUse targetTokenId EndRefused); mret false
    else _ ← emit (MicUse targetTokenId UseEnded); mret true.
End permissions.

(** ** [AudioSource] *)

(** The options of the capturer and the buffers, and whether the source is reading. *)
Record AudioSource := mkSource {
  minBufferSize_ : Z; bufferCnt_ : Z; src_type : Z; src_channels : Z; isReading_ : bool }.
#[global] Instance AudioSource_eta : Eta AudioSource :=
  λ x, mkSource (minBufferSize_ x) (bufferCnt_ x) (src_type x) (src_channels x) (isReading_ x).
Definition new_source (minBufferSize bufferCnt type channels : Z) : AudioSource :=
  mkSource minBufferSize bufferCnt type channels false.

Section source.
Context {A : Type} `{!AudioFw A}.

(** [Start]; the thread can be started. *)
Definition Source_Start (x : AudioSource) : St A (bool * AudioSource) :=
  if minBufferSize_ x =? 0 then mret (false, x) else
  created ← af_Create (src_type x) (src_channels x);
  if negb created then mret (false, x) else
  started ← af_Start;
  if negb started then _ ← af_Release; mret (false, x) else
  mret (true, x <| isReading_ := true |>).

Definition Source_Stop (x : AudioSource) : St A AudioSource :=
  if negb (isReading_ x) then mret x else
  _ ← af_Stop;
  _ ← af_Release;
  mret (x <| isReading_ := false |>).
End source.

(** The reading thread, given what the capturer delivers until it is stopped ([None]
    when a read is short): the calls of the listener. *)
Inductive SourceEvent := ReadBufferCb (buffer : list Z) (isEnd : bool) | BufferEndCb.
Fixpoint Source_Run (bufferCnt : Z) (reads : list (option (list Z))) (readCnt : Z) (isEnd : bool) : list SourceEvent :=
  match reads with
  | [] => []
  | r :: reads =>
    let atEnd := negb isEnd && (readCnt =? bufferCnt) in
    let isEnd' := isEnd || atEnd in
    (if atEnd then [BufferEndCb] else []) ++
    match r with
    | None => []
    | Some buffer => ReadBufferCb buffer isEnd' :: Source_Run bufferCnt reads (u32 (readCnt + 1)) isEnd'
    end
  end.

(** * Lemmas *)

Section audio_lemmas.
Context {A : Type} `{!AudioFw A} {X T D : Type} `{!Lens X A}.
Lemma on_fw_run {B} (m : St A B) (s : Sys X T D) :
  on_fw m s = ((m (view (own s))).1, s <| own ::= set (m (view (own s))).2 |>).
Proof. unfold on_fw. by destruct (m _). Qed.
End audio_lemmas.

(** The tokens the kit has as users of the microphone, and those for which it has refused
    a record or an end: an end it refused leaves the token a user. *)
Definition mic_step (u : gset Z * gset Z) (o : Out) : gset Z * gset Z :=
  match o with
  | MicUse token UseStarted => (u.1 ∪ {[token]}, u.2)
  | MicUse token UseEnded => (u.1 ∖ {[token]}, u.2)
  | MicUse token (RecordRefused | EndRefused) => (u.1, u.2 ∪ {[token]})
  | _ => u
  end.
Definition mic_ledger (l : list Out) : gset Z * gset Z := foldl mic_step (∅, ∅) l.
Definition mic_users (l : list Out) : gset Z := (mic_ledger l).1.
Definition mic_refused (l : list Out) : gset Z := (mic_ledger l).2.

(** The use of the microphone is in order for [who]: they are a user, and nobody else is
    but those for whom the kit has refused something. *)
Definition mic_for (who : option Z) (u : gset Z * gset Z) : Prop :=
  (∀ t, who = Some t → t ∈ u.1) ∧ u.1 ⊆ u.2 ∪ match who with Some t => {[t]} | None => ∅ end.

#[global] Arguments mic_ledger : simpl never.

Lemma mic_ledger_app l o : mic_ledger (l ++ [o]) = mic_step (mic_ledger l) o.
Proof. unfold mic_ledger. by rewrite foldl_app. Qed.
Lemma mic_step_other u o : (∀ t a, o ≠ MicUse t a) → mic_step u o = u.
Proof. destruct o; try done. intros H. by destruct (H token answer). Qed.

(** If the kit has refused nothing, the users are just those who should be. *)
Lemma mic_for_exact who u : mic_for who u → u.2 = ∅ → u.1 = match who with Some t => {[t]} | None => ∅ end.
Proof. intros [H1 H2] Hr. rewrite Hr in H2. destruct who as [t|]; [specialize (H1 t eq_refl)|]; set_solver. Qed.

(** A source that has started reads. *)
Lemma Source_Start_reading {A} `{!AudioFw A} source (a : A) :
  (Source_Start source a).1.1 = true → isReading_ (Source_Start source a).1.2 = true.
Proof.
  unfold Source_Start. destruct (_ =? 0); [done|]. rewrite bind_run. destruct (negb _); [done|].
  rewrite bind_run. destruct (negb _); [rewrite bind_run; done|done].
Qed.

Section record_lemmas.
Context {A : Type} `{!AudioFw A} {AM : AudioModes} {X T D : Type} `{L : Lens X A} `{!LensLaws X A}.
Implicit Types s : Sys X T D.

(** The end of a use, whatever the kit answers. *)
Lemma record_stop t s :
  mic_for (Some t) (mic_ledger (outs s)) →
  (∃ a, own (RecordPermissionPrivacy t false s).2 = set a (own s)) ∧
  mic_for None (mic_ledger (outs (RecordPermissionPrivacy t false s).2)).
Proof.
  intros [_ Hu]. unfold RecordPermissionPrivacy, emit. rewrite bind_run, on_fw_run. cbn [fst snd].
  split; [destruct (negb _); run; by eexists|].
  destruct (negb _); run; cbn; rewrite mic_ledger_app; split; [done|cbn; set_solver|done|cbn; set_solver].
Qed.
(** Its start: with a failure nobody new is in order. *)
Lemma record_start t s :
  mic_for None (mic_ledger (outs s)) →
  (∃ a, own (RecordPermissionPrivacy t true s).2 = set a (own s)) ∧
  mic_for (if (RecordPermissionPrivacy t true s).1 then Some t else None) (mic_ledger (outs (RecordPermissionPrivacy t true s).2)).
Proof.
  intros [_ Hu]. unfold RecordPermissionPrivacy, emit. rewrite bind_run, on_fw_run. cbn [fst snd].
  destruct (_ && _); [by split; [eexists|]|]. run. rewrite on_fw_run. cbn [fst snd].
  set (fw := pk_AddPermissionUsedRecord t _). destruct fw as [ret a']. cbn [fst snd].
  split; [exists a'; destruct (_ && _); run; cbn; apply set_set|].
  destruct (_ && _); run; cbn; rewrite ?mic_ledger_app; cbn; split; try done; [set_solver| |set_solver].
  intros t' [= ->]. set_solver.
Qed.
End record_lemmas.

(** Before the end: plain reads; after it: reads marked as being past the end. *)
Lemma Source_Run_after n (bufs : list (list Z)) k :
  Source_Run n (Some <$> bufs) k true = (λ b, ReadBufferCb b true) <$> bufs.
Proof. revert k. induction bufs as [|b bufs IH]; intros k; cbn; [done|]. by rewrite IH. Qed.
Lemma Source_Run_before n (bufs : list (list Z)) k :
  0 ≤ k ≤ n → n < 2 ^ 32 →
  Source_Run n (Some <$> bufs) k false =
    ((λ b, ReadBufferCb b false) <$> take (Z.to_nat (n - k)) bufs) ++
    match drop (Z.to_nat (n - k)) bufs with
    | [] => []
    | rest => BufferEndCb :: ((λ b, ReadBufferCb b true) <$> rest)
    end.
Proof.
  revert k. induction bufs as [|b bufs IH]; intros k Hk Hn; [by rewrite take_nil, drop_nil|].
  cbn [fmap list_fmap Source_Run]. destruct (Z.eqb_spec k n) as [->|Hne].
  - rewrite Z.sub_diag. cbn. by rewrite Source_Run_after.
  - cbn [negb andb orb app]. rewrite u32_small by lia.
    replace (Z.to_nat (n - k)) with (S (Z.to_nat (n - (k + 1)))) by lia. cbn. rewrite IH by lia. done.
Qed.

(** ** A reference framework

    Everything is there and allowed, but with [denied] the privacy kit refuses to record a
    use it has let start, and a process that is a [stranger] has no permission.
    [rf_broken] is whether a capturer cannot start; the framework counts the capturers
    that are open. *)
Record RefFw := mkRefFw { rf_open : Z; rf_broken : bool; rf_modes : list Z }.
#[global] Instance RefFw_eta : Eta RefFw := λ a, mkRefFw (rf_open a) (rf_broken a) (rf_modes a).
#[global] Instance ref_modes : AudioModes := {|
  SOURCE_TYPE_VOICE_RECOGNITION := 1; SOURCE_TYPE_WAKEUP := 3; AEC_STANDARD := 0; AEC_BYPASS := 1; AEC_FOLDED := 2;
  AEC_EXPAND := 3; NS_STANDARD := 0; NS_NEAR_FIELD := 1; NS_BYPASS := 2; NS_NORMAL_REG := 3; NS_TOPMIC_REG := 4;
  ERR_PERMISSION_ALREADY_START_USING := 12100004; VARIANT_ROOT := false; WINDOW_MANAGER := true |}.
Definition ref_fw_for (denied : bool) (stranger : RefFw → bool) : AudioFw RefFw := {|
  af_system _ := true;
  af_stream _ := true;
  af_SetAsrAecMode m := λ a, ((), a <| rf_modes ::= λ l, l ++ [m] |>);
  af_SetAsrNoiseSuppressionMode m := λ a, ((), a <| rf_modes ::= λ l, l ++ [m] |>);
  af_SetWakeUpSourceCloseCallback _ := mret ();
  af_SelectInputDevice := mret ();
  af_capturers _ := [];
  af_Create _ _ := λ a, (true, a <| rf_open ::= Z.succ |>);
  af_Start := λ a, (negb (rf_broken a), a);
  af_Stop := mret ();
  af_Release := λ a, ((), a <| rf_open ::= Z.pred |>);
  at_root _ := false;
  at_native a := negb (stranger a);
  at_system_app a := negb (stranger a);
  at_granted _ := true;
  at_TokenID _ := 7;
  pk_StartUsingPermission _ := mret 0;
  pk_AddPermissionUsedRecord _ := mret (if denied then -1 else 0);
  pk_StopUsingPermission _ := mret 0;
  af_time_ms _ := 0;
  af_switch _ _ := true;
  af_screenoff _ := false |}.
Definition ref_fw_with (denied : bool) : AudioFw RefFw := ref_fw_for denied (λ _, false).
#[global] Instance ref_fw : AudioFw RefFw := ref_fw_with false.
