(* ===== verification/WakeupSource.v ===== *)
(** * Audio kept for the client that reads it

    [wakeup/wakeup_source_process.cpp]: one queue of frames per channel, written by the
    thread that reads the microphone and read by the client.  A read that waits for a
    frame ([PopUntilTimeout]) is a step after the write that ends its wait, or it finds
    nothing in time; so a step that finds the queue empty is one that times out.  The
    debug files are left out. *)

From S2P Require Import Prelude AudioUtil Queues.

Definition MAX_CHANNEL_CNT : Z := 4.
Definition FRAME_CNT : Z := 100.

Record WakeupSourceProcess := mkSP {
  readBufferPCM : bool; channelCnt_ : Z; bufferQueue_ : list (QueueUtil (list Z)) }.
#[global] Instance WakeupSourceProcess_eta : Eta WakeupSourceProcess :=
  λ p, mkSP (readBufferPCM p) (channelCnt_ p) (bufferQueue_ p).
Definition new_sp : WakeupSourceProcess := mkSP false 0 [].

Abbreviation M := (St WakeupSourceProcess).
Implicit Types p : WakeupSourceProcess.

Definition SP_Release : M unit := st_modify (λ p, p <| bufferQueue_ := [] |> <| channelCnt_ := 0 |>).

Definition SP_Init (channelCnt : Z) : M unit :=
  p ← st_get;
  _ ← st_when (negb (channelCnt_ p =? 0)) SP_Release;
  st_modify (λ p, p <| bufferQueue_ ::= λ l, l ++ replicate (Z.to_nat channelCnt) (Init MAX_CAPACITY new_queue) |>
                    <| channelCnt_ := channelCnt |>).

(** [SetReadBufferFlag]. *)
Definition SetReadBufferFlag (readBuffer : bool) : M unit := st_modify (λ p, p <| readBufferPCM := readBuffer |>).

(** The queue of a channel. *)
Definition set_queue (c : nat) (q : QueueUtil (list Z)) : M unit := st_modify (λ p, p <| bufferQueue_ ::= <[c := q]> |>).

Definition WriteChannelData (channelData : list Z) (channelId : nat) : M unit :=
  p ← st_get;
  match bufferQueue_ p !! channelId with
  | None => mret ()
  | Some q =>
    match CreateArrayBuffer (Z.of_nat (length channelData)) (Some channelData) with
    | None => mret ()
    | Some arrayBuffer => set_queue channelId (Push arrayBuffer false q).2
    end
  end.

Definition SP_Write (audioData : list (list Z)) : M unit :=
  p ← st_get;
  if negb (Z.of_nat (length audioData) =? channelCnt_ p) || negb (Z.of_nat (length (bufferQueue_ p)) =? channelCnt_ p)
  then mret () else
  let channel i := WriteChannelData (default [] (audioData !! i)) i in
  if channelCnt_ p =? 1 then channel 0%nat
  else if channelCnt_ p =? 4 then _ ← channel 0%nat; _ ← channel 1%nat; _ ← channel 2%nat; channel 3%nat
  else mret ().

(** [AddMultiFrame]: the data with the frames of the channel added, and their number. *)
Definition AddMultiFrame (channelData : list Z) (channelId : nat) (frameLen : Z) : M (list Z * Z) :=
  p ← st_get;
  match bufferQueue_ p !! channelId with
  | None => mret (channelData, 0)
  | Some q =>
    let '(frames, q') := PopLen (Z.to_nat frameLen) q in
    _ ← set_queue channelId q';
    let frameList := default [] frames in
    mret (channelData ++ concat frameList, Z.of_nat (length frameList))
  end.

Definition ReadBufferedData (channelData : list Z) (channelId : nat) : M (list Z) :=
  if negb (channelId =? 0)%nat then
    r ← AddMultiFrame channelData 0 FRAME_CNT;
    r ← AddMultiFrame r.1 channelId r.2;
    mret r.1
  else
    r ← AddMultiFrame channelData channelId FRAME_CNT;
    mret (r.1 ++ r.1).

(** [PopUntilTimeout]. *)
Definition PopUntilTimeout (q : QueueUtil (list Z)) : option (list Z) * QueueUtil (list Z) :=
  match Pop 0 q with
  | (Done x, q') => (x, q')
  | (Sleeps, q') => (None, Pop_timeout q')
  end.

(** [ReadChannelData]: the data read so far, [None] when it fails. *)
Definition ReadChannelData (channelData : list Z) (channelId : nat) : M (option (list Z)) :=
  p ← st_get;
  match bufferQueue_ p !! channelId with
  | None => mret None
  | Some q =>
    if readBufferPCM p then
      data ← ReadBufferedData channelData channelId;
      _ ← SetReadBufferFlag false;
      mret (Some data)
    else
      let '(arrayBuffer, q') := PopUntilTimeout q in
      _ ← set_queue channelId q';
      mret ((λ frame, channelData ++ frame) <$> arrayBuffer)
  end.

(** The loop of [Read] over the channels [i..]. *)
Fixpoint read_channels (readChannel : Z) (cs : list nat) (data : list Z) : M (Z * list Z) :=
  match cs with
  | [] => mret (0, data)
  | i :: cs =>
    if negb (Z.testbit readChannel (Z.of_nat i)) then read_channels readChannel cs data else
    r ← ReadChannelData data i;
    match r with
    | None => mret (-1, data)
    | Some data => read_channels readChannel cs data
    end
  end.
Definition SP_Read (data : list Z) (readChannel : Z) : M (Z * list Z) :=
  if (readChannel =? 0) || (Z.shiftl 1 MAX_CHANNEL_CNT <=? readChannel) then mret (-1, data)
  else read_channels readChannel [0; 1; 2; 3]%nat data.

(** * Lemmas *)

(** [p] keeps, for each of its [n] channels, the frames [f]. *)
Record sp_holds p (n : nat) (f : nat → list (list Z)) : Prop := {
  sh_cnt : channelCnt_ p = Z.of_nat n;
  sh_len : length (bufferQueue_ p) = n;
  sh_queue : ∀ i, (i < n)%nat → ∃ q, bufferQueue_ p !! i = Some q ∧ isAvailable_ q = true ∧
               capacity_ q = MAX_CAPACITY ∧ psleep q = [] ∧ queue_ q = f i }.

Lemma sp_holds_ext p n f g : (∀ i, (i < n)%nat → f i = g i) → sp_holds p n f → sp_holds p n g.
Proof.
  intros Hfg [Hc Hl Hq]. constructor; [done..|]. intros i Hi. destruct (Hq i Hi) as (q & ? & ? & ? & ? & ?).
  exists q. rewrite <- Hfg by done. done.
Qed.

Lemma sp_holds_flag p n f b : sp_holds p n f → sp_holds (SetReadBufferFlag b p).2 n f.
Proof. by intros []. Qed.

(** A queue of a channel is replaced by one with the frames [l]. *)
Lemma sp_holds_set p n f c q l :
  sp_holds p n f → (c < n)%nat →
  isAvailable_ q = true → capacity_ q = MAX_CAPACITY → psleep q = [] → queue_ q = l →
  sp_holds (set_queue c q p).2 n (λ i, if decide (i = c) then l else f i).
Proof.
  intros [Hc Hl Hq] Hcn Ha Hk Hp Hql. constructor; cbn; [done|by rewrite length_insert|]. intros i Hi.
  case_decide as Hic; [subst i|].
  - exists q. rewrite list_lookup_insert_eq by lia. done.
  - rewrite list_lookup_insert_ne by done. by apply Hq.
Qed.

Lemma SP_Init_holds p n : channelCnt_ p = 0 → bufferQueue_ p = [] → sp_holds (SP_Init (Z.of_nat n) p).2 n (λ _, []).
Proof.
  intros Hc Hq. unfold SP_Init. run. rewrite Hc. cbn [Z.eqb negb]. run. constructor; cbn.
  - done.
  - rewrite Hq, Nat2Z.id. apply length_replicate.
  - intros i Hi. rewrite Hq, Nat2Z.id. cbn. rewrite lookup_replicate_2 by done. by eexists.
Qed.

(** Writing a frame of one channel. *)
Lemma WriteChannelData_holds p n f c x :
  sp_holds p n f → (c < n)%nat → x ≠ [] → (length (f c) < MAX_CAPACITY)%nat →
  sp_holds (WriteChannelData x c p).2 n (λ i, if decide (i = c) then f c ++ [x] else f i).
Proof.
  intros Hp Hc Hx Hlen. destruct (sh_queue _ _ _ Hp c Hc) as (q & Hq & Ha & Hk & Hs & Hf).
  unfold WriteChannelData. run. rewrite Hq. unfold CreateArrayBuffer.
  destruct (Z.eqb_spec (Z.of_nat (length x)) 0) as [Hz|_]; [by destruct x|]. rewrite Nat2Z.id, firstn_all.
  unfold Push. rewrite Ha. cbn [negb]. unfold full. rewrite Hk, Hf.
  replace (MAX_CAPACITY <=? length (f c))%nat with false by (symmetry; by apply Nat.leb_gt).
  assert (∀ q', let e := enqueue x q' in isAvailable_ e = isAvailable_ q' ∧ capacity_ e = capacity_ q' ∧
            psleep e = psleep q' ∧ queue_ e = queue_ q' ++ [x]) as He.
  { intros q'. unfold enqueue, notify_consumer. cbn. by destruct (csleep q'). }
  cbn [snd]. destruct (He q) as (E1 & E2 & E3 & E4).
  apply sp_holds_set; [done|done|by rewrite E1|by rewrite E2|by rewrite E3|by rewrite E4, Hf].
Qed.

(** A row of frames, one per channel, is appended. *)
Lemma SP_Write_holds p n f row :
  n = 1%nat ∨ n = 4%nat → sp_holds p n f → length row = n → Forall (λ x, x ≠ []) row →
  (∀ i, (i < n)%nat → (length (f i) < MAX_CAPACITY)%nat) →
  sp_holds (SP_Write row p).2 n (λ i, f i ++ [row !!! i]).
Proof.
  intros Hn Hp Hrow Hne Hlen. unfold SP_Write. run. rewrite Hrow, (sh_cnt _ _ _ Hp), (sh_len _ _ _ Hp), Z.eqb_refl.
  cbn [negb orb].
  assert (∀ i, (i < n)%nat → default [] (row !! i) ≠ []) as Hrne.
  { intros i Hi. destruct (lookup_lt_is_Some_2 row i) as [x Hx]; [lia|]. rewrite Hx. cbn.
    by apply (Forall_lookup_1 _ _ _ _ Hne Hx). }
  destruct Hn as [-> | ->].
  - change (Z.of_nat 1 =? 1) with true. cbv iota. eapply sp_holds_ext; [|apply WriteChannelData_holds; [done|lia|apply Hrne; lia|apply Hlen; lia]].
    intros [|i] Hi; [|lia]. cbn. by rewrite list_lookup_total_alt.
  - change (Z.of_nat 4 =? 1) with false. change (Z.of_nat 4 =? 4) with true. cbv iota. run. eapply sp_holds_ext; cycle 1.
    + apply WriteChannelData_holds; [|lia|apply Hrne; lia|].
      1: apply WriteChannelData_holds; [|lia|apply Hrne; lia|].
      1: apply WriteChannelData_holds; [|lia|apply Hrne; lia|].
      1: apply WriteChannelData_holds; [exact Hp|lia|apply Hrne; lia|].
      all: cbn; apply Hlen; lia.
    + intros i Hi. do 4 (destruct i as [|i]; [cbn; by rewrite list_lookup_total_alt|]). lia.
Qed.

(** The channels a mask selects, in the order they are read. *)
Definition selected (readChannel : Z) (cs : list nat) : list nat :=
  filter (λ c, Z.testbit readChannel (Z.of_nat c) = true) cs.

(** Reading one frame of a channel. *)
Lemma ReadChannelData_frame data c p n f x rest :
  sp_holds p n f → readBufferPCM p = false → (c < n)%nat → f c = x :: rest →
  ∃ p', ReadChannelData data c p = (Some (data ++ x), p') ∧ readBufferPCM p' = false ∧
        sp_holds p' n (λ i, if decide (i = c) then rest else f i).
Proof.
  intros Hp Hb Hc Hf. destruct (sh_queue _ _ _ Hp c Hc) as (q & Hq & Ha & Hk & Hps & Hqf).
  exists (set_queue c (dequeue x rest 0 q) p).2. split; [|split; [done|]].
  - unfold ReadChannelData. rewrite bind_run. change ((st_get p).1) with p. change ((st_get p).2) with p.
    rewrite Hq, Hb. unfold PopUntilTimeout, Pop. by rewrite Ha, Hqf, Hf.
  - apply sp_holds_set; [done|done|..]; unfold dequeue, notify_producer; cbn; by rewrite Hps.
Qed.

(** A read takes the oldest frame of every channel it selects. *)
Lemma read_channels_holds readChannel cs data p n f :
  sp_holds p n f → readBufferPCM p = false → NoDup cs →
  (∀ c, c ∈ selected readChannel cs → (c < n)%nat ∧ f c ≠ []) →
  let '(r, p') := read_channels readChannel cs data p in
  r = (0, data ++ concat ((λ c, default [] (head (f c))) <$> selected readChannel cs)) ∧
  readBufferPCM p' = false ∧
  sp_holds p' n (λ c, if decide (c ∈ selected readChannel cs) then tail (f c) else f c).
Proof.
  revert data p f. induction cs as [|c cs IH]; intros data p f Hp Hb Hnd Hs; cbn [read_channels].
  { cbn. rewrite app_nil_r. done. }
  apply NoDup_cons in Hnd as [Hc Hnd]. unfold selected in *. rewrite filter_cons in *.
  destruct (decide (Z.testbit readChannel (Z.of_nat c) = true)) as [Ht|Ht].
  2: { apply not_true_is_false in Ht. rewrite Ht. cbn [negb]. by apply IH. }
  rewrite Ht. cbn [negb]. rewrite bind_run.
  destruct (Hs c ltac:(by left)) as [Hcn Hne]. destruct (f c) as [|x rest] eqn:Hfc; [done|].
  destruct (ReadChannelData_frame data c p n f x rest Hp Hb Hcn Hfc) as (p1 & -> & Hb1 & Hp1). cbn [fst snd].
  specialize (IH (data ++ x) p1 _ Hp1 Hb1 Hnd).
  assert (∀ d, d ∈ filter (λ c, Z.testbit readChannel (Z.of_nat c) = true) cs → d ≠ c) as Hdc.
  { intros d [_ Hd]%list_elem_of_filter ->. done. }
  destruct (read_channels readChannel cs (data ++ x) p1) as [r p'].
  destruct IH as (-> & Hb' & IH).
  { intros d Hd. rewrite decide_False by (by apply Hdc). apply Hs. by right. }
  split_and!; [|done|].
  - cbn. rewrite Hfc. cbn. rewrite <- app_assoc. do 4 f_equal. apply list_fmap_ext. intros i d Hd%list_elem_of_lookup_2.
    rewrite decide_False by (by apply Hdc). done.
  - eapply sp_holds_ext; [|exact IH]. intros d Hd. cbn.
    destruct (decide (d ∈ filter _ cs)) as [Hin|Hin].
    + rewrite (decide_False (P := d = c)) by (by apply Hdc). rewrite decide_True by (by right). done.
    + destruct (decide (d = c)) as [->|Hne']; [rewrite decide_True by (by left); by rewrite Hfc|].
      rewrite decide_False by (by intros [?|?]%elem_of_cons). done.
Qed.

(** The channels of a mask below [2 ^ n] are below [n]. *)
Lemma selected_below readChannel n c :
  0 ≤ readChannel < 2 ^ Z.of_nat n → c ∈ selected readChannel [0; 1; 2; 3]%nat → (c < n)%nat.
Proof.
  intros Hr [Ht _]%list_elem_of_filter. destruct (decide (c < n)%nat) as [|Hge]; [done|]. exfalso.
  rewrite Z.bits_above_log2 in Ht; [done|lia|]. destruct (Z.eq_dec readChannel 0) as [->|Hz]; [rewrite Z.log2_nonpos; [|done]|].
  - rewrite Z.testbit_0_l in Ht. done.
  - apply Z.log2_lt_pow2; [lia|]. eapply Z.lt_le_trans; [apply Hr|]. apply Z.pow_le_mono_r; lia.
Qed.

(** A read of channels that hold nothing fails. *)
Lemma SP_Read_empty n readChannel p f :
  (n ≤ 4)%nat → 0 < readChannel < 2 ^ Z.of_nat n → sp_holds p n f → readBufferPCM p = false →
  (∀ c, c ∈ selected readChannel [0; 1; 2; 3]%nat → f c = []) → (SP_Read [] readChannel p).1.1 = -1.
Proof.
  intros Hn Hr Hp Hb Hf. unfold SP_Read. destruct (_ || _); [done|].
  assert (selected readChannel [0; 1; 2; 3]%nat ≠ []) as Hne.
  { intros Hs. assert (readChannel = 0); [|lia]. apply Z.bits_inj'. intros i Hi. rewrite Z.testbit_0_l.
    destruct (Z.testbit readChannel i) eqn:Ht; [|done]. exfalso.
    assert (Z.to_nat i ∈ selected readChannel [0; 1; 2; 3]%nat) as Hin; [|rewrite Hs in Hin; set_solver].
    apply list_elem_of_filter. rewrite Z2Nat.id by done. split; [done|].
    destruct (decide (i < 4)) as [Hi4|]; [|exfalso].
    - assert (i = 0 ∨ i = 1 ∨ i = 2 ∨ i = 3) as [-> | [-> | [-> | ->]]] by lia; set_solver.
    - rewrite Z.bits_above_log2 in Ht; [done|lia|]. apply Z.log2_lt_pow2; [lia|].
      eapply Z.lt_le_trans; [apply Hr|]. apply Z.pow_le_mono_r; lia. }
  assert (∀ c, c ∈ selected readChannel [0; 1; 2; 3]%nat → (c < n)%nat) as Hlt.
  { intros c Hc. apply (selected_below readChannel n c); [lia|done]. }
  unfold selected in *. revert Hne Hf Hlt. generalize [0; 1; 2; 3]%nat. intros cs. induction cs as [|c cs IH]; [done|].
  rewrite filter_cons. cbn [read_channels]. intros Hne Hf Hlt.
  destruct (decide (Z.testbit readChannel (Z.of_nat c) = true)) as [Ht|Ht%not_true_is_false]; rewrite Ht; cbn [negb].
  2: { by apply IH. }
  destruct (sh_queue _ _ _ Hp c (Hlt c ltac:(by left))) as (q & Hq & Ha & _ & _ & Hqf).
  rewrite bind_run. unfold ReadChannelData. rewrite bind_run. change ((st_get p).1) with p. change ((st_get p).2) with p.
  rewrite Hq, Hb. unfold PopUntilTimeout, Pop. by rewrite Ha, Hqf, Hf by (by left).
Qed.

(** Taking all frames of a channel, up to a number. *)
Lemma AddMultiFrame_run data c k p n f :
  sp_holds p n f → (c < n)%nat →
  ∃ p', AddMultiFrame data c k p =
          ((data ++ concat (take (Z.to_nat k) (f c)), Z.of_nat (length (take (Z.to_nat k) (f c)))), p') ∧
        sp_holds p' n (λ i, if decide (i = c) then drop (Z.to_nat k) (f c) else f i).
Proof.
  intros Hp Hc. destruct (sh_queue _ _ _ Hp c Hc) as (q & Hq & Ha & Hk & Hps & Hqf).
  exists (set_queue c (PopLen (Z.to_nat k) q).2 p).2. split.
  - unfold AddMultiFrame. rewrite bind_run. change ((st_get p).1) with p. change ((st_get p).2) with p.
    rewrite Hq. unfold PopLen. rewrite Ha. cbn [negb]. rewrite bind_run. cbn [default]. by rewrite Hqf.
  - unfold PopLen. rewrite Ha. cbn [negb snd]. apply sp_holds_set; [done|done|done|done|done|]. cbn. by rewrite Hqf.
Qed.

Lemma ReadBuffered_first c p n f :
  sp_holds p n f → readBufferPCM p = true → (c < n)%nat →
  ∃ p', ReadChannelData [] c p =
          (Some (concat (take 100 (f 0%nat)) ++
                 if (c =? 0)%nat then concat (take 100 (f 0%nat)) else concat (take (length (take 100 (f 0%nat))) (f c))), p') ∧
        readBufferPCM p' = false.
Proof.
  intros Hp Hb Hc. destruct (sh_queue _ _ _ Hp c Hc) as (q & Hq & _).
  unfold ReadChannelData. rewrite bind_run. change ((st_get p).1) with p. change ((st_get p).2) with p.
  rewrite Hq, Hb, bind_run. unfold ReadBufferedData. destruct (Nat.eqb_spec c 0) as [->|Hne]; cbn [negb].
  - destruct (AddMultiFrame_run [] 0 FRAME_CNT p n f Hp Hc) as (p' & E & _). rewrite !bind_run, !E. by eexists.
  - destruct (AddMultiFrame_run [] 0 FRAME_CNT p n f Hp ltac:(lia)) as (p1 & E1 & Hp1). rewrite !bind_run, !E1. cbn [fst snd].
    destruct (AddMultiFrame_run ([] ++ concat (take (Z.to_nat FRAME_CNT) (f 0%nat))) c
      (Z.of_nat (length (take (Z.to_nat FRAME_CNT) (f 0%nat)))) p1 n _ Hp1 Hc) as (p2 & E2 & _).
    rewrite !E2, decide_False, Nat2Z.id by done. by eexists.
Qed.

(** ** What the client reads *)

Definition write_rows (ws : list (list (list Z))) p : WakeupSourceProcess := foldl (λ p row, (SP_Write row p).2) p ws.
Fixpoint read_times (k : nat) (readChannel : Z) p : list (Z * list Z) * WakeupSourceProcess :=
  match k with
  | O => ([], p)
  | S k => let '(r, p1) := SP_Read [] readChannel p in let '(rs, p2) := read_times k readChannel p1 in (r :: rs, p2)
  end.

(** The frames of channel [c] in the rows [ws], and the data of a row a mask selects. *)
Definition column (ws : list (list (list Z))) (c : nat) : list (list Z) := (λ row, row !!! c) <$> ws.
Definition row_data (readChannel : Z) (row : list (list Z)) : list Z :=
  concat ((λ c, row !!! c) <$> selected readChannel [0; 1; 2; 3]%nat).
Definition good_rows (n : nat) (ws : list (list (list Z))) : Prop :=
  (n = 1%nat ∨ n = 4%nat) ∧ (length ws ≤ MAX_CAPACITY)%nat ∧ Forall (λ row, length row = n ∧ Forall (λ x, x ≠ []) row) ws.

Lemma write_rows_holds n ws ws0 p :
  n = 1%nat ∨ n = 4%nat → Forall (λ row, length row = n ∧ Forall (λ x, x ≠ []) row) ws →
  (length ws0 + length ws ≤ MAX_CAPACITY)%nat →
  sp_holds p n (column ws0) → sp_holds (write_rows ws p) n (column (ws0 ++ ws)).
Proof.
  intros Hn Hws. revert ws0 p. induction Hws as [|row ws [Hr Hne] _ IH]; intros ws0 p Hlen Hp; cbn in *.
  { by rewrite app_nil_r. }
  rewrite (cons_middle row ws0 ws), app_assoc. apply IH; [rewrite length_app; cbn; lia|].
  eapply sp_holds_ext; [|apply SP_Write_holds; [done|exact Hp|done|done|]].
  - intros i Hi. unfold column. by rewrite fmap_app.
  - intros i Hi. unfold column. rewrite length_fmap. lia.
Qed.

(** Writing does not touch the flag. *)
Lemma write_rows_flag ws p : readBufferPCM (write_rows ws p) = readBufferPCM p.
Proof.
  assert (∀ x c b, ⟪ λ p, readBufferPCM p = b ⟫ WriteChannelData x c ⟪ λ _ p, readBufferPCM p = b ⟫) as Hw.
  { intros x c b. unfold WriteChannelData. apply hoare_get_bind. intros q. by repeat case_match; intros ? ?. }
  assert (∀ row b, ⟪ λ p, readBufferPCM p = b ⟫ SP_Write row ⟪ λ _ p, readBufferPCM p = b ⟫) as Hr.
  { intros row b. unfold SP_Write. apply hoare_get_bind. intros q. cbv zeta. case_match; [by intros ? ?|].
    case_match; [apply Hw|]. case_match; [|by intros ? ?]. do 3 (apply hoare_seq; [apply Hw|intros _]). apply Hw. }
  revert p. induction ws as [|row ws IH]; intros p; [done|].
  change (readBufferPCM (write_rows ws (SP_Write row p).2) = readBufferPCM p). rewrite IH. by apply Hr.
Qed.

Lemma row_data_columns readChannel row ws :
  concat ((λ c, default [] (head (column (row :: ws) c))) <$> selected readChannel [0; 1; 2; 3]%nat) = row_data readChannel row.
Proof. done. Qed.

Lemma read_times_holds n readChannel ws p f :
  (n ≤ 4)%nat → 0 < readChannel < 2 ^ Z.of_nat n → sp_holds p n f → readBufferPCM p = false →
  (∀ c, c ∈ selected readChannel [0; 1; 2; 3]%nat → f c = column ws c) →
  let '(rs, p') := read_times (length ws) readChannel p in
  rs = (λ row, (0, row_data readChannel row)) <$> ws ∧ readBufferPCM p' = false ∧
  ∃ f', sp_holds p' n f' ∧ ∀ c, c ∈ selected readChannel [0; 1; 2; 3]%nat → f' c = [].
Proof.
  intros Hn Hr. revert p f. induction ws as [|row ws IH]; intros p f Hp Hb Hf; cbn [read_times length]; [by eauto|].
  assert (readChannel < 16) as H16.
  { eapply Z.lt_le_trans; [apply Hr|]. apply (Z.pow_le_mono_r 2 _ 4); lia. }
  unfold SP_Read. change (Z.shiftl 1 MAX_CHANNEL_CNT) with 16.
  rewrite (proj2 (Z.eqb_neq _ _)), (proj2 (Z.leb_gt _ _)) by lia. cbn [orb].
  pose proof (read_channels_holds readChannel [0; 1; 2; 3]%nat [] p n f Hp Hb) as H1.
  destruct (read_channels readChannel [0; 1; 2; 3]%nat [] p) as [r p1].
  destruct H1 as (-> & Hb1 & Hp1).
  { by repeat (constructor; [set_solver|]); constructor. }
  { intros c Hc. split; [apply (selected_below readChannel n c); [lia|done]|by rewrite Hf]. }
  pose proof (IH p1 _ Hp1 Hb1) as H2. cbn [length]. destruct (read_times (length ws) readChannel p1) as [rs p2].
  destruct H2 as (-> & Hb2 & Hp2); [intros c Hc; by rewrite decide_True, Hf|].
  split_and!; [|done|done]. cbn. f_equal. f_equal. unfold row_data. f_equal.
  apply list_fmap_ext. intros i c Hc%list_elem_of_lookup_2. by rewrite Hf.
Qed.

(** C35: The client reads the audio as it was written. After [Init] of a new source
    for one or four channels and [SetReadBufferFlag(false)], and after at most 500
    complete rows of frames, none of them empty, have been written and before more
    are, each [Read] of a set of channels returns the frames of the next row for these
    channels, one channel after the other, in the order of the writes and without
    loss; once they are used up, the next [Read] fails. Rows that are not complete,
    and the first read with the flag set, are in [channels_drift_apart] and
    [first_read_buffered]. *)
Theorem read_follows_writes n readChannel ws p0
    (Hfresh : channelCnt_ p0 = 0 ∧ bufferQueue_ p0 = []) (Hrows : good_rows n ws)
    (Hr : 0 < readChannel < 2 ^ Z.of_nat n) :
  let p := write_rows ws (SetReadBufferFlag false (SP_Init (Z.of_nat n) p0).2).2 in
  (read_times (length ws) readChannel p).1 = (λ row, (0, row_data readChannel row)) <$> ws ∧
  (SP_Read [] readChannel (read_times (length ws) readChannel p).2).1.1 = -1.
Proof.
  destruct Hfresh as [Hc0 Hq0]. destruct Hrows as (Hn & Hlen & Hws). cbv zeta.
  pose proof (SP_Init_holds p0 n Hc0 Hq0) as H0. apply (sp_holds_flag _ _ _ false) in H0.
  pose proof (write_rows_holds n ws [] _ Hn Hws Hlen H0) as Hp. cbn [app] in Hp.
  assert (readBufferPCM (write_rows ws (SetReadBufferFlag false (SP_Init (Z.of_nat n) p0).2).2) = false) as Hb
    by (by rewrite write_rows_flag).
  pose proof (read_times_holds n readChannel ws _ _ ltac:(lia) Hr Hp Hb ltac:(done)) as H1.
  destruct (read_times (length ws) readChannel _) as [rs p']. destruct H1 as (-> & Hb' & f & Hf & He).
  split; [done|]. exact (SP_Read_empty n readChannel p' f ltac:(lia) Hr Hf Hb' He).
Qed.

(** The first read with the flag set: of channel 0 alone, the frames buffered so far,
    at most 100, twice over; of another channel alone, these frames of channel 0 and as
    many of that channel. *)
Theorem first_read_buffered n c ws p0
    (Hfresh : channelCnt_ p0 = 0 ∧ bufferQueue_ p0 = []) (Hrows : good_rows n ws) (Hc : (c < n)%nat) :
  let p := write_rows ws (SetReadBufferFlag true (SP_Init (Z.of_nat n) p0).2).2 in
  let first i := concat (take 100 (column ws i)) in
  (SP_Read [] (2 ^ Z.of_nat c) p).1 = (0, first 0%nat ++ first c).
Proof.
  destruct Hfresh as [Hc0 Hq0]. destruct Hrows as (Hn & Hlen & Hws). cbv zeta.
  pose proof (SP_Init_holds p0 n Hc0 Hq0) as H0. apply (sp_holds_flag _ _ _ true) in H0.
  pose proof (write_rows_holds n ws [] _ Hn Hws Hlen H0) as Hp. cbn [app] in Hp.
  assert (readBufferPCM (write_rows ws (SetReadBufferFlag true (SP_Init (Z.of_nat n) p0).2).2) = true) as Hb
    by (by rewrite write_rows_flag).
  revert Hp Hb. generalize (write_rows ws (SetReadBufferFlag true (SP_Init (Z.of_nat n) p0).2).2). intros p Hp Hb.
  assert (c = 0 ∨ c = 1 ∨ c = 2 ∨ c = 3)%nat as Hcs by lia.
  assert (SP_Read [] (2 ^ Z.of_nat c) p =
          (r ← ReadChannelData [] c; match r with None => mret (-1, []) | Some data => mret (0, data) end) p) as ->.
  { by destruct Hcs as [-> | [-> | [-> | ->]]]. }
  destruct (ReadBuffered_first c p n (column ws) Hp Hb Hc) as (p' & E & _). rewrite bind_run, E. cbn [fst snd].
  destruct (Nat.eqb_spec c 0) as [->|_]; [done|]. cbn. f_equal. f_equal. f_equal.
  unfold column. rewrite length_take, !length_fmap.
  destruct (decide (length ws ≤ 100)%nat); [rewrite !take_ge by (rewrite ?length_fmap; lia); done|].
  by rewrite (Nat.min_l 100) by lia.
Qed.

(** One row of one channel, and one of four. *)
Lemma read_follows_writes_witness :
  (read_times 2 2 (write_rows [[[1]; [2]; [3]; [4]]; [[5]; [6]; [7]; [8]]]
     (SetReadBufferFlag false (SP_Init 4 new_sp).2).2)).1 = [(0, [2]); (0, [6])].
Proof.
  apply (read_follows_writes 4 2 [[[1]; [2]; [3]; [4]]; [[5]; [6]; [7]; [8]]] new_sp); [done| |done].
  split; [by right|]. split; [unfold MAX_CAPACITY; cbn; lia|]. by repeat constructor.
Defined.

Lemma first_read_buffered_witness :
  (SP_Read [] 2 (write_rows [[[1]; [2]; [3]; [4]]; [[5]; [6]; [7]; [8]]]
     (SetReadBufferFlag true (SP_Init 4 new_sp).2).2)).1 = (0, [1; 5; 2; 6]).
Proof.
  apply (first_read_buffered 4 1 [[[1]; [2]; [3]; [4]]; [[5]; [6]; [7]; [8]]] new_sp); [done| |lia].
  split; [by right|]. split; [unfold MAX_CAPACITY; cbn; lia|]. by repeat constructor.
Defined.

(** A frame that finds its queue full is dropped, in its own channel only: after 500
    rows and a read of channel 0, the next row is kept by channel 0 and dropped by the
    others, which stay one row apart from then on. *)
Example channels_drift_apart :
  let row k := [[k]; [k]; [k]; [k]] in
  let p := write_rows (row <$> seqZ 0 500) (SetReadBufferFlag false (SP_Init 4 new_sp).2).2 in
  let p' := (SP_Write (row 500) (SP_Read [] 1 p).2).2 in
  ((λ q, length (queue_ q)) <$> bufferQueue_ p', (λ q, last (queue_ q)) <$> bufferQueue_ p') =
  ([500; 500; 500; 500]%nat, [Some [500]; Some [499]; Some [499]; Some [499]]).
Proof. by vm_compute. Qed.
