(* ===== verification/UpdateController.v ===== *)
(** * Updates of the wakeup models

    [update/controller/update_engine_controller.cpp] and the strategies under
    [update/controller/strategy]: an update (cloning a phone's enrollment, a silent
    update after a version change, whisper) is run by an update engine, retried
    after thirty seconds when it fails, replaced by an update of higher priority,
    and reported to its requester.  The engine itself is behind the virtual members
    [CreateUpdateEngine] and [ReleaseUpdateEngine], the class [UpdateHost].  Each
    member takes [updateEngineMutex_] for its whole body, so it is one step. *)

From S2P Require Import Prelude TimerMgr StringUtil Settings EngineTypes.
Import TimerMgr.

(** [update_state.h]. *)
Definition UPDATE_DELAY_TIME_SECONDS : Z := 30.
Definition UPDATE_STATE_DEFAULT : Z := -1.
Definition UPDATE_STATE_COMPLETE_SUCCESS : Z := 0.
Definition UPDATE_STATE_COMPLETE_FAIL : Z := 1.
Definition UPDATE_STATE_CONCURRENT : Z := 2.
Definition UPDATE_PRIORITY_DEFAULT : Z := 0.
Definition CLONE_UPDATE_PRIORITY : Z := 2.
Definition SILENCE_UPDATE_PRIORITY : Z := 3.
Definition WHISPER_UPDATE_PRIORITY : Z := 4.
Definition SILENCE_UPDATE_RETRY_TIMES : Z := 5.
Definition WHISPER_UPDATE_RETRY_TIMES : Z := 5.
Definition MS_PER_S : Z := 1000.
Definition US_PER_MS : Z := 1000.

(** ** Strategies *)

(** [class IUpdateStrategy] and its subclasses; [param_] is the first field. *)
Inductive IUpdateStrategy :=
| CloneUpdateStrategy (param : str) (updateCallback_ : option nat)
| SilenceUpdateStrategy (param : str)
| WhisperUpdateStrategy (param : str).
#[global] Instance IUpdateStrategy_eq_dec : EqDecision IUpdateStrategy.
Proof. solve_decision. Defined.

Definition param_ (st : IUpdateStrategy) : str :=
  match st with
  | CloneUpdateStrategy p _ | SilenceUpdateStrategy p | WhisperUpdateStrategy p => p
  end.

Definition GetUpdatePriority (st : IUpdateStrategy) : Z :=
  match st with
  | CloneUpdateStrategy _ _ => CLONE_UPDATE_PRIORITY
  | SilenceUpdateStrategy _ => SILENCE_UPDATE_PRIORITY
  | WhisperUpdateStrategy _ => WHISPER_UPDATE_PRIORITY
  end.

Definition GetRetryTimes (st : IUpdateStrategy) : Z :=
  match st with
  | CloneUpdateStrategy _ _ => 0
  | SilenceUpdateStrategy _ => SILENCE_UPDATE_RETRY_TIMES
  | WhisperUpdateStrategy _ => WHISPER_UPDATE_RETRY_TIMES
  end.

(** The engine behind the controller: [CreateUpdateEngine] and [ReleaseUpdateEngine]
    as the engine manager overrides them, and [GetWakeupSourceFilesList]. *)
Class UpdateHost (Y T D : Type) := {
  CreateUpdateEngine : str → bool → St (Sys Y T D) bool;
  ReleaseUpdateEngine : St (Sys Y T D) unit;
  WakeupSourceFilesList : Y → Z * list str }.

Section strategies.
Context {X T D : Type} `{!KvStore D} {JL : JsonLib} {PL : Platform}.
Abbreviation M := (St (Sys X T D)).

(** [UpdateRestrain] of the three strategies, given the backup sources. *)
Definition UpdateRestrain (files : Z * list str) (st : IUpdateStrategy) (d : option D) : bool :=
  match st with
  | CloneUpdateStrategy _ _ =>
    let versionNumberSave := GetStringKVPair KEY_WAKEUP_VESRION d in
    negb (bool_decide (versionNumberSave = []))
  | SilenceUpdateStrategy _ => negb (IsVersionUpdate d version_line files.1 files.2)
  | WhisperUpdateStrategy _ => false
  end.

(** [CloneUpdateStrategy::GetBundleOrAbilityName]. *)
Definition GetBundleOrAbilityName (param key : str) : str :=
  match parseFromStream param with
  | None => []
  | Some root =>
    if negb (isMember root key) || negb (isString (member root key)) then []
    else asString (member root key)
  end.

(** [CloneUpdateStrategy::SetBundleAndAbilityName]. *)
Definition SetBundleAndAbilityName (param : str) : M unit :=
  let bundleName := GetBundleOrAbilityName param (lit "bundle_name") in
  _ ← st_when (negb (bool_decide (bundleName = [])))
        (on_settings (SetStringKVPair KEY_WAKEUP_ENGINE_BUNDLE_NAME bundleName));
  let abilityName := GetBundleOrAbilityName param (lit "ability_name") in
  st_when (negb (bool_decide (abilityName = [])))
    (on_settings (SetStringKVPair KEY_WAKEUP_ENGINE_ABILITY_NAME abilityName)).

(** [WhisperUpdateStrategy::NotifyUpdateFail]. *)
Definition NotifyUpdateFail : M unit := on_settings (SetStringKVPair KEY_WHISPER_VPR (lit "false")).

(** [OnUpdateCompleteCallback] of the three strategies. *)
Definition Clone_OnUpdateComplete (param : str) (updateCallback_ : option nat) (result : Z) : M unit :=
  match updateCallback_ with
  | None => mret ()
  | Some cb =>
    _ ← st_when (result =? UPDATE_STATE_COMPLETE_SUCCESS)
          (_ ← SetBundleAndAbilityName param;
           st_when (GetSupportAbility ABILITY_TSE) (emit OfflineAudioProcessed));
    emit (OnUpdateComplete cb result)
  end.

Definition Silence_OnUpdateComplete (result : Z) (isLast : bool) : M unit :=
  if negb isLast || (result =? 0) then
    st_when (GetSupportAbility ABILITY_TSE) (emit OfflineAudioProcessed)
  else if result =? UPDATE_STATE_CONCURRENT then mret ()
  else StartAbility "update_event".

Definition Whisper_OnUpdateComplete (result : Z) (isLast : bool) : M unit :=
  _ ← st_when (result =? 0) (on_settings (SetStringKVPair KEY_WHISPER_VPR (lit "true")));
  if negb isLast || (result =? 0) then mret () else NotifyUpdateFail.

Definition OnUpdateCompleteCallback (st : IUpdateStrategy) (result : Z) (isLast : bool) : M unit :=
  match st with
  | CloneUpdateStrategy param cb => Clone_OnUpdateComplete param cb result
  | SilenceUpdateStrategy _ => Silence_OnUpdateComplete result isLast
  | WhisperUpdateStrategy _ => Whisper_OnUpdateComplete result isLast
  end.
End strategies.

(** ** The controller *)

(** The members of [class UpdateEngineController] with its base [TimerMgr], and
    the state [rest] behind the virtual members. *)
Record Ctl (Y : Type) := mkCtl {
  timers : TimerMgr; isUpdating_ : bool; timerId_ : Z; retryTimes_ : Z; retryTimesLimit_ : Z;
  updateResult_ : Z; updateStrategy_ : option IUpdateStrategy; curPriority_ : Z;
  isForceReleased_ : bool; rest : Y }.
Arguments mkCtl {Y} _ _ _ _ _ _ _ _ _ _.
Arguments timers {Y} _.
Arguments isUpdating_ {Y} _.
Arguments timerId_ {Y} _.
Arguments retryTimes_ {Y} _.
Arguments retryTimesLimit_ {Y} _.
Arguments updateResult_ {Y} _.
Arguments updateStrategy_ {Y} _.
Arguments curPriority_ {Y} _.
Arguments isForceReleased_ {Y} _.
Arguments rest {Y} _.
#[global] Instance Ctl_eta Y : Eta (Ctl Y) :=
  λ c, mkCtl (timers c) (isUpdating_ c) (timerId_ c) (retryTimes_ c) (retryTimesLimit_ c)
         (updateResult_ c) (updateStrategy_ c) (curPriority_ c) (isForceReleased_ c) (rest c).
#[global] Instance rest_lens Y : Lens (Ctl Y) Y := {| view := rest; set := λ y c, c <| rest := y |> |}.
#[global] Instance rest_lens_laws Y : LensLaws (Ctl Y) Y.
Proof. constructor; [done|by intros []|done]. Qed.

(** The default member initialisers; the timer manager's table has ten entries. *)
Definition init_ctl {Y} (y : Y) : Ctl Y :=
  mkCtl (make 10) false INVALID_ID 0 0 UPDATE_STATE_DEFAULT None UPDATE_PRIORITY_DEFAULT false y.

(** The controller is the observer of its own timers. *)
Definition this_observer : option nat := Some 0%nat.

Section controller.
Context {Y T D : Type} `{!KvStore D} {JL : JsonLib} {PL : Platform} `{!UpdateHost Y T D}.
Abbreviation M := (St (Sys (Ctl Y) T D)).
Implicit Types s : Sys (Ctl Y) T D.

Definition on_timers {A} (m : St TimerMgr A) : M A := λ s,
  let '(a, t) := m (timers (own s)) in (a, s <| own ::= λ c, c <| timers := t |> |>).

Definition GetUpdateState : M bool := getc isUpdating_.
Definition SetUpdateState (state : bool) : M unit := modc (λ c, c <| isUpdating_ := state |>).

(** The current strategy's restraint. *)
Definition restrained (st : IUpdateStrategy) s : bool :=
  UpdateRestrain (WakeupSourceFilesList (rest (own s))) st (db s).

(** [OnTimerEvent]: the message reaches [HandleUpdateRetry], which adds a task. *)
Definition OnTimerEvent : M unit := AddAsyncTask THandleUpdateRetry false.

Definition ClearRetryState : M unit :=
  modc (λ c, c <| retryTimes_ := 0 |> <| updateResult_ := UPDATE_STATE_DEFAULT |>
               <| timerId_ := INVALID_ID |> <| updateStrategy_ := None |>
               <| retryTimesLimit_ := 0 |> <| curPriority_ := 0 |> <| isUpdating_ := false |>).

Definition StopTimers : M unit := modc (λ c, c <| timers ::= Stop |>).

Definition UpdateRetryProc : M bool :=
  forced ← getc isForceReleased_;
  if (forced : bool) then mret true else
  st ← getc updateStrategy_;
  s ← st_get;
  go ← match st with
       | Some st =>
         if restrained st s then
           _ ← modc (λ c, c <| updateResult_ := UPDATE_STATE_COMPLETE_SUCCESS |>); mret false
         else
           created ← zoom (CreateUpdateEngine (param_ st) false);
           if (created : bool) then _ ← modc (λ c, c <| timerId_ := INVALID_ID |>); mret true
           else _ ← modc (λ c, c <| updateResult_ := UPDATE_STATE_COMPLETE_FAIL |>); mret false
       | None => _ ← modc (λ c, c <| updateResult_ := UPDATE_STATE_COMPLETE_SUCCESS |>); mret false
       end;
  if (go : bool) then mret true else
  _ ← ClearRetryState;
  _ ← zoom ReleaseUpdateEngine;
  _ ← StopTimers;
  mret false.

Definition UpdateArbitration (priority : Z) : M Z :=
  updating ← GetUpdateState;
  if negb updating then mret 0 else
  cur ← getc curPriority_;
  if priority <? cur then mret (-1) else
  if cur =? priority then mret 0 else
  st ← getc updateStrategy_;
  _ ← match st with
      | Some st => OnUpdateCompleteCallback st UPDATE_STATE_CONCURRENT true
      | None => mret ()
      end;
  _ ← zoom ReleaseUpdateEngine;
  _ ← ClearRetryState;
  _ ← StopTimers;
  mret 0.

Definition CreateUpdateEngineUntilTime (updateStrategy : option IUpdateStrategy) (reEnroll : bool) : M Z :=
  match updateStrategy with
  | None => mret (-1)
  | Some st =>
    s ← st_get;
    if restrained st s then mret (-1) else
    ret ← UpdateArbitration (GetUpdatePriority st);
    if negb (ret =? 0) then mret (-1) else
    created ← zoom (CreateUpdateEngine (param_ st) reEnroll);
    if negb created then mret (-1) else
    _ ← modc (λ c, c <| retryTimesLimit_ := GetRetryTimes st |>);
    times ← getc retryTimes_;
    limit ← getc retryTimesLimit_;
    _ ← st_when (times <? limit) (modc (λ c, c <| timers ::= Start thread_ok None |>));
    _ ← modc (λ c, c <| updateStrategy_ := Some st |> <| curPriority_ := GetUpdatePriority st |>);
    _ ← SetUpdateState true;
    _ ← modc (λ c, c <| isForceReleased_ := false |>);
    mret 0
  end.

Definition StartUpdateTimer : M bool :=
  id ← getc timerId_;
  if negb (id =? INVALID_ID) then mret true else
  t ← st_gets now;
  id ← on_timers (SetTimer t 0 (UPDATE_DELAY_TIME_SECONDS * MS_PER_S * US_PER_MS) 0 this_observer);
  _ ← modc (λ c, c <| timerId_ := id |>);
  if id =? INVALID_ID then mret false else
  _ ← modc (λ c, c <| retryTimes_ ::= λ n, i32 (n + 1) |>);
  mret true.

Definition StopUpdateTimer : M unit :=
  id ← getc timerId_;
  if id =? INVALID_ID then mret () else
  id' ← on_timers (KillTimer id);
  modc (λ c, c <| timerId_ := id' |>).

Definition IsNeedRetryUpdate : M bool :=
  r ← getc updateResult_;
  if r =? UPDATE_STATE_COMPLETE_SUCCESS then mret false else
  times ← getc retryTimes_;
  limit ← getc retryTimesLimit_;
  if limit <=? times then mret false else
  st ← getc updateStrategy_;
  s ← st_get;
  match st with
  | None => mret false
  | Some st => mret (negb (restrained st s))
  end.

(** [UpdateCompleteProc]; the result is the output argument [isLast]. *)
Definition UpdateCompleteProc (result : Z) (param : str) : M bool :=
  forced ← getc isForceReleased_;
  if (forced : bool) then _ ← on_settings (DeleteKey [KEY_WAKEUP_VESRION]); mret false else
  st ← getc updateStrategy_;
  if negb (bool_decide (param_ <$> st = Some param)) then mret false else
  _ ← modc (λ c, c <| updateResult_ := result |>);
  _ ← StopUpdateTimer;
  need ← IsNeedRetryUpdate;
  retry ← (if (need : bool) then StartUpdateTimer else mret false);
  isLast ← (if (retry : bool) then mret false else
    st ← getc updateStrategy_;
    _ ← match st with
        | Some st => OnUpdateCompleteCallback st (if result =? UPDATE_STATE_COMPLETE_SUCCESS then 0 else 1) true
        | None => mret ()
        end;
    _ ← ClearRetryState;
    _ ← StopTimers;
    mret true);
  _ ← zoom ReleaseUpdateEngine;
  mret isLast.

Definition ForceRelease : M unit :=
  updating ← GetUpdateState;
  if negb updating then mret () else
  _ ← ClearRetryState;
  _ ← zoom ReleaseUpdateEngine;
  _ ← StopTimers;
  modc (λ c, c <| isForceReleased_ := true |>).

(** One iteration of the timer thread. *)
Definition TimerThread : M unit :=
  t ← st_gets now;
  o ← on_timers (Run_step t);
  match o with RunFire _ _ => OnTimerEvent | _ => mret () end.

(** ** Specification

    An update is either absent or active, with the retries it has left. *)
Inductive Phase := Idle | Active (st : IUpdateStrategy) (left : nat).

Inductive spec_step : Phase → Phase → Prop :=
| spec_start st : spec_step Idle (Active st (Z.to_nat (GetRetryTimes st)))
| spec_join st st' n :
    GetUpdatePriority st' = GetUpdatePriority st → spec_step (Active st n) (Active st' n)
| spec_replace st st' n :
    GetUpdatePriority st < GetUpdatePriority st' →
    spec_step (Active st n) (Active st' (Z.to_nat (GetRetryTimes st')))
| spec_retry st n : spec_step (Active st (S n)) (Active st n)
| spec_end st n : spec_step (Active st n) Idle.
Definition spec_or_stay (p q : Phase) : Prop := p = q ∨ spec_step p q.

(** The controller without the state behind its virtual members. *)
Definition core {Z'} (c : Ctl Z') : Ctl unit :=
  mkCtl (timers c) (isUpdating_ c) (timerId_ c) (retryTimes_ c) (retryTimesLimit_ c)
    (updateResult_ c) (updateStrategy_ c) (curPriority_ c) (isForceReleased_ c) ().

Definition phase (c : Ctl unit) : Phase :=
  match updateStrategy_ c with
  | None => Idle
  | Some st => Active st (Z.to_nat (retryTimesLimit_ c - retryTimes_ c))
  end.

(** The invariant of the members. *)
Record ctl_ok (c : Ctl unit) : Prop := {
  ok_timers : wf (timers c);
  ok_updating : isUpdating_ c = match updateStrategy_ c with Some _ => true | None => false end;
  ok_members :
    match updateStrategy_ c with
    | None => retryTimes_ c = 0 ∧ retryTimesLimit_ c = 0 ∧ curPriority_ c = 0 ∧ timerId_ c = INVALID_ID
    | Some st => retryTimesLimit_ c = GetRetryTimes st ∧ curPriority_ c = GetUpdatePriority st ∧
                 0 ≤ retryTimes_ c ≤ retryTimesLimit_ c
    end }.

(** The operations of the controller; [OpEnv] is anything else that happens in the
    system, which may change all but the controller's members. *)
Inductive Op :=
| OpRequest (st : option IUpdateStrategy) (reEnroll : bool)
| OpComplete (result : Z) (param : str)
| OpRetry
| OpTimer
| OpForce
| OpEnv (f : Sys (Ctl Y) T D → Sys (Ctl Y) T D).

Definition do_op (o : Op) s : Sys (Ctl Y) T D :=
  match o with
  | OpRequest st r => (CreateUpdateEngineUntilTime st r s).2
  | OpComplete r p => (UpdateCompleteProc r p s).2
  | OpRetry => (UpdateRetryProc s).2
  | OpTimer => (TimerThread s).2
  | OpForce => (ForceRelease s).2
  | OpEnv f => f s
  end.

Definition op_ok (o : Op) : Prop :=
  match o with OpEnv f => ∀ s, core (own (f s)) = core (own s) | _ => True end.

(** A completion that is taken for the current update. *)
Definition accepted (o : Op) s : bool :=
  match o with
  | OpComplete _ p => negb (isForceReleased_ (own s)) && bool_decide (param_ <$> updateStrategy_ (own s) = Some p)
  | _ => false
  end.

Definition is_request (o : Op) : bool := match o with OpRequest _ _ => true | _ => false end.

(** The accepted completions of a run, and how many a phase allows. *)
Fixpoint accepted_count (ops : list Op) s : nat :=
  match ops with
  | [] => 0
  | o :: ops => (if accepted o s then 1 else 0) + accepted_count ops (do_op o s)
  end.
Definition budget (p : Phase) : nat := match p with Idle => 0 | Active _ n => S n end.

(** An attempt that fails: the engine's completion, thirty seconds later the timer
    thread, and the retry it asked for, if it did. *)
Definition retry_due s : bool :=
  match (Run_step (now s) (timers (own s))).1 with RunFire _ _ => true | _ => false end.
Definition fail_round (p : str) s : bool * Sys (Ctl Y) T D :=
  let r := UpdateCompleteProc UPDATE_STATE_COMPLETE_FAIL p s in
  let s1 := r.2 <| now ::= Z.add (UPDATE_DELAY_TIME_SECONDS * MS_PER_S * US_PER_MS) |> in
  (r.1, if retry_due s1 then (UpdateRetryProc (TimerThread s1).2).2 else (TimerThread s1).2).
Fixpoint fail_rounds (n : nat) (p : str) s : list bool * Sys (Ctl Y) T D :=
  match n with
  | O => ([], s)
  | S n => let r := fail_round p s in let r' := fail_rounds n p r.2 in (r.1 :: r'.1, r'.2)
  end.

(** * Lemmas *)

(** ** What each part leaves alone *)

Lemma core_zoom {A} (m : St (Sys Y T D) A) s : core (own (zoom m s).2) = core (own s).
Proof. rewrite zoom_run. by destruct s as [[]]. Qed.

Lemma emit_own o s : own (emit o s).2 = own s.
Proof. done. Qed.

Lemma settings_own {A} (m : St (option D) A) s : own (on_settings m s).2 = own s.
Proof. by rewrite on_settings_run. Qed.

Definition keeps_own {A} (m : M A) : Prop :=
  ∀ c t, ⟪ λ s, own s = c ∧ trig s = t ⟫ m ⟪ λ _ s, own s = c ∧ trig s = t ⟫.

Lemma keeps_own_run {A} (m : M A) s : keeps_own m → own (m s).2 = own s ∧ trig (m s).2 = trig s.
Proof. intros Hm. by apply (Hm (own s) (trig s)). Qed.

Lemma emit_keeps o : keeps_own (emit o).
Proof. by intros c t s [<- <-]. Qed.
Lemma settings_keeps {A} (m : St (option D) A) : keeps_own (on_settings m).
Proof. intros c t s [<- <-]. by rewrite on_settings_run. Qed.

Lemma callback_keeps st r l : keeps_own (OnUpdateCompleteCallback st r l).
Proof.
  intros c t. destruct st; unfold OnUpdateCompleteCallback, Clone_OnUpdateComplete,
    Silence_OnUpdateComplete, Whisper_OnUpdateComplete, NotifyUpdateFail, SetBundleAndAbilityName,
    StartAbility; keeps; first [apply emit_keeps | apply settings_keeps].
Qed.

Lemma callback_own st r l s : own (OnUpdateCompleteCallback st r l s).2 = own s.
Proof. apply keeps_own_run. apply callback_keeps. Qed.

Lemma on_timers_run {A} (m : St TimerMgr A) s :
  on_timers m s = ((m (timers (own s))).1, s <| own ::= λ c, c <| timers := (m (timers (own s))).2 |> |>).
Proof. unfold on_timers. by destruct (m _). Qed.

(** ** What the virtual members keep, the controller keeps *)

Section rest_invariant.
Context (P : Y → T → Prop).
Context (Hcreate : ∀ p r, ⟪ λ s : Sys Y T D, P (own s) (trig s) ⟫ CreateUpdateEngine p r ⟪ λ _ (s : Sys Y T D), P (own s) (trig s) ⟫).
Context (Hrelease : ⟪ λ s : Sys Y T D, P (own s) (trig s) ⟫ ReleaseUpdateEngine ⟪ λ _ (s : Sys Y T D), P (own s) (trig s) ⟫).
Abbreviation keeps_rest m := (⟪ λ s, P (rest (own s)) (trig s) ⟫ m ⟪ λ _ s, P (rest (own s)) (trig s) ⟫) (only parsing).

Lemma rest_own {A} (m : M A) : keeps_own m → keeps_rest m.
Proof. intros Hm s Hs. destruct (keeps_own_run _ s Hm) as [-> ->]. done. Qed.
Lemma rest_modc f : (∀ c, rest (f c) = rest c) → keeps_rest (modc f).
Proof. intros Hf s Hs. cbn. by rewrite Hf. Qed.
Lemma rest_timers {A} (m : St TimerMgr A) : keeps_rest (on_timers m).
Proof. intros s Hs. by rewrite on_timers_run. Qed.
Lemma rest_create p r : keeps_rest (zoom (CreateUpdateEngine p r)).
Proof. intros s Hs. exact (hoare_zoom (L := rest_lens Y) _ _ _ (Hcreate p r) s Hs). Qed.
Lemma rest_release : keeps_rest (zoom ReleaseUpdateEngine).
Proof. intros s Hs. exact (hoare_zoom (L := rest_lens Y) _ _ _ Hrelease s Hs). Qed.
Lemma rest_callback st r l : keeps_rest (OnUpdateCompleteCallback st r l).
Proof. apply rest_own, callback_keeps. Qed.
Lemma rest_settings {A} (m : St (option D) A) : keeps_rest (on_settings m).
Proof. apply rest_own, settings_keeps. Qed.
Lemma rest_getc {A} (f : Ctl Y → A) : keeps_rest (getc f).
Proof. by intros s Hs. Qed.
Lemma rest_task t b : keeps_rest (AddAsyncTask t b).
Proof. intros s Hs. cbn. by destruct (_ || _). Qed.
Hint Resolve rest_timers rest_create rest_release rest_callback rest_settings rest_getc rest_task : ivoice.
Hint Extern 1 (hoare _ (modc _) _) => (apply rest_modc; by intros []) : ivoice.

Lemma rest_do_op o :
  match o with OpEnv _ => True | _ => ∀ s, P (rest (own s)) (trig s) → P (rest (own (do_op o s))) (trig (do_op o s)) end.
Proof.
  destruct o; cbn [do_op]; try done; intros s; revert s.
  - change (keeps_rest (CreateUpdateEngineUntilTime st reEnroll)).
    unfold CreateUpdateEngineUntilTime, UpdateArbitration, GetUpdateState, SetUpdateState, ClearRetryState, StopTimers. keeps.
  - change (keeps_rest (UpdateCompleteProc result param)).
    unfold UpdateCompleteProc, StopUpdateTimer, IsNeedRetryUpdate, StartUpdateTimer, ClearRetryState, StopTimers. keeps.
  - change (keeps_rest UpdateRetryProc). unfold UpdateRetryProc, ClearRetryState, StopTimers. keeps.
  - change (keeps_rest TimerThread). unfold TimerThread, OnTimerEvent. keeps.
  - change (keeps_rest ForceRelease). unfold ForceRelease, GetUpdateState, ClearRetryState, StopTimers. keeps.
Qed.
End rest_invariant.

(** ** The members after each operation *)

(** The members once the retry state is cleared and the timers are stopped. *)
Definition cleared (c : Ctl unit) : Ctl unit :=
  mkCtl (timers c) false INVALID_ID 0 0 UPDATE_STATE_DEFAULT None 0 (isForceReleased_ c) ().
Definition stopped (c : Ctl unit) : Ctl unit := c <| timers ::= Stop |>.

Lemma Clear_core s : core (own (ClearRetryState s).2) = cleared (core (own s)).
Proof. by destruct s as [[]]. Qed.
Lemma StopTimers_core s : core (own (StopTimers s).2) = stopped (core (own s)).
Proof. by destruct s as [[]]. Qed.

Lemma idle_ok c : ctl_ok c → ctl_ok (stopped (cleared c)) ∧ phase (stopped (cleared c)) = Idle.
Proof. intros Hc. split; [|done]. split; [apply Stop_wf, Hc|done|by cbn]. Qed.

Lemma to_idle c : spec_or_stay (phase c) Idle.
Proof. unfold phase. destruct (updateStrategy_ c); [right; constructor|by left]. Qed.

(** Ending an update, in the order the code does it. *)
Lemma end_update s :
  core (own (StopTimers (zoom ReleaseUpdateEngine (ClearRetryState s).2).2).2) =
  stopped (cleared (core (own s))).
Proof. by rewrite StopTimers_core, core_zoom, Clear_core. Qed.

Lemma ForceRelease_core s :
  core (own (ForceRelease s).2) =
  if isUpdating_ (own s) then (stopped (cleared (core (own s)))) <| isForceReleased_ := true |>
  else core (own s).
Proof.
  unfold ForceRelease, GetUpdateState, getc. rewrite bind_run. cbn [fst snd st_gets].
  destruct (isUpdating_ (own s)); [|done]. cbn [negb]. rewrite !bind_run.
  rewrite <- (end_update s). by destruct (StopTimers _).2 as [[]].
Qed.

Lemma UpdateRetryProc_core s :
  let c := core (own s) in let c' := core (own (UpdateRetryProc s).2) in
  c' = c ∨ c' = c <| timerId_ := INVALID_ID |> ∨ c' = stopped (cleared c).
Proof.
  cbv zeta. unfold UpdateRetryProc, getc. rewrite bind_run. cbn [fst snd st_gets].
  destruct (isForceReleased_ (own s)); [by left|]. rewrite !bind_run. cbn [fst snd st_gets st_get].
  destruct (updateStrategy_ (own s)) as [st|] eqn:Hst.
  - destruct (restrained st s).
    + right; right. run. rewrite end_update. by destruct s as [[]].
    + rewrite !bind_run. pose proof (core_zoom (CreateUpdateEngine (param_ st) false) s) as Hz.
      destruct (zoom _ s) as [[] s1]; cbn [fst snd] in *; run.
      * right; left. rewrite <- Hz. by destruct s1 as [[]].
      * right; right. rewrite end_update, <- Hz. by destruct s1 as [[]].
  - right; right. run. rewrite end_update. by destruct s as [[]].
Qed.

(** Stopping the retry timer forgets its id. *)
Lemma StopUpdateTimer_core s :
  ∃ t, core (own (StopUpdateTimer s).2) = (core (own s)) <| timers := t |> <| timerId_ := INVALID_ID |> ∧
       (wf (timers (own s)) → wf t).
Proof.
  unfold StopUpdateTimer, getc. rewrite bind_run. cbn [fst snd st_gets].
  destruct (Z.eqb_spec (timerId_ (own s)) INVALID_ID) as [Hid|Hid].
  - exists (timers (own s)). split; [|done]. destruct s as [[]]; cbn in *. by subst.
  - rewrite bind_run, on_timers_run. exists (KillTimer (timerId_ (own s)) (timers (own s))).2.
    split; [|by apply KillTimer_wf]. cbn [fst snd].
    assert ((KillTimer (timerId_ (own s)) (timers (own s))).1 = INVALID_ID) as ->
      by (unfold KillTimer; by destruct (kill_loop _ _)).
    by destruct s as [[]].
Qed.

(** Starting it counts a retry, unless the timer manager refuses. *)
Lemma StartUpdateTimer_core s :
  timerId_ (own s) = INVALID_ID →
  ∃ t id, (wf (timers (own s)) → wf t) ∧
    (((StartUpdateTimer s).1 = true ∧ core (own (StartUpdateTimer s).2) =
        (core (own s)) <| timers := t |> <| timerId_ := id |> <| retryTimes_ ::= λ n, i32 (n + 1) |>) ∨
     ((StartUpdateTimer s).1 = false ∧
        core (own (StartUpdateTimer s).2) = (core (own s)) <| timers := t |> <| timerId_ := id |>)).
Proof.
  intros Hid. unfold StartUpdateTimer, getc. rewrite bind_run. cbn [fst snd st_gets].
  rewrite Hid, Z.eqb_refl. cbn [negb]. run. rewrite on_timers_run. cbn [fst snd].
  set (r := SetTimer _ _ _ _ _ _). exists r.2, r.1. split; [intros; by apply SetTimer_wf|].
  destruct (r.1 =? INVALID_ID); [right|left]; (split; [done|]); by destruct s as [[]].
Qed.

Lemma IsNeedRetryUpdate_true s :
  (IsNeedRetryUpdate s).2 = s ∧
  ((IsNeedRetryUpdate s).1 = true →
   updateResult_ (own s) ≠ UPDATE_STATE_COMPLETE_SUCCESS ∧ retryTimes_ (own s) < retryTimesLimit_ (own s)).
Proof.
  unfold IsNeedRetryUpdate, getc. run.
  destruct (Z.eqb_spec (updateResult_ (own s)) UPDATE_STATE_COMPLETE_SUCCESS); [done|]. run.
  destruct (Z.leb_spec (retryTimesLimit_ (own s)) (retryTimes_ (own s))); [done|]. run.
  by destruct (updateStrategy_ (own s)).
Qed.

(** The end of an accepted completion that is not retried. *)
Lemma finish_core st r s :
  core (own (zoom ReleaseUpdateEngine
    (StopTimers (ClearRetryState (OnUpdateCompleteCallback st r true s).2).2).2).2) =
  stopped (cleared (core (own s))).
Proof. by rewrite core_zoom, StopTimers_core, Clear_core, callback_own. Qed.

Lemma UpdateCompleteProc_refused r p s :
  accepted (OpComplete r p) s = false →
  (UpdateCompleteProc r p s).1 = false ∧ core (own (UpdateCompleteProc r p s).2) = core (own s).
Proof.
  unfold accepted, UpdateCompleteProc, getc. rewrite bind_run. cbn [fst snd st_gets].
  destruct (isForceReleased_ (own s)); cbn [negb andb].
  - intros _. run. by rewrite on_settings_run.
  - intros Hp. run. by rewrite Hp.
Qed.

Lemma UpdateCompleteProc_core r p s st :
  isForceReleased_ (own s) = false → updateStrategy_ (own s) = Some st → param_ st = p →
  ∃ t, (wf (timers (own s)) → wf t) ∧
    (((UpdateCompleteProc r p s).1 = false ∧ r ≠ UPDATE_STATE_COMPLETE_SUCCESS ∧
      retryTimes_ (own s) < retryTimesLimit_ (own s) ∧
      ∃ id, core (own (UpdateCompleteProc r p s).2) =
        (core (own s)) <| timers := t |> <| updateResult_ := r |> <| timerId_ := id |>
                       <| retryTimes_ ::= λ n, i32 (n + 1) |>) ∨
     ((UpdateCompleteProc r p s).1 = true ∧
      core (own (UpdateCompleteProc r p s).2) = stopped (cleared ((core (own s)) <| timers := t |>)))).
Proof.
  intros Hf Hst Hp. unfold UpdateCompleteProc, getc. rewrite bind_run. cbn [fst snd st_gets].
  rewrite Hf, bind_run. cbn [fst snd st_gets]. rewrite Hst, bool_decide_true by (by cbn; f_equal).
  cbn [negb]. rewrite !(bind_run (modc _)), (bind_run StopUpdateTimer).
  set (s1 := (modc _ s).2). destruct (StopUpdateTimer_core s1) as (t & Ht & Hwf).
  set (s2 := (StopUpdateTimer s1).2) in *. rewrite bind_run.
  destruct (IsNeedRetryUpdate_true s2) as [Hsame Hneed]. rewrite Hsame.
  assert (Hs2 : core (own s2) = (core (own s)) <| timers := t |> <| updateResult_ := r |> <| timerId_ := INVALID_ID |>)
    by (rewrite Ht; by destruct s as [[]]).
  assert (timerId_ (own s2) = INVALID_ID ∧ timers (own s2) = t ∧ retryTimes_ (own s2) = retryTimes_ (own s) ∧
    retryTimesLimit_ (own s2) = retryTimesLimit_ (own s) ∧ updateResult_ (own s2) = r ∧
    updateStrategy_ (own s2) = Some st) as (Hid & Htm & Htimes & Hlim & Hres & Hst2).
  { destruct s as [[]], s2 as [[]]; cbn in *; injection Hs2; intros; by subst. }
  rewrite Htimes, Hlim, Hres in Hneed.
  destruct (IsNeedRetryUpdate s2).1; rewrite bind_run.
  - destruct (StartUpdateTimer_core s2 Hid) as (t' & id & Hwf' & [[-> Hc]|[-> Hc]]).
    + destruct Hneed as [Hr Hlt]; [done|]. exists t'. split; [rewrite Htm in Hwf'; auto|]. left. run. split_and!; [done..|].
      exists id. rewrite core_zoom, Hc, Hs2. by destruct s as [[]].
    + exists t'. split; [rewrite Htm in Hwf'; auto|]. right. run. split; [done|].
      assert (updateStrategy_ (own (StartUpdateTimer s2).2) = Some st) as ->
        by (rewrite Hs2 in Hc; destruct s as [[]], (StartUpdateTimer s2).2 as [[]]; cbn in *; injection Hc; congruence).
      unfold getc. run. rewrite finish_core, Hc, Hs2. by destruct s as [[]].
  - exists t. split; [auto|]. right. unfold getc. run. split; [done|]. rewrite Hst2, finish_core, Hs2. by destruct s as [[]].
Qed.

Lemma UpdateArbitration_core priority s :
  let c := core (own s) in let r := UpdateArbitration priority s in
  (r.1 = 0 ∧ core (own r.2) = c ∧ (isUpdating_ c = true → curPriority_ c = priority)) ∨
  (r.1 = -1 ∧ core (own r.2) = c ∧ isUpdating_ c = true ∧ priority < curPriority_ c) ∨
  (r.1 = 0 ∧ core (own r.2) = stopped (cleared c) ∧ isUpdating_ c = true ∧ curPriority_ c < priority).
Proof.
  cbv zeta. unfold UpdateArbitration, GetUpdateState, getc. rewrite bind_run. cbn [fst snd st_gets].
  cbn [core isUpdating_ curPriority_]. destruct (isUpdating_ (own s)); cbn [negb]; [|left; run; by split_and!].
  rewrite bind_run. cbn [fst snd st_gets].
  destruct (Z.ltb_spec priority (curPriority_ (own s))); [right; left; by run|].
  destruct (Z.eqb_spec (curPriority_ (own s)) priority); [left; by run|]. right; right.
  run. split_and!; [done| |done|lia]. rewrite StopTimers_core, Clear_core, core_zoom.
  destruct (updateStrategy_ (own s)); [by rewrite callback_own|by run].
Qed.

(** The members once a request has been accepted. *)
Definition started (st : IUpdateStrategy) (c : Ctl unit) : Ctl unit :=
  mkCtl (if retryTimes_ c <? GetRetryTimes st then Start thread_ok None (timers c) else timers c)
    true (timerId_ c) (retryTimes_ c) (GetRetryTimes st) (updateResult_ c) (Some st)
    (GetUpdatePriority st) false ().

Lemma request_core st re s :
  let c := core (own s) in let r := CreateUpdateEngineUntilTime (Some st) re s in
  (r.1 = -1 ∧ (core (own r.2) = c ∨ core (own r.2) = stopped (cleared c))) ∨
  (r.1 = 0 ∧ ∃ c0, core (own r.2) = started st c0 ∧
     ((c0 = c ∧ (isUpdating_ c = true → curPriority_ c = GetUpdatePriority st)) ∨
      (c0 = stopped (cleared c) ∧ isUpdating_ c = true ∧ curPriority_ c < GetUpdatePriority st))).
Proof.
  cbv zeta. unfold CreateUpdateEngineUntilTime. rewrite bind_run. cbn [fst snd st_get].
  destruct (restrained st s); [left; run; auto|]. rewrite bind_run.
  pose proof (UpdateArbitration_core (GetUpdatePriority st) s) as Harb. cbv zeta in Harb.
  destruct (UpdateArbitration _ s) as [ret s1]. cbn [fst snd] in *.
  assert (ret = 0 ∨ ret = -1) as Hret by intuition. destruct (Z.eqb_spec ret 0) as [Hz0|Hz0]; cbn [negb].
  2: { left. run. split; [done|]. left. destruct Harb as [(? & ?)|[(? & Hc & _)|(? & _)]]; [lia|done|lia]. }
  rewrite bind_run. pose proof (core_zoom (CreateUpdateEngine (param_ st) re) s1) as Hz.
  destruct (zoom _ s1) as [created s2]. cbn [fst snd] in *. rewrite <- Hz in Harb.
  destruct created; cbn [negb].
  - right. unfold getc, SetUpdateState. run. split; [done|]. exists (core (own s2)). split.
    + destruct s2 as [[]]. unfold started. cbn. by destruct (_ <? _).
    + destruct Harb as [(_ & ? & ?)|[(? & _)|(_ & ? & ?)]]; [left; auto|lia|right; auto].
  - left. run. split; [done|]. destruct Harb as [(_ & ? & ?)|[(? & _)|(_ & ? & ?)]]; [by left|lia|by right].
Qed.

Lemma request_ok st re s :
  ctl_ok (core (own s)) →
  let c' := core (own (CreateUpdateEngineUntilTime st re s).2) in
  ctl_ok c' ∧ spec_or_stay (phase (core (own s))) (phase c').
Proof.
  intros Hok. cbv zeta. destruct st as [st|]; [|split; [done|by left]].
  destruct (request_core st re s) as [(_ & [->| ->])|(_ & c0 & -> & Hc0)]; cbv zeta in *.
  - split; [done|by left].
  - destruct (idle_ok _ Hok) as [? ->]. split; [done|apply to_idle].
  - assert (ctl_ok c0) as Hok0 by (destruct Hc0 as [[-> _]|[-> _]]; [done|by apply idle_ok]).
    assert (0 ≤ GetRetryTimes st) by (by destruct st).
    destruct Hc0 as [[-> Hpri]|(-> & Hup & Hlt)].
    + destruct Hok as [Hwf Hu Hm]. destruct (core (own s)) as [t up id n lim res str pri f u]; cbn in *.
      destruct str as [st'|]; cbn in *; subst up.
      * destruct Hm as (-> & -> & ? & ?). specialize (Hpri eq_refl).
        assert (GetRetryTimes st = GetRetryTimes st') as Hr by (by destruct st, st').
        split; [split; cbn; [destruct (_ <? _); [by apply Start_wf|done]|done|rewrite Hr; by split_and!]|].
        right. unfold phase; cbn. rewrite Hr. by constructor.
      * destruct Hm as (-> & -> & -> & ->).
        split; [split; cbn; [destruct (_ <? _); [by apply Start_wf|done]|done|by split_and!]|].
        right. unfold phase; cbn. rewrite Z.sub_0_r. constructor.
    + destruct Hok as [Hwf Hu Hm]. destruct (core (own s)) as [t up id n lim res str pri f u]; cbn in *.
      destruct str as [st'|]; cbn in *; subst up; [|done]. destruct Hm as (-> & -> & ? & ?).
      split; [split; cbn; [destruct (_ <? _); [by apply Start_wf, Stop_wf|by apply Stop_wf]|done|by split_and!]|].
      right. unfold phase; cbn. rewrite Z.sub_0_r. by constructor.
Qed.

Lemma complete_ok r p s :
  ctl_ok (core (own s)) →
  let c' := core (own (UpdateCompleteProc r p s).2) in
  ctl_ok c' ∧ spec_or_stay (phase (core (own s))) (phase c').
Proof.
  intros Hok. cbv zeta. destruct (accepted (OpComplete r p) s) eqn:Hacc.
  2: { destruct (UpdateCompleteProc_refused _ _ _ Hacc) as [_ ->]. split; [done|by left]. }
  apply andb_prop in Hacc as [Hf Hp]. apply negb_true_iff in Hf. apply bool_decide_eq_true in Hp.
  apply fmap_Some in Hp as (st & Hst & ->).
  destruct (UpdateCompleteProc_core r (param_ st) s st Hf Hst eq_refl) as (t & Hwf & Hcase).
  destruct Hcase as [(_ & _ & Hlt & id & ->)|(_ & ->)].
  - destruct Hok as [Hw Hu Hm]. destruct s as [[] ? ? ? ? ?]; cbn in *. subst. destruct Hm as (-> & -> & ? & ?).
    assert (GetRetryTimes st ≤ 5) by (by destruct st). rewrite i32_small by lia.
    split; [split; cbn; [auto|done|split_and!; [done|done|lia|lia]]|]. right. unfold phase; cbn.
    replace (Z.to_nat (GetRetryTimes st - retryTimes_0)) with (S (Z.to_nat (GetRetryTimes st - (retryTimes_0 + 1)))) by lia.
    constructor.
  - split; [|apply to_idle]. apply idle_ok. destruct Hok as [Hw Hu Hm]. split; cbn; auto.
Qed.

Lemma TimerThread_core s :
  core (own (TimerThread s).2) = (core (own s)) <| timers := (Run_step (now s) (timers (own s))).2 |>.
Proof.
  unfold TimerThread. rewrite !bind_run. cbn [fst snd st_gets]. rewrite on_timers_run.
  destruct (Run_step _ _) as [[] t]; cbn [fst snd]; try (by destruct s as [[]]).
  unfold OnTimerEvent, AddAsyncTask. cbn. destruct (_ <? _); by destruct s as [[]].
Qed.

Lemma do_op_ok o s :
  ctl_ok (core (own s)) → op_ok o →
  ctl_ok (core (own (do_op o s))) ∧ spec_or_stay (phase (core (own s))) (phase (core (own (do_op o s)))).
Proof.
  intros Hok Ho. destruct o as [st re|r p| | | |f]; cbn [do_op].
  - by apply request_ok.
  - by apply complete_ok.
  - destruct (UpdateRetryProc_core s) as [->|[->| ->]].
    + split; [done|by left].
    + split; [|by left]. destruct Hok as [? ? Hm]. split; [done..|]. cbn in *. by destruct (updateStrategy_ _); intuition.
    + destruct (idle_ok _ Hok) as [? ->]. split; [done|apply to_idle].
  - rewrite TimerThread_core.
    split; [|by left]. destruct Hok. split; [by apply Run_step_wf|done..].
  - rewrite ForceRelease_core. destruct (isUpdating_ (own s)); [|split; [done|by left]].
    destruct (idle_ok _ Hok) as [[] Hid]. split; [by split|]. apply to_idle.
  - rewrite Ho. split; [done|by left].
Qed.

(** ** Attempts *)

Lemma op_budget o s :
  ctl_ok (core (own s)) → op_ok o → is_request o = false →
  ((if accepted o s then 1 else 0) + budget (phase (core (own (do_op o s)))) ≤ budget (phase (core (own s))))%nat.
Proof.
  intros Hok Ho Hr. destruct o as [st re|r p| | | |f]; cbn [do_op accepted]; try done.
  - fold (accepted (OpComplete r p) s). destruct (accepted (OpComplete r p) s) eqn:Hacc.
    2: { destruct (UpdateCompleteProc_refused _ _ _ Hacc) as [_ ->]. lia. }
    apply andb_prop in Hacc as [Hf Hp]. apply negb_true_iff in Hf. apply bool_decide_eq_true in Hp.
    apply fmap_Some in Hp as (st & Hst & ->).
    assert (budget (phase (core (own s))) = S (Z.to_nat (retryTimesLimit_ (own s) - retryTimes_ (own s)))) as ->
      by (unfold phase; cbn; by rewrite Hst).
    destruct (UpdateCompleteProc_core r (param_ st) s st Hf Hst eq_refl) as (t & _ & [(_ & _ & Hlt & id & ->)|(_ & ->)]).
    + unfold phase; cbn. rewrite Hst. cbn. pose proof (ok_members _ Hok) as Hm. cbn in Hm. rewrite Hst in Hm.
      destruct Hm as (Hl & _ & ?). assert (GetRetryTimes st ≤ 5) by (by destruct st). rewrite i32_small by lia. lia.
    + cbn. lia.
  - destruct (UpdateRetryProc_core s) as [->|[->| ->]]; cbn; [lia|unfold phase; cbn; lia|lia].
  - rewrite TimerThread_core. unfold phase; cbn. lia.
  - rewrite ForceRelease_core. destruct (isUpdating_ (own s)); cbn; lia.
  - rewrite Ho. lia.
Qed.

Lemma accepted_within ops s :
  ctl_ok (core (own s)) → Forall op_ok ops → Forall (λ o, is_request o = false) ops →
  (accepted_count ops s ≤ budget (phase (core (own s))))%nat.
Proof.
  revert s. induction ops as [|o ops IH]; intros s Hok Hops Hreq; [cbn; lia|].
  apply Forall_cons in Hops as [Ho Hops]. apply Forall_cons in Hreq as [Hr Hreq]. cbn [accepted_count].
  specialize (IH (do_op o s) (proj1 (do_op_ok o s Hok Ho)) Hops Hreq).
  pose proof (op_budget o s Hok Ho Hr). lia.
Qed.

Lemma budget_bound c : ctl_ok c → (budget (phase c) ≤ 6)%nat.
Proof.
  intros [_ _ Hm]. unfold phase. destruct (updateStrategy_ c) as [st|]; cbn; [|lia].
  destruct Hm as (Hl & _ & ?). assert (GetRetryTimes st ≤ 5) by (by destruct st). lia.
Qed.

Lemma run_ok ops s :
  ctl_ok (core (own s)) → Forall op_ok ops → ctl_ok (core (own (foldl (λ s o, do_op o s) s ops))).
Proof.
  revert s. induction ops as [|o ops IH]; intros s Hok Hops; [done|].
  apply Forall_cons in Hops as [Ho Hops]. apply IH; [|done]. by apply do_op_ok.
Qed.

Lemma init_ok (y : Y) : ctl_ok (core (init_ctl y)).
Proof. split; [by apply make_wf|done|by cbn]. Qed.

(** ** An update that keeps failing *)

(** The timer manager runs, with no timer armed and its first id free. *)
Definition timers_ready (m : TimerMgr) : Prop :=
  status_ m = TIMER_STATUS_STARTED ∧ itemQueue_ m = [] ∧ ∃ fl, idFlags m = false :: fl.

(** A timer armed then is the first to fire, and leaves the manager as it was. *)
Lemma arm_then_fire t d o m :
  timers_ready m →
  ∃ m', SetTimer t 0 d 0 (Some o) m = (0, m') ∧
        Run_step (d + t) m' = (RunFire (Some o) (mkTimerEvent 0 0 0), m).
Proof.
  destruct m as [st ob q fl]. intros (Hst & Hq & fl' & Hfl). cbn in *. subst.
  eexists. split; [reflexivity|]. unfold Run_step. cbn -[Z.add Z.ltb].
  rewrite (proj2 (Z.ltb_ge _ _)) by lia. unfold IdAllocator.ReleaseId.
  rewrite u32_small by lia. cbn -[Z.of_nat]. destruct (Z.leb_spec (Z.of_nat (S (length fl'))) 0); [lia|done].
Qed.

(** A host whose engine can always be created, and that leaves alone the clock and
    what a restraint looks at. *)
Definition discreet {A} (m : St (Sys Y T D) A) : Prop := ∀ s : Sys Y T D,
  db (m s).2 = db s ∧ now (m s).2 = now s ∧
  WakeupSourceFilesList (own (m s).2) = WakeupSourceFilesList (own s).
Class ReliableHost := {
  rh_create p re (s : Sys Y T D) : (CreateUpdateEngine p re s).1 = true;
  rh_create_discreet p re : discreet (CreateUpdateEngine p re);
  rh_release_discreet : discreet ReleaseUpdateEngine }.
Context {RH : ReliableHost}.

Lemma zoom_discreet {A} (m : St (Sys Y T D) A) st s :
  discreet m → restrained st (zoom m s).2 = restrained st s ∧ now (zoom m s).2 = now s.
Proof.
  intros Hm. rewrite zoom_run. unfold restrained. cbn.
  by destruct (Hm (with_own (rest (own s)) s)) as (-> & -> & ->).
Qed.

(** An update in progress that has [n] retries left. *)
Record running (st : IUpdateStrategy) (n : nat) s : Prop := {
  run_force : isForceReleased_ (own s) = false;
  run_strategy : updateStrategy_ (own s) = Some st;
  run_free : restrained st s = false;
  run_timers : timers_ready (timers (own s));
  run_id : timerId_ (own s) = INVALID_ID;
  run_left : retryTimesLimit_ (own s) = retryTimes_ (own s) + Z.of_nat n;
  run_range : 0 ≤ retryTimes_ (own s) ∧ retryTimesLimit_ (own s) ≤ 5 }.

Lemma last_round st s :
  running st 0 s → (fail_round (param_ st) s).1 = true ∧ phase (core (own (fail_round (param_ st) s).2)) = Idle.
Proof.
  intros [Hf Hst Hfree Ht Hid Hleft Hrange]. unfold fail_round.
  set (r := UpdateCompleteProc UPDATE_STATE_COMPLETE_FAIL (param_ st) s).
  assert (r.1 = true ∧ updateStrategy_ (own r.2) = None) as [H1 H2].
  { destruct (UpdateCompleteProc_core UPDATE_STATE_COMPLETE_FAIL (param_ st) s st Hf Hst eq_refl)
      as (t & _ & [(_ & _ & ? & _)|(Hl & Hc)]); [lia|]. split; [done|]. fold r in Hc.
    destruct (own r.2). by injection Hc. }
  cbv zeta. cbn [fst snd]. split; [done|]. set (s1 := r.2 <| now ::= _ |>).
  assert (updateStrategy_ (own (TimerThread s1).2) = None) as H3.
  { pose proof (TimerThread_core s1) as Hc. subst s1. cbn in Hc. destruct (own (TimerThread _).2). injection Hc. cbn. congruence. }
  unfold phase. destruct (retry_due s1); cbn; [|by rewrite H3].
  pose proof (UpdateRetryProc_core (TimerThread s1).2) as Hc. cbv zeta in Hc.
  destruct (own (UpdateRetryProc (TimerThread s1).2).2); cbn in Hc |- *.
  destruct Hc as [Hc|[Hc|Hc]]; injection Hc; intros; subst; by rewrite ?H3.
Qed.

(** The completion of a failed attempt that has retries left. *)
Lemma failed_completion st n s :
  running st (S n) s →
  ∃ m', SetTimer (now s) 0 (UPDATE_DELAY_TIME_SECONDS * MS_PER_S * US_PER_MS) 0 this_observer (timers (own s)) = (0, m') ∧
    UpdateCompleteProc UPDATE_STATE_COMPLETE_FAIL (param_ st) s =
    (false, (zoom ReleaseUpdateEngine
      (s <| own ::= λ c, c <| updateResult_ := UPDATE_STATE_COMPLETE_FAIL |> <| timers := m' |> <| timerId_ := 0 |>
                           <| retryTimes_ := retryTimes_ (own s) + 1 |> |>)).2).
Proof.
  intros [Hf Hst Hfree Ht Hid Hleft Hrange].
  destruct (arm_then_fire (now s) (UPDATE_DELAY_TIME_SECONDS * MS_PER_S * US_PER_MS) 0%nat _ Ht) as (m' & Hset & _).
  exists m'. split; [done|]. unfold UpdateCompleteProc, getc. rewrite bind_run. cbn [fst snd st_gets].
  rewrite Hf, bind_run. cbn [fst snd st_gets]. rewrite Hst, bool_decide_true by done. cbn [negb].
  rewrite bind_run. set (s1 := (modc _ s).2). rewrite bind_run.
  assert ((StopUpdateTimer s1).2 = s1) as -> by (unfold StopUpdateTimer, getc; rewrite bind_run; cbn [fst snd st_gets];
    change (timerId_ (own s1)) with (timerId_ (own s)); by rewrite Hid, Z.eqb_refl).
  rewrite bind_run. assert (IsNeedRetryUpdate s1 = (true, s1)) as ->.
  { unfold IsNeedRetryUpdate, getc. run. change (updateResult_ (own s1)) with UPDATE_STATE_COMPLETE_FAIL.
    change (_ =? _) with false. run.
    change (retryTimesLimit_ (own s1)) with (retryTimesLimit_ (own s)). change (retryTimes_ (own s1)) with (retryTimes_ (own s)).
    rewrite (proj2 (Z.leb_gt _ _)) by lia.
    run. change (updateStrategy_ (own s1)) with (updateStrategy_ (own s)). rewrite Hst. run.
    change (restrained st s1) with (restrained st s). by rewrite Hfree. }
  cbn [fst snd]. rewrite bind_run. assert (StartUpdateTimer s1 = (true, s <| own ::= λ c,
    c <| updateResult_ := UPDATE_STATE_COMPLETE_FAIL |> <| timers := m' |> <| timerId_ := 0 |>
      <| retryTimes_ := retryTimes_ (own s) + 1 |> |>)) as ->.
  { unfold StartUpdateTimer, getc. run. change (timerId_ (own s1)) with (timerId_ (own s)). rewrite Hid, Z.eqb_refl.
    cbn [negb]. run. rewrite on_timers_run. change (now s1) with (now s). change (timers (own s1)) with (timers (own s)).
    unfold this_observer. rewrite Hset. cbn [fst snd Z.eqb INVALID_ID]. run. unfold modc, st_modify. cbn.
    rewrite i32_small by lia. done. }
  by run.
Qed.

(** The retry makes a new attempt. *)
Lemma retry_running st n s :
  isForceReleased_ (own s) = false → updateStrategy_ (own s) = Some st → restrained st s = false →
  timers_ready (timers (own s)) → retryTimesLimit_ (own s) = retryTimes_ (own s) + Z.of_nat n →
  0 ≤ retryTimes_ (own s) ∧ retryTimesLimit_ (own s) ≤ 5 → running st n (UpdateRetryProc s).2.
Proof.
  intros Hf Hst Hfree Ht Hleft Hrange. unfold UpdateRetryProc, getc. rewrite bind_run. cbn [fst snd st_gets].
  rewrite Hf, !bind_run. cbn [fst snd st_gets st_get]. rewrite Hst, Hfree, !bind_run.
  destruct (zoom_discreet (CreateUpdateEngine (param_ st) false) st s (rh_create_discreet _ _)) as [Hr1 _].
  pose proof (core_zoom (CreateUpdateEngine (param_ st) false) s) as Hc.
  assert ((zoom (CreateUpdateEngine (param_ st) false) s).1 = true) as Hz by (rewrite zoom_run; apply rh_create).
  destruct (zoom _ s) as [b s1]. cbn [fst snd] in *. subst b. run. rewrite Hfree in Hr1.
  destruct s1 as [[] ? ? ? ? ?]. cbn in Hc. injection Hc; intros; subst. by constructor.
Qed.

Lemma next_round st n s :
  running st (S n) s → (fail_round (param_ st) s).1 = false ∧ running st n (fail_round (param_ st) s).2.
Proof.
  intros Hrun. destruct (failed_completion st n s Hrun) as (m' & Hset & Heq).
  pose proof Hrun as [Hf Hst Hfree Ht Hid Hleft Hrange].
  destruct (arm_then_fire (now s) (UPDATE_DELAY_TIME_SECONDS * MS_PER_S * US_PER_MS) 0%nat _ Ht) as (m'' & Hset' & Hfire).
  assert (m'' = m') as -> by (unfold this_observer in Hset; congruence).
  unfold fail_round. rewrite Heq. cbv zeta. cbn [fst snd]. split; [done|].
  set (s0 := s <| own ::= _ |>). set (s1 := (zoom ReleaseUpdateEngine s0).2).
  destruct (zoom_discreet ReleaseUpdateEngine st s0 rh_release_discreet) as [Hr1 Hn1].
  assert (Hc1 : core (own s1) = core (own s0)) by apply core_zoom.
  set (s2 := s1 <| now ::= _ |>). assert (Hrun2 : Run_step (now s2) (timers (own s2)) =
    (RunFire (Some 0%nat) (mkTimerEvent 0 0 0), timers (own s))).
  { change (timers (own s2)) with (timers (core (own s1))). rewrite Hc1. change (timers (core (own s0))) with m'. rewrite <- Hfire. f_equal.
    change (now s2) with (UPDATE_DELAY_TIME_SECONDS * MS_PER_S * US_PER_MS + now s1). unfold s1. by rewrite Hn1. }
  assert (retry_due s2 = true) as -> by (unfold retry_due; by rewrite Hrun2).
  set (s3 := (TimerThread s2).2). pose proof (TimerThread_core s2) as Hc3. rewrite Hrun2 in Hc3. fold s3 in Hc3.
  assert (restrained st s3 = false) as Hr3.
  { unfold s3, TimerThread. rewrite !bind_run. cbn [fst snd st_gets]. rewrite on_timers_run, Hrun2. cbn [fst snd].
    transitivity (restrained st s1); [|by rewrite <- Hfree; apply Hr1].
    unfold OnTimerEvent, AddAsyncTask. cbn. by destruct (_ <? _). }
  change (core (own s2)) with (core (own s1)) in Hc3. rewrite Hc1 in Hc3. clearbody s3. clear Hc1 Hr1 Hn1 Hrun2.
  destruct s3 as [c3 ? ? ? ? ?]. destruct c3 as [tm up id n' lim res str pri f rs]; cbn in Hc3.
  injection Hc3; intros; subst. apply retry_running; cbn; try done; lia.
Qed.

Lemma fail_rounds_S n p s :
  fail_rounds (S n) p s = ((fail_round p s).1 :: (fail_rounds n p (fail_round p s).2).1,
                           (fail_rounds n p (fail_round p s).2).2).
Proof. done. Qed.

(** * Theorems *)

(** C5: the controller refines its specification.  Whatever sequence of requests,
    completions (of whatever result and parameter), retries, timer events, forced
    releases and other activity has happened, the members are consistent (an update
    is marked as running exactly when there is a strategy, with that strategy's
    priority and limit, and no more retries than the limit), and the next operation
    either leaves the update as it is or does one step of the specification: start,
    join an update of the same priority, replace one of lower priority, use up one
    retry, or end. *)
Theorem updates_refine (y : Y) s0 ops o (Hinit : own s0 = init_ctl y) (Hops : Forall op_ok ops) (Ho : op_ok o) :
  let s := foldl (λ s o, do_op o s) s0 ops in
  ctl_ok (core (own s)) ∧ spec_or_stay (phase (core (own s))) (phase (core (own (do_op o s)))).
Proof.
  intros s. assert (ctl_ok (core (own s))) as Hok
    by (apply run_ok; [rewrite Hinit; apply init_ok|done]).
  split; [done|]. by apply do_op_ok.
Qed.

(** C9: attempts are bounded.  As long as nobody asks for another update, at most
    one completion more than the retries left is taken for the current update, six in
    all, however completions, timer events, retries and forced releases interleave:
    the retry loop cannot run forever. *)
Theorem attempts_bounded s ops (Hok : ctl_ok (core (own s))) (Hops : Forall op_ok ops)
    (Hreq : Forall (λ o, is_request o = false) ops) :
  (accepted_count ops s ≤ budget (phase (core (own s))) ∧ budget (phase (core (own s))) ≤ 6)%nat.
Proof. split; [by apply accepted_within|by apply budget_bound]. Qed.

(** An update that keeps failing ends.  If every attempt of an update with [n]
    retries left fails, and an engine can be created for each retry, then the timer
    brings every retry about; the first [n] completions are not the last one, the
    next is, and afterwards no update is running. *)
Theorem failing_update_ends st n s (Hrun : running st n s) :
  (fail_rounds (S n) (param_ st) s).1 = replicate n false ++ [true] ∧
  phase (core (own (fail_rounds (S n) (param_ st) s).2)) = Idle.
Proof.
  revert s Hrun. induction n as [|n IH]; intros s Hrun.
  - rewrite fail_rounds_S. cbn [fst snd fail_rounds]. destruct (last_round st s Hrun) as [-> ?]. done.
  - destruct (next_round st n s Hrun) as [Hl Hr]. specialize (IH _ Hr).
    rewrite fail_rounds_S. cbn [fst snd]. rewrite Hl. destruct IH as [-> ->]. done.
Qed.

(** Priorities.  While an update runs, a request of lower priority, and one
    its own strategy restrains, is refused and changes nothing at all; the running
    update keeps its strategy, its retries and its engine. *)
Theorem lower_priority_refused st st' re s (Hok : ctl_ok (core (own s)))
    (Hst : updateStrategy_ (own s) = Some st)
    (Hpri : restrained st' s = true ∨ GetUpdatePriority st' < GetUpdatePriority st) :
  CreateUpdateEngineUntilTime (Some st') re s = (-1, s).
Proof.
  unfold CreateUpdateEngineUntilTime. rewrite bind_run. cbn [fst snd st_get].
  destruct (restrained st' s) eqn:Hr; [done|]. destruct Hpri as [Hpri|Hpri]; [done|].
  destruct Hok as [_ Hu Hm]. cbn in Hu, Hm. rewrite Hst in Hu, Hm. destruct Hm as (_ & Hcur & _).
  unfold UpdateArbitration, GetUpdateState, getc. run. rewrite Hu. cbn [negb]. run. rewrite Hcur.
  rewrite (proj2 (Z.ltb_lt _ _)) by lia. by run.
Qed.

End controller.

(** * Witnesses

    A host that counts the engines created. *)

#[global] Instance count_host T D : UpdateHost nat T D := {|
  CreateUpdateEngine _ _ := λ s, (true, s <| own ::= S |>);
  ReleaseUpdateEngine := mret ();
  WakeupSourceFilesList _ := (0, []) |}.
#[global] Instance count_host_reliable T D : @ReliableHost nat T D (count_host T D).
Proof. by constructor. Qed.

Definition SysR (X : Type) : Type := Sys X (gmap string str) (gmap string str).
Definition fresh_sys {X} (x : X) : SysR X := mkSys x ∅ (Some ∅) [] [] 0.
Definition start_whisper : Op (Y := nat) (T := gmap string str) (D := gmap string str) :=
  OpRequest (Some (WhisperUpdateStrategy (lit "WhisperVprUpdate"))) false.
Definition whisper_running : SysR (Ctl nat) := do_op start_whisper (fresh_sys (init_ctl 0%nat)).

Lemma whisper_running_ok : ctl_ok (core (own whisper_running)).
Proof. apply do_op_ok; [apply init_ok|done]. Qed.

(** A whisper update is started, and a completion uses up a retry. *)
Lemma updates_refine_witness :
  spec_or_stay (Active (WhisperUpdateStrategy (lit "WhisperVprUpdate")) 5)
    (phase (core (own (do_op (OpComplete 1 (lit "WhisperVprUpdate")) whisper_running)))).
Proof.
  refine (proj2 (updates_refine 0%nat (fresh_sys (init_ctl 0%nat)) [start_whisper]
    (OpComplete 1 (lit "WhisperVprUpdate")) eq_refl _ I)). by repeat constructor.
Defined.

Lemma attempts_bounded_witness :
  (accepted_count [OpComplete 1 (lit "WhisperVprUpdate"); OpComplete 1 (lit "WhisperVprUpdate")] whisper_running ≤ 6)%nat.
Proof.
  etransitivity; [apply (attempts_bounded whisper_running)|apply (attempts_bounded whisper_running [])];
    try apply whisper_running_ok; by repeat constructor.
Defined.

(** Six failures in a row. *)
Lemma failing_update_ends_witness :
  (fail_rounds 6 (lit "WhisperVprUpdate") whisper_running).1 = [false; false; false; false; false; true].
Proof.
  refine (proj1 (failing_update_ends (WhisperUpdateStrategy (lit "WhisperVprUpdate")) 5 whisper_running _)).
  constructor; try done. split_and!; [done|done|]. by eexists.
Defined.

Lemma lower_priority_refused_witness :
  CreateUpdateEngineUntilTime (Some (CloneUpdateStrategy (lit "info") (Some 7%nat))) false whisper_running
  = (-1, whisper_running).
Proof.
  eapply (lower_priority_refused (WhisperUpdateStrategy (lit "WhisperVprUpdate"))); [apply whisper_running_ok|done|].
  right. done.
Defined.
