(* ===== verification/EngineUtil.v ===== *)
(** * The engine HAL and what all engines share

    [hdi_adapter/engine_host_manager.cpp] and [hdi_adapter/adapter_host_manager.cpp]
    (the proxies of the HAL's engine manager and of one adapter, by interface
    version), [base/engine_util.cpp] and [base/intell_voice_sensibility.cpp].  The
    HAL is the class [EngineHal]. *)

From S2P Require Import Prelude StringUtil Settings EngineTypes.

(** ** The HAL *)

(** What is passed to an adapter without an output argument. *)
Inductive AdCall :=
| CSetCallback
| CAttach (wakeupPhrase : str) (minBufSize sampleChannels bitsPerSample sampleRate : Z)
| CDetach
| CSetParameter (keyValueList : str)
| CStart (isLast : bool)
| CStop
| CWriteAudio (buffer : list Z).
#[global] Instance AdCall_eq_dec : EqDecision AdCall.
Proof. solve_decision. Defined.

(** An uploaded file: its type, description and contents (one memory each). *)
Record UploadFile := mkUpload { up_type : Z; up_description : str; up_content : list Z }.

(** A shared memory of the HAL: its size as reported, whether it can be mapped, and
    what is read from it ([None] for a null pointer). *)
Record AshmemBuf := mkAshmem { ash_size : Z; ash_map : bool; ash_read : option (list Z) }.

Class EngineHal (H : Type) := {
  (** [IIntellVoiceEngineManager::Get], [GetVersion], [CastFrom] to minor version,
      [hdi_objcast] and [AddDeathRecipient]. *)
  eh_Get : H → bool;
  eh_GetVersion : H → Z * Z;
  eh_CastFrom : Z → H → bool;
  eh_objcast : H → bool;
  eh_AddDeathRecipient : St H bool;
  eh_RemoveDeathRecipient : St H unit;
  eh_SetDataOprCallback : St H unit;
  (** [CreateAdapter], [CreateAdapter_V_2] and [CreateAdapter_V_3], by minor version;
      the adapter made, if any. *)
  eh_CreateAdapter : Z → Z → St H (option nat);
  eh_ReleaseAdapter : Z → St H unit;
  (** The adapter's members. *)
  eh_call : nat → AdCall → St H Z;
  eh_GetParameter : nat → str → St H str;
  eh_Read : nat → Z → St H (option AshmemBuf);
  eh_GetWakeupPcm : nat → St H (Z * list Z);
  eh_Evaluate : nat → str → St H (Z * (Z * Z));
  (** The engine manager's files. *)
  eh_GetUploadFiles : Z → St H (Z * list UploadFile);
  eh_GetCloneFilesList : H → Z * list str;
  eh_GetCloneFile : str → St H (Z * list Z);
  eh_SendCloneFile : str → list Z → St H Z;
  eh_ClearUserWakeupData : str → St H Z }.

(** Enumerators of the HAL's interface: adapter types, contents that can be read, and
    the messages of its callback. *)
Class HdiIds := {
  ENROLL_ADAPTER_TYPE : Z; WAKEUP_ADAPTER_TYPE : Z; UPDATE_ADAPTER_TYPE : Z; IMPLICIT_ENROLL_ADAPTER_TYPE : Z;
  DSP_MODLE : Z; SHORT_WORD_DSP_MODEL : Z;
  INTELL_VOICE_ENGINE_MSG_INIT_DONE : Z; INTELL_VOICE_ENGINE_MSG_ENROLL_COMPLETE : Z;
  INTELL_VOICE_ENGINE_MSG_COMMIT_ENROLL_COMPLETE : Z; INTELL_VOICE_ENGINE_MSG_RECOGNIZE_COMPLETE : Z;
  INTELL_VOICE_ENGINE_MSG_HEADSET_RECOGNIZE_COMPLETE : Z }.
#[global] Instance ref_ids : HdiIds := {|
  ENROLL_ADAPTER_TYPE := 0; WAKEUP_ADAPTER_TYPE := 1; UPDATE_ADAPTER_TYPE := 2; IMPLICIT_ENROLL_ADAPTER_TYPE := 3;
  DSP_MODLE := 1; SHORT_WORD_DSP_MODEL := 2; INTELL_VOICE_ENGINE_MSG_INIT_DONE := 1;
  INTELL_VOICE_ENGINE_MSG_ENROLL_COMPLETE := 2; INTELL_VOICE_ENGINE_MSG_COMMIT_ENROLL_COMPLETE := 3;
  INTELL_VOICE_ENGINE_MSG_RECOGNIZE_COMPLETE := 4; INTELL_VOICE_ENGINE_MSG_HEADSET_RECOGNIZE_COMPLETE := 5 |}.

(** ** [EngineHostManager] *)

(** Which proxies are not null, and the two callback objects. *)
Record EngineHostManager := mkHost {
  engineHostProxy1_0_ : bool; engineHostProxy1_1_ : bool; engineHostProxy1_2_ : bool;
  engineHostProxy1_3_ : bool; engineHdiDeathRecipient_ : bool; dataOprCb_ : bool }.
#[global] Instance EngineHostManager_eta : Eta EngineHostManager :=
  λ h, mkHost (engineHostProxy1_0_ h) (engineHostProxy1_1_ h) (engineHostProxy1_2_ h)
         (engineHostProxy1_3_ h) (engineHdiDeathRecipient_ h) (dataOprCb_ h).
Definition init_host : EngineHostManager := mkHost false false false false false false.

(** The HAL with the host manager, a singleton. *)
Record Hw (H : Type) := mkHw { hw_hal : H; hw_host : EngineHostManager }.
Arguments mkHw {H} _ _.
Arguments hw_hal {H} _.
Arguments hw_host {H} _.
#[global] Instance Hw_eta H : Eta (Hw H) := λ w, mkHw (hw_hal w) (hw_host w).

(** [AdapterHostManager]: the proxies of one adapter. *)
Record AdapterHostManager := mkAdapter { adapterProxy1_0_ : option nat; adapterProxy1_2_ : option nat }.

Section host.
Context {H : Type} `{!EngineHal H}.
Abbreviation M := (St (Hw H)).
Implicit Types w : Hw H.

Definition on_hal {A} (m : St H A) : M A := λ w,
  let '(a, h) := m (hw_hal w) in (a, w <| hw_hal := h |>).
Definition host_mod (f : EngineHostManager → EngineHostManager) : M unit :=
  st_modify (λ w, w <| hw_host ::= f |>).

Definition MINOR_VERSION_2 : Z := 2.
Definition MINOR_VERSION_3 : Z := 3.

(** [Init]. *)
Definition Host_Init : M bool :=
  w ← st_get;
  _ ← host_mod (λ h, h <| engineHostProxy1_0_ := eh_Get (hw_hal w) |>);
  if negb (eh_Get (hw_hal w)) then mret false else
  let ver := eh_GetVersion (hw_hal w) in
  let id := GetHdiVersionId ver.1 ver.2 in
  _ ← (if id =? GetHdiVersionId 1 1 then
         st_when (eh_CastFrom 1 (hw_hal w)) (host_mod (λ h, h <| engineHostProxy1_1_ := true |>))
       else if id =? GetHdiVersionId 1 MINOR_VERSION_2 then
         st_when (eh_CastFrom MINOR_VERSION_2 (hw_hal w))
           (host_mod (λ h, h <| engineHostProxy1_2_ := true |> <| engineHostProxy1_1_ := true |>))
       else if id =? GetHdiVersionId 1 MINOR_VERSION_3 then
         st_when (eh_CastFrom MINOR_VERSION_3 (hw_hal w))
           (host_mod (λ h, h <| engineHostProxy1_3_ := true |> <| engineHostProxy1_2_ := true |>
                             <| engineHostProxy1_1_ := true |>))
       else mret ());
  mret true.

Definition RegisterEngineHDIDeathRecipient : M bool :=
  w ← st_get;
  if negb (engineHostProxy1_0_ (hw_host w)) then mret false else
  if negb (eh_objcast (hw_hal w)) then mret false else
  _ ← host_mod (λ h, h <| engineHdiDeathRecipient_ := true |>);
  on_hal eh_AddDeathRecipient.

Definition DeregisterEngineHDIDeathRecipient : M unit :=
  w ← st_get;
  if negb (engineHdiDeathRecipient_ (hw_host w)) then mret () else
  if negb (engineHostProxy1_0_ (hw_host w)) then mret () else
  if negb (eh_objcast (hw_hal w)) then mret () else
  on_hal eh_RemoveDeathRecipient.

Definition SetDataOprCallback : M unit :=
  w ← st_get;
  if dataOprCb_ (hw_host w) then mret () else
  if negb (engineHostProxy1_1_ (hw_host w)) then mret () else
  _ ← host_mod (λ h, h <| dataOprCb_ := true |>);
  on_hal eh_SetDataOprCallback.

(** [AdapterHostManager::Init]: the adapter, made with the newest interface. *)
Definition Adapter_Init (adapterType : Z) : M (option AdapterHostManager) :=
  w ← st_get;
  let h := hw_host w in
  if negb (engineHostProxy1_0_ h) then mret None else
  if engineHostProxy1_3_ h then
    a ← on_hal (eh_CreateAdapter MINOR_VERSION_3 adapterType);
    mret ((λ p, mkAdapter (Some p) (Some p)) <$> a)
  else if engineHostProxy1_2_ h then
    a ← on_hal (eh_CreateAdapter MINOR_VERSION_2 adapterType);
    mret ((λ p, mkAdapter (Some p) (Some p)) <$> a)
  else
    a ← on_hal (eh_CreateAdapter 0 adapterType);
    mret ((λ p, mkAdapter (Some p) None) <$> a).

Definition CreateEngineAdapter (adapterType : Z) : M (option AdapterHostManager) :=
  w ← st_get;
  if negb (engineHostProxy1_0_ (hw_host w)) then mret None else Adapter_Init adapterType.

Definition ReleaseEngineAdapter (adapterType : Z) : M unit :=
  w ← st_get;
  if negb (engineHostProxy1_0_ (hw_host w)) then mret () else on_hal (eh_ReleaseAdapter adapterType).

(** The files, which need version 1.2. *)
Definition Host_GetUploadFiles (numMax : Z) : M (Z * list UploadFile) :=
  w ← st_get;
  if negb (engineHostProxy1_2_ (hw_host w)) then mret (-1, []) else on_hal (eh_GetUploadFiles numMax).
Definition Host_GetWakeupSourceFilesList w : Z * list str :=
  if negb (engineHostProxy1_2_ (hw_host w)) then (-1, []) else eh_GetCloneFilesList (hw_hal w).
Definition Host_GetWakeupSourceFile (filePath : str) : M (Z * list Z) :=
  w ← st_get;
  if negb (engineHostProxy1_2_ (hw_host w)) then mret (-1, []) else on_hal (eh_GetCloneFile filePath).
Definition Host_SendWakeupFile (filePath : str) (buffer : list Z) : M Z :=
  w ← st_get;
  if negb (engineHostProxy1_2_ (hw_host w)) then mret (-1) else on_hal (eh_SendCloneFile filePath buffer).
Definition Host_ClearUserWakeupData (wakeupPhrase : str) : M Z :=
  w ← st_get;
  if negb (engineHostProxy1_2_ (hw_host w)) then mret (-1) else on_hal (eh_ClearUserWakeupData wakeupPhrase).

(** The members of [AdapterHostManager] that forward to version 1.0 and to 1.2. *)
Definition Adapter_call (a : AdapterHostManager) (c : AdCall) : M Z :=
  match adapterProxy1_0_ a with None => mret (-1) | Some p => on_hal (eh_call p c) end.
Definition Adapter_GetParameter (a : AdapterHostManager) (key : str) : M str :=
  match adapterProxy1_0_ a with None => mret [] | Some p => on_hal (eh_GetParameter p key) end.
Definition Adapter_Read (a : AdapterHostManager) (type : Z) : M (option AshmemBuf) :=
  match adapterProxy1_0_ a with None => mret None | Some p => on_hal (eh_Read p type) end.
Definition Adapter_GetWakeupPcm (a : AdapterHostManager) : M (Z * list Z) :=
  match adapterProxy1_2_ a with None => mret (-1, []) | Some p => on_hal (eh_GetWakeupPcm p) end.
Definition Adapter_Evaluate (a : AdapterHostManager) (word : str) : M (Z * (Z * Z)) :=
  match adapterProxy1_2_ a with None => mret (-1, (0, 0)) | Some p => on_hal (eh_Evaluate p word) end.
End host.

(** ** [IntellVoiceSensibility] *)

Section sensibility.
Context {JL : JsonLib} {PL : Platform} {D : Type} `{!KvStore D}.

Definition MIN_SENSIBILITY_VALUE : Z := 1.
Definition MAX_SENSIBILITY_VALUE : Z := 3.
Definition THRESH_OFFST : Z := 3.
Definition HAL_FEATURE_KWS_NODES_900 : Z := 2.
Definition WAKEUP_CONF_DEFAULPHRASE : str := lit "DefaultPhrase".

(** [operator[]] of an array. *)
Definition at_index (j : json) (i : Z) : json := default jnull (elems j !! Z.to_nat i).
(** The tests on an array of thresholds. *)
Definition threshold_ok (j : json) (i : Z) : bool :=
  isArray j && (i <? Z.of_nat (length (elems j))) && isInt (at_index j i).

Definition IsSupportNodes800 (dspFeature : str) : bool :=
  if bool_decide (dspFeature = []) then false else
  match StringToInt dspFeature with
  | None => false
  | Some feature => Z.land (u32 feature) HAL_FEATURE_KWS_NODES_900 =? HAL_FEATURE_KWS_NODES_900
  end.

Definition IsDefaltPhrase (wakeupJson : json) (wakeupPhrase : str) : bool :=
  let defaultPhrases := lit <$> ["你好小E"; "你好小易"; "你好华为"; "小艺小艺"; "你好悠悠"]%string in
  if isMember wakeupJson WAKEUP_CONF_DEFAULPHRASE
  then isMember (member wakeupJson WAKEUP_CONF_DEFAULPHRASE) wakeupPhrase
  else bool_decide (wakeupPhrase ∈ defaultPhrases).

Definition ParseUserDspSensibility (wakeupJson : json) (index : Z) : str :=
  if negb (isMember wakeupJson (lit "SensibilityParams"))
     || negb (isMember (member wakeupJson (lit "SensibilityParams")) (lit "DspSentenceThresholds")) then [] else
  let sensibilityParam := member (member wakeupJson (lit "SensibilityParams")) (lit "DspSentenceThresholds") in
  if isMember sensibilityParam (lit "UserDefined")
     && threshold_ok (member sensibilityParam (lit "UserDefined")) index
  then Int2String (asInt (at_index (member sensibilityParam (lit "Default")) index))
  else [].

Definition ParseDefaultDspSensibility (wakeupJson : json) (wakeupPhrase : str) (index : Z) : str :=
  if isMember wakeupJson WAKEUP_CONF_DEFAULPHRASE
     && isMember (member wakeupJson WAKEUP_CONF_DEFAULPHRASE) wakeupPhrase then
    let sensibilityArray := member (member wakeupJson WAKEUP_CONF_DEFAULPHRASE) wakeupPhrase in
    if threshold_ok sensibilityArray index then Int2String (asInt (at_index sensibilityArray index)) else []
  else
  if negb (isMember wakeupJson (lit "SensibilityParams"))
     || negb (isMember (member wakeupJson (lit "SensibilityParams")) (lit "DspSentenceThresholds")) then [] else
  let sensibilityParam := member (member wakeupJson (lit "SensibilityParams")) (lit "DspSentenceThresholds") in
  if isMember sensibilityParam (lit "Default") && threshold_ok (member sensibilityParam (lit "Default")) index
  then Int2String (asInt (at_index (member sensibilityParam (lit "Default")) index))
  else [].

Definition ParseWakeupConfigDspSensibility (wakeupPhrase : str) (index : Z) (configPath : string) : str :=
  match ReadFile configPath with
  | None => []
  | Some text =>
    match parseFromStream text with
    | None => []
    | Some wakeupJson =>
      if IsDefaltPhrase wakeupJson wakeupPhrase then ParseDefaultDspSensibility wakeupJson wakeupPhrase index
      else ParseUserDspSensibility wakeupJson index
    end
  end.

Definition GetDspSensibility (sensibility dspFeature : str) (configPath : string) (d : option D) : str :=
  match StringToInt sensibility with
  | None => []
  | Some value =>
    if (value <? MIN_SENSIBILITY_VALUE) || (MAX_SENSIBILITY_VALUE <? value) then [] else
    let wakeupPhrase := GetStringKVPair KEY_WAKEUP_PHRASE d in
    if bool_decide (wakeupPhrase = []) then [] else
    let index := if IsSupportNodes800 dspFeature then value + THRESH_OFFST - 1 else value - 1 in
    ParseWakeupConfigDspSensibility wakeupPhrase index configPath
  end.
End sensibility.

(** ** [EngineUtil] *)

(** The adapter and its type, the members all engines inherit, with the HAL. *)
Record EngineUtil (H : Type) := mkEngineUtil {
  adapter_ : option AdapterHostManager; adapterType : Z; hw : Hw H }.
Arguments mkEngineUtil {H} _ _ _.
Arguments adapter_ {H} _.
Arguments adapterType {H} _.
Arguments hw {H} _.
#[global] Instance EngineUtil_eta H : Eta (EngineUtil H) :=
  λ u, mkEngineUtil (adapter_ u) (adapterType u) (hw u).

Section engine_util.
Context {H T D : Type} `{!EngineHal H} `{!TriggerPort T} `{!KvStore D} {JL : JsonLib} {PL : Platform}.
Abbreviation M := (St (Sys (EngineUtil H) T D)).

Definition on_hw {A} (m : St (Hw H) A) : M A := λ s,
  let '(a, w) := m (hw (own s)) in (a, s <| own ::= λ u, u <| hw := w |> |>).

(** A member of the adapter, [r] when there is none. *)
Definition with_adapter {A} (r : A) (m : AdapterHostManager → St (Hw H) A) : M A :=
  a ← getc adapter_;
  match a with None => mret r | Some a => on_hw (m a) end.
Definition adapter_call (c : AdCall) : M Z := with_adapter (-1) (λ a, Adapter_call a c).

(** [CreateAdapterInner] and [ReleaseAdapterInner] with the host manager. *)
Definition CreateAdapterInner (type : Z) : M bool :=
  _ ← modc (λ u, u <| adapterType := type |>);
  a ← on_hw (CreateEngineAdapter type);
  _ ← modc (λ u, u <| adapter_ := a |>);
  mret (match a with Some _ => true | None => false end).
Definition ReleaseAdapterInner : M unit :=
  type ← getc adapterType;
  _ ← on_hw (ReleaseEngineAdapter type);
  modc (λ u, u <| adapter_ := None |>).

Definition SetParameter (keyValueList : str) : M Z := adapter_call (CSetParameter keyValueList).
Definition GetParameter (key : str) : M str := with_adapter [] (λ a, Adapter_GetParameter a key).
(** [buffer] is [None] for a null pointer. *)
Definition WriteAudio (buffer : option (list Z)) : M Z :=
  a ← getc adapter_;
  match a with
  | None => mret (-1)
  | Some a =>
    match buffer with
    | None | Some [] => mret (-1)
    | Some buffer => on_hw (Adapter_call a (CWriteAudio buffer))
    end
  end.
Definition Stop : M Z := adapter_call CStop.
Definition GetWakeupPcm : M (Z * list Z) := with_adapter (-1, []) Adapter_GetWakeupPcm.
Definition Evaluate (word : str) : M (Z * (Z * Z)) := with_adapter (-1, (0, 0)) (λ a, Adapter_Evaluate a word).

(** [kv_text k v] is the string [k=v]. *)
Definition kv_text (k v : str) : str := k ++ lit "=" ++ v.

(** [SetDspFeatures]; the message to the trigger manager always has a value. *)
Definition SetDspFeatures : M bool :=
  a ← getc adapter_;
  match a with
  | None => mret false
  | Some a =>
    got ← on_trigger (tp_GetParameter KEY_GET_WAKEUP_FEATURE);
    features ← (if bool_decide (got = []) then st_gets (λ s, GetStringKVPair KEY_WAKEUP_DSP_FEATURE (db s))
                else _ ← on_settings (SetStringKVPair KEY_WAKEUP_DSP_FEATURE got); mret got);
    if bool_decide (features = []) then mret false else
    _ ← on_hw (Adapter_call a (CSetParameter (kv_text (lit KEY_GET_WAKEUP_FEATURE) features)));
    mret true
  end.

(** [ReadDspModel] with [WriteBufferFromAshmem]. *)
Definition ReadDspModel (type : Z) : M (list Z) :=
  ashmem ← with_adapter None (λ a, Adapter_Read a type);
  mret (match ashmem with
        | None => []
        | Some b =>
          if u32 (ash_size b) =? 0 then [] else
          if negb (ash_map b) then [] else
          match ash_read b with None => [] | Some data => take (Z.to_nat (u32 (ash_size b))) data end
        end).

Definition VOICE_WAKEUP_MODEL_UUID : Z := 1.
Definition PROXIMAL_WAKEUP_MODEL_UUID : Z := 2.
Definition VOICE_WAKEUP_TYPE : Z := 1.

Definition ProcDspModel (buffer : list Z) : M unit :=
  if bool_decide (buffer = []) then mret ()
  else on_trigger (tp_UpdateModel buffer VOICE_WAKEUP_MODEL_UUID VOICE_WAKEUP_TYPE).

(** A setting passed to the adapter after a prefix, unless it is empty. *)
Definition pass_setting (key : string) (prefix : str) : M unit :=
  a ← getc adapter_;
  match a with
  | None => mret ()
  | Some a =>
    v ← st_gets (λ s, GetStringKVPair key (db s));
    if bool_decide (v = []) then mret () else st_void (on_hw (Adapter_call a (CSetParameter (prefix ++ v))))
  end.
Definition SetLanguage : M unit := pass_setting KEY_LANGUAGE (lit "language=").
Definition SetArea : M unit := pass_setting KEY_AREA (lit "area=").

Definition SetWhisperVpr : M unit :=
  a ← getc adapter_;
  match a with
  | None => mret ()
  | Some a =>
    v ← st_gets (λ s, GetStringKVPair KEY_WHISPER_VPR (db s));
    st_void (on_hw (Adapter_call a (CSetParameter (lit "WhisperVpr=" ++ v))))
  end.

Definition SENSIBILITY_TEXT : str := lit "sensibility=".

Definition SetSensibility : M unit :=
  a ← getc adapter_;
  match a with
  | None => mret ()
  | Some a =>
    sensibility ← st_gets (λ s, GetStringKVPair KEY_SENSIBILITY (db s));
    if bool_decide (sensibility = []) then mret () else
    features ← on_trigger (tp_GetParameter KEY_GET_WAKEUP_FEATURE);
    value ← st_gets (λ s, GetDspSensibility sensibility features WAKEUP_CONFIG_PATH (db s));
    if bool_decide (value = []) then mret () else
    _ ← on_trigger (tp_SetParameter WAKEUP_SENSIBILITY value);
    st_void (on_hw (Adapter_call a (CSetParameter (SENSIBILITY_TEXT ++ sensibility))))
  end.

Definition SetTriggerParameter : M unit :=
  st_for TRIGGER_PARAMS (λ param,
    value ← st_gets (λ s, GetStringKVPair param (db s));
    _ ← st_when (negb (bool_decide (value = []))) (st_void (on_trigger (tp_SetParameter param value)));
    mret false).

Definition SetScreenStatus (screenoff : bool) : M Z :=
  SetParameter (if screenoff then lit "screenoff=true" else lit "screenoff=false").

Definition SetImproveParam : M unit := st_void (adapter_call (CSetParameter (lit "userImproveOn=true"))).
End engine_util.

(** ** A reference HAL

    It has interface version 1.3, numbers its adapters and remembers the calls. *)
Record RefHal := mkRefHal { rh_next : nat; rh_log : list (nat * AdCall); rh_params : gmap str str; rh_model : list Z }.
#[global] Instance RefHal_eta : Eta RefHal := λ h, mkRefHal (rh_next h) (rh_log h) (rh_params h) (rh_model h).
#[global] Instance ref_engine_hal : EngineHal RefHal := {|
  eh_Get _ := true;
  eh_GetVersion _ := (1, 3);
  eh_CastFrom _ _ := true;
  eh_objcast _ := true;
  eh_AddDeathRecipient := mret true;
  eh_RemoveDeathRecipient := mret ();
  eh_SetDataOprCallback := mret ();
  eh_CreateAdapter _ _ := λ h, (Some (rh_next h), h <| rh_next ::= S |>);
  eh_ReleaseAdapter _ := mret ();
  eh_call a c := λ h, (0, h <| rh_log ::= λ l, l ++ [(a, c)] |>);
  eh_GetParameter _ k := st_gets (λ h, default [] (rh_params h !! k));
  eh_Read _ _ := st_gets (λ h, Some (mkAshmem (Z.of_nat (length (rh_model h))) true (Some (rh_model h))));
  eh_GetWakeupPcm _ := mret (0, []);
  eh_Evaluate _ _ := mret (0, (0, 0));
  eh_GetUploadFiles n := mret (0, replicate (Z.to_nat n) (mkUpload 0 [] []));
  eh_GetCloneFilesList _ := (0, [lit "enroll_phrase.txt"]);
  eh_GetCloneFile _ := mret (0, [1; 2; 3]);
  eh_SendCloneFile _ _ := mret 0;
  eh_ClearUserWakeupData _ := mret 0 |}.
Definition ref_hw : Hw RefHal := (Host_Init (mkHw (mkRefHal 0 [] ∅ [5]) init_host)).2.

(** * Lemmas *)

(** The members of [EngineUtil] have no effect outside the HAL, the settings and the
    trigger manager, and but for [CreateAdapterInner] and [ReleaseAdapterInner] they
    leave the adapter as it is. *)
Create HintDb mute discriminated.
Section util_plain.
Context {H T D : Type} `{!EngineHal H} `{!TriggerPort T} `{!KvStore D} {JL : JsonLib} {PL : Platform}.
Definition plain {A} (m : St (Sys (EngineUtil H) T D) A) : Prop := ∀ l a,
  ⟪ λ s, outs s = l ∧ adapter_ (own s) = a ⟫ m ⟪ λ _ s, outs s = l ∧ adapter_ (own s) = a ⟫.
Abbreviation muted m := (mute (X := EngineUtil H) (T := T) (D := D) m).

Lemma mute_plain {A} (m : St (Sys (EngineUtil H) T D) A) : plain m → muted m.
Proof. intros Hm l s Hs. by apply (Hm l (adapter_ (own s)) s). Qed.
Lemma plain_hw {A} (m : St (Hw H) A) : plain (on_hw m).
Proof. intros l a s Hs. unfold on_hw. by destruct (m (hw (own s))). Qed.
Lemma plain_trigger {A} (m : St T A) : plain (on_trigger m).
Proof. intros l a s Hs. by rewrite on_trigger_run. Qed.
Lemma plain_settings {A} (m : St (option D) A) : plain (on_settings m).
Proof. intros l a s Hs. by rewrite on_settings_run. Qed.
Lemma plain_getc {A} (f : EngineUtil H → A) : plain (getc f).
Proof. by intros l a s Hs. Qed.
#[local] Hint Resolve plain_hw plain_trigger plain_settings plain_getc : ivoice.
#[local] Hint Extern 1 (hoare _ (on_hw _) _) => apply plain_hw : ivoice.
#[local] Hint Extern 1 (hoare _ (on_trigger _) _) => apply plain_trigger : ivoice.
#[local] Hint Extern 1 (hoare _ (on_settings _) _) => apply plain_settings : ivoice.
#[local] Hint Extern 1 (hoare _ (getc _) _) => apply plain_getc : ivoice.

Lemma plain_adapter {A} (r : A) m : plain (with_adapter r m).
Proof. intros l a. unfold with_adapter. keeps. Qed.
#[local] Hint Extern 1 (hoare _ (with_adapter _ _) _) => apply plain_adapter : ivoice.
Lemma plain_call c : plain (adapter_call c).
Proof. apply plain_adapter. Qed.
Lemma plain_param kv : plain (SetParameter kv).
Proof. apply plain_adapter. Qed.
Lemma plain_get k : plain (GetParameter k).
Proof. apply plain_adapter. Qed.
Lemma plain_write b : plain (WriteAudio b).
Proof. intros l a. unfold WriteAudio. keeps. Qed.
Lemma plain_stop : plain Stop.
Proof. apply plain_adapter. Qed.
Lemma plain_pcm : plain GetWakeupPcm.
Proof. apply plain_adapter. Qed.
Lemma plain_evaluate w : plain (Evaluate w).
Proof. apply plain_adapter. Qed.
Lemma plain_features : plain SetDspFeatures.
Proof. intros l a. unfold SetDspFeatures. keeps. Qed.
Lemma plain_read type : plain (ReadDspModel type).
Proof. intros l a. unfold ReadDspModel. keeps. Qed.
Lemma plain_proc b : plain (ProcDspModel b).
Proof. intros l a. unfold ProcDspModel. keeps. Qed.
Lemma plain_pass k p : plain (pass_setting k p).
Proof. intros l a. unfold pass_setting. keeps. Qed.
Lemma plain_language : plain SetLanguage.
Proof. apply plain_pass. Qed.
Lemma plain_area : plain SetArea.
Proof. apply plain_pass. Qed.
Lemma plain_whisper : plain SetWhisperVpr.
Proof. intros l a. unfold SetWhisperVpr. keeps. Qed.
Lemma plain_sensibility : plain SetSensibility.
Proof. intros l a. unfold SetSensibility. keeps. Qed.
Lemma plain_trigger_params : plain SetTriggerParameter.
Proof. intros l a. unfold SetTriggerParameter. keeps. Qed.
Lemma plain_screen b : plain (SetScreenStatus b).
Proof. apply plain_param. Qed.
Lemma plain_improve : plain SetImproveParam.
Proof. intros l a. unfold SetImproveParam. apply hoare_void, plain_call. Qed.

(** A call of the adapter changes the HAL only. *)
Lemma with_adapter_run {A} (r : A) m (s : Sys (EngineUtil H) T D) :
  ∃ w, (with_adapter r m s).2 = s <| own ::= λ u, u <| hw := w |> |>.
Proof.
  unfold with_adapter. rewrite getc_bind. destruct (adapter_ (own s)) as [a|].
  - unfold on_hw. destruct (m a (hw (own s))) as [b w]. by exists w.
  - exists (hw (own s)). by destruct s as [[]].
Qed.

(** The model the HAL holds, as far as it can be read: nothing without an adapter, nor
    when the HAL gives no memory or one that cannot be mapped or read. *)
Definition held_model (type : Z) (u : EngineUtil H) : list Z :=
  match adapter_ u with
  | Some (mkAdapter (Some p) _) =>
    match (eh_Read p type (hw_hal (hw u))).1 with
    | Some (mkAshmem size true (Some data)) => take (Z.to_nat (u32 size)) data
    | _ => []
    end
  | _ => []
  end.
Lemma ReadDspModel_run type (s : Sys (EngineUtil H) T D) : (ReadDspModel type s).1 = held_model type (own s).
Proof.
  unfold ReadDspModel, with_adapter, held_model. rewrite bind_run, getc_bind.
  destruct (adapter_ (own s)) as [[[p|] q]|]; [|done..]. unfold on_hw, Adapter_Read, on_hal. cbn.
  destruct (eh_Read p type _) as [[[size [] [data|]]|] h]; cbn;
    [|try by destruct (u32 size =? 0)..|done].
  destruct (u32 size =? 0) eqn:Hz; [|done]. apply Z.eqb_eq in Hz. by rewrite Hz.
Qed.
Lemma ReleaseAdapterInner_run (s : Sys (EngineUtil H) T D) :
  ∃ w, (ReleaseAdapterInner s).2 = s <| own ::= λ u, u <| hw := w |> <| adapter_ := None |> |>.
Proof.
  unfold ReleaseAdapterInner, on_hw. rewrite getc_bind, bind_run.
  destruct (ReleaseEngineAdapter _ _) as [b w]. by exists w.
Qed.
Lemma CreateAdapterInner_run type (s : Sys (EngineUtil H) T D) :
  ∃ a w, CreateAdapterInner type s =
    (match a with Some _ => true | None => false end,
     s <| own ::= λ u, u <| adapterType := type |> <| hw := w |> <| adapter_ := a |> |>).
Proof.
  unfold CreateAdapterInner, on_hw. rewrite bind_run. cbn [fst snd]. rewrite bind_run. cbn.
  destruct (CreateEngineAdapter type (hw (own s))) as [a w]. cbn. by exists a, w.
Qed.
Lemma mute_create type : muted (CreateAdapterInner type).
Proof. intros l s Hs. by destruct (CreateAdapterInner_run type s) as (a & w & ->). Qed.
Lemma mute_release : muted ReleaseAdapterInner.
Proof. intros l s Hs. by destruct (ReleaseAdapterInner_run s) as [w ->]. Qed.
End util_plain.
#[export] Hint Resolve mute_plain mute_create mute_release plain_call plain_param plain_get plain_write plain_stop
  plain_pcm plain_evaluate plain_features plain_read plain_proc plain_pass plain_language plain_area plain_whisper
  plain_sensibility plain_trigger_params plain_screen plain_improve : mute.

(** * Theorems *)

(** A configuration with thresholds of the two kinds. *)
Definition threshold_config (user dflt : list Z) : Jval :=
  JObj [(lit "SensibilityParams", JObj [(lit "DspSentenceThresholds",
    JObj [(lit "UserDefined", JArr (JInt <$> user)); (lit "Default", JArr (JInt <$> dflt))])])].

Lemma threshold_ok_ints (parse : str → option Jval) l i :
  0 ≤ i → @threshold_ok (json_with parse) (JArr (JInt <$> l)) i = bool_decide (i < Z.of_nat (length l)).
Proof.
  intros Hi. unfold threshold_ok, at_index. cbn. rewrite length_fmap.
  case_bool_decide as Hlt; [|by rewrite (proj2 (Z.ltb_ge _ _)) by lia].
  rewrite (proj2 (Z.ltb_lt _ _)) by lia. rewrite list_lookup_fmap.
  destruct (lookup_lt_is_Some_2 l (Z.to_nat i)) as [x ->]; [lia|done].
Qed.

(** The thresholds of user-defined phrases are not used.  For a phrase of the
    user's own, the threshold taken from the configuration is the entry of the table
    "Default", never the one of the table "UserDefined", whose entry is only checked
    to exist. *)
Theorem user_threshold_is_default (parse : str → option Jval) user dflt index
    (Hindex : 0 ≤ index < Z.of_nat (length user)) :
  @ParseUserDspSensibility (json_with parse) (threshold_config user dflt) index =
  Int2String (default 0 (dflt !! Z.to_nat index)).
Proof.
  unfold ParseUserDspSensibility.
  change (@isMember (json_with parse) (threshold_config user dflt) (lit "SensibilityParams")) with true.
  cbn [negb orb].
  set (sp := @member (json_with parse) _ (lit "DspSentenceThresholds")).
  change (isMember _ (lit "DspSentenceThresholds")) with true. cbn [negb].
  change (isMember sp (lit "UserDefined")) with true. cbn [andb].
  change (member sp (lit "UserDefined")) with (JArr (JInt <$> user)).
  change (member sp (lit "Default")) with (JArr (JInt <$> dflt)).
  rewrite threshold_ok_ints, bool_decide_true by lia. unfold at_index. cbn. rewrite list_lookup_fmap.
  by destruct (dflt !! Z.to_nat index).
Qed.

(** The user's threshold 7 is configured, the default 5 is used. *)
Lemma user_threshold_is_default_witness :
  @ParseUserDspSensibility ref_json (threshold_config [7] [5]) 0 = lit "5".
Proof. refine (eq_trans (user_threshold_is_default (λ _, None) [7] [5] 0 _) eq_refl). cbn. lia. Defined.
