(* ===== verification/WakeupListener.v ===== *)
(** * Events of the HAL on their way to the client

    [wakeup/wakeup_adapter_listener.cpp], which keeps an event that finds no callback
    for the next callback that is set, and the high-power wakeup engine:
    [wakeup/high_power/high_power_adapter_listener.cpp] and
    [wakeup/high_power/high_power_wakeup_engine.cpp].  Each member runs under the
    listener's [mutex_]. *)

From S2P Require Import Prelude StringUtil Settings EngineTypes EngineUtil.

(** [IntellVoiceEngineCallBackEvent]. *)
Record HdiEvent := mkEvent { ev_msgId : Z; ev_result : Z; ev_info : str }.
#[global] Instance HdiEvent_eq : EqDecision HdiEvent.
Proof. solve_decision. Defined.

Record WakeupAdapterListener := mkListener { historyEvent_ : option HdiEvent; cb_ : option nat }.
#[global] Instance WakeupAdapterListener_eta : Eta WakeupAdapterListener :=
  λ l, mkListener (historyEvent_ l) (cb_ l).
Definition new_listener : WakeupAdapterListener := mkListener None None.

(** [StageCode], [WakeupResult] and [WakeupErrorCode], as far as they are used. *)
Definition WAKEUP_STAGE_SA_WAKEUP_DETECTED : Z := 0.
Definition WAKEUP_STAGE_SA_WHISPER_DETECTED : Z := 1.
Definition WAKEUP_STAGE_SA_HANDLE_DETECTED : Z := 2.
Definition WAKEUP_STAGE_SA_RECOGNIZING : Z := 3.
Definition WAKEUP_STAGE_SA_RECOGNIZED : Z := 4.
Definition WAKEUP_STAGE_SA_RECOGNIZED_COMPLETE : Z := 5.
Definition WAKEUP_STAGE_SA_ONESHOT_START : Z := 6.
Definition WAKEUP_STAGE_SA_ONESHOT_PROCESSE : Z := 7.
Definition WAKEUP_STAGE_SA_ONESHOT_END : Z := 8.
Definition WAKEUP_RESULT_DEFAULT : Z := 0.
Definition WAKEUP_RESULT_FAIL : Z := 2.
Definition SA_INPUT_ERROR : Z := 1.
Definition SA_HOST_ERROR : Z := 2.
Definition SA_TIMEOUT_ERROR : Z := 3.
Definition SA_AUDIO_SOURCE_ERROR : Z := 4.
Definition SA_CALLBACK_ERROR : Z := 5.
Definition WAKEUP_ERROR_CODE_END : Z := 12288.

Section listener.
Context {X T D : Type} `{!Lens X WakeupAdapterListener} {IDS : HdiIds}.
Abbreviation M := (St (Sys X T D)).

Definition get_listener {B} (f : WakeupAdapterListener → B) : M B := getc (λ x, f (view x)).
Definition mod_listener (f : WakeupAdapterListener → WakeupAdapterListener) : M unit := modc (λ x, set (f (view x)) x).
(** [cb_->OnIntellVoiceEngineEvent(event)]. *)
Definition tell (cb : nat) (e : HdiEvent) : M unit := emit (EngineEvent cb (ev_msgId e) (ev_result e) (ev_info e)).

Definition L_SetCallback (cb : option nat) : M unit :=
  match cb with
  | None => mod_listener (λ l, l <| cb_ := None |>)
  | Some c =>
    _ ← mod_listener (λ l, l <| cb_ := Some c |>);
    history ← get_listener historyEvent_;
    match history with
    | None => mret ()
    | Some e => _ ← tell c e; mod_listener (λ l, l <| historyEvent_ := None |>)
    end
  end.

Definition GetCallbackStatus : M str :=
  cb ← get_listener cb_; mret (match cb with None => lit "false" | Some _ => lit "true" end).

Definition ClearBackupEvent : M unit := mod_listener (λ l, l <| historyEvent_ := None |>).

(** The two messages that report the end of a recognition. *)
Definition is_recognition (msgId : Z) : bool :=
  (msgId =? INTELL_VOICE_ENGINE_MSG_RECOGNIZE_COMPLETE) || (msgId =? INTELL_VOICE_ENGINE_MSG_HEADSET_RECOGNIZE_COMPLETE).

Definition BackupCallBackEvent (event : HdiEvent) : M unit :=
  st_when (is_recognition (ev_msgId event)) (mod_listener (λ l, l <| historyEvent_ := Some event |>)).

Definition L_Notify (event : HdiEvent) : M unit :=
  cb ← get_listener cb_;
  match cb with
  | None =>
    _ ← emit (TrackReport WAKEUP_STAGE_SA_RECOGNIZED WAKEUP_RESULT_FAIL SA_CALLBACK_ERROR);
    BackupCallBackEvent event
  | Some c =>
    _ ← mod_listener (λ l, l <| historyEvent_ := None |>);
    st_when (is_recognition (ev_msgId event)) (tell c event)
  end.
End listener.

(** ** The high-power wakeup engine *)

Record HighPower (H : Type) := mkHP { hp_adapter : option AdapterHostManager; hp_type : Z; hp_listener : WakeupAdapterListener; hp_hw : Hw H }.
Arguments mkHP {H} _ _ _ _.
Arguments hp_adapter {H} _.
Arguments hp_type {H} _.
Arguments hp_listener {H} _.
Arguments hp_hw {H} _.
#[global] Instance HighPower_eta H : Eta (HighPower H) := λ e, mkHP (hp_adapter e) (hp_type e) (hp_listener e) (hp_hw e).
#[global] Instance hp_listener_lens H : Lens (HighPower H) WakeupAdapterListener := {|
  view := hp_listener; set l e := e <| hp_listener := l |> |}.
#[global] Instance hp_util_lens H : Lens (HighPower H) (EngineUtil H) := {|
  view e := mkEngineUtil (hp_adapter e) (hp_type e) (hp_hw e);
  set u e := e <| hp_adapter := adapter_ u |> <| hp_type := adapterType u |> <| hp_hw := hw u |> |}.
#[global] Instance hp_util_laws H : LensLaws (HighPower H) (EngineUtil H).
Proof. constructor; [by intros [] []|by intros []|done]. Qed.

Section high_power.
Context {H T D : Type} `{!EngineHal H} `{!TriggerPort T} `{!KvStore D} {JL : JsonLib} {PL : Platform} {IDS : HdiIds}.
Abbreviation M := (St (Sys (HighPower H) T D)).

(** [SetCallbackInner]; the listener is there. *)
Definition HP_SetCallbackInner : M bool :=
  a ← getc hp_adapter;
  match a with
  | None => mret false
  | Some _ => _ ← (zoom (adapter_call CSetCallback) : M Z); mret true
  end.

(** [Init]: the [-1] it returns on an error is [true] as a [bool]. *)
Definition bool_of_int (z : Z) : bool := negb (z =? 0).
Definition HP_Init : M bool :=
  created ← (zoom (CreateAdapterInner WAKEUP_ADAPTER_TYPE) : M bool);
  if negb created then mret (bool_of_int (-1)) else
  set ← HP_SetCallbackInner;
  if negb set then mret (bool_of_int (-1)) else
  mret true.

(** [SetCallback] and [HighPowerAdapterListener::SetCallback]. *)
Definition HP_SetCallback (object : option nat) : M unit := L_SetCallback object.

Definition HP_GetParameter (key : str) : M str :=
  if bool_decide (key = lit "is_callback_exist") then GetCallbackStatus else mret [].

Definition HP_Detach : M Z :=
  a ← getc hp_adapter;
  _ ← match a with
      | None => mret ()
      | Some _ => _ ← (zoom (adapter_call CDetach) : M Z); zoom ReleaseAdapterInner
      end;
  mret 0.

(** [HighPowerAdapterListener::OnIntellVoiceHdiEvent]. *)
Definition HP_BackupCallBackEvent (event : HdiEvent) : M unit :=
  st_when (ev_msgId event =? INTELL_VOICE_ENGINE_MSG_RECOGNIZE_COMPLETE)
    (mod_listener (λ l, l <| historyEvent_ := Some event |>)).
Definition HP_OnIntellVoiceHdiEvent (event : HdiEvent) : M unit :=
  if ev_msgId event =? INTELL_VOICE_ENGINE_MSG_INIT_DONE then StartAbility "pre_wakeup_event"
  else if ev_msgId event =? INTELL_VOICE_ENGINE_MSG_RECOGNIZE_COMPLETE then
    cb ← get_listener cb_;
    match cb with None => HP_BackupCallBackEvent event | Some c => tell c event end
  else mret ().
End high_power.

(** * Properties *)

(** ** What the client is told *)

Inductive LOp := LSet (cb : option nat) | LNotify (e : HdiEvent) | LClear.

Section listener_runs.
Context {X T D : Type} `{L : Lens X WakeupAdapterListener} `{!LensLaws X WakeupAdapterListener} {IDS : HdiIds}.
Implicit Types s : Sys X T D.

Definition l_do (o : LOp) : St (Sys X T D) unit :=
  match o with LSet cb => L_SetCallback cb | LNotify e => L_Notify e | LClear => ClearBackupEvent end.
Definition l_run (ops : list LOp) s : Sys X T D := foldl (λ s o, (l_do o s).2) s ops.

(** The events delivered to callbacks, and the recognition events that came in. *)
Definition delivered (l : list Out) : list HdiEvent :=
  omap (λ o, match o with EngineEvent _ m r i => Some (mkEvent m r i) | _ => None end) l.
Definition recognitions (ops : list LOp) : list HdiEvent :=
  omap (λ o, match o with LNotify e => if is_recognition (ev_msgId e) then Some e else None | _ => None end) ops.
Definition pending s : list HdiEvent := option_list (historyEvent_ (view (own s))).

Lemma delivered_app l l' : delivered (l ++ l') = delivered l ++ delivered l'.
Proof. apply omap_app. Qed.

(** One operation: what was pending is delivered, kept or dropped, and an event that
    comes in is delivered or becomes the pending one. *)
Lemma l_do_step o s :
  delivered (outs (l_do o s).2) ++ pending (l_do o s).2 `sublist_of`
    delivered (outs s) ++ pending s ++ recognitions [o].
Proof.
  unfold pending. destruct o as [[c|]|e|]; cbn [l_do].
  - unfold L_SetCallback, mod_listener, get_listener, getc, modc, tell, emit. run. cbn. rewrite !view_set. cbn.
    destruct (historyEvent_ (view (own s))) as [h|] eqn:Hh; run; cbn; rewrite !view_set; cbn.
    + rewrite delivered_app. cbn. destruct h. rewrite !app_nil_r. done.
    + rewrite ?Hh. cbn. rewrite !app_nil_r. done.
  - unfold L_SetCallback, mod_listener, modc. run. cbn. rewrite view_set. cbn. by rewrite app_nil_r.
  - unfold L_Notify, get_listener, getc. run. cbn. destruct (cb_ (view (own s))) as [c|].
    + unfold mod_listener, modc, tell, emit. run. unfold recognitions. cbn. destruct (is_recognition (ev_msgId e)); run; cbn.
      * rewrite view_set, delivered_app. cbn. destruct e. rewrite app_nil_r.
        apply sublist_app; [done|]. by apply sublist_inserts_l.
      * rewrite view_set. cbn. rewrite app_nil_r. by apply sublist_inserts_r.
    + unfold BackupCallBackEvent, emit, mod_listener, modc. run. unfold recognitions. cbn.
      destruct (is_recognition (ev_msgId e)); run; cbn; rewrite delivered_app; cbn; rewrite app_nil_r.
      * rewrite view_set. cbn. apply sublist_app; [done|]. by apply sublist_inserts_l.
      * by rewrite app_nil_r.
  - unfold ClearBackupEvent, mod_listener, modc. run. cbn. rewrite view_set. cbn. rewrite app_nil_r.
    by apply sublist_inserts_r.
Qed.

(** The client is told of recognitions in the order they happened, and of none twice,
    however callbacks are set, replaced and removed in between: what all callbacks have
    been told, with the event kept for the next one, is a subsequence of the
    recognition events of the HAL. *)
Theorem listener_in_order ops s (Hd : delivered (outs s) = []) (Hp : pending s = []) :
  delivered (outs (l_run ops s)) ++ pending (l_run ops s) `sublist_of` recognitions ops.
Proof.
  cut (∀ ops s, delivered (outs (l_run ops s)) ++ pending (l_run ops s) `sublist_of`
                delivered (outs s) ++ pending s ++ recognitions ops).
  { intros H. specialize (H ops s). by rewrite Hd, Hp in H. }
  clear - LensLaws0. intros ops. induction ops as [|o ops IH]; intros s; [by rewrite app_nil_r|].
  change (l_run (o :: ops) s) with (l_run ops (l_do o s).2). etransitivity; [apply IH|].
  assert (recognitions (o :: ops) = recognitions [o] ++ recognitions ops) as ->
    by (unfold recognitions; cbn; by repeat case_match).
  rewrite !app_assoc. apply sublist_app; [|done].
  rewrite <- app_assoc. apply l_do_step.
Qed.

(** Nothing is lost to a client that is there: with a callback set, every recognition
    is delivered to it at once. *)
Lemma listener_lossless_step c s e :
  cb_ (view (own s)) = Some c → is_recognition (ev_msgId e) = true →
  cb_ (view (own (l_do (LNotify e) s).2)) = Some c ∧
  outs (l_do (LNotify e) s).2 = outs s ++ [EngineEvent c (ev_msgId e) (ev_result e) (ev_info e)].
Proof.
  intros Hc He. cbn [l_do]. unfold L_Notify, get_listener, getc. run. cbn. rewrite Hc.
  unfold mod_listener, modc, tell, emit. run. rewrite He. run. cbn. by rewrite view_set.
Qed.
End listener_runs.

(** ** The high-power engine *)

(** [Init] of the high-power engine cannot report a failure: it returns [-1] from a
    function of type [bool], and so [true], also when the HAL has made no adapter. *)
Theorem high_power_init_always_true {H T D} `{!EngineHal H} `{!TriggerPort T} {IDS : HdiIds} (s : Sys (HighPower H) T D)
    (Hnone : (CreateEngineAdapter WAKEUP_ADAPTER_TYPE (hp_hw (own s))).1 = None) :
  (HP_Init s).1 = true ∧ hp_adapter (own (HP_Init s).2) = None.
Proof.
  unfold HP_Init, CreateAdapterInner. rewrite bind_run, zoom_run. unfold on_hw. run. cbn.
  destruct (CreateEngineAdapter WAKEUP_ADAPTER_TYPE (hp_hw (own s))) as [a w]. cbn in *. subst a. cbn. done.
Qed.

(** A HAL that makes no adapter: the host manager has not been initialised. *)
Lemma high_power_init_always_true_witness :
  (HP_Init (mkSys (mkHP None 9 new_listener (mkHw (mkRefHal 0 [] ∅ []) init_host)) (∅ : gmap string str)
              (None : option (gmap string str)) [] [] 0)).1 = true.
Proof. apply high_power_init_always_true. by vm_compute. Defined.

(** Two callbacks, and an event without one. *)
#[local] Instance alone_lens : Lens WakeupAdapterListener WakeupAdapterListener := {| view l := l; set l _ := l |}.
#[local] Instance alone_laws : LensLaws WakeupAdapterListener WakeupAdapterListener.
Proof. by constructor. Qed.
Lemma listener_in_order_witness :
  delivered (outs (l_run [LNotify (mkEvent 4 0 (lit "a")); LSet (Some 1%nat); LNotify (mkEvent 4 0 (lit "b"))]
    (mkSys new_listener (∅ : gmap string str) (None : option (gmap string str)) [] [] 0))) ++ [] `sublist_of`
  [mkEvent 4 0 (lit "a"); mkEvent 4 0 (lit "b")].
Proof.
  exact (listener_in_order [LNotify (mkEvent 4 0 (lit "a")); LSet (Some 1%nat); LNotify (mkEvent 4 0 (lit "b"))]
    (mkSys new_listener (∅ : gmap string str) (None : option (gmap string str)) [] [] 0) eq_refl eq_refl).
Defined.
