(* ===== verification/CloudReporter.v ===== *)
(** * Reports of wakeups on accessories

    [wakeup/accessories_cloud_reporter.cpp] and the saving of [utils/pcm_buffer.cpp]: the
    frames of audio that end with the wakeup word are kept in a buffer of a hundred frames
    and saved, with what is known of the wakeup, in a directory of their own.  Files and
    directories, the key store, the time and the text of a JSON value are the class
    [Files]; memory can be had. *)

From S2P Require Import Prelude StringUtil AudioUtil Settings EngineTypes.

(** The file system below [FileUtil] and [std::ofstream], [HuksAesAdapter::Encrypt],
    [TimeUtil::GetCurrTime] in the standard and in the continuous format, and the styled
    text of the report. *)
Class Files (F : Type) := {
  fs_CheckAndCreateDir : str → St F bool;
  fs_GetDirFilePath : str → F → list str;
  fs_DeleteDir : str → St F unit;
  fs_open : str → St F bool;
  fs_put : str → list Z → St F bool;
  fs_encrypt : list Z → F → option (list Z);
  fs_time : F → str;
  fs_stamp : F → str;
  fs_styled : gmap string str → list Z;
  (** The build encrypts the audio ([HP_AUDIO_DATA_NDEBUG] is not defined). *)
  fs_crypt : bool }.

Definition MIN_BUFFER_SIZE : Z := 640.
Definition FRAME_NUMBER : Z := 100.
Definition CLOUD_REPORT_JSON : str := lit "/wakeup.json".
Definition CLOUD_REPORT_PCM : str := lit "/wakeup.pcm".
Definition XYXY_UNICODE : str := lit "小艺小艺".
Definition INTELL_VOICE_DEFAULT_DATA_PATH : str := lit "/data/service/el0/intell_voice/report".
Definition WAKEUP_PCM_SAVE_NUM_MAX : Z := 102.
Definition WAKEUP_PCM_REPORT_NUM_MAX : Z := 103.

(** The members; [mReportInfo] is the object of strings by its keys. *)
Record AccessoriesCloudReporter := mkReporter {
  mReportDir : str; mReportPath : str; mTimeStamp : str; mPcmBuffer : option PcmBuffer;
  mReportInfo : gmap string str; deviceType_ : str; endIndex_ : Z; beginIndex_ : Z; indexCount_ : Z }.
#[global] Instance AccessoriesCloudReporter_eta : Eta AccessoriesCloudReporter := λ r,
  mkReporter (mReportDir r) (mReportPath r) (mTimeStamp r) (mPcmBuffer r) (mReportInfo r) (deviceType_ r)
    (endIndex_ r) (beginIndex_ r) (indexCount_ r).
Definition new_reporter (deviceType : str) : AccessoriesCloudReporter :=
  mkReporter [] [] [] None ∅ deviceType 0 0 0.

Section reporter.
Context {F : Type} `{!Files F} {JL : JsonLib}.
(** What [memcpy_s] leaves when it refuses to copy. *)
Context (memcpy_refused : list Z → nat → list Z).
Abbreviation M := (St (AccessoriesCloudReporter * F)).
Implicit Types r : AccessoriesCloudReporter.

Definition rep {B} (f : AccessoriesCloudReporter → B) : M B := st_gets (λ s, f s.1).
Definition rep_mod (f : AccessoriesCloudReporter → AccessoriesCloudReporter) : M unit :=
  st_modify (λ s, (f s.1, s.2)).
Definition on_files {B} (m : St F B) : M B := λ s, let '(b, f) := m s.2 in (b, (s.1, f)).
Definition files {B} (f : F → B) : M B := st_gets (λ s, f s.2).

Definition SetPath : M unit := rep_mod (λ r, r <| mReportPath := INTELL_VOICE_DEFAULT_DATA_PATH |>).
Definition ClosePcm : M unit := rep_mod (λ r, r <| mPcmBuffer := None |>).
Definition CreatePcm (maxPcmBufferSize : Z) : M unit :=
  _ ← ClosePcm;
  rep_mod (λ r, r <| mPcmBuffer := Some (new_pcm maxPcmBufferSize) |>).

Definition InitRootDir : M bool :=
  path ← rep mReportPath;
  made ← on_files (fs_CheckAndCreateDir path);
  if negb made then mret false else
  let subDir := path ++ lit "/" in
  made ← on_files (fs_CheckAndCreateDir subDir);
  if negb made then mret false else
  dirFile ← files (fs_GetDirFilePath subDir);
  if WAKEUP_PCM_REPORT_NUM_MAX <=? Z.of_nat (length dirFile) then
    _ ← ClosePcm;
    _ ← rep_mod (λ r, r <| mReportDir := [] |>);
    mret false
  else
    _ ← rep_mod (λ r, r <| mReportDir := subDir |>);
    mret true.

Definition Reporter_Init : M unit :=
  time ← files fs_time;
  _ ← rep_mod (λ r, r <| mReportInfo :=
        {[ "type"%string := deviceType_ r; "time"%string := time; "text"%string := XYXY_UNICODE ]} |>);
  _ ← SetPath;
  ok ← InitRootDir;
  if negb ok then ClosePcm else
  _ ← rep_mod (λ r, r <| beginIndex_ := 0 |> <| endIndex_ := 0 |> <| indexCount_ := 0 |>);
  _ ← CreatePcm (MIN_BUFFER_SIZE * FRAME_NUMBER);
  stamp ← files fs_stamp;
  rep_mod (λ r, r <| mTimeStamp := stamp |>).

(** The comparison and the difference are made in [uint32_t]. *)
Definition begin_of (endIndex : Z) : Z :=
  if FRAME_NUMBER - 1 <=? u32 endIndex then i32 (u32 (endIndex - (FRAME_NUMBER - 1))) else 0.
Definition SetEndIndex (endIndex : Z) : M unit :=
  if endIndex =? 0 then mret () else
  rep_mod (λ r, r <| endIndex_ := endIndex |> <| beginIndex_ := begin_of endIndex |>).

(** The overload for the information of a recognition; its values have the types
    asked for. *)
Definition SetEndIndex_info (text : str) : M unit :=
  match parseFromStream text with
  | None => mret ()
  | Some root =>
    let info := if isMember root (lit "VprInfo") then member root (lit "VprInfo") else jnull in
    let endIndex := if isMember info (lit "EndFrame") then asInt (member info (lit "EndFrame")) else 0 in
    _ ← SetEndIndex endIndex;
    rep_mod (λ r, r <| mReportInfo ::= <["labels"%string := text]> |>)
  end.

Definition WriteStream (audioData : list (list Z)) : M unit :=
  r ← rep id;
  match mPcmBuffer r with
  | None => mret ()
  | Some b =>
    if endIndex_ r =? 0 then mret () else
    match audioData with
    | [] => mret ()
    | data :: _ =>
      _ ← st_when ((beginIndex_ r <=? indexCount_ r) && (indexCount_ r <=? endIndex_ r))
            (rep_mod (λ r, r <| mPcmBuffer :=
               Some (Write memcpy_refused (Some data) (Z.of_nat (length data)) b).2 |>));
      rep_mod (λ r, r <| indexCount_ ::= λ n, i32 (n + 1) |>)
    end
  end.

(** [PcmBuffer::SaveToFile]. *)
Definition SaveToFile (needCrypt : bool) (fileName : str) (b : PcmBuffer) : M bool :=
  if mWritePos b =? 0 then mret false else
  opened ← on_files (fs_open fileName);
  if negb opened then mret false else
  let data := take (Z.to_nat (mWritePos b)) (mBuffer b) in
  if needCrypt then
    out ← files (fs_encrypt data);
    match out with None => mret false | Some out => on_files (fs_put fileName out) end
  else on_files (fs_put fileName data).

(** The reset both savers make when there is nothing to save. *)
Definition reset_report : M bool :=
  dir ← rep mReportDir;
  _ ← on_files (fs_DeleteDir dir);
  _ ← ClosePcm;
  _ ← rep_mod (λ r, r <| mReportDir := [] |>);
  mret false.
Definition SavePcm : M bool :=
  r ← rep id;
  match mPcmBuffer r with
  | None => reset_report
  | Some b =>
    if bool_decide (mReportDir r = []) || (endIndex_ r =? 0) then reset_report
    else SaveToFile fs_crypt (mReportDir r ++ CLOUD_REPORT_PCM) b
  end.

Definition DeleteEarliestDir (maxNum : Z) : M unit :=
  path ← rep mReportPath;
  dirFile ← files (fs_GetDirFilePath (path ++ lit "/"));
  if Z.of_nat (length dirFile) <=? maxNum then mret () else
  let earliest := foldl (λ least path, if bool_decide (str_le least path) then least else path)
                    (default [] (head dirFile)) dirFile in
  on_files (fs_DeleteDir earliest).

Definition CreateReportDir : M bool :=
  r ← rep id;
  if bool_decide (mTimeStamp r = []) then mret false else
  let dir := mReportDir r ++ mTimeStamp r ++ lit "/" in
  _ ← rep_mod (λ r, r <| mReportDir := dir |>);
  on_files (fs_CheckAndCreateDir dir).

Definition SetReportInfo : M bool :=
  r ← rep id;
  match mPcmBuffer r with
  | None => reset_report
  | Some _ =>
    if bool_decide (mReportDir r = []) || (endIndex_ r =? 0) then reset_report else
    _ ← rep_mod (λ r, r <| mReportInfo ::= <["sound"%string := lit "wakeup.pcm"]> |>);
    opened ← on_files (fs_open (mReportDir r ++ CLOUD_REPORT_JSON));
    if negb opened then _ ← on_files (fs_DeleteDir (mReportDir r)); mret false else
    info ← rep mReportInfo;
    _ ← on_files (fs_put (mReportDir r ++ CLOUD_REPORT_JSON) (fs_styled info));
    _ ← DeleteEarliestDir WAKEUP_PCM_SAVE_NUM_MAX;
    _ ← rep_mod (λ r, r <| mReportPath := [] |>);
    _ ← ClosePcm;
    mret true
  end.
End reporter.

(** * The frames that are kept *)

#[local] Arguments Write : simpl never.
Section kept.
Context {F : Type} `{!Files F} {JL : JsonLib} (memcpy_refused : list Z → nat → list Z).
Implicit Types (r : AccessoriesCloudReporter) (s : AccessoriesCloudReporter * F).

Definition write_streams (ws : list (list Z)) s : AccessoriesCloudReporter * F :=
  foldl (λ s w, (WriteStream memcpy_refused [w] s).2) s ws.
(** The frames [b] to [e], as far as they have come. *)
Definition frames_between (b e : Z) (ws : list (list Z)) : list (list Z) :=
  take (Z.to_nat (e + 1 - b)) (drop (Z.to_nat b) ws).
Definition frame_ok (w : list Z) : Prop := (0 < length w ≤ Z.to_nat MIN_BUFFER_SIZE)%nat.

(** A reporter that has got the frames [ws] since its buffer was made. *)
Record got (e : Z) (ws : list (list Z)) r : Prop := {
  got_buf : ∃ b, mPcmBuffer r = Some b ∧ mCapacity b = MIN_BUFFER_SIZE * FRAME_NUMBER ∧
                 holds (concat (frames_between (begin_of e) e ws)) b;
  got_end : endIndex_ r = e; got_begin : beginIndex_ r = begin_of e;
  got_count : indexCount_ r = Z.of_nat (length ws) }.

Lemma begin_range e : 0 < e < 2 ^ 31 → begin_of e = Z.max 0 (e - 99).
Proof.
  intros He. unfold begin_of, FRAME_NUMBER. rewrite u32_small by lia.
  destruct (Z.leb_spec (100 - 1) e); [|lia]. rewrite u32_small by lia. rewrite i32_small by lia. lia.
Qed.
Lemma frames_snoc b e ws w :
  0 ≤ b ≤ e →
  frames_between b e (ws ++ [w]) =
    frames_between b e ws ++ (if (b <=? Z.of_nat (length ws)) && (Z.of_nat (length ws) <=? e) then [w] else []).
Proof.
  intros Hb. unfold frames_between.
  destruct (Z.leb_spec b (Z.of_nat (length ws))) as [H1|H1]; simpl.
  - rewrite drop_app_le by lia. destruct (Z.leb_spec (Z.of_nat (length ws)) e) as [H2|H2].
    + rewrite take_ge by (rewrite length_app, length_drop; simpl; lia). by rewrite take_ge by (rewrite length_drop; lia).
    + rewrite take_app_le by (rewrite length_drop; lia). by rewrite app_nil_r.
  - rewrite !drop_ge by (rewrite ?length_app; simpl; lia). by rewrite !take_nil.
Qed.
Lemma concat_frames_length ws n :
  Forall frame_ok ws → (length ws ≤ n)%nat → (length (concat ws) ≤ 640 * n)%nat.
Proof.
  intros Hw. revert n. induction Hw as [|w ws [Hw1 Hw2] _ IH]; intros n Hn; simpl in *; [lia|].
  destruct n as [|n]; [lia|]. rewrite length_app. specialize (IH n ltac:(lia)). unfold MIN_BUFFER_SIZE in Hw2. lia.
Qed.
Lemma got_write e ws w s :
  0 < e < 2 ^ 31 - 1 → Z.of_nat (length ws) < 2 ^ 31 - 1 → Forall frame_ok ws → frame_ok w →
  got e ws s.1 → got e (ws ++ [w]) (WriteStream memcpy_refused [w] s).2.1.
Proof.
  intros He Hn Hws Hw [(b & Hb & Hcap & Hh) H1 H2 H3].
  assert (begin_of e = Z.max 0 (e - 99)) as Hbe by (apply begin_range; lia).
  unfold WriteStream, rep. rewrite bind_run. cbn. rewrite Hb, H1, H2, H3.
  destruct (Z.eqb_spec e 0); [lia|].
  assert (i32 (Z.of_nat (length ws) + 1) = Z.of_nat (length (ws ++ [w]))) as Hc
    by (rewrite i32_small by lia; rewrite length_app; simpl; lia).
  destruct ((begin_of e <=? Z.of_nat (length ws)) && (Z.of_nat (length ws) <=? e)) eqn:Hin.
  - unfold st_when, rep_mod. rewrite bind_run. cbn. constructor; cbn; [|done|done|by rewrite H3].
    pose proof (Write_holds memcpy_refused _ w b Hh ltac:(unfold frame_ok, MIN_BUFFER_SIZE in Hw; lia)) as Hwr.
    destruct (Write memcpy_refused (Some w) _ b) as [r' b'] eqn:Hwe. destruct Hwr as (Hr & Hcap' & Hh').
    exists b'. split; [done|]. split; [congruence|]. rewrite frames_snoc by lia. rewrite Hin, concat_app. simpl.
    rewrite app_nil_r. assert (r' = true) as ->; [|done]. rewrite Hr. apply bool_decide_eq_true. split.
    { intros ->. unfold frame_ok in Hw; simpl in Hw; lia. }
    rewrite Hcap. apply andb_true_iff in Hin as [Hin1%Z.leb_le Hin2%Z.leb_le].
    assert (length (concat (frames_between (begin_of e) e ws)) ≤ 640 * 99)%nat.
    { apply concat_frames_length; [by apply Forall_take, Forall_drop|]. unfold frames_between.
      rewrite length_take, length_drop. lia. }
    destruct Hw as [_ Hw]. unfold MIN_BUFFER_SIZE, FRAME_NUMBER in *. lia.
  - unfold st_when, rep_mod. rewrite bind_run. cbn. constructor; cbn; [|done|done|by rewrite H3].
    exists b. split; [done|]. split; [done|]. rewrite frames_snoc by lia. rewrite Hin, app_nil_r. done.
Qed.

(** [Init] makes an empty buffer or none. *)
Lemma Init_buffer s :
  mPcmBuffer (Reporter_Init s).2.1 = None ∨
  mPcmBuffer (Reporter_Init s).2.1 = Some (new_pcm (MIN_BUFFER_SIZE * FRAME_NUMBER)) ∧
  indexCount_ (Reporter_Init s).2.1 = 0.
Proof.
  unfold Reporter_Init. do 3 rewrite bind_run. rewrite bind_run.
  match goal with |- context [InitRootDir ?x] => destruct (InitRootDir x) as [[] [r f]] end; [right|by left]. done.
Qed.

(** C34: after [Init] and [SetEndIndex], whatever frames follow, the buffer of a reporter
    that could make one holds exactly the hundred frames that end with the end index,
    or those of them that have come, in order and none lost. *)
Theorem report_keeps_last_frames e ws s
    (Hs : is_Some (mPcmBuffer (Reporter_Init s).2.1)) (He : 0 < e < 2 ^ 31 - 1)
    (Hn : Z.of_nat (length ws) < 2 ^ 31) (Hws : Forall frame_ok ws) :
  ∃ b, mPcmBuffer (write_streams ws (SetEndIndex e (Reporter_Init s).2).2).1 = Some b ∧
       holds (concat (frames_between (Z.max 0 (e - 99)) e ws)) b.
Proof.
  destruct (Init_buffer s) as [Hb|[Hb Hi]]; [rewrite Hb in Hs; by destruct Hs|].
  rewrite <- (begin_range e) by lia.
  assert (got e [] (SetEndIndex e (Reporter_Init s).2).2.1) as H0.
  { unfold SetEndIndex. destruct (Z.eqb_spec e 0); [lia|]. cbn. constructor; cbn; [|done|done|done].
    eexists. split; [exact Hb|]. split; [done|]. unfold frames_between. rewrite drop_nil, take_nil. by apply new_pcm_holds. }
  revert H0. generalize (SetEndIndex e (Reporter_Init s).2).2. intros s0 H0.
  assert (∀ ws0 s1, got e ws0 s1.1 → Forall frame_ok ws0 → (Z.of_nat (length (ws0 ++ ws)) < 2 ^ 31) →
            got e (ws0 ++ ws) (write_streams ws s1).1) as Hall.
  { clear - He Hws. induction Hws as [|w ws Hw _ IH]; intros ws0 s1 Hg Hf Hl; [by rewrite app_nil_r|].
    cbn. rewrite length_app in Hl. simpl in Hl.
    specialize (IH (ws0 ++ [w]) (WriteStream memcpy_refused [w] s1).2). rewrite <- app_assoc in IH. apply IH.
    - apply got_write; [done|lia|done|done|done].
    - apply Forall_app; split; [done|by constructor].
    - rewrite length_app. simpl. lia. }
  destruct (Hall [] s0 H0) as [(b & Hb1 & _ & Hb2) _ _ _]; [done|done|]. by exists b.
Qed.
End kept.

(** A file system where everything works, and a run on it. *)
#[global] Instance easy_files : Files (list (str * list Z)) := {|
  fs_CheckAndCreateDir _ := mret true;
  fs_GetDirFilePath _ _ := [];
  fs_DeleteDir _ := mret ();
  fs_open _ := mret true;
  fs_put p d := λ f, (true, f ++ [(p, d)]);
  fs_encrypt d _ := Some d;
  fs_time _ := lit "t";
  fs_stamp _ := lit "s";
  fs_styled _ := [];
  fs_crypt := true |}.

Lemma report_keeps_last_frames_witness :
  ∃ b, mPcmBuffer (write_streams (λ l _, l) [[1]; [2]; [3]; [4]]
         (SetEndIndex 2 (Reporter_Init (new_reporter (lit "headset"), [])).2).2).1 = Some b ∧ holds [1; 2; 3] b.
Proof.
  apply (report_keeps_last_frames (λ l _, l) 2 [[1]; [2]; [3]; [4]] (new_reporter (lit "headset"), [])).
  - by eexists.
  - lia.
  - cbn; lia.
  - repeat constructor; cbn; unfold MIN_BUFFER_SIZE; lia.
Defined.

(** What is saved is what the buffer holds. *)
Example saved_report :
  (SavePcm (CreateReportDir (write_streams (λ l _, l) [[1]; [2]; [3]; [4]]
     (SetEndIndex 2 (Reporter_Init (new_reporter (lit "headset"), [])).2).2)).2).2.2 =
  [(lit "/data/service/el0/intell_voice/report/s//wakeup.pcm", [1; 2; 3])].
Proof. by vm_compute. Qed.
