(* ===== verification/WakeupImpl.v ===== *)
(** * The phone's wakeup engine

    [wakeup/wakeup_engine_impl.cpp]: the message-driven engine that, once the DSP has
    detected the wakeup word, has the HAL confirm it on the audio of the microphone and
    then lets a client read that audio.  The handlers work on the state [WakeupEngineImpl]
    of the object; the machine that runs them is the one of [StateManager.v].  The audio
    source calls back on its own thread ([ReadBufferCallback], [OnEndOfPcm]), and the
    events of the HAL reach the machine through the engine's task queue.  The threads the
    code starts for calls to other processes are run at once. *)

From S2P Require Import Prelude StringUtil AudioUtil Settings StateManager EngineTypes.
From S2P Require Import EngineAudio EngineUtil WakeupSource WakeupListener.
From Stdlib Require Import Ascii.

(** [enum EngineState] and [enum EngineEvent], [ProcessType]. *)
Definition IDLE : Z := 0.
Definition INITIALIZING : Z := 1.
Definition INITIALIZED : Z := 2.
Definition RECOGNIZING : Z := 3.
Definition RECOGNIZED : Z := 4.
Definition READ_CAPTURER : Z := 5.
Definition INIT : Z := 1.
Definition INIT_DONE : Z := 2.
Definition START_RECOGNIZE : Z := 3.
Definition STOP_RECOGNIZE : Z := 4.
Definition RECOGNIZE_COMPLETE : Z := 5.
Definition START_CAPTURER : Z := 6.
Definition READ : Z := 7.
Definition STOP_CAPTURER : Z := 8.
Definition RECOGNIZING_TIMEOUT : Z := 9.
Definition RECOGNIZE_COMPLETE_TIMEOUT : Z := 10.
Definition READ_CAPTURER_TIMEOUT : Z := 11.
Definition SET_LISTENER : Z := 12.
Definition SET_PARAM : Z := 13.
Definition GET_PARAM : Z := 14.
Definition GET_WAKEUP_PCM : Z := 15.
Definition RELEASE_ADAPTER : Z := 16.
Definition RESET_ADAPTER : Z := 17.
Definition RELEASE : Z := 18.
Definition PROCESS_IDLE : Z := 0.
Definition PROCESS_WAKEUP_PHONE : Z := 1.
Definition PROCESS_WAKEUP_HEADSET : Z := 2.
Definition PROCESS_WAKEUP_GLASSES : Z := 3.
Definition PROCESS_WISPHER_PHONE : Z := 4.

Definition MIN_BUFFER_SIZE : Z := 640.
Definition INTERVAL : Z := 100.
Definition WAKEUP_SOURCE_CHANNEL : string := "wakeup_source_channel".
Definition WAKEUP_TIMESTAMP : string := "wakeup_timestamp".
Definition DEFAULT_WAKEUP_PHRASE : str := lit "小艺小艺".
Definition RECOGNIZING_TIMEOUT_US : Z := 10 * 1000 * 1000.
Definition RECOGNIZE_COMPLETE_TIMEOUT_US : Z := 2 * 1000 * 1000.
Definition READ_CAPTURER_TIMEOUT_US : Z := 10 * 1000 * 1000.
Definition MAX_WAKEUP_TASK_NUM : Z := 200.
Definition MONO : Z := 1.
Definition CHANNEL_4 : Z := 4.

(** What the pointers of a message point to: [msg.inMsg], for [BKey] also [msg.outMsg], and
    for [BOut] [msg.outMsg] only. *)
Inductive Body :=
| BInt (n : Z) | BStr (s : str) | BKey (key : str) | BEvent (e : HdiEvent) | BListener (cb : option nat) | BOut.

Inductive FoldStatus := FOLD_UNKNOWN | FOLD_EXPAND | FOLD_FOLDED.
#[global] Instance FoldStatus_eq : EqDecision FoldStatus.
Proof. solve_decision. Defined.

(** The lambdas the engine gives to its executor. *)
Inductive WkTask := TInitDone (result : Z) | TWakeupRecognition (result : Z) (info : str).

(** The members.  [wk_channels] is [capturerOptions_.streamInfo.channels]; [wk_str] and
    [wk_data] are what the last handler wrote through [msg.outMsg]. *)
Record WakeupEngineImpl (H A : Type) := mkWakeup {
  wk_adapter : option AdapterHostManager; wk_adapterType : Z; wk_hw : Hw H; wk_fw : A;
  wk_sp : WakeupSourceProcess; wk_listener : WakeupAdapterListener; wk_isPcmFromExternal : bool;
  isMultiChannel_ : bool; channels_ : Z; channelId_ : Z; wk_callerTokenId : Z; audioSourceStart_ : Z;
  audioSourceEnd_ : Z; pcmReadCnt_ : Z; wakeupSourceStopCallback_ : bool; wk_source : option AudioSource;
  wk_channels : Z; curFoldStatus_ : FoldStatus; wk_tasks : list WkTask; wk_str : str; wk_data : list Z }.
Arguments mkWakeup {H A} _ _ _ _ _ _ _ _ _ _ _ _ _ _ _ _ _ _ _ _ _.
Arguments wk_adapter {H A} _.
Arguments wk_adapterType {H A} _.
Arguments wk_hw {H A} _.
Arguments wk_fw {H A} _.
Arguments wk_sp {H A} _.
Arguments wk_listener {H A} _.
Arguments wk_isPcmFromExternal {H A} _.
Arguments isMultiChannel_ {H A} _.
Arguments channels_ {H A} _.
Arguments channelId_ {H A} _.
Arguments wk_callerTokenId {H A} _.
Arguments audioSourceStart_ {H A} _.
Arguments audioSourceEnd_ {H A} _.
Arguments pcmReadCnt_ {H A} _.
Arguments wakeupSourceStopCallback_ {H A} _.
Arguments wk_source {H A} _.
Arguments wk_channels {H A} _.
Arguments curFoldStatus_ {H A} _.
Arguments wk_tasks {H A} _.
Arguments wk_str {H A} _.
Arguments wk_data {H A} _.
#[global] Instance WakeupEngineImpl_eta H A : Eta (WakeupEngineImpl H A) :=
  λ e, mkWakeup (wk_adapter e) (wk_adapterType e) (wk_hw e) (wk_fw e) (wk_sp e) (wk_listener e)
         (wk_isPcmFromExternal e) (isMultiChannel_ e) (channels_ e) (channelId_ e) (wk_callerTokenId e)
         (audioSourceStart_ e) (audioSourceEnd_ e) (pcmReadCnt_ e) (wakeupSourceStopCallback_ e) (wk_source e)
         (wk_channels e) (curFoldStatus_ e) (wk_tasks e) (wk_str e) (wk_data e).
#[global] Instance wk_util_lens H A : Lens (WakeupEngineImpl H A) (EngineUtil H) := {|
  view e := mkEngineUtil (wk_adapter e) (wk_adapterType e) (wk_hw e);
  set u e := e <| wk_adapter := adapter_ u |> <| wk_adapterType := adapterType u |> <| wk_hw := hw u |> |}.
#[global] Instance wk_util_laws H A : LensLaws (WakeupEngineImpl H A) (EngineUtil H).
Proof. constructor; [by intros [] []|by intros []|done]. Qed.
#[global] Instance wk_fw_lens H A : Lens (WakeupEngineImpl H A) A := {| view := wk_fw; set a e := e <| wk_fw := a |> |}.
#[global] Instance wk_fw_laws H A : LensLaws (WakeupEngineImpl H A) A.
Proof. constructor; [done|by intros []|done]. Qed.
#[global] Instance wk_listener_lens H A : Lens (WakeupEngineImpl H A) WakeupAdapterListener := {|
  view := wk_listener; set l e := e <| wk_listener := l |> |}.
#[global] Instance wk_listener_laws H A : LensLaws (WakeupEngineImpl H A) WakeupAdapterListener.
Proof. constructor; [done|by intros []|done]. Qed.

(** A new engine. *)
Definition new_wakeup {H A} (adapterTypeBut : Z) (w : Hw H) (a : A) : WakeupEngineImpl H A :=
  mkWakeup None adapterTypeBut w a new_sp new_listener false false 0 0 0 0 0 0 false None MONO FOLD_UNKNOWN [] [] [].

Section wakeup.
Context {H A T D : Type} `{!EngineHal H} `{!AudioFw A} `{!TriggerPort T} `{!KvStore D}.
Context {JL : JsonLib} {PL : Platform} {IDS : HdiIds} {AM : AudioModes}.
Abbreviation E := (Sys (WakeupEngineImpl H A) T D).
Abbreviation M := (St (Sys (WakeupEngineImpl H A) T D)).
Abbreviation Hand := (Handler Body E).

Definition on_util {B} (m : St (Sys (EngineUtil H) T D) B) : M B := zoom m.
Definition on_sp {B} (m : St WakeupSourceProcess B) : M B := λ s,
  let '(b, p) := m (wk_sp (own s)) in (b, s <| own ::= λ e, e <| wk_sp := p |> |>).

(** The answers of handlers. *)
Definition answer (ret next : Z) : M HandlerResult := mret (mkResult ret next false).

(** [WakeupTrack::reportWakeupTrack]. *)
Definition track (stage result errCode : Z) : M unit := emit (TrackReport stage result errCode).

(** [GetSwitchStatus]: [QUERY_SWITCH_STATUS] over the message bus. *)
Definition GetSwitchStatus (key : string) : M bool := get_fw (af_switch key).

(** ** Parameters of the trigger manager and of the settings *)

Definition GetWakeupSourceChannel : M Z :=
  channel ← on_trigger (tp_GetParameter WAKEUP_SOURCE_CHANNEL);
  mret (if bool_decide (channel = []) then MONO else
        match StringToInt channel with
        | None => MONO
        | Some channelCnt => if (channelCnt <? MONO) || (CHANNEL_4 <? channelCnt) then MONO else channelCnt
        end).

Definition trigger_param (key : str) : option string :=
  snd <$> list_find (λ p, lit p = key) TRIGGER_PARAMS.

(** [SetTriggerParameter]: the parameters of the trigger manager are set, the text of the
    others is returned. *)
Fixpoint set_trigger_params (kvs : list (str * str)) : M unit :=
  match kvs with
  | [] => mret ()
  | (k, v) :: kvs =>
    _ ← match trigger_param k with
        | Some key => _ ← on_settings (SetStringKVPair key v); st_void (on_trigger (tp_SetParameter key v))
        | None => mret ()
        end;
    set_trigger_params kvs
  end.
Definition other_params (kvs : list (str * str)) : str :=
  join ";"%char ((λ kv, kv_text kv.1 kv.2) <$> filter (λ kv, trigger_param kv.1 = None) kvs).
Definition WK_SetTriggerParameter (keyValueList : str) : M str :=
  let kvs := match SplitStringToKVPair keyValueList ∅ with Some kv => pairs_in_order kv | None => [] end in
  _ ← set_trigger_params kvs;
  mret (other_params kvs).

Definition GetWakeupPhrase : M str :=
  wakeupPhrase ← st_gets (λ s, GetStringKVPair KEY_WAKEUP_PHRASE (db s));
  mret (if bool_decide (wakeupPhrase = []) then DEFAULT_WAKEUP_PHRASE else wakeupPhrase).

(** ** Models *)

Definition SetWakeupModel : M unit :=
  short ← GetSwitchStatus SHORTWORD_KEY;
  st_void (on_util (adapter_call (CSetParameter (lit (if GetSupportAbility ABILITY_SHORT_WORD && (short : bool)
                                                      then "WakeupMode=1" else "WakeupMode=0"))))).

Definition UpdateDspModel : M unit :=
  let proc type := (model ← on_util (ReadDspModel type); on_util (ProcDspModel model)) in
  if GetSupportAbility ABILITY_SHORT_WORD then
    on ← GetSwitchStatus SHORTWORD_KEY;
    _ ← emit (SwingEvent on);
    proc (if (on : bool) then SHORT_WORD_DSP_MODEL else DSP_MODLE)
  else if GetSupportAbility ABILITY_DUAL_MIC then
    on ← GetSwitchStatus DUALMIC_KEY;
    _ ← emit (SwingEvent on);
    proc DSP_MODLE
  else proc DSP_MODLE.
(** ** The audio source *)

Definition SetFoldStatus : M unit :=
  keyValueList ← on_trigger (tp_GetParameter "fold_status_info");
  if bool_decide (keyValueList = []) then mret () else
  let kv := default ∅ (SplitStringToKVPair keyValueList ∅) in
  let isFoldable := bool_decide (kv !! lit "is_foldable" = Some (lit "true")) in
  let newStatus := if bool_decide (kv !! lit "fold_status" = Some (lit "fold")) then FOLD_FOLDED else FOLD_EXPAND in
  cur ← getc curFoldStatus_;
  if negb isFoldable || bool_decide (newStatus = cur) then mret () else
  _ ← modc (λ e, e <| curFoldStatus_ := newStatus |>);
  sys ← get_fw af_system;
  st_when sys (on_fw (af_SetAsrAecMode (if bool_decide (newStatus = FOLD_FOLDED) then AEC_FOLDED else AEC_EXPAND))).

Definition SetParamOnAudioStart (uuid : Z) : M unit :=
  sys ← get_fw af_system;
  if negb sys then mret () else
  _ ← st_when WINDOW_MANAGER SetFoldStatus;
  _ ← on_fw (af_SetAsrAecMode AEC_STANDARD);
  on_fw (af_SetAsrNoiseSuppressionMode (if uuid =? PROXIMAL_WAKEUP_MODEL_UUID then NS_NEAR_FIELD else NS_STANDARD)).

Definition SetParamOnAudioStop : M unit :=
  sys ← get_fw af_system;
  if negb sys then mret () else
  stream ← get_fw af_stream;
  if negb stream then mret () else
  capturers ← get_fw af_capturers;
  if bool_decide (Some SOURCE_TYPE_VOICE_RECOGNITION ∈ capturers) then mret () else
  _ ← on_fw (af_SetAsrAecMode AEC_BYPASS);
  on_fw (af_SetAsrNoiseSuppressionMode NS_BYPASS).

Definition CreateWakeupSourceStopCallback : M bool :=
  cb ← getc wakeupSourceStopCallback_;
  if (cb : bool) then mret true else
  sys ← get_fw af_system;
  if negb sys then mret false else
  _ ← modc (λ e, e <| wakeupSourceStopCallback_ := true |>);
  _ ← on_fw (af_SetWakeUpSourceCloseCallback true);
  mret true.
Definition DestroyWakeupSourceStopCallback : M unit :=
  cb ← getc wakeupSourceStopCallback_;
  if negb cb then mret () else
  sys ← get_fw af_system;
  if negb sys then mret () else
  _ ← on_fw (af_SetWakeUpSourceCloseCallback false);
  modc (λ e, e <| wakeupSourceStopCallback_ := false |>).

Definition WK_StartAudioSource : M bool :=
  _ ← modc (λ e, e <| pcmReadCnt_ := 0 |>);
  channels ← GetWakeupSourceChannel;
  _ ← modc (λ e, e <| wk_channels := channels |>);
  _ ← on_sp (SP_Init channels);
  let source := new_source (MIN_BUFFER_SIZE * channels) INTERVAL SOURCE_TYPE_WAKEUP channels in
  r ← on_fw (Source_Start source);
  if negb r.1 then
    _ ← modc (λ e, e <| wk_source := None |>);
    _ ← on_sp SP_Release;
    mret false
  else
    _ ← modc (λ e, e <| wk_source := Some r.2 |>);
    t ← get_fw af_time_ms;
    _ ← modc (λ e, e <| audioSourceStart_ := t |>);
    mret true.

Definition WK_StopAudioSource : M unit :=
  source ← getc wk_source;
  match source with
  | None => mret ()
  | Some source =>
    _ ← SetParamOnAudioStop;
    _ ← on_fw (Source_Stop source);
    _ ← modc (λ e, e <| wk_source := None |>);
    on_sp SP_Release
  end.

(** The end of the audio that belongs to the wakeup word, and a buffer of audio; [size]
    is in bytes and [buffer] in samples.  A read outside the buffer cannot happen. *)
Definition OnEndOfPcm : M unit :=
  t ← get_fw af_time_ms;
  _ ← modc (λ e, e <| audioSourceEnd_ := t |>);
  st_void (on_util (adapter_call (CSetParameter (lit "end_of_pcm=true")))).

Definition ReadBufferCallback (buffer : list Z) (size : Z) (isEnd : bool) : M unit :=
  e ← getc id;
  match DeinterleaveAudioData buffer (u32 (size / 2)) (wk_channels e) with
  | None | Some (false, _) => mret ()
  | Some (true, audioData) =>
    if negb (Z.of_nat (length audioData) =? u32 (wk_channels e)) || (Z.of_nat (length audioData) <=? channelId_ e)
    then mret () else
    let data i := default [] (audioData !! i) in
    _ ← match wk_adapter e with
        | None => mret ()
        | Some _ =>
          if isEnd then mret () else
          let pcm := if channelId_ e =? 1 then data 0%nat ++ data 1%nat
                     else if isMultiChannel_ e && (Z.of_nat (length audioData) =? 4)
                          then data 0%nat ++ data 1%nat ++ data 3%nat
                          else data (Z.to_nat (channelId_ e)) in
          _ ← on_util (adapter_call (CWriteAudio pcm));
          modc (λ e, e <| pcmReadCnt_ ::= λ n, u32 (n + 1) |>)
        end;
    on_sp (SP_Write audioData)
  end.
(** ** Handlers *)

Definition HandleSetParam : Hand := λ msg cur,
  match inMsg msg with
  | Some (BStr param) =>
    engineParams ← WK_SetTriggerParameter param;
    if bool_decide (engineParams = []) then answer 0 cur else
    ret ← on_util (SetParameter engineParams);
    answer ret cur
  | _ => answer (-1) cur
  end.

Definition timestamp_text (start end' : Z) : str :=
  lit "source_start:" ++ Int2String start ++ lit ";source_end:" ++ Int2String end' ++ lit ";".
Definition HandleGetParam : Hand := λ msg cur,
  match inMsg msg with
  | Some (BKey key) =>
    value ← (if bool_decide (key = lit WAKEUP_SOURCE_CHANNEL) then n ← getc wk_channels; mret (Int2String n)
             else if bool_decide (key = lit "is_callback_exist") then GetCallbackStatus
             else if bool_decide (key = lit WAKEUP_TIMESTAMP) then
               timestamp ← on_trigger (tp_GetParameter WAKEUP_TIMESTAMP);
               v ← on_util (GetParameter key);
               e ← getc id;
               if (audioSourceStart_ e =? 0) || (audioSourceEnd_ e =? 0) then mret (timestamp ++ v) else
               _ ← modc (λ e, e <| audioSourceStart_ := 0 |> <| audioSourceEnd_ := 0 |>);
               mret (timestamp ++ v ++ timestamp_text (audioSourceStart_ e) (audioSourceEnd_ e))
             else on_util (GetParameter key));
    _ ← modc (λ e, e <| wk_str := value |>);
    answer 0 cur
  | _ => answer (-1) cur
  end.

(** [SetCallbackInner] and [AttachInner]; the listener is there from [Init] on. *)
Definition SetCallbackInner : M bool :=
  a ← getc wk_adapter;
  match a with None => mret false | Some _ => _ ← on_util (adapter_call CSetCallback); mret true end.
Definition attach (phrase : str) : AdCall := CAttach phrase MIN_BUFFER_SIZE 1 16 16000.
Definition AttachInner (phrase : str) : M Z :=
  a ← getc wk_adapter;
  match a with
  | None => mret (-1)
  | Some _ => _ ← modc (λ e, e <| wk_isPcmFromExternal := false |>); on_util (adapter_call (attach phrase))
  end.

Definition HandleInit : Hand := λ _ cur,
  created ← on_util (CreateAdapterInner WAKEUP_ADAPTER_TYPE);
  if negb created then answer (-1) cur else
  called ← SetCallbackInner;
  if negb called then answer (-1) cur else
  _ ← on_util SetWhisperVpr;
  _ ← SetWakeupModel;
  _ ← on_util SetLanguage;
  _ ← on_util SetArea;
  _ ← on_util SetSensibility;
  _ ← on_util SetTriggerParameter;
  _ ← on_util SetImproveParam;
  _ ← on_util SetDspFeatures;
  phrase ← GetWakeupPhrase;
  ret ← AttachInner phrase;
  if negb (ret =? 0) then answer (-1) cur else
  _ ← UpdateDspModel;
  answer 0 INITIALIZING.

(** [IntellVoiceUtil::SendCommonEvent]. *)
Definition SendCommonEvent (event : string) : M unit :=
  bundleName ← st_gets (λ s, GetStringKVPair KEY_WAKEUP_ENGINE_BUNDLE_NAME (db s));
  abilityName ← st_gets (λ s, GetStringKVPair KEY_WAKEUP_ENGINE_ABILITY_NAME (db s));
  if bool_decide (bundleName = []) || bool_decide (abilityName = []) then mret () else
  if negb ability_client then mret () else emit (CommonEvent event).

Definition HandleInitDone : Hand := λ msg cur,
  match inMsg msg with
  | Some (BInt 0) => _ ← SendCommonEvent "wakeupEngineInited"; answer 0 INITIALIZED
  | _ => answer (-1) cur
  end.

Definition HandleSetListener : Hand := λ msg cur,
  match inMsg msg with
  | Some (BListener cb) => _ ← L_SetCallback cb; answer 0 cur
  | _ => answer (-1) cur
  end.

(** The body of [HandleStart] up to its end ([None]) or to the jump to [err] with an
    error code. *)
Definition start_recognize (uuid : option Z) : M (option Z) :=
  multiChannelValue ← on_util (GetParameter (lit "wakeup_multi_channel"));
  _ ← modc (λ e, e <| isMultiChannel_ := bool_decide (multiChannelValue = lit "true") |>);
  match uuid with
  | None => mret (Some SA_INPUT_ERROR)
  | Some uuid =>
    let whisper := uuid =? PROXIMAL_WAKEUP_MODEL_UUID in
    _ ← modc (λ e, e <| channelId_ := if whisper then 1 else 0 |>);
    _ ← on_sp (SetReadBufferFlag (negb whisper));
    _ ← on_util (SetParameter (lit (if whisper then "WakeupType=3" else "WakeupType=0")));
    screenoff ← get_fw af_screenoff;
    _ ← on_util (SetScreenStatus screenoff);
    a ← getc wk_adapter;
    match a with
    | None => mret (Some SA_HOST_ERROR)
    | Some _ =>
      ret ← on_util (adapter_call (CStart true));
      if negb (ret =? 0) then mret (Some SA_HOST_ERROR) else
      created ← CreateWakeupSourceStopCallback;
      if negb created then _ ← on_util (adapter_call CStop); mret (Some SA_HOST_ERROR) else
      _ ← SetParamOnAudioStart uuid;
      started ← WK_StartAudioSource;
      if negb started then _ ← SetParamOnAudioStop; _ ← on_util (adapter_call CStop); mret (Some SA_AUDIO_SOURCE_ERROR)
      else mret None
    end
  end.
Definition body_int (b : option Body) : option Z := match b with Some (BInt n) => Some n | _ => None end.
Definition HandleStart : Hand := λ msg cur,
  err ← start_recognize (body_int (inMsg msg));
  match err with
  | None =>
    _ ← track WAKEUP_STAGE_SA_HANDLE_DETECTED WAKEUP_RESULT_DEFAULT WAKEUP_ERROR_CODE_END;
    answer 0 RECOGNIZING
  | Some errCode => _ ← track WAKEUP_STAGE_SA_HANDLE_DETECTED WAKEUP_RESULT_FAIL errCode; answer (-1) cur
  end.

Definition HandleStop : Hand := λ _ _,
  _ ← WK_StopAudioSource;
  _ ← on_util Stop;
  answer 0 INITIALIZED.

Definition HandleRecognizeComplete : Hand := λ msg cur,
  match inMsg msg with
  | Some (BEvent event) =>
    _ ← L_Notify event;
    if negb (ev_result event =? 0) then
      _ ← WK_StopAudioSource; _ ← on_util Stop; answer 0 INITIALIZED
    else _ ← on_util Stop; answer 0 RECOGNIZED
  | _ => answer (-1) cur
  end.

Definition HandleStartCapturer : Hand := λ msg cur,
  _ ← track WAKEUP_STAGE_SA_ONESHOT_START WAKEUP_RESULT_DEFAULT WAKEUP_ERROR_CODE_END;
  ret ← get_fw VerifySystemPermission;
  if negb (ret =? INTELLIGENT_VOICE_SUCCESS) then answer ret cur else
  match body_int (inMsg msg) with
  | None => answer INTELLIGENT_VOICE_START_CAPTURER_FAILED cur
  | Some channels =>
    _ ← modc (λ e, e <| channels_ := channels |>);
    token ← get_fw at_TokenID;
    _ ← modc (λ e, e <| wk_callerTokenId := token |>);
    recorded ← RecordPermissionPrivacy token true;
    if negb recorded then answer (-1) cur else answer 0 READ_CAPTURER
  end.

Definition HandleRead : Hand := λ msg cur,
  match inMsg msg with
  | Some BOut =>
    channels ← getc channels_;
    r ← on_sp (SP_Read [] channels);
    _ ← modc (λ e, e <| wk_data := r.2 |>);
    if negb (r.1 =? 0) then answer r.1 cur else mret (mkResult 0 cur true)
  | _ => answer (-1) cur
  end.

Definition HandleStopCapturer : Hand := λ _ cur,
  _ ← track WAKEUP_STAGE_SA_ONESHOT_END WAKEUP_RESULT_DEFAULT WAKEUP_ERROR_CODE_END;
  _ ← WK_StopAudioSource;
  _ ← on_util Stop;
  _ ← ClearBackupEvent;
  token ← getc wk_callerTokenId;
  _ ← st_when (cur =? READ_CAPTURER) (st_void (RecordPermissionPrivacy token false));
  answer 0 INITIALIZED.
Definition HandleStopCapturerTimeout (stageCode : Z) : Hand := λ msg cur,
  _ ← track stageCode WAKEUP_RESULT_FAIL SA_TIMEOUT_ERROR;
  HandleStopCapturer msg cur.

Definition HandleRecognizingTimeout : Hand := λ _ _,
  _ ← track WAKEUP_STAGE_SA_RECOGNIZING WAKEUP_RESULT_FAIL SA_TIMEOUT_ERROR;
  _ ← WK_StopAudioSource;
  _ ← on_util Stop;
  answer 0 INITIALIZED.

Definition HandleGetWakeupPcm : Hand := λ msg cur,
  match inMsg msg with
  | Some BOut =>
    r ← on_util GetWakeupPcm;
    _ ← modc (λ e, e <| wk_data := r.2 |>);
    answer r.1 cur
  | _ => answer (-1) cur
  end.

Definition HandleResetAdapter : Hand := λ _ cur,
  created ← on_util (CreateAdapterInner WAKEUP_ADAPTER_TYPE);
  if negb created then answer (-1) cur else
  _ ← SetWakeupModel;
  _ ← on_util (adapter_call CSetCallback);
  _ ← on_util SetWhisperVpr;
  _ ← on_util SetLanguage;
  _ ← on_util SetArea;
  _ ← on_util SetSensibility;
  _ ← on_util SetImproveParam;
  _ ← on_util SetDspFeatures;
  phrase ← GetWakeupPhrase;
  ret ← on_util (adapter_call (attach phrase));
  if negb (ret =? 0) then _ ← on_util ReleaseAdapterInner; answer (-1) cur else
  _ ← UpdateDspModel;
  answer 0 INITIALIZING.

Definition HandleRelease : Hand := λ _ cur,
  _ ← DestroyWakeupSourceStopCallback;
  _ ← WK_StopAudioSource;
  token ← getc wk_callerTokenId;
  _ ← st_when (cur =? READ_CAPTURER) (st_void (RecordPermissionPrivacy token false));
  a ← getc wk_adapter;
  _ ← match a with
      | None => mret ()
      | Some _ => _ ← on_util (adapter_call CDetach); on_util ReleaseAdapterInner
      end;
  answer 0 IDLE.

(** ** The machine *)

Abbreviation Machine := (ModuleStates Body E).

Definition InitStates (m : Machine) : Machine :=
  let m := foldl (λ m i, for_state i (λ a, Add GET_PARAM HandleGetParam (Add SET_PARAM HandleSetParam
                                              (Add SET_LISTENER HandleSetListener a))) m)
             m (state_range IDLE READ_CAPTURER) in
  let m := for_state IDLE (λ a, Add RESET_ADAPTER HandleResetAdapter (Add INIT HandleInit a)) m in
  let m := for_state INITIALIZING (Add INIT_DONE HandleInitDone) m in
  let m := for_state INITIALIZED (Add START_RECOGNIZE HandleStart) m in
  let m := for_state RECOGNIZING (λ a, Add RECOGNIZE_COMPLETE HandleRecognizeComplete (Add STOP_RECOGNIZE HandleStop
             (WaitUntil RECOGNIZING_TIMEOUT HandleRecognizingTimeout RECOGNIZING_TIMEOUT_US 0 a))) m in
  let m := for_state RECOGNIZED (λ a, Add START_CAPTURER HandleStartCapturer (Add GET_WAKEUP_PCM HandleGetWakeupPcm
             (WaitUntil RECOGNIZE_COMPLETE_TIMEOUT (HandleStopCapturerTimeout WAKEUP_STAGE_SA_RECOGNIZED_COMPLETE)
                RECOGNIZE_COMPLETE_TIMEOUT_US 0 a))) m in
  let m := for_state READ_CAPTURER (λ a, Add STOP_CAPTURER HandleStopCapturer (Add READ HandleRead
             (WaitUntil READ_CAPTURER_TIMEOUT (HandleStopCapturerTimeout WAKEUP_STAGE_SA_ONESHOT_PROCESSE)
                READ_CAPTURER_TIMEOUT_US 0 a))) m in
  GroupAdd RELEASE HandleRelease (GroupAdd RELEASE_ADAPTER HandleRelease (FromState true INITIALIZING READ_CAPTURER m)).

(** The constructor with [Create]; the timer thread starts. *)
Definition WK_Create (listener : bool) (e : E) : Machine :=
  InitStates (SetStateListener listener (make_states IDLE true PROCESS_IDLE e)).

(** [Handle]. *)
Definition WK_Handle (now : Z) (msg : StateMsg Body) (m : Machine) : option (Z * Machine) :=
  if negb (isInitSucc_ m) then Some (-1, m) else HandleMsg now msg m.

(** [GetEventValue] and [OnTriggerDetected], for the device with this address and these
    parameters. *)
Definition GetEventValue (uuid : Z) (m : Machine) : string * Machine :=
  if uuid =? PROXIMAL_WAKEUP_MODEL_UUID then ("whisper_event"%string, SetProcessType PROCESS_WISPHER_PHONE m)
  else ("recognition_event"%string, SetProcessType PROCESS_WAKEUP_PHONE m).
Definition WK_OnTriggerDetected (now uuid : Z) (macAddress parameters : str) (m : Machine) : option Machine :=
  let '(eventStr, m1) := GetEventValue uuid m in
  let m2 := (with_env (StartAbilityOnDetected eventStr macAddress parameters 0) m1).2 in
  '(ret, m3) ← WK_Handle now (mkStateMsg START_RECOGNIZE (Some (BInt uuid))) m2;
  Some (if (ret : Z) =? 0 then m3 else (with_env (AddAsyncTask (THandleCloseWakeupSource true) false) m3).2).

(** [OnWakeupEvent], on the HAL's thread, and a turn of the engine's executor. *)
Definition OnWakeupEvent (event : HdiEvent) : M unit :=
  let push t := modc (λ e, if Z.of_nat (length (wk_tasks e)) <? MAX_WAKEUP_TASK_NUM
                           then e <| wk_tasks ::= λ q, q ++ [t] |> else e) in
  if ev_msgId event =? INTELL_VOICE_ENGINE_MSG_INIT_DONE then push (TInitDone (ev_result event))
  else if ev_msgId event =? INTELL_VOICE_ENGINE_MSG_RECOGNIZE_COMPLETE
  then push (TWakeupRecognition (ev_result event) (ev_info event))
  else mret ().
Definition OnInitDone (now result : Z) (m : Machine) : option Machine :=
  snd <$> WK_Handle now (mkStateMsg INIT_DONE (Some (BInt result))) m.
Definition OnWakeupRecognition (now result : Z) (info : str) (m : Machine) : option Machine :=
  let m1 := (with_env (track WAKEUP_STAGE_SA_RECOGNIZED WAKEUP_RESULT_DEFAULT WAKEUP_ERROR_CODE_END) m).2 in
  snd <$> WK_Handle now (mkStateMsg RECOGNIZE_COMPLETE
                           (Some (BEvent (mkEvent INTELL_VOICE_ENGINE_MSG_RECOGNIZE_COMPLETE result info)))) m1.
Definition WK_ExecuteInThread (now : Z) (m : Machine) : option Machine :=
  match wk_tasks (own (env m)) with
  | [] => Some m
  | t :: rest =>
    let m1 := (with_env (modc (λ e, e <| wk_tasks := rest |>)) m).2 in
    match t with
    | TInitDone result => OnInitDone now result m1
    | TWakeupRecognition result info => OnWakeupRecognition now result info m1
    end
  end.
End wakeup.
