(* ===== verification/WakeupSafety.v ===== *)
(** * The phone's wakeup engine: what holds in each state

    The microphone is read exactly in the states [RECOGNIZING], [RECOGNIZED] and
    [READ_CAPTURER], its use is in order for the caller in [READ_CAPTURER] and over in the
    other states (but for what the privacy kit refuses), and every state but
    [IDLE] has an adapter.  The invariant is stated per state of the machine ([wk_inv])
    and kept by every handler; [handlers_keep] of [StateManager.v] lifts it to the
    machine. *)

From S2P Require Import Prelude StringUtil AudioUtil Settings StateManager MachineRuns EngineTypes.
From S2P Require Import EngineAudio EngineUtil WakeupSource WakeupListener WakeupImpl.

Section safety.
Context {H A T D : Type} `{!EngineHal H} `{!AudioFw A} `{!TriggerPort T} `{!KvStore D}.
Context {JL : JsonLib} {PL : Platform} {IDS : HdiIds} {AM : AudioModes}.
Abbreviation E := (Sys (WakeupEngineImpl H A) T D).
Abbreviation M := (St (Sys (WakeupEngineImpl H A) T D)).
Implicit Types e : E.

(** What the invariant looks at; the buffers only while there is no source. *)
Definition core e : option AudioSource * option AdapterHostManager * Z * (gset Z * gset Z) * option (Z * list (Queues.QueueUtil (list Z))) :=
  (wk_source (own e), wk_adapter (own e), wk_callerTokenId (own e), mic_ledger (outs e),
   match wk_source (own e) with
   | None => Some (channelCnt_ (wk_sp (own e)), bufferQueue_ (wk_sp (own e)))
   | Some _ => None
   end).
Abbreviation same := (frames core).

(** ** Computations that leave the core alone *)

Lemma same_util {B} (m : St (Sys (EngineUtil H) T D) B) : plain m → same (on_util m).
Proof.
  intros Hm c e <-. unfold on_util, zoom.
  pose proof (Hm (outs e) (wk_adapter (own e)) (with_own (view (own e)) e) (conj eq_refl eq_refl)) as H1.
  destruct (m _) as [b s']. cbn [fst snd] in *. destruct H1 as [H1 H2]. unfold core. cbn. by rewrite H1, H2.
Qed.
Lemma same_fw {B} (m : St A B) : same (on_fw m).
Proof. intros c e <-. by rewrite on_fw_run. Qed.
Lemma same_settings {B} (m : St (option D) B) : same (on_settings m).
Proof. intros c e <-. by rewrite on_settings_run. Qed.
Lemma same_trigger {B} (m : St T B) : same (on_trigger m).
Proof. intros c e <-. by rewrite on_trigger_run. Qed.
Lemma same_getc {B} (f : WakeupEngineImpl H A → B) : same (getc f).
Proof. by intros c e He. Qed.
Lemma same_gets {B} (f : E → B) : same (st_gets f).
Proof. by intros c e He. Qed.
Definition core_own (x : WakeupEngineImpl H A) :=
  (wk_source x, wk_adapter x, wk_callerTokenId x, channelCnt_ (wk_sp x), bufferQueue_ (wk_sp x)).
Lemma same_modc (f : WakeupEngineImpl H A → WakeupEngineImpl H A) : (∀ x, core_own (f x) = core_own x) → same (modc f).
Proof.
  intros Hf c e <-. specialize (Hf (own e)). unfold core_own in Hf. injection Hf as H1 H2 H3 H4 H5.
  unfold core, modc. run. cbn. by rewrite H1, H2, H3, H4, H5.
Qed.
Lemma same_emit o : (∀ t b, o ≠ MicUse t b) → same (emit o).
Proof.
  intros Ho c e <-. unfold emit. run. unfold core. cbn. by rewrite mic_ledger_app, (mic_step_other _ _ Ho).
Qed.
Lemma same_flag b : same (on_sp (SetReadBufferFlag b)).
Proof. by intros c e <-. Qed.
Create HintDb same discriminated.
#[local] Hint Resolve same_fw same_settings same_trigger same_getc same_flag : same.
#[local] Hint Extern 1 (same (on_util _)) => (apply same_util; solve [auto with mute nocore]) : same.
#[local] Hint Extern 1 (same (modc _)) => (apply same_modc; by intros []) : same.
#[local] Hint Extern 1 (same (emit _)) => (apply same_emit; done) : same.
#[local] Hint Extern 1 (hoare (λ e, core e = _) _ _) =>
  (lazymatch goal with |- hoare _ ?m _ => assert (same m) by (solve [auto with same nocore]); auto end) : ivoice.

Lemma same_channel : same GetWakeupSourceChannel.
Proof. intros c. unfold GetWakeupSourceChannel. keeps. Qed.
Lemma same_params kvs : same (set_trigger_params kvs).
Proof. intros c. induction kvs as [|[k v] kvs IH]; cbn [set_trigger_params]; [keeps|]. apply hoare_seq; [keeps|done]. Qed.
#[local] Hint Resolve same_channel same_params : same.
Lemma same_trigger_param kv : same (WK_SetTriggerParameter kv).
Proof. intros c. unfold WK_SetTriggerParameter. keeps. Qed.
Lemma same_switch k : same (GetSwitchStatus k).
Proof. by intros c e He. Qed.
#[local] Hint Resolve same_trigger_param same_switch : same.
Lemma same_model : same SetWakeupModel.
Proof. intros c. unfold SetWakeupModel. keeps. Qed.
Lemma same_dsp : same UpdateDspModel.
Proof. intros c. unfold UpdateDspModel. keeps. Qed.
Lemma same_fold : same SetFoldStatus.
Proof. intros c. unfold SetFoldStatus, get_fw. keeps. Qed.
#[local] Hint Resolve same_model same_dsp same_fold : same.
Lemma same_audio_start u : same (SetParamOnAudioStart u).
Proof. intros c. unfold SetParamOnAudioStart, get_fw. keeps. Qed.
Lemma same_audio_stop : same SetParamOnAudioStop.
Proof. intros c. unfold SetParamOnAudioStop, get_fw. keeps. Qed.
Lemma same_create_cb : same CreateWakeupSourceStopCallback.
Proof. intros c. unfold CreateWakeupSourceStopCallback, get_fw. keeps. Qed.
Lemma same_destroy_cb : same DestroyWakeupSourceStopCallback.
Proof. intros c. unfold DestroyWakeupSourceStopCallback, get_fw. keeps. Qed.
Lemma same_common ev : same (SendCommonEvent ev).
Proof. intros c. unfold SendCommonEvent. keeps. Qed.
Lemma same_listener f : same (mod_listener f).
Proof. intros c. unfold mod_listener. keeps. Qed.
#[local] Hint Resolve same_listener : same.
Lemma same_tell cb ev : same (tell cb ev).
Proof. apply same_emit. done. Qed.
#[local] Hint Resolve same_tell : same.
Lemma same_set_callback cb : same (L_SetCallback cb).
Proof. intros c. unfold L_SetCallback, get_listener. keeps. Qed.
Lemma same_notify ev : same (L_Notify ev).
Proof. intros c. unfold L_Notify, BackupCallBackEvent, get_listener. keeps. Qed.
Lemma same_status : same GetCallbackStatus.
Proof. by intros c e He. Qed.
#[local] Hint Resolve same_audio_start same_audio_stop same_create_cb same_destroy_cb same_common same_set_callback
  same_notify same_status : same.

(** ** The parts of the invariant *)

(** Whether the source reads, whether a use goes on, whether there must be an
    adapter. *)
Record parts (reading mic adapter : bool) e : Prop := {
  pt_source : if reading then ∃ src, wk_source (own e) = Some src ∧ isReading_ src = true
              else wk_source (own e) = None ∧ channelCnt_ (wk_sp (own e)) = 0 ∧ bufferQueue_ (wk_sp (own e)) = [];
  pt_mic : mic_for (if mic then Some (wk_callerTokenId (own e)) else None) (mic_ledger (outs e));
  pt_adapter : adapter = true → is_Some (wk_adapter (own e)) }.

Lemma parts_framed r m a : framed core (parts r m a).
Proof.
  intros e e' Hc [H1 H2 H3]. unfold core in Hc. injection Hc as E1 E2 E3 E4 E5. constructor.
  - rewrite E1 in *. destruct r; [done|]. destruct H1 as (H1 & H1' & H1''). rewrite H1 in E5. injection E5 as -> ->. done.
  - by rewrite E4, E3.
  - by rewrite E2.
Qed.
Lemma parts_same {B} r m a (c : M B) : same c → ⟪ parts r m a ⟫ c ⟪ λ _, parts r m a ⟫.
Proof. apply frames_run, parts_framed. Qed.
Lemma parts_weaken r m a e : parts r m a e → parts r m false e.
Proof. by intros []. Qed.
#[local] Hint Extern 1 (hoare (parts _ _ _) _ _) => (apply parts_same; solve [auto with same nocore]) : ivoice.

Lemma parts_stop r m a : ⟪ parts r m a ⟫ WK_StopAudioSource ⟪ λ _, parts false m a ⟫.
Proof.
  intros e He. unfold WK_StopAudioSource. rewrite getc_bind. destruct (wk_source (own e)) as [src|] eqn:Hs.
  2: { destruct He as [H1 H2 H3]. destruct r; [destruct H1 as (? & ? & _); congruence|]. by constructor. }
  revert e He Hs. cut (∀ e, parts r m a e → parts false m a
    ((_ ← SetParamOnAudioStop; _ ← on_fw (Source_Stop src); _ ← modc (λ x, x <| wk_source := None |>); on_sp SP_Release) e).2).
  { intros Hc e He _. by apply Hc. }
  change (⟪ parts r m a ⟫ (_ ← SetParamOnAudioStop; _ ← on_fw (Source_Stop src); _ ← modc (λ x, x <| wk_source := None |>);
    on_sp SP_Release) ⟪ λ _, parts false m a ⟫).
  do 2 (eapply hoare_bind; [auto with ivoice nocore|intros ?; cbv beta]).
  intros e [H1 H2 H3]. by constructor.
Qed.

Lemma parts_start m a : ⟪ parts false m a ⟫ WK_StartAudioSource ⟪ λ b, parts b m a ⟫.
Proof.
  unfold WK_StartAudioSource. do 3 (eapply hoare_bind; [auto with ivoice nocore|intros ?; cbv beta]).
  intros e [H1 H2 H3]. rewrite bind_run.
  set (e1 := (on_sp _ e).2). assert (mic_ledger (outs e1) = mic_ledger (outs e) ∧ wk_callerTokenId (own e1) = wk_callerTokenId (own e) ∧
    wk_adapter (own e1) = wk_adapter (own e)) as (E1 & E2 & E3).
  { unfold e1, on_sp. by destruct (SP_Init _ _). }
  clearbody e1. cbv zeta. rewrite bind_run, on_fw_run. cbn [fst snd].
  match goal with |- context [Source_Start ?x ?y] =>
    assert ((Source_Start x y).1.1 = true → isReading_ (Source_Start x y).1.2 = true) as Hr by apply Source_Start_reading;
    destruct (Source_Start x y) as [[ok source] fw] end. cbn [fst snd] in *.
  destruct ok; cbn [negb].
  - unfold modc, get_fw, getc. run. constructor; cbn; [eauto|by rewrite E1, E2|by rewrite E3].
  - unfold modc, on_sp. run. constructor; cbn; [done|by rewrite E1, E2|by rewrite E3].
Qed.

(** The use of the microphone. *)
Lemma parts_mic_stop {B} r m a (k : M B) Q :
  ⟪ parts r false a ⟫ k ⟪ Q ⟫ →
  ⟪ parts r m a ⟫ (token ← getc wk_callerTokenId; _ ← st_when m (st_void (RecordPermissionPrivacy token false)); k) ⟪ Q ⟫.
Proof.
  intros Hk e He. rewrite getc_bind, bind_run. destruct m; [|by apply Hk]. unfold st_when. rewrite void_run. cbn [fst snd].
  apply Hk. destruct He as [H1 H2 H3].
  destruct (record_stop (A := A) (wk_callerTokenId (own e)) e H2) as [[fw Ho] Hu].
  constructor; rewrite ?Ho; done.
Qed.
Lemma parts_mic_start r a t :
  ⟪ λ e, parts r false a e ∧ wk_callerTokenId (own e) = t ⟫ RecordPermissionPrivacy t true ⟪ λ b, parts r b a ⟫.
Proof.
  intros e [[H1 H2 H3] Ht]. destruct (record_start (A := A) t e H2) as [[fw Ho] Hu].
  destruct (RecordPermissionPrivacy t true e) as [b e']. cbn [fst snd] in *.
  constructor; rewrite ?Ho; [done| |done]. by subst t.
Qed.

(** The adapter. *)
Lemma parts_create r m a type : ⟪ parts r m a ⟫ on_util (CreateAdapterInner type) ⟪ λ b, parts r m b ⟫.
Proof.
  intros e [H1 H2 H3]. unfold on_util, zoom.
  destruct (CreateAdapterInner_run type (with_own (view (own e)) e)) as (ad & w & ->). constructor; [done|done|].
  cbn. by destruct ad.
Qed.
Lemma parts_release r m a : ⟪ parts r m a ⟫ on_util ReleaseAdapterInner ⟪ λ _, parts r m false ⟫.
Proof.
  intros e [H1 H2 H3]. unfold on_util, zoom.
  destruct (ReleaseAdapterInner_run (with_own (view (own e)) e)) as (w & E).
  destruct (ReleaseAdapterInner _) as [b s']. cbn in E. subst s'. by constructor.
Qed.
(** ** The invariant and the handlers *)

Definition recording_state (s : Z) : bool := (s =? RECOGNIZING) || (s =? RECOGNIZED) || (s =? READ_CAPTURER).
Definition wk_inv (s : Z) : E → Prop := parts (recording_state s) (s =? READ_CAPTURER) (negb (s =? IDLE)).

Abbreviation post := (post wk_inv IDLE READ_CAPTURER).
Abbreviation good_handler := (good_handler wk_inv IDLE READ_CAPTURER : Z → Handler Body E → Prop).

Lemma stays cur ret : IDLE ≤ cur ≤ READ_CAPTURER → ⟪ wk_inv cur ⟫ answer ret cur ⟪ post cur ⟫.
Proof. apply answer_stay. Qed.
Lemma goes cur next : IDLE ≤ next ≤ READ_CAPTURER → ⟪ wk_inv next ⟫ answer 0 next ⟪ post cur ⟫.
Proof. apply answer_go. Qed.
#[local] Hint Extern 1 (_ ≤ _ ≤ _) => (unfold IDLE, READ_CAPTURER in *; lia) : ivoice.
#[local] Hint Resolve parts_stop parts_start parts_create parts_release stays goes : ivoice.
#[local] Hint Extern 1 (hoare _ (answer _ ?c) (post ?c)) => (apply (stays c); first [assumption|by split]) : ivoice.
#[local] Hint Extern 2 (hoare _ (answer 0 ?n) (post _)) => (apply (goes _ n); by split) : ivoice.
#[local] Hint Extern 3 (hoare (parts _ _ true) (answer (-1) IDLE) _) =>
  (apply (hoare_conseq _ (wk_inv IDLE) _ _ (post IDLE)); [|apply parts_weaken|done]) : ivoice.

(** Replaces the invariant of a known state by its parts. *)
Ltac at_state r m a := lazymatch goal with |- hoare (wk_inv _) ?c ?Q => change (hoare (parts r m a) c Q) end.

Section any_state.
Context (cur : Z) (Hcur : IDLE ≤ cur ≤ READ_CAPTURER).
Lemma inv_same {B} (c : M B) : same c → ⟪ wk_inv cur ⟫ c ⟪ λ _, wk_inv cur ⟫.
Proof. apply parts_same. Qed.
#[local] Hint Extern 1 (hoare (wk_inv _) _ _) => (apply inv_same; solve [auto with same nocore]) : ivoice.

Lemma good_set_param : good_handler cur HandleSetParam.
Proof. intros msg. unfold HandleSetParam. handler. Qed.
Lemma good_set_listener : good_handler cur HandleSetListener.
Proof. intros msg. unfold HandleSetListener. handler. Qed.
Lemma good_get_param : good_handler cur HandleGetParam.
Proof.
  intros msg. unfold HandleGetParam. destruct (inMsg msg) as [[]|]; handler.
  apply (hoare_bind _ _ (λ _, wk_inv cur)); [|intros ?; handler].
  apply inv_same. intros c. keeps.
Qed.
End any_state.

Lemma same_callback_inner : same SetCallbackInner.
Proof. intros c. unfold SetCallbackInner. keeps. Qed.
Lemma same_attach p : same (AttachInner p).
Proof. intros c. unfold AttachInner. keeps. Qed.
Lemma same_phrase : same GetWakeupPhrase.
Proof. by intros c e He. Qed.
#[local] Hint Resolve same_callback_inner same_attach same_phrase : same.

Lemma good_init : good_handler IDLE HandleInit.
Proof. intros msg. unfold HandleInit. at_state false false false. handler. Qed.
Lemma good_reset : good_handler IDLE HandleResetAdapter.
Proof. intros msg. unfold HandleResetAdapter. at_state false false false. handler. Qed.
Lemma good_init_done : good_handler INITIALIZING HandleInitDone.
Proof. intros msg. unfold HandleInitDone. at_state false false true. handler. Qed.
Lemma good_stop : good_handler RECOGNIZING HandleStop.
Proof. intros msg. unfold HandleStop. at_state true false true. handler. Qed.
Lemma good_recognizing_timeout : good_handler RECOGNIZING HandleRecognizingTimeout.
Proof. intros msg. unfold HandleRecognizingTimeout, track. at_state true false true. handler. Qed.
Lemma good_complete : good_handler RECOGNIZING HandleRecognizeComplete.
Proof. intros msg. unfold HandleRecognizeComplete. at_state true false true. handler. Qed.
Lemma good_pcm : good_handler RECOGNIZED HandleGetWakeupPcm.
Proof. intros msg. unfold HandleGetWakeupPcm. at_state true false true. handler. Qed.
Lemma good_release s : INITIALIZING ≤ s ≤ READ_CAPTURER → good_handler s HandleRelease.
Proof.
  intros Hs msg. unfold HandleRelease.
  apply (hoare_conseq _ (parts (recording_state s) (s =? READ_CAPTURER) false) _ _ (post s)); [|apply parts_weaken|done].
  do 2 (eapply hoare_bind; [solve [auto with ivoice nocore]|intros ?; cbv beta]).
  apply parts_mic_stop. eapply hoare_bind; [solve [auto with ivoice nocore]|intros ad; cbv beta].
  apply (hoare_bind _ _ (λ _, parts false false false)); [destruct ad; handler|intros _; handler].
Qed.
Lemma good_stop_capturer s : s = RECOGNIZED ∨ s = READ_CAPTURER → good_handler s HandleStopCapturer.
Proof.
  intros Hs msg. unfold HandleStopCapturer, track, ClearBackupEvent.
  apply (hoare_conseq _ (parts true (s =? READ_CAPTURER) true) _ _ (post s)); [|by destruct Hs as [-> | ->]|done].
  do 4 (eapply hoare_bind; [solve [auto with ivoice nocore]|intros ?; cbv beta]).
  apply parts_mic_stop. handler.
Qed.
Lemma good_stop_timeout s stage : s = RECOGNIZED ∨ s = READ_CAPTURER → good_handler s (HandleStopCapturerTimeout stage).
Proof.
  intros Hs msg. unfold HandleStopCapturerTimeout, track.
  eapply hoare_bind; [apply inv_same; solve [auto with same nocore]|intros ?; cbv beta]. by apply good_stop_capturer.
Qed.
Lemma good_start_capturer : good_handler RECOGNIZED HandleStartCapturer.
Proof.
  intros msg. unfold HandleStartCapturer, track, get_fw. at_state true false true.
  eapply hoare_bind; [solve [auto with ivoice nocore]|intros ?; cbv beta].
  eapply hoare_bind; [solve [auto with ivoice nocore]|intros ret; cbv beta].
  destruct (ret =? INTELLIGENT_VOICE_SUCCESS); cbn [negb]; [|auto with ivoice nocore].
  destruct (body_int (inMsg msg)) as [channels|]; [|auto with ivoice nocore].
  intros e He. rewrite bind_run, getc_bind, bind_run. set (t := at_TokenID _). cbn [fst snd]. rewrite bind_run.
  match goal with |- context [RecordPermissionPrivacy t true ?x] =>
    pose proof (parts_mic_start true true t x) as H1; destruct (RecordPermissionPrivacy t true x) as [b e1] end.
  cbn [fst snd] in *.
  assert (parts true b true e1) as H2 by (apply H1; split; [destruct He; by constructor|done]).
  clear H1. destruct b; cbn [negb].
  - by apply goes.
  - by apply (stays RECOGNIZED).
Qed.
Lemma good_read : good_handler READ_CAPTURER HandleRead.
Proof.
  intros msg. unfold HandleRead. at_state true true true. handler.
  eapply hoare_bind; [|intros r; cbv beta].
  - instantiate (1 := λ _, parts true true true). intros e [H1 H2 H3]. unfold on_sp. destruct (SP_Read _ _ _). by constructor.
  - handler. intros e He. by split.
Qed.
Lemma good_start : good_handler INITIALIZED HandleStart.
Proof.
  intros msg. unfold HandleStart, track. at_state false false true.
  apply (hoare_bind _ _ (λ err, parts (match err with None => true | Some _ => false end) false true)).
  - unfold start_recognize, get_fw. handler; by apply hoare_ret.
  - intros []; handler.
Qed.
(** ** The machine *)

(** Its table.  The handlers are opaque for the computation. *)
#[local] Tactic Notation "hide" uconstr(h) := generalize (h : Handler Body E); intros ?.
Ltac hide_handlers :=
  hide HandleGetParam; hide HandleSetParam; hide HandleSetListener; hide HandleResetAdapter; hide HandleInit; hide
  HandleInitDone; hide HandleStart; hide HandleRecognizeComplete; hide HandleStop; hide HandleRecognizingTimeout;
  hide HandleStartCapturer; hide HandleGetWakeupPcm; hide (HandleStopCapturerTimeout
  WAKEUP_STAGE_SA_RECOGNIZED_COMPLETE); hide (HandleStopCapturerTimeout WAKEUP_STAGE_SA_ONESHOT_PROCESSE); hide
  HandleStopCapturer; hide HandleRead; hide HandleRelease.
Lemma wakeup_table l e :
  actions_list (WK_Create l e) =
   [(5, 11, (HandleStopCapturerTimeout WAKEUP_STAGE_SA_ONESHOT_PROCESSE)); (5, 7, HandleRead);
    (5, 13, HandleSetParam); (5, 14, HandleGetParam); (5, 18, HandleRelease); (5, 12, HandleSetListener);
    (5, 16, HandleRelease); (5, 8, HandleStopCapturer); (3, 13, HandleSetParam); (3, 9, HandleRecognizingTimeout);
    (3, 5, HandleRecognizeComplete); (3, 14, HandleGetParam); (3, 18, HandleRelease); (3, 12, HandleSetListener);
    (3, 16, HandleRelease); (3, 4, HandleStop); (4, 15, HandleGetWakeupPcm); (4, 13, HandleSetParam);
    (4, 14, HandleGetParam); (4, 18, HandleRelease);
    (4, 10, (HandleStopCapturerTimeout WAKEUP_STAGE_SA_RECOGNIZED_COMPLETE)); (4, 6, HandleStartCapturer);
    (4, 12, HandleSetListener); (4, 16, HandleRelease); (2, 13, HandleSetParam); (2, 3, HandleStart);
    (2, 14, HandleGetParam); (2, 18, HandleRelease); (2, 12, HandleSetListener); (2, 16, HandleRelease);
    (1, 13, HandleSetParam); (1, 14, HandleGetParam); (1, 18, HandleRelease); (1, 12, HandleSetListener);
    (1, 16, HandleRelease); (1, 2, HandleInitDone); (0, 13, HandleSetParam); (0, 17, HandleResetAdapter);
    (0, 14, HandleGetParam); (0, 12, HandleSetListener); (0, 1, HandleInit)].
Proof. unfold WK_Create, InitStates. hide_handlers. by vm_compute. Qed.
Lemma wakeup_states l e s : s ∈ seqZ 0 6 → is_Some (states_ (WK_Create l e) !! s).
Proof.
  unfold WK_Create, InitStates. hide_handlers. intros Hs.
  assert (s = 0 ∨ s = 1 ∨ s = 2 ∨ s = 3 ∨ s = 4 ∨ s = 5) as Hc by (apply elem_of_seqZ in Hs; lia).
  repeat (destruct Hc as [->|Hc]; [vm_compute; by eexists|]). subst s. vm_compute. by eexists.
Qed.
Lemma wakeup_fields l e :
  (isInitSucc_ (WK_Create l e), hasListener (WK_Create l e), processType_ (WK_Create l e), currState_ (WK_Create l e)) =
  (true, l, PROCESS_IDLE, Some IDLE).
Proof. unfold WK_Create, InitStates. hide_handlers. by vm_compute. Qed.
Lemma wakeup_configured l e : configured (WK_Create l e).
Proof.
  apply (configured_intro _ IDLE).
  - unfold WK_Create, InitStates. hide_handlers. by vm_compute.
  - unfold WK_Create, InitStates. hide_handlers. by vm_compute.
  - apply wakeup_states. by apply elem_of_seqZ.
Qed.

Lemma wakeup_keeps l e : handlers_keep wk_inv (WK_Create l e).
Proof.
  apply (good_table wk_inv IDLE READ_CAPTURER); [apply wakeup_states|]. rewrite wakeup_table.
  repeat (apply Forall_cons; split; [|]); [..|by apply Forall_nil]; cbn [fst snd].
  all: first [simple apply good_set_param; by split|simple apply good_set_listener; by split|simple apply good_get_param; by split
             |simple apply good_release; by split|simple apply good_stop_timeout; by auto|simple apply good_stop_capturer; by auto
             |simple apply good_read|simple apply good_recognizing_timeout|simple apply good_complete|simple apply good_stop|simple apply good_pcm
             |simple apply good_start_capturer|simple apply good_start|simple apply good_init_done|simple apply good_reset|simple apply good_init].
Qed.
End safety.
