(* ===== verification/WakeupRuns.v ===== *)
(** * The phone's wakeup engine: its runs

    Messages of the service, detections of the DSP, events of the HAL, turns of the
    engine's executor, callbacks of the audio source and steps of the timer thread in any
    order, from the creation of the engine.  The invariant of [WakeupSafety.v] holds
    throughout, and every recording ends. *)

From S2P Require Import Prelude TimerMgr StringUtil AudioUtil Settings StateManager StateTimeout MachineRuns EngineTypes.
From S2P Require Import EngineAudio EngineUtil WakeupSource WakeupListener WakeupImpl WakeupSafety.

Section runs.
Context {H A T D : Type} `{!EngineHal H} `{!AudioFw A} `{!TriggerPort T} `{!KvStore D}.
Context {JL : JsonLib} {PL : Platform} {IDS : HdiIds} {AM : AudioModes}.
Abbreviation E := (Sys (WakeupEngineImpl H A) T D).
Abbreviation Machine := (ModuleStates Body (Sys (WakeupEngineImpl H A) T D)).
Implicit Types m : Machine.

(** What other parts of the service change: the settings, the trigger manager, the tasks
    of the service, the clock, the framework and the HAL. *)
Definition world_change (e e' : E) : Prop :=
  outs e' = outs e ∧ ∃ w f, own e' = own e <| wk_hw := w |> <| wk_fw := f |>.

Inductive wstep : relation (Machine * list TimerMgr.TimerEvent) :=
| w_msg now msg m fl r m' : WK_Handle now msg m = Some (r, m') → wstep (m, fl) (m', fl)
| w_detected now uuid mac params m fl m' :
    WK_OnTriggerDetected now uuid mac params m = Some m' → wstep (m, fl) (m', fl)
| w_event ev m fl : wstep (m, fl) ((with_env (OnWakeupEvent ev) m).2, fl)
| w_task now m fl m' : WK_ExecuteInThread now m = Some m' → wstep (m, fl) (m', fl)
| w_buffer buffer size isEnd m fl :
    is_Some (wk_source (own (env m))) → wstep (m, fl) ((with_env (ReadBufferCallback buffer size isEnd) m).2, fl)
| w_end m fl : is_Some (wk_source (own (env m))) → wstep (m, fl) ((with_env OnEndOfPcm m).2, fl)
| w_thread x y : thread_step x y → wstep x y
| w_world e m fl : world_change (env m) e → wstep (m, fl) (m <| env := e |>, fl).

(** ** The machine that is created *)

#[local] Tactic Notation "hide" uconstr(h) := generalize (h : Handler Body E); intros ?.
Ltac hide_handlers :=
  hide HandleGetParam; hide HandleSetParam; hide HandleSetListener; hide HandleResetAdapter; hide HandleInit; hide
  HandleInitDone; hide HandleStart; hide HandleRecognizeComplete; hide HandleStop; hide HandleRecognizingTimeout;
  hide HandleStartCapturer; hide HandleGetWakeupPcm; hide (HandleStopCapturerTimeout
  WAKEUP_STAGE_SA_RECOGNIZED_COMPLETE); hide (HandleStopCapturerTimeout WAKEUP_STAGE_SA_ONESHOT_PROCESSE); hide
  HandleStopCapturer; hide HandleRead; hide HandleRelease.

Lemma wakeup_timeouts l (e : E) :
  timeout_table (WK_Create l e) =
    [(5, 11, Some (HandleStopCapturerTimeout WAKEUP_STAGE_SA_ONESHOT_PROCESSE : Handler Body E));
     (3, 9, Some (HandleRecognizingTimeout : Handler Body E));
     (4, 10, Some (HandleStopCapturerTimeout WAKEUP_STAGE_SA_RECOGNIZED_COMPLETE : Handler Body E))].
Proof. unfold WK_Create, InitStates. hide_handlers. by vm_compute. Qed.

(** The handlers of the timeouts go to [INITIALIZED]. *)
Lemma stop_capturer_timeout_next stage msg cur :
  returns (HandleStopCapturerTimeout stage msg cur : St E HandlerResult) (goes_to INITIALIZED).
Proof. unfold HandleStopCapturerTimeout, HandleStopCapturer. repeat (apply returns_seq; intros ?). by intros e _. Qed.
Lemma recognizing_timeout_next msg cur :
  returns (HandleRecognizingTimeout msg cur : St E HandlerResult) (goes_to INITIALIZED).
Proof. unfold HandleRecognizingTimeout. repeat (apply returns_seq; intros ?). by intros e _. Qed.

Lemma wakeup_timeouts_to l (e : E) : timeouts_to (WK_Create l e) IDLE INITIALIZED.
Proof.
  unfold timeouts_to. rewrite wakeup_timeouts.
  repeat (apply Forall_cons; split; [|]); [..|by apply Forall_nil]; (split; [done|]); intros h body e' [= <-];
    first [by apply stop_capturer_timeout_next|by apply recognizing_timeout_next].
Qed.
Lemma wakeup_timers l (e : E) : timers (WK_Create l e) = TimerMgr.Start true None (TimerMgr.make 10).
Proof. done. Qed.
Lemma wakeup_curr l (e : E) : currState_ (WK_Create l e) = Some IDLE.
Proof. unfold WK_Create, InitStates. hide_handlers. by vm_compute. Qed.
Lemma wakeup_no_timer l (e : E) :
  forallb (λ x, match x.2 with Some a => actTimerId a =? INVALID_ID | None => true end)
    (map_to_list (states_ (WK_Create l e))) = true.
Proof. unfold WK_Create, InitStates. hide_handlers. by vm_compute. Qed.
Lemma wakeup_target l (e : E) : is_Some (states_ (WK_Create l e) !! INITIALIZED).
Proof. apply wakeup_states. by apply elem_of_seqZ. Qed.

(** ** What runs keep *)

Abbreviation same := (frames core).
Section keep.
Context (m0 : Machine) (Hk : handlers_keep wk_inv m0).
Abbreviation good m fl := (good wk_inv m0 m fl).

Lemma good_wk_handle now msg m fl r m' : good m fl → WK_Handle now msg m = Some (r, m') → good m' fl.
Proof. intros Hm. unfold WK_Handle. destruct (negb _); [by intros [= _ <-]|by apply (good_handle wk_inv m0 Hk)]. Qed.
Lemma good_same {B} (c : St E B) m fl : same c → good m fl → good (with_env c m).2 fl.
Proof. intros Hc. apply good_keeping. intros s e He. by apply (inv_same s). Qed.
(** *** The steps *)

Lemma same_wakeup_event ev : same (OnWakeupEvent ev : St E unit).
Proof. intros c. unfold OnWakeupEvent. repeat case_match; try (by intros e He); apply same_modc; intros []; cbn; by case_match. Qed.
Lemma same_end : same (OnEndOfPcm : St E unit).
Proof.
  intros c. unfold OnEndOfPcm, get_fw. apply hoare_seq; [by intros e He|]. intros t. apply hoare_seq.
  - apply same_modc. by intros [].
  - intros _. apply hoare_void, same_util. auto with mute.
Qed.
Lemma parts_sp {B} r a (c : St WakeupSourceProcess B) : ⟪ parts true r a ⟫ (on_sp c : St E B) ⟪ λ _, parts true r a ⟫.
Proof. intros e [H1 H2 H3]. unfold on_sp. destruct (c _). by constructor. Qed.
Lemma parts_buffer r a buffer size isEnd :
  ⟪ parts true r a ⟫ (ReadBufferCallback buffer size isEnd : St E unit) ⟪ λ _, parts true r a ⟫.
Proof.
  unfold ReadBufferCallback. apply hoare_seq; [by intros e He|]. intros e1.
  destruct (DeinterleaveAudioData _ _ _) as [[[] data]|]; [|by apply hoare_ret..].
  destruct (_ || _); [by apply hoare_ret|]. cbv zeta. apply hoare_seq; [|intros _; apply parts_sp].
  destruct (wk_adapter e1) as [ad|]; [|by apply hoare_ret]. destruct isEnd; [by apply hoare_ret|].
  apply hoare_seq; [apply parts_same, same_util; auto with mute|].
  intros _. apply parts_same, same_modc. by intros [].
Qed.
Lemma good_buffer buffer size isEnd m fl :
  is_Some (wk_source (own (env m))) → good m fl → good (with_env (ReadBufferCallback buffer size isEnd) m).2 fl.
Proof.
  intros [src Hs] Hm. apply good_with_env; [done|]. intros cur _ e [Hi ->].
  assert (recording_state cur = true) as Hr.
  { destruct (recording_state cur) eqn:Hr; [done|]. destruct Hi as [H1 _ _]. rewrite Hr in H1. destruct H1. congruence. }
  unfold wk_inv in *. rewrite Hr in *. by apply parts_buffer.
Qed.
Lemma good_msg_env {B} now msg (c : St E B) m fl r m' :
  same c → good m fl → WK_Handle now msg (with_env c m).2 = Some (r, m') → good m' fl.
Proof. intros Hc Hm. by apply good_wk_handle, good_same. Qed.
Lemma same_ability ev mac params n : same (StartAbilityOnDetected ev mac params n : St E unit).
Proof.
  intros c. unfold StartAbilityOnDetected. do 2 (apply hoare_seq; [by intros e He|intros ?]).
  destruct (_ || _); [by apply hoare_ret|]. destruct (negb _); [by apply hoare_ret|]. by apply same_emit.
Qed.
Lemma good_detected now uuid mac params m fl m' :
  good m fl → WK_OnTriggerDetected now uuid mac params m = Some m' → good m' fl.
Proof.
  intros Hm. unfold WK_OnTriggerDetected.
  destruct (GetEventValue uuid m) as [ev m1] eqn:Hv. assert (good m1 fl) as H1.
  { unfold GetEventValue in Hv. destruct (_ =? _) in Hv; injection Hv as _ <-; by apply good_process. }
  destruct (WK_Handle _ _ _) as [[r m3]|] eqn:Hh; [|done].
  apply (good_msg_env _ _ _ m1 fl) in Hh; [|apply same_ability|done]. cbn [mbind option_bind]. intros Hq%(inj Some). subst m'.
  destruct (r =? 0); [done|]. apply good_same; [|done]. intros c e <-. unfold AddAsyncTask. run. by destruct (_ || _).
Qed.
Lemma good_task now m fl m' : good m fl → WK_ExecuteInThread now m = Some m' → good m' fl.
Proof.
  intros Hm. unfold WK_ExecuteInThread. destruct (wk_tasks _) as [|t rest]; [by intros [= <-]|].
  assert (good (with_env (modc (λ e, e <| wk_tasks := rest |>) : St E unit) m).2 fl) as H1
    by (apply good_same; [apply same_modc; by intros []|done]).
  revert H1. generalize (with_env (modc (λ e, e <| wk_tasks := rest |>) : St E unit) m).2. intros m1 H1.
  destruct t as [result|result info].
  - unfold OnInitDone. destruct (WK_Handle _ _ m1) as [[r m2]|] eqn:Hh; [|done]. intros [= <-]. by eapply good_wk_handle.
  - unfold OnWakeupRecognition. destruct (WK_Handle _ _ _) as [[r m2]|] eqn:Hh; [|done]. intros [= <-].
    eapply good_msg_env; [|exact H1|exact Hh]. by apply same_emit.
Qed.
Lemma wstep_good x y : wstep x y → good x.1 x.2 → good y.1 y.2.
Proof.
  intros [] Hm; cbn [fst snd] in *.
  - by eapply good_wk_handle.
  - by eapply good_detected.
  - apply good_same; [apply same_wakeup_event|done].
  - by eapply good_task.
  - by apply good_buffer.
  - apply good_same; [apply same_end|done].
  - by eapply (good_thread wk_inv m0 Hk).
  - apply good_env; [done|]. intros cur Hi _. revert Hi. apply parts_framed.
    destruct H0 as (Ho & w & f & Hown). unfold core. by rewrite Ho, Hown.
Qed.
End keep.

(** ** Properties *)

(** A machine of an engine that has just been made. *)
Definition wk_new l ty w a t d ts n : Machine := WK_Create l (mkSys (new_wakeup ty w a) t d ts [] n).

Lemma create_good l (e : E) : wk_inv IDLE e → good wk_inv (WK_Create l e) (WK_Create l e) [].
Proof.
  exact (good_fresh wk_inv (WK_Create l e) IDLE INITIALIZED (wakeup_timeouts_to l e) (wakeup_target l e)
    (wakeup_timers l e) (wakeup_no_timer l e) (wakeup_configured l e) (wakeup_curr l e)).
Qed.
Lemma new_good l ty w a t d ts n : good wk_inv (wk_new l ty w a t d ts n) (wk_new l ty w a t d ts n) [].
Proof. apply create_good. by constructor. Qed.
(** The timeouts of the states in which the source reads. *)
Lemma recording_timeout l (e0 : E) s : recording_state s = true → timeout_to (WK_Create l e0) s INITIALIZED.
Proof.
  intros Hs. apply (timeouts_to_timeout _ _ _ (wakeup_timeouts_to l e0)). rewrite wakeup_timeouts.
  apply orb_true_iff in Hs as [[Hs|Hs]%orb_true_iff|Hs]; apply Z.eqb_eq in Hs; subst s; do 2 eexists;
    [right; left|right; right; left|left].
Qed.

Lemma new_keeps l ty w a t d ts n : handlers_keep wk_inv (wk_new l ty w a t d ts n).
Proof. unfold wk_new. apply wakeup_keeps. Qed.
Lemma new_timeouts l ty w a t d ts n s : recording_state s = true → timeout_to (wk_new l ty w a t d ts n) s INITIALIZED.
Proof. unfold wk_new. apply recording_timeout. Qed.
#[local] Opaque wk_new.
Lemma reachable_good l ty w a t d ts n m fl :
  rtc wstep (wk_new l ty w a t d ts n, []) (m, fl) → good wk_inv (wk_new l ty w a t d ts n) m fl.
Proof.
  intros Hr. exact (good_run _ _ _ _ _ (wstep_good _ (new_keeps l ty w a t d ts n)) Hr (new_good l ty w a t d ts n)).
Qed.

(** C3: whatever happens, and in whatever order, the engine reads the microphone exactly while
    the machine is in RECOGNIZING, RECOGNIZED or READ_CAPTURER; in READ_CAPTURER the client
    that asked for it is on record as a user of the microphone; nobody else is, nor anybody
    in another state, except clients for whom the privacy kit itself has refused to add a
    record or to end a use; and in every state but IDLE there is an adapter. *)
Theorem wakeup_recording l ty w a t d ts n m fl
    (Hr : rtc wstep (wk_new l ty w a t d ts n, []) (m, fl)) :
  ∃ s, currState_ m = Some s ∧
    (if recording_state s then ∃ src, wk_source (own (env m)) = Some src ∧ isReading_ src = true
     else wk_source (own (env m)) = None) ∧
    mic_for (if s =? READ_CAPTURER then Some (wk_callerTokenId (own (env m))) else None) (mic_ledger (outs (env m))) ∧
    (s ≠ IDLE → is_Some (wk_adapter (own (env m)))).
Proof.
  destruct (reachable_good _ _ _ _ _ _ _ _ _ _ Hr) as [_ _ (s & Hs & [H1 H2 H3])]. exists s.
  split_and!; [done|by destruct (recording_state s); [|destruct H1]|done|].
  intros Hne. apply H3. by destruct (Z.eqb_spec s IDLE).
Qed.

(** C10: every recording of the wakeup engine ends: from any machine it can reach, the timer
    thread alone, without a message of a client or of the HAL, brings it to one with no
    audio source and nobody on record as a user of the microphone, except clients for
    whom the privacy kit itself has refused to add a record or to end a use. *)
Theorem wakeup_recording_ends l ty w a t d ts n m fl
    (Hr : rtc wstep (wk_new l ty w a t d ts n, []) (m, fl)) :
  ∃ y, rtc thread_step (m, fl) y ∧ wk_source (own (env y.1)) = None ∧
    mic_users (outs (env y.1)) ⊆ mic_refused (outs (env y.1)).
Proof.
  pose proof (reachable_good _ _ _ _ _ _ _ _ _ _ Hr) as Hg. pose proof Hg as [_ _ (s & Hs & Hi)].
  destruct (recording_state s) eqn:Hrec.
  - destruct (good_ends _ _ (new_keeps l ty w a t d ts n) m fl s INITIALIZED Hg Hs (new_timeouts _ _ _ _ _ _ _ _ _ Hrec))
      as (y & Hy & _ & [H1 H2 _]).
    exists y. split_and!; [exact Hy|exact (proj1 H1)|]. destruct H2 as [_ H2]. unfold mic_users, mic_refused. set_solver.
  - exists (m, fl). split; [apply rtc_refl|]. destruct Hi as [H1 H2 _]. rewrite Hrec in H1. split; [exact (proj1 H1)|].
    unfold recording_state in Hrec. apply orb_false_iff in Hrec as [_ Hrec]. rewrite Hrec in H2. destruct H2 as [_ H2].
    unfold mic_users, mic_refused. cbn [fst]. set_solver.
Qed.

(** Runs of operations that are given. *)
Inductive WkOp :=
| OpMsg (now : Z) (msg : StateMsg Body)
| OpDetected (now uuid : Z)
| OpEvent (ev : HdiEvent)
| OpTurn (now : Z).
Definition wk_do (o : WkOp) m : option Machine :=
  match o with
  | OpMsg now msg => snd <$> WK_Handle now msg m
  | OpDetected now uuid => WK_OnTriggerDetected now uuid [] [] m
  | OpEvent ev => Some (with_env (OnWakeupEvent ev) m).2
  | OpTurn now => WK_ExecuteInThread now m
  end.
Definition wk_ops (os : list WkOp) : Machine * list TimerMgr.TimerEvent → option (Machine * list TimerMgr.TimerEvent) :=
  run_ops (λ o x, (λ m, (m, x.2)) <$> wk_do o x.1) os.

Lemma wk_do_step o m m' fl : wk_do o m = Some m' → wstep (m, fl) (m', fl).
Proof.
  destruct o; cbn [wk_do].
  - destruct (WK_Handle now msg m) as [[r m1]|] eqn:Hh; [|done]. cbn. intros Hq%(inj Some). subst m1. by eapply w_msg.
  - by apply w_detected.
  - intros Hq%(inj Some). subst m'. apply w_event.
  - by apply w_task.
Qed.
Lemma wk_ops_run os x y : wk_ops os x = Some y → rtc wstep x y.
Proof.
  apply run_ops_rtc. intros o [m fl] [m' fl']. cbn [fst snd]. destruct (wk_do o m) as [m1|] eqn:Ho; [|done].
  intros Hq%(inj Some). injection Hq as <- <-. by eapply wk_do_step.
Qed.
End runs.

(** ** Concrete runs *)

Abbreviation wk_fresh := (
  wk_new (H := RefHal) (A := RefFw) (T := gmap string str) (D := gmap string str) true 9 ref_hw (mkRefFw 0 false []) ∅ (Some ∅) [] 0).
(** A start-up, a wakeup, its recognition, and a client that starts to read. *)
Definition wk_session : list WkOp :=
  [OpMsg 1 (mkStateMsg INIT None); OpEvent (mkEvent 1 0 []); OpTurn 2; OpDetected 3 1; OpEvent (mkEvent 4 0 []); OpTurn 4;
   OpMsg 5 (mkStateMsg START_CAPTURER (Some (BInt 1)))].

Lemma wk_session_runs :
  ∃ m, rtc wstep (wk_fresh, []) (m, []) ∧ currState_ m = Some READ_CAPTURER ∧ wk_callerTokenId (own (env m)) = 7.
Proof.
  assert (match wk_ops wk_session (wk_fresh, []) with
          | Some (m, fl) => bool_decide (currState_ m = Some READ_CAPTURER) && (wk_callerTokenId (own (env m)) =? 7)
                            && bool_decide (fl = [])
          | None => false
          end = true) as Hc by (by vm_compute).
  destruct (wk_ops wk_session (wk_fresh, [])) as [[m fl]|] eqn:Hm; [|done].
  apply andb_true_iff in Hc as [[Hc%bool_decide_eq_true Ht%Z.eqb_eq]%andb_true_iff Hf%bool_decide_eq_true].
  rewrite Hf in Hm. exists m. split; [exact (wk_ops_run wk_session (wk_fresh, []) (m, []) Hm)|exact (conj Hc Ht)].
Qed.

Lemma wakeup_recording_witness :
  ∃ m, rtc wstep (wk_fresh, []) (m, []) ∧ 7 ∈ mic_users (outs (env m)) ∧
       ∃ src, wk_source (own (env m)) = Some src ∧ isReading_ src = true.
Proof.
  destruct wk_session_runs as (m & Hm & Hc & Ht). exists m. split; [exact Hm|].
  destruct (wakeup_recording true 9 ref_hw (mkRefFw 0 false []) ∅ (Some ∅) [] 0 m [] Hm)
    as (s & Hs & H1 & H2 & _).
  rewrite Hc in Hs. injection Hs as <-. rewrite Ht in H2. split; [exact (proj1 H2 7 eq_refl)|exact H1].
Defined.

Lemma wakeup_recording_ends_witness :
  ∃ m y, rtc wstep (wk_fresh, []) (m, []) ∧ rtc thread_step (m, []) y ∧ wk_source (own (env y.1)) = None ∧
         mic_users (outs (env y.1)) ⊆ mic_refused (outs (env y.1)).
Proof.
  destruct wk_session_runs as (m & Hm & _ & _). exists m.
  destruct (wakeup_recording_ends true 9 ref_hw (mkRefFw 0 false []) ∅ (Some ∅) [] 0 m [] Hm)
    as (y & Hy). exists y. split; [exact Hm|exact Hy].
Defined.
