(* ===== verification/UpdateEngine.v ===== *)
(** * The update engine

    [update/update_engine.cpp]: one attempt to update the wakeup models through an
    adapter of the HAL.  The outcome is posted to the service manager as
    [HANDLE_UPDATE_COMPLETE], once the HAL has reported it or when the engine is
    detached before.  Every member takes [mutex_] for its body. *)

From S2P Require Import Prelude StringUtil Settings EngineTypes EngineUtil UpdateController.

(** The members of [class UpdateEngine] with those of its base [EngineUtil]; whether
    [callback_] is set. *)
Record UpdateEngine := mkUpdateEngine {
  ue_adapter : option AdapterHostManager; ue_adapterType : Z;
  ue_param : str; ue_result : Z; ue_callback : bool }.
#[global] Instance UpdateEngine_eta : Eta UpdateEngine :=
  λ u, mkUpdateEngine (ue_adapter u) (ue_adapterType u) (ue_param u) (ue_result u) (ue_callback u).

(** [ADAPTER_TYPE_BUT] stands for no adapter type. *)
Definition new_update_engine (adapterTypeBut : Z) : UpdateEngine :=
  mkUpdateEngine None adapterTypeBut [] UPDATE_STATE_DEFAULT false.

#[global] Instance util_lens H : Lens (UpdateEngine * Hw H) (EngineUtil H) := {|
  view x := mkEngineUtil (ue_adapter x.1) (ue_adapterType x.1) x.2;
  set e x := (x.1 <| ue_adapter := adapter_ e |> <| ue_adapterType := adapterType e |>, hw e) |}.
#[global] Instance util_lens_laws H : LensLaws (UpdateEngine * Hw H) (EngineUtil H).
Proof. constructor; [by intros [] []|by intros [[] []]|done]. Qed.

Section update_engine.
Context {H T D : Type} `{!EngineHal H} `{!TriggerPort T} `{!KvStore D} {JL : JsonLib} {PL : Platform} {IDS : HdiIds}.
Abbreviation M := (St (Sys (UpdateEngine * Hw H) T D)).

Definition getu {A} (f : UpdateEngine → A) : M A := getc (λ x, f x.1).
Definition modu (f : UpdateEngine → UpdateEngine) : M unit := modc (λ x, (f x.1, x.2)).

(** [SetCallback]: the argument is not used. *)
Definition UE_SetCallback : M unit :=
  _ ← modu (λ u, u <| ue_callback := true |>);
  st_void (zoom (adapter_call CSetCallback)).

Definition UE_SetParameter (keyValueList : str) : M Z := zoom (SetParameter keyValueList).
Definition UE_GetParameter (key : str) : M str := zoom (GetParameter key).
Definition UE_Start : M Z := mret 0.
Definition UE_Stop : M Z := zoom Stop.

Definition UE_Attach (wakeupPhrase : str) (minBufSize sampleChannels bitsPerSample sampleRate : Z) : M Z :=
  zoom (adapter_call (CAttach wakeupPhrase minBufSize sampleChannels bitsPerSample sampleRate)).

Definition UE_Init (param : str) (reEnroll : bool) : M bool :=
  created ← zoom (CreateAdapterInner UPDATE_ADAPTER_TYPE);
  if negb created then mret false else
  _ ← st_when (bool_decide (param = lit "WhisperVprUpdate")) (st_void (zoom (SetParameter (lit "WhisperVpr=true"))));
  _ ← st_when reEnroll (st_void (zoom (SetParameter (lit "WhisperReEnroll=true"))));
  _ ← UE_SetCallback;
  _ ← zoom SetLanguage;
  _ ← zoom SetArea;
  _ ← zoom SetDspFeatures;
  _ ← st_when (negb (bool_decide (param = []))) (_ ← zoom SetImproveParam; st_void (UE_SetParameter param));
  wakeupPhrase ← st_gets (λ s, GetStringKVPair KEY_WAKEUP_PHRASE (db s));
  ret ← UE_Attach wakeupPhrase 1280 1 16 16000;
  if negb (ret =? 0) then _ ← zoom ReleaseAdapterInner; mret false else
  _ ← modu (λ u, u <| ue_param := param |>);
  mret true.

(** [CallFunc(HANDLE_UPDATE_COMPLETE, result, param)]: [HandleUpdateComplete] adds a task. *)
Definition post_complete (result : Z) (param : str) : M unit :=
  AddAsyncTask (THandleUpdateComplete result param) false.

Definition UE_OnCommitEnrollComplete (result : Z) : M unit :=
  a ← getu ue_adapter;
  match a with
  | None => mret ()
  | Some _ =>
    _ ← modu (λ u, u <| ue_result := if result =? 0 then UPDATE_STATE_COMPLETE_SUCCESS
                                     else UPDATE_STATE_COMPLETE_FAIL |>);
    _ ← st_when (result =? 0)
          (model ← zoom (ReadDspModel DSP_MODLE);
           _ ← zoom (ProcDspModel model);
           _ ← on_settings (SaveWakeupVesion version_line);
           wakeupPhrase ← zoom (GetParameter (lit "wakeup_phrase"));
           st_when (negb (bool_decide (wakeupPhrase = [])))
             (on_settings (SetStringKVPair KEY_WAKEUP_PHRASE wakeupPhrase)));
    r ← getu ue_result;
    p ← getu ue_param;
    post_complete r p
  end.

(** [OnUpdateEvent], in the thread it starts. *)
Definition UE_OnUpdateEvent (msgId result : Z) : M unit :=
  st_when (msgId =? INTELL_VOICE_ENGINE_MSG_COMMIT_ENROLL_COMPLETE) (UE_OnCommitEnrollComplete result).

Definition UE_Detach : M Z :=
  a ← getu ue_adapter;
  match a with
  | None => mret 0
  | Some _ =>
    ret ← zoom (adapter_call CDetach);
    _ ← zoom ReleaseAdapterInner;
    r ← getu ue_result;
    p ← getu ue_param;
    _ ← st_when (r =? UPDATE_STATE_DEFAULT) (post_complete UPDATE_STATE_DEFAULT p);
    mret ret
  end.
End update_engine.
