(* ===== verification/EnrollEngine.v ===== *)
(** * The enrollment engine

    [enroll/enroll_engine.cpp] and [enroll/enroll_adapter_listener.cpp].  The members
    of the class take [mutex_] for their bodies; events of the HAL come in on another
    thread and reach the engine through a task queue of its own.  [SetEnrollResult],
    which writes to the engine manager, is an effect ([EnrollResult]). *)

From S2P Require Import Prelude StringUtil Settings EngineTypes EngineAudio EngineUtil.

Definition MIN_BUFFER_SIZE : Z := 1280.
Definition INTERVAL : Z := 125.
Definition WITHCMD_INTERVAL : Z := 200.
Definition MAX_ENROLL_TASK_NUM : Z := 100.

(** [struct IntellVoiceEngineInfo]. *)
Record EngineInfo := mkEngineInfo {
  ei_wakeupPhrase : str; ei_isPcmFromExternal : bool; ei_minBufSize : Z; ei_sampleChannels : Z;
  ei_bitsPerSample : Z; ei_sampleRate : Z }.

(** The lambdas the engine gives to its executor. *)
Inductive EnTask := TEnrollComplete (result : Z) (info : str) | TProcessOffline.

(** The members; [adapterListener_] is the callback it was made with. *)
Record EnrollEngine (H A : Type) := mkEnroll {
  en_adapter : option AdapterHostManager; en_adapterType : Z;
  isPcmFromExternal_ : bool; isWithCmdScenario_ : bool; isNormalRegMode_ : bool; isTopMicRegMode_ : bool;
  enrollResult_ : Z; callerTokenId_ : Z; adapterListener_ : option nat; audioSource_ : option AudioSource;
  wakeupPhrase_ : str; tseResult_ : Z; en_queue : list EnTask; en_fw : A; en_hw : Hw H }.
Arguments mkEnroll {H A} _ _ _ _ _ _ _ _ _ _ _ _ _ _ _.
Arguments en_adapter {H A} _.
Arguments en_adapterType {H A} _.
Arguments isPcmFromExternal_ {H A} _.
Arguments isWithCmdScenario_ {H A} _.
Arguments isNormalRegMode_ {H A} _.
Arguments isTopMicRegMode_ {H A} _.
Arguments enrollResult_ {H A} _.
Arguments callerTokenId_ {H A} _.
Arguments adapterListener_ {H A} _.
Arguments audioSource_ {H A} _.
Arguments wakeupPhrase_ {H A} _.
Arguments tseResult_ {H A} _.
Arguments en_queue {H A} _.
Arguments en_fw {H A} _.
Arguments en_hw {H A} _.
#[global] Instance EnrollEngine_eta H A : Eta (EnrollEngine H A) :=
  λ e, mkEnroll (en_adapter e) (en_adapterType e) (isPcmFromExternal_ e) (isWithCmdScenario_ e) (isNormalRegMode_ e)
         (isTopMicRegMode_ e) (enrollResult_ e) (callerTokenId_ e) (adapterListener_ e) (audioSource_ e)
         (wakeupPhrase_ e) (tseResult_ e) (en_queue e) (en_fw e) (en_hw e).
#[global] Instance enroll_util_lens H A : Lens (EnrollEngine H A) (EngineUtil H) := {|
  view e := mkEngineUtil (en_adapter e) (en_adapterType e) (en_hw e);
  set u e := e <| en_adapter := adapter_ u |> <| en_adapterType := adapterType u |> <| en_hw := hw u |> |}.
#[global] Instance enroll_util_laws H A : LensLaws (EnrollEngine H A) (EngineUtil H).
Proof. constructor; [by intros [] []|by intros []|done]. Qed.
#[global] Instance enroll_fw_lens H A : Lens (EnrollEngine H A) A := {| view := en_fw; set a e := e <| en_fw := a |> |}.
#[global] Instance enroll_fw_laws H A : LensLaws (EnrollEngine H A) A.
Proof. constructor; [done|by intros []|done]. Qed.
Definition new_enroll {H A} (adapterTypeBut : Z) (a : A) (w : Hw H) : EnrollEngine H A :=
  mkEnroll None adapterTypeBut false false false false (-1) 0 None None [] (-1) [] a w.

Section enroll.
Context {H A T D : Type} `{!EngineHal H} `{!AudioFw A} `{!TriggerPort T} `{!KvStore D}.
Context {JL : JsonLib} {PL : Platform} {IDS : HdiIds} {AM : AudioModes}.
Abbreviation X := (EnrollEngine H A).
Abbreviation M := (St (Sys X T D)).
Implicit Types s : Sys X T D.

Definition on_util {B} (m : St (Sys (EngineUtil H) T D) B) : M B := zoom m.

(** ** The audio source *)

Definition SetParamOnAudioStopOrError : M unit :=
  e ← getc id;
  if negb (isNormalRegMode_ e) && negb (isTopMicRegMode_ e) then mret () else
  if negb (af_system (en_fw e)) then mret () else
  _ ← on_fw (af_SetAsrAecMode AEC_BYPASS);
  on_fw (af_SetAsrNoiseSuppressionMode NS_BYPASS).

Definition StartAudioSource : M bool :=
  token ← get_fw at_TokenID;
  _ ← modc (λ e, e <| callerTokenId_ := token |>);
  recorded ← RecordPermissionPrivacy token true;
  if negb recorded then mret false else
  withCmd ← getc isWithCmdScenario_;
  let source := new_source MIN_BUFFER_SIZE (if (withCmd : bool) then WITHCMD_INTERVAL else INTERVAL)
                  SOURCE_TYPE_VOICE_RECOGNITION 1 in
  _ ← modc (λ e, e <| audioSource_ := Some source |>);
  e ← getc id;
  _ ← st_when ((isNormalRegMode_ e || isTopMicRegMode_ e) && af_system (en_fw e))
        (_ ← on_fw (af_SetAsrAecMode AEC_STANDARD);
         on_fw (af_SetAsrNoiseSuppressionMode (if isNormalRegMode_ e then NS_NORMAL_REG else NS_TOPMIC_REG)));
  r ← on_fw (Source_Start source);
  if negb r.1 then
    _ ← SetParamOnAudioStopOrError;
    _ ← modc (λ e, e <| audioSource_ := None |>);
    _ ← RecordPermissionPrivacy token false;
    _ ← modc (λ e, e <| isNormalRegMode_ := false |> <| isTopMicRegMode_ := false |>);
    mret false
  else
    _ ← modc (λ e, e <| audioSource_ := Some r.2 |>);
    mret true.

Definition StopAudioSource : M unit :=
  source ← getc audioSource_;
  _ ← match source with
      | None => mret ()
      | Some source =>
        _ ← SetParamOnAudioStopOrError;
        _ ← on_fw (Source_Stop source);
        _ ← modc (λ e, e <| audioSource_ := None |>);
        token ← getc callerTokenId_;
        st_void (RecordPermissionPrivacy token false)
      end;
  modc (λ e, e <| isNormalRegMode_ := false |> <| isTopMicRegMode_ := false |>).

(** ** The members of [EngineBase] *)

Definition EN_Init : M bool := on_util (CreateAdapterInner ENROLL_ADAPTER_TYPE).

Definition EN_SetCallback (object : option nat) : M unit :=
  a ← getc en_adapter;
  match a, object with
  | Some _, Some cb =>
    _ ← modc (λ e, e <| adapterListener_ := Some cb |>);
    st_void (on_util (adapter_call CSetCallback))
  | _, _ => mret ()
  end.

Definition EN_Attach (info : EngineInfo) : M Z :=
  a ← getc en_adapter;
  match a with
  | None => mret (-1)
  | Some _ =>
    _ ← on_util SetDspFeatures;
    _ ← on_util SetImproveParam;
    _ ← modc (λ e, e <| isPcmFromExternal_ := ei_isPcmFromExternal info |> <| wakeupPhrase_ := ei_wakeupPhrase info |>);
    on_util (adapter_call (CAttach (ei_wakeupPhrase info) (ei_minBufSize info) (ei_sampleChannels info)
                             (ei_bitsPerSample info) (ei_sampleRate info)))
  end.

Definition EN_Detach : M Z :=
  _ ← StopAudioSource;
  e ← getc id;
  match en_adapter e with
  | None => mret 0
  | Some _ =>
    _ ← st_when (enrollResult_ e =? 0)
          (model ← on_util (ReadDspModel DSP_MODLE);
           _ ← on_util (ProcDspModel model);
           _ ← on_settings (SetStringKVPair KEY_WAKEUP_PHRASE (wakeupPhrase_ e));
           on_settings (SaveWakeupVesion version_line));
    ret ← on_util (adapter_call CDetach);
    _ ← on_util ReleaseAdapterInner;
    mret ret
  end.

Definition EN_Start (isLast : bool) : M Z :=
  ret ← get_fw VerifySystemPermission;
  if negb (ret =? INTELLIGENT_VOICE_SUCCESS) then mret ret else
  e ← getc id;
  match audioSource_ e, en_adapter e with
  | Some _, _ | _, None => mret (-1)
  | None, Some _ =>
    ret ← on_util (adapter_call (CStart isLast));
    if negb (ret =? 0) then mret (-1) else
    if isPcmFromExternal_ e then mret 0 else
    _ ← on_fw af_SelectInputDevice;
    started ← StartAudioSource;
    if negb started then _ ← on_util (adapter_call CStop); mret (-1) else mret 0
  end.

Definition EN_Stop : M Z := _ ← StopAudioSource; on_util Stop.

(** The loop of [SetParameterInner], over the pairs in key order; [true] ends it. *)
Definition set_inner (kv : str * str) : M bool :=
  if bool_decide (kv.1 = lit "wakeup_bundle_name") then
    _ ← on_settings (SetStringKVPair KEY_WAKEUP_ENGINE_BUNDLE_NAME kv.2); mret true
  else if bool_decide (kv.1 = lit "wakeup_ability_name") then
    _ ← on_settings (SetStringKVPair KEY_WAKEUP_ENGINE_ABILITY_NAME kv.2); mret true
  else if bool_decide (kv.1 = lit "language") then _ ← on_settings (SetStringKVPair KEY_LANGUAGE kv.2); mret false
  else if bool_decide (kv.1 = lit "area") then _ ← on_settings (SetStringKVPair KEY_AREA kv.2); mret false
  else if bool_decide (kv.1 = lit "Sensibility") then _ ← on_settings (SetStringKVPair KEY_SENSIBILITY kv.2); mret false
  else mret false.
Fixpoint set_inner_loop (kvs : list (str * str)) : M bool :=
  match kvs with
  | [] => mret false
  | kv :: kvs => stop ← set_inner kv; if (stop : bool) then mret true else set_inner_loop kvs
  end.
Definition SetParameterInner (keyValueList : str) : M bool :=
  match SplitStringToKVPair keyValueList ∅ with
  | Some kvpairs => set_inner_loop (pairs_in_order kvpairs)
  | None => mret false
  end.

Definition EN_SetParameter (keyValueList : str) : M Z :=
  inner ← SetParameterInner keyValueList;
  if (inner : bool) then mret 0 else
  _ ← modc (λ e,
        let e1 := if bool_decide (keyValueList = lit "enrollScenario=withcmd") then e <| isWithCmdScenario_ := true |> else e in
        let e2 := if bool_decide (keyValueList = lit "asr_ns_mode=NORMAL_REG") then e1 <| isNormalRegMode_ := true |> else e1 in
        if bool_decide (keyValueList = lit "asr_ns_mode=TOPMIC_REG") then e2 <| isTopMicRegMode_ := true |> else e2);
  on_util (SetParameter keyValueList).

Definition EN_GetParameter (key : str) : M str :=
  if bool_decide (key = lit "IS_OWNER_VOICE_ENROLLMENT_COMPLETED") then
    tse ← getc tseResult_; mret (if tse =? 0 then lit "1" else lit "-1")
  else on_util (GetParameter key).
Definition EN_WriteAudio (buffer : option (list Z)) : M Z := on_util (WriteAudio buffer).
(** [Evaluate]: the result is written only when the call succeeds. *)
Definition EN_Evaluate (word : str) (result : Z * Z) : M (Z * (Z * Z)) :=
  r ← on_util (Evaluate word);
  mret (r.1, if r.1 =? 0 then r.2 else result).

(** ** Events of the HAL *)

Definition add_task (t : EnTask) : M unit :=
  modc (λ e, if Z.of_nat (length (en_queue e)) <? MAX_ENROLL_TASK_NUM then e <| en_queue ::= λ q, q ++ [t] |> else e).
Definition notify_cb (msgId result : Z) (info : str) : M unit :=
  cb ← getc adapterListener_;
  match cb with None => mret () | Some cb => emit (EngineEvent cb msgId result info) end.

Definition OnEnrollEvent (msgId result : Z) (info : str) : M unit :=
  if msgId =? INTELL_VOICE_ENGINE_MSG_ENROLL_COMPLETE then add_task (TEnrollComplete result info)
  else if msgId =? INTELL_VOICE_ENGINE_MSG_COMMIT_ENROLL_COMPLETE then
    _ ← modc (λ e, e <| enrollResult_ := result |>);
    _ ← emit (EnrollResult INTELL_VOICE_ENROLL (result =? 0));
    st_when (GetSupportAbility ABILITY_TSE) (add_task TProcessOffline)
  else mret ().

(** [EnrollAdapterListener::OnIntellVoiceHdiEvent]; there is a listener only after
    [SetCallback]. *)
Definition EN_OnIntellVoiceHdiEvent (msgId result : Z) (info : str) : M unit :=
  cb ← getc adapterListener_;
  match cb with
  | None => mret ()
  | Some _ =>
    _ ← OnEnrollEvent msgId result info;
    st_when (negb (msgId =? INTELL_VOICE_ENGINE_MSG_ENROLL_COMPLETE)) (notify_cb msgId result info)
  end.

Definition OnEnrollComplete (result : Z) (info : str) : M unit :=
  _ ← notify_cb INTELL_VOICE_ENGINE_MSG_ENROLL_COMPLETE result info;
  StopAudioSource.

(** A turn of the engine's executor; [tse] is the result of the offline processing. *)
Definition EN_ExecuteInThread (tse : Z) : M unit :=
  q ← getc en_queue;
  match q with
  | [] => mret ()
  | t :: rest =>
    _ ← modc (λ e, e <| en_queue := rest |>);
    match t with
    | TEnrollComplete result info => OnEnrollComplete result info
    | TProcessOffline => modc (λ e, e <| tseResult_ := tse |>)
    end
  end.
End enroll.

(** ** The calls of an engine *)

Inductive EnOp :=
| EnInit | EnSetCallback (object : option nat) | EnAttach (info : EngineInfo) | EnDetach | EnStart (isLast : bool)
| EnStop | EnSetParameter (kv : str) | EnGetParameter (k : str) | EnWriteAudio (b : option (list Z))
| EnEvaluate (word : str) (result : Z * Z) | EnHdi (msgId result : Z) (info : str) | EnTurn (tse : Z).

Section runs.
Context {H A T D : Type} `{!EngineHal H} `{!AudioFw A} `{!TriggerPort T} `{!KvStore D}.
Context {JL : JsonLib} {PL : Platform} {IDS : HdiIds} {AM : AudioModes}.
Abbreviation ESys := (Sys (EnrollEngine H A) T D).
Abbreviation M := (St (Sys (EnrollEngine H A) T D)).
Implicit Types s : ESys.

Definition en_do (o : EnOp) : M unit :=
  match o with
  | EnInit => st_void EN_Init
  | EnSetCallback object => EN_SetCallback object
  | EnAttach info => st_void (EN_Attach info)
  | EnDetach => st_void EN_Detach
  | EnStart isLast => st_void (EN_Start isLast)
  | EnStop => st_void EN_Stop
  | EnSetParameter kv => st_void (EN_SetParameter kv)
  | EnGetParameter k => st_void (EN_GetParameter k)
  | EnWriteAudio b => st_void (EN_WriteAudio b)
  | EnEvaluate word result => st_void (EN_Evaluate word result)
  | EnHdi msgId result info => EN_OnIntellVoiceHdiEvent msgId result info
  | EnTurn tse => EN_ExecuteInThread tse
  end.
Definition en_run (ops : list EnOp) s : ESys := foldl (λ s o, (en_do o s).2) s ops.

(** The use of the microphone: an audio source reads, and its caller is a user, or there is
    no source and nobody is; but for those the privacy kit has refused something. *)
Definition recording s : Prop :=
  match audioSource_ (own s) with
  | Some source => isReading_ source = true ∧ mic_for (Some (callerTokenId_ (own s))) (mic_ledger (outs s))
  | None => mic_for None (mic_ledger (outs s))
  end.
Definition not_recording s : Prop := audioSource_ (own s) = None ∧ mic_for None (mic_ledger (outs s)).
(** Between the start of a use and the end of it, whatever the source. *)
Definition uses_mic (t : Z) s : Prop := mic_for (Some t) (mic_ledger (outs s)) ∧ callerTokenId_ (own s) = t.

(** A computation that leaves alone what [P] looks at keeps [P]. *)
Definition framed (P : ESys → Prop) : Prop := ∀ s s',
  mic_ledger (outs s') = mic_ledger (outs s) → audioSource_ (own s') = audioSource_ (own s) →
  callerTokenId_ (own s') = callerTokenId_ (own s) → P s → P s'.
Lemma recording_framed : framed recording.
Proof. intros s s' Hm Ha Hc. unfold recording. by rewrite Hm, Ha, Hc. Qed.
Lemma not_recording_framed : framed not_recording.
Proof. intros s s' Hm Ha Hc. unfold not_recording. by rewrite Hm, Ha. Qed.
Lemma uses_mic_framed t : framed (uses_mic t).
Proof. intros s s' Hm Ha Hc. unfold uses_mic. by rewrite Hm, Hc. Qed.
#[local] Hint Resolve recording_framed not_recording_framed uses_mic_framed : core.

Lemma fr_util {B} P (m : St (Sys (EngineUtil H) T D) B) : framed P → mute m → ⟪ P ⟫ on_util m ⟪ λ _, P ⟫.
Proof.
  intros HP Hm s Hs. apply (HP s); [|by unfold on_util; rewrite zoom_run..|done].
  unfold on_util. rewrite (mute_outs (zoom m)); [done|]. by apply mute_zoom.
Qed.
Lemma fr_fw {B} P (m : St A B) : framed P → ⟪ P ⟫ on_fw m ⟪ λ _, P ⟫.
Proof. intros HP s Hs. rewrite on_fw_run. by apply (HP s). Qed.
Lemma fr_settings {B} P (m : St (option D) B) : framed P → ⟪ P ⟫ on_settings m ⟪ λ _, P ⟫.
Proof. intros HP s Hs. rewrite on_settings_run. by apply (HP s). Qed.
Lemma fr_getc {B} P (f : EnrollEngine H A → B) : ⟪ P ⟫ (getc f : St ESys B) ⟪ λ _, P ⟫.
Proof. by intros s Hs. Qed.
Lemma fr_modc P (f : EnrollEngine H A → EnrollEngine H A) :
  framed P → (∀ e, audioSource_ (f e) = audioSource_ e) → (∀ e, callerTokenId_ (f e) = callerTokenId_ e) →
  ⟪ P ⟫ modc f ⟪ λ _, P ⟫.
Proof. intros HP Ha Hc s Hs. apply (HP s); [done|apply Ha|apply Hc|done]. Qed.
Lemma fr_emit P o : framed P → (∀ t b, o ≠ MicUse t b) → ⟪ P ⟫ emit o ⟪ λ _, P ⟫.
Proof.
  intros HP Ho s Hs. apply (HP s); [|done|done|done]. unfold emit. run. cbn. rewrite mic_ledger_app. by apply mic_step_other.
Qed.
#[local] Hint Resolve fr_getc : ivoice.
#[local] Hint Extern 1 (hoare _ (on_util _) _) => (apply fr_util; [solve [auto]|solve [auto with mute nocore]]) : ivoice.
#[local] Hint Extern 1 (hoare _ (on_fw _) _) => (apply fr_fw; solve [auto]) : ivoice.
#[local] Hint Extern 1 (hoare _ (on_settings _) _) => (apply fr_settings; solve [auto]) : ivoice.
#[local] Hint Extern 1 (hoare _ (emit _) _) => (apply fr_emit; solve [auto|done]) : ivoice.
#[local] Hint Extern 1 (hoare _ (modc _) _) => (apply fr_modc; [solve [auto]|by intros []|by intros []]) : ivoice.

(** *** The parts that do not touch the source *)

Lemma fr_modes P : framed P → ⟪ P ⟫ SetParamOnAudioStopOrError ⟪ λ _, P ⟫.
Proof. intros HP. unfold SetParamOnAudioStopOrError. keeps. Qed.
Lemma fr_task t : ⟪ recording ⟫ add_task t ⟪ λ _, recording ⟫.
Proof. unfold add_task. apply fr_modc; [auto| |]; intros e; by destruct (_ <? _). Qed.
Lemma fr_notify m r i : ⟪ recording ⟫ notify_cb m r i ⟪ λ _, recording ⟫.
Proof. unfold notify_cb. keeps. Qed.
Lemma fr_inner kvs : ⟪ recording ⟫ set_inner_loop kvs ⟪ λ _, recording ⟫.
Proof.
  induction kvs as [|kv kvs IH]; cbn [set_inner_loop]; [keeps|].
  apply hoare_seq; [unfold set_inner; keeps|]. intros []; [keeps|exact IH].
Qed.
#[local] Hint Resolve fr_task fr_notify fr_inner : ivoice.

(** *** The source *)

Lemma stop_recording : ⟪ recording ⟫ StopAudioSource ⟪ λ _, not_recording ⟫.
Proof.
  intros s Hs. unfold StopAudioSource. rewrite getc_bind. unfold recording in Hs.
  destruct (audioSource_ (own s)) as [source|] eqn:Ha; [|done].
  cut (⟪ uses_mic (callerTokenId_ (own s)) ⟫
        (_ ← (_ ← SetParamOnAudioStopOrError;
              _ ← on_fw (Source_Stop source);
              _ ← modc (λ e, e <| audioSource_ := None |>);
              token ← getc callerTokenId_;
              st_void (RecordPermissionPrivacy token false));
         modc (λ e, e <| isNormalRegMode_ := false |> <| isTopMicRegMode_ := false |>)) ⟪ λ _, not_recording ⟫).
  { intros Hc. apply Hc. split; [apply Hs|done]. }
  apply (hoare_bind _ _ (λ _, not_recording)); [|intros _; auto with ivoice nocore].
  eapply hoare_bind; [apply fr_modes; auto|intros ?; cbv beta].
  eapply hoare_bind; [apply fr_fw; auto|intros ?; cbv beta].
  intros s' [Hm Hc]. rewrite bind_run. cbn [fst snd]. rewrite getc_bind, void_run. cbn [fst snd].
  match goal with |- not_recording (RecordPermissionPrivacy ?t _ ?x).2 => destruct (record_stop (A := A) t x) as [[fw Ho] Hu] end.
  { cbn. by rewrite Hc. }
  split; [by rewrite Ho|done].
Qed.

Lemma start_recording : ⟪ not_recording ⟫ StartAudioSource ⟪ λ _, recording ⟫.
Proof.
  intros s [Ha Hm]. unfold StartAudioSource, get_fw. rewrite getc_bind, bind_run. cbn [fst snd].
  set (t := at_TokenID _). clearbody t. rewrite bind_run.
  match goal with |- context [RecordPermissionPrivacy t true ?x] =>
    destruct (record_start (A := A) t x Hm) as [[a Ho] Hu]; destruct (RecordPermissionPrivacy t true x) as [[|] s1] end;
    cbn [fst snd negb] in *.
  2: { change (recording s1). unfold recording. rewrite Ho. cbn. by rewrite Ha. }
  assert (uses_mic t s1) as Hs1. { split; [done|by rewrite Ho]. }
  clear s a Ha Hm Ho Hu. revert s1 Hs1. change (⟪ uses_mic t ⟫ (withCmd ← getc isWithCmdScenario_;
    let source := new_source MIN_BUFFER_SIZE (if (withCmd : bool) then WITHCMD_INTERVAL else INTERVAL)
                    SOURCE_TYPE_VOICE_RECOGNITION 1 in
    _ ← modc (λ e, e <| audioSource_ := Some source |>);
    e ← getc id;
    _ ← st_when ((isNormalRegMode_ e || isTopMicRegMode_ e) && af_system (en_fw e))
          (_ ← on_fw (af_SetAsrAecMode AEC_STANDARD);
           on_fw (af_SetAsrNoiseSuppressionMode (if isNormalRegMode_ e then NS_NORMAL_REG else NS_TOPMIC_REG)));
    r ← on_fw (Source_Start source);
    if negb r.1 then
      _ ← SetParamOnAudioStopOrError;
      _ ← modc (λ e, e <| audioSource_ := None |>);
      _ ← RecordPermissionPrivacy t false;
      _ ← modc (λ e, e <| isNormalRegMode_ := false |> <| isTopMicRegMode_ := false |>);
      mret false
    else
      _ ← modc (λ e, e <| audioSource_ := Some r.2 |>);
      mret true) ⟪ λ _, recording ⟫).
  apply hoare_gets_bind. intros withCmd. cbv zeta.
  apply (hoare_bind _ _ (λ _, uses_mic t)); [by intros s [? ?]|intros _].
  apply hoare_gets_bind. intros e. apply (hoare_bind _ _ (λ _, uses_mic t)); [keeps|intros _].
  intros s Hs. rewrite bind_run, on_fw_run. cbn [fst snd].
  match goal with |- context [Source_Start ?x ?a] => pose proof (Source_Start_reading x a) as Hr;
    destruct (Source_Start x a) as [[ok source] a'] end. cbn [fst snd] in *.
  destruct ok; cbn [negb].
  - destruct Hs as [Hm <-]. split; [by apply Hr|exact Hm].
  - assert (uses_mic t (s <| own ::= set a' |>)) as Hs' by done. clear Hs. revert Hs'.
    generalize (s <| own ::= set a' |>). change (⟪ uses_mic t ⟫ (_ ← SetParamOnAudioStopOrError;
      _ ← modc (λ e, e <| audioSource_ := None |>);
      _ ← RecordPermissionPrivacy t false;
      _ ← modc (λ e, e <| isNormalRegMode_ := false |> <| isTopMicRegMode_ := false |>);
      mret false) ⟪ λ _, recording ⟫).
    eapply hoare_bind; [apply fr_modes; auto|intros ?; cbv beta].
    intros s' [Hm Hc]. rewrite bind_run, bind_run. cbn [fst snd].
    match goal with |- context [RecordPermissionPrivacy ?t _ ?x] => destruct (record_stop (A := A) t x Hm) as [[fw Ho] Hu];
      destruct (RecordPermissionPrivacy t false x) as [b s2] end. cbn [fst snd] in *.
    run. unfold recording. cbn. rewrite Ho. cbn. done.
Qed.
(** *** The members *)

Lemma not_recording_is s : not_recording s → recording s.
Proof. intros [Ha Hm]. unfold recording. by rewrite Ha. Qed.
Lemma not_recording_intro s : audioSource_ (own s) = None → mic_users (outs s) = ∅ → not_recording s.
Proof. intros Hs Hm. split; [done|split; [done|unfold mic_users in Hm; set_solver]]. Qed.
Lemma stop_keeps : ⟪ recording ⟫ StopAudioSource ⟪ λ _, recording ⟫.
Proof. eapply hoare_conseq; [apply stop_recording|done|intros ? s; apply not_recording_is]. Qed.
#[local] Hint Resolve stop_keeps : ivoice.

Lemma EN_Start_keeps isLast : ⟪ recording ⟫ EN_Start isLast ⟪ λ _, recording ⟫.
Proof.
  unfold EN_Start, get_fw. apply hoare_seq; [keeps|intros ret]. destruct (negb _); [keeps|].
  intros s Hs. rewrite getc_bind. unfold id. destruct (audioSource_ (own s)) eqn:Ha; [done|].
  destruct (en_adapter (own s)); [|done].
  assert (not_recording s) as Hn. { unfold recording in Hs. rewrite Ha in Hs. by split. } clear Hs Ha.
  generalize (own s) as e. intros e. revert s Hn.
  match goal with |- ∀ s, _ s → recording (?m s).2 => change (⟪ not_recording ⟫ m ⟪ λ _, recording ⟫) end.
  apply (hoare_bind _ _ (λ _, not_recording)); [keeps|intros r].
  destruct (negb _); [by intros s ?%not_recording_is|]. destruct (isPcmFromExternal_ e); [by intros s ?%not_recording_is|].
  apply (hoare_bind _ _ (λ _, not_recording)); [keeps|intros _].
  eapply hoare_bind; [apply start_recording|intros started; cbv beta]. keeps.
Qed.
Lemma en_do_keeps o : ⟪ recording ⟫ en_do o ⟪ λ _, recording ⟫.
Proof.
  destruct o as [|object|info| |isLast| |kv|k|b|word result|msgId result info|tse]; cbn [en_do]; try apply hoare_void.
  - unfold EN_Init. keeps.
  - unfold EN_SetCallback. keeps.
  - unfold EN_Attach. keeps.
  - unfold EN_Detach. keeps.
  - apply EN_Start_keeps.
  - unfold EN_Stop. keeps.
  - unfold EN_SetParameter, SetParameterInner. apply hoare_seq; [keeps|intros []; [keeps|]].
    apply hoare_seq; [|intros _; keeps]. apply fr_modc; [auto| |]; intros e; by repeat destruct (bool_decide _).
  - unfold EN_GetParameter. keeps.
  - unfold EN_WriteAudio. keeps.
  - unfold EN_Evaluate. keeps.
  - unfold EN_OnIntellVoiceHdiEvent, OnEnrollEvent. keeps.
  - unfold EN_ExecuteInThread, OnEnrollComplete. keeps.
Qed.

Lemma EN_Stop_ends : ⟪ recording ⟫ EN_Stop ⟪ λ _, not_recording ⟫.
Proof. apply (hoare_bind _ _ (λ _, not_recording)); [apply stop_recording|intros _; keeps]. Qed.
Lemma EN_Detach_ends : ⟪ recording ⟫ EN_Detach ⟪ λ _, not_recording ⟫.
Proof. apply (hoare_bind _ _ (λ _, not_recording)); [apply stop_recording|intros _; keeps]. Qed.

Lemma en_run_keeps ops s : recording s → recording (en_run ops s).
Proof. unfold en_run. revert s. induction ops as [|o ops IH]; intros s H0; cbn; [done|]. by apply IH, en_do_keeps. Qed.

(** Stopping the source touches neither the settings nor the trigger manager, nor the
    result of the enrollment. *)
Definition still s0 s : Prop :=
  db s = db s0 ∧ trig s = trig s0 ∧ en_adapter (own s) = en_adapter (own s0) ∧
  enrollResult_ (own s) = enrollResult_ (own s0) ∧ wakeupPhrase_ (own s) = wakeupPhrase_ (own s0) ∧
  en_adapterType (own s) = en_adapterType (own s0) ∧ en_hw (own s) = en_hw (own s0).
Lemma still_stop s0 : ⟪ still s0 ⟫ StopAudioSource ⟪ λ _, still s0 ⟫.
Proof.
  assert (∀ B (m : St A B), ⟪ still s0 ⟫ on_fw m ⟪ λ _, still s0 ⟫) as Hfw.
  { intros B m s Hs. by rewrite on_fw_run. }
  unfold StopAudioSource, SetParamOnAudioStopOrError, RecordPermissionPrivacy. keeps; try apply Hfw; by intros s Hs.
Qed.

(** C27: The use of the microphone is in order.  After any calls and HAL events on an engine
    that began without a source, in any order and with any failures of the HAL, the
    settings, the capturer and the privacy kit: while the engine has an audio source, that
    reads, and the caller of the last start is on record as a user of the microphone; and
    nobody else is on record, nor anybody when there is no source, in particular after
    every [Stop] and [Detach], except callers for whom the kit itself has refused to add a
    record or to end a use. *)
Theorem enroll_mic_balanced (ops : list EnOp) s
    (Hs : audioSource_ (own s) = None) (Hm : mic_users (outs s) = ∅) :
  recording (en_run ops s) ∧ not_recording (EN_Stop (en_run ops s)).2 ∧ not_recording (EN_Detach (en_run ops s)).2.
Proof.
  pose proof (en_run_keeps ops s (not_recording_is s (not_recording_intro s Hs Hm))) as Hr. by split_and!; [|apply EN_Stop_ends|apply EN_Detach_ends].
Qed.

Lemma detach_tail s :
  let s' := ((ret ← on_util (adapter_call CDetach); _ ← on_util ReleaseAdapterInner; mret ret) s).2 in
  en_adapter (own s') = None ∧ db s' = db s ∧ trig s' = trig s.
Proof.
  unfold on_util, adapter_call. rewrite bind_run, zoom_run. cbn [fst snd].
  destruct (with_adapter_run (-1) (λ a, Adapter_call a CDetach) (with_own (view (own s)) s)) as [w ->].
  rewrite bind_run, zoom_run. cbn [fst snd].
  match goal with |- context [ReleaseAdapterInner ?x] => destruct (ReleaseAdapterInner_run x) as [w' ->] end. done.
Qed.

(** What saving a committed enrollment does. *)
Lemma detach_save s (phrase : str) (line : option str) :
  let s' := ((model ← on_util (ReadDspModel DSP_MODLE);
              _ ← on_util (ProcDspModel model);
              _ ← on_settings (SetStringKVPair KEY_WAKEUP_PHRASE phrase);
              on_settings (SaveWakeupVesion line)) s).2 in
  let model := held_model DSP_MODLE (view (own s)) in
  trig s' = (if bool_decide (model = []) then trig s
             else (tp_UpdateModel model VOICE_WAKEUP_MODEL_UUID VOICE_WAKEUP_TYPE (trig s)).2) ∧
  db s' = (SaveWakeupVesion line (SetStringKVPair KEY_WAKEUP_PHRASE phrase (db s)).2).2.
Proof.
  cbv zeta. rewrite bind_run. set (model := (on_util _ s).1). set (s1 := (on_util _ s).2).
  assert (model = held_model DSP_MODLE (view (own s))) as Hm.
  { subst model. unfold on_util. rewrite zoom_run. cbn [fst]. by rewrite ReadDspModel_run. }
  rewrite <- Hm. clear Hm.
  assert (db s1 = db s ∧ trig s1 = trig s) as [H1 H1'].
  { subst s1. unfold on_util, ReadDspModel. rewrite zoom_run, bind_run.
    destruct (with_adapter_run None (λ a, Adapter_Read a DSP_MODLE) (with_own (view (own s)) s)) as [w E].
    change (db (with_adapter None (λ a, Adapter_Read a DSP_MODLE) (with_own (view (own s)) s)).2 = db s ∧
            trig (with_adapter None (λ a, Adapter_Read a DSP_MODLE) (with_own (view (own s)) s)).2 = trig s).
    by rewrite E. }
  rewrite bind_run. set (s2 := (on_util _ s1).2).
  assert (db s2 = db s ∧ trig s2 = if bool_decide (model = []) then trig s
            else (tp_UpdateModel model VOICE_WAKEUP_MODEL_UUID VOICE_WAKEUP_TYPE (trig s)).2) as [H2 H2'].
  { subst s2. unfold on_util, ProcDspModel. rewrite zoom_run. destruct (bool_decide (model = [])); [done|].
    rewrite on_trigger_run. cbn. by rewrite H1'. }
  rewrite bind_run, on_settings_run. cbn [fst snd]. rewrite on_settings_run. cbn [fst snd].
  split; [exact H2'|]. cbn [db]. cbn. by rewrite H2.
Qed.

(** The phrase is read back when the store is open and takes what is put into it. *)
Lemma phrase_saved (phrase : str) (line : option str) `{!KvLaws D} (o : option D) (d : D) :
  o = Some d → (∀ k v d, (kv_Put k v d : bool * D).1 = true) →
  GetStringKVPair KEY_WAKEUP_PHRASE (SaveWakeupVesion line (SetStringKVPair KEY_WAKEUP_PHRASE phrase o).2).2 = phrase.
Proof.
  intros -> Hput. cbn. unfold SaveWakeupVesion.
  destruct (kv_put_law KEY_WAKEUP_PHRASE phrase d (Hput _ _ _)) as [Hg _].
  destruct (GetWakeupVesion line) as [|c v]; [exact Hg|]. cbn.
  destruct (kv_put_law KEY_WAKEUP_VESRION (c :: v) (kv_Put KEY_WAKEUP_PHRASE phrase d).2 (Hput _ _ _)) as [_ Hk].
  by rewrite Hk.
Qed.

(** C39: What a detach leaves behind.  The engine is without adapter.  If it had none, or
    no enrollment has been committed successfully, neither the settings nor the models
    have changed.  Otherwise the trigger manager has been handed exactly the model the
    HAL held when the detach began, as the voice wakeup model, unless nothing could be
    read, when it has been handed nothing; and if the store of the settings is open and
    takes what is put into it, the phrase the engine was attached with is the wakeup
    phrase in the settings. *)
Theorem detach_saves_success `{!KvLaws D} s :
  let s' := (EN_Detach s).2 in
  en_adapter (own s') = None ∧
  (en_adapter (own s) = None ∨ enrollResult_ (own s) ≠ 0 → db s' = db s ∧ trig s' = trig s) ∧
  (∀ a, en_adapter (own s) = Some a → enrollResult_ (own s) = 0 →
     let model := held_model DSP_MODLE (view (own s)) in
     trig s' = (if bool_decide (model = []) then trig s
                else (tp_UpdateModel model VOICE_WAKEUP_MODEL_UUID VOICE_WAKEUP_TYPE (trig s)).2) ∧
     (∀ d, db s = Some d → (∀ k v d, (kv_Put k v d : bool * D).1 = true) →
        GetStringKVPair KEY_WAKEUP_PHRASE (db s') = wakeupPhrase_ (own s))).
Proof.
  cbv zeta. assert (still s (StopAudioSource s).2) as (Hdb & Htr & Had & Hre & Hwp & Hty & Hhw) by (by apply still_stop).
  unfold EN_Detach. rewrite bind_run, getc_bind. unfold id. rewrite Had, Hre.
  destruct (en_adapter (own s)) as [a|] eqn:Ha; [|by split_and!]. rewrite bind_run.
  match goal with |- context [st_when ?b ?m ?x] => set (s2 := (st_when b m x).2) end.
  destruct (detach_tail s2) as (H1 & H2 & H3). split; [exact H1|]. rewrite H2, H3. subst s2. split.
  - intros [?|Hr%Z.eqb_neq]; [done|]. rewrite Hr. done.
  - intros _ _ ->. cbn [st_when Z.eqb].
    destruct (detach_save (StopAudioSource s).2 (wakeupPhrase_ (own (StopAudioSource s).2)) version_line) as [Hs1 Hs2].
    assert (view (own (StopAudioSource s).2) = (view (own s) : EngineUtil H)) as Hv
      by (unfold view, enroll_util_lens; by rewrite Had, Hty, Hhw, Ha).
    rewrite Hv, Htr in Hs1. split; [exact Hs1|]. intros d Hd Hput. rewrite Hwp in Hs2 |- *.
    rewrite Hs2, Hdb. by apply (phrase_saved _ _ _ d).
Qed.
End runs.

(** ** Concrete runs *)

Abbreviation RefEnroll := (Sys (EnrollEngine RefHal RefFw) (gmap string str) (gmap string str)).
Definition enroll0 : RefEnroll :=
  mkSys (new_enroll 9 (mkRefFw 0 false []) ref_hw) ∅ (Some ∅) [] [] 0.
Definition enroll_setup : list EnOp :=
  [EnInit; EnSetCallback (Some 3%nat); EnAttach (mkEngineInfo (lit "hello") false 1280 1 16 16000)].
Definition enroll1 : RefEnroll := en_run (enroll_setup ++ [EnHdi 3 0 []]) enroll0.

(** While the engine records, its caller, 7, is the user of the microphone. *)
Lemma enroll_mic_balanced_witness :
  7 ∈ mic_users (outs (en_run (enroll_setup ++ [EnStart false]) enroll0)) ∧
  mic_users (outs (EN_Stop (en_run (enroll_setup ++ [EnStart false]) enroll0)).2) = ∅.
Proof.
  assert (audioSource_ (own enroll0) = None) as Hs by (by vm_compute).
  assert (outs enroll0 = []) as Ho by (by vm_compute).
  assert (callerTokenId_ (own (en_run (enroll_setup ++ [EnStart false]) enroll0)) = 7) as Ht by (by vm_compute).
  assert (is_Some (audioSource_ (own (en_run (enroll_setup ++ [EnStart false]) enroll0)))) as [src Ha]
    by (vm_compute; by eexists).
  assert (mic_refused (outs (EN_Stop (en_run (enroll_setup ++ [EnStart false]) enroll0)).2) = ∅) as Hf by (by vm_compute).
  revert Hs Ho Ht Ha Hf. generalize enroll0, (enroll_setup ++ [EnStart false]). intros s ops Hs Ho Ht Ha Hf.
  assert (mic_users (outs s) = ∅) as Hm by (by rewrite Ho).
  destruct (enroll_mic_balanced ops s Hs Hm) as (H1 & [_ H2] & _).
  split; [|exact (mic_for_exact None _ H2 Hf)]. unfold recording in H1. rewrite Ha, Ht in H1. destruct H1 as [_ [H1 _]]. by apply H1.
Defined.

(** A committed enrollment leaves its phrase in the settings and its model with the
    trigger manager. *)
Lemma detach_saves_success_witness :
  GetStringKVPair KEY_WAKEUP_PHRASE (db (EN_Detach enroll1).2) = lit "hello" ∧
  trig (EN_Detach enroll1).2 =
    (tp_UpdateModel (held_model DSP_MODLE (view (own enroll1))) VOICE_WAKEUP_MODEL_UUID VOICE_WAKEUP_TYPE (trig enroll1)).2.
Proof.
  assert (en_adapter (own enroll1) = Some (mkAdapter (Some 0%nat) (Some 0%nat))) as Ha by (by vm_compute).
  assert (db enroll1 = Some ∅) as Hd by (by vm_compute).
  assert (enrollResult_ (own enroll1) = 0) as Hr by (by vm_compute).
  assert (wakeupPhrase_ (own enroll1) = lit "hello") as Hp by (by vm_compute).
  assert (bool_decide (held_model DSP_MODLE (view (own enroll1)) = []) = false) as Hm by (by vm_compute).
  rewrite <- Hp. revert Ha Hd Hr Hm. clear Hp. generalize enroll1. intros s Ha Hd Hr Hm.
  destruct (detach_saves_success s) as (_ & _ & H1). destruct (H1 _ Ha Hr) as [H2 H3].
  rewrite Hm in H2. split; [by apply (H3 ∅)|exact H2].
Defined.

(** [StartUsingPermission] is not undone when [AddPermissionUsedRecord] fails: the
    start fails, the engine has no source, and its caller stays recorded as a user of
    the microphone, through the stop and the detach. *)
Example refused_record_leaves_use :
  let do := en_do (AudioFw0 := ref_fw_with true) in
  let s := foldl (λ s o, (do o s).2) enroll0 (enroll_setup ++ [EnStart false]) in
  (EN_Start (AudioFw0 := ref_fw_with true) false (foldl (λ s o, (do o s).2) enroll0 enroll_setup)).1 = -1 ∧
  audioSource_ (own s) = None ∧
  elements (mic_users (outs (foldl (λ s o, (do o s).2) s [EnStop; EnDetach]))) = [7].
Proof. by vm_compute. Qed.

(** [SetParameterInner] returns at the first of the two names of the ability it finds,
    in key order: with both in one list, the bundle name is not set. *)
Example bundle_name_dropped :
  let s := en_run [EnSetParameter (lit "wakeup_bundle_name=b;wakeup_ability_name=a")] enroll0 in
  GetStringKVPair KEY_WAKEUP_ENGINE_ABILITY_NAME (db s) = lit "a" ∧
  GetStringKVPair KEY_WAKEUP_ENGINE_BUNDLE_NAME (db s) = [].
Proof. by vm_compute. Qed.
