(* ===== verification/DeviceManager.v ===== *)
(** * Devices that wake up the phone

    [base/engine_device_manager.cpp]: the accessories that have registered for wakeup,
    and which of them is the active one: the device audio is routed to if it has
    registered, or else the one that registered last.  A change starts a thread that
    chooses the device under [mutex_] ([NotifyCallbacksIfChanged]) and then, without
    the lock, tells the listeners; both parts are steps here, so that threads can
    overtake each other.  Devices are shared pointers, compared by address.  The parameters
    of a registration are JSON that JsonCpp may throw for. *)

From S2P Require Import Prelude StringUtil Settings EngineTypes.

(** [enum WakeupDeviceType] ends with [DEVICE_MAX]. *)
Definition PHONE : Z := 0.
Definition DEVICE_MAX : Z := 4.
Definition DEFAULT_MAC_ADDRESS : str := lit "default_mac_address_phone".
Definition DEFAULT_SERVICE_NAME : str := lit "default_service_name_phone".

Record WakeupDeviceInfo := mkInfo { i_type : Z; i_serviceName : str; i_parameters : str }.
(** [WakeupDeviceDetail], with its address. *)
Record WakeupDeviceDetail := mkDetail {
  d_ptr : nat; d_type : Z; d_serviceName : str; d_macAddress : str;
  d_needSecondStageWakeup : bool; d_modelType : str; d_parameters : str }.
#[global] Instance WakeupDeviceDetail_eta : Eta WakeupDeviceDetail :=
  λ d, mkDetail (d_ptr d) (d_type d) (d_serviceName d) (d_macAddress d)
         (d_needSecondStageWakeup d) (d_modelType d) (d_parameters d).

(** The members; [next_ptr] is the next address, [refreshes] the threads started and
    not yet run, [inflight] those that have left the lock, with the listeners they
    still have to call, [told] the device each listener was told last, and [threw]
    says that a registration has ended in an exception since the device was last
    chosen. *)
Record EngineDeviceManager := mkDevices {
  audioMacAddress_ : str; wakeupDevice_ : WakeupDeviceDetail; defaultWakeupDevice_ : WakeupDeviceDetail;
  callbackList_ : gmap Z unit; nextCallbackId_ : Z; deviceList_ : list WakeupDeviceDetail;
  next_ptr : nat; refreshes : nat; inflight : list (list Z * WakeupDeviceDetail);
  told : gmap Z WakeupDeviceDetail; threw : bool }.
#[global] Instance EngineDeviceManager_eta : Eta EngineDeviceManager :=
  λ m, mkDevices (audioMacAddress_ m) (wakeupDevice_ m) (defaultWakeupDevice_ m) (callbackList_ m)
         (nextCallbackId_ m) (deviceList_ m) (next_ptr m) (refreshes m) (inflight m) (told m) (threw m).

Section devices.
Context {JL : JsonLib}.
Abbreviation M := (St EngineDeviceManager).
Implicit Types m : EngineDeviceManager.

(** [std::make_shared<WakeupDeviceDetail>(info, macAddress)], at the address [p]. *)
Definition new_detail (p : nat) (macAddress : str) (info : WakeupDeviceInfo) : WakeupDeviceDetail :=
  mkDetail p (i_type info) (i_serviceName info) macAddress false (lit "default") (i_parameters info).
(** [ExtractDeviceDetail].  [None]: JsonCpp throws, because the text is neither an object
    nor null, or the value of a key has a type that does not convert. *)
Definition ExtractDeviceDetail (p : nat) (macAddress : str) (info : WakeupDeviceInfo)
    : option WakeupDeviceDetail :=
  let deviceDetail := new_detail p macAddress info in
  match parseFromStream (i_parameters info) with
  | None => Some deviceDetail
  | Some root =>
    if negb (isMember_ok root) then None else
    let need := member root (lit "needSecondStageWakeup") in
    let type := member root (lit "modelType") in
    if isMember root (lit "needSecondStageWakeup") && negb (asBool_ok need) then None else
    let d1 := if isMember root (lit "needSecondStageWakeup")
              then deviceDetail <| d_needSecondStageWakeup := asBool need |> else deviceDetail in
    if isMember root (lit "modelType") && negb (asString_ok type) then None else
    Some (if isMember root (lit "modelType") then d1 <| d_modelType := asString type |> else d1)
  end.

(** The text {"needSecondStageWakeup":true}. *)
Definition default_parameters : str :=
  let quote := Ascii.ascii_of_nat 34 in
  lit "{" ++ quote :: lit "needSecondStageWakeup" ++ quote :: lit ":true}".

(** The constructor: [InitDefaultDevice] (the listener is made without registering it).
    The text is an object with a boolean, so nothing throws. *)
Definition InitDefaultDevice : EngineDeviceManager :=
  let info := mkInfo PHONE DEFAULT_SERVICE_NAME default_parameters in
  let d := default (new_detail 0 DEFAULT_MAC_ADDRESS info) (ExtractDeviceDetail 0 DEFAULT_MAC_ADDRESS info) in
  mkDevices DEFAULT_MAC_ADDRESS d d ∅ 1 [d] 1 0 [] ∅ false.

(** [RefreshActiveDevice] starts a thread. *)
Definition RefreshActiveDevice : M unit := st_modify (λ m, m <| refreshes ::= S |>).

(** [RegisterDevice].  [None]: the exception of [ExtractDeviceDetail] leaves the function,
    when the old entry is gone and no thread has been started. *)
Definition RegisterDevice (macAddress : str) (info : WakeupDeviceInfo) : M (option Z) :=
  if bool_decide (macAddress = []) || (i_type info <? PHONE) || (DEVICE_MAX <=? i_type info)
  then mret (Some (-1)) else
  _ ← st_modify (λ m, m <| deviceList_ ::= filter (λ d, d_macAddress d ≠ macAddress) |>);
  p ← st_gets next_ptr;
  _ ← st_modify (λ m, m <| next_ptr ::= S |>);
  match ExtractDeviceDetail p macAddress info with
  | None => _ ← st_modify (λ m, m <| threw := true |>); mret None
  | Some d =>
    _ ← st_modify (λ m, m <| deviceList_ ::= λ l, l ++ [d] |>);
    _ ← RefreshActiveDevice;
    mret (Some 0)
  end.

(** [DeregisterDevice]: the result and the name left in [serviceName], empty before. *)
Definition DeregisterDevice (macAddress : str) : M (Z * str) :=
  if bool_decide (macAddress = []) then mret (-1, []) else
  found ← st_gets (λ m, filter (λ d, d_macAddress d = macAddress) (deviceList_ m));
  _ ← st_modify (λ m, m <| deviceList_ ::= filter (λ d, d_macAddress d ≠ macAddress) |>);
  _ ← RefreshActiveDevice;
  mret (0, default [] (d_serviceName <$> last found)).

Definition CountByServiceName (serviceName : str) m : Z :=
  Z.of_nat (length (filter (λ d, d_serviceName d = serviceName) (deviceList_ m))).

Definition RemoveByServiceName (serviceName : str) : M Z :=
  _ ← st_modify (λ m, m <| deviceList_ ::= filter (λ d, d_serviceName d ≠ serviceName) |>);
  _ ← RefreshActiveDevice;
  mret 0.

(** [UpdateAudioDevice]: the first descriptor, if any, is a speaker or has an address. *)
Definition UpdateAudioDevice (desc : list (bool * str)) : M unit :=
  _ ← st_modify (λ m, m <| audioMacAddress_ :=
        match desc with
        | [] | (true, _) :: _ => DEFAULT_MAC_ADDRESS
        | (false, mac) :: _ => mac
        end |>);
  RefreshActiveDevice.

Definition RegisterDeviceChangeCb : M Z :=
  m ← st_get;
  let id0 := nextCallbackId_ m in
  _ ← st_modify (λ m, m <| nextCallbackId_ := u64 (id0 + 1) |>);
  id ← (if id0 =? 0 then
          id1 ← st_gets nextCallbackId_;
          _ ← st_modify (λ m, m <| nextCallbackId_ := u64 (id1 + 1) |>);
          mret id1
        else mret id0);
  _ ← st_modify (λ m, m <| callbackList_ ::= <[id := ()]> |>);
  mret id.

Definition UnregisterDeviceChangeCb (handle : Z) : M unit :=
  st_modify (λ m, match callbackList_ m !! handle with
                  | None => m
                  | Some _ => m <| callbackList_ ::= delete handle |>
                  end).

Definition RefreshWakeupDevice : M unit :=
  st_modify (λ m,
    let m0 := m <| wakeupDevice_ := defaultWakeupDevice_ m |> <| threw := false |> in
    match list_find (λ d, d_macAddress d = audioMacAddress_ m) (deviceList_ m) with
    | Some (_, d) => m0 <| wakeupDevice_ := d |>
    | None => match last (deviceList_ m) with Some d => m0 <| wakeupDevice_ := d |> | None => m0 end
    end).

(** [NotifyCallbacksIfChanged], up to the end of the lock. *)
Definition NotifyCallbacksIfChanged : M unit :=
  lastDevice ← st_gets wakeupDevice_;
  _ ← RefreshWakeupDevice;
  m ← st_get;
  if bool_decide (d_ptr lastDevice = d_ptr (wakeupDevice_ m)) then mret () else
  st_modify (λ m, m <| inflight ::= λ l, l ++ [(map_order (callbackList_ m), wakeupDevice_ m)] |>).

(** The [i]-th thread out of the lock calls its next listener, or ends. *)
Definition deliver (i : nat) : M unit :=
  st_modify (λ m,
    match inflight m !! i with
    | Some (id :: ids, d) => m <| told ::= <[id := d]> |> <| inflight ::= <[i := (ids, d)]> |>
    | Some ([], d) => m <| inflight ::= delete i |>
    | None => m
    end).

(** ** Steps *)

Inductive DevOp :=
| DRegister (mac : str) (info : WakeupDeviceInfo)
| DDeregister (mac : str)
| DRemove (serviceName : str)
| DAudio (desc : list (bool * str))
| DListen
| DUnlisten (id : Z)
| DRefresh
| DDeliver (i : nat).

(** [DRefresh] runs one of the refresh threads, if there is one. *)
Definition do_dev (o : DevOp) m : EngineDeviceManager :=
  match o with
  | DRegister mac info => (RegisterDevice mac info m).2
  | DDeregister mac => (DeregisterDevice mac m).2
  | DRemove name => (RemoveByServiceName name m).2
  | DAudio desc => (UpdateAudioDevice desc m).2
  | DListen => (RegisterDeviceChangeCb m).2
  | DUnlisten id => (UnregisterDeviceChangeCb id m).2
  | DRefresh => match refreshes m with
                | O => m
                | S n => (NotifyCallbacksIfChanged m).2 <| refreshes := n |>
                end
  | DDeliver i => (deliver i m).2
  end.
Definition run_dev (ops : list DevOp) : EngineDeviceManager := foldl (λ m o, do_dev o m) InitDefaultDevice ops.

(** The device that should be active. *)
Definition chosen m : WakeupDeviceDetail :=
  match filter (λ d, d_macAddress d = audioMacAddress_ m) (deviceList_ m) with
  | d :: _ => d
  | [] => default (defaultWakeupDevice_ m) (last (deviceList_ m))
  end.

Record devices_ok m : Prop := {
  do_macs : NoDup (d_macAddress <$> deviceList_ m);
  do_ptrs : Forall (λ d, (d_ptr d < next_ptr m)%nat) (deviceList_ m);
  do_settled : refreshes m = 0%nat → threw m = false → wakeupDevice_ m = chosen m }.

(** * Lemmas *)

Lemma list_find_filter {A} (P : A → Prop) `{∀ x, Decision (P x)} (l : list A) :
  snd <$> list_find P l = head (filter P l).
Proof.
  induction l as [|x l IH]; [done|]. cbn [list_find]. destruct (decide (P x)) as [Hx|Hx].
  - by rewrite filter_cons_True.
  - rewrite filter_cons_False by done. rewrite <- IH. by destruct (list_find P l).
Qed.

(** Choosing the active device. *)
Lemma RefreshWakeupDevice_run m : (RefreshWakeupDevice m).2 = m <| wakeupDevice_ := chosen m |> <| threw := false |>.
Proof.
  unfold RefreshWakeupDevice, st_modify, chosen. cbn [snd].
  pose proof (list_find_filter (λ d, d_macAddress d = audioMacAddress_ m) (deviceList_ m)) as Hf.
  destruct (list_find _ _) as [[i d]|]; cbn in Hf.
  - destruct (filter _ _); [done|]. cbn in Hf. by injection Hf as ->.
  - destruct (filter _ _); [|done]. by destruct (last _).
Qed.

Lemma NotifyCallbacks_run m :
  let m' := (NotifyCallbacksIfChanged m).2 in
  wakeupDevice_ m' = chosen m ∧ deviceList_ m' = deviceList_ m ∧ next_ptr m' = next_ptr m ∧
  audioMacAddress_ m' = audioMacAddress_ m ∧ defaultWakeupDevice_ m' = defaultWakeupDevice_ m.
Proof.
  cbv zeta. unfold NotifyCallbacksIfChanged. rewrite !bind_run. cbn [fst snd st_gets st_get].
  rewrite RefreshWakeupDevice_run. by destruct (bool_decide _).
Qed.

Lemma NoDup_macs_filter (P : WakeupDeviceDetail → Prop) `{∀ d, Decision (P d)} l :
  NoDup (d_macAddress <$> l) → NoDup (d_macAddress <$> filter P l).
Proof.
  induction l as [|d l IH]; [done|]. cbn [fmap list_fmap]. intros [Hd Hl]%NoDup_cons. destruct (decide (P d)).
  - rewrite filter_cons_True by done. apply NoDup_cons. split; [|by apply IH].
    intros (x & Hx' & Hx%list_elem_of_filter)%list_elem_of_fmap. apply Hd, list_elem_of_fmap. exists x. tauto.
  - rewrite filter_cons_False by done. by apply IH.
Qed.

Lemma Forall_filter_keep {A} (Q P : A → Prop) `{∀ d, Decision (P d)} l : Forall Q l → Forall Q (filter P l).
Proof. rewrite !Forall_forall. intros Hl x Hx%list_elem_of_filter. apply Hl. tauto. Qed.

Lemma ExtractDeviceDetail_mac p mac info d :
  ExtractDeviceDetail p mac info = Some d → d_macAddress d = mac ∧ d_ptr d = p.
Proof.
  unfold ExtractDeviceDetail. destruct (parseFromStream _) as [j|]; [|by intros [= <-]].
  destruct (negb _); [done|].
  destruct (isMember j (lit "needSecondStageWakeup")), (asBool_ok _), (isMember j (lit "modelType")), (asString_ok _);
    cbn [negb andb]; by intros [= <-].
Qed.

Lemma RegisterDevice_ok mac info m : devices_ok m → devices_ok (RegisterDevice mac info m).2.
Proof.
  intros [Hmac Hptr Hset]. unfold RegisterDevice. destruct (_ || _ || _); [by split|]. run.
  assert (Forall (λ d, (d_ptr d < S (next_ptr m))%nat) (filter (λ d, d_macAddress d ≠ mac) (deviceList_ m))) as Hp'.
  { apply Forall_filter_keep. eapply Forall_impl; [done|]. cbn. lia. }
  destruct (ExtractDeviceDetail _ _ _) as [d|] eqn:Hd; run.
  - apply ExtractDeviceDetail_mac in Hd as [Hm Hp]. split; cbn; [|apply Forall_app; split; [done|]|done].
    + rewrite fmap_app. apply NoDup_app. split_and!; [by apply NoDup_macs_filter| |apply NoDup_singleton].
      intros x Hx Hx'%list_elem_of_singleton. cbn in Hx'. rewrite Hm in Hx'. subst x.
      apply list_elem_of_fmap in Hx as (d' & Hd & [Hne _]%list_elem_of_filter). congruence.
    + constructor; [rewrite Hp; cbn; lia|done].
  - split; cbn; [by apply NoDup_macs_filter|done|done].
Qed.

Lemma do_dev_ok o m : devices_ok m → devices_ok (do_dev o m).
Proof.
  intros [Hmac Hptr Hset]. destruct o; cbn [do_dev].
  - by apply RegisterDevice_ok.
  - unfold DeregisterDevice. destruct (bool_decide _); [by split|]. run.
    split; cbn; [by apply NoDup_macs_filter|by apply Forall_filter_keep|done].
  - unfold RemoveByServiceName. run. split; cbn; [by apply NoDup_macs_filter|by apply Forall_filter_keep|done].
  - by split.
  - unfold RegisterDeviceChangeCb. run. destruct (nextCallbackId_ m =? 0); run; by split.
  - unfold UnregisterDeviceChangeCb, st_modify. cbn. by destruct (callbackList_ m !! id); split.
  - destruct (refreshes m) as [|n] eqn:Hr; [split; auto|].
    destruct (NotifyCallbacks_run m) as (Hw & Hl & Hn & Ha & Hd). split; cbn.
    + by rewrite Hl.
    + by rewrite Hl, Hn.
    + intros _. rewrite Hw. unfold chosen. cbn. by rewrite Hl, Ha, Hd.
  - unfold deliver, st_modify. cbn. destruct (inflight m !! i) as [[[|] ?]|]; by split.
Qed.

Lemma init_devices_ok : devices_ok InitDefaultDevice.
Proof.
  unfold InitDefaultDevice. set (info := mkInfo _ _ _). set (d := default _ _).
  assert (d_macAddress d = DEFAULT_MAC_ADDRESS ∧ d_ptr d = 0%nat) as [Hm Hp].
  { unfold d. destruct (ExtractDeviceDetail _ _ _) eqn:Hd; [by apply ExtractDeviceDetail_mac in Hd|done]. }
  clearbody d. split.
  - by apply NoDup_singleton.
  - constructor; [rewrite Hp; cbn; lia|done].
  - intros _ _. unfold chosen. cbn [deviceList_ audioMacAddress_ wakeupDevice_].
    by rewrite filter_cons_True by (rewrite Hm; done).
Qed.

Lemma run_dev_ok ops : devices_ok (run_dev ops).
Proof.
  unfold run_dev. generalize init_devices_ok. generalize InitDefaultDevice.
  induction ops as [|o ops IH]; intros m Hm; [done|]. by apply IH, do_dev_ok.
Qed.

(** * Theorems *)

(** C38: the active device.  In every state that registrations, deregistrations,
    changes of the audio route and the refresh threads can reach, in whatever order
    the threads run: every address is registered at most once, and once no refresh
    thread is left to run, the active device is the registered device audio is routed
    to, or else the one registered last, or else the phone.  The one exception is a
    registration whose parameters make JsonCpp throw: until a device is next chosen,
    the active one is still the old choice. *)
Theorem devices_settle ops :
  let m := run_dev ops in
  NoDup (d_macAddress <$> deviceList_ m) ∧ (refreshes m = 0%nat → threw m = false → wakeupDevice_ m = chosen m).
Proof. destruct (run_dev_ok ops) as [? _ ?]. done. Qed.
End devices.

(** * Threads that overtake each other *)

Definition glasses : WakeupDeviceInfo := mkInfo 2 (lit "glasses_service") [].
Definition headset : WakeupDeviceInfo := mkInfo 1 (lit "headset_service") [].
(** A listener; two devices register; both refresh threads leave the lock, and the
    second one calls the listener first. *)
Definition overtaken : EngineDeviceManager :=
  run_dev [DAudio [(false, lit "none")]; DRefresh; DListen; DRegister (lit "aa") glasses; DRefresh;
           DRegister (lit "bb") headset; DRefresh; DDeliver 1; DDeliver 1; DDeliver 0; DDeliver 0].

(** A listener can be left with the wrong device.  Refresh threads call the
    listeners without the lock and in no order.  There is a run in which a listener,
    registered before the devices and never removed, is told last that the glasses are
    the active device, although the headset is and all threads have ended. *)
Theorem stale_device_told :
  ∃ ops id d, let m := run_dev ops in
    (DUnlisten id ∉ ops) ∧ refreshes m = 0%nat ∧ inflight m = [] ∧
    callbackList_ m !! id = Some () ∧ told m !! id = Some d ∧ d_macAddress d ≠ d_macAddress (wakeupDevice_ m).
Proof.
  exists [DAudio [(false, lit "none")]; DRefresh; DListen; DRegister (lit "aa") glasses; DRefresh;
           DRegister (lit "bb") headset; DRefresh; DDeliver 1; DDeliver 1; DDeliver 0; DDeliver 0],
    1, (default (wakeupDevice_ overtaken) (told overtaken !! 1)).
  cbv zeta. split; [set_solver|]. split_and!; [vm_compute; reflexivity..|]. vm_compute. discriminate.
Qed.

(** A listener can be called after it was removed. *)
Example removed_listener_told :
  let m := run_dev [DListen; DRegister (lit "aa") glasses; DAudio [(false, lit "aa")]; DRefresh; DUnlisten 1; DDeliver 0] in
  callbackList_ m !! 1 = None ∧ d_macAddress <$> told m !! 1 = Some (lit "aa").
Proof. vm_compute. done. Qed.

(** A registered headset registers again with [needSecondStageWakeup] a string: the call
    throws, the headset is no longer registered, and it stays the active device. *)
Example bad_parameters_forget_device :
  let parse t := if decide (t = lit "bad") then Some (JObj [(lit "needSecondStageWakeup", JStr (lit "yes"))]) else None in
  let m := run_dev (JL := json_with parse) [DRegister (lit "aa") headset; DAudio [(false, lit "aa")]; DRefresh; DRefresh] in
  let x := RegisterDevice (JL := json_with parse) (lit "aa") (mkInfo 1 (lit "headset_service") (lit "bad")) m in
  x.1 = None ∧ (d_macAddress <$> deviceList_ m) = [DEFAULT_MAC_ADDRESS; lit "aa"] ∧
  (d_macAddress <$> deviceList_ x.2) = [DEFAULT_MAC_ADDRESS] ∧ refreshes x.2 = 0%nat ∧
  d_macAddress (wakeupDevice_ x.2) = lit "aa".
Proof. vm_compute. done. Qed.
