(* ===== verification/HeadsetImpl.v ===== *)
(** * The headset's wakeup engine

    [wakeup/headset/headset_wakeup_engine_impl.cpp] with its library
    ([headset_wakeup_wrapper.cpp]) and its HAL ([hdi_adapter/headset_host_manager.cpp],
    [headset_adapter_host_manager.cpp]).  The headset sends its audio itself: a thread reads
    it from the library, hands it to the HAL until the wakeup word has ended, and keeps it
    for the client.  A turn of that thread is [ReadThread_turn]. *)

From S2P Require Import Prelude StringUtil AudioUtil Settings StateManager EngineTypes.
From S2P Require Import EngineAudio EngineUtil WakeupSource WakeupListener CloudReporter WakeupImpl DeviceManager.

(** ** The library of the headset, and the device manager of the HAL *)

Class HeadsetLib (L : Type) := {
  hl_inst : L → bool;
  (** The result, the audio and whether it belongs to the wakeup word. *)
  hl_ReadHeadsetStream : St L (Z * list Z * bool);
  hl_NotifyVerifyResult : bool → St L Z;
  hl_StopReadingStream : St L Z;
  hl_devmgr : L → bool;
  hl_LoadDevice : St L unit;
  hl_UnloadDevice : St L unit }.

Section wrapper.
Context {L : Type} `{!HeadsetLib L}.
Definition wrapped {B} (r : B) (m : St L B) : St L B := λ l, if hl_inst l then m l else (r, l).
Definition ReadHeadsetStream : St L (Z * list Z * bool) := wrapped (-1, [], true) hl_ReadHeadsetStream.
Definition NotifyVerifyResult (result : bool) : St L Z := wrapped (-1) (hl_NotifyVerifyResult result).
Definition StopReadingStream : St L Z := wrapped (-1) hl_StopReadingStream.
End wrapper.

(** ** [HeadsetHostManager] and [HeadsetAdapterHostManager]

    The host of the headset knows version 1.0 of the interface only: of the record of
    [EngineHostManager] it has the proxy of version 1.0 and the death recipient, of an
    adapter the proxy of version 1.0. *)
Section headset_host.
Context {H : Type} `{!EngineHal H}.
Abbreviation M := (St (Hw H)).
Implicit Types w : Hw H.

Definition HS_Host_Init : M bool :=
  w ← st_get;
  _ ← host_mod (λ h, h <| engineHostProxy1_0_ := eh_Get (hw_hal w) |>);
  if negb (eh_Get (hw_hal w)) then mret false else mret true.
Definition HS_RegisterEngineHDIDeathRecipient : M bool :=
  w ← st_get;
  if negb (engineHostProxy1_0_ (hw_host w)) then mret false else
  if negb (eh_objcast (hw_hal w)) then mret false else
  _ ← host_mod (λ h, h <| engineHdiDeathRecipient_ := true |>);
  on_hal eh_AddDeathRecipient.
Definition HS_DeregisterEngineHDIDeathRecipient : M unit :=
  w ← st_get;
  if negb (engineHdiDeathRecipient_ (hw_host w)) then mret () else
  if negb (engineHostProxy1_0_ (hw_host w)) then mret () else
  if negb (eh_objcast (hw_hal w)) then mret () else
  on_hal eh_RemoveDeathRecipient.
Definition HS_Adapter_Init (adapterType : Z) : M (option AdapterHostManager) :=
  w ← st_get;
  if negb (engineHostProxy1_0_ (hw_host w)) then mret None else
  a ← on_hal (eh_CreateAdapter 0 adapterType);
  mret ((λ p, mkAdapter (Some p) None) <$> a).
Definition HS_CreateEngineAdapter (adapterType : Z) : M (option AdapterHostManager) :=
  w ← st_get;
  if negb (engineHostProxy1_0_ (hw_host w)) then mret None else HS_Adapter_Init adapterType.
Definition HS_ReleaseEngineAdapter (adapterType : Z) : M unit :=
  w ← st_get;
  if negb (engineHostProxy1_0_ (hw_host w)) then mret () else on_hal (eh_ReleaseAdapter adapterType).

(** The members of an adapter; [EngineUtil] calls those of [EngineUtil.v], which are the
    same on an adapter of version 1.0. *)
Definition HS_Adapter_call (a : AdapterHostManager) (c : AdCall) : M Z :=
  match adapterProxy1_0_ a with None => mret (-1) | Some p => on_hal (eh_call p c) end.
Definition HS_Adapter_GetParameter (a : AdapterHostManager) (key : str) : M str :=
  match adapterProxy1_0_ a with None => mret [] | Some p => on_hal (eh_GetParameter p key) end.
Lemma headset_adapter_calls a : HS_Adapter_call a = Adapter_call a ∧ HS_Adapter_GetParameter a = Adapter_GetParameter a.
Proof. done. Qed.
End headset_host.

(** ** The engine *)

Definition MAX_HEADSET_TASK_NUM : Z := 200.
Definition HEADSET_MODEL_PATH : str := lit "model_path=/vendor/etc/audio/encoder.om".

(** [hs_thread] is the [isEnd] of the reading thread while it runs, and [hs_callback_]
    whether there is a [callback_]. *)
Record HeadsetWakeupEngineImpl (H L F : Type) := mkHeadset {
  hs_adapter : option AdapterHostManager; hs_adapterType : Z; hs_hw : Hw H; hs_lib : L; hs_files : F;
  hs_sp : WakeupSourceProcess; hs_listener : WakeupAdapterListener; hs_reporter : AccessoriesCloudReporter;
  hs_channels : Z; hs_isReading : bool; needSecondStageWakeup : bool; hs_thread : option bool;
  hs_callback_ : bool; hs_tasks : list WkTask; hs_data : list Z }.
Arguments mkHeadset {H L F} _ _ _ _ _ _ _ _ _ _ _ _ _ _ _.
Arguments hs_adapter {H L F} _.
Arguments hs_adapterType {H L F} _.
Arguments hs_hw {H L F} _.
Arguments hs_lib {H L F} _.
Arguments hs_files {H L F} _.
Arguments hs_sp {H L F} _.
Arguments hs_listener {H L F} _.
Arguments hs_reporter {H L F} _.
Arguments hs_channels {H L F} _.
Arguments hs_isReading {H L F} _.
Arguments needSecondStageWakeup {H L F} _.
Arguments hs_thread {H L F} _.
Arguments hs_callback_ {H L F} _.
Arguments hs_tasks {H L F} _.
Arguments hs_data {H L F} _.
#[global] Instance HeadsetWakeupEngineImpl_eta H L F : Eta (HeadsetWakeupEngineImpl H L F) :=
  λ e, mkHeadset (hs_adapter e) (hs_adapterType e) (hs_hw e) (hs_lib e) (hs_files e) (hs_sp e) (hs_listener e)
         (hs_reporter e) (hs_channels e) (hs_isReading e) (needSecondStageWakeup e) (hs_thread e) (hs_callback_ e)
         (hs_tasks e) (hs_data e).
#[global] Instance hs_util_lens H L F : Lens (HeadsetWakeupEngineImpl H L F) (EngineUtil H) := {|
  view e := mkEngineUtil (hs_adapter e) (hs_adapterType e) (hs_hw e);
  set u e := e <| hs_adapter := adapter_ u |> <| hs_adapterType := adapterType u |> <| hs_hw := hw u |> |}.
#[global] Instance hs_util_laws H L F : LensLaws (HeadsetWakeupEngineImpl H L F) (EngineUtil H).
Proof. constructor; [by intros [] []|by intros []|done]. Qed.
#[global] Instance hs_listener_lens H L F : Lens (HeadsetWakeupEngineImpl H L F) WakeupAdapterListener := {|
  view := hs_listener; set l e := e <| hs_listener := l |> |}.
#[global] Instance hs_listener_laws H L F : LensLaws (HeadsetWakeupEngineImpl H L F) WakeupAdapterListener.
Proof. constructor; [done|by intros []|done]. Qed.

(** A new engine, its members as [Init] leaves them. *)
Definition new_headset {H L F} (adapterTypeBut : Z) (w : Hw H) (l : L) (f : F) : HeadsetWakeupEngineImpl H L F :=
  mkHeadset None adapterTypeBut w l f new_sp new_listener (new_reporter (lit "headset")) 0 false true None false [] [].

Section headset.
Context {H L F T D : Type} `{!EngineHal H} `{!HeadsetLib L} `{!Files F} `{!TriggerPort T} `{!KvStore D}.
Context {JL : JsonLib} {PL : Platform} {IDS : HdiIds} (memcpy_refused : list Z → nat → list Z).
Abbreviation E := (Sys (HeadsetWakeupEngineImpl H L F) T D).
Abbreviation M := (St (Sys (HeadsetWakeupEngineImpl H L F) T D)).
Abbreviation Hand := (Handler Body E).

Definition hs_util {B} (m : St (Sys (EngineUtil H) T D) B) : M B := zoom m.
Definition on_lib {B} (m : St L B) : M B := λ s,
  let '(b, l) := m (hs_lib (own s)) in (b, s <| own ::= λ e, e <| hs_lib := l |> |>).
Definition hs_on_hw {B} (m : St (Hw H) B) : M B := hs_util (on_hw m).
Definition hs_on_sp {B} (m : St WakeupSourceProcess B) : M B := λ s,
  let '(b, p) := m (hs_sp (own s)) in (b, s <| own ::= λ e, e <| hs_sp := p |> |>).
Definition on_reporter {B} (m : St (AccessoriesCloudReporter * F) B) : M B := λ s,
  let '(b, p) := m (hs_reporter (own s), hs_files (own s)) in
  (b, s <| own ::= λ e, e <| hs_reporter := p.1 |> <| hs_files := p.2 |> |>).
Definition hs_answer (ret next : Z) : M HandlerResult := mret (mkResult ret next false).

(** [EngineUtil::CreateAdapterInner] and [ReleaseAdapterInner] with the headset's host. *)
Definition HS_CreateAdapterInner (type : Z) : M bool :=
  _ ← modc (λ e, e <| hs_adapterType := type |>);
  a ← hs_on_hw (HS_CreateEngineAdapter type);
  _ ← modc (λ e, e <| hs_adapter := a |>);
  mret (match a with Some _ => true | None => false end).
Definition HS_ReleaseAdapterInner : M unit :=
  type ← getc hs_adapterType;
  _ ← hs_on_hw (HS_ReleaseEngineAdapter type);
  modc (λ e, e <| hs_adapter := None |>).

(** A turn of [ReadThread]: one iteration of its loop. *)
Definition end_of_pcm : M unit := st_void (hs_util (adapter_call (CSetParameter (lit "end_of_pcm=true")))).
Definition ReadThread_turn : M unit :=
  e ← getc id;
  match hs_thread e with
  | None => mret ()
  | Some isEnd =>
    if negb (hs_isReading e) then modc (λ e, e <| hs_thread := None |>) else
    r ← on_lib ReadHeadsetStream;
    let '(ret, audioStream, hasAwakeWord) := r in
    if negb (ret =? 1) then
      _ ← st_when (negb isEnd) end_of_pcm;
      modc (λ e, e <| hs_thread := None |>)
    else
      _ ← st_when ((hasAwakeWord : bool) && negb isEnd) (st_void (hs_util (adapter_call (CWriteAudio audioStream))));
      _ ← st_when (negb hasAwakeWord && negb isEnd)
            (_ ← modc (λ e, e <| hs_thread := Some true |>); end_of_pcm);
      _ ← on_reporter (WriteStream memcpy_refused [audioStream]);
      hs_on_sp (SP_Write [audioStream])
  end.

Definition HS_StartAudioSource : M bool :=
  _ ← modc (λ e, e <| hs_isReading := true |>);
  _ ← hs_on_sp (SP_Init 1);
  _ ← modc (λ e, e <| hs_thread := Some false |>);
  mret true.
(** The thread has ended when it has been joined. *)
Definition HS_StopAudioSource : M unit :=
  reading ← getc hs_isReading;
  if negb reading then mret () else
  _ ← modc (λ e, e <| hs_isReading := false |> <| hs_thread := None |>);
  _ ← on_lib StopReadingStream;
  _ ← hs_on_sp SP_Release;
  made ← on_reporter CreateReportDir;
  if negb made then mret () else
  _ ← on_reporter SavePcm;
  st_void (on_reporter SetReportInfo).

(** ** Handlers *)

Definition HS_SetCallbackInner : M bool :=
  a ← getc hs_adapter;
  match a with
  | None => mret false
  | Some _ =>
    _ ← modc (λ e, e <| hs_callback_ := true |>);
    _ ← hs_util (adapter_call CSetCallback);
    mret true
  end.
(** An empty description. *)
Definition hs_attach : AdCall := CAttach [] 0 0 0 0.
Definition HS_AttachInner : M Z :=
  a ← getc hs_adapter;
  match a with None => mret (-1) | Some _ => hs_util (adapter_call hs_attach) end.

Definition HS_HandleInit : Hand := λ msg cur,
  created ← HS_CreateAdapterInner WAKEUP_ADAPTER_TYPE;
  if negb created then hs_answer (-1) cur else
  called ← HS_SetCallbackInner;
  if negb called then hs_answer (-1) cur else
  _ ← hs_util SetLanguage;
  _ ← hs_util SetArea;
  _ ← hs_util (adapter_call (CSetParameter HEADSET_MODEL_PATH));
  _ ← match inMsg msg with
      | Some (BStr modelType) => st_void (hs_util (adapter_call (CSetParameter (lit "modelType=" ++ modelType))))
      | _ => mret ()
      end;
  ret ← HS_AttachInner;
  if negb (ret =? 0) then hs_answer (-1) cur else hs_answer 0 INITIALIZING.

Definition HS_HandleInitDone : Hand := λ msg cur,
  match inMsg msg with
  | Some (BInt 0) => hs_answer 0 INITIALIZED
  | _ => hs_answer (-1) cur
  end.

Definition HS_HandleSetListener : Hand := λ msg cur,
  match inMsg msg with
  | Some (BListener cb) => _ ← L_SetCallback cb; hs_answer 0 cur
  | _ => hs_answer (-1) cur
  end.

Definition HS_HandleStart : Hand := λ _ cur,
  second ← getc needSecondStageWakeup;
  if negb second then hs_answer 0 RECOGNIZED else
  a ← getc hs_adapter;
  match a with
  | None => hs_answer (-1) cur
  | Some _ =>
    ret ← hs_util (adapter_call (CStart true));
    if negb (ret =? 0) then hs_answer (-1) cur else
    started ← HS_StartAudioSource;
    if negb started then _ ← hs_util (adapter_call CStop); hs_answer (-1) cur
    else hs_answer 0 RECOGNIZING
  end.

Definition HS_HandleStop : Hand := λ _ _,
  _ ← HS_StopAudioSource;
  _ ← hs_util Stop;
  hs_answer 0 INITIALIZED.

Definition HS_HandleRecognizeComplete : Hand := λ msg cur,
  _ ← hs_util Stop;
  match inMsg msg with
  | Some (BEvent event) =>
    _ ← L_Notify event;
    if negb (ev_result event =? 0) then
      _ ← on_lib (NotifyVerifyResult false); _ ← HS_StopAudioSource; hs_answer 0 INITIALIZED
    else _ ← on_lib (NotifyVerifyResult true); hs_answer 0 RECOGNIZED
  | _ => hs_answer (-1) cur
  end.

Definition HS_HandleStartCapturer : Hand := λ msg cur,
  match body_int (inMsg msg) with
  | None => hs_answer (-1) cur
  | Some channels => _ ← modc (λ e, e <| hs_channels := channels |>); hs_answer 0 READ_CAPTURER
  end.

(** [msg.outMsg] is there: the message is only sent by [WakeupEngine::Read]. *)
Definition HS_HandleRead : Hand := λ _ cur,
  channels ← getc hs_channels;
  r ← hs_on_sp (SP_Read [] channels);
  _ ← modc (λ e, e <| hs_data := r.2 |>);
  if negb (r.1 =? 0) then hs_answer r.1 cur else mret (mkResult 0 cur true).

Definition HS_HandleStopCapturer : Hand := λ _ _,
  _ ← HS_StopAudioSource;
  hs_answer 0 INITIALIZED.

Definition HS_HandleRecognizingTimeout : Hand := λ _ _,
  _ ← on_lib (NotifyVerifyResult false);
  _ ← HS_StopAudioSource;
  _ ← hs_util Stop;
  hs_answer 0 INITIALIZED.

Definition HS_HandleResetAdapter : Hand := λ _ cur,
  created ← HS_CreateAdapterInner WAKEUP_ADAPTER_TYPE;
  if negb created then hs_answer (-1) cur else
  _ ← hs_util (adapter_call CSetCallback);
  _ ← hs_util SetLanguage;
  _ ← hs_util SetArea;
  _ ← hs_util (adapter_call (CSetParameter HEADSET_MODEL_PATH));
  ret ← hs_util (adapter_call hs_attach);
  if negb (ret =? 0) then _ ← HS_ReleaseAdapterInner; hs_answer (-1) cur
  else hs_answer 0 INITIALIZING.

Definition HS_HandleRelease : Hand := λ _ _,
  _ ← HS_StopAudioSource;
  a ← getc hs_adapter;
  _ ← match a with
      | None => mret ()
      | Some _ => _ ← hs_util (adapter_call CDetach); HS_ReleaseAdapterInner
      end;
  hs_answer 0 IDLE.

Definition HS_HandleSetParam : Hand := λ msg cur,
  match inMsg msg with
  | Some (BStr param) => ret ← hs_util (SetParameter param); hs_answer ret cur
  | _ => hs_answer (-1) cur
  end.

(** ** The machine *)

Abbreviation Machine := (ModuleStates Body E).

Definition HS_InitStates (m : Machine) : Machine :=
  let m := foldl (λ m i, for_state i (λ a, Add SET_PARAM HS_HandleSetParam (Add SET_LISTENER HS_HandleSetListener a)) m)
             m (state_range IDLE READ_CAPTURER) in
  let m := for_state IDLE (λ a, Add RESET_ADAPTER HS_HandleResetAdapter (Add INIT HS_HandleInit a)) m in
  let m := for_state INITIALIZING (Add INIT_DONE HS_HandleInitDone) m in
  let m := for_state INITIALIZED (Add START_RECOGNIZE HS_HandleStart) m in
  let m := for_state RECOGNIZING (λ a, Add RECOGNIZE_COMPLETE HS_HandleRecognizeComplete (Add STOP_RECOGNIZE HS_HandleStop
             (WaitUntil RECOGNIZING_TIMEOUT HS_HandleRecognizingTimeout RECOGNIZING_TIMEOUT_US 0 a))) m in
  let m := for_state RECOGNIZED (λ a, Add START_CAPTURER HS_HandleStartCapturer
             (WaitUntil RECOGNIZE_COMPLETE_TIMEOUT HS_HandleStopCapturer RECOGNIZE_COMPLETE_TIMEOUT_US 0 a)) m in
  let m := for_state READ_CAPTURER (λ a, Add STOP_CAPTURER HS_HandleStopCapturer (Add READ HS_HandleRead
             (WaitUntil READ_CAPTURER_TIMEOUT HS_HandleStopCapturer READ_CAPTURER_TIMEOUT_US 0 a))) m in
  GroupAdd RELEASE HS_HandleRelease (GroupAdd RELEASE_ADAPTER HS_HandleRelease (FromState true INITIALIZING READ_CAPTURER m)).

(** [Create] of a new engine, with [Init]: whether it succeeds, and the machine. *)
Definition HS_Create (listener : bool) (e : E) : bool * Machine :=
  let m := SetProcessType PROCESS_WAKEUP_HEADSET (SetStateListener listener (make_states IDLE true PROCESS_IDLE e)) in
  let '(ok, m) := with_env (
    l ← getc hs_lib;
    if negb (hl_devmgr l) then mret false else
    _ ← on_lib hl_UnloadDevice;
    _ ← on_lib hl_LoadDevice;
    ok ← hs_on_hw HS_Host_Init;
    if negb ok then mret false else
    _ ← hs_on_hw HS_RegisterEngineHDIDeathRecipient;
    mret true) m in
  (ok, if (ok : bool) then HS_InitStates m else m).

Definition HS_Handle (now : Z) (msg : StateMsg Body) (m : Machine) : option (Z * Machine) :=
  if negb (isInitSucc_ m) then Some (-1, m) else HandleMsg now msg m.

Definition HS_Destroy (now : Z) (m : Machine) : option (bool * Machine) :=
  '(_, m1) ← HS_Handle now (mkStateMsg RELEASE None) m;
  Some (with_env (
    _ ← hs_on_hw HS_DeregisterEngineHDIDeathRecipient;
    l ← getc hs_lib;
    if negb (hl_devmgr l) then mret false else
    _ ← on_lib hl_UnloadDevice;
    mret true) m1).

(** [OnTriggerDetected], for a wakeup that ended with frame [endFrameIndex]; the thread it
    starts is run at once. *)
Definition HS_OnTriggerDetected (now : Z) (d : WakeupDeviceDetail) (endFrameIndex : Z) (m : Machine) : option Machine :=
  let m1 := (with_env (
    _ ← StartAbilityOnDetected "headset_event" (d_macAddress d) (d_parameters d) endFrameIndex;
    _ ← on_reporter Reporter_Init;
    on_reporter (SetEndIndex endFrameIndex)) m).2 in
  snd <$> HS_Handle now (mkStateMsg START_RECOGNIZE None) m1.

Definition HS_OnWakeupEvent (event : HdiEvent) : M unit :=
  let push t := modc (λ e, if Z.of_nat (length (hs_tasks e)) <? MAX_HEADSET_TASK_NUM
                           then e <| hs_tasks ::= λ q, q ++ [t] |> else e) in
  if ev_msgId event =? INTELL_VOICE_ENGINE_MSG_INIT_DONE then push (TInitDone (ev_result event))
  else if ev_msgId event =? INTELL_VOICE_ENGINE_MSG_HEADSET_RECOGNIZE_COMPLETE
  then push (TWakeupRecognition (ev_result event) (ev_info event))
  else mret ().
Definition HS_OnInitDone (now result : Z) (m : Machine) : option Machine :=
  snd <$> HS_Handle now (mkStateMsg INIT_DONE (Some (BInt result))) m.
Definition HS_OnWakeupRecognition (now result : Z) (info : str) (m : Machine) : option Machine :=
  snd <$> HS_Handle now (mkStateMsg RECOGNIZE_COMPLETE
    (Some (BEvent (mkEvent INTELL_VOICE_ENGINE_MSG_HEADSET_RECOGNIZE_COMPLETE result info)))) m.
Definition HS_ExecuteInThread (now : Z) (m : Machine) : option Machine :=
  match hs_tasks (own (env m)) with
  | [] => Some m
  | t :: rest =>
    let m1 := (with_env (modc (λ e, e <| hs_tasks := rest |>)) m).2 in
    match t with
    | TInitDone result => HS_OnInitDone now result m1
    | TWakeupRecognition result info => HS_OnWakeupRecognition now result info m1
    end
  end.
End headset.
