(* ===== verification/GlassesImpl.v ===== *)
(** * The wakeup engine of the AI glasses

    [wakeup/glasses/glasses_wakeup_engine_impl.cpp] with its library
    ([glasses_wakeup_wrapper.cpp]).  The glasses have no HAL: with [needSecondStageWakeup_]
    they confirm the wakeup themselves and tell the engine through the callback of their
    library ([Glasses_event]); their audio is read for the client from then on. *)

From S2P Require Import Prelude StringUtil AudioUtil Settings StateManager EngineTypes.
From S2P Require Import EngineAudio EngineUtil WakeupSource WakeupListener CloudReporter WakeupImpl DeviceManager.

Class GlassesLib (L : Type) := {
  gl_inst : L → bool;
  gl_ReadStream : St L (Z * list Z * bool);
  gl_StopReadingStream : St L Z;
  (** [SetCallback], with a function or a null one. *)
  gl_SetCallback : bool → St L Z }.

Section wrapper.
Context {L : Type} `{!GlassesLib L}.
Definition gl_wrapped {B} (r : B) (m : St L B) : St L B := λ l, if gl_inst l then m l else (r, l).
Definition ReadGlassesStream : St L (Z * list Z * bool) := gl_wrapped (-1, [], true) gl_ReadStream.
Definition GL_StopReadingStream : St L Z := gl_wrapped (-1) gl_StopReadingStream.
Definition GL_SetCallback (callFunc : bool) : St L Z := gl_wrapped (-1) (gl_SetCallback callFunc).
End wrapper.

(** ** The engine *)

Definition MAX_GLASSES_TASK_NUM : Z := 200.

(** [gl_thread] is whether the reading thread runs. *)
Record GlassesWakeupEngineImpl (L F : Type) := mkGlasses {
  gl_lib : L; gl_files : F; gl_sp : WakeupSourceProcess; gl_listener : WakeupAdapterListener;
  gl_reporter : AccessoriesCloudReporter; gl_channels : Z; gl_isReading : bool; needSecondStageWakeup_ : bool;
  gl_thread : bool; gl_tasks : list WkTask; gl_data : list Z }.
Arguments mkGlasses {L F} _ _ _ _ _ _ _ _ _ _ _.
Arguments gl_lib {L F} _.
Arguments gl_files {L F} _.
Arguments gl_sp {L F} _.
Arguments gl_listener {L F} _.
Arguments gl_reporter {L F} _.
Arguments gl_channels {L F} _.
Arguments gl_isReading {L F} _.
Arguments needSecondStageWakeup_ {L F} _.
Arguments gl_thread {L F} _.
Arguments gl_tasks {L F} _.
Arguments gl_data {L F} _.
#[global] Instance GlassesWakeupEngineImpl_eta L F : Eta (GlassesWakeupEngineImpl L F) :=
  λ e, mkGlasses (gl_lib e) (gl_files e) (gl_sp e) (gl_listener e) (gl_reporter e) (gl_channels e) (gl_isReading e)
         (needSecondStageWakeup_ e) (gl_thread e) (gl_tasks e) (gl_data e).
#[global] Instance gl_listener_lens L F : Lens (GlassesWakeupEngineImpl L F) WakeupAdapterListener := {|
  view := gl_listener; set l e := e <| gl_listener := l |> |}.
#[global] Instance gl_listener_laws L F : LensLaws (GlassesWakeupEngineImpl L F) WakeupAdapterListener.
Proof. constructor; [done|by intros []|done]. Qed.

Definition new_glasses {L F} (l : L) (f : F) : GlassesWakeupEngineImpl L F :=
  mkGlasses l f new_sp new_listener (new_reporter (lit "ai_glass")) 0 false false false [] [].

Section glasses.
Context {L F T D : Type} `{!GlassesLib L} `{!Files F} `{!KvStore D}.
Context {JL : JsonLib} {PL : Platform} {IDS : HdiIds} (memcpy_refused : list Z → nat → list Z).
Abbreviation E := (Sys (GlassesWakeupEngineImpl L F) T D).
Abbreviation M := (St (Sys (GlassesWakeupEngineImpl L F) T D)).
Abbreviation Hand := (Handler Body E).

Definition gl_on_lib {B} (m : St L B) : M B := λ s,
  let '(b, l) := m (gl_lib (own s)) in (b, s <| own ::= λ e, e <| gl_lib := l |> |>).
Definition gl_on_sp {B} (m : St WakeupSourceProcess B) : M B := λ s,
  let '(b, p) := m (gl_sp (own s)) in (b, s <| own ::= λ e, e <| gl_sp := p |> |>).
Definition gl_on_reporter {B} (m : St (AccessoriesCloudReporter * F) B) : M B := λ s,
  let '(b, p) := m (gl_reporter (own s), gl_files (own s)) in
  (b, s <| own ::= λ e, e <| gl_reporter := p.1 |> <| gl_files := p.2 |> |>).
Definition gl_answer (ret next : Z) : M HandlerResult := mret (mkResult ret next false).

(** One iteration of the loop of [ReadThread]. *)
Definition GL_ReadThread_turn : M unit :=
  e ← getc id;
  if negb (gl_thread e) then mret () else
  if negb (gl_isReading e) then modc (λ e, e <| gl_thread := false |>) else
  r ← gl_on_lib ReadGlassesStream;
  let '(ret, audioStream, _) := r in
  if negb (ret =? 0) then modc (λ e, e <| gl_thread := false |>) else
  _ ← gl_on_reporter (WriteStream memcpy_refused [audioStream]);
  gl_on_sp (SP_Write [audioStream]).

Definition GL_StartAudioSource : M bool :=
  _ ← modc (λ e, e <| gl_isReading := true |>);
  _ ← gl_on_sp (SP_Init 1);
  _ ← modc (λ e, e <| gl_thread := true |>);
  mret true.
Definition GL_StopAudioSource : M unit :=
  reading ← getc gl_isReading;
  if negb reading then mret () else
  _ ← modc (λ e, e <| gl_isReading := false |> <| gl_thread := false |>);
  _ ← gl_on_lib GL_StopReadingStream;
  _ ← gl_on_sp SP_Release;
  made ← gl_on_reporter CreateReportDir;
  if negb made then mret () else
  _ ← gl_on_reporter SavePcm;
  st_void (gl_on_reporter SetReportInfo).

(** ** Handlers *)

Definition GL_HandleInit : Hand := λ _ _,
  _ ← gl_on_lib (GL_SetCallback true);
  gl_answer 0 INITIALIZED.

Definition GL_HandleSetListener : Hand := λ msg cur,
  match inMsg msg with
  | Some (BListener cb) => _ ← L_SetCallback cb; gl_answer 0 cur
  | _ => gl_answer (-1) cur
  end.

Definition GL_HandleStart : Hand := λ _ _,
  second ← getc needSecondStageWakeup_;
  if (second : bool) then gl_answer 0 RECOGNIZING else
  started ← GL_StartAudioSource;
  if negb started then gl_answer (-1) INITIALIZED else gl_answer 0 RECOGNIZED.

Definition GL_HandleStartCapturer : Hand := λ msg cur,
  match body_int (inMsg msg) with
  | None => gl_answer (-1) cur
  | Some _ => _ ← modc (λ e, e <| gl_channels := 1 |>); gl_answer 0 READ_CAPTURER
  end.

(** [msg.outMsg] is there: the message is only sent by [WakeupEngine::Read]. *)
Definition GL_HandleRead : Hand := λ _ cur,
  channels ← getc gl_channels;
  r ← gl_on_sp (SP_Read [] channels);
  _ ← modc (λ e, e <| gl_data := r.2 |>);
  if negb (r.1 =? 0) then gl_answer r.1 cur else mret (mkResult 0 cur true).

Definition GL_HandleStopCapturer : Hand := λ _ _,
  _ ← GL_StopAudioSource;
  gl_answer 0 INITIALIZED.
Definition GL_HandleRecognizingTimeout : Hand := λ _ _, gl_answer 0 INITIALIZED.
Definition GL_HandleStop : Hand := λ _ _,
  _ ← GL_StopAudioSource;
  gl_answer 0 INITIALIZED.

Definition GL_HandleRecognizeComplete : Hand := λ msg cur,
  match inMsg msg with
  | Some (BEvent event) =>
    _ ← gl_on_reporter (SetEndIndex_info (ev_info event));
    _ ← L_Notify event;
    if negb (ev_result event =? 0) then gl_answer 0 INITIALIZED else
    started ← GL_StartAudioSource;
    if negb started then gl_answer (-1) cur else gl_answer 0 RECOGNIZED
  | _ => gl_answer (-1) cur
  end.

Definition GL_HandleResetAdapter : Hand := λ _ _,
  _ ← gl_on_lib (GL_SetCallback true);
  gl_answer 0 INITIALIZED.

Definition GL_HandleRelease : Hand := λ _ _,
  _ ← GL_StopAudioSource;
  _ ← gl_on_lib (GL_SetCallback false);
  gl_answer 0 IDLE.

Definition GL_HandleSetParam : Hand := λ _ cur, gl_answer 0 cur.

(** ** The machine *)

Abbreviation Machine := (ModuleStates Body E).

Definition GL_InitStates (m : Machine) : Machine :=
  let m := foldl (λ m i, for_state i (λ a, Add SET_PARAM GL_HandleSetParam (Add SET_LISTENER GL_HandleSetListener a)) m)
             m (state_range IDLE READ_CAPTURER) in
  let m := for_state IDLE (λ a, Add RESET_ADAPTER GL_HandleResetAdapter (Add INIT GL_HandleInit a)) m in
  let m := for_state INITIALIZED (Add START_RECOGNIZE GL_HandleStart) m in
  let m := for_state RECOGNIZING (λ a, Add RECOGNIZE_COMPLETE GL_HandleRecognizeComplete (Add STOP_RECOGNIZE GL_HandleStop
             (WaitUntil RECOGNIZING_TIMEOUT GL_HandleRecognizingTimeout RECOGNIZING_TIMEOUT_US 0 a))) m in
  let m := for_state RECOGNIZED (λ a, Add START_CAPTURER GL_HandleStartCapturer
             (WaitUntil RECOGNIZE_COMPLETE_TIMEOUT GL_HandleStopCapturer RECOGNIZE_COMPLETE_TIMEOUT_US 0 a)) m in
  let m := for_state READ_CAPTURER (λ a, Add STOP_CAPTURER GL_HandleStopCapturer (Add READ GL_HandleRead
             (WaitUntil READ_CAPTURER_TIMEOUT GL_HandleStopCapturer READ_CAPTURER_TIMEOUT_US 0 a))) m in
  GroupAdd RELEASE GL_HandleRelease (GroupAdd RELEASE_ADAPTER GL_HandleRelease (FromState true INITIALIZING READ_CAPTURER m)).

(** [Create] of a new engine, with [Init]. *)
Definition GL_Create (listener : bool) (e : E) : bool * Machine :=
  (true, GL_InitStates (SetProcessType PROCESS_WAKEUP_GLASSES
           (SetStateListener listener (make_states IDLE true PROCESS_IDLE e)))).

Definition GL_Handle (now : Z) (msg : StateMsg Body) (m : Machine) : option (Z * Machine) :=
  if negb (isInitSucc_ m) then Some (-1, m) else HandleMsg now msg m.

(** [Destroy]; the executor of the engine is stopped, with its tasks. *)
Definition GL_Destroy (now : Z) (m : Machine) : option (bool * Machine) :=
  '(_, m1) ← GL_Handle now (mkStateMsg RELEASE None) m;
  Some (with_env (_ ← modc (λ e, e <| gl_tasks := [] |>); mret true) m1).

Definition GL_OnTriggerDetected (now : Z) (d : WakeupDeviceDetail) (endFrameIndex : Z) (m : Machine) : option Machine :=
  let m1 := (with_env (
    _ ← StartAbilityOnDetected "ai_glasses_event" (d_macAddress d) (d_parameters d) endFrameIndex;
    _ ← modc (λ e, e <| needSecondStageWakeup_ := d_needSecondStageWakeup d |>);
    _ ← gl_on_reporter Reporter_Init;
    gl_on_reporter (SetEndIndex endFrameIndex)) m).2 in
  snd <$> GL_Handle now (mkStateMsg START_RECOGNIZE None) m1.

(** The callback given to the library, which goes through the listener to
    [OnWakeupEvent]. *)
Definition GL_OnWakeupEvent (event : HdiEvent) : M unit :=
  if ev_msgId event =? INTELL_VOICE_ENGINE_MSG_RECOGNIZE_COMPLETE then
    modc (λ e, if Z.of_nat (length (gl_tasks e)) <? MAX_GLASSES_TASK_NUM
               then e <| gl_tasks ::= λ q, q ++ [TWakeupRecognition (ev_result event) (ev_info event)] |> else e)
  else mret ().
Definition Glasses_event (msgId result : Z) (info : str) : M unit := GL_OnWakeupEvent (mkEvent msgId result info).
Definition GL_OnWakeupRecognition (now result : Z) (info : str) (m : Machine) : option Machine :=
  snd <$> GL_Handle now (mkStateMsg RECOGNIZE_COMPLETE
    (Some (BEvent (mkEvent INTELL_VOICE_ENGINE_MSG_RECOGNIZE_COMPLETE result info)))) m.
Definition GL_ExecuteInThread (now : Z) (m : Machine) : option Machine :=
  match gl_tasks (own (env m)) with
  | [] => Some m
  | t :: rest =>
    let m1 := (with_env (modc (λ e, e <| gl_tasks := rest |>)) m).2 in
    match t with
    | TInitDone _ => Some m1
    | TWakeupRecognition result info => GL_OnWakeupRecognition now result info m1
    end
  end.
End glasses.
