(* ===== verification/HeadsetSafety.v ===== *)
(** * The headset's wakeup engine: what holds in each state, and its runs

    The audio of the headset is read exactly in the states [RECOGNIZING], [RECOGNIZED] and
    [READ_CAPTURER]; the reading thread runs and audio is kept only then, and every state
    but [IDLE] has an adapter.  [MachineRuns.v] lifts this from the handlers to any
    sequence of messages, wakeups, events, turns of the two threads and timeouts. *)

From S2P Require Import Prelude TimerMgr StringUtil AudioUtil Settings StateManager StateTimeout MachineRuns EngineTypes.
From S2P Require Import EngineAudio EngineUtil WakeupSource WakeupListener CloudReporter WakeupImpl DeviceManager HeadsetImpl.

Section safety.
Context {H L F T D : Type} `{!EngineHal H} `{!HeadsetLib L} `{!Files F} `{!TriggerPort T} `{!KvStore D}.
Context {JL : JsonLib} {PL : Platform} {IDS : HdiIds} (memcpy_refused : list Z → nat → list Z).
Abbreviation E := (Sys (HeadsetWakeupEngineImpl H L F) T D).
Abbreviation M := (St (Sys (HeadsetWakeupEngineImpl H L F) T D)).
Abbreviation Machine := (ModuleStates Body (Sys (HeadsetWakeupEngineImpl H L F) T D)).
Implicit Types e : E.

(** What the invariant looks at; the thread and the buffers only while nothing is read. *)
Definition hs_core_own (x : HeadsetWakeupEngineImpl H L F) :=
  (hs_isReading x, needSecondStageWakeup x, hs_adapter x,
   if hs_isReading x then None else Some (hs_thread x, channelCnt_ (hs_sp x), bufferQueue_ (hs_sp x))).
Definition hs_core e := hs_core_own (own e).
Abbreviation same := (frames hs_core).

(** Whether audio is read, and whether there must be an adapter. *)
Record hs_parts (reading adapter : bool) e : Prop := {
  hp_reading : hs_isReading (own e) = reading;
  hp_second : needSecondStageWakeup (own e) = true;
  hp_quiet : reading = false →
    hs_thread (own e) = None ∧ channelCnt_ (hs_sp (own e)) = 0 ∧ bufferQueue_ (hs_sp (own e)) = [];
  hp_adapter : adapter = true → is_Some (hs_adapter (own e)) }.

Lemma hs_parts_framed r a : framed hs_core (hs_parts r a).
Proof.
  intros e e' Hc [H1 H2 H3 H4]. unfold hs_core, hs_core_own in Hc. injection Hc as E1 E2 E3 E4. constructor.
  - by rewrite E1.
  - by rewrite E2.
  - intros Hr. specialize (H3 Hr). rewrite E1, H1, Hr in E4. injection E4 as -> -> ->. done.
  - by rewrite E3.
Qed.
Lemma hs_parts_same {B} r a (c : M B) : same c → ⟪ hs_parts r a ⟫ c ⟪ λ _, hs_parts r a ⟫.
Proof. apply frames_run, hs_parts_framed. Qed.
Lemma hs_parts_weaken r a e : hs_parts r a e → hs_parts r false e.
Proof. by intros []. Qed.

(** ** Computations that leave the core alone *)

Lemma hs_same_util {B} (m : St (Sys (EngineUtil H) T D) B) : plain m → same (hs_util m).
Proof.
  intros Hm c e <-. unfold hs_util, zoom.
  pose proof (Hm (outs e) (hs_adapter (own e)) (with_own (view (own e)) e) (conj eq_refl eq_refl)) as H1.
  destruct (m _) as [b s']. cbn [fst snd] in *. destruct H1 as [_ H1]. unfold hs_core, hs_core_own. cbn. by rewrite H1.
Qed.
Lemma hs_same_lib {B} (m : St L B) : same (on_lib m).
Proof. intros c e <-. unfold on_lib. by destruct (m _). Qed.
Lemma hs_same_reporter {B} (m : St (AccessoriesCloudReporter * F) B) : same (on_reporter m).
Proof. intros c e <-. unfold on_reporter. by destruct (m _). Qed.
Lemma hs_same_getc {B} (f : HeadsetWakeupEngineImpl H L F → B) : same (getc f).
Proof. by intros c e He. Qed.
Lemma hs_same_modc f : (∀ x, hs_core_own (f x) = hs_core_own x) → same (modc f).
Proof. intros Hf c e <-. unfold hs_core, modc. run. cbn. by rewrite Hf. Qed.
Lemma hs_same_emit o : same (emit o).
Proof. intros c e <-. done. Qed.
Create HintDb hs_same discriminated.
#[local] Hint Resolve hs_same_lib hs_same_reporter hs_same_getc hs_same_emit : hs_same.
#[local] Hint Extern 1 (frames hs_core (hs_util _)) => (apply hs_same_util; solve [auto with mute nocore]) : hs_same.
#[local] Hint Extern 1 (frames hs_core (modc _)) => (apply hs_same_modc; by intros []) : hs_same.
#[local] Hint Extern 1 (hoare (λ e, hs_core e = _) _ _) =>
  (lazymatch goal with |- hoare _ ?m _ => assert (frames hs_core m) by (solve [auto with hs_same nocore]); auto end) : ivoice.

Lemma hs_same_hw {B} (m : St (Hw H) B) : same (hs_on_hw m).
Proof. apply hs_same_util, plain_hw. Qed.
Lemma hs_same_listener f : same (mod_listener f).
Proof. intros c. unfold mod_listener. keeps. Qed.
Lemma hs_same_tell cb ev : same (tell cb ev).
Proof. apply hs_same_emit. Qed.
#[local] Hint Resolve hs_same_hw hs_same_listener hs_same_tell : hs_same.
Lemma hs_same_set_callback cb : same (L_SetCallback cb).
Proof. intros c. unfold L_SetCallback, get_listener. keeps. Qed.
Lemma hs_same_notify ev : same (L_Notify ev).
Proof. intros c. unfold L_Notify, BackupCallBackEvent, get_listener. keeps. Qed.
Lemma hs_same_callback_inner : same HS_SetCallbackInner.
Proof. intros c. unfold HS_SetCallbackInner. keeps. Qed.
Lemma hs_same_attach : same HS_AttachInner.
Proof. intros c. unfold HS_AttachInner. keeps. Qed.
Lemma hs_same_end : same (end_of_pcm : M unit).
Proof. intros c. unfold end_of_pcm. keeps. Qed.
Lemma hs_same_ability ev mac params n : same (StartAbilityOnDetected ev mac params n : M unit).
Proof.
  intros c. unfold StartAbilityOnDetected. do 2 (apply hoare_seq; [by intros e He|intros ?]).
  destruct (_ || _); [by apply hoare_ret|]. destruct (negb _); [by apply hoare_ret|]. by apply hs_same_emit.
Qed.
Lemma hs_same_push event : same (HS_OnWakeupEvent event).
Proof. intros c. unfold HS_OnWakeupEvent. repeat case_match; try (by intros e He); apply hs_same_modc; intros []; cbn; by case_match. Qed.
#[local] Hint Resolve hs_same_set_callback hs_same_notify hs_same_callback_inner hs_same_attach hs_same_end : hs_same.
#[local] Hint Extern 1 (hoare (hs_parts _ _) _ _) => (apply hs_parts_same; solve [auto with hs_same nocore]) : ivoice.

(** ** The audio and the adapter *)

Lemma hs_parts_buffers {B} a (m : St WakeupSourceProcess B) : ⟪ hs_parts true a ⟫ hs_on_sp m ⟪ λ _, hs_parts true a ⟫.
Proof. intros e [H1 H2 H3 H4]. unfold hs_on_sp. destruct (m _). by constructor. Qed.
Lemma hs_parts_start a : ⟪ hs_parts false a ⟫ HS_StartAudioSource ⟪ λ b, hs_parts b a ⟫.
Proof.
  unfold HS_StartAudioSource. apply (hoare_bind _ _ (λ _, hs_parts true a)).
  { intros e [H1 H2 H3 H4]. by constructor. }
  intros _. apply (hoare_bind _ _ (λ _, hs_parts true a)); [apply hs_parts_buffers|]. intros _.
  apply (hoare_bind _ _ (λ _, hs_parts true a)); [|by intros _ e He]. intros e [H1 H2 H3 H4]. by constructor.
Qed.
(** The thread has ended, and the buffers are still there. *)
Definition hs_stopped (a : bool) e : Prop := hs_isReading (own e) = false ∧ hs_thread (own e) = None ∧
  needSecondStageWakeup (own e) = true ∧ (a = true → is_Some (hs_adapter (own e))).
Lemma hs_parts_stop r a : ⟪ hs_parts r a ⟫ HS_StopAudioSource ⟪ λ _, hs_parts false a ⟫.
Proof.
  unfold HS_StopAudioSource. intros e He. rewrite getc_bind. destruct (hs_isReading (own e)) eqn:Hr; cbn [negb].
  2: { assert (r = false) as -> by (destruct He; congruence). exact He. }
  revert e He Hr. cut (⟪ hs_parts r a ⟫ (_ ← modc (λ x, x <| hs_isReading := false |> <| hs_thread := None |>);
    _ ← on_lib StopReadingStream; _ ← hs_on_sp SP_Release; made ← on_reporter CreateReportDir;
    if negb made then mret () else _ ← on_reporter SavePcm; st_void (on_reporter SetReportInfo)) ⟪ λ _, hs_parts false a ⟫).
  { intros Hc e He _. by apply Hc. }
  apply (hoare_bind _ _ (λ _, hs_stopped a)); [by intros e [H1 H2 H3 H4]|intros _].
  apply (hoare_bind _ _ (λ _, hs_stopped a)); [intros e He; unfold on_lib; by destruct (StopReadingStream _)|intros _].
  apply (hoare_bind _ _ (λ _, hs_parts false a)); [intros e (H1 & H2 & H3 & H4); by constructor|].
  intros _. keeps.
Qed.
Lemma hs_parts_create r a type : ⟪ hs_parts r a ⟫ HS_CreateAdapterInner type ⟪ λ b, hs_parts r b ⟫.
Proof.
  unfold HS_CreateAdapterInner. do 2 (eapply hoare_bind; [solve [auto with ivoice hs_same nocore]|intros ?; cbv beta]).
  intros e [H1 H2 H3 H4]. constructor; [done..|]. cbn. by destruct a1.
Qed.
Lemma hs_parts_release r a : ⟪ hs_parts r a ⟫ HS_ReleaseAdapterInner ⟪ λ _, hs_parts r false ⟫.
Proof.
  unfold HS_ReleaseAdapterInner. do 2 (eapply hoare_bind; [solve [auto with ivoice hs_same nocore]|intros ?; cbv beta]).
  by intros e [H1 H2 H3 H4].
Qed.
Lemma hs_parts_thread a t : ⟪ hs_parts true a ⟫ modc (λ x, x <| hs_thread := t |>) ⟪ λ _, hs_parts true a ⟫.
Proof. intros e [H1 H2 H3 H4]. by constructor. Qed.
#[local] Hint Resolve hs_parts_buffers hs_parts_thread : ivoice.
(** The thread does nothing once the reading has stopped. *)
Lemma hs_turn r a : ⟪ hs_parts r a ⟫ ReadThread_turn memcpy_refused ⟪ λ _, hs_parts r a ⟫.
Proof.
  unfold ReadThread_turn. intros e He. rewrite getc_bind. cbv beta. destruct (hs_thread (id (own e))) as [isEnd|] eqn:Ht; [|done].
  assert (r = true ∧ hs_isReading (id (own e)) = true) as [-> ->].
  { destruct He as [H1 _ H3 _]. cbn in *. destruct r; [done|]. destruct H3 as [H3 _]; [done|congruence]. }
  cbn [negb]. revert e He Ht.
  match goal with |- ∀ e, _ → _ → ?Q (?c e).2 => cut (⟪ hs_parts true a ⟫ c ⟪ λ _, Q ⟫); [intros Hc e He _; by apply Hc|] end.
  apply hoare_seq; [auto with ivoice nocore|]. intros [[ret audioStream] hasAwakeWord].
  destruct (ret =? 1); cbn [negb]; keeps.
Qed.
(** ** The invariant and the handlers *)

Definition hs_reads (s : Z) : bool := (s =? RECOGNIZING) || (s =? RECOGNIZED) || (s =? READ_CAPTURER).
Definition hs_inv (s : Z) : E → Prop := hs_parts (hs_reads s) (negb (s =? IDLE)).
Abbreviation post := (post hs_inv IDLE READ_CAPTURER).
Abbreviation good_handler := (good_handler hs_inv IDLE READ_CAPTURER : Z → Handler Body E → Prop).

Lemma hs_stays cur ret : IDLE ≤ cur ≤ READ_CAPTURER → ⟪ hs_inv cur ⟫ hs_answer ret cur ⟪ post cur ⟫.
Proof. apply answer_stay. Qed.
Lemma hs_goes cur next : IDLE ≤ next ≤ READ_CAPTURER → ⟪ hs_inv next ⟫ hs_answer 0 next ⟪ post cur ⟫.
Proof. apply answer_go. Qed.
#[local] Hint Extern 1 (_ ≤ _ ≤ _) => (unfold IDLE, READ_CAPTURER in *; lia) : ivoice.
#[local] Hint Resolve hs_parts_stop hs_parts_start hs_parts_create hs_parts_release hs_stays hs_goes : ivoice.
#[local] Hint Extern 1 (hoare _ (hs_answer _ ?c) (MachineRuns.post _ _ _ ?c)) => (apply (hs_stays c); first [assumption|by split]) : ivoice.
#[local] Hint Extern 2 (hoare _ (hs_answer 0 ?n) (MachineRuns.post _ _ _ _)) => (apply (hs_goes _ n); by split) : ivoice.
#[local] Hint Extern 3 (hoare (hs_parts _ true) (hs_answer (-1) IDLE) _) =>
  (apply (hoare_conseq _ (hs_inv IDLE) _ _ (post IDLE)); [|apply hs_parts_weaken|done]) : ivoice.

Ltac at_state r a := lazymatch goal with |- hoare (hs_inv _) ?c ?Q => change (hoare (hs_parts r a) c Q) end.

Section any_state.
Context (cur : Z) (Hcur : IDLE ≤ cur ≤ READ_CAPTURER).
Lemma hs_inv_same {B} (c : M B) : same c → ⟪ hs_inv cur ⟫ c ⟪ λ _, hs_inv cur ⟫.
Proof. apply hs_parts_same. Qed.
#[local] Hint Extern 1 (hoare (hs_inv _) _ _) => (apply hs_inv_same; solve [auto with hs_same nocore]) : ivoice.
Lemma hs_good_set_param : good_handler cur HS_HandleSetParam.
Proof. intros msg. unfold HS_HandleSetParam. handler. Qed.
Lemma hs_good_set_listener : good_handler cur HS_HandleSetListener.
Proof. intros msg. unfold HS_HandleSetListener. handler. Qed.
End any_state.

Lemma hs_good_init : good_handler IDLE HS_HandleInit.
Proof.
  intros msg. unfold HS_HandleInit. at_state false false. handler.
  apply (hoare_bind _ _ (λ _, hs_parts false true)); [destruct (inMsg msg) as [[]|]; keeps|intros _]. handler.
Qed.
Lemma hs_good_reset : good_handler IDLE HS_HandleResetAdapter.
Proof. intros msg. unfold HS_HandleResetAdapter. at_state false false. handler. Qed.
Lemma hs_good_init_done : good_handler INITIALIZING HS_HandleInitDone.
Proof. intros msg. unfold HS_HandleInitDone. at_state false true. handler. Qed.
Lemma hs_good_start : good_handler INITIALIZED HS_HandleStart.
Proof.
  intros msg. unfold HS_HandleStart. at_state false true. intros e He. rewrite getc_bind.
  destruct He as [H1 H2 H3 H4]. rewrite H2. cbn [negb]. assert (hs_parts false true e) as He by by constructor. clear H1 H2 H3 H4.
  revert e He. match goal with |- ∀ e, _ → ?Q (?c e).1 (?c e).2 => change (hoare (hs_parts false true) c Q) end. handler.
Qed.
Lemma hs_good_stop : good_handler RECOGNIZING HS_HandleStop.
Proof. intros msg. unfold HS_HandleStop. at_state true true. handler. Qed.
Lemma hs_good_recognizing_timeout : good_handler RECOGNIZING HS_HandleRecognizingTimeout.
Proof. intros msg. unfold HS_HandleRecognizingTimeout. at_state true true. handler. Qed.
Lemma hs_good_complete : good_handler RECOGNIZING HS_HandleRecognizeComplete.
Proof. intros msg. unfold HS_HandleRecognizeComplete. at_state true true. handler. Qed.
Lemma hs_good_start_capturer : good_handler RECOGNIZED HS_HandleStartCapturer.
Proof. intros msg. unfold HS_HandleStartCapturer. at_state true true. handler. Qed.
Lemma hs_good_stop_capturer s : s = RECOGNIZED ∨ s = READ_CAPTURER → good_handler s HS_HandleStopCapturer.
Proof.
  intros Hs msg. unfold HS_HandleStopCapturer.
  apply (hoare_conseq _ (hs_parts true true) _ _ (post s)); [handler|by destruct Hs as [-> | ->]|done].
Qed.
Lemma hs_good_read : good_handler READ_CAPTURER HS_HandleRead.
Proof. intros msg. unfold HS_HandleRead. at_state true true. handler. intros e He. by split. Qed.
Lemma hs_good_release s : INITIALIZING ≤ s ≤ READ_CAPTURER → good_handler s HS_HandleRelease.
Proof.
  intros Hs msg. unfold HS_HandleRelease.
  apply (hoare_conseq _ (hs_parts (hs_reads s) false) _ _ (post s)); [|apply hs_parts_weaken|done].
  do 2 (eapply hoare_bind; [solve [auto with ivoice nocore]|intros ?; cbv beta]).
  apply (hoare_bind _ _ (λ _, hs_parts false false)); [case_match; handler|intros _; handler].
Qed.
(** ** The machine *)

#[local] Tactic Notation "hide" uconstr(h) := generalize (h : Handler Body E); intros ?.
Ltac hide_handlers :=
  hide HS_HandleSetParam; hide HS_HandleSetListener; hide HS_HandleResetAdapter; hide HS_HandleInit;
  hide HS_HandleInitDone; hide HS_HandleStart; hide HS_HandleRecognizeComplete; hide HS_HandleStop;
  hide HS_HandleRecognizingTimeout; hide HS_HandleStartCapturer; hide HS_HandleStopCapturer; hide HS_HandleRead;
  hide HS_HandleRelease.

(** The machine [HS_Create] gives, with the owner [e] it leaves. *)
Definition hs_made (l : bool) e : Machine :=
  HS_InitStates (SetProcessType PROCESS_WAKEUP_HEADSET (SetStateListener l (make_states IDLE true PROCESS_IDLE e))).

Lemma headset_table l e :
  actions_list (hs_made l e) =
    [(5, 11, HS_HandleStopCapturer); (5, 7, HS_HandleRead); (5, 13, HS_HandleSetParam); (5, 18, HS_HandleRelease);
     (5, 12, HS_HandleSetListener); (5, 16, HS_HandleRelease); (5, 8, HS_HandleStopCapturer); (3, 13, HS_HandleSetParam);
     (3, 9, HS_HandleRecognizingTimeout); (3, 5, HS_HandleRecognizeComplete); (3, 18, HS_HandleRelease);
     (3, 12, HS_HandleSetListener); (3, 16, HS_HandleRelease); (3, 4, HS_HandleStop); (4, 13, HS_HandleSetParam);
     (4, 18, HS_HandleRelease); (4, 10, HS_HandleStopCapturer); (4, 6, HS_HandleStartCapturer);
     (4, 12, HS_HandleSetListener); (4, 16, HS_HandleRelease); (2, 13, HS_HandleSetParam); (2, 3, HS_HandleStart);
     (2, 18, HS_HandleRelease); (2, 12, HS_HandleSetListener); (2, 16, HS_HandleRelease); (1, 13, HS_HandleSetParam);
     (1, 18, HS_HandleRelease); (1, 12, HS_HandleSetListener); (1, 16, HS_HandleRelease); (1, 2, HS_HandleInitDone);
     (0, 13, HS_HandleSetParam); (0, 17, HS_HandleResetAdapter); (0, 12, HS_HandleSetListener); (0, 1, HS_HandleInit)].
Proof. unfold hs_made, HS_InitStates. hide_handlers. by vm_compute. Qed.
Lemma headset_timeouts l e :
  timeout_table (hs_made l e) =
    [(5, 11, Some (HS_HandleStopCapturer : Handler Body E)); (3, 9, Some (HS_HandleRecognizingTimeout : Handler Body E));
     (4, 10, Some (HS_HandleStopCapturer : Handler Body E))].
Proof. unfold hs_made, HS_InitStates. hide_handlers. by vm_compute. Qed.
Lemma headset_states l e s : s ∈ seqZ 0 6 → is_Some (states_ (hs_made l e) !! s).
Proof.
  unfold hs_made, HS_InitStates. hide_handlers. intros Hs.
  assert (s = 0 ∨ s = 1 ∨ s = 2 ∨ s = 3 ∨ s = 4 ∨ s = 5) as Hc by (apply elem_of_seqZ in Hs; lia).
  repeat (destruct Hc as [->|Hc]; [vm_compute; by eexists|]). subst s. vm_compute. by eexists.
Qed.
Lemma headset_releases l e : handles_above INITIALIZED RELEASE (hs_made l e) = true.
Proof. unfold hs_made, HS_InitStates. hide_handlers. by vm_compute. Qed.
Lemma headset_fields l e :
  (isInitSucc_ (hs_made l e), hasListener (hs_made l e), processType_ (hs_made l e), currState_ (hs_made l e)) =
  (true, l, PROCESS_WAKEUP_HEADSET, Some IDLE).
Proof. unfold hs_made, HS_InitStates. hide_handlers. by vm_compute. Qed.
Lemma headset_configured l e : configured (hs_made l e).
Proof.
  apply (configured_intro _ IDLE); [..|apply headset_states; by apply elem_of_seqZ];
    unfold hs_made, HS_InitStates; hide_handlers; by vm_compute.
Qed.
Lemma headset_keeps l e : handlers_keep hs_inv (hs_made l e).
Proof.
  apply (good_table hs_inv IDLE READ_CAPTURER); [apply headset_states|]. rewrite headset_table.
  repeat (apply Forall_cons; split; [|]); [..|by apply Forall_nil]; cbn [fst snd].
  all: first [simple apply hs_good_set_param; by split|simple apply hs_good_set_listener; by split
    |simple apply hs_good_release; by split|simple apply hs_good_stop_capturer; by auto|simple apply hs_good_read
    |simple apply hs_good_recognizing_timeout|simple apply hs_good_complete|simple apply hs_good_stop
    |simple apply hs_good_start_capturer|simple apply hs_good_start|simple apply hs_good_init_done
    |simple apply hs_good_reset|simple apply hs_good_init].
Qed.
(** The handlers of the timeouts go to [INITIALIZED]. *)
Lemma hs_stop_capturer_next msg cur : returns (HS_HandleStopCapturer msg cur : M HandlerResult) (goes_to INITIALIZED).
Proof. unfold HS_HandleStopCapturer. repeat (apply returns_seq; intros ?). by intros e _. Qed.
Lemma hs_recognizing_timeout_next msg cur :
  returns (HS_HandleRecognizingTimeout msg cur : M HandlerResult) (goes_to INITIALIZED).
Proof. unfold HS_HandleRecognizingTimeout. repeat (apply returns_seq; intros ?). by intros e _. Qed.
Lemma headset_timeouts_to l e : timeouts_to (hs_made l e) IDLE INITIALIZED.
Proof.
  unfold timeouts_to. rewrite headset_timeouts.
  repeat (apply Forall_cons; split; [|]); [..|by apply Forall_nil]; (split; [done|]); intros h body e' [= <-];
    first [by apply hs_stop_capturer_next|by apply hs_recognizing_timeout_next].
Qed.
Lemma headset_target l e : is_Some (states_ (hs_made l e) !! INITIALIZED).
Proof. apply headset_states. by apply elem_of_seqZ. Qed.
Lemma headset_no_timer l e :
  forallb (λ x, match x.2 with Some a => actTimerId a =? INVALID_ID | None => true end)
    (map_to_list (states_ (hs_made l e))) = true.
Proof. unfold hs_made, HS_InitStates. hide_handlers. by vm_compute. Qed.
Lemma headset_curr l e : currState_ (hs_made l e) = Some IDLE.
Proof. unfold hs_made, HS_InitStates. hide_handlers. by vm_compute. Qed.
Lemma headset_timers l e : timers (hs_made l e) = TimerMgr.Start true None (TimerMgr.make 10).
Proof. done. Qed.
Lemma hs_made_good l e : hs_inv IDLE e → good hs_inv (hs_made l e) (hs_made l e) [].
Proof.
  exact (good_fresh hs_inv (hs_made l e) IDLE INITIALIZED (headset_timeouts_to l e) (headset_target l e)
    (headset_timers l e) (headset_no_timer l e) (headset_configured l e) (headset_curr l e)).
Qed.
Lemma headset_timeout l e s : hs_reads s = true → timeout_to (hs_made l e) s INITIALIZED.
Proof.
  intros Hs. apply (timeouts_to_timeout _ _ _ (headset_timeouts_to l e)). rewrite headset_timeouts.
  apply orb_true_iff in Hs as [[Hs|Hs]%orb_true_iff|Hs]; apply Z.eqb_eq in Hs; subst s; do 2 eexists;
    [right; left|right; right; left|left].
Qed.
(** What [HS_Create] makes. *)
Lemma HS_Create_machine l e : (HS_Create l e).1 = true →
  ∃ e', (HS_Create l e).2 = hs_made l e' ∧ ∀ P : E → Prop, (∀ B (c : M B), same c → ⟪ P ⟫ c ⟪ λ _, P ⟫) → P e → P e'.
Proof.
  unfold HS_Create, with_env. cbv zeta. match goal with |- context [?c (env _)] => set (create := c) end.
  assert (same create) as Hc by (subst create; intros c; keeps).
  change (env (SetProcessType _ _)) with e. destruct (create e) as [ok e'] eqn:He. cbn [fst snd] in *. intros ->.
  exists e'. split; [unfold hs_made; apply (f_equal HS_InitStates); reflexivity|].
  intros P HP Hi. specialize (HP _ create Hc e Hi). by rewrite He in HP.
Qed.
Lemma HS_Create_made l e :
  hs_inv IDLE e → (HS_Create l e).1 = true → ∃ e', hs_inv IDLE e' ∧ (HS_Create l e).2 = hs_made l e'.
Proof.
  intros He Hok. destruct (HS_Create_machine l e Hok) as (e' & Hm & Hp). exists e'. split; [|done].
  apply (Hp (hs_inv IDLE)); [|done]. intros B c Hc. by apply hs_inv_same.
Qed.

(** ** Runs *)

(** What other parts of the service change: the HAL, the library, the files, the settings,
    the trigger manager, the tasks of the service, the clock. *)
Definition hs_world_change e e' : Prop := ∃ w lib f, own e' = own e <| hs_hw := w |> <| hs_lib := lib |> <| hs_files := f |>.

Inductive hstep : relation (Machine * list TimerMgr.TimerEvent) :=
| h_msg now msg m fl r m' : HS_Handle now msg m = Some (r, m') → hstep (m, fl) (m', fl)
| h_detected now d endFrame m fl m' : HS_OnTriggerDetected now d endFrame m = Some m' → hstep (m, fl) (m', fl)
| h_event ev m fl : hstep (m, fl) ((with_env (HS_OnWakeupEvent ev) m).2, fl)
| h_task now m fl m' : HS_ExecuteInThread now m = Some m' → hstep (m, fl) (m', fl)
| h_turn m fl : hstep (m, fl) ((with_env (ReadThread_turn memcpy_refused) m).2, fl)
| h_thread x y : thread_step x y → hstep x y
| h_world e m fl : hs_world_change (env m) e → hstep (m, fl) (m <| env := e |>, fl).

Section keep.
Context (m0 : Machine) (Hk : handlers_keep hs_inv m0).
Implicit Types m : Machine.
Abbreviation good m fl := (good hs_inv m0 m fl).

Lemma good_hs_handle now msg m fl r m' : good m fl → HS_Handle now msg m = Some (r, m') → good m' fl.
Proof. intros Hm. unfold HS_Handle. destruct (negb _); [by intros [= _ <-]|by apply (good_handle hs_inv m0 Hk)]. Qed.
Lemma good_hs_snd now msg m fl m' : good m fl → snd <$> HS_Handle now msg m = Some m' → good m' fl.
Proof. intros Hm Hs. destruct (HS_Handle _ _ _) as [[r m1]|] eqn:Hr; [|done]. apply (inj Some) in Hs. subst m'.
  by eapply good_hs_handle. Qed.
Lemma good_hs_same {B} (c : M B) m fl : same c → good m fl → good (with_env c m).2 fl.
Proof. intros Hc. apply good_keeping. intros s e He. by apply (hs_inv_same s). Qed.

Lemma good_hs_detected now d endFrame m fl m' :
  good m fl → HS_OnTriggerDetected now d endFrame m = Some m' → good m' fl.
Proof.
  intros Hm. unfold HS_OnTriggerDetected. cbv zeta. apply good_hs_snd, good_hs_same; [|done].
  intros c. apply hoare_seq; [apply hs_same_ability|]. intros _. keeps.
Qed.
Lemma good_hs_task now m fl m' : good m fl → HS_ExecuteInThread now m = Some m' → good m' fl.
Proof.
  intros Hm. unfold HS_ExecuteInThread. destruct (hs_tasks _) as [|t rest]; [by intros [= <-]|].
  assert (good (with_env (modc (λ x, x <| hs_tasks := rest |>) : M unit) m).2 fl) as H1
    by (apply good_hs_same; [apply hs_same_modc; by intros []|done]).
  cbv zeta. destruct t; by apply good_hs_snd.
Qed.
Lemma hstep_good x y : hstep x y → good x.1 x.2 → good y.1 y.2.
Proof.
  intros [] Hm; cbn [fst snd] in *.
  - by eapply good_hs_handle.
  - by eapply good_hs_detected.
  - apply good_hs_same; [apply hs_same_push|done].
  - by eapply good_hs_task.
  - apply good_keeping; [|done]. intros s. apply hs_turn.
  - by eapply (good_thread hs_inv m0 Hk).
  - apply good_env; [done|]. intros cur Hi _. revert Hi. apply hs_parts_framed.
    destruct H0 as (w & lib & f & Hown). unfold hs_core, hs_core_own. by rewrite Hown.
Qed.
End keep.

Lemma new_hs ty w lib f t d ts n : hs_inv IDLE (mkSys (new_headset ty w lib f) t d ts [] n : E).
Proof. by constructor. Qed.
Lemma reachable_hs l e m0 m fl :
  hs_inv IDLE e → HS_Create l e = (true, m0) → rtc hstep (m0, []) (m, fl) →
  ∃ e', good hs_inv (hs_made l e') m fl.
Proof.
  intros He Hc Hr. destruct (HS_Create_made l e He) as (e' & He' & Hm0); [by rewrite Hc|]. rewrite Hc in Hm0. cbn [snd] in Hm0.
  subst m0. exists e'. exact (good_run _ _ _ _ _ (hstep_good _ (headset_keeps l e')) Hr (hs_made_good l e' He')).
Qed.

(** C29: whatever happens to a headset's engine, and in whatever order, its audio is read
    exactly while the machine is in RECOGNIZING, RECOGNIZED or READ_CAPTURER, otherwise
    there is no reading thread and no audio is kept, and in every state but IDLE there
    is an adapter; and the timer thread alone brings it from there to a machine that
    reads nothing. *)
Theorem headset_reading l ty w lib f t d ts n m0 m fl
    (Hc : HS_Create l (mkSys (new_headset ty w lib f) t d ts [] n) = (true, m0))
    (Hr : rtc hstep (m0, []) (m, fl)) :
  (∃ s, currState_ m = Some s ∧ hs_isReading (own (env m)) = hs_reads s ∧
     (hs_reads s = false → hs_thread (own (env m)) = None ∧ bufferQueue_ (hs_sp (own (env m))) = []) ∧
     (s ≠ IDLE → is_Some (hs_adapter (own (env m))))) ∧
  ∃ y, rtc thread_step (m, fl) y ∧ hs_isReading (own (env y.1)) = false ∧ bufferQueue_ (hs_sp (own (env y.1))) = [].
Proof.
  destruct (reachable_hs l _ m0 m fl (new_hs _ _ _ _ _ _ _ _) Hc Hr) as (e' & Hg). pose proof Hg as [_ _ (s & Hs & Hi)].
  pose proof Hi as [H1 _ H3 H4]. split.
  - exists s. split_and!; [done|done|by intros Hf; destruct (H3 Hf) as (? & _ & ?)|].
    intros Hne. apply H4. by destruct (Z.eqb_spec s IDLE).
  - destruct (hs_reads s) eqn:Hrd.
    + destruct (good_ends _ _ (headset_keeps l e') m fl s INITIALIZED Hg Hs (headset_timeout _ _ _ Hrd))
        as (y & Hy & _ & [E1 _ E3 _]). destruct (E3 eq_refl) as (_ & _ & E4). by exists y.
    + exists (m, fl). destruct (H3 eq_refl) as (_ & _ & ?). split; [apply rtc_refl|done].
Qed.
(** Operations that are given. *)
Inductive HsOp :=
| HsMsg (now : Z) (msg : StateMsg Body)
| HsDetected (now : Z) (d : WakeupDeviceDetail) (endFrame : Z)
| HsEvent (ev : HdiEvent)
| HsTask (now : Z)
| HsTurn.
Definition hs_do (o : HsOp) (x : Machine * list TimerMgr.TimerEvent) : option (Machine * list TimerMgr.TimerEvent) :=
  let m := x.1 in
  (λ m', (m', x.2)) <$>
  match o with
  | HsMsg now msg => snd <$> HS_Handle now msg m
  | HsDetected now d endFrame => HS_OnTriggerDetected now d endFrame m
  | HsEvent ev => Some (with_env (HS_OnWakeupEvent ev) m).2
  | HsTask now => HS_ExecuteInThread now m
  | HsTurn => Some (with_env (ReadThread_turn memcpy_refused) m).2
  end.
Lemma hs_do_step o x y : hs_do o x = Some y → hstep x y.
Proof.
  destruct x as [m fl]. unfold hs_do. cbn [fst snd].
  match goal with |- _ <$> ?c = _ → _ => destruct c as [m'|] eqn:Hd end; [|done].
  cbn. intros Hq%(inj Some). subst y. destruct o.
  - destruct (HS_Handle now msg m) as [[r m1]|] eqn:Hh; [|done]. apply (inj Some) in Hd. cbn in Hd. subst m1. by eapply h_msg.
  - by eapply h_detected.
  - apply (inj Some) in Hd. subst m'. apply h_event.
  - by eapply h_task.
  - apply (inj Some) in Hd. subst m'. apply h_turn.
Qed.
End safety.

(** ** A concrete run *)

(** A headset that sends the frames it is given. *)
#[global] Instance queue_headset : HeadsetLib (list (list Z * bool)) := {|
  hl_inst _ := true;
  hl_ReadHeadsetStream := λ l, match l with [] => ((-1, [], true), []) | (x, b) :: l => ((1, x, b), l) end;
  hl_NotifyVerifyResult _ := mret 0;
  hl_StopReadingStream := mret 0;
  hl_devmgr _ := true;
  hl_LoadDevice := mret ();
  hl_UnloadDevice := mret () |}.

Abbreviation RefHeadset := (HeadsetWakeupEngineImpl RefHal (list (list Z * bool)) (list (str * list Z))).
Abbreviation hs_first := (HS_Create true
  (mkSys (new_headset 9 ref_hw [([1; 2], true); ([3; 4], false)] [] : RefHeadset) (∅ : gmap string str) (Some (∅ : gmap string str)) [] [] 0)).

(** A start-up, a wakeup, and a frame of the wakeup word. *)
Definition hs_session : list HsOp :=
  [HsMsg 1 (mkStateMsg INIT None); HsEvent (mkEvent 1 0 []); HsTask 2;
   HsDetected 3 (mkDetail 0 PROCESS_WAKEUP_HEADSET [] [] true [] []) 7; HsTurn].

Lemma headset_reading_witness :
  ∃ (m : ModuleStates Body (Sys RefHeadset (gmap string str) (gmap string str))) y, currState_ m = Some RECOGNIZING ∧ hs_isReading (own (env m)) = true ∧
         rtc thread_step (m, []) y ∧ hs_isReading (own (env y.1)) = false.
Proof.
  assert (hs_first.1 && match run_ops (hs_do (λ l _, l)) hs_session (hs_first.2, []) with
    | Some (m, fl) => bool_decide (currState_ m = Some RECOGNIZING) && bool_decide (fl = [])
    | None => false
    end = true) as [Hok Hc]%andb_true_iff by by vm_compute.
  destruct hs_first as [ok m0] eqn:Hm0. cbn [fst snd] in *. subst ok.
  destruct (run_ops _ hs_session (m0, [])) as [[m fl]|] eqn:Hm; [|done].
  apply andb_true_iff in Hc as [Hs%bool_decide_eq_true Hf%bool_decide_eq_true].
  pose proof (run_ops_rtc _ (hstep (λ l _, l)) hs_session _ _ (hs_do_step _) Hm) as Hr. rewrite Hf in Hr.
  destruct (headset_reading (λ l _, l) true 9 ref_hw [([1; 2], true); ([3; 4], false)] [] ∅ (Some ∅) [] 0 m0 m [] Hm0 Hr)
    as [(s & Hs' & H1 & _) (y & Hy & H2 & _)].
  rewrite Hs in Hs'. injection Hs' as <-. exists m, y. exact (conj Hs (conj H1 (conj Hy H2))).
Defined.
