(* ===== verification/GlassesSafety.v ===== *)
(** * The glasses' wakeup engine: what holds in each state, and its runs

    The audio of the glasses is read, by a thread, exactly in the states [RECOGNIZED] and
    [READ_CAPTURER]: while the glasses confirm the wakeup ([RECOGNIZING]) nothing is read.
    [MachineRuns.v] lifts this from the handlers to any sequence of messages, wakeups,
    events of the glasses, turns of the two threads and timeouts. *)

From S2P Require Import Prelude TimerMgr StringUtil AudioUtil Settings StateManager StateTimeout MachineRuns EngineTypes.
From S2P Require Import EngineAudio EngineUtil WakeupSource WakeupListener CloudReporter WakeupImpl DeviceManager GlassesImpl.

Section safety.
Context {L F T D : Type} `{!GlassesLib L} `{!Files F} `{!KvStore D}.
Context {JL : JsonLib} {PL : Platform} {IDS : HdiIds} (memcpy_refused : list Z → nat → list Z).
Abbreviation E := (Sys (GlassesWakeupEngineImpl L F) T D).
Abbreviation M := (St (Sys (GlassesWakeupEngineImpl L F) T D)).
Abbreviation Machine := (ModuleStates Body (Sys (GlassesWakeupEngineImpl L F) T D)).
Implicit Types e : E.

(** What the invariant looks at; the thread and the buffers only while nothing is read. *)
Definition gl_core_own (x : GlassesWakeupEngineImpl L F) :=
  (gl_isReading x, if gl_isReading x then None else Some (gl_thread x, channelCnt_ (gl_sp x), bufferQueue_ (gl_sp x))).
Definition gl_core e := gl_core_own (own e).
Abbreviation same := (frames gl_core).

(** Whether audio is read. *)
Record gl_parts (reading : bool) e : Prop := {
  gp_reading : gl_isReading (own e) = reading;
  gp_quiet : reading = false →
    gl_thread (own e) = false ∧ channelCnt_ (gl_sp (own e)) = 0 ∧ bufferQueue_ (gl_sp (own e)) = [] }.

Lemma gl_parts_framed r : framed gl_core (gl_parts r).
Proof.
  intros e e' Hc [H1 H2]. unfold gl_core, gl_core_own in Hc. injection Hc as E1 E2. constructor; [by rewrite E1|].
  intros Hr. specialize (H2 Hr). rewrite E1, H1, Hr in E2. injection E2 as -> -> ->. done.
Qed.
Lemma gl_parts_same {B} r (c : M B) : same c → ⟪ gl_parts r ⟫ c ⟪ λ _, gl_parts r ⟫.
Proof. apply frames_run, gl_parts_framed. Qed.

(** ** Computations that leave the core alone *)

Lemma gl_same_lib {B} (m : St L B) : same (gl_on_lib m).
Proof. intros c e <-. unfold gl_on_lib. by destruct (m _). Qed.
Lemma gl_same_reporter {B} (m : St (AccessoriesCloudReporter * F) B) : same (gl_on_reporter m).
Proof. intros c e <-. unfold gl_on_reporter. by destruct (m _). Qed.
Lemma gl_same_getc {B} (f : GlassesWakeupEngineImpl L F → B) : same (getc f).
Proof. by intros c e He. Qed.
Lemma gl_same_modc f : (∀ x, gl_core_own (f x) = gl_core_own x) → same (modc f).
Proof. intros Hf c e <-. unfold gl_core, modc. run. cbn. by rewrite Hf. Qed.
Lemma gl_same_emit o : same (emit o).
Proof. intros c e <-. done. Qed.
Create HintDb gl_same discriminated.
#[local] Hint Resolve gl_same_lib gl_same_reporter gl_same_getc gl_same_emit : gl_same.
#[local] Hint Extern 1 (frames gl_core (modc _)) => (apply gl_same_modc; by intros []) : gl_same.
#[local] Hint Extern 1 (hoare (λ e, gl_core e = _) _ _) =>
  (lazymatch goal with |- hoare _ ?m _ => assert (frames gl_core m) by (solve [auto with gl_same nocore]); auto end) : ivoice.

Lemma gl_same_listener f : same (mod_listener f).
Proof. intros c. unfold mod_listener. keeps. Qed.
Lemma gl_same_tell cb ev : same (tell cb ev).
Proof. apply gl_same_emit. Qed.
#[local] Hint Resolve gl_same_listener gl_same_tell : gl_same.
Lemma gl_same_set_callback cb : same (L_SetCallback cb).
Proof. intros c. unfold L_SetCallback, get_listener. keeps. Qed.
Lemma gl_same_notify ev : same (L_Notify ev).
Proof. intros c. unfold L_Notify, BackupCallBackEvent, get_listener. keeps. Qed.
Lemma gl_same_ability ev mac params n : same (StartAbilityOnDetected ev mac params n : M unit).
Proof.
  intros c. unfold StartAbilityOnDetected. do 2 (apply hoare_seq; [by intros e He|intros ?]).
  destruct (_ || _); [by apply hoare_ret|]. destruct (negb _); [by apply hoare_ret|]. by apply gl_same_emit.
Qed.
Lemma gl_same_push event : same (GL_OnWakeupEvent event).
Proof. intros c. unfold GL_OnWakeupEvent. repeat case_match; try (by intros e He); apply gl_same_modc; intros []; cbn; by case_match. Qed.
#[local] Hint Resolve gl_same_set_callback gl_same_notify : gl_same.
#[local] Hint Extern 1 (hoare (gl_parts _) _ _) => (apply gl_parts_same; solve [auto with gl_same nocore]) : ivoice.

(** ** The audio *)

Lemma gl_parts_buffers {B} (m : St WakeupSourceProcess B) : ⟪ gl_parts true ⟫ gl_on_sp m ⟪ λ _, gl_parts true ⟫.
Proof. intros e [H1 H2]. unfold gl_on_sp. destruct (m _). by constructor. Qed.
Lemma gl_parts_start : ⟪ gl_parts false ⟫ GL_StartAudioSource ⟪ gl_parts ⟫.
Proof.
  unfold GL_StartAudioSource. apply (hoare_bind _ _ (λ _, gl_parts true)); [by intros e [H1 H2]|].
  intros _. apply (hoare_bind _ _ (λ _, gl_parts true)); [apply gl_parts_buffers|]. intros _.
  apply (hoare_bind _ _ (λ _, gl_parts true)); [by intros e [H1 H2]|by intros _ e He].
Qed.
(** The thread has ended, and the buffers are still there. *)
Definition gl_stopped e : Prop := gl_isReading (own e) = false ∧ gl_thread (own e) = false.
Lemma gl_parts_stop r : ⟪ gl_parts r ⟫ GL_StopAudioSource ⟪ λ _, gl_parts false ⟫.
Proof.
  unfold GL_StopAudioSource. intros e He. rewrite getc_bind. destruct (gl_isReading (own e)) eqn:Hr; cbn [negb].
  2: { assert (r = false) as -> by (destruct He; congruence). exact He. }
  revert e He Hr. cut (⟪ gl_parts r ⟫ (_ ← modc (λ x, x <| gl_isReading := false |> <| gl_thread := false |>);
    _ ← gl_on_lib GL_StopReadingStream; _ ← gl_on_sp SP_Release; made ← gl_on_reporter CreateReportDir;
    if negb made then mret () else _ ← gl_on_reporter SavePcm; st_void (gl_on_reporter SetReportInfo)) ⟪ λ _, gl_parts false ⟫).
  { intros Hc e He _. by apply Hc. }
  apply (hoare_bind _ _ (λ _, gl_stopped)); [by intros e [H1 H2]|intros _].
  apply (hoare_bind _ _ (λ _, gl_stopped)); [intros e He; unfold gl_on_lib; by destruct (GL_StopReadingStream _)|intros _].
  apply (hoare_bind _ _ (λ _, gl_parts false)); [intros e (H1 & H2); by constructor|].
  intros _. keeps.
Qed.
Lemma gl_parts_thread t : ⟪ gl_parts true ⟫ modc (λ x, x <| gl_thread := t |>) ⟪ λ _, gl_parts true ⟫.
Proof. intros e [H1 H2]. by constructor. Qed.
#[local] Hint Resolve gl_parts_buffers gl_parts_thread : ivoice.
(** The thread does nothing once the reading has stopped. *)
Lemma gl_turn r : ⟪ gl_parts r ⟫ GL_ReadThread_turn memcpy_refused ⟪ λ _, gl_parts r ⟫.
Proof.
  unfold GL_ReadThread_turn. intros e He. rewrite getc_bind. cbv beta. destruct (gl_thread (id (own e))) eqn:Ht; [|done].
  assert (r = true ∧ gl_isReading (id (own e)) = true) as [-> ->].
  { destruct He as [H1 H2]. cbn in *. destruct r; [done|]. destruct H2 as [H2 _]; [done|congruence]. }
  cbn [negb]. revert e He Ht.
  match goal with |- ∀ e, _ → _ → ?Q (?c e).2 => cut (⟪ gl_parts true ⟫ c ⟪ λ _, Q ⟫); [intros Hc e He _; by apply Hc|] end.
  apply hoare_seq; [auto with ivoice nocore|]. intros [[ret audioStream] hasAwakeWord].
  destruct (ret =? 0); cbn [negb]; keeps.
Qed.
(** ** The invariant and the handlers *)

Definition gl_reads (s : Z) : bool := (s =? RECOGNIZED) || (s =? READ_CAPTURER).
Definition gl_inv (s : Z) : E → Prop := gl_parts (gl_reads s).
Abbreviation post := (post gl_inv IDLE READ_CAPTURER).
Abbreviation good_handler := (good_handler gl_inv IDLE READ_CAPTURER : Z → Handler Body E → Prop).

Lemma gl_stays cur ret : IDLE ≤ cur ≤ READ_CAPTURER → ⟪ gl_inv cur ⟫ gl_answer ret cur ⟪ post cur ⟫.
Proof. apply answer_stay. Qed.
Lemma gl_goes cur next : IDLE ≤ next ≤ READ_CAPTURER → ⟪ gl_inv next ⟫ gl_answer 0 next ⟪ post cur ⟫.
Proof. apply answer_go. Qed.
#[local] Hint Extern 1 (_ ≤ _ ≤ _) => (unfold IDLE, READ_CAPTURER in *; lia) : ivoice.
#[local] Hint Resolve gl_parts_stop gl_parts_start gl_stays gl_goes : ivoice.
#[local] Hint Extern 1 (hoare _ (gl_answer _ ?c) (MachineRuns.post _ _ _ ?c)) => (apply (gl_stays c); first [assumption|by split]) : ivoice.
#[local] Hint Extern 2 (hoare _ (gl_answer 0 ?n) (MachineRuns.post _ _ _ _)) => (apply (gl_goes _ n); by split) : ivoice.

Ltac at_state r := lazymatch goal with |- hoare (gl_inv _) ?c ?Q => change (hoare (gl_parts r) c Q) end.

Section any_state.
Context (cur : Z) (Hcur : IDLE ≤ cur ≤ READ_CAPTURER).
Lemma gl_inv_same {B} (c : M B) : same c → ⟪ gl_inv cur ⟫ c ⟪ λ _, gl_inv cur ⟫.
Proof. apply gl_parts_same. Qed.
#[local] Hint Extern 1 (hoare (gl_inv _) _ _) => (apply gl_inv_same; solve [auto with gl_same nocore]) : ivoice.
Lemma gl_good_set_param : good_handler cur GL_HandleSetParam.
Proof. intros msg. unfold GL_HandleSetParam. handler. Qed.
Lemma gl_good_set_listener : good_handler cur GL_HandleSetListener.
Proof. intros msg. unfold GL_HandleSetListener. handler. Qed.
End any_state.

Lemma gl_good_init : good_handler IDLE GL_HandleInit.
Proof. intros msg. unfold GL_HandleInit. at_state false. handler. Qed.
Lemma gl_good_reset : good_handler IDLE GL_HandleResetAdapter.
Proof. intros msg. unfold GL_HandleResetAdapter. at_state false. handler. Qed.
Lemma gl_good_start : good_handler INITIALIZED GL_HandleStart.
Proof. intros msg. unfold GL_HandleStart. at_state false. handler. Qed.
Lemma gl_good_stop : good_handler RECOGNIZING GL_HandleStop.
Proof. intros msg. unfold GL_HandleStop. at_state false. handler. Qed.
Lemma gl_good_recognizing_timeout : good_handler RECOGNIZING GL_HandleRecognizingTimeout.
Proof. intros msg. unfold GL_HandleRecognizingTimeout. at_state false. handler. Qed.
Lemma gl_good_complete : good_handler RECOGNIZING GL_HandleRecognizeComplete.
Proof. intros msg. unfold GL_HandleRecognizeComplete. at_state false. handler. Qed.
Lemma gl_good_start_capturer : good_handler RECOGNIZED GL_HandleStartCapturer.
Proof. intros msg. unfold GL_HandleStartCapturer. at_state true. handler. Qed.
Lemma gl_good_stop_capturer s : s = RECOGNIZED ∨ s = READ_CAPTURER → good_handler s GL_HandleStopCapturer.
Proof.
  intros Hs msg. unfold GL_HandleStopCapturer.
  apply (hoare_conseq _ (gl_parts true) _ _ (post s)); [handler|by destruct Hs as [-> | ->]|done].
Qed.
Lemma gl_good_read : good_handler READ_CAPTURER GL_HandleRead.
Proof. intros msg. unfold GL_HandleRead. at_state true. handler. intros e He. by split. Qed.
Lemma gl_good_release s : INITIALIZING ≤ s ≤ READ_CAPTURER → good_handler s GL_HandleRelease.
Proof. intros Hs msg. unfold GL_HandleRelease. change (gl_inv s) with (gl_parts (gl_reads s)). handler. Qed.
(** ** The machine *)

#[local] Tactic Notation "hide" uconstr(h) := generalize (h : Handler Body E); intros ?.
Ltac hide_handlers :=
  hide GL_HandleSetParam; hide GL_HandleSetListener; hide GL_HandleResetAdapter; hide GL_HandleInit;
  hide GL_HandleStart; hide GL_HandleRecognizeComplete; hide GL_HandleStop; hide GL_HandleRecognizingTimeout;
  hide GL_HandleStartCapturer; hide GL_HandleStopCapturer; hide GL_HandleRead; hide GL_HandleRelease.

(** The machine [GL_Create] gives. *)
Definition gl_made (l : bool) e : Machine := (GL_Create l e).2.

Lemma glasses_table l e :
  actions_list (gl_made l e) =
    [(5, 11, GL_HandleStopCapturer); (5, 7, GL_HandleRead); (5, 13, GL_HandleSetParam); (5, 18, GL_HandleRelease);
     (5, 12, GL_HandleSetListener); (5, 16, GL_HandleRelease); (5, 8, GL_HandleStopCapturer); (3, 13, GL_HandleSetParam);
     (3, 9, GL_HandleRecognizingTimeout); (3, 5, GL_HandleRecognizeComplete); (3, 18, GL_HandleRelease);
     (3, 12, GL_HandleSetListener); (3, 16, GL_HandleRelease); (3, 4, GL_HandleStop); (4, 13, GL_HandleSetParam);
     (4, 18, GL_HandleRelease); (4, 10, GL_HandleStopCapturer); (4, 6, GL_HandleStartCapturer);
     (4, 12, GL_HandleSetListener); (4, 16, GL_HandleRelease); (2, 13, GL_HandleSetParam); (2, 3, GL_HandleStart);
     (2, 18, GL_HandleRelease); (2, 12, GL_HandleSetListener); (2, 16, GL_HandleRelease); (1, 13, GL_HandleSetParam);
     (1, 18, GL_HandleRelease); (1, 12, GL_HandleSetListener); (1, 16, GL_HandleRelease);
     (0, 13, GL_HandleSetParam); (0, 17, GL_HandleResetAdapter); (0, 12, GL_HandleSetListener); (0, 1, GL_HandleInit)].
Proof. unfold gl_made, GL_Create, GL_InitStates. hide_handlers. by vm_compute. Qed.
Lemma glasses_timeouts l e :
  timeout_table (gl_made l e) =
    [(5, 11, Some (GL_HandleStopCapturer : Handler Body E)); (3, 9, Some (GL_HandleRecognizingTimeout : Handler Body E));
     (4, 10, Some (GL_HandleStopCapturer : Handler Body E))].
Proof. unfold gl_made, GL_Create, GL_InitStates. hide_handlers. by vm_compute. Qed.
Lemma glasses_states l e s : s ∈ seqZ 0 6 → is_Some (states_ (gl_made l e) !! s).
Proof.
  unfold gl_made, GL_Create, GL_InitStates. hide_handlers. intros Hs.
  assert (s = 0 ∨ s = 1 ∨ s = 2 ∨ s = 3 ∨ s = 4 ∨ s = 5) as Hc by (apply elem_of_seqZ in Hs; lia).
  repeat (destruct Hc as [->|Hc]; [vm_compute; by eexists|]). subst s. vm_compute. by eexists.
Qed.
Lemma glasses_releases l e : handles_above INITIALIZED RELEASE (gl_made l e) = true.
Proof. unfold gl_made, GL_Create, GL_InitStates. hide_handlers. by vm_compute. Qed.
Lemma glasses_fields l e :
  (isInitSucc_ (gl_made l e), hasListener (gl_made l e), processType_ (gl_made l e), currState_ (gl_made l e)) =
  (true, l, PROCESS_WAKEUP_GLASSES, Some IDLE).
Proof. unfold gl_made, GL_Create, GL_InitStates. hide_handlers. by vm_compute. Qed.
Lemma glasses_configured l e : configured (gl_made l e).
Proof.
  apply (configured_intro _ IDLE); [..|apply glasses_states; by apply elem_of_seqZ];
    unfold gl_made, GL_Create, GL_InitStates; hide_handlers; by vm_compute.
Qed.
Lemma glasses_keeps l e : handlers_keep gl_inv (gl_made l e).
Proof.
  apply (good_table gl_inv IDLE READ_CAPTURER); [apply glasses_states|]. rewrite glasses_table.
  repeat (apply Forall_cons; split; [|]); [..|by apply Forall_nil]; cbn [fst snd].
  all: first [simple apply gl_good_set_param; by split|simple apply gl_good_set_listener; by split
    |simple apply gl_good_release; by split|simple apply gl_good_stop_capturer; by auto|simple apply gl_good_read
    |simple apply gl_good_recognizing_timeout|simple apply gl_good_complete|simple apply gl_good_stop
    |simple apply gl_good_start_capturer|simple apply gl_good_start|simple apply gl_good_reset|simple apply gl_good_init].
Qed.
(** The handlers of the timeouts go to [INITIALIZED]. *)
Lemma gl_stop_capturer_next msg cur : returns (GL_HandleStopCapturer msg cur : M HandlerResult) (goes_to INITIALIZED).
Proof. unfold GL_HandleStopCapturer. repeat (apply returns_seq; intros ?). by intros e _. Qed.
Lemma gl_recognizing_timeout_next msg cur :
  returns (GL_HandleRecognizingTimeout msg cur : M HandlerResult) (goes_to INITIALIZED).
Proof. unfold GL_HandleRecognizingTimeout. repeat (apply returns_seq; intros ?). by intros e _. Qed.
Lemma glasses_timeouts_to l e : timeouts_to (gl_made l e) IDLE INITIALIZED.
Proof.
  unfold timeouts_to. rewrite glasses_timeouts.
  repeat (apply Forall_cons; split; [|]); [..|by apply Forall_nil]; (split; [done|]); intros h body e' [= <-];
    first [by apply gl_stop_capturer_next|by apply gl_recognizing_timeout_next].
Qed.
Lemma glasses_target l e : is_Some (states_ (gl_made l e) !! INITIALIZED).
Proof. apply glasses_states. by apply elem_of_seqZ. Qed.
Lemma glasses_no_timer l e :
  forallb (λ x, match x.2 with Some a => actTimerId a =? INVALID_ID | None => true end)
    (map_to_list (states_ (gl_made l e))) = true.
Proof. unfold gl_made, GL_Create, GL_InitStates. hide_handlers. by vm_compute. Qed.
Lemma glasses_curr l e : currState_ (gl_made l e) = Some IDLE.
Proof. unfold gl_made, GL_Create, GL_InitStates. hide_handlers. by vm_compute. Qed.
Lemma glasses_timers l e : timers (gl_made l e) = TimerMgr.Start true None (TimerMgr.make 10).
Proof. done. Qed.
Lemma gl_made_good l e : gl_inv IDLE e → good gl_inv (gl_made l e) (gl_made l e) [].
Proof.
  exact (good_fresh gl_inv (gl_made l e) IDLE INITIALIZED (glasses_timeouts_to l e) (glasses_target l e)
    (glasses_timers l e) (glasses_no_timer l e) (glasses_configured l e) (glasses_curr l e)).
Qed.
Lemma glasses_timeout l e s : gl_reads s = true → timeout_to (gl_made l e) s INITIALIZED.
Proof.
  intros Hs. apply (timeouts_to_timeout _ _ _ (glasses_timeouts_to l e)). rewrite glasses_timeouts.
  apply orb_true_iff in Hs as [Hs|Hs]; apply Z.eqb_eq in Hs; subst s; do 2 eexists; [right; right; left|left].
Qed.
(** ** Runs *)

(** What other parts of the service change: the library, the files, the settings, the
    trigger manager, the tasks of the service, the clock. *)
Definition gl_world_change e e' : Prop := ∃ lib f, own e' = own e <| gl_lib := lib |> <| gl_files := f |>.

Inductive gstep : relation (Machine * list TimerMgr.TimerEvent) :=
| g_msg now msg m fl r m' : GL_Handle now msg m = Some (r, m') → gstep (m, fl) (m', fl)
| g_detected now d endFrame m fl m' : GL_OnTriggerDetected now d endFrame m = Some m' → gstep (m, fl) (m', fl)
| g_event msgId result info m fl : gstep (m, fl) ((with_env (Glasses_event msgId result info) m).2, fl)
| g_task now m fl m' : GL_ExecuteInThread now m = Some m' → gstep (m, fl) (m', fl)
| g_turn m fl : gstep (m, fl) ((with_env (GL_ReadThread_turn memcpy_refused) m).2, fl)
| g_thread x y : thread_step x y → gstep x y
| g_world e m fl : gl_world_change (env m) e → gstep (m, fl) (m <| env := e |>, fl).

Section keep.
Context (m0 : Machine) (Hk : handlers_keep gl_inv m0).
Implicit Types m : Machine.
Abbreviation good m fl := (good gl_inv m0 m fl).

Lemma good_gl_handle now msg m fl r m' : good m fl → GL_Handle now msg m = Some (r, m') → good m' fl.
Proof. intros Hm. unfold GL_Handle. destruct (negb _); [by intros [= _ <-]|by apply (good_handle gl_inv m0 Hk)]. Qed.
Lemma good_gl_snd now msg m fl m' : good m fl → snd <$> GL_Handle now msg m = Some m' → good m' fl.
Proof. intros Hm Hs. destruct (GL_Handle _ _ _) as [[r m1]|] eqn:Hr; [|done]. apply (inj Some) in Hs. subst m'.
  by eapply good_gl_handle. Qed.
Lemma good_gl_same {B} (c : M B) m fl : same c → good m fl → good (with_env c m).2 fl.
Proof. intros Hc. apply good_keeping. intros s e He. by apply (gl_inv_same s). Qed.

Lemma good_gl_detected now d endFrame m fl m' :
  good m fl → GL_OnTriggerDetected now d endFrame m = Some m' → good m' fl.
Proof.
  intros Hm. unfold GL_OnTriggerDetected. cbv zeta. apply good_gl_snd, good_gl_same; [|done].
  intros c. apply hoare_seq; [apply gl_same_ability|]. intros _. keeps.
Qed.
Lemma good_gl_task now m fl m' : good m fl → GL_ExecuteInThread now m = Some m' → good m' fl.
Proof.
  intros Hm. unfold GL_ExecuteInThread. destruct (gl_tasks _) as [|t rest]; [by intros [= <-]|].
  assert (good (with_env (modc (λ x, x <| gl_tasks := rest |>) : M unit) m).2 fl) as H1
    by (apply good_gl_same; [apply gl_same_modc; by intros []|done]).
  cbv zeta. destruct t; [by intros [= <-]|by apply good_gl_snd].
Qed.
Lemma gstep_good x y : gstep x y → good x.1 x.2 → good y.1 y.2.
Proof.
  intros [] Hm; cbn [fst snd] in *.
  - by eapply good_gl_handle.
  - by eapply good_gl_detected.
  - apply good_gl_same; [apply gl_same_push|done].
  - by eapply good_gl_task.
  - apply good_keeping; [|done]. intros s. apply gl_turn.
  - by eapply (good_thread gl_inv m0 Hk).
  - apply good_env; [done|]. intros cur Hi _. revert Hi. apply gl_parts_framed.
    destruct H as (lib & f & Hown). unfold gl_core, gl_core_own. by rewrite Hown.
Qed.
End keep.

Lemma new_gl lib f t d ts n : gl_inv IDLE (mkSys (new_glasses lib f) t d ts [] n : E).
Proof. by constructor. Qed.
Lemma reachable_gl l e m fl : gl_inv IDLE e → rtc gstep (gl_made l e, []) (m, fl) → good gl_inv (gl_made l e) m fl.
Proof.
  intros He Hr.
  exact (good_run _ _ _ _ _ (gstep_good _ (glasses_keeps l e)) Hr (gl_made_good l e He)).
Qed.

(** Whatever happens to the glasses' engine, and in whatever order, their audio is read
    exactly while the machine is in RECOGNIZED or READ_CAPTURER, so never before the
    glasses have confirmed a wakeup they were asked to confirm; otherwise there is no
    reading thread and no audio is kept; and the timer thread alone brings it from there
    to a machine that reads nothing. *)
Theorem glasses_reading l lib f t d ts n m fl
    (Hr : rtc gstep (gl_made l (mkSys (new_glasses lib f) t d ts [] n), []) (m, fl)) :
  (∃ s, currState_ m = Some s ∧ gl_isReading (own (env m)) = gl_reads s ∧
     (gl_reads s = false → gl_thread (own (env m)) = false ∧ bufferQueue_ (gl_sp (own (env m))) = [])) ∧
  ∃ y, rtc thread_step (m, fl) y ∧ gl_isReading (own (env y.1)) = false ∧ bufferQueue_ (gl_sp (own (env y.1))) = [].
Proof.
  pose proof (reachable_gl l _ m fl (new_gl _ _ _ _ _ _) Hr) as Hg. revert Hg. generalize (mkSys (new_glasses lib f) t d ts [] n).
  intros e0 Hg. pose proof Hg as [_ _ (s & Hs & Hi)].
  pose proof Hi as [H1 H2]. split.
  - exists s. split_and!; [done|done|]. intros Hf. by destruct (H2 Hf) as (? & _ & ?).
  - destruct (gl_reads s) eqn:Hrd.
    + destruct (good_ends _ _ (glasses_keeps l e0) m fl s INITIALIZED Hg Hs (glasses_timeout _ _ _ Hrd))
        as (y & Hy & _ & [E1 E2]). destruct (E2 eq_refl) as (_ & _ & E3). by exists y.
    + exists (m, fl). destruct (H2 eq_refl) as (_ & _ & ?). split; [apply rtc_refl|done].
Qed.

(** Operations that are given. *)
Inductive GlOp :=
| GlMsg (now : Z) (msg : StateMsg Body)
| GlDetected (now : Z) (d : WakeupDeviceDetail) (endFrame : Z)
| GlEvent (msgId result : Z) (info : str)
| GlTask (now : Z)
| GlTurn.
Definition gl_do (o : GlOp) (x : Machine * list TimerMgr.TimerEvent) : option (Machine * list TimerMgr.TimerEvent) :=
  let m := x.1 in
  (λ m', (m', x.2)) <$>
  match o with
  | GlMsg now msg => snd <$> GL_Handle now msg m
  | GlDetected now d endFrame => GL_OnTriggerDetected now d endFrame m
  | GlEvent msgId result info => Some (with_env (Glasses_event msgId result info) m).2
  | GlTask now => GL_ExecuteInThread now m
  | GlTurn => Some (with_env (GL_ReadThread_turn memcpy_refused) m).2
  end.
Lemma gl_do_step o x y : gl_do o x = Some y → gstep x y.
Proof.
  destruct x as [m fl]. unfold gl_do. cbn [fst snd].
  match goal with |- _ <$> ?c = _ → _ => destruct c as [m'|] eqn:Hd end; [|done].
  cbn. intros Hq%(inj Some). subst y. destruct o.
  - destruct (GL_Handle now msg m) as [[r m1]|] eqn:Hh; [|done]. apply (inj Some) in Hd. cbn in Hd. subst m1. by eapply g_msg.
  - by eapply g_detected.
  - apply (inj Some) in Hd. subst m'. apply g_event.
  - by eapply g_task.
  - apply (inj Some) in Hd. subst m'. apply g_turn.
Qed.
End safety.

(** ** A concrete run *)

(** Glasses that send the frames they are given. *)
#[global] Instance queue_glasses : GlassesLib (list (list Z)) := {|
  gl_inst _ := true;
  gl_ReadStream := λ l, match l with [] => ((-1, [], true), []) | x :: l => ((0, x, true), l) end;
  gl_StopReadingStream := mret 0;
  gl_SetCallback _ := mret 0 |}.

Abbreviation RefGlasses := (GlassesWakeupEngineImpl (list (list Z)) (list (str * list Z))).
Abbreviation gl_first := (gl_made true
  (mkSys (new_glasses [[1; 2]; [3; 4]] [] : RefGlasses) (∅ : gmap string str) (Some (∅ : gmap string str)) [] [] 0)).
(** A start-up, a wakeup the glasses confirm, and a frame. *)
Definition gl_session : list GlOp :=
  [GlMsg 1 (mkStateMsg INIT None); GlDetected 2 (mkDetail 0 PROCESS_WAKEUP_GLASSES [] [] true [] []) 7;
   GlEvent INTELL_VOICE_ENGINE_MSG_RECOGNIZE_COMPLETE 0 []; GlTask 3; GlTurn].

Lemma glasses_reading_witness :
  ∃ (m : ModuleStates Body (Sys RefGlasses (gmap string str) (gmap string str))) y,
    currState_ m = Some RECOGNIZED ∧ gl_isReading (own (env m)) = true ∧
    rtc thread_step (m, []) y ∧ gl_isReading (own (env y.1)) = false.
Proof.
  assert (match run_ops (gl_do (λ l _, l)) gl_session (gl_first, []) with
    | Some (m, fl) => bool_decide (currState_ m = Some RECOGNIZED) && bool_decide (fl = [])
    | None => false
    end = true) as Hc by by vm_compute.
  destruct (run_ops _ gl_session (gl_first, [])) as [[m fl]|] eqn:Hm; [|done].
  apply andb_true_iff in Hc as [Hs%bool_decide_eq_true Hf%bool_decide_eq_true].
  pose proof (run_ops_rtc _ (gstep (λ l _, l)) gl_session _ _ (gl_do_step _) Hm) as Hr. rewrite Hf in Hr.
  destruct (glasses_reading (λ l _, l) true [[1; 2]; [3; 4]] [] ∅ (Some ∅) [] 0 m [] Hr)
    as [(s & Hs' & H1 & _) (y & Hy & H2 & _)].
  rewrite Hs in Hs'. injection Hs' as <-. exists m, y. exact (conj Hs (conj H1 (conj Hy H2))).
Defined.
