(* ===== verification/WakeupFacade.v ===== *)
(** * The wakeup engine and its implementations

    [wakeup/wakeup_engine.cpp] and [wakeup/wakeup_engine_impl_facade.cpp].  The engine of the
    service hands everything to a facade, which keeps the phone's implementation and, while
    a headset or glasses are the wakeup device, theirs.  The implementations tell it every
    state they enter; from that it knows whether a wakeup is being processed, and refuses a
    second one.

    The facade is written against [WakeupImpls], the interface of [BaseWakeupEngineImpl];
    [WakeupImplsLaws] is what the facade relies on: an implementation tells every state it
    enters, and only a detection makes it leave [INITIALIZED] upwards.  [FacadeTracking.v] proves
    what the facade makes of it, and [FacadeImpls.v] these laws of the three implementations. *)

From S2P Require Import Prelude StringUtil Settings StateManager EngineTypes EngineUtil DeviceManager WakeupListener WakeupImpl.

(** ** [BaseWakeupEngineImpl] *)

(** The states an implementation told its listener, with its process type. *)
Abbreviation Notes := (list (Z * Z)).
(** What [Handle] returns, what it wrote through [msg.outMsg], and what it told. *)
Record Reply := mkReply { rp_ret : Z; rp_data : list Z; rp_str : str; rp_notes : Notes }.

Definition HEADSET : Z := 1.
Definition AI_GLASSES : Z := 3.
Definition VOICE_RECOGNIZE_EVENT : Z := 0.
Record EventDetail := mkEventDetail { wakeupEvent : Z; endFrameIndex : Z }.

(** Objects are named by numbers.  [None] stands for a null dereference. *)
Class WakeupImpls (W : Type) := {
  (** [EngineImplFactory::CreateInstance] for a type of device. *)
  wi_Create : Z → St W (option nat);
  wi_Handle : nat → StateMsg Body → W → option (Reply * W);
  wi_OnTriggerDetected : nat → Z → WakeupDeviceDetail → EventDetail → W → option (Notes * W);
  (** [Destroy], and the end of the object. *)
  wi_Destroy : nat → W → option (Notes * W);
  (** What the threads of an implementation do on their own. *)
  wi_own : nat → W → Notes → W → Prop }.

(** ** The facade *)

(** [callback_] is a remote object, [stateListener_] is there from [Init] on. *)
Record Facade (W : Type) := mkFacade {
  wakeupImpl_ : option nat; wispherImpl_ : option nat; defaultImpl_ : option nat;
  fc_device : option WakeupDeviceDetail; fc_callback : option nat;
  curState_ : Z; curProcess_ : Z; deviceChangeCbId_ : Z; fc_impls : W; fc_devices : EngineDeviceManager }.
Arguments mkFacade {W} _ _ _ _ _ _ _ _ _ _.
Arguments wakeupImpl_ {W} _.
Arguments wispherImpl_ {W} _.
Arguments defaultImpl_ {W} _.
Arguments fc_device {W} _.
Arguments fc_callback {W} _.
Arguments curState_ {W} _.
Arguments curProcess_ {W} _.
Arguments deviceChangeCbId_ {W} _.
Arguments fc_impls {W} _.
Arguments fc_devices {W} _.
#[global] Instance Facade_eta W : Eta (Facade W) :=
  λ f, mkFacade (wakeupImpl_ f) (wispherImpl_ f) (defaultImpl_ f) (fc_device f) (fc_callback f) (curState_ f)
         (curProcess_ f) (deviceChangeCbId_ f) (fc_impls f) (fc_devices f).
Definition new_facade {W} (impls : W) (devices : EngineDeviceManager) : Facade W :=
  mkFacade None None None None None IDLE PROCESS_IDLE 0 impls devices.

(** [enum WakeupDeviceCheck]. *)
Definition SUCCESS : Z := 0.
Definition DEVICE_ERROR : Z := -1.
Definition WAKEUP_PROCESSING : Z := -2.

(** Computations that can dereference a null pointer, which is [None]. *)
Definition Fx (S A : Type) : Type := S → option (A * S).
#[global] Instance fx_ret S : MRet (Fx S) := λ A a s, Some (a, s).
#[global] Instance fx_bind S : MBind (Fx S) := λ A B k m s, match m s with Some (a, s') => k a s' | None => None end.

Section facade.
Context {W T D : Type} `{!WakeupImpls W}.
Abbreviation S := (Sys (Facade W) T D).
Abbreviation M := (Fx (Sys (Facade W) T D)).

Definition fx {B} (m : St S B) : M B := λ s, Some (m s).
Definition crash {B} : M B := λ _, None.
Definition deref {A B} (o : option A) (k : A → M B) : M B := match o with Some a => k a | None => crash end.
Definition fx_when (b : bool) (m : M unit) : M unit := if b then m else mret ().
Definition on_devices {B} (m : St EngineDeviceManager B) : M B := fx (λ s,
  let '(b, d) := m (fc_devices (own s)) in (b, s <| own ::= λ f, f <| fc_devices := d |> |>)).

(** [OnStateChange]. *)
Definition state_change (nextState type : Z) (f : Facade W) : Facade W :=
  if type =? PROCESS_IDLE then f else
  if (curState_ f <=? INITIALIZED) && (INITIALIZED <? nextState)
  then f <| curState_ := nextState |> <| curProcess_ := type |> else
  if (INITIALIZED <? curState_ f) && (curProcess_ f =? type) then
    if nextState <=? INITIALIZED then f <| curState_ := IDLE |> <| curProcess_ := PROCESS_IDLE |>
    else f <| curState_ := nextState |>
  else f.
Definition OnStateChange (nextState type : Z) : M unit := fx (modc (state_change nextState type)).
(** The implementations call [OnStateChange] while they work. *)
Definition hear (ns : Notes) (f : Facade W) : Facade W := foldl (λ f n, state_change n.1 n.2 f) f ns.

(** The members of an implementation, with what it tells. *)
Definition impl_Create (type : Z) : M (option nat) := fx (λ s,
  let '(o, w) := wi_Create type (fc_impls (own s)) in (o, s <| own ::= λ f, f <| fc_impls := w |> |>)).
Definition impl_does {B} (m : W → option (B * Notes * W)) : M B := λ s,
  '(b, ns, w) ← m (fc_impls (own s));
  Some (b, s <| own ::= λ f, hear ns (f <| fc_impls := w |>) |>).
Definition impl_reply (i : nat) (msg : StateMsg Body) : M Reply :=
  impl_does (λ w, '(r, w') ← wi_Handle i msg w; Some (r, rp_notes r, w')).
Definition impl_Handle (i : nat) (msg : StateMsg Body) : M Z := r ← impl_reply i msg; mret (rp_ret r).
Definition impl_OnTriggerDetected (i : nat) (uuid : Z) (d : WakeupDeviceDetail) (event : EventDetail) : M unit :=
  impl_does (λ w, '(ns, w') ← wi_OnTriggerDetected i uuid d event w; Some ((), ns, w')).
Definition impl_Destroy (i : nat) : M unit := impl_does (λ w, '(ns, w') ← wi_Destroy i w; Some ((), ns, w')).

(** [ProcessCheck] and [GetCurrentImpl]. *)
Definition ProcessCheck (f : Facade W) : bool := negb (INITIALIZED <? curState_ f).
Definition GetCurrentImpl (f : Facade W) : option nat :=
  if curProcess_ f =? PROCESS_WISPHER_PHONE then wispherImpl_ f else wakeupImpl_ f.

Definition listener_msg (cb : option nat) : StateMsg Body := mkStateMsg SET_LISTENER (Some (BListener cb)).

Definition F_SaveCallback (callback : option nat) : M unit :=
  _ ← fx (modc (λ f, f <| fc_callback := callback |>));
  d ← fx (getc defaultImpl_);
  _ ← deref d (λ i, impl_Handle i (listener_msg callback));
  w ← fx (getc wakeupImpl_);
  match w with Some i => _ ← impl_Handle i (listener_msg callback); mret () | None => mret () end.

Definition F_InitDefaultImpl : M Z :=
  o ← impl_Create PHONE;
  _ ← fx (modc (λ f, f <| defaultImpl_ := o |>));
  match o with
  | None => mret (-1)
  | Some i =>
    ret ← impl_Handle i (mkStateMsg INIT None);
    if negb (ret =? 0) then _ ← fx (modc (λ f, f <| defaultImpl_ := None |>)); mret (-1)
    else _ ← fx (modc (λ f, f <| wispherImpl_ := defaultImpl_ f |>)); mret 0
  end.

(** [InitImpl] is called with a [wakeupDevice_]. *)
Definition F_InitImpl (d : WakeupDeviceDetail) : M unit :=
  w ← fx (getc wakeupImpl_);
  match w with
  | None => mret ()
  | Some i =>
    ret ← impl_Handle i (mkStateMsg INIT (Some (BStr (d_modelType d))));
    if negb (ret =? 0) then fx (modc (λ f, f <| wakeupImpl_ := defaultImpl_ f |>)) else mret ()
  end.

Definition F_CreateEngineImpl : M Z :=
  dev ← fx (getc fc_device);
  match dev with
  | None => mret DEVICE_ERROR
  | Some d =>
    let create := o ← impl_Create (d_type d); _ ← fx (modc (λ f, f <| wakeupImpl_ := o |>)); F_InitImpl d in
    known ← (if d_type d =? PHONE then _ ← fx (modc (λ f, f <| wakeupImpl_ := defaultImpl_ f |>)); mret true
             else if (d_type d =? HEADSET) || (d_type d =? AI_GLASSES) then _ ← create; mret true
             else mret false);
    if negb (known : bool) then mret DEVICE_ERROR else
    f ← fx (getc id);
    _ ← match fc_callback f, wakeupImpl_ f with
        | Some cb, Some i => _ ← impl_Handle i (listener_msg (Some cb)); mret ()
        | _, _ => mret ()
        end;
    mret SUCCESS
  end.

Definition F_ReleaseEngineImpl : M Z :=
  f ← fx (getc id);
  match wakeupImpl_ f with
  | None => mret SUCCESS
  | Some i =>
    if bool_decide (wakeupImpl_ f = defaultImpl_ f) then mret SUCCESS else
    _ ← impl_Destroy i;
    _ ← fx (modc (λ f, f <| wakeupImpl_ := None |>));
    mret SUCCESS
  end.

(** [Init]. *)
Definition F_Init : M bool :=
  ret ← F_InitDefaultImpl;
  if negb (ret =? 0) then mret false else
  id0 ← fx (getc deviceChangeCbId_);
  _ ← fx_when (negb (id0 =? 0))
        (_ ← on_devices (UnregisterDeviceChangeCb id0); fx (modc (λ f, f <| deviceChangeCbId_ := 0 |>)));
  cb ← on_devices RegisterDeviceChangeCb;
  _ ← fx (modc (λ f, f <| deviceChangeCbId_ := cb |>));
  if cb =? 0 then mret false else
  _ ← fx (modc (λ f, f <| fc_device := Some (wakeupDevice_ (fc_devices f)) |>));
  ret ← F_CreateEngineImpl;
  if negb (ret =? 0) then mret false else mret true.

(** The destructor, before the members go. *)
Definition F_Destruct : M unit :=
  id0 ← fx (getc deviceChangeCbId_);
  _ ← fx_when (negb (id0 =? 0))
        (_ ← on_devices (UnregisterDeviceChangeCb id0); fx (modc (λ f, f <| deviceChangeCbId_ := 0 |>)));
  _ ← F_ReleaseEngineImpl;
  mret ().

(** [Handle], with what the message brings back: the numbers of the implementations that
    got it are [defaultImpl_], [wakeupImpl_] or both. *)
Definition no_reply : Reply := mkReply 0 [] [] [].
Definition F_Handle (msg : StateMsg Body) : M Reply :=
  f ← fx (getc id);
  let id := msgId msg in
  if (id =? SET_LISTENER) || (id =? RELEASE) || (id =? RELEASE_ADAPTER) || (id =? RESET_ADAPTER) then
    _ ← deref (defaultImpl_ f) (λ i, impl_Handle i msg);
    match wakeupImpl_ f with
    | Some i => if bool_decide (wakeupImpl_ f = defaultImpl_ f) then mret no_reply else impl_reply i msg
    | None => mret no_reply
    end
  else if (id =? START_RECOGNIZE) || (id =? STOP_RECOGNIZE) || (id =? START_CAPTURER) || (id =? READ) || (id =? STOP_CAPTURER) then
    match GetCurrentImpl f with Some i => impl_reply i msg | None => mret no_reply end
  else deref (defaultImpl_ f) (λ i, impl_reply i msg).

Definition close_wakeup_source : M unit := fx (AddAsyncTask (THandleCloseWakeupSource true) false).

Definition F_OnWispherDetected (uuid : Z) (event : EventDetail) : M Z :=
  f ← fx (getc id);
  _ ← match wispherImpl_ f with
      | Some i => deref (fc_device f) (λ d, impl_OnTriggerDetected i uuid d event)
      | None => mret ()
      end;
  mret SUCCESS.

Definition F_OnWakeupDetected (uuid : Z) (macAddress : str) (event : EventDetail) : M Z :=
  f ← fx (getc id);
  deref (fc_device f) (λ d,
    if negb (bool_decide (macAddress = d_macAddress d)) then
      _ ← fx_when (bool_decide (macAddress = DEFAULT_MAC_ADDRESS)) close_wakeup_source;
      mret DEVICE_ERROR
    else
      _ ← match wakeupImpl_ f with
          | Some i => impl_OnTriggerDetected i uuid d event
          | None => mret ()
          end;
      mret SUCCESS).

Definition F_OnTriggerDetected (uuid : Z) (macAddress : str) (event : EventDetail) : M Z :=
  f ← fx (getc id);
  if negb (ProcessCheck f) then
    _ ← fx_when (bool_decide (macAddress = DEFAULT_MAC_ADDRESS)) close_wakeup_source;
    mret WAKEUP_PROCESSING
  else if uuid =? PROXIMAL_WAKEUP_MODEL_UUID then F_OnWispherDetected uuid event
  else F_OnWakeupDetected uuid macAddress event.

(** [UpdateWakeupEngineImpl], called back by the device manager. *)
Definition F_UpdateWakeupEngineImpl (info : WakeupDeviceDetail) : M Z :=
  _ ← F_ReleaseEngineImpl;
  _ ← fx (modc (λ f, f <| fc_device := Some info |>));
  _ ← F_CreateEngineImpl;
  mret SUCCESS.

(** ** [WakeupEngine], with its role [WakeupEngineImplFacade] *)

Definition WE_OnDetected (uuid : Z) : M unit :=
  _ ← (if uuid =? VOICE_WAKEUP_MODEL_UUID
       then fx (emit (TrackReport WAKEUP_STAGE_SA_WAKEUP_DETECTED WAKEUP_RESULT_DEFAULT WAKEUP_ERROR_CODE_END))
       else if uuid =? PROXIMAL_WAKEUP_MODEL_UUID
       then fx (emit (TrackReport WAKEUP_STAGE_SA_WHISPER_DETECTED WAKEUP_RESULT_DEFAULT WAKEUP_ERROR_CODE_END))
       else mret ());
  _ ← F_OnTriggerDetected uuid DEFAULT_MAC_ADDRESS (mkEventDetail VOICE_RECOGNIZE_EVENT 0);
  mret ().
Definition WE_NotifyDeviceWakeupEvent (macAddress : str) (event : EventDetail) : M Z :=
  F_OnTriggerDetected VOICE_WAKEUP_MODEL_UUID macAddress event.
Definition WE_Init (param : str) (reEnroll : bool) : M bool := F_Init.
Definition WE_SetCallback (callback : option nat) : M unit := F_SaveCallback callback.
Definition WE_Attach : M Z := mret 0.
Definition WE_Start (isLast : bool) : M Z := mret 0.

Definition WE_send (msg : StateMsg Body) : M Z := r ← F_Handle msg; mret (rp_ret r).
Definition WE_StartCapturer (channels : Z) : M Z := WE_send (mkStateMsg START_CAPTURER (Some (BInt channels))).
Definition WE_StopCapturer : M Z := WE_send (mkStateMsg STOP_CAPTURER None).
Definition WE_Detach : M Z := WE_send (mkStateMsg RELEASE None).
Definition WE_SetParameter (keyValueList : str) : M Z := WE_send (mkStateMsg SET_PARAM (Some (BStr keyValueList))).
Definition WE_Stop : M Z := WE_send (mkStateMsg STOP_RECOGNIZE None).
Definition WE_ResetAdapter : M bool := ret ← WE_send (mkStateMsg RESET_ADAPTER None); mret (ret =? 0).
Definition WE_ReleaseAdapter : M unit := _ ← WE_send (mkStateMsg RELEASE_ADAPTER None); mret ().
(** The result, and what [data] holds after a success. *)
Definition WE_data (msg : StateMsg Body) : M (Z * option (list Z)) :=
  r ← F_Handle msg;
  if negb (rp_ret r =? 0) then mret (-1, None) else mret (0, Some (rp_data r)).
Definition WE_Read : M (Z * option (list Z)) := WE_data (mkStateMsg READ (Some BOut)).
Definition WE_GetWakeupPcm : M (Z * option (list Z)) := WE_data (mkStateMsg GET_WAKEUP_PCM (Some BOut)).
Definition WE_GetParameter (key : str) : M str :=
  r ← F_Handle (mkStateMsg GET_PARAM (Some (BKey key)));
  if negb (rp_ret r =? 0) then mret [] else mret (rp_str r).
End facade.

(** ** What the facade relies on *)

(** The type of an implementation, its state, and the process type it tells. *)
Record IView := mkView { iv_kind : Z; iv_state : Z; iv_proc : Z }.
Definition last_state (s : Z) (ns : Notes) : Z := foldl (λ _ n, n.1) s ns.
(** Nothing told starts a process, if none is running. *)
Definition calm (v : IView) (ns : Notes) : Prop := iv_state v ≤ INITIALIZED → Forall (λ n, n.1 ≤ INITIALIZED) ns.
Definition told_as (p : Z) (ns : Notes) : Prop := Forall (λ n, n.2 = p ∧ (INITIALIZED < n.1 → p ≠ PROCESS_IDLE)) ns.
Definition procs_ok (v : IView) : Prop :=
  (INITIALIZED < iv_state v → iv_proc v ≠ PROCESS_IDLE) ∧
  (iv_kind v = PHONE → iv_proc v = PROCESS_IDLE ∨ iv_proc v = PROCESS_WAKEUP_PHONE ∨ iv_proc v = PROCESS_WISPHER_PHONE) ∧
  (iv_kind v = HEADSET → iv_proc v = PROCESS_WAKEUP_HEADSET) ∧ (iv_kind v = AI_GLASSES → iv_proc v = PROCESS_WAKEUP_GLASSES).

Section laws.
Context {W : Type} (ok : W → Prop) (objs : W → gset nat) (vw : nat → W → IView).
(** In a world that is [ok], [i] told [ns] and ended in the last state it told; the others did nothing. *)
Record moved (i : nat) (ns : Notes) (w w' : W) : Prop := {
  mv_ok : ok w';
  mv_objs : objs w' = objs w;
  mv_others : ∀ j, j ∈ objs w → j ≠ i → vw j w' = vw j w;
  mv_kind : iv_kind (vw i w') = iv_kind (vw i w);
  mv_state : iv_state (vw i w') = last_state (iv_state (vw i w)) ns;
  mv_told : told_as (iv_proc (vw i w')) ns }.
Definition moved_calmly (i : nat) (ns : Notes) (w w' : W) : Prop :=
  moved i ns w w' ∧ iv_proc (vw i w') = iv_proc (vw i w) ∧ calm (vw i w) ns.
End laws.

Class WakeupImplsLaws W `{!WakeupImpls W} := {
  wi_ok : W → Prop;
  wi_objs : W → gset nat;
  wi_view : nat → W → IView;
  wl_procs : ∀ i w, wi_ok w → i ∈ wi_objs w → procs_ok (wi_view i w);
  wl_Create : ∀ k w, wi_ok w → let '(o, w') := wi_Create k w in
    wi_ok w' ∧ (∀ j, j ∈ wi_objs w → wi_view j w' = wi_view j w) ∧
    match o with
    | None => wi_objs w' = wi_objs w
    | Some i => (i ∉ wi_objs w) ∧ wi_objs w' = {[i]} ∪ wi_objs w ∧ iv_kind (wi_view i w') = k ∧ iv_state (wi_view i w') = IDLE
    end;
  wl_Handle : ∀ i msg w, wi_ok w → i ∈ wi_objs w → msgId msg ≠ START_RECOGNIZE →
    ∃ r w', wi_Handle i msg w = Some (r, w') ∧ moved_calmly wi_ok wi_objs wi_view i (rp_notes r) w w';
  wl_OnTriggerDetected : ∀ i uuid d event w, wi_ok w → i ∈ wi_objs w →
    ∃ ns w', wi_OnTriggerDetected i uuid d event w = Some (ns, w') ∧ moved wi_ok wi_objs wi_view i ns w w';
  (** The phone's implementation is never destroyed by the facade. *)
  wl_Destroy : ∀ i w, wi_ok w → i ∈ wi_objs w → iv_kind (wi_view i w) ≠ PHONE →
    ∃ ns w', wi_Destroy i w = Some (ns, w') ∧ wi_ok w' ∧ wi_objs w' = wi_objs w ∖ {[i]} ∧ (∀ j, j ∈ wi_objs w → j ≠ i → wi_view j w' = wi_view j w) ∧
    last_state (iv_state (wi_view i w)) ns ≤ INITIALIZED ∧ told_as (iv_proc (wi_view i w)) ns;
  wl_own : ∀ i ns w w', wi_ok w → i ∈ wi_objs w → wi_own i w ns w' → moved_calmly wi_ok wi_objs wi_view i ns w w' }.
