(* ===== verification/FacadeTracking.v ===== *)
(** * The facade knows which implementation is processing a wakeup

    The facade of [WakeupFacade.v] keeps the state and the process type of the implementation
    that is above [INITIALIZED] in [curState_] and [curProcess_], from what the
    implementations tell.  [tracks] says that this is right; every operation keeps it, and
    none dereferences a null pointer. *)

From S2P Require Import Prelude StringUtil Settings StateManager EngineTypes EngineUtil DeviceManager WakeupListener WakeupImpl.
From S2P Require Import WakeupFacade.

(** ** What the facade hears *)

Section hear.
Context {W : Type}.
Implicit Types f : Facade W.

Lemma state_change_rest n type f :
  (wakeupImpl_ (state_change n type f), wispherImpl_ (state_change n type f), defaultImpl_ (state_change n type f),
   fc_device (state_change n type f), fc_callback (state_change n type f), fc_impls (state_change n type f)) =
  (wakeupImpl_ f, wispherImpl_ f, defaultImpl_ f, fc_device f, fc_callback f, fc_impls f).
Proof. unfold state_change. by repeat case_match. Qed.
Lemma hear_rest ns f :
  (wakeupImpl_ (hear ns f), wispherImpl_ (hear ns f), defaultImpl_ (hear ns f), fc_device (hear ns f), fc_callback (hear ns f),
   fc_impls (hear ns f)) = (wakeupImpl_ f, wispherImpl_ f, defaultImpl_ f, fc_device f, fc_callback f, fc_impls f).
Proof.
  unfold hear. revert f. induction ns as [|[n type] ns IH]; intros f; [done|]. cbn [foldl fst snd].
  rewrite IH. apply state_change_rest.
Qed.

(** The facade follows an implementation in state [s] that tells process type [p]. *)
Definition follows (s p : Z) f : Prop :=
  if INITIALIZED <? s then curState_ f = s ∧ curProcess_ f = p ∧ p ≠ PROCESS_IDLE else curState_ f ≤ INITIALIZED.
Lemma hear_follows p ns s f : told_as p ns → follows s p f → follows (last_state s ns) p (hear ns f).
Proof.
  unfold hear, last_state. revert s f. induction ns as [|[n type] ns IH]; intros s f; [done|].
  intros [[Ht Hp] Hns]%Forall_cons Hf. cbn [fst snd foldl] in *. subst type. apply IH; [done|]. clear IH Hns. unfold follows in *.
  unfold state_change. destruct (Z.eqb_spec p PROCESS_IDLE) as [->|Hne].
  - destruct (Z.ltb_spec INITIALIZED n) as [Hn|Hn]; [by destruct Hp|]. by destruct (Z.ltb_spec INITIALIZED s) as [Hs|Hs];
      [destruct Hf as (_ & _ & [])|].
  - destruct (Z.ltb_spec INITIALIZED s) as [Hs|Hs].
    + destruct Hf as (E1 & E2 & _). rewrite E1, E2, Z.eqb_refl. assert ((s <=? INITIALIZED) = false) as -> by lia.
      assert ((INITIALIZED <? s) = true) as -> by lia. cbn [andb].
      destruct (Z.ltb_spec INITIALIZED n), (Z.leb_spec n INITIALIZED); try lia; cbn; [done|]. unfold IDLE, INITIALIZED. lia.
    + assert ((curState_ f <=? INITIALIZED) = true) as -> by lia.
      assert ((INITIALIZED <? curState_ f) = false) as -> by lia. cbn [andb].
      destruct (Z.ltb_spec INITIALIZED n); cbn; [done|lia].
Qed.
(** What another process tells is ignored. *)
Lemma hear_other p ns f : told_as p ns → INITIALIZED < curState_ f → curProcess_ f ≠ p → hear ns f = f.
Proof.
  unfold hear. induction ns as [|[n type] ns IH]; [done|]. intros [[Ht _] Hns]%Forall_cons Hs Hp. cbn [foldl fst snd] in *. subst type.
  assert (state_change n p f = f) as ->; [|by apply IH]. unfold state_change. destruct (p =? PROCESS_IDLE); [done|].
  assert ((curState_ f <=? INITIALIZED) = false) as -> by lia.
  assert ((INITIALIZED <? curState_ f) = true) as -> by lia. cbn [andb]. by destruct (Z.eqb_spec (curProcess_ f) p).
Qed.
Lemma last_state_calm s ns : s ≤ INITIALIZED → Forall (λ n, n.1 ≤ INITIALIZED) ns → last_state s ns ≤ INITIALIZED.
Proof. intros Hs Hn. unfold last_state. revert s Hs. induction Hn; intros s Hs; [done|]. cbn. auto. Qed.
End hear.

(** ** Keeping track *)

Section tracking.
Context {W T D : Type} `{!WakeupImpls W} `{!WakeupImplsLaws W}.
Implicit Types (f : Facade W) (w : W) (L : gmap nat Z).
Definition kind_of i w : Z := iv_kind (wi_view i w).
Definition state_of i w : Z := iv_state (wi_view i w).
Definition proc_of i w : Z := iv_proc (wi_view i w).

(** [L] are the implementations the facade has, with their types, one of each; the facade
    is in the state of the one that is above [INITIALIZED], or none is. *)
Record tracks L f : Prop := {
  tr_ok : wi_ok (fc_impls f);
  tr_objs : ∀ i k, L !! i = Some k → i ∈ wi_objs (fc_impls f) ∧ kind_of i (fc_impls f) = k ∧ (k = PHONE ∨ k = HEADSET ∨ k = AI_GLASSES);
  tr_dist : ∀ i j k, L !! i = Some k → L !! j = Some k → i = j;
  tr_in : INITIALIZED < curState_ f → ∃ i, is_Some (L !! i) ∧ state_of i (fc_impls f) = curState_ f ∧
          proc_of i (fc_impls f) = curProcess_ f ∧ ∀ j, is_Some (L !! j) → j ≠ i → state_of j (fc_impls f) ≤ INITIALIZED;
  tr_out : curState_ f ≤ INITIALIZED → ∀ j, is_Some (L !! j) → state_of j (fc_impls f) ≤ INITIALIZED }.

(** Implementations of different types tell different processes. *)
Lemma procs_differ L f i j :
  tracks L f → is_Some (L !! i) → is_Some (L !! j) → i ≠ j → proc_of i (fc_impls f) ≠ proc_of j (fc_impls f).
Proof.
  intros Ht [k Hi] [k' Hj] Hne He. destruct (tr_objs _ _ Ht i k Hi) as (Hi1 & Hi2 & Hi3). destruct (tr_objs _ _ Ht j k' Hj) as (Hj1 & Hj2 & Hj3).
  assert (k ≠ k') as Hk by (intros <-; by apply Hne, (tr_dist _ _ Ht i j k)).
  destruct (wl_procs i _ (tr_ok _ _ Ht) Hi1) as (_ & A1 & A2 & A3). destruct (wl_procs j _ (tr_ok _ _ Ht) Hj1) as (_ & B1 & B2 & B3).
  unfold kind_of, proc_of in *. rewrite Hi2 in *. rewrite Hj2 in *.
  destruct Hi3 as [->|[->| ->]], Hj3 as [->|[->| ->]]; try done;
    repeat match goal with H : ?k = ?k → _ |- _ => specialize (H eq_refl) end;
    unfold PROCESS_IDLE, PROCESS_WAKEUP_PHONE, PROCESS_WISPHER_PHONE, PROCESS_WAKEUP_HEADSET, PROCESS_WAKEUP_GLASSES in *; lia.
Qed.

(** [i] worked, while no other implementation was processing. *)
Lemma tracks_followed L i ns w' f f' :
  tracks L f → is_Some (L !! i) → moved wi_ok wi_objs wi_view i ns (fc_impls f) w' → f' = f <| fc_impls := w' |> →
  follows (state_of i (fc_impls f)) (proc_of i w') f' →
  (∀ j, is_Some (L !! j) → j ≠ i → state_of j (fc_impls f) ≤ INITIALIZED) → tracks L (hear ns f').
Proof.
  intros Ht Hi Hm Hf' Hfol Hoth. pose proof (hear_rest ns f') as Hr. injection Hr as _ _ _ _ _ Hw.
  assert (fc_impls f' = w') as Hw' by by subst f'. rewrite Hw' in Hw.
  assert (∀ j, is_Some (L !! j) → j ≠ i → wi_view j w' = wi_view j (fc_impls f)) as Hv.
  { intros j [k Hj]. apply (mv_others _ _ _ _ _ _ _ Hm), (tr_objs _ _ Ht j k Hj). }
  pose proof (hear_follows _ ns _ _ (mv_told _ _ _ _ _ _ _ Hm) Hfol) as H1. unfold follows, state_of in H1.
  rewrite <- (mv_state _ _ _ _ _ _ _ Hm) in H1. change (iv_state (wi_view i w')) with (state_of i w') in H1.
  assert (∀ j, is_Some (L !! j) → j ≠ i → state_of j w' ≤ INITIALIZED) as Hoth'
    by (intros j Hj Hne; unfold state_of; rewrite Hv by done; by apply Hoth).
  constructor; rewrite ?Hw.
  - apply (mv_ok _ _ _ _ _ _ _ Hm).
  - intros j k Hj. destruct (tr_objs _ _ Ht j k Hj) as (A1 & A2 & A3). rewrite (mv_objs _ _ _ _ _ _ _ Hm). split_and!; [done| |done].
    unfold kind_of in *. destruct (decide (j = i)) as [->|]; [by rewrite (mv_kind _ _ _ _ _ _ _ Hm)|by rewrite Hv by eauto].
  - apply (tr_dist _ _ Ht).
  - destruct (Z.ltb_spec INITIALIZED (state_of i w')); [|lia]. destruct H1 as (E1 & E2 & _). intros _. by exists i.
  - destruct (Z.ltb_spec INITIALIZED (state_of i w')); [lia|]. intros _ j Hj. destruct (decide (j = i)) as [->|]; [done|by apply Hoth'].
Qed.
(** [i] worked, while another one was processing. *)
Lemma tracks_aside L i ns w' f :
  tracks L f → is_Some (L !! i) → moved_calmly wi_ok wi_objs wi_view i ns (fc_impls f) w' → INITIALIZED < curState_ f →
  state_of i (fc_impls f) ≤ INITIALIZED → curProcess_ f ≠ proc_of i w' → tracks L (hear ns (f <| fc_impls := w' |>)).
Proof.
  intros Ht Hi (Hm & Hp & Hc) Hcur Hst Hne. rewrite (hear_other (proc_of i w')); [|apply (mv_told _ _ _ _ _ _ _ Hm)|done|done].
  assert (∀ j, is_Some (L !! j) → j ≠ i → wi_view j w' = wi_view j (fc_impls f)) as Hv.
  { intros j [k Hj]. apply (mv_others _ _ _ _ _ _ _ Hm), (tr_objs _ _ Ht j k Hj). }
  assert (state_of i w' ≤ INITIALIZED) as Hst'.
  { unfold state_of. rewrite (mv_state _ _ _ _ _ _ _ Hm). by apply last_state_calm, Hc. }
  destruct (tr_in _ _ Ht Hcur) as (o & Ho & E1 & E2 & Ho'). assert (o ≠ i) as Hoi.
  { intros ->. lia. }
  constructor; cbn.
  - apply (mv_ok _ _ _ _ _ _ _ Hm).
  - intros j k Hj. destruct (tr_objs _ _ Ht j k Hj) as (A1 & A2 & A3). rewrite (mv_objs _ _ _ _ _ _ _ Hm). split_and!; [done| |done].
    unfold kind_of in *. destruct (decide (j = i)) as [->|]; [by rewrite (mv_kind _ _ _ _ _ _ _ Hm)|by rewrite Hv by eauto].
  - apply (tr_dist _ _ Ht).
  - intros _. exists o. unfold state_of, proc_of in *. rewrite !Hv by done. split_and!; [done..|].
    intros j Hj Hjo. destruct (decide (j = i)) as [->|]; [done|]. rewrite Hv by done. by apply Ho'.
  - lia.
Qed.
Lemma tracks_moved L i ns w' f :
  tracks L f → is_Some (L !! i) → moved wi_ok wi_objs wi_view i ns (fc_impls f) w' →
  curState_ f ≤ INITIALIZED ∨ moved_calmly wi_ok wi_objs wi_view i ns (fc_impls f) w' →
  tracks L (hear ns (f <| fc_impls := w' |>)).
Proof.
  intros Ht Hi Hm Hc. destruct (Z.le_gt_cases (curState_ f) INITIALIZED) as [Hcur|Hcur].
  - apply (tracks_followed L i ns w' f); try done; [|intros; by apply (tr_out _ _ Ht)].
    unfold follows. destruct (Z.ltb_spec INITIALIZED (state_of i (fc_impls f))) as [Hs|]; [|done].
    pose proof (tr_out _ _ Ht Hcur i Hi). lia.
  - destruct Hc as [|Hc]; [lia|]. destruct (tr_in _ _ Ht) as (o & Ho & E1 & E2 & Ho'); [lia|].
    assert (proc_of i w' = proc_of i (fc_impls f)) as Hp by (apply Hc). destruct (decide (i = o)) as [->|Hne].
    + apply (tracks_followed L o ns w' f); try done. unfold follows. rewrite Hp, E1. destruct (Z.ltb_spec INITIALIZED (curState_ f)); [|lia].
      split_and!; [done|done|]. destruct Ho as [k Ho]. destruct (tr_objs _ _ Ht o k Ho) as (A1 & _).
      destruct (wl_procs o _ (tr_ok _ _ Ht) A1) as [A2 _]. apply A2. unfold state_of in E1. lia.
    + apply (tracks_aside L i ns w' f); try done; [by apply Ho'|]. rewrite Hp, <- E2. by apply (procs_differ L).
Qed.

Lemma tracks_rest L f f' :
  curState_ f' = curState_ f → curProcess_ f' = curProcess_ f → fc_impls f' = fc_impls f → tracks L f → tracks L f'.
Proof. intros E1 E2 E3 [H0 H1 H2 H3 H4]. constructor; rewrite ?E1, ?E2, ?E3; done. Qed.
(** An implementation that processes nothing is gone, or there is a new one. *)
Lemma tracks_drop L i w' f :
  tracks L f → wi_ok w' → state_of i (fc_impls f) ≤ INITIALIZED →
  (∀ j k, L !! j = Some k → j ≠ i → j ∈ wi_objs w' ∧ wi_view j w' = wi_view j (fc_impls f)) →
  tracks (delete i L) (f <| fc_impls := w' |>).
Proof.
  intros [_ H1 H2 H3 H4] Hok Hst Hw. unfold kind_of, state_of, proc_of in *. constructor; cbn; unfold kind_of, state_of, proc_of.
  - done.
  - intros j k [Hne Hj]%lookup_delete_Some. destruct (Hw j k Hj) as [A1 ->]; [done|]. destruct (H1 j k Hj) as (_ & A2 & A3). done.
  - intros j j' k [_ Hj]%lookup_delete_Some [_ Hj']%lookup_delete_Some. by apply (H2 j j' k).
  - intros Hc. destruct (H3 Hc) as (o & [k Ho] & E1 & E2 & E3). assert (i ≠ o) as Hne by (intros ->; lia).
    destruct (Hw o k Ho) as [_ Ev]; [done|]. exists o. rewrite Ev, lookup_delete_ne by done. split_and!; [by exists k|done|done|].
    intros j [kj Hj] Hjo. apply lookup_delete_Some in Hj as [Hji Hj]. destruct (Hw j kj Hj) as [_ ->]; [done|]. apply E3; by eauto.
  - intros Hc j [kj Hj]. apply lookup_delete_Some in Hj as [Hji Hj]. destruct (Hw j kj Hj) as [_ ->]; [done|]. apply H4; by eauto.
Qed.
Lemma tracks_add L i k w' f :
  tracks L f → wi_ok w' → k = PHONE ∨ k = HEADSET ∨ k = AI_GLASSES → (∀ j, L !! j ≠ Some k) → L !! i = None →
  i ∈ wi_objs w' → kind_of i w' = k → state_of i w' ≤ INITIALIZED →
  (∀ j k, L !! j = Some k → j ∈ wi_objs w' ∧ wi_view j w' = wi_view j (fc_impls f)) → tracks (<[i := k]> L) (f <| fc_impls := w' |>).
Proof.
  intros [_ H1 H2 H3 H4] Hok Hk Hnew Hi Hio Hki Hsi Hw. unfold kind_of, state_of, proc_of in *. constructor; cbn; unfold kind_of, state_of, proc_of.
  - done.
  - intros j k' [[<- <-]|[Hne Hj]]%lookup_insert_Some; [done|]. destruct (Hw j k' Hj) as [A1 ->]. by destruct (H1 j k' Hj) as (_ & A2 & A3).
  - intros j j' k' [[<- <-]|[Hne Hj]]%lookup_insert_Some [[<- ?]|[Hne' Hj']]%lookup_insert_Some; [done| |subst k'; by destruct (Hnew j)|by eapply H2].
    by destruct (Hnew j').
  - intros Hc. destruct (H3 Hc) as (o & [ko Ho] & E1 & E2 & E3). assert (i ≠ o) as Hne by (intros <-; congruence).
    destruct (Hw o ko Ho) as [_ Ev]. exists o. rewrite Ev, lookup_insert_ne by done. split_and!; [by exists ko|done|done|].
    intros j [kj Hj] Hjo. apply lookup_insert_Some in Hj as [[<- <-]|[Hji Hj]]; [done|]. destruct (Hw j kj Hj) as [_ ->]. apply E3; by eauto.
  - intros Hc j [kj Hj]. apply lookup_insert_Some in Hj as [[<- <-]|[Hji Hj]]; [done|]. destruct (Hw j kj Hj) as [_ ->]. apply H4; by eauto.
Qed.

(** ** The operations: none dereferences null, and all keep track *)

Abbreviation S := (Sys (Facade W) T D).
Abbreviation M := (Fx (Sys (Facade W) T D)).
Implicit Types s : Sys (Facade W) T D.
Definition total {B} (P : S → Prop) (m : M B) (Q : B → S → Prop) : Prop := ∀ s, P s → ∃ b s', m s = Some (b, s') ∧ Q b s'.

Lemma total_ret {B} (P : S → Prop) (b : B) Q : (∀ s, P s → Q b s) → total P (mret b : M B) Q.
Proof. intros H s Hs. exists b, s. auto. Qed.
Lemma total_bind {B C} P (m : M B) R (k : B → M C) Q : total P m R → (∀ b, total (R b) (k b) Q) → total P (b ← m; k b) Q.
Proof. intros Hm Hk s Hs. destruct (Hm s Hs) as (b & s' & E & Hr). destruct (Hk b s' Hr) as (c & s2 & E2 & Hq).
  exists c, s2. split; [|done]. unfold mbind, fx_bind. by rewrite E. Qed.
Lemma total_fx {B} P (m : St S B) Q : ⟪ P ⟫ m ⟪ Q ⟫ → total P (fx m) Q.
Proof. intros Hm s Hs. specialize (Hm s Hs). unfold fx. destruct (m s) as [b s']. by exists b, s'. Qed.
Lemma total_conseq {B} (P P' : S → Prop) (m : M B) (Q Q' : B → S → Prop) :
  total P' m Q' → (∀ s, P s → P' s) → (∀ b s, Q' b s → Q b s) → total P m Q.
Proof. intros Hm HP HQ s Hs. destruct (Hm s) as (b & s' & E & H); [auto|]. exists b, s'. auto. Qed.
Lemma total_ex {B X} (P : X → S → Prop) (m : M B) Q : (∀ x, total (P x) m Q) → total (λ s, ∃ x, P x s) m Q.
Proof. intros H s [x Hs]. by apply (H x). Qed.
Lemma total_and {B} (A : Prop) (P : S → Prop) (m : M B) Q : (A → total P m Q) → total (λ s, A ∧ P s) m Q.
Proof. intros H s [Ha Hs]. by apply H. Qed.
(** Reading the facade. *)
Lemma total_get {B C} P (g : Facade W → B) (k : B → M C) Q :
  (∀ s, P s → ∃ c s', k (g (own s)) s = Some (c, s') ∧ Q c s') → total P (b ← fx (getc g); k b) Q.
Proof. intros H s Hs. destruct (H s Hs) as (c & s' & E & Hq). by exists c, s'. Qed.

(** What the operations of the implementations leave alone. *)
Definition rest f : option nat * option nat * option nat * option WakeupDeviceDetail * option nat :=
  (wakeupImpl_ f, wispherImpl_ f, defaultImpl_ f, fc_device f, fc_callback f).
Definition at_ L r s : Prop := tracks L (own s) ∧ rest (own s) = r.
Lemma hear_frame ns f : rest (hear ns f) = rest f.
Proof. pose proof (hear_rest ns f) as Hr. injection Hr as E1 E2 E3 E4 E5 _. unfold rest. congruence. Qed.

Lemma reply_facts L r i msg s : is_Some (L !! i) → msgId msg ≠ START_RECOGNIZE → at_ L r s →
  ∃ rp s', impl_reply i msg s = Some (rp, s') ∧ at_ L r s' ∧
    (state_of i (fc_impls (own s)) ≤ INITIALIZED → state_of i (fc_impls (own s')) ≤ INITIALIZED).
Proof.
  intros [k Hi] Hmsg [Ht Hr]. destruct (tr_objs _ _ Ht i k Hi) as (Ho & _).
  destruct (wl_Handle i msg (fc_impls (own s)) (tr_ok _ _ Ht) Ho Hmsg) as (rp & w' & E & Hm).
  unfold impl_reply, impl_does. rewrite E. cbn. eexists _, _. split; [done|]. split; [split; cbn|cbn].
  - apply (tracks_moved L i); [done|by exists k|by destruct Hm|by right].
  - by rewrite hear_frame.
  - pose proof (hear_rest (rp_notes rp) (own s <| fc_impls := w' |>)) as Hh. injection Hh as _ _ _ _ _ Hh. intros Hst.
    unfold state_of in *. rewrite Hh. destruct Hm as (Hm & _ & Hc). rewrite (mv_state _ _ _ _ _ _ _ Hm). by apply last_state_calm, Hc.
Qed.
Lemma reply_at L r i msg :
  is_Some (L !! i) → msgId msg ≠ START_RECOGNIZE → total (at_ L r) (impl_reply i msg) (λ _, at_ L r).
Proof. intros Hi Hmsg s Hs. destruct (reply_facts L r i msg s Hi Hmsg Hs) as (rp & s' & E & H & _). eauto. Qed.
Lemma handle_at L r i msg : is_Some (L !! i) → msgId msg ≠ START_RECOGNIZE → total (at_ L r) (impl_Handle i msg) (λ _, at_ L r).
Proof. intros Hi Hmsg. eapply total_bind; [by apply reply_at|]. intros b. by apply total_ret. Qed.
(** An implementation that is not processing anything does not start to. *)
Definition resting i s : Prop := state_of i (fc_impls (own s)) ≤ INITIALIZED.
Lemma handle_resting L r i msg : is_Some (L !! i) → msgId msg ≠ START_RECOGNIZE →
  total (λ s, at_ L r s ∧ resting i s) (impl_Handle i msg) (λ _ s, at_ L r s ∧ resting i s).
Proof.
  intros Hi Hmsg. apply (total_bind _ _ (λ _ s, at_ L r s ∧ resting i s)); [|intros rp; by apply total_ret].
  intros s [Hs Hst]. destruct (reply_facts L r i msg s Hi Hmsg Hs) as (rp & s' & E & H & Hst'). exists rp, s'. split; [done|]. split; [done|by apply Hst'].
Qed.
Lemma detected_at L r i uuid d event : is_Some (L !! i) →
  total (λ s, at_ L r s ∧ curState_ (own s) ≤ INITIALIZED) (impl_OnTriggerDetected i uuid d event) (λ _, at_ L r).
Proof.
  intros Hi s [[Ht Hr] Hst]. destruct Hi as [k Hi]. destruct (tr_objs _ _ Ht i k Hi) as (Ho & _).
  destruct (wl_OnTriggerDetected i uuid d event (fc_impls (own s)) (tr_ok _ _ Ht) Ho) as (ns & w' & E & Hm).
  unfold impl_OnTriggerDetected, impl_does. rewrite E. cbn. eexists _, _. split; [done|]. split; cbn.
  - apply (tracks_moved L i); [done|by exists k|done|by left].
  - by rewrite hear_frame.
Qed.
Lemma modc_at L r r' g : (∀ f, rest f = r → rest (g f) = r' ∧ curState_ (g f) = curState_ f ∧ curProcess_ (g f) = curProcess_ f ∧ fc_impls (g f) = fc_impls f) →
  total (at_ L r) (fx (modc g)) (λ _, at_ L r').
Proof.
  intros Hg. apply total_fx. intros s [Ht Hr]. destruct (Hg _ Hr) as (A1 & A2 & A3 & A4). split; [|done].
  by apply (tracks_rest L (own s)).
Qed.

(** [i] is destroyed. *)
Section destroy.
Context L i k (ns : Notes) w' f (Ht : tracks L f) (Hi : L !! i = Some k).
Context (Hoth : ∀ j kj, L !! j = Some kj → j ≠ i → j ∈ wi_objs w' ∧ wi_view j w' = wi_view j (fc_impls f)).
Context (Hok : wi_ok w') (Hl : last_state (state_of i (fc_impls f)) ns ≤ INITIALIZED) (Hn : told_as (proc_of i (fc_impls f)) ns).
Lemma destroyed_quiet f' :
  f' = f <| fc_impls := w' |> → follows (state_of i (fc_impls f)) (proc_of i (fc_impls f)) f' →
  (∀ j, is_Some (L !! j) → j ≠ i → state_of j (fc_impls f) ≤ INITIALIZED) → tracks (delete i L) (hear ns f').
Proof.
  intros Hf' Hfol Hq. pose proof (hear_follows _ ns _ _ Hn Hfol) as Hf. unfold follows in Hf.
  rewrite (proj2 (Z.ltb_ge INITIALIZED (last_state _ ns)) Hl) in Hf.
  pose proof (hear_rest ns f') as Hh. injection Hh as _ _ _ _ _ Hh. assert (fc_impls f' = w') as Hw by by subst f'. rewrite Hw in Hh.
  constructor; rewrite ?Hh; [done| | |lia|].
  - intros j kj [Hne Hj]%lookup_delete_Some. unfold kind_of. destruct (Hoth j kj Hj) as [A1 ->]; [done|].
    by destruct (tr_objs _ _ Ht j kj Hj) as (_ & A2 & A3).
  - intros j j' kj [_ Hj]%lookup_delete_Some [_ Hj']%lookup_delete_Some. by apply (tr_dist _ _ Ht j j' kj).
  - intros _ j [kj Hj]. apply lookup_delete_Some in Hj as [Hne Hj]. unfold state_of. destruct (Hoth j kj Hj) as [_ ->]; [done|].
    apply Hq; [by exists kj|done].
Qed.
Lemma tracks_destroyed : tracks (delete i L) (hear ns (f <| fc_impls := w' |>)).
Proof.
  assert (is_Some (L !! i)) as Hi' by by exists k.
  destruct (Z.le_gt_cases (curState_ f) INITIALIZED) as [Hc|Hc].
  - apply destroyed_quiet; [done| |intros; by apply (tr_out _ _ Ht)]. unfold follows.
    by rewrite (proj2 (Z.ltb_ge INITIALIZED _) (tr_out _ _ Ht Hc i Hi')).
  - destruct (tr_in _ _ Ht) as (o & Ho & E1 & E2 & E3); [lia|]. destruct (decide (i = o)) as [<-|Hne].
    + apply destroyed_quiet; [done| |done]. unfold follows. rewrite E1, (proj2 (Z.ltb_lt INITIALIZED _)) by lia.
      split_and!; [done|done|]. destruct (tr_objs _ _ Ht i k Hi) as (Hio & _). destruct (wl_procs i _ (tr_ok _ _ Ht) Hio) as [A2 _].
      apply A2. unfold state_of in E1. lia.
    + rewrite (hear_other (proc_of i (fc_impls f))); [|done|cbn; lia|].
      * apply tracks_drop; [done|done|by apply E3|done].
      * cbn. rewrite <- E2. by apply (procs_differ L).
Qed.
End destroy.
Lemma destroy_at L r i k : L !! i = Some k → k ≠ PHONE → total (at_ L r) (impl_Destroy i) (λ _, at_ (delete i L) r).
Proof.
  intros Hi Hk s [Ht Hr]. destruct (tr_objs _ _ Ht i k Hi) as (Ho & Hki & _).
  destruct (wl_Destroy i (fc_impls (own s)) (tr_ok _ _ Ht) Ho) as (ns & w' & E & Hok & Hw & Hv & Hl & Hn);
    [unfold kind_of in Hki; congruence|].
  unfold impl_Destroy, impl_does. rewrite E. cbn. eexists _, _. split; [done|]. split; [|cbn; by rewrite hear_frame].
  apply (tracks_destroyed L i k ns w' (own s)); try done. intros j kj Hj Hne. destruct (tr_objs _ _ Ht j kj Hj) as (A1 & _).
  split; [rewrite Hw; set_solver|by apply Hv].
Qed.
(** A new implementation of another type. *)
Lemma create_at L r k : k = PHONE ∨ k = HEADSET ∨ k = AI_GLASSES → (∀ j, L !! j ≠ Some k) →
  total (at_ L r) (impl_Create k)
    (λ o s, match o with None => at_ L r s | Some i => L !! i = None ∧ at_ (<[i := k]> L) r s ∧ resting i s end).
Proof.
  intros Hk Hnew. apply total_fx. intros s [Ht Hr]. pose proof (wl_Create k (fc_impls (own s)) (tr_ok _ _ Ht)) as Hc.
  destruct (wi_Create k (fc_impls (own s))) as [o w']. destruct Hc as (Hok & Hv & Ho). cbn [fst snd].
  assert (∀ j kj, L !! j = Some kj → j ∈ wi_objs w' ∧ wi_view j w' = wi_view j (fc_impls (own s))) as Hoth.
  { intros j kj Hj. destruct (tr_objs _ _ Ht j kj Hj) as (A1 & _). split; [|by apply Hv]. destruct o; [|by rewrite Ho].
    destruct Ho as (_ & -> & _). set_solver. }
  destruct o as [i|].
  - destruct Ho as (Hi & Hw & Hki & Hsi). assert (L !! i = None) as HiL.
    { destruct (L !! i) as [ki|] eqn:E; [|done]. by destruct (tr_objs _ _ Ht i ki E) as (A1 & _). }
    assert (state_of i w' ≤ INITIALIZED) as Hs by (unfold state_of; rewrite Hsi; unfold IDLE, INITIALIZED; lia).
    split_and!; [done| |exact Hs]. split; [|done]. apply tracks_add; try done. rewrite Hw. set_solver.
  - split; [|done]. destruct Ht as [_ T1 T2 T3 T4]. constructor; cbn; unfold kind_of, state_of, proc_of in *.
    + done.
    + intros j kj Hj. destruct (Hoth j kj Hj) as [A1 ->]. by destruct (T1 j kj Hj) as (_ & A2 & A3).
    + done.
    + intros Hc. destruct (T3 Hc) as (i & [ki Hi] & E1 & E2 & E3). exists i. destruct (Hoth i ki Hi) as [_ ->].
      split_and!; [by exists ki|done|done|]. intros j [kj Hj] Hne. destruct (Hoth j kj Hj) as [_ ->]. apply E3; by eauto.
    + intros Hc j [kj Hj]. destruct (Hoth j kj Hj) as [_ ->]. apply T4; by eauto.
Qed.

(** The implementations of a facade: the phone's, and perhaps another's. *)
Inductive has (d : nat) : option nat → gmap nat Z → Prop :=
| has_none : has d None {[d := PHONE]}
| has_phone : has d (Some d) {[d := PHONE]}
| has_other i k : i ≠ d → k = HEADSET ∨ k = AI_GLASSES → has d (Some i) (<[i := k]> {[d := PHONE]}).
Definition facade_ok s : Prop := ∃ d u L dv cb, has d u L ∧ at_ L (u, Some d, Some d, Some dv, cb) s.

Lemma has_default d u L : has d u L → is_Some (L !! d).
Proof. intros []; [by rewrite lookup_singleton_eq|by rewrite lookup_singleton_eq|rewrite lookup_insert_ne by done; by rewrite lookup_singleton_eq]. Qed.
Lemma has_current d i L : has d (Some i) L → is_Some (L !! i).
Proof. inversion 1; subst; [by rewrite lookup_singleton_eq|by rewrite lookup_insert_eq]. Qed.

Lemma total_read {B C} L r (g : Facade W → B) (k : B → M C) Q :
  (∀ f, rest f = r → total (at_ L r) (k (g f)) Q) → total (at_ L r) (b ← fx (getc g); k b) Q.
Proof. intros H s Hs. destruct (H (own s) (proj2 Hs) s Hs) as (c & s' & E & Hq). by exists c, s'. Qed.
Lemma total_reads {B C} (P : S → Prop) r (g : Facade W → B) (k : B → M C) Q :
  (∀ s, P s → rest (own s) = r) → (∀ f, rest f = r → total P (k (g f)) Q) → total P (b ← fx (getc g); k b) Q.
Proof. intros HP H s Hs. destruct (H (own s) (HP s Hs) s Hs) as (c & s' & E & Hq). by exists c, s'. Qed.
Lemma total_pure L r {B} (b : B) (Q : B → S → Prop) : (∀ s, at_ L r s → Q b s) → total (at_ L r) (mret b : M B) Q.
Proof. apply total_ret. Qed.
Lemma ok_intro d u L dv cb s : has d u L → at_ L (u, Some d, Some d, Some dv, cb) s → facade_ok s.
Proof. intros H1 H2. by exists d, u, L, dv, cb. Qed.
Lemma total_ok {B} (m : M B) :
  (∀ d u L dv cb, has d u L → total (at_ L (u, Some d, Some d, Some dv, cb)) m (λ _, facade_ok)) → total facade_ok m (λ _, facade_ok).
Proof. intros H s (d & u & L & dv & cb & Hh & Hs). by apply (H d u L dv cb Hh s). Qed.
Lemma total_to_ok {B} d u L dv cb (m : M B) : has d u L →
  total (at_ L (u, Some d, Some d, Some dv, cb)) m (λ _, at_ L (u, Some d, Some d, Some dv, cb)) →
  total (at_ L (u, Some d, Some d, Some dv, cb)) m (λ _, facade_ok).
Proof. intros Hh Hm. eapply total_conseq; [exact Hm|done|]. intros b s. by apply ok_intro. Qed.
Ltac known f H := unfold rest in H; injection H as ? ? ? ? ?.
Ltac set_rest := apply modc_at; let f := fresh in let Hf := fresh in intros f Hf; known f Hf; unfold rest; cbn; split_and!; [congruence|done..].

Lemma F_Handle_ok msg : msgId msg ≠ START_RECOGNIZE → total facade_ok (F_Handle msg) (λ _, facade_ok).
Proof.
  intros Hmsg. apply total_ok. intros d u L dv cb Hh. apply (total_to_ok d u); [done|].
  pose proof (has_default _ _ _ Hh) as Hd. unfold F_Handle. apply total_read. intros f Hf. known f Hf.
  change (id f) with f. cbv zeta. unfold GetCurrentImpl.
  replace (wakeupImpl_ f) with u by done. replace (wispherImpl_ f) with (Some d) by done. replace (defaultImpl_ f) with (Some d) by done.
  destruct (_ || _ || _ || _).
  - unfold deref. eapply total_bind; [by apply handle_at|]. intros b. cbv beta. destruct u as [i|]; [|by apply total_pure].
    case_bool_decide; [by apply total_pure|]. apply reply_at; [by eapply has_current|done].
  - destruct (_ || _ || _ || _ || _); [|by apply reply_at].
    destruct (curProcess_ f =? PROCESS_WISPHER_PHONE); [by apply reply_at|]. destruct u as [i|]; [|by apply total_pure].
    apply reply_at; [by eapply has_current|done].
Qed.
Lemma F_SaveCallback_ok callback : total facade_ok (F_SaveCallback callback) (λ _, facade_ok).
Proof.
  apply total_ok. intros d u L dv cb Hh. unfold F_SaveCallback.
  apply (total_bind _ _ (λ _, at_ L (u, Some d, Some d, Some dv, callback))).
  { set_rest. }
  intros _. apply (total_to_ok d u); [done|]. apply total_read. intros f Hf. known f Hf. replace (defaultImpl_ f) with (Some d) by done.
  unfold deref. eapply total_bind; [apply handle_at; [by eapply has_default|done]|]. intros b. cbv beta.
  apply total_read. intros f' Hf'. known f' Hf'. replace (wakeupImpl_ f') with u by done. destruct u as [i|]; [|by apply total_pure].
  eapply total_bind; [apply handle_at; [by eapply has_current|done]|]. intros ?. by apply total_pure.
Qed.
(** The tasks, the tracking and the devices are not the facade's. *)
Lemma at_aside {B} L r (m : St S B) : (∀ s, own (m s).2 = own s) → total (at_ L r) (fx m) (λ _, at_ L r).
Proof. intros Hm. apply total_fx. intros s Hs. unfold at_. by rewrite Hm. Qed.
Lemma close_at L r : total (at_ L r) close_wakeup_source (λ _, at_ L r).
Proof. apply at_aside. intros s. unfold AddAsyncTask. run. by case_match. Qed.
Lemma when_at L r b m : total (at_ L r) m (λ _, at_ L r) → total (at_ L r) (fx_when b m) (λ _, at_ L r).
Proof. destruct b; [done|]. intros _. by apply total_pure. Qed.

Lemma total_own {C} (P : S → Prop) (k : Facade W → M C) Q :
  (∀ f, total (λ s, P s ∧ own s = f) (k f) Q) → total P (f ← fx (getc id); k f) Q.
Proof. intros H s Hs. destruct (H (own s) s (conj Hs eq_refl)) as (c & s' & E & Hq). by exists c, s'. Qed.

Lemma wispher_ok d u L dv cb uuid event : has d u L →
  total (λ s, at_ L (u, Some d, Some d, Some dv, cb) s ∧ curState_ (own s) ≤ INITIALIZED) (F_OnWispherDetected uuid event)
        (λ _, at_ L (u, Some d, Some d, Some dv, cb)).
Proof.
  intros Hh. unfold F_OnWispherDetected. apply total_own. intros f.
  apply (total_bind _ _ (λ _, at_ L (u, Some d, Some d, Some dv, cb))); [|intros ?; by apply total_pure].
  intros s [[Hs Hc] <-]. pose proof Hs as [_ Hr]. known f Hr.
  replace (wispherImpl_ (own s)) with (Some d) by done. replace (fc_device (own s)) with (Some dv) by done.
  apply (detected_at L _ d uuid dv event); [by eapply has_default|done].
Qed.
Lemma wakeup_ok d u L dv cb uuid mac event : has d u L →
  total (λ s, at_ L (u, Some d, Some d, Some dv, cb) s ∧ curState_ (own s) ≤ INITIALIZED) (F_OnWakeupDetected uuid mac event)
        (λ _, at_ L (u, Some d, Some d, Some dv, cb)).
Proof.
  intros Hh. unfold F_OnWakeupDetected. apply total_own. intros f s [[Hs Hc] <-]. pose proof Hs as [_ Hr]. known f Hr.
  replace (fc_device (own s)) with (Some dv) by done. unfold deref. destruct (negb (bool_decide (mac = d_macAddress dv))).
  - apply (total_bind _ _ _ _ _ (when_at L _ _ _ (close_at L _)) (λ _, total_pure L _ DEVICE_ERROR _ (λ s H, H))). exact Hs.
  - replace (wakeupImpl_ (own s)) with u by done. destruct u as [i|].
    + apply (total_bind _ _ _ _ _ (detected_at L _ i uuid dv event (has_current _ _ _ Hh)) (λ _, total_pure L _ SUCCESS _ (λ s H, H))). by split.
    + by eexists _, _.
Qed.
Lemma F_OnTriggerDetected_ok uuid mac event : total facade_ok (F_OnTriggerDetected uuid mac event) (λ _, facade_ok).
Proof.
  apply total_ok. intros d u L dv cb Hh. apply (total_to_ok d u); [done|]. unfold F_OnTriggerDetected.
  apply total_own. intros f. destruct (negb (ProcessCheck f)) eqn:Hp.
  - intros s [Hs _]. apply (total_bind _ _ _ _ _ (when_at L _ _ _ (close_at L _)) (λ _, total_pure L _ WAKEUP_PROCESSING _ (λ s H, H))). exact Hs.
  - intros s [Hs <-]. assert (curState_ (own s) ≤ INITIALIZED) as Hc by (unfold ProcessCheck in Hp; rewrite negb_involutive in Hp; lia).
    destruct (uuid =? _); [by apply (wispher_ok d u L dv cb uuid event Hh)|by apply (wakeup_ok d u L dv cb uuid mac event Hh)].
Qed.

(** Only the phone's implementation is left. *)
Definition phone_only d dv cb s : Prop := ∃ u, (u = None ∨ u = Some d) ∧ at_ {[d := PHONE]} (u, Some d, Some d, Some dv, cb) s.
Lemma F_ReleaseEngineImpl_ok d u L dv cb : has d u L →
  total (at_ L (u, Some d, Some d, Some dv, cb)) F_ReleaseEngineImpl (λ _, phone_only d dv cb).
Proof.
  intros Hh. unfold F_ReleaseEngineImpl. apply total_read. intros f Hf. known f Hf. change (id f) with f.
  replace (wakeupImpl_ f) with u by done. replace (defaultImpl_ f) with (Some d) by done.
  destruct Hh as [| |i k Hne Hk].
  - apply total_ret. intros s Hs. exists None. auto.
  - rewrite bool_decide_true by done. apply total_ret. intros s Hs. exists (Some d). auto.
  - rewrite bool_decide_false by congruence.
    eapply total_bind; [apply (destroy_at _ _ i k); [by rewrite lookup_insert_eq|by destruct Hk as [-> | ->]]|]. intros b. cbv beta.
    rewrite delete_insert_id by (by rewrite lookup_singleton_ne).
    apply (total_bind _ _ (λ _, at_ {[d := PHONE]} (None, Some d, Some d, Some dv, cb))).
    + set_rest.
    + intros ?. apply total_ret. intros s Hs. exists None. auto.
Qed.
Lemma other_types d k : k = HEADSET ∨ k = AI_GLASSES → ∀ j, ({[d := PHONE]} : gmap nat Z) !! j ≠ Some k.
Proof. intros Hk j [<- E]%lookup_singleton_Some. subst k. destruct Hk; done. Qed.
Lemma has_new d i : ({[d := PHONE]} : gmap nat Z) !! i = None → i ≠ d.
Proof. intros H ->. by rewrite lookup_singleton_eq in H. Qed.

(** [InitImpl]: the new implementation, or the phone's. *)
Lemma F_InitImpl_ok d i k dv cb : i ≠ d → k = HEADSET ∨ k = AI_GLASSES →
  total (λ s, at_ (<[i := k]> {[d := PHONE]}) (Some i, Some d, Some d, Some dv, cb) s ∧ resting i s) (F_InitImpl dv)
        (λ _ s, ∃ u L, has d u L ∧ at_ L (u, Some d, Some d, Some dv, cb) s).
Proof.
  intros Hne Hk. unfold F_InitImpl.
  apply (total_reads _ (Some i, Some d, Some d, Some dv, cb)); [by intros s [[_ Hr] _]|]. intros f Hf. known f Hf.
  replace (wakeupImpl_ f) with (Some i) by done.
  eapply total_bind; [apply handle_resting; [by rewrite lookup_insert_eq|done]|]. intros ret. cbv beta.
  destruct (negb (ret =? 0)).
  - apply total_fx. intros s [[Ht Hr] Hs]. exists (Some d), {[d := PHONE]}. split; [apply has_phone|]. known f Hr.
    split; [|unfold rest; cbn; congruence].
    assert (tracks {[d := PHONE]} (own s <| fc_impls := fc_impls (own s) |>)) as Ht'.
    { rewrite <- (delete_insert_id {[d := PHONE]} i k) by (by rewrite lookup_singleton_ne). apply tracks_drop; [done|apply (tr_ok _ _ Ht)|exact Hs|].
      intros j kj Hj _. by destruct (tr_objs _ _ Ht j kj Hj) as (A1 & _). }
    by apply (tracks_rest _ (own s <| fc_impls := fc_impls (own s) |>)).
  - apply total_ret. intros s [Hs _]. exists (Some i), (<[i := k]> {[d := PHONE]}). split; [by apply has_other|done].
Qed.

(** The two halves of [CreateEngineImpl]: the implementation, and its callback. *)
Definition made d dv cb s : Prop := ∃ x : option nat * gmap nat Z, has d x.1 x.2 ∧ at_ x.2 (x.1, Some d, Some d, Some dv, cb) s.
Lemma made_intro d u L dv cb s : has d u L → at_ L (u, Some d, Some d, Some dv, cb) s → made d dv cb s.
Proof. intros H1 H2. by exists (u, L). Qed.
Lemma set_impl_at L u u' d dv cb : total (at_ L (u, Some d, Some d, Some dv, cb)) (fx (modc (λ f, f <| wakeupImpl_ := u' |>)))
  (λ _, at_ L (u', Some d, Some d, Some dv, cb)).
Proof. set_rest. Qed.
Lemma set_default_at L u d dv cb : total (at_ L (u, Some d, Some d, Some dv, cb))
  (fx (modc (λ f, f <| wakeupImpl_ := defaultImpl_ f |>))) (λ _, at_ L (Some d, Some d, Some d, Some dv, cb)).
Proof. set_rest. Qed.
Lemma set_device_at L u d dv dv' cb : total (at_ L (u, Some d, Some d, Some dv, cb)) (fx (modc (λ f, f <| fc_device := Some dv' |>)))
  (λ _, at_ L (u, Some d, Some d, Some dv', cb)).
Proof. set_rest. Qed.
Lemma make_other_ok d u dv cb k : k = HEADSET ∨ k = AI_GLASSES →
  total (at_ {[d := PHONE]} (u, Some d, Some d, Some dv, cb))
    (o ← impl_Create k; _ ← fx (modc (λ f, f <| wakeupImpl_ := o |>)); F_InitImpl dv) (λ _, made d dv cb).
Proof.
  intros Hk. eapply total_bind; [apply create_at; [by right|by apply other_types]|]. intros [i|]; cbv beta iota.
  - intros s (Hi & Hs & Hst). apply has_new in Hi.
    apply (total_bind (λ s, at_ (<[i := k]> {[d := PHONE]}) (u, Some d, Some d, Some dv, cb) s ∧ resting i s) _
      (λ _ s, at_ (<[i := k]> {[d := PHONE]}) (Some i, Some d, Some d, Some dv, cb) s ∧ resting i s) _ (λ _, made d dv cb)); [| |exact (conj Hs Hst)].
    + intros s' [Hs' Hst']. destruct (set_impl_at _ _ (Some i) d dv cb s' Hs') as (b & s2 & E & H). exists b, s2. split; [done|]. split; [done|].
      injection E as _ <-. exact Hst'.
    + intros ?. eapply total_conseq; [exact (F_InitImpl_ok d i k dv cb Hi Hk)|by intros|]. intros ? s' (u' & L & Hh & H). by eapply made_intro.
  - eapply total_bind; [apply set_impl_at|]. intros ?. unfold F_InitImpl. apply total_read. intros f Hf. known f Hf.
    replace (wakeupImpl_ f) with (@None nat) by done. apply total_ret. intros s Hs. eapply made_intro; [constructor|done].
Qed.
Lemma give_callback_ok d u L dv cb : has d u L →
  total (at_ L (u, Some d, Some d, Some dv, cb))
    (f ← fx (getc id);
     _ ← match fc_callback f, wakeupImpl_ f with
         | Some cb, Some i => _ ← impl_Handle i (listener_msg (Some cb)); mret () | _, _ => mret () end;
     mret SUCCESS) (λ _, facade_ok).
Proof.
  intros Hh. apply (total_to_ok d u); [done|]. apply total_read. intros f Hf. known f Hf. change (id f) with f.
  replace (fc_callback f) with cb by done. replace (wakeupImpl_ f) with u by done.
  apply (total_bind _ _ (λ _, at_ L (u, Some d, Some d, Some dv, cb))); [|intros ?; by apply total_pure].
  destruct cb as [cb|]; [|by apply total_pure]. destruct u as [i|]; [|by apply total_pure].
  eapply total_bind; [apply handle_at; [by eapply has_current|done]|]. intros ?. by apply total_pure.
Qed.
Lemma F_CreateEngineImpl_ok d dv cb : total (phone_only d dv cb) F_CreateEngineImpl (λ _, facade_ok).
Proof.
  apply total_ex. intros u. apply total_and. intros Hu.
  assert (has d u {[d := PHONE]}) as Hh by (destruct Hu as [-> | ->]; constructor).
  unfold F_CreateEngineImpl. apply total_read. intros f Hf. known f Hf. replace (fc_device f) with (Some dv) by done. cbv zeta.
  apply (total_bind _ _ (λ _, made d dv cb)).
  - destruct (d_type dv =? PHONE).
    { eapply total_bind; [apply set_default_at|]. intros ?. apply total_ret. intros s Hs. eapply made_intro; [apply has_phone|done]. }
    destruct (_ || _) eqn:Ht; [|apply total_ret; intros s Hs; by eapply made_intro].
    eapply total_bind; [apply make_other_ok|intros ?; by apply total_ret].
    apply orb_true_iff in Ht as [E|E]; apply Z.eqb_eq in E; auto.
  - intros known'. apply total_ex. intros [u' L]. apply total_and. cbn [fst snd]. intros Hh'.
    destruct (negb known'); [apply total_ret; intros s Hs; by eapply ok_intro|]. by apply give_callback_ok.
Qed.
Lemma F_UpdateWakeupEngineImpl_ok info : total facade_ok (F_UpdateWakeupEngineImpl info) (λ _, facade_ok).
Proof.
  apply total_ok. intros d u L dv cb Hh. unfold F_UpdateWakeupEngineImpl.
  eapply total_bind; [by eapply F_ReleaseEngineImpl_ok|]. intros ?. cbv beta.
  apply (total_bind _ _ (λ _, phone_only d info cb)).
  - apply total_ex. intros u'. apply total_and. intros Hu.
    apply (total_conseq _ _ _ _ _ (set_device_at {[d := PHONE]} u' d dv info cb)); [done|].
    intros ? s Hs. by exists u'.
  - intros ?. eapply total_bind; [apply F_CreateEngineImpl_ok|]. intros ?. by apply total_ret.
Qed.

(** [Init] of a new facade. *)
Lemma tracks_empty w dev : wi_ok w → tracks ∅ (new_facade w dev).
Proof. intros Hw. constructor; cbn; [done|done|done|unfold IDLE, INITIALIZED; lia|]. intros _ j [k Hj]. by rewrite lookup_empty in Hj. Qed.
Lemma F_InitDefaultImpl_ok r : r.2 = None → r.1.2 = None →
  total (at_ ∅ r) F_InitDefaultImpl
    (λ ret s, ret = 0 → ∃ d, at_ {[d := PHONE]} (r.1.1.1.1, Some d, Some d, r.1.2, None) s).
Proof.
  destruct r as [[[[u wi] de] dv] cb]. cbn [fst snd]. intros -> ->. unfold F_InitDefaultImpl.
  eapply total_bind; [apply create_at; [by left|by intros j]|]. intros [d|]; cbv beta iota.
  - intros s (_ & Hs & _). revert s Hs. change (<[d := PHONE]> ∅) with ({[d := PHONE]} : gmap nat Z).
    match goal with |- ∀ s, _ → ∃ b s', ?m s = _ ∧ _ => change (total (at_ {[d := PHONE]} (u, wi, de, None, None)) m
      (λ ret s, ret = 0 → ∃ d, at_ {[d := PHONE]} (u, Some d, Some d, None, None) s)) end.
    apply (total_bind _ _ (λ _, at_ {[d := PHONE]} (u, wi, Some d, None, None))).
    { set_rest. }
    intros ?. eapply total_bind; [apply handle_at; [by rewrite lookup_singleton_eq|done]|]. intros ret. cbv beta.
    destruct (Z.eqb_spec ret 0) as [->|Hne]; cbn [negb].
    + apply (total_bind _ _ (λ _, at_ {[d := PHONE]} (u, Some d, Some d, None, None))).
      { set_rest. }
      intros ?. apply total_ret. intros s Hs _. by exists d.
    + apply (total_bind _ _ (λ _, at_ {[d := PHONE]} (u, wi, None, None, None))).
      { set_rest. }
      intros ?. by apply total_ret.
  - apply (total_bind _ _ (λ _, at_ ∅ (u, wi, None, None, None))).
    { set_rest. }
    intros ?. by apply total_ret.
Qed.
Lemma devices_at {B} L r (m : St EngineDeviceManager B) : total (at_ L r) (on_devices m) (λ _, at_ L r).
Proof.
  apply total_fx. intros s [Ht Hr]. destruct (m _) as [b dev]. split; [|done]. by apply (tracks_rest L (own s)).
Qed.
Lemma F_Init_ok w dev t db ts os n : wi_ok w →
  ∃ ok s', F_Init (mkSys (new_facade w dev) t db ts os n) = Some (ok, s') ∧ (ok = true → facade_ok s').
Proof.
  intros Hw. cut (total (at_ ∅ (None, None, None, None, None)) F_Init (λ ok s, ok = true → facade_ok s)).
  { intros H. apply H. split; [by apply tracks_empty|done]. }
  unfold F_Init. eapply total_bind; [by apply F_InitDefaultImpl_ok|]. intros ret. cbn [fst snd].
  destruct (Z.eqb_spec ret 0) as [->|Hne]; cbn [negb]; [|by apply total_ret].
  eapply (total_conseq _ (λ s, ∃ d, at_ {[d := PHONE]} (None, Some d, Some d, None, None) s)); [|by intros s H; apply H|intros ? ? H; exact H].
  apply total_ex. intros d. apply total_read. intros f Hf. set (id0 := deviceChangeCbId_ f).
  apply (total_bind _ _ (λ _, at_ {[d := PHONE]} (None, Some d, Some d, None, None))).
  { unfold fx_when. destruct (negb (id0 =? 0)); [|by apply total_pure]. eapply total_bind; [apply devices_at|]. intros ?.
    set_rest. }
  intros ?. eapply total_bind; [apply devices_at|]. intros cb. cbv beta.
  apply (total_bind _ _ (λ _, at_ {[d := PHONE]} (None, Some d, Some d, None, None))).
  { set_rest. }
  intros ?. destruct (cb =? 0); [by apply total_ret|].
  apply (total_bind _ _ (λ _ s, ∃ dv, phone_only d dv None s)).
  { apply total_fx. intros s [Ht Hr]. known f' Hr. exists (wakeupDevice_ (fc_devices (own s))), None. split; [by left|].
    split; [by apply (tracks_rest _ (own s))|]. unfold rest. cbn. congruence. }
  intros ?. apply total_ex. intros dv. eapply total_bind; [apply F_CreateEngineImpl_ok|]. intros ret. cbv beta.
  destruct (negb (ret =? 0)); by apply total_ret.
Qed.

(** ** Runs *)

Definition live f (i : nat) : Prop := defaultImpl_ f = Some i ∨ wakeupImpl_ f = Some i.
(** The messages [WakeupEngine] sends. *)
Definition sent : list Z :=
  [START_CAPTURER; READ; STOP_CAPTURER; RELEASE; SET_PARAM; GET_PARAM; STOP_RECOGNIZE; GET_WAKEUP_PCM; RESET_ADAPTER; RELEASE_ADAPTER].

Inductive fstep : relation S :=
| fs_send msg s r s' : msgId msg ∈ sent → F_Handle msg s = Some (r, s') → fstep s s'
| fs_callback cb s s' : WE_SetCallback cb s = Some ((), s') → fstep s s'
| fs_detected uuid s s' : WE_OnDetected uuid s = Some ((), s') → fstep s s'
| fs_device_event mac event s r s' : WE_NotifyDeviceWakeupEvent mac event s = Some (r, s') → fstep s s'
| fs_device info s r s' : F_UpdateWakeupEngineImpl info s = Some (r, s') → fstep s s'
| fs_own i ns w' s : live (own s) i → wi_own i (fc_impls (own s)) ns w' →
    fstep s (s <| own ::= λ f, hear ns (f <| fc_impls := w' |>) |>)
| fs_world dev s s' : own s' = own s <| fc_devices := dev |> → fstep s s'.

Lemma sent_not_start (msg : StateMsg Body) : msgId msg ∈ sent → msgId msg ≠ START_RECOGNIZE.
Proof. intros H E. rewrite E in H. unfold sent in H. rewrite !elem_of_cons, elem_of_nil in H.
  unfold START_RECOGNIZE, START_CAPTURER, READ, STOP_CAPTURER, RELEASE, SET_PARAM, GET_PARAM, STOP_RECOGNIZE, GET_WAKEUP_PCM,
    RESET_ADAPTER, RELEASE_ADAPTER in H. lia. Qed.
Lemma WE_OnDetected_ok uuid : total facade_ok (WE_OnDetected uuid) (λ _, facade_ok).
Proof.
  unfold WE_OnDetected. apply (total_bind _ _ (λ _, facade_ok)).
  - apply total_ok. intros d u L dv cb Hh. apply (total_to_ok d u); [done|].
    destruct (_ =? _); [by apply at_aside|]. destruct (_ =? _); [by apply at_aside|by apply total_pure].
  - intros ?. eapply total_bind; [apply F_OnTriggerDetected_ok|]. intros ?. by apply total_ret.
Qed.
Lemma has_live f d u L dv cb i : has d u L → rest f = (u, Some d, Some d, Some dv, cb) → is_Some (L !! i) ↔ live f i.
Proof.
  intros Hh Hr. known f Hr. unfold live. replace (defaultImpl_ f) with (Some d) by done. replace (wakeupImpl_ f) with u by done.
  split.
  - destruct Hh as [| |j k Hne Hk]; intros [x Hx]; [apply lookup_singleton_Some in Hx as [-> _]; by left..|].
    apply lookup_insert_Some in Hx as [[-> _]|[_ [-> _]%lookup_singleton_Some]]; auto.
  - intros [[= <-]| ->]; [by eapply has_default|by eapply has_current].
Qed.
Lemma fstep_ok s s' : fstep s s' → facade_ok s → facade_ok s'.
Proof.
  assert (∀ B (m : M B) s b s', total facade_ok m (λ _, facade_ok) → m s = Some (b, s') → facade_ok s → facade_ok s') as Hm.
  { intros B m s0 b s1 Ht E Hs. destruct (Ht s0 Hs) as (b' & s2 & E2 & H). rewrite E in E2. by injection E2 as _ ->. }
  intros [] Hs.
  - eapply Hm; [|done|done]. by apply F_Handle_ok, sent_not_start.
  - eapply Hm; [|done|done]. apply F_SaveCallback_ok.
  - eapply Hm; [|done|done]. apply WE_OnDetected_ok.
  - eapply Hm; [|done|done]. apply F_OnTriggerDetected_ok.
  - eapply Hm; [|done|done]. apply F_UpdateWakeupEngineImpl_ok.
  - destruct Hs as (d & u & L & dv & cb & Hh & Ht & Hr). apply (ok_intro d u L dv cb); [done|]. split; [|cbn; by rewrite hear_frame].
    apply (has_live _ _ _ _ _ _ i Hh Hr) in H as Hi. destruct Hi as [k Hi]. destruct (tr_objs _ _ Ht i k Hi) as (Ho & _).
    pose proof (wl_own i ns _ w' (tr_ok _ _ Ht) Ho ltac:(eassumption)) as Hc. apply (tracks_moved L i); [done|by exists k|apply Hc|by right].
  - destruct Hs as (d & u & L & dv & cb & Hh & Ht & Hr). apply (ok_intro d u L dv cb); [done|]. known f Hr. split.
    + apply (tracks_rest L (own s0)); [..|done]; by rewrite H.
    + rewrite H. unfold rest. cbn. congruence.
Qed.
Lemma fsteps_ok s s' : rtc fstep s s' → facade_ok s → facade_ok s'.
Proof. induction 1; [done|]. eauto using fstep_ok. Qed.
Lemma initialised_ok w dev t db ts os n s s' : wi_ok w →
  F_Init (mkSys (new_facade w dev) t db ts os n) = Some (true, s) → rtc fstep s s' → facade_ok s'.
Proof.
  intros Hw Hi Hr. eapply fsteps_ok; [exact Hr|]. destruct (F_Init_ok w dev t db ts os n Hw) as (ok & s1 & E & H).
  rewrite Hi in E. injection E as <- <-. by apply H.
Qed.
End tracking.
