(* ===== verification/FacadeImpls.v ===== *)
(** * The implementations of the wakeup engine behind the facade

    The laws of [WakeupFacade.v], proved of the three machines of [WakeupImpl.v],
    [HeadsetImpl.v] and [GlassesImpl.v], and the theorems about the facade with them.  Each
    implementation has a copy of its own of what it shares with the rest of the service
    (the settings, the trigger manager, the clock): no property here depends on it. *)

From S2P Require Import Prelude TimerMgr StringUtil AudioUtil Settings StateManager StateTimeout MachineRuns EngineTypes.
From S2P Require Import EngineAudio EngineUtil WakeupSource WakeupListener CloudReporter WakeupImpl WakeupSafety DeviceManager.
From S2P Require Import HeadsetImpl HeadsetSafety GlassesImpl GlassesSafety WakeupFacade FacadeTracking.

(** ** What a machine tells *)

Section machine.
Context {P E : Type}.
Implicit Types m : ModuleStates P E.

(** [m] went to [m'], and told its listener [ns]. *)
Record went m m' (ns : Notes) : Prop := {
  wt_conf : configured m'; wt_init : isInitSucc_ m' = isInitSucc_ m; wt_shape : shape m' = shape m; wt_listener : hasListener m' = true;
  wt_proc : processType_ m' = processType_ m; wt_notified : notified m' = notified m ++ ns;
  wt_state : CurrState m' = last_state (CurrState m) ns; wt_as : Forall (λ n, n.2 = processType_ m) ns }.

Lemma went_env m e : configured m → hasListener m = true → went m (m <| env := e |>) [].
Proof. intros Hc Hl. constructor; [by apply configured_env|done..|by rewrite app_nil_r|done|done]. Qed.
Lemma went_trans m1 m2 m3 ns ns' : went m1 m2 ns → went m2 m3 ns' → went m1 m3 (ns ++ ns').
Proof.
  intros [A1 A0 A2 A3 A4 A5 A6 A7] [B1 B0 B2 B3 B4 B5 B6 B7]. constructor; [done|congruence|congruence|done|congruence| | |].
  - by rewrite B5, A5, app_assoc.
  - unfold last_state in *. by rewrite foldl_app, <- A6.
  - apply Forall_app. split; [done|]. by rewrite A4 in B7.
Qed.

(** No handler but the one of [start] goes above [bound] from below it. *)
Definition tame (bound start : Z) m : Prop :=
  Forall (λ x : Z * Z * Handler P E, x.1.1 ≤ bound → x.1.2 ≠ start →
    ∀ msg, returns (x.2 msg x.1.1) (λ r, hNext r ≤ bound)) (actions_list m).

Lemma went_msg m0 bound start now msg m :
  configured m → hasListener m = true → shape m = shape m0 → tame bound start m0 →
  ∃ r m' ns, HandleMsg now msg m = Some (r, m') ∧ went m m' ns ∧
    (msgId msg ≠ start → CurrState m ≤ bound → Forall (λ n, n.1 ≤ bound) ns).
Proof.
  intros Hcf Hl Hsh Htame. destruct (cf_curr _ Hcf) as (cur & Hc & [a Ha]).
  pose proof (HandleMsg_cases now msg m cur a Hcf Hc Ha) as Hcs. destruct (actions a !! msgId msg) as [h|] eqn:Hh.
  2: { exists NO_PROCESS_RET, m, []. split; [done|]. split; [|done]. constructor; try done. by rewrite app_nil_r. }
  destruct (h msg cur (env m)) as [r e'] eqn:He. destruct Hcs as (m' & Hr & Hcf' & _ & Hs' & Hlp & Hstay & Hgo).
  injection Hlp as Hl' Hp'. rewrite Hl in Hl'. exists (hRet r), m'. pose proof (HandleMsg_init _ _ _ _ _ Hr) as Hinit.
  assert (CurrState m = cur) as Hcur by (unfold CurrState; by rewrite Hc).
  destruct (decide (hRet r ≠ 0 ∨ hNext r = cur ∨ states_ m !! hNext r = None)) as [Hd|Hd].
  - destruct (Hstay Hd) as [Hc' Hn']. exists []. split; [done|]. split; [|done].
    constructor; try done; [by rewrite app_nil_r|]. unfold CurrState. by rewrite Hc', Hc.
  - apply Decidable.not_or in Hd as [Hd1 [Hd2 Hd3]%Decidable.not_or].
    destruct Hgo as [Hc' Hn']; [lia|done|by destruct (states_ m !! hNext r)|]. rewrite Hl in Hn'.
    exists [(hNext r, processType_ m)]. split; [done|]. split; [constructor; try done|].
    + unfold CurrState. by rewrite Hc'.
    + by constructor.
    + intros Hmsg Hb. constructor; [|done]. cbn.
      destruct (shape_state_actions m m0 cur a Hsh Ha) as (b & Hb' & Hst). unfold strip in Hst. injection Hst as _ _ _ Hac.
      unfold tame in Htame. rewrite Forall_forall in Htame.
      assert ((cur, msgId msg, h) ∈ actions_list m0) as Hin.
      { apply (elem_of_actions_list m0 cur b); [done|]. rewrite <- Hac. exact Hh. }
      rewrite Hcur in Hb. pose proof (Htame _ Hin Hb Hmsg msg (env m) I) as H. cbn [fst snd] in H. by rewrite He in H.
Qed.
(** A message that every state above [bound] has a handler for, which goes to [next]. *)
Definition resets (bound mid next : Z) m : Prop :=
  handles_above bound mid m = true ∧
  Forall (λ x : Z * Z * Handler P E, x.1.2 = mid → ∀ msg, returns (x.2 msg x.1.1) (goes_to next)) (actions_list m) ∧
  is_Some (states_ m !! next) ∧ next ≤ bound.
Lemma resets_msg m0 bound next now msg m r m' ns :
  configured m → shape m = shape m0 → resets bound (msgId msg) next m0 → HandleMsg now msg m = Some (r, m') → went m m' ns →
  last_state (CurrState m) ns ≤ bound.
Proof.
  intros Hcf Hsh (Hall & Hgo & Hnext & Hb) Hr Hw. rewrite <- (wt_state _ _ _ Hw).
  destruct (cf_curr _ Hcf) as (cur & Hc & [a Ha]).
  pose proof (HandleMsg_cases now msg m cur a Hcf Hc Ha) as Hcs.
  destruct (shape_state_actions m m0 cur a Hsh Ha) as (b & Hb' & Hst). unfold strip in Hst. injection Hst as _ _ _ Hac.
  destruct (actions a !! msgId msg) as [h|] eqn:Hh.
  - destruct (h msg cur (env m)) as [hr e'] eqn:He. destruct Hcs as (m2 & Hr2 & _ & _ & _ & _ & Hstay & Hmove).
    rewrite Hr in Hr2. injection Hr2 as _ <-. rewrite Forall_forall in Hgo.
    assert ((cur, msgId msg, h) ∈ actions_list m0) as Hin by (apply (elem_of_actions_list m0 cur b); [done|rewrite <- Hac; exact Hh]).
    destruct (Hgo _ Hin eq_refl msg (env m) I) as [E1 E2]. cbn [fst snd] in E1, E2. rewrite He in E1, E2. cbn in E1, E2.
    destruct (decide (next = cur)) as [E3|E3].
    + destruct Hstay as [Hc' _]; [right; left; congruence|]. unfold CurrState. rewrite Hc'. cbn. lia.
    + destruct Hmove as [Hc' _]; [done|congruence|rewrite E2; by apply (shape_present m0)|]. unfold CurrState. rewrite Hc'. cbn. lia.
  - rewrite Hr in Hcs. injection Hcs as _ ->. unfold CurrState. rewrite Hc. cbn.
    unfold handles_above in Hall. rewrite forallb_forall in Hall. specialize (Hall (cur, Some b)). cbn in Hall.
    destruct (Z.leb_spec cur bound) as [|_]; [done|]. exfalso. cbn [orb] in Hall.
    match type of Hall with _ → ?c = true => destruct c eqn:Hb2; [|by specialize (Hall ltac:(by apply list_elem_of_In, state_actions_list))] end.
    case_match; [|done]. assert (actions b !! msgId msg = None) by (rewrite <- Hac; exact Hh). congruence.
Qed.
End machine.

Section impls.
Context {H A L L' F T D : Type} `{!EngineHal H} `{!AudioFw A} `{!HeadsetLib L} `{!GlassesLib L'} `{!Files F} `{!TriggerPort T} `{!KvStore D}.
Context {JL : JsonLib} {PL : Platform} {IDS : HdiIds} {AM : AudioModes} (memcpy_refused : list Z → nat → list Z).
Abbreviation EP := (Sys (WakeupEngineImpl H A) T D).
Abbreviation EH := (Sys (HeadsetWakeupEngineImpl H L F) T D).
Abbreviation EG := (Sys (GlassesWakeupEngineImpl L' F) T D).

(** ** Only [START_RECOGNIZE] starts a process *)

Ltac quiet_handler :=
  repeat first [apply returns_seq; intros ?|case_match|solve [intros ? _; cbn; unfold IDLE, INITIALIZING, INITIALIZED in *; lia]].
Ltac quiet_table :=
  repeat (apply Forall_cons; split; [|]); [..|by apply Forall_nil]; cbn [fst snd]; intros Hb Hs msg;
  first [by unfold INITIALIZED in Hb; lia|by destruct Hs|idtac].

Lemma phone_tame l (e : EP) : tame INITIALIZED START_RECOGNIZE (WK_Create l e).
Proof.
  unfold tame. rewrite wakeup_table. quiet_table.
  all: unfold HandleSetParam, HandleGetParam, HandleRelease, HandleSetListener, HandleInitDone, HandleResetAdapter, HandleInit; quiet_handler.
Qed.
Lemma headset_tame l (e : EH) : tame INITIALIZED START_RECOGNIZE (hs_made l e).
Proof.
  unfold tame. rewrite headset_table. quiet_table.
  all: unfold HS_HandleSetParam, HS_HandleRelease, HS_HandleSetListener, HS_HandleInitDone, HS_HandleResetAdapter, HS_HandleInit; quiet_handler.
Qed.
Lemma glasses_tame l (e : EG) : tame INITIALIZED START_RECOGNIZE (gl_made l e).
Proof.
  unfold tame. rewrite glasses_table. quiet_table.
  all: unfold GL_HandleSetParam, GL_HandleRelease, GL_HandleSetListener, GL_HandleResetAdapter, GL_HandleInit; quiet_handler.
Qed.
(** [RELEASE] ends any process of a headset or of glasses. *)
Lemma headset_resets l (e : EH) : resets INITIALIZED RELEASE IDLE (hs_made l e).
Proof.
  split_and!.
  - apply headset_releases.
  - rewrite headset_table. repeat (apply Forall_cons; split; [|]); [..|by apply Forall_nil]; cbn [fst snd]; intros Hm msg; try done.
    all: unfold HS_HandleRelease; repeat (apply returns_seq; intros ?); by intros ? _.
  - apply headset_states. by apply elem_of_seqZ.
  - unfold IDLE, INITIALIZED. lia.
Qed.
Lemma glasses_resets l (e : EG) : resets INITIALIZED RELEASE IDLE (gl_made l e).
Proof.
  split_and!.
  - apply glasses_releases.
  - rewrite glasses_table. repeat (apply Forall_cons; split; [|]); [..|by apply Forall_nil]; cbn [fst snd]; intros Hm msg; try done.
    all: unfold GL_HandleRelease; repeat (apply returns_seq; intros ?); by intros ? _.
  - apply glasses_states. by apply elem_of_seqZ.
  - unfold IDLE, INITIALIZED. lia.
Qed.

(** ** Machines as implementations *)

Section wf.
Context {E : Type} (created : ModuleStates Body E → Prop) (procs : Z → Prop).
Implicit Types m : ModuleStates Body E.
Record obj_wf m : Prop := {
  ow_conf : configured m; ow_init : isInitSucc_ m = true; ow_listener : hasListener m = true; ow_shape : ∃ m0, created m0 ∧ shape m = shape m0;
  ow_procs : procs (processType_ m); ow_run : INITIALIZED < CurrState m → processType_ m ≠ PROCESS_IDLE }.

(** What a machine does without a detection, and what a detection makes of it. *)
Lemma wf_calm m m' ns : obj_wf m → went m m' ns → (CurrState m ≤ INITIALIZED → Forall (λ n, n.1 ≤ INITIALIZED) ns) →
  obj_wf m' ∧ told_as (processType_ m') ns.
Proof.
  intros [W1 W0 W2 W3 W4 W5] [A1 A0 A2 A3 A4 A5 A6 A7] Hc. rewrite A4. split.
  - constructor; [done|by rewrite A0|done|by rewrite A2|by rewrite A4|]. rewrite A4, A6. intros Hs. apply W5.
    destruct (Z.le_gt_cases (CurrState m) INITIALIZED) as [Hm|]; [|lia]. pose proof (last_state_calm _ _ Hm (Hc Hm)). lia.
  - unfold told_as. apply Forall_forall. intros n Hn. rewrite Forall_forall in A7. split; [by apply A7|]. intros Hs. apply W5.
    destruct (Z.le_gt_cases (CurrState m) INITIALIZED) as [Hm|]; [|lia]. specialize (Hc Hm). rewrite Forall_forall in Hc.
    specialize (Hc n Hn). lia.
Qed.
Lemma wf_detected m m' ns : obj_wf m → processType_ m ≠ PROCESS_IDLE → went m m' ns → obj_wf m' ∧ told_as (processType_ m') ns.
Proof.
  intros [W1 W0 W2 W3 W4 W5] Hp [A1 A0 A2 A3 A4 A5 A6 A7]. rewrite A4. split.
  - constructor; [done|by rewrite A0|done|by rewrite A2|by rewrite A4|by rewrite A4].
  - unfold told_as. eapply Forall_impl; [exact A7|]. by intros n ->.
Qed.
Lemma wf_process p m : obj_wf m → procs p → p ≠ PROCESS_IDLE → obj_wf (SetProcessType p m).
Proof. intros [[] W0 W2 W3 W4 W5] Hp Hne. by constructor; [constructor|..]. Qed.
(** A message. *)
Context (Htame : ∀ m0, created m0 → tame INITIALIZED START_RECOGNIZE m0).
Lemma wf_msg now msg m : obj_wf m → ∃ r m' ns, HandleMsg now msg m = Some (r, m') ∧ went m m' ns ∧
  (msgId msg ≠ START_RECOGNIZE → obj_wf m' ∧ told_as (processType_ m') ns ∧ (CurrState m ≤ INITIALIZED → Forall (λ n, n.1 ≤ INITIALIZED) ns)).
Proof.
  intros Hw. pose proof Hw as [W1 _ W2 (m0 & Hm0 & Hsh) _ _].
  destruct (went_msg m0 INITIALIZED START_RECOGNIZE now msg m W1 W2 Hsh (Htame m0 Hm0)) as (r & m' & ns & E1 & Hwent & Hc).
  exists r, m', ns. split_and!; [done..|]. intros Hmsg. specialize (Hc Hmsg). by destruct (wf_calm _ _ _ Hw Hwent Hc).
Qed.
(** [Handle] of each of the implementations is [HandleMsg], once the machine is initialised. *)
Definition guarded (now : Z) (msg : StateMsg Body) m : option (Z * ModuleStates Body E) :=
  if negb (isInitSucc_ m) then Some (-1, m) else HandleMsg now msg m.
Lemma wf_guarded now msg m : obj_wf m → ∃ r m' ns, guarded now msg m = Some (r, m') ∧ HandleMsg now msg m = Some (r, m') ∧ went m m' ns ∧
  (msgId msg ≠ START_RECOGNIZE → obj_wf m' ∧ told_as (processType_ m') ns ∧ (CurrState m ≤ INITIALIZED → Forall (λ n, n.1 ≤ INITIALIZED) ns)).
Proof.
  intros Hw. destruct (wf_msg now msg m Hw) as (r & m' & ns & E1 & Hq). exists r, m', ns. split; [|by split].
  unfold guarded. by rewrite (ow_init _ Hw).
Qed.
(** The threads of the implementation change the owner before and after. *)
Lemma went_around m m' ns e e' : obj_wf m → went (m <| env := e |>) m' ns → went m (m' <| env := e' |>) ns.
Proof.
  intros Hw Hm. rewrite <- (app_nil_l ns), <- (app_nil_r ns). apply (went_trans _ (m <| env := e |>)).
  - destruct Hw. by apply went_env.
  - apply (went_trans _ m'); [done|]. destruct Hm. by apply went_env.
Qed.
Lemma wf_env m e : obj_wf m → obj_wf (m <| env := e |>).
Proof. intros Hw. pose proof Hw as []. by destruct (wf_calm m (m <| env := e |>) [] Hw (went_env _ _ ltac:(done) ltac:(done))). Qed.
(** A detection: the owner changes, the message is handled, the owner changes. *)
Lemma wf_detects now msg e m : obj_wf m → processType_ m ≠ PROCESS_IDLE →
  ∃ r m3 ns, guarded now msg (m <| env := e |>) = Some (r, m3) ∧
    ∀ m', (m' = m3 ∨ ∃ e', m' = m3 <| env := e' |>) → went m m' ns ∧ obj_wf m' ∧ told_as (processType_ m') ns.
Proof.
  intros Hw Hp. destruct (wf_guarded now msg _ (wf_env m e Hw)) as (r & m3 & ns & E1 & _ & Hwent & _). exists r, m3, ns. split; [done|].
  assert (went m m3 ns) as Hm3.
  { rewrite <- (app_nil_l ns). apply (went_trans _ (m <| env := e |>)); [|done]. destruct Hw. by apply went_env. }
  intros m' [->|[e' ->]].
  - by destruct (wf_detected _ _ _ Hw Hp Hm3).
  - assert (went m (m3 <| env := e' |>) ns) as Hm' by by apply (went_around m m3 ns e).
    by destruct (wf_detected _ _ _ Hw Hp Hm').
Qed.
(** What the threads of the implementation do: the owner changes, the executor and the timer
    thread send it messages. *)
Inductive own_step m : ModuleStates Body E → Prop :=
| os_owner e : own_step m (m <| env := e |>)
| os_msg now msg r m' : msgId msg ≠ START_RECOGNIZE → HandleMsg now msg m = Some (r, m') → own_step m m'.
Lemma wf_own m m' : obj_wf m → own_step m m' → ∃ ns, went m m' ns ∧ obj_wf m' ∧ told_as (processType_ m') ns ∧
  (CurrState m ≤ INITIALIZED → Forall (λ n, n.1 ≤ INITIALIZED) ns).
Proof.
  intros Hw []; [|].
  - exists []. assert (went m (m <| env := e |>) []) as Hwent by (destruct Hw; by apply went_env). split; [done|].
    destruct (wf_calm _ _ _ Hw Hwent) as [H1 H2]; done.
  - destruct (wf_msg now msg m Hw) as (r' & m2 & ns & E1 & Hwent & Hms).
    match goal with Hr : HandleMsg now msg m = _ |- _ => rewrite E1 in Hr; apply (inj Some) in Hr; injection Hr as <- <- end.
    exists ns. split; [done|]. by apply Hms.
Qed.
End wf.

(** ** The world of the implementations *)

Inductive Obj :=
| OPhone (m : ModuleStates Body EP) | OHeadset (m : ModuleStates Body EH) | OGlasses (m : ModuleStates Body EG).
(** [iw_phone], [iw_headset] and [iw_glasses] are what a new implementation starts with. *)
Record ImplWorld := mkImpls {
  iw_objs : gmap nat Obj; iw_next : nat; iw_now : Z; iw_phone : EP; iw_headset : EH; iw_glasses : EG }.
Definition put (i : nat) (o : Obj) (w : ImplWorld) : ImplWorld :=
  mkImpls (<[i := o]> (iw_objs w)) (iw_next w) (iw_now w) (iw_phone w) (iw_headset w) (iw_glasses w).
Definition gone (i : nat) (w : ImplWorld) : ImplWorld :=
  mkImpls (delete i (iw_objs w)) (iw_next w) (iw_now w) (iw_phone w) (iw_headset w) (iw_glasses w).
Definition make_obj (o : Obj) (w : ImplWorld) : option nat * ImplWorld :=
  (Some (iw_next w), mkImpls (<[iw_next w := o]> (iw_objs w)) (Datatypes.S (iw_next w)) (iw_now w) (iw_phone w) (iw_headset w) (iw_glasses w)).
Definition told {E} (m m' : ModuleStates Body E) : Notes := drop (length (notified m)) (notified m').

Definition obj_Handle (now : Z) (msg : StateMsg Body) (o : Obj) : option (Reply * Obj) :=
  match o with
  | OPhone m => '(r, m') ← WK_Handle now msg m; Some (mkReply r (wk_data (own (env m'))) (wk_str (own (env m'))) (told m m'), OPhone m')
  | OHeadset m => '(r, m') ← HS_Handle now msg m; Some (mkReply r (hs_data (own (env m'))) [] (told m m'), OHeadset m')
  | OGlasses m => '(r, m') ← GL_Handle now msg m; Some (mkReply r (gl_data (own (env m'))) [] (told m m'), OGlasses m')
  end.
Definition obj_OnTriggerDetected (now uuid : Z) (d : WakeupDeviceDetail) (event : EventDetail) (o : Obj) : option (Notes * Obj) :=
  match o with
  | OPhone m => m' ← WK_OnTriggerDetected now uuid (d_macAddress d) (d_parameters d) m; Some (told m m', OPhone m')
  | OHeadset m => m' ← HS_OnTriggerDetected now d (endFrameIndex event) m; Some (told m m', OHeadset m')
  | OGlasses m => m' ← GL_OnTriggerDetected now d (endFrameIndex event) m; Some (told m m', OGlasses m')
  end.
(** The phone's has the [Destroy] of [BaseWakeupEngineImpl]. *)
Definition obj_Destroy (now : Z) (o : Obj) : option Notes :=
  match o with
  | OPhone m => Some []
  | OHeadset m => '(_, m') ← HS_Destroy now m; Some (told m m')
  | OGlasses m => '(_, m') ← GL_Destroy now m; Some (told m m')
  end.
Inductive obj_own : Obj → Notes → Obj → Prop :=
| oo_phone m m' : own_step m m' → obj_own (OPhone m) (told m m') (OPhone m')
| oo_headset m m' : own_step m m' → obj_own (OHeadset m) (told m m') (OHeadset m')
| oo_glasses m m' : own_step m m' → obj_own (OGlasses m) (told m m') (OGlasses m').

#[export] Instance machine_impls : WakeupImpls ImplWorld := {|
  wi_Create k w :=
    if k =? PHONE then make_obj (OPhone (WK_Create true (iw_phone w))) w
    else if k =? HEADSET then let '(ok, m) := HS_Create true (iw_headset w) in if ok then make_obj (OHeadset m) w else (None, w)
    else if k =? AI_GLASSES then make_obj (OGlasses (gl_made true (iw_glasses w))) w
    else (None, w);
  wi_Handle i msg w := o ← iw_objs w !! i; '(r, o') ← obj_Handle (iw_now w) msg o; Some (r, put i o' w);
  wi_OnTriggerDetected i uuid d event w :=
    o ← iw_objs w !! i; '(ns, o') ← obj_OnTriggerDetected (iw_now w) uuid d event o; Some (ns, put i o' w);
  wi_Destroy i w := o ← iw_objs w !! i; ns ← obj_Destroy (iw_now w) o; Some (ns, gone i w);
  wi_own i w ns w' := ∃ o o', iw_objs w !! i = Some o ∧ obj_own o ns o' ∧ w' = put i o' w |}.

(** *** Their invariant *)

Definition phone_created (m0 : ModuleStates Body EP) : Prop := ∃ l e, m0 = WK_Create l e.
Definition headset_created (m0 : ModuleStates Body EH) : Prop := ∃ l e, m0 = hs_made l e.
Definition glasses_created (m0 : ModuleStates Body EG) : Prop := ∃ l e, m0 = gl_made l e.
Definition phone_procs (p : Z) : Prop := p = PROCESS_IDLE ∨ p = PROCESS_WAKEUP_PHONE ∨ p = PROCESS_WISPHER_PHONE.
Definition obj_ok (o : Obj) : Prop :=
  match o with
  | OPhone m => obj_wf phone_created phone_procs m
  | OHeadset m => obj_wf headset_created (eq PROCESS_WAKEUP_HEADSET) m
  | OGlasses m => obj_wf glasses_created (eq PROCESS_WAKEUP_GLASSES) m
  end.
Definition obj_view (o : Obj) : IView :=
  match o with
  | OPhone m => mkView PHONE (CurrState m) (processType_ m)
  | OHeadset m => mkView HEADSET (CurrState m) (processType_ m)
  | OGlasses m => mkView AI_GLASSES (CurrState m) (processType_ m)
  end.
Definition world_ok (w : ImplWorld) : Prop :=
  (∀ i o, iw_objs w !! i = Some o → obj_ok o ∧ (i < iw_next w)%nat).
Definition world_view (i : nat) (w : ImplWorld) : IView := default (mkView 0 0 0) (obj_view <$> iw_objs w !! i).
Definition world_objs (w : ImplWorld) : gset nat := dom (iw_objs w).

Lemma phone_tame' m0 : phone_created m0 → tame INITIALIZED START_RECOGNIZE m0.
Proof. intros (l & e & ->). apply phone_tame. Qed.
Lemma headset_tame' m0 : headset_created m0 → tame INITIALIZED START_RECOGNIZE m0.
Proof. intros (l & e & ->). apply headset_tame. Qed.
Lemma glasses_tame' m0 : glasses_created m0 → tame INITIALIZED START_RECOGNIZE m0.
Proof. intros (l & e & ->). apply glasses_tame. Qed.
Lemma told_went {E} (m m' : ModuleStates Body E) ns : went m m' ns → told m m' = ns.
Proof. intros Hw. unfold told. rewrite (wt_notified _ _ _ Hw). apply drop_app_length. Qed.

(** What an object does is what its implementation does in the world. *)
Definition obj_moved (o : Obj) (ns : Notes) (o' : Obj) : Prop :=
  obj_ok o' ∧ iv_kind (obj_view o') = iv_kind (obj_view o) ∧
  iv_state (obj_view o') = last_state (iv_state (obj_view o)) ns ∧ told_as (iv_proc (obj_view o')) ns.
Definition obj_calmly (o : Obj) (ns : Notes) (o' : Obj) : Prop :=
  obj_moved o ns o' ∧ iv_proc (obj_view o') = iv_proc (obj_view o) ∧ calm (obj_view o) ns.
Lemma put_moved i o ns o' w : world_ok w → iw_objs w !! i = Some o → obj_moved o ns o' →
  moved world_ok world_objs world_view i ns w (put i o' w).
Proof.
  intros Hw Hi (H1 & H2 & H3 & H4). constructor; unfold world_view; cbn; rewrite ?lookup_insert_eq, ?Hi; cbn; try done.
  - intros j oj. cbn. intros [[<- <-]|[Hne Hj]]%lookup_insert_Some; [split; [done|by destruct (Hw i o Hi)]|by apply Hw].
  - unfold world_objs. cbn. rewrite dom_insert_L. assert (i ∈ dom (iw_objs w)) by (by apply elem_of_dom; exists o). set_solver.
  - intros j _ Hne. by rewrite lookup_insert_ne.
Qed.
Lemma put_calmly i o ns o' w : world_ok w → iw_objs w !! i = Some o → obj_calmly o ns o' →
  moved_calmly world_ok world_objs world_view i ns w (put i o' w).
Proof.
  intros Hw Hi (H1 & H2 & H3). split; [by apply (put_moved i o)|]. unfold world_view. cbn. rewrite lookup_insert_eq, Hi. by split.
Qed.

(** *** The laws *)

Lemma obj_Handle_calmly now msg o : obj_ok o → msgId msg ≠ START_RECOGNIZE →
  ∃ r o', obj_Handle now msg o = Some (r, o') ∧ obj_calmly o (rp_notes r) o'.
Proof.
  intros Ho Hmsg. destruct o as [m|m|m]; cbn [obj_Handle obj_ok] in *.
  - destruct (wf_guarded _ _ phone_tame' now msg m Ho) as (r & m' & ns & E1 & _ & Hw & Hq). destruct (Hq Hmsg) as (H1 & H2 & H3).
    change (WK_Handle now msg m) with (guarded now msg m). rewrite E1. cbn. eexists _, _. split; [done|]. cbn. rewrite (told_went _ _ _ Hw).
    split; [|by split; [apply Hw|]]. by split_and!; [done|done|apply Hw|].
  - destruct (wf_guarded _ _ headset_tame' now msg m Ho) as (r & m' & ns & E1 & _ & Hw & Hq). destruct (Hq Hmsg) as (H1 & H2 & H3).
    change (HS_Handle now msg m) with (guarded now msg m). rewrite E1. cbn. eexists _, _. split; [done|]. cbn. rewrite (told_went _ _ _ Hw).
    split; [|by split; [apply Hw|]]. by split_and!; [done|done|apply Hw|].
  - destruct (wf_guarded _ _ glasses_tame' now msg m Ho) as (r & m' & ns & E1 & _ & Hw & Hq). destruct (Hq Hmsg) as (H1 & H2 & H3).
    change (GL_Handle now msg m) with (guarded now msg m). rewrite E1. cbn. eexists _, _. split; [done|]. cbn. rewrite (told_went _ _ _ Hw).
    split; [|by split; [apply Hw|]]. by split_and!; [done|done|apply Hw|].
Qed.
Lemma obj_own_calmly o ns o' : obj_ok o → obj_own o ns o' → obj_calmly o ns o'.
Proof.
  intros Ho Hown. destruct Hown as [m m' H0|m m' H0|m m' H0]; cbn [obj_ok] in Ho.
  - destruct (wf_own _ _ phone_tame' _ _ Ho H0) as (ns & Hw & H1 & H2 & H3). rewrite (told_went _ _ _ Hw).
    split; [by split_and!; [done|done|apply Hw|]|by split; [apply Hw|]].
  - destruct (wf_own _ _ headset_tame' _ _ Ho H0) as (ns & Hw & H1 & H2 & H3). rewrite (told_went _ _ _ Hw).
    split; [by split_and!; [done|done|apply Hw|]|by split; [apply Hw|]].
  - destruct (wf_own _ _ glasses_tame' _ _ Ho H0) as (ns & Hw & H1 & H2 & H3). rewrite (told_went _ _ _ Hw).
    split; [by split_and!; [done|done|apply Hw|]|by split; [apply Hw|]].
Qed.
Lemma with_env_snd {E B} (c : St E B) (m : ModuleStates Body E) : (with_env c m).2 = m <| env := (c (env m)).2 |>.
Proof. unfold with_env. by destruct (c (env m)). Qed.
Lemma obj_detected_moved now uuid d event o : obj_ok o →
  ∃ ns o', obj_OnTriggerDetected now uuid d event o = Some (ns, o') ∧ obj_moved o ns o'.
Proof.
  intros Ho. destruct o as [m|m|m]; cbn [obj_OnTriggerDetected obj_ok] in *.
  - unfold WK_OnTriggerDetected.
    assert (∃ ev p, GetEventValue uuid m = (ev, SetProcessType p m) ∧ phone_procs p ∧ p ≠ PROCESS_IDLE) as (ev & p & -> & Hp & Hne).
    { unfold GetEventValue, phone_procs. destruct (_ =? _); do 2 eexists; (split; [done|]); by split; [auto|]. }
    rewrite with_env_snd. match goal with |- context [SetProcessType p m <| env := ?e |>] =>
      destruct (wf_detects _ _ phone_tame' now (mkStateMsg START_RECOGNIZE (Some (BInt uuid))) e _ (wf_process _ _ p m Ho Hp Hne) Hne)
        as (r & m3 & ns & E1 & Hall) end.
    change (WK_Handle now) with (guarded (E := EP) now). rewrite E1. cbn [mbind option_bind].
    match goal with |- context [OPhone ?x] => destruct (Hall x) as (Hw & H1 & H2) end.
    { destruct (r =? 0); [by left|right; rewrite with_env_snd; by eexists]. }
    eexists ns, (OPhone _). split; [by rewrite <- (told_went _ _ _ Hw)|]. by split_and!; [exact H1|done|apply (wt_state _ _ _ Hw)|].
  - unfold HS_OnTriggerDetected. rewrite with_env_snd.
    assert (processType_ m ≠ PROCESS_IDLE) as Hne by (by rewrite <- (ow_procs _ _ _ Ho)).
    match goal with |- context [m <| env := ?e |>] =>
      destruct (wf_detects _ _ headset_tame' now (mkStateMsg START_RECOGNIZE None) e _ Ho Hne) as (r & m3 & ns & E1 & Hall) end.
    cbv zeta. change (HS_Handle now) with (guarded (E := EH) now). rewrite E1. cbn [fmap option_fmap option_map mbind option_bind snd].
    destruct (Hall m3) as (Hw & H1 & H2); [by left|].
    eexists ns, (OHeadset m3). split; [by rewrite <- (told_went _ _ _ Hw)|]. by split_and!; [exact H1|done|apply (wt_state _ _ _ Hw)|].
  - unfold GL_OnTriggerDetected. rewrite with_env_snd.
    assert (processType_ m ≠ PROCESS_IDLE) as Hne by (by rewrite <- (ow_procs _ _ _ Ho)).
    match goal with |- context [m <| env := ?e |>] =>
      destruct (wf_detects _ _ glasses_tame' now (mkStateMsg START_RECOGNIZE None) e _ Ho Hne) as (r & m3 & ns & E1 & Hall) end.
    cbv zeta. change (GL_Handle now) with (guarded (E := EG) now). rewrite E1. cbn [fmap option_fmap option_map mbind option_bind snd].
    destruct (Hall m3) as (Hw & H1 & H2); [by left|].
    eexists ns, (OGlasses m3). split; [by rewrite <- (told_went _ _ _ Hw)|]. by split_and!; [exact H1|done|apply (wt_state _ _ _ Hw)|].
Qed.
Lemma released {E} created procs (Htame : ∀ m0, created m0 → tame INITIALIZED START_RECOGNIZE m0)
    (Hres : ∀ m0, created m0 → resets INITIALIZED RELEASE IDLE m0) now (m : ModuleStates Body E) :
  obj_wf created procs m →
  ∃ r m1 ns, guarded now (mkStateMsg RELEASE None) m = Some (r, m1) ∧ ∀ B (c : St E B), told m (with_env c m1).2 = ns ∧
    last_state (CurrState m) ns ≤ INITIALIZED ∧ told_as (processType_ m) ns.
Proof.
  intros Hw. destruct (wf_guarded _ _ Htame now (mkStateMsg RELEASE None) m Hw) as (r & m1 & ns & E1 & E2 & Hwent & Hq).
  destruct Hq as (_ & H2 & _); [done|]. pose proof Hw as [W1 _ _ (m0 & Hm0 & Hsh) _ _].
  exists r, m1, ns. split; [done|]. intros B c. split; [rewrite with_env_snd; exact (told_went m m1 ns Hwent)|]. split.
  - by apply (resets_msg m0 INITIALIZED IDLE now (mkStateMsg RELEASE None) m r m1 ns W1 Hsh (Hres m0 Hm0) E2 Hwent).
  - by rewrite <- (wt_proc _ _ _ Hwent).
Qed.
Lemma obj_Destroy_ends now o : obj_ok o → iv_kind (obj_view o) ≠ PHONE →
  ∃ ns, obj_Destroy now o = Some ns ∧ last_state (iv_state (obj_view o)) ns ≤ INITIALIZED ∧ told_as (iv_proc (obj_view o)) ns.
Proof.
  intros Ho Hk. destruct o as [m|m|m]; [done|..]; cbn [obj_Destroy obj_ok obj_view iv_state iv_proc] in *.
  - destruct (released _ _ headset_tame' (λ m0 '(ex_intro _ l (ex_intro _ e Hm)), eq_ind_r _ (headset_resets l e) Hm) now m Ho)
      as (r & m1 & ns & E1 & Hall).
    unfold HS_Destroy. change (HS_Handle now) with (guarded (E := EH) now). rewrite E1. cbn [mbind option_bind].
    match goal with |- context [with_env ?c m1] => destruct (Hall _ c) as (H1 & H2 & H3); destruct (with_env c m1) as [b m'] end.
    cbn [snd] in H1. exists ns. by rewrite H1.
  - destruct (released _ _ glasses_tame' (λ m0 '(ex_intro _ l (ex_intro _ e Hm)), eq_ind_r _ (glasses_resets l e) Hm) now m Ho)
      as (r & m1 & ns & E1 & Hall).
    unfold GL_Destroy. change (GL_Handle now) with (guarded (E := EG) now). rewrite E1. cbn [mbind option_bind].
    match goal with |- context [with_env ?c m1] => destruct (Hall _ c) as (H1 & H2 & H3); destruct (with_env c m1) as [b m'] end.
    cbn [snd] in H1. exists ns. by rewrite H1.
Qed.
Lemma fresh_wf {E} created procs (m : ModuleStates Body E) p :
  created m → configured m → (isInitSucc_ m, hasListener m, processType_ m, currState_ m) = (true, true, p, Some IDLE) → procs p →
  obj_wf created procs m.
Proof.
  intros Hc Hcf Hf Hp. injection Hf as H1 H2 H3 H4. constructor; [done|done|done|by exists m|by rewrite H3|].
  unfold CurrState. rewrite H4. cbn. unfold INITIALIZED, IDLE. lia.
Qed.

Lemma elem_world i w : i ∈ world_objs w → ∃ o, iw_objs w !! i = Some o.
Proof. unfold world_objs. intros Hi. by apply elem_of_dom in Hi. Qed.
Lemma world_procs i w : world_ok w → i ∈ world_objs w → procs_ok (world_view i w).
Proof.
  intros Hw [o Ho]%elem_world. destruct (Hw i o Ho) as [Hok _]. unfold world_view. rewrite Ho. cbn.
  destruct o as [m|m|m]; destruct Hok as [_ _ _ _ H4 H5]; unfold procs_ok; cbn; by split_and!.
Qed.
Lemma world_make o w : world_ok w → obj_ok o → iv_state (obj_view o) = IDLE →
  let '(i, w') := make_obj o w in
  world_ok w' ∧ (∀ j, j ∈ world_objs w → world_view j w' = world_view j w) ∧
  match i with
  | None => world_objs w' = world_objs w
  | Some i => (i ∉ world_objs w) ∧ world_objs w' = {[i]} ∪ world_objs w ∧
              iv_kind (world_view i w') = iv_kind (obj_view o) ∧ iv_state (world_view i w') = IDLE
  end.
Proof.
  intros Hw Ho Hs. cbn. assert (∀ j, j ∈ world_objs w → (j < iw_next w)%nat) as Hlt by (intros j [oj Hj]%elem_world; by destruct (Hw j oj Hj)).
  unfold world_view, world_objs. cbn. rewrite lookup_insert_eq. split_and!.
  - intros j oj. cbn. intros [[<- <-]|[Hne Hj]]%lookup_insert_Some; [split; [done|lia]|]. destruct (Hw j oj Hj). split; [done|lia].
  - intros j Hj. specialize (Hlt j Hj). rewrite lookup_insert_ne by lia. done.
  - intros Hin. specialize (Hlt _ Hin). lia.
  - by rewrite dom_insert_L.
  - done.
  - done.
Qed.
Lemma curr_state_idle {E} (m : ModuleStates Body E) p :
  (isInitSucc_ m, hasListener m, processType_ m, currState_ m) = (true, true, p, Some IDLE) → CurrState m = IDLE.
Proof. intros Hf. injection Hf as _ _ _ Hc. unfold CurrState. by rewrite Hc. Qed.
Lemma world_Create k w : world_ok w → let '(o, w') := wi_Create k w in
  world_ok w' ∧ (∀ j, j ∈ world_objs w → world_view j w' = world_view j w) ∧
  match o with
  | None => world_objs w' = world_objs w
  | Some i => (i ∉ world_objs w) ∧ world_objs w' = {[i]} ∪ world_objs w ∧ iv_kind (world_view i w') = k ∧ iv_state (world_view i w') = IDLE
  end.
Proof.
  intros Hw. cbn [wi_Create machine_impls].
  destruct (Z.eqb_spec k PHONE) as [->|_].
  { apply (world_make (OPhone _) w Hw); [|by eapply curr_state_idle, wakeup_fields].
    apply (fresh_wf _ _ _ PROCESS_IDLE); [by eexists _, _|apply wakeup_configured|apply wakeup_fields|by left]. }
  destruct (Z.eqb_spec k HEADSET) as [->|_].
  { pose proof (HS_Create_machine true (iw_headset w)) as Hc. destruct (HS_Create true (iw_headset w)) as [[] m]; [|done].
    destruct (Hc eq_refl) as (e' & Hm & _). cbn [snd] in Hm. subst m.
    apply (world_make (OHeadset _) w Hw); [|by eapply curr_state_idle, headset_fields].
    apply (fresh_wf _ _ _ PROCESS_WAKEUP_HEADSET); [by eexists _, _|apply headset_configured|apply headset_fields|done]. }
  destruct (Z.eqb_spec k AI_GLASSES) as [->|_]; [|done].
  apply (world_make (OGlasses _) w Hw); [|by eapply curr_state_idle, glasses_fields].
  apply (fresh_wf _ _ _ PROCESS_WAKEUP_GLASSES); [by eexists _, _|apply glasses_configured|apply glasses_fields|done].
Qed.
#[local] Arguments obj_Handle : simpl never.
#[local] Arguments obj_OnTriggerDetected : simpl never.
#[local] Arguments obj_Destroy : simpl never.
#[local] Arguments wi_Create : simpl never.
#[export] Program Instance machine_laws : WakeupImplsLaws ImplWorld := {|
  wi_ok := world_ok; wi_objs := world_objs; wi_view := world_view;
  wl_procs := world_procs; wl_Create := world_Create |}.
Next Obligation.
  intros i msg w Hw [o Ho]%elem_world Hmsg. destruct (Hw i o Ho) as [Hok _].
  destruct (obj_Handle_calmly (iw_now w) msg o Hok Hmsg) as (r & o' & E & Hm). exists r, (put i o' w).
  cbn. rewrite Ho. cbn. rewrite E. split; [done|by apply (put_calmly i o)].
Qed.
Next Obligation.
  intros i uuid d event w Hw [o Ho]%elem_world. destruct (Hw i o Ho) as [Hok _].
  destruct (obj_detected_moved (iw_now w) uuid d event o Hok) as (ns & o' & E & Hm). exists ns, (put i o' w).
  cbn. rewrite Ho. cbn. rewrite E. split; [done|by apply (put_moved i o)].
Qed.
Next Obligation.
  intros i w Hw [o Ho]%elem_world Hk. destruct (Hw i o Ho) as [Hok _]. unfold world_view in *. rewrite Ho in *. cbn in Hk.
  destruct (obj_Destroy_ends (iw_now w) o Hok Hk) as (ns & E & H1 & H2). exists ns, (gone i w).
  cbn. rewrite Ho. cbn. rewrite E. split_and!; [done| | | |done|done].
  - intros j oj. cbn. intros [_ Hj]%lookup_delete_Some. by apply Hw.
  - unfold world_objs. cbn. by rewrite dom_delete_L.
  - intros j _ Hne. by rewrite lookup_delete_ne.
Qed.
Next Obligation.
  intros i ns w w' Hw _ (o & o' & Ho & Hown & ->). destruct (Hw i o Ho) as [Hok _]. apply (put_calmly i o); [done|done|].
  by apply obj_own_calmly.
Qed.
End impls.

(** ** The properties of the facade *)

Section facade.
Context {W T D : Type} `{!WakeupImpls W} `{!WakeupImplsLaws W}.
Implicit Types s : Sys (Facade W) T D.

Lemma ok_tracks s : facade_ok s → ∃ L, tracks L (own s) ∧ ∀ i, is_Some (L !! i) ↔ live (own s) i.
Proof. intros (d & u & L & dv & cb & Hh & Ht & Hr). exists L. split; [done|]. intros i. by apply (has_live _ d u L dv cb). Qed.

(** C11: from the end of a successful [Init], whatever the service, the device manager and the
    threads of the implementations do, at most one of the facade's implementations is
    processing a wakeup; [ProcessCheck] says whether one is, and then [curState_] and
    [curProcess_] are the state and the process type of that one. *)
Theorem one_process_at_a_time w dev t db ts os n s0 s
    (Hw : wi_ok w) (Hi : F_Init (mkSys (new_facade w dev) t db ts os n) = Some (true, s0)) (Hr : rtc fstep s0 s) :
  let f := own s in
  if ProcessCheck f then ∀ i, live f i → state_of i (fc_impls f) ≤ INITIALIZED
  else ∃ i, live f i ∧ INITIALIZED < state_of i (fc_impls f) ∧ curState_ f = state_of i (fc_impls f) ∧
            curProcess_ f = proc_of i (fc_impls f) ∧
            ∀ j, live f j → j ≠ i → state_of j (fc_impls f) ≤ INITIALIZED.
Proof.
  destruct (ok_tracks s (initialised_ok _ _ _ _ _ _ _ _ _ Hw Hi Hr)) as (L & [_ _ _ Hin Hout] & HL). cbv zeta.
  unfold ProcessCheck. destruct (Z.ltb_spec INITIALIZED (curState_ (own s))) as [Hc|Hc]; cbn [negb].
  - destruct (Hin Hc) as (i & Hi' & E1 & E2 & Ho). exists i. rewrite E1, E2. split_and!; [by apply HL|done..|].
    intros j Hj. by apply Ho, HL.
  - intros i Hl. by apply Hout, HL.
Qed.

(** C28: after a successful [Init] no operation of the facade dereferences a null pointer:
    every message, detection, callback and change of device returns. *)
Theorem facade_never_crashes w dev t db ts os n s0 s
    (Hw : wi_ok w) (Hi : F_Init (mkSys (new_facade w dev) t db ts os n) = Some (true, s0)) (Hr : rtc fstep s0 s) :
  (∀ msg, msgId msg ∈ sent → is_Some (F_Handle msg s)) ∧
  (∀ uuid mac event, is_Some (F_OnTriggerDetected uuid mac event s)) ∧
  (∀ cb, is_Some (F_SaveCallback cb s)) ∧ (∀ info, is_Some (F_UpdateWakeupEngineImpl info s)).
Proof.
  pose proof (initialised_ok _ _ _ _ _ _ _ _ _ Hw Hi Hr) as Hok.
  split_and!; intros *; [intros Hm%sent_not_start; destruct (F_Handle_ok msg Hm s Hok) as (? & ? & E & _)
    |destruct (F_OnTriggerDetected_ok uuid mac event s Hok) as (? & ? & E & _)
    |destruct (F_SaveCallback_ok cb s Hok) as (? & ? & E & _)|destruct (F_UpdateWakeupEngineImpl_ok info s Hok) as (? & ? & E & _)];
    rewrite E; by eexists.
Qed.

(** While an implementation is processing a wakeup a second detection, of any device, is
    refused with [WAKEUP_PROCESSING], and no implementation hears of it. *)
Theorem second_detection_refused w dev t db ts os n s0 s i uuid mac event
    (Hw : wi_ok w) (Hi : F_Init (mkSys (new_facade w dev) t db ts os n) = Some (true, s0)) (Hr : rtc fstep s0 s)
    (Hl : live (own s) i) (Hp : INITIALIZED < state_of i (fc_impls (own s))) :
  ∃ s', F_OnTriggerDetected uuid mac event s = Some (WAKEUP_PROCESSING, s') ∧ own s' = own s.
Proof.
  destruct (ok_tracks s (initialised_ok _ _ _ _ _ _ _ _ _ Hw Hi Hr)) as (L & [_ _ _ Hin Hout] & HL).
  assert (ProcessCheck (own s) = false) as Hc.
  { unfold ProcessCheck. destruct (Z.ltb_spec INITIALIZED (curState_ (own s))) as [|Hc]; [done|].
    pose proof (Hout Hc i (proj2 (HL i) Hl)). lia. }
  unfold F_OnTriggerDetected, mbind, fx_bind, fx. cbn. rewrite Hc. cbn.
  unfold fx_when, close_wakeup_source, fx, AddAsyncTask. destruct (bool_decide _); cbn; [|by eexists].
  eexists. split; [done|]. by destruct (_ <? _).
Qed.
End facade.

(** ** Concrete runs *)

Abbreviation RefWakeup := (WakeupEngineImpl RefHal RefFw).
Abbreviation RefWorld := (ImplWorld (H := RefHal) (A := RefFw) (L := list (list Z * bool)) (L' := list (list Z))
  (F := list (str * list Z)) (T := gmap string str) (D := gmap string str)).
Definition ref_world : RefWorld := mkImpls ∅ 0 5
  (mkSys (new_wakeup 9 ref_hw (mkRefFw 0 false [])) ∅ (Some ∅) [] [] 0)
  (mkSys (new_headset 9 ref_hw [([1; 2], true); ([3; 4], false)] []) ∅ (Some ∅) [] [] 0)
  (mkSys (new_glasses [[1; 2]; [3; 4]] []) ∅ (Some ∅) [] [] 0).
Abbreviation RefFacade := (Sys (Facade RefWorld) (gmap string str) (gmap string str)).
Definition ref_facade : RefFacade := mkSys (new_facade ref_world InitDefaultDevice) ∅ (Some ∅) [] [] 0.
Lemma ref_world_ok : wi_ok ref_world.
Proof. intros i o. cbn. by rewrite lookup_empty. Qed.
Definition my_glasses : WakeupDeviceDetail := mkDetail 7 AI_GLASSES (lit "svc") (lit "mac") true [] [].
(** Glasses become the wakeup device and detect a wakeup, which they are asked to confirm. *)
Definition glasses_run : option RefFacade :=
  '(_, s) ← F_Init ref_facade;
  '(_, s) ← F_UpdateWakeupEngineImpl my_glasses s;
  '(_, s) ← WE_NotifyDeviceWakeupEvent (lit "mac") (mkEventDetail 0 3) s;
  Some s.
Example glasses_processing :
  match glasses_run with
  | Some s => curState_ (own s) = RECOGNIZING ∧ curProcess_ (own s) = PROCESS_WAKEUP_GLASSES
  | None => False
  end.
Proof. by vm_compute. Qed.

Lemma glasses_reached :
  ∃ (s0 s : RefFacade), F_Init ref_facade = Some (true, s0) ∧ rtc fstep s0 s ∧ wakeupImpl_ (own s) = Some 1%nat ∧
    INITIALIZED < state_of 1 (fc_impls (own s)).
Proof.
  assert (match F_Init ref_facade with
    | Some (ok, s0) => ok && match F_UpdateWakeupEngineImpl my_glasses s0 with
      | Some (_, s1) => match WE_NotifyDeviceWakeupEvent (lit "mac") (mkEventDetail 0 3) s1 with
        | Some (_, s) => bool_decide (wakeupImpl_ (own s) = Some 1%nat) && (INITIALIZED <? state_of 1 (fc_impls (own s)))
        | None => false end
      | None => false end
    | None => false end = true) as Hb by by vm_compute.
  destruct (F_Init ref_facade) as [[ok s0]|] eqn:E0; [|done]. apply andb_true_iff in Hb as [-> Hb].
  destruct (F_UpdateWakeupEngineImpl my_glasses s0) as [[r1 s1]|] eqn:E1; [|done].
  destruct (WE_NotifyDeviceWakeupEvent _ _ s1) as [[r2 s]|] eqn:E2; [|done].
  apply andb_true_iff in Hb as [H1%bool_decide_eq_true H2%Z.ltb_lt]. refine (ex_intro _ s0 (ex_intro _ s (conj eq_refl (conj _ (conj H1 H2))))).
  exact (rtc_l _ _ _ _ (fs_device _ _ _ _ E1) (rtc_once _ _ (fs_device_event _ _ _ _ _ E2))).
Qed.
Lemma one_process_at_a_time_witness :
  ∃ s : RefFacade, ProcessCheck (own s) = false ∧ curState_ (own s) = state_of 1 (fc_impls (own s)).
Proof.
  destruct glasses_reached as (s0 & s & Hi & Hr & Hw & Hs). exists s.
  pose proof (one_process_at_a_time ref_world InitDefaultDevice ∅ (Some ∅) [] [] 0 s0 s ref_world_ok Hi Hr) as H.
  cbv zeta in H. destruct (ProcessCheck (own s)).
  - specialize (H 1%nat (or_intror Hw)). lia.
  - split; [done|]. destruct H as (i & _ & _ & E & _ & Ho). destruct (decide (i = 1%nat)) as [->|Hne]; [done|].
    specialize (Ho 1%nat (or_intror Hw) (not_eq_sym Hne)). lia.
Defined.
Lemma release_sent : RELEASE ∈ sent.
Proof. unfold sent. do 3 right. left. Qed.
Lemma facade_never_crashes_witness :
  ∃ s : RefFacade, is_Some (F_Handle (mkStateMsg RELEASE None) s) ∧ is_Some (F_OnTriggerDetected 1 (lit "mac") (mkEventDetail 0 3) s).
Proof.
  destruct glasses_reached as (s0 & s & Hi & Hr & _ & _). exists s.
  destruct (facade_never_crashes ref_world InitDefaultDevice ∅ (Some ∅) [] [] 0 s0 s ref_world_ok Hi Hr) as (H1 & H2 & _).
  exact (conj (H1 (mkStateMsg RELEASE None) release_sent) (H2 1 (lit "mac") (mkEventDetail 0 3))).
Defined.
Lemma second_detection_refused_witness :
  ∃ s s' : RefFacade, F_OnTriggerDetected 1 (lit "mac") (mkEventDetail 0 3) s = Some (WAKEUP_PROCESSING, s') ∧ own s' = own s.
Proof.
  destruct glasses_reached as (s0 & s & Hi & Hr & Hw & Hs). exists s.
  exact (second_detection_refused ref_world InitDefaultDevice ∅ (Some ∅) [] [] 0 s0 s 1 1 (lit "mac") (mkEventDetail 0 3)
    ref_world_ok Hi Hr (or_intror Hw) Hs).
Defined.

(** The messages of a process in the phone go to the device that came meanwhile: a client
    that was told of a wakeup of the phone cannot read its audio. *)
Definition phone_turn (msg : StateMsg Body) (s : RefFacade) : option RefFacade :=
  o ← iw_objs (fc_impls (own s)) !! 0%nat;
  match o with
  | OPhone m => '(_, m') ← HandleMsg 6 msg m;
                Some (s <| own ::= λ f, hear (told m m') (f <| fc_impls := put 0 (OPhone m') (fc_impls f) |>) |>)
  | _ => None
  end.
Definition lost_process : option (Z * Z * RefFacade) :=
  '(_, s) ← F_Init ref_facade;
  s ← phone_turn (mkStateMsg INIT_DONE (Some (BInt 0))) s;
  '(_, s) ← WE_OnDetected VOICE_WAKEUP_MODEL_UUID s;
  s ← phone_turn (mkStateMsg RECOGNIZE_COMPLETE (Some (BEvent (mkEvent 4 0 [])))) s;
  '(r1, _) ← WE_StartCapturer 1 s;
  '(_, s) ← F_UpdateWakeupEngineImpl my_glasses s;
  '(r2, s) ← WE_StartCapturer 1 s;
  Some (r1, r2, s).
Example process_lost_to_new_device :
  match lost_process with
  | Some (r1, r2, s) => r1 = 0 ∧ r2 = NO_PROCESS_RET ∧ state_of 0 (fc_impls (own s)) = RECOGNIZED ∧
                        curState_ (own s) = RECOGNIZED ∧ curProcess_ (own s) = PROCESS_WAKEUP_PHONE
  | None => False
  end.
Proof. by vm_compute. Qed.

(** [ResetAdapter] answers for the device's implementation only, and always succeeds when
    there is no other device, whatever the phone's answered. *)
Definition reset_twice : option (bool * Z) :=
  '(_, s) ← F_Init ref_facade;
  '(r, _) ← (d ← fx (getc defaultImpl_); deref d (λ i, impl_Handle i (mkStateMsg RESET_ADAPTER None))) s;
  '(ok, _) ← WE_ResetAdapter s;
  Some (ok, r).
Example reset_ignores_the_phone : reset_twice = Some (true, NO_PROCESS_RET).
Proof. by vm_compute. Qed.
