(* ===== verification/EngineManager.v ===== *)
(** * Arbitration and the engine manager

    [manager/intell_voice_engine_arbitration.cpp] and
    [manager/intell_voice_engine_manager.cpp]: which engines exist, how the creation
    of one acts on the others, the updates (the manager is the [UpdateHost] of
    [UpdateController.v]), parameters, upload and clone files, death recipients.  The
    engines themselves are the class [EngineOps]: the virtual members of [EngineBase]
    the manager calls.  Members that hold [engineOpMutex_] or [deathMutex_] for their
    body are one step. *)

From S2P Require Import Prelude StringUtil Settings EngineTypes UpdateController EngineUtil DeviceManager.

(** ** The engines the manager calls *)

(** [EngineFactory::CreateEngineInst] and the members of [EngineBase], on an engine
    named by a number. *)
Class EngineOps (W T D : Type) := {
  eo_CreateEngineInst : Z → str → bool → St (Sys W T D) (option nat);
  eo_Stop : nat → St (Sys W T D) Z;
  eo_Detach : nat → St (Sys W T D) Z;
  eo_ReleaseAdapter : nat → St (Sys W T D) unit;
  eo_ResetAdapter : nat → St (Sys W T D) bool;
  eo_SetParameter : nat → str → St (Sys W T D) Z;
  eo_SetCallback : nat → option nat → St (Sys W T D) unit;
  eo_OnDetected : nat → Z → St (Sys W T D) unit }.

(** [engines_], the static [g_enrollResult], and the world the engines live in. *)
Record Engines (W : Type) := mkEngines { engines_ : gmap Z nat; g_enrollResult : gmap Z bool; world : W }.
Arguments mkEngines {W} _ _ _.
Arguments engines_ {W} _.
Arguments g_enrollResult {W} _.
Arguments world {W} _.
#[global] Instance Engines_eta W : Eta (Engines W) := λ e, mkEngines (engines_ e) (g_enrollResult e) (world e).
#[global] Instance world_lens W : Lens (Engines W) W := {| view := world; set := λ w e, e <| world := w |> |}.
#[global] Instance world_lens_laws W : LensLaws (Engines W) W.
Proof. constructor; [done|by intros []|done]. Qed.

(** ** [IntellVoiceEngineArbitration] *)

Inductive EngineRelationType := CONCURRENCY_TYPE | REJECTION_TYPE | PREEMPTION_TYPE | REPLACEMENT_TYPE.
#[global] Instance EngineRelationType_eq_dec : EqDecision EngineRelationType.
Proof. solve_decision. Defined.
Inductive ArbitrationResult := ARBITRATION_OK | ARBITRATION_REJECT.
#[global] Instance ArbitrationResult_eq_dec : EqDecision ArbitrationResult.
Proof. solve_decision. Defined.

Definition engineRelationTbl_ : gmap Z (gmap Z EngineRelationType) :=
  {[ INTELL_VOICE_ENROLL := {[ INTELL_VOICE_WAKEUP := PREEMPTION_TYPE; INTELL_VOICE_UPDATE := REPLACEMENT_TYPE ]};
     INTELL_VOICE_WAKEUP := {[ INTELL_VOICE_ENROLL := CONCURRENCY_TYPE ]};
     INTELL_VOICE_UPDATE := {[ INTELL_VOICE_ENROLL := REJECTION_TYPE ]} ]}.

Section engines.
Context {W T D : Type} `{!EngineOps W T D}.
Abbreviation M := (St (Sys (Engines W) T D)).

(** Pointers in [engines_] are not null. *)
Definition GetEngine (type : Z) (e : Engines W) : option nat := engines_ e !! type.

(** The other engine types that stand in relation [r] to [type], in key order. *)
Definition related (type : Z) (r : EngineRelationType) : list Z :=
  match engineRelationTbl_ !! type with
  | None => []
  | Some rel => filter (λ k, rel !! k = Some r) (map_order rel)
  end.

Definition JudgeRejection (type : Z) (e : Engines W) : bool :=
  existsb (λ k, match GetEngine k e with Some _ => true | None => false end) (related type REJECTION_TYPE).

Definition HandlePreemption (type : Z) : M unit :=
  st_for (related type PREEMPTION_TYPE) (λ k,
    engine ← getc (GetEngine k);
    match engine with
    | None => mret false
    | Some engine => _ ← zoom (eo_Stop engine); mret false
    end).

Definition HandleReplace (type : Z) : M unit :=
  st_for (related type REPLACEMENT_TYPE) (λ k,
    engine ← getc (GetEngine k);
    match engine with
    | None => mret false
    | Some engine =>
      _ ← zoom (eo_Detach engine);
      _ ← modc (λ e, e <| engines_ ::= delete k |>);
      mret false
    end).

Definition ApplyArbitration (type : Z) : M ArbitrationResult :=
  reject ← getc (JudgeRejection type);
  if (reject : bool) then mret ARBITRATION_REJECT else
  _ ← HandlePreemption type;
  _ ← HandleReplace type;
  mret ARBITRATION_OK.

(** ** Creating and releasing engines *)

Definition SetEnrollResult (type : Z) (result : bool) : M unit :=
  if (type <? INTELL_VOICE_ENROLL) || (ENGINE_TYPE_BUT <=? type) then mret ()
  else modc (λ e, e <| g_enrollResult ::= <[type := result]> |>).
Definition GetEnrollResult (type : Z) (e : Engines W) : bool :=
  if (type <? INTELL_VOICE_ENROLL) || (ENGINE_TYPE_BUT <=? type) then false
  else default false (g_enrollResult e !! type).

Definition CreateEngineInner (type : Z) (param : str) (reEnroll : bool) : M (option nat) :=
  engine ← getc (GetEngine type);
  match engine with
  | Some engine => mret (Some engine)
  | None =>
    engine ← zoom (eo_CreateEngineInst type param reEnroll);
    _ ← SetEnrollResult type false;
    match engine with
    | None => mret None
    | Some engine => _ ← modc (λ e, e <| engines_ ::= <[type := engine]> |>); mret (Some engine)
    end
  end.

(** The wakeup engine, if there is one. *)
Definition on_wakeup (m : nat → St (Sys W T D) unit) : M unit :=
  engine ← getc (GetEngine INTELL_VOICE_WAKEUP);
  match engine with Some engine => zoom (m engine) | None => mret () end.

Definition CreateEngine (type : Z) (param : str) (reEnroll : bool) : M (option nat) :=
  r ← ApplyArbitration type;
  if bool_decide (r = ARBITRATION_OK) then
    _ ← st_when (negb (type =? INTELL_VOICE_WAKEUP) && negb (type =? INTELL_VOICE_IMPLICIT_ENROLL))
          (on_wakeup eo_ReleaseAdapter);
    CreateEngineInner type param reEnroll
  else mret None.

Definition ReleaseEngineInner (type : Z) : M Z :=
  engine ← getc (GetEngine type);
  match engine with
  | None => mret 0
  | Some engine =>
    _ ← zoom (eo_Detach engine);
    _ ← modc (λ e, e <| engines_ ::= delete type |>);
    mret 0
  end.

Definition CreateOrResetWakeupEngine : M bool :=
  engine ← getc (GetEngine INTELL_VOICE_WAKEUP);
  match engine with
  | Some engine => _ ← zoom (eo_ReleaseAdapter engine); zoom (eo_ResetAdapter engine)
  | None =>
    engine ← CreateEngineInner INTELL_VOICE_WAKEUP [] false;
    mret (match engine with Some _ => true | None => false end)
  end.

Definition ServiceStopProc : M Z :=
  engine ← getc (GetEngine INTELL_VOICE_WAKEUP);
  match engine with
  | None => mret (-1)
  | Some engine => _ ← zoom (eo_Detach engine); mret 0
  end.

Definition EngineOnDetected (uuid : Z) : M unit := on_wakeup (λ engine, eo_OnDetected engine uuid).
Definition ClearWakeupEngineCb : M unit := on_wakeup (λ engine, eo_SetCallback engine None).

Definition ClearImplicitEnrollData (key value : str) : M Z :=
  engine ← CreateEngine INTELL_VOICE_IMPLICIT_ENROLL [] false;
  match engine with
  | None => mret (-1)
  | Some engine => _ ← zoom (eo_SetParameter engine (kv_text key value)); mret 0
  end.

Definition ImplicitEnroll (wakeupInfo : str) (object : option nat) : M Z :=
  engine ← CreateEngine INTELL_VOICE_IMPLICIT_ENROLL [] false;
  match engine with
  | None => mret (-1)
  | Some engine =>
    _ ← zoom (eo_SetCallback engine object);
    _ ← zoom (eo_SetParameter engine (kv_text (lit "start_enroll") wakeupInfo));
    mret 0
  end.

Definition Manager_SetParameter (key value : str) : M Z :=
  if bool_decide (key = lit "clear_data")
     && (bool_decide (value = lit "implicit_enroll_all") || bool_decide (value = lit "implicit_enroll_data"))
  then ClearImplicitEnrollData key value else
  _ ← on_wakeup (λ engine,
        if bool_decide (key = lit "Sensibility") then st_void (eo_SetParameter engine (SENSIBILITY_TEXT ++ value))
        else st_void (eo_SetParameter engine (kv_text key value)));
  mret 0.
End engines.

(** ** [FileReporter::GetReportFiles]

    The random selection: [rs] are the numbers drawn, each at most the last index of
    the directories still to choose from. *)
Fixpoint select_random {A} (rs : list nat) (reportDirs : list A) : list A :=
  match rs with
  | [] => []
  | randomIndex :: rs =>
    match reportDirs !! randomIndex, last reportDirs with
    | Some x, Some y => x :: select_random rs (take (pred (length reportDirs)) (<[randomIndex := y]> reportDirs))
    | _, _ => []
    end
  end.

(** [dirs] is [None] when the directory cannot be read; [info] is [GetFileInfo]. *)
Definition GetReportFiles {A F} (count : Z) (dirs : option (list A)) (rs : list nat) (info : A → option F) : list F :=
  if count <=? 0 then [] else
  match dirs with
  | None => []
  | Some reportDirs =>
    let selectedFiles :=
      if count <? Z.of_nat (length reportDirs) then select_random (take (Z.to_nat count) rs) reportDirs
      else reportDirs in
    omap info selectedFiles
  end.

(** ** [IntellVoiceEngineManager] *)

(** The controller with the engines, the static [screenoff_], the death recipients of
    clients (by engine type) and of device services (by name), and the device manager,
    a singleton. *)
Record Mgr (W : Type) := mkMgr {
  ctl : Ctl (Engines W); screenoff_ : bool;
  deathRecipientObj_ : gmap Z nat; proxyDeathRecipient_ : gmap Z unit;
  serviceDeathRecipientObj_ : gmap str nat; serviceDeathRecipient_ : gmap str unit;
  devices : EngineDeviceManager }.
Arguments mkMgr {W} _ _ _ _ _ _ _.
Arguments devices {W} _.
Arguments ctl {W} _.
Arguments screenoff_ {W} _.
Arguments deathRecipientObj_ {W} _.
Arguments proxyDeathRecipient_ {W} _.
Arguments serviceDeathRecipientObj_ {W} _.
Arguments serviceDeathRecipient_ {W} _.
#[global] Instance Mgr_eta W : Eta (Mgr W) :=
  λ m, mkMgr (ctl m) (screenoff_ m) (deathRecipientObj_ m) (proxyDeathRecipient_ m)
         (serviceDeathRecipientObj_ m) (serviceDeathRecipient_ m) (devices m).
#[global] Instance ctl_lens W : Lens (Mgr W) (Ctl (Engines W)) :=
  {| view := ctl; set := λ c m, m <| ctl := c |> |}.
#[global] Instance ctl_lens_laws W : LensLaws (Mgr W) (Ctl (Engines W)).
Proof. constructor; [done|by intros []|done]. Qed.
#[global] Instance mgr_engines_lens W : Lens (Mgr W) (Engines W) :=
  {| view m := rest (ctl m); set := λ e m, m <| ctl ::= λ c, c <| rest := e |> |> |}.
#[global] Instance mgr_engines_lens_laws W : LensLaws (Mgr W) (Engines W).
Proof. constructor; [done|by intros [[]]|done]. Qed.
Definition init_mgr {JL : JsonLib} {W} (w : W) : Mgr W :=
  mkMgr (init_ctl (mkEngines ∅ ∅ w)) false ∅ ∅ ∅ ∅ InitDefaultDevice.
Definition mgr_engines {W} (m : Mgr W) : Engines W := rest (ctl m).

Definition VENDOR_UPLOAD_NUM : Z := 2.
Definition UPLOAD_NUM_MAX : Z := 100.
Definition XIAOYIXIAOYI : str := lit "小艺小艺".
Definition LANGUAGE_TYPE_CHN : str := lit "zh".
Definition WAKEUP_FILE_PATH_PREFIX : str := lit "/data/service/el0/intelligent_voice/wakeup".
Definition PARENT_PATH_PREFIX : str := lit "../".

Section manager.
Context {H W T D : Type} `{!EngineHal H} `{!TriggerPort T} `{!KvStore D} {JL : JsonLib} {PL : Platform}.
Context `{!Lens W (Hw H)} `{!EngineOps W T D}.

(** The virtual members of the controller; [ReleaseUpdateEngine] sends [RELEASE_ENGINE]
    to the service manager, which calls [ReleaseEngineInner]. *)
#[global] Instance manager_host : UpdateHost (Engines W) T D := {|
  CreateUpdateEngine param reEnroll :=
    updateEngine ← CreateEngine INTELL_VOICE_UPDATE param reEnroll;
    mret (match updateEngine with Some _ => true | None => false end);
  ReleaseUpdateEngine := st_void (ReleaseEngineInner INTELL_VOICE_UPDATE);
  WakeupSourceFilesList e := Host_GetWakeupSourceFilesList (view (world e)) |}.

Abbreviation M := (St (Sys (Mgr W) T D)).
Definition on_engines {A} (m : St (Sys (Engines W) T D) A) : M A := zoom m.
Definition on_ctl {A} (m : St (Sys (Ctl (Engines W)) T D) A) : M A := zoom m.
Definition on_host {A} (m : St (Hw H) A) : M A := λ s,
  let '(a, w) := m (view (world (mgr_engines (own s)))) in
  (a, s <| own ::= λ m, m <| ctl ::= λ c, c <| rest ::= λ e, e <| world ::= λ x, set w x |> |> |> |>).

Definition IsEngineExist (type : Z) (m : Mgr W) : bool :=
  match GetEngine type (mgr_engines m) with
  | Some _ => true
  | None => (type =? INTELL_VOICE_UPDATE) && isUpdating_ (ctl m)
  end.
Definition AnyEngineExist (types : list Z) (m : Mgr W) : bool := existsb (λ t, IsEngineExist t m) types.

Definition ClearUserDataInner : M unit :=
  _ ← on_ctl ForceRelease;
  _ ← on_engines (on_wakeup (λ engine, st_void (eo_Detach engine)));
  phrase ← st_gets (λ s, GetStringKVPair KEY_WAKEUP_PHRASE (db s));
  language ← st_gets (λ s, GetStringKVPair KEY_LANGUAGE (db s));
  let wakeupPhrase :=
    if negb (bool_decide (phrase = [])) && bool_decide (language = LANGUAGE_TYPE_CHN)
       && negb (bool_decide (phrase = XIAOYIXIAOYI))
    then lit "Default" else phrase in
  st_void (on_host (Host_ClearUserWakeupData wakeupPhrase)).

(** Updates. *)
Definition CloneUpdate (wakeupInfo : str) (updateCallback : option nat) : M Z :=
  match updateCallback with
  | None => mret (-1)
  | Some cb =>
    if bool_decide (wakeupInfo = []) then mret (-1)
    else on_ctl (CreateUpdateEngineUntilTime (Some (CloneUpdateStrategy wakeupInfo (Some cb))) false)
  end.
Definition SilenceUpdate : M Z := on_ctl (CreateUpdateEngineUntilTime (Some (SilenceUpdateStrategy [])) false).
Definition WhisperVprUpdate (reEnroll : bool) : M Z :=
  on_ctl (CreateUpdateEngineUntilTime (Some (WhisperUpdateStrategy (lit "WhisperVprUpdate"))) reEnroll).

Definition IsNeedUpdateComplete (result : Z) (param : str) : M bool :=
  isLast ← on_ctl (UpdateCompleteProc result param);
  enroll ← getc (IsEngineExist INTELL_VOICE_ENROLL);
  mret (negb (enroll || negb isLast)).

Definition IsNeedUpdateRetry : M bool :=
  retried ← on_ctl UpdateRetryProc;
  if (retried : bool) then mret false else
  enroll ← getc (IsEngineExist INTELL_VOICE_ENROLL);
  mret (negb enroll).

(** Files. *)
Definition GetUploadFilesFromVendor (numMax : Z) : M (list UploadFile) :=
  if (UPLOAD_NUM_MAX <? numMax) || (numMax <=? 0) then mret [] else
  r ← on_host (Host_GetUploadFiles numMax);
  if negb (r.1 =? 0) then mret [] else mret r.2.
Definition GetUploadFilesFromSystem {A} (dirs : option (list A)) (rs : list nat) (info : A → option UploadFile)
    (numMax : Z) : list UploadFile :=
  if (UPLOAD_NUM_MAX <? numMax) || (numMax <=? 0) then [] else GetReportFiles numMax dirs rs info.
(** [files] is empty at first. *)
Definition GetUploadFiles {A} (dirs : option (list A)) (rs : list nat) (info : A → option UploadFile)
    (numMax : Z) : M (Z * list UploadFile) :=
  vendor ← GetUploadFilesFromVendor (Z.max 0 (numMax - VENDOR_UPLOAD_NUM));
  let files := vendor ++ GetUploadFilesFromSystem dirs rs info (Z.min VENDOR_UPLOAD_NUM numMax) in
  mret (if bool_decide (length files = 0%nat) then -1 else 0, files).

(** The check of [GetWakeupSourceFile] and [SendWakeupFile]. *)
Definition path_ok (filePath : str) : bool :=
  negb ((length filePath <? length WAKEUP_FILE_PATH_PREFIX)%nat
        || negb (bool_decide (take (length WAKEUP_FILE_PATH_PREFIX) filePath = WAKEUP_FILE_PATH_PREFIX))
        || bool_decide (is_Some (find_sub PARENT_PATH_PREFIX filePath))).
Definition GetWakeupSourceFile (filePath : str) : M (Z * list Z) :=
  if negb (path_ok filePath) then mret (-1, []) else on_host (Host_GetWakeupSourceFile filePath).
Definition SendWakeupFile (filePath : str) (buffer : list Z) : M Z :=
  if negb (path_ok filePath) then mret (-1) else on_host (Host_SendWakeupFile filePath buffer).

(** [GetParameter]; [whispering] is what the audio manager reports, if it is there. *)
Definition Manager_GetParameter (whispering : option bool) (key : str) (s : Sys (Mgr W) T D) : str :=
  let e := mgr_engines (own s) in
  if bool_decide (key = lit "isEnrolled") then
    if bool_decide (GetStringKVPair KEY_WAKEUP_VESRION (db s) = []) then lit "false" else lit "true"
  else if bool_decide (key = lit "isNeedReEnroll") then
    let files := Host_GetWakeupSourceFilesList (view (world e)) in
    if IsVersionUpdate (db s) version_line files.1 files.2 then lit "true" else lit "false"
  else if bool_decide (key = lit "isSupportImplicitEnroll") then
    if engineHostProxy1_3_ (hw_host (view (world e))) then lit "true" else lit "false"
  else if bool_decide (key = lit "isWhispering") then
    match whispering with None => [] | Some b => lit (if b then "1" else "0") end
  else [].

Definition SetDspSensibility (sensibility : str) : M unit :=
  features ← on_trigger (tp_GetParameter KEY_GET_WAKEUP_FEATURE);
  value ← st_gets (λ s, GetDspSensibility sensibility features WAKEUP_CONFIG_PATH (db s));
  if bool_decide (value = []) then mret () else st_void (on_trigger (tp_SetParameter WAKEUP_SENSIBILITY value)).

(** Death recipients; [added] and [removed] are what the remote object answers. *)
Definition RegisterProxyDeathRecipient (type : Z) (object : nat) (added : bool) : M bool :=
  _ ← modc (λ m, m <| deathRecipientObj_ ::= <[type := object]> |>);
  if (type =? INTELL_VOICE_ENROLL) || (type =? INTELL_VOICE_WAKEUP) then
    _ ← modc (λ m, m <| proxyDeathRecipient_ ::= <[type := ()]> |>);
    mret added
  else mret false.
Definition DeregisterProxyDeathRecipient (type : Z) (removed : bool) : M bool :=
  m ← getc id;
  match deathRecipientObj_ m !! type with
  | None => mret false
  | Some _ =>
    match proxyDeathRecipient_ m !! type with
    | None => _ ← modc (λ m, m <| deathRecipientObj_ ::= delete type |>); mret false
    | Some _ =>
      _ ← modc (λ m, m <| deathRecipientObj_ ::= delete type |> <| proxyDeathRecipient_ ::= delete type |>);
      mret removed
    end
  end.
Definition RegisterDeviceDeathRecipient (serviceName : str) (object : nat) (added : bool) : M bool :=
  if bool_decide (serviceName = []) then mret false else
  _ ← modc (λ m, m <| serviceDeathRecipientObj_ ::= <[serviceName := object]> |>
                   <| serviceDeathRecipient_ ::= <[serviceName := ()]> |>);
  if (added : bool) then mret true else
  _ ← modc (λ m, m <| serviceDeathRecipientObj_ ::= delete serviceName |>
                   <| serviceDeathRecipient_ ::= delete serviceName |>);
  mret false.
Definition DeregisterDeviceDeathRecipient (serviceName : str) (removed : bool) : M bool :=
  if bool_decide (serviceName = []) then mret false else
  m ← getc id;
  match serviceDeathRecipientObj_ m !! serviceName with
  | None => mret false
  | Some _ =>
    match serviceDeathRecipient_ m !! serviceName with
    | None => _ ← modc (λ m, m <| serviceDeathRecipientObj_ ::= delete serviceName |>); mret false
    | Some _ =>
      _ ← st_when removed (modc (λ m, m <| serviceDeathRecipientObj_ ::= delete serviceName |>
                                        <| serviceDeathRecipient_ ::= delete serviceName |>));
      mret removed
    end
  end.

(** Devices; [removed] is what the remote object answers, should it be asked. *)
Definition on_devices {A} (m : St EngineDeviceManager A) : M A := λ s,
  let '(a, d) := m (devices (own s)) in (a, s <| own ::= λ m, m <| devices := d |> |>).
(** [None]: an exception of [RegisterDevice], which nothing catches. *)
Definition RegisterWakeupDevice (macAddress : str) (info : WakeupDeviceInfo) : M (option Z) :=
  on_devices (RegisterDevice macAddress info).
Definition DeregisterWakeupDevice (macAddress : str) (removed : bool) : M Z :=
  r ← on_devices (DeregisterDevice macAddress);
  count ← getc (λ m, CountByServiceName r.2 (devices m));
  _ ← st_when ((r.1 =? 0) && (count =? 0)) (st_void (DeregisterDeviceDeathRecipient r.2 removed));
  mret r.1.
Definition DeviceServiceDie (serviceName : str) : M unit := st_void (on_devices (RemoveByServiceName serviceName)).
(** [OnAudioPolicyServiceChange], given the preferred output devices. *)
Definition OnAudioPolicyServiceChange (isAdded : bool) (desc : list (bool * str)) : M unit :=
  st_when isAdded (on_devices (UpdateAudioDevice desc)).

Definition SetScreenOff (value : bool) : M unit := modc (λ m, m <| screenoff_ := value |>).

(** [LoadIntellVoiceHost] and [UnloadIntellVoiceHost]; [devmgr] tells whether the
    device manager could be reached. *)
Definition LoadIntellVoiceHost (devmgr : bool) : M unit :=
  if negb devmgr then mret () else
  ok ← on_host Host_Init;
  if negb ok then mret () else
  _ ← on_host RegisterEngineHDIDeathRecipient;
  on_host SetDataOprCallback.
Definition UnloadIntellVoiceHost (devmgr : bool) : M unit :=
  st_when devmgr (on_host DeregisterEngineHDIDeathRecipient).
End manager.

(** * Lemmas *)

(** ** The relation table *)

Lemma related_spec type r :
  related type r =
  if decide (type = INTELL_VOICE_ENROLL) then
    match r with PREEMPTION_TYPE => [INTELL_VOICE_WAKEUP] | REPLACEMENT_TYPE => [INTELL_VOICE_UPDATE] | _ => [] end
  else if decide (type = INTELL_VOICE_WAKEUP) then
    match r with CONCURRENCY_TYPE => [INTELL_VOICE_ENROLL] | _ => [] end
  else if decide (type = INTELL_VOICE_UPDATE) then
    match r with REJECTION_TYPE => [INTELL_VOICE_ENROLL] | _ => [] end
  else [].
Proof.
  destruct (decide (type = INTELL_VOICE_ENROLL)) as [->|H0]; [by destruct r|].
  destruct (decide (type = INTELL_VOICE_WAKEUP)) as [->|H1]; [by destruct r|].
  destruct (decide (type = INTELL_VOICE_UPDATE)) as [->|H2]; [by destruct r|].
  unfold related, engineRelationTbl_. by rewrite !lookup_insert_ne, lookup_singleton_ne by congruence.
Qed.

Section engines_lemmas.
Context {W T D : Type} `{!EngineOps W T D}.
Implicit Types s : Sys (Engines W) T D.

(** The engines that exist. *)
Definition alive s : gmap Z nat := engines_ (own s).

Lemma zoom_alive {A} (m : St (Sys W T D) A) s : alive (zoom m s).2 = alive s.
Proof. rewrite zoom_run. by destruct s as [[]]. Qed.

Lemma on_wakeup_alive m s : alive (on_wakeup m s).2 = alive s.
Proof.
  unfold on_wakeup, getc. rewrite bind_run. cbn [fst snd st_gets].
  destruct (GetEngine _ _); [apply zoom_alive|done].
Qed.

Lemma SetEnrollResult_alive type b s : alive (SetEnrollResult type b s).2 = alive s.
Proof. unfold SetEnrollResult. by destruct (_ || _). Qed.

Lemma JudgeRejection_spec type s :
  JudgeRejection type (own s) = bool_decide (type = INTELL_VOICE_UPDATE ∧ is_Some (alive s !! INTELL_VOICE_ENROLL)).
Proof.
  unfold JudgeRejection. rewrite related_spec.
  destruct (decide (type = INTELL_VOICE_ENROLL)) as [->|H0]; [symmetry; by apply bool_decide_eq_false; intros [? _]|].
  destruct (decide (type = INTELL_VOICE_WAKEUP)) as [->|H1]; [symmetry; by apply bool_decide_eq_false; intros [? _]|].
  destruct (decide (type = INTELL_VOICE_UPDATE)) as [->|H2]; [|symmetry; by apply bool_decide_eq_false; intros [? _]].
  cbn [existsb]. unfold GetEngine, alive. destruct (engines_ (own s) !! INTELL_VOICE_ENROLL) eqn:E; cbn [orb]; symmetry.
  - apply bool_decide_eq_true. eauto.
  - apply bool_decide_eq_false. by intros [_ [? ?]].
Qed.

Lemma HandlePreemption_alive type s : alive (HandlePreemption type s).2 = alive s.
Proof.
  unfold HandlePreemption. generalize (related type PREEMPTION_TYPE). intros l. revert s.
  induction l as [|k l IH]; intros s; [done|]. rewrite for_cons, !bind_run. unfold getc. cbn [fst snd st_gets].
  destruct (GetEngine k (own s)); run; rewrite IH; [apply zoom_alive|done].
Qed.

(** Replacing removes the update engine when an enrollment starts. *)
Lemma HandleReplace_alive type s :
  alive (HandleReplace type s).2 =
  if decide (type = INTELL_VOICE_ENROLL) then delete INTELL_VOICE_UPDATE (alive s) else alive s.
Proof.
  unfold HandleReplace. rewrite related_spec.
  destruct (decide (type = INTELL_VOICE_ENROLL)) as [->|H0].
  - rewrite for_cons, !bind_run. unfold getc. cbn [fst snd st_gets]. unfold GetEngine at 1 2.
    destruct (engines_ (own s) !! INTELL_VOICE_UPDATE) as [e|] eqn:E; unfold GetEngine; rewrite E; run.
    + rewrite for_nil. cbn [snd]. transitivity (delete INTELL_VOICE_UPDATE (alive (zoom (eo_Detach e) s).2)); [done|].
      by rewrite zoom_alive.
    + rewrite for_nil. cbn [snd]. unfold alive. by rewrite delete_id.
  - destruct (decide (type = INTELL_VOICE_WAKEUP)); [done|]. by destruct (decide (type = INTELL_VOICE_UPDATE)).
Qed.

(** The engines there are for a new engine of [type]. *)
Definition after_arbitration (type : Z) (m : gmap Z nat) : gmap Z nat :=
  if decide (type = INTELL_VOICE_ENROLL) then delete INTELL_VOICE_UPDATE m else m.

Lemma ApplyArbitration_spec type s :
  if bool_decide (type = INTELL_VOICE_UPDATE ∧ is_Some (alive s !! INTELL_VOICE_ENROLL))
  then ApplyArbitration type s = (ARBITRATION_REJECT, s)
  else (ApplyArbitration type s).1 = ARBITRATION_OK ∧
       alive (ApplyArbitration type s).2 = after_arbitration type (alive s).
Proof.
  unfold ApplyArbitration, getc. rewrite bind_run. cbn [fst snd st_gets]. rewrite JudgeRejection_spec.
  destruct (bool_decide _); [done|]. run. split; [done|].
  by rewrite HandleReplace_alive, HandlePreemption_alive.
Qed.

Lemma CreateEngineInner_spec type param re s :
  let r := CreateEngineInner type param re s in
  match alive s !! type with
  | Some e => r = (Some e, s)
  | None => match r.1 with
            | Some e => alive r.2 = <[type := e]> (alive s)
            | None => alive r.2 = alive s
            end
  end.
Proof.
  cbv zeta. unfold CreateEngineInner, getc, GetEngine. rewrite bind_run. cbn [fst snd st_gets].
  unfold alive at 1. destruct (engines_ (own s) !! type) as [e|]; [done|]. rewrite !bind_run.
  pose proof (SetEnrollResult_alive type false (zoom (eo_CreateEngineInst type param re) s).2) as Hs.
  rewrite zoom_alive in Hs. destruct (zoom (eo_CreateEngineInst type param re) s) as [[e|] s1]; run; cbn [fst snd] in Hs.
  - rewrite <- Hs. done.
  - done.
Qed.

Lemma CreateEngine_spec type param re s :
  let r := CreateEngine type param re s in
  let m := after_arbitration type (alive s) in
  if bool_decide (type = INTELL_VOICE_UPDATE ∧ is_Some (alive s !! INTELL_VOICE_ENROLL))
  then r = (None, s)
  else match m !! type with
       | Some e => r.1 = Some e ∧ alive r.2 = m
       | None => match r.1 with Some e => alive r.2 = <[type := e]> m | None => alive r.2 = m end
       end.
Proof.
  cbv zeta. unfold CreateEngine. rewrite bind_run. pose proof (ApplyArbitration_spec type s) as Harb.
  destruct (bool_decide (type = INTELL_VOICE_UPDATE ∧ _)).
  - rewrite Harb. cbn [fst snd]. by rewrite bool_decide_false.
  - destruct Harb as [-> Hal]. set (s1 := (ApplyArbitration type s).2) in *. rewrite bool_decide_true by done.
    rewrite bind_run. set (s2 := (st_when _ _ s1).2).
    assert (alive s2 = alive s1) as H2 by (unfold s2, st_when; destruct (_ && _); [apply on_wakeup_alive|done]).
    pose proof (CreateEngineInner_spec type param re s2) as Hin. cbv zeta in Hin. rewrite H2, Hal in Hin.
    destruct (after_arbitration type (alive s) !! type) as [e|] eqn:E.
    + rewrite Hin. cbn [fst snd]. split; [done|]. by rewrite H2, Hal.
    + exact Hin.
Qed.

Lemma ReleaseEngineInner_alive type s : alive (ReleaseEngineInner type s).2 = delete type (alive s).
Proof.
  unfold ReleaseEngineInner, getc, GetEngine. rewrite bind_run. cbn [fst snd st_gets]. unfold alive at 2.
  destruct (engines_ (own s) !! type) as [e|] eqn:E.
  - run. transitivity (delete type (alive (zoom (eo_Detach e) s).2)); [done|]. by rewrite zoom_alive.
  - run. by rewrite delete_id.
Qed.

(** ** Enrollment and update exclude each other *)

Definition exclusive (m : gmap Z nat) : Prop :=
  ¬ (is_Some (m !! INTELL_VOICE_ENROLL) ∧ is_Some (m !! INTELL_VOICE_UPDATE)).

Lemma exclusive_delete k m : exclusive m → exclusive (delete k m).
Proof.
  intros Hm [H1 H2]. apply Hm. split; [destruct H1 as [x Hx]|destruct H2 as [x Hx]]; exists x;
    apply lookup_delete_Some in Hx; tauto.
Qed.

Lemma exclusive_insert k e m :
  exclusive m → (k = INTELL_VOICE_ENROLL → m !! INTELL_VOICE_UPDATE = None) →
  (k = INTELL_VOICE_UPDATE → m !! INTELL_VOICE_ENROLL = None) → exclusive (<[k := e]> m).
Proof.
  intros Hm H0 H2 [[x Hx] [y Hy]]. rewrite lookup_insert_Some in Hx, Hy.
  destruct Hx as [[-> _]|[? Hx]], Hy as [[? _]|[? Hy]]; try done.
  - by rewrite (H0 eq_refl) in Hy.
  - subst k. by rewrite (H2 eq_refl) in Hx.
  - apply Hm. eauto.
Qed.

Abbreviation keeps_exclusive m :=
  (⟪ λ s, exclusive (alive s) ⟫ m ⟪ λ _ s, exclusive (alive s) ⟫) (only parsing).

Lemma zoom_exclusive {A} (m : St (Sys W T D) A) : keeps_exclusive (zoom (Y := Engines W) m).
Proof. intros s Hs. by rewrite zoom_alive. Qed.

Lemma CreateEngine_exclusive type param re : keeps_exclusive (CreateEngine type param re).
Proof.
  intros s Hs. pose proof (CreateEngine_spec type param re s) as Hc. cbv zeta in Hc.
  case_bool_decide as Hrej; [by rewrite Hc|].
  assert (exclusive (after_arbitration type (alive s))) as Hm
    by (unfold after_arbitration; destruct (decide _); [by apply exclusive_delete|done]).
  destruct (after_arbitration type (alive s) !! type); [by destruct Hc as [_ ->]|].
  destruct (CreateEngine type param re s).1; rewrite Hc; [|done]. apply exclusive_insert; [done| |].
  - intros ->. unfold after_arbitration. rewrite decide_True by done. by rewrite lookup_delete_eq.
  - intros ->. unfold after_arbitration. rewrite decide_False by done.
    destruct (alive s !! INTELL_VOICE_ENROLL) eqn:E; [|done]. exfalso. apply Hrej. eauto.
Qed.

Lemma CreateWakeup_exclusive param re : keeps_exclusive (CreateEngineInner INTELL_VOICE_WAKEUP param re).
Proof.
  intros s Hs. pose proof (CreateEngineInner_spec INTELL_VOICE_WAKEUP param re s) as Hc. cbv zeta in Hc.
  destruct (alive s !! INTELL_VOICE_WAKEUP); [by rewrite Hc|].
  destruct (CreateEngineInner _ _ _ s).1; rewrite Hc; [|done]. by apply exclusive_insert.
Qed.

Lemma ReleaseEngineInner_exclusive type : keeps_exclusive (ReleaseEngineInner type).
Proof. intros s Hs. rewrite ReleaseEngineInner_alive. by apply exclusive_delete. Qed.
End engines_lemmas.

Section manager_lemmas.
Context {H W T D : Type} `{!EngineHal H} `{!TriggerPort T} `{!KvStore D} {JL : JsonLib} {PL : Platform}.
Context `{!Lens W (Hw H)} `{!EngineOps W T D}.
Implicit Types s : Sys (Mgr W) T D.

(** ** The operations of the manager that touch engines *)

Inductive MgrOp :=
| MCreate (type : Z) (param : str) (reEnroll : bool)
| MRelease (type : Z)
| MCreateOrResetWakeup
| MServiceStop
| MDetected (uuid : Z)
| MClearCallback
| MSetParameter (key value : str)
| MImplicitEnroll (wakeupInfo : str) (object : option nat)
| MClearUserData
| MClone (wakeupInfo : str) (callback : option nat)
| MSilence
| MWhisper (reEnroll : bool)
| MComplete (result : Z) (param : str)
| MRetry
| MTimer
| MWorld (f : Sys W T D → Sys W T D).

(** [MWorld] is whatever the engines do by themselves. *)
Definition do_mop (o : MgrOp) s : Sys (Mgr W) T D :=
  match o with
  | MCreate t p r => (on_engines (CreateEngine t p r) s).2
  | MRelease t => (on_engines (ReleaseEngineInner t) s).2
  | MCreateOrResetWakeup => (on_engines CreateOrResetWakeupEngine s).2
  | MServiceStop => (on_engines ServiceStopProc s).2
  | MDetected u => (on_engines (EngineOnDetected u) s).2
  | MClearCallback => (on_engines ClearWakeupEngineCb s).2
  | MSetParameter k v => (on_engines (Manager_SetParameter k v) s).2
  | MImplicitEnroll i ob => (on_engines (ImplicitEnroll i ob) s).2
  | MClearUserData => (ClearUserDataInner s).2
  | MClone i cb => (CloneUpdate i cb s).2
  | MSilence => (SilenceUpdate s).2
  | MWhisper r => (WhisperVprUpdate r s).2
  | MComplete r p => (IsNeedUpdateComplete r p s).2
  | MRetry => (IsNeedUpdateRetry s).2
  | MTimer => (on_ctl TimerThread s).2
  | MWorld f => (on_engines (zoom (st_modify f)) s).2
  end.

Definition excl s : Prop := exclusive (engines_ (mgr_engines (own s))).
Abbreviation keeps_excl m := (⟪ excl ⟫ m ⟪ λ _, excl ⟫) (only parsing).

Lemma excl_engines {A} (m : St (Sys (Engines W) T D) A) :
  ⟪ λ s : Sys (Engines W) T D, exclusive (alive s) ⟫ m ⟪ λ _ (s : Sys (Engines W) T D), exclusive (alive s) ⟫ →
  keeps_excl (on_engines m).
Proof. intros Hm s Hs. exact (hoare_zoom (L := mgr_engines_lens W) _ _ _ Hm s Hs). Qed.

Lemma excl_ctl {A} (m : St (Sys (Ctl (Engines W)) T D) A) :
  (∀ s : Sys (Ctl (Engines W)) T D,
     exclusive (engines_ (rest (own s))) → exclusive (engines_ (rest (own (m s).2)))) → keeps_excl (on_ctl m).
Proof. intros Hm s Hs. 
  exact (hoare_zoom (L := ctl_lens W) (λ x : Sys (Ctl (Engines W)) T D, exclusive (engines_ (rest (own x)))) m
    (λ _ (x : Sys (Ctl (Engines W)) T D), exclusive (engines_ (rest (own x)))) Hm s Hs).
 Qed.

Lemma excl_host {A} (m : St (Hw H) A) : keeps_excl (on_host m).
Proof. intros s Hs. unfold on_host. by destruct (m _). Qed.

(** An operation of the controller. *)
Lemma excl_op (o : UpdateController.Op (Y := Engines W) (T := T) (D := D)) :
  match o with OpEnv _ => False | _ => True end →
  ∀ s : Sys (Ctl (Engines W)) T D, exclusive (engines_ (rest (own s))) → exclusive (engines_ (rest (own (do_op o s)))).
Proof.
  intros Ho. pose proof (rest_do_op (λ (e : Engines W) (_ : T), exclusive (engines_ e))) as Hop.
  ospecialize (Hop _ _ o).
  - intros p r. cbn. intros x Hx. rewrite bind_run.
    pose proof (CreateEngine_exclusive INTELL_VOICE_UPDATE p r x Hx) as Hc.
    by destruct (CreateEngine _ _ _ x) as [[]].
  - cbn. intros x Hx. rewrite void_run. exact (ReleaseEngineInner_exclusive INTELL_VOICE_UPDATE x Hx).
  - destruct o; try done; exact Hop.
Qed.

Lemma excl_on_wakeup m :
  ⟪ λ s : Sys (Engines W) T D, exclusive (alive s) ⟫ on_wakeup m ⟪ λ _ (s : Sys (Engines W) T D), exclusive (alive s) ⟫.
Proof. intros s Hs. by rewrite on_wakeup_alive. Qed.
End manager_lemmas.
#[export] Hint Resolve zoom_exclusive CreateEngine_exclusive CreateWakeup_exclusive ReleaseEngineInner_exclusive
  excl_on_wakeup excl_host : ivoice.

Section manager_theorems.
Context {H W T D : Type} `{!EngineHal H} `{!TriggerPort T} `{!KvStore D} {JL : JsonLib} {PL : Platform}.
Context `{!Lens W (Hw H)} `{!EngineOps W T D}.
Implicit Types s : Sys (Mgr W) T D.

Lemma getc_exclusive {A} (f : Engines W → A) :
  ⟪ λ s : Sys (Engines W) T D, exclusive (alive s) ⟫ getc f ⟪ λ _ (s : Sys (Engines W) T D), exclusive (alive s) ⟫.
Proof. by intros s Hs. Qed.
#[local] Hint Resolve getc_exclusive : ivoice.

Lemma excl_mop (o : MgrOp (W := W) (T := T) (D := D)) s : excl s → excl (do_mop o s).
Proof.
  destruct o; cbn [do_mop]; intros Hs.
  - by apply excl_engines; [apply CreateEngine_exclusive|].
  - by apply excl_engines; [apply ReleaseEngineInner_exclusive|].
  - apply excl_engines; [|done]. unfold CreateOrResetWakeupEngine. keeps.
  - apply excl_engines; [|done]. unfold ServiceStopProc. keeps.
  - by apply excl_engines; [apply excl_on_wakeup|].
  - by apply excl_engines; [apply excl_on_wakeup|].
  - apply excl_engines; [|done]. unfold Manager_SetParameter, ClearImplicitEnrollData. keeps.
  - apply excl_engines; [|done]. unfold ImplicitEnroll. keeps.
  - revert s Hs. change (⟪ excl ⟫ ClearUserDataInner ⟪ λ _, excl ⟫). unfold ClearUserDataInner. keeps.
    + apply excl_ctl. by apply (excl_op OpForce).
    + apply excl_engines. auto with ivoice.
  - revert s Hs. change (⟪ excl ⟫ CloneUpdate wakeupInfo callback ⟪ λ _, excl ⟫). unfold CloneUpdate. keeps.
    apply excl_ctl. by apply (excl_op (OpRequest _ _)).
  - apply excl_ctl; [|done]. by apply (excl_op (OpRequest _ _)).
  - apply excl_ctl; [|done]. by apply (excl_op (OpRequest _ _)).
  - revert s Hs. change (⟪ excl ⟫ IsNeedUpdateComplete result param ⟪ λ _, excl ⟫). unfold IsNeedUpdateComplete, getc. keeps.
    apply excl_ctl. by apply (excl_op (OpComplete _ _)).
  - revert s Hs. change (⟪ excl ⟫ IsNeedUpdateRetry ⟪ λ _, excl ⟫). unfold IsNeedUpdateRetry, getc. keeps.
    apply excl_ctl. by apply (excl_op OpRetry).
  - apply excl_ctl; [|done]. by apply (excl_op OpTimer).
  - by apply excl_engines; [apply zoom_exclusive|].
Qed.

Lemma run_excl (ops : list (MgrOp (W := W) (T := T) (D := D))) s :
  excl s → excl (foldl (λ s o, do_mop o s) s ops).
Proof. revert s. induction ops as [|o ops IH]; intros s Hs; [done|]. by apply IH, excl_mop. Qed.

(** ** Upload files *)

Lemma select_random_length {A} rs (l : list A) : (length (select_random rs l) ≤ length rs)%nat.
Proof.
  revert l. induction rs as [|r rs IH]; intros l; cbn; [done|].
  destruct (l !! r); [|cbn; lia]. destruct (last l); cbn; [|lia]. specialize (IH (take (pred (length l)) (<[r:=a0]> l))). lia.
Qed.

Lemma GetReportFiles_length {A F} count (dirs : option (list A)) rs (info : A → option F) :
  (length (GetReportFiles count dirs rs info) ≤ Z.to_nat count)%nat.
Proof.
  unfold GetReportFiles. destruct (Z.leb_spec count 0); [cbn; lia|]. destruct dirs as [l|]; [|cbn; lia].
  assert (∀ k : list A, (length (omap info k) ≤ length k)%nat) as Homap
    by (intros k; induction k as [|x k IH]; cbn; [done|]; destruct (info x); cbn; lia).
  destruct (Z.ltb_spec count (Z.of_nat (length l))).
  - etransitivity; [apply Homap|]. etransitivity; [apply select_random_length|]. rewrite length_take. lia.
  - etransitivity; [apply Homap|]. lia.
Qed.

(** Drawing by number and moving the last entry into the gap keeps the others. *)
Lemma take_gap {A} (l : list A) r x y :
  l !! r = Some x → last l = Some y → x :: take (pred (length l)) (<[r := y]> l) ≡ₚ l.
Proof.
  intros Hx Hy. apply last_Some in Hy as [l' ->]. rewrite length_app. cbn [length].
  replace (pred (length l' + 1)) with (length l') by lia.
  destruct (decide (r < length l')%nat) as [Hr|Hr].
  - rewrite lookup_app_l in Hx by done. rewrite insert_app_l, take_app_le, take_ge by (rewrite ?length_insert; lia).
    apply take_drop_middle in Hx as Hl. rewrite <- Hl at 2. rewrite insert_take_drop by done.
    rewrite <- app_assoc. cbn. rewrite (Permutation_cons_append (drop (S r) l') y). by rewrite Permutation_middle.
  - apply lookup_lt_Some in Hx as Hlt. rewrite length_app in Hlt. cbn in Hlt. assert (r = length l') as -> by lia.
    rewrite lookup_app_r, Nat.sub_diag in Hx by lia. injection Hx as <-.
    rewrite insert_app_r_alt, take_app_length by lia. by rewrite Permutation_cons_append.
Qed.

(** The numbers drawn are in range: at most the last index of what is left. *)
Fixpoint draws_ok (n : nat) (rs : list nat) : Prop :=
  match rs with [] => True | r :: rs => (r < n)%nat ∧ draws_ok (pred n) rs end.

Lemma select_random_perm {A} rs (l : list A) :
  draws_ok (length l) rs → ∃ k, select_random rs l ++ k ≡ₚ l ∧ length (select_random rs l) = length rs.
Proof.
  revert l. induction rs as [|r rs IH]; intros l Hd; cbn in *; [by exists l|]. destruct Hd as [Hr Hd].
  destruct (lookup_lt_is_Some_2 l r Hr) as [x Hx]. rewrite Hx.
  destruct (last l) as [y|] eqn:Hy; [|apply last_None in Hy; subst; cbn in Hr; lia].
  set (l1 := take (pred (length l)) (<[r := y]> l)).
  assert (length l1 = pred (length l)) as Hl1 by (unfold l1; rewrite length_take, length_insert; lia).
  destruct (IH l1) as (k & Hk & Hlen); [by rewrite Hl1|]. exists k. cbn. split; [|by rewrite Hlen].
  rewrite Hk. by apply take_gap.
Qed.

(** ** Requests that join a running update *)

(** A request of the same priority as the running update keeps its engine. *)
Lemma joined_request st p e (x : Sys (Ctl (Engines W)) T D) :
  ctl_ok (core (own x)) → GetUpdatePriority <$> updateStrategy_ (own x) = Some (GetUpdatePriority st) → param_ st = p →
  restrained st x = false → engines_ (rest (own x)) !! INTELL_VOICE_UPDATE = Some e →
  engines_ (rest (own x)) !! INTELL_VOICE_ENROLL = None →
  let y := CreateUpdateEngineUntilTime (Some st) false x in
  y.1 = 0 ∧ updateStrategy_ (own y.2) = Some st ∧ isUpdating_ (own y.2) = true ∧ isForceReleased_ (own y.2) = false ∧
  engines_ (rest (own y.2)) !! INTELL_VOICE_UPDATE = Some e.
Proof.
  intros Hok Hpri Hp Hfree He Hno. cbv zeta. unfold CreateUpdateEngineUntilTime. rewrite bind_run. cbn [fst snd st_get].
  rewrite Hfree, bind_run. destruct (updateStrategy_ (own x)) as [st0|] eqn:Hst0; [|done]. cbn in Hpri. injection Hpri as Hpri.
  assert (UpdateArbitration (GetUpdatePriority st) x = (0, x)) as ->.
  { destruct Hok as [_ Hu Hm]. cbn in Hu, Hm. rewrite Hst0 in Hu, Hm. destruct Hm as (_ & Hcur & _).
    unfold UpdateArbitration, GetUpdateState, getc. run. rewrite Hu. cbn [negb]. run. rewrite Hcur, Hpri.
    by rewrite Z.ltb_irrefl, Z.eqb_refl. }
  cbn [fst snd]. change (negb (0 =? 0)) with false. cbv iota. rewrite bind_run.
  assert ((zoom (CreateUpdateEngine (param_ st) false) x).1 = true ∧
          engines_ (rest (own (zoom (CreateUpdateEngine (param_ st) false) x).2)) !! INTELL_VOICE_UPDATE = Some e) as [Hc Hz].
  { rewrite zoom_run. set (z := with_own _ x). cbn [fst snd CreateUpdateEngine manager_host]. rewrite bind_run.
    pose proof (CreateEngine_spec INTELL_VOICE_UPDATE (param_ st) false z) as Hs. cbv zeta in Hs.
    rewrite bool_decide_false in Hs by (intros [_ [? Hs']]; unfold alive, z in Hs'; cbn in Hs'; by rewrite Hno in Hs').
    unfold after_arbitration in Hs. rewrite decide_False in Hs by done. unfold alive at 1 in Hs.
    replace (engines_ (own z) !! INTELL_VOICE_UPDATE) with (Some e) in Hs by done. destruct Hs as [Hs1 Hs2].
    rewrite Hs1. split; [done|]. cbn [snd mret st_ret]. unfold alive in Hs2. cbn. rewrite Hs2. done. }
  destruct (zoom _ x) as [b x1]. cbn [fst snd] in *. subst b. cbn [negb]. unfold getc, SetUpdateState. run.
  destruct x1 as [[]]. cbn. split_and!; try done. by destruct (_ <? _).
Qed.

(** A completion for another parameter than the current one is ignored. *)
Lemma ignored_completion r p (x : Sys (Ctl (Engines W)) T D) :
  isForceReleased_ (own x) = false → param_ <$> updateStrategy_ (own x) ≠ Some p → UpdateCompleteProc r p x = (false, x).
Proof.
  intros Hf Hp. unfold UpdateCompleteProc, getc. run. rewrite Hf. run. by rewrite bool_decide_false.
Qed.

(** * Theorems *)

(** C7: enrollment and update never run together.  Whatever operations have been
    run on the manager since it was made, and whatever the engines did in between,
    there is never an enrollment engine and an update engine at the same time. *)
Theorem engines_exclusive w0 (ops : list (MgrOp (W := W) (T := T) (D := D))) s (Hinit : own s = init_mgr w0) :
  let m := engines_ (mgr_engines (own (foldl (λ s o, do_mop o s) s ops))) in
  ¬ (is_Some (m !! INTELL_VOICE_ENROLL) ∧ is_Some (m !! INTELL_VOICE_UPDATE)).
Proof. apply run_excl. unfold excl. rewrite Hinit. cbn. intros [[? Hx] _]. by rewrite lookup_empty in Hx. Qed.

(** C23: what the creation of an engine does to the engines there are.  An update is
    rejected while an enrollment engine exists, and nothing changes.  Otherwise an
    enrollment removes the update engine; an engine of the type that already exists is
    returned; a new one is added, or, when it cannot be made, none. *)
Theorem CreateEngine_arbitrates type param re (s : Sys (Engines W) T D) :
  let r := CreateEngine type param re s in
  let m := if decide (type = INTELL_VOICE_ENROLL) then delete INTELL_VOICE_UPDATE (engines_ (own s)) else engines_ (own s) in
  if bool_decide (type = INTELL_VOICE_UPDATE ∧ is_Some (engines_ (own s) !! INTELL_VOICE_ENROLL))
  then r = (None, s)
  else match m !! type with
       | Some e => r.1 = Some e ∧ engines_ (own r.2) = m
       | None => engines_ (own r.2) = match r.1 with Some e => <[type := e]> m | None => m end
       end.
Proof.
  pose proof (CreateEngine_spec type param re s) as Hc. cbv zeta in *. unfold alive, after_arbitration in Hc.
  destruct (bool_decide _); [done|]. destruct (_ !! type); [done|]. by destruct (CreateEngine _ _ _ s).1.
Qed.

(** At most [numMax] files are uploaded.  When the HAL returns no more files
    than it is asked for, the vendor's and the system's files together are at most as
    many as requested, for every request; the system's are at most two, and if the
    numbers drawn are in range they come from distinct directories. *)
Theorem GetUploadFiles_bounded {A} (dirs : option (list A)) rs info numMax s
    (Hhal : ∀ n (h : H), (length (eh_GetUploadFiles n h).1.2 ≤ Z.to_nat n)%nat) :
  (length (GetUploadFiles dirs rs info numMax s).1.2 ≤ Z.to_nat numMax)%nat ∧
  ∀ l n, dirs = Some l → NoDup l → draws_ok (length l) (take n rs) → NoDup (select_random (take n rs) l).
Proof.
  split; [|intros l n _ Hl Hd; destruct (select_random_perm _ _ Hd) as (k & Hk & _);
    rewrite <- Hk in Hl; by apply NoDup_app in Hl as [? _]].
  unfold GetUploadFiles. rewrite bind_run. cbn [fst snd mret st_ret]. rewrite length_app.
  assert (length (GetUploadFilesFromVendor (Z.max 0 (numMax - VENDOR_UPLOAD_NUM)) s).1 ≤
    Z.to_nat (numMax - VENDOR_UPLOAD_NUM))%nat as Hv.
  { unfold GetUploadFilesFromVendor. destruct (_ || _); [cbn; lia|]. rewrite bind_run. unfold on_host.
    unfold Host_GetUploadFiles. rewrite bind_run. cbn [fst snd st_get].
    destruct (negb (engineHostProxy1_2_ _)); [cbn; lia|]. unfold on_hal.
    specialize (Hhal (Z.max 0 (numMax - VENDOR_UPLOAD_NUM)) (hw_hal (view (world (mgr_engines (own s)))))).
    destruct (eh_GetUploadFiles _ _) as [[c l] h]. cbn in *. destruct (negb (c =? 0)); cbn; lia. }
  assert (length (GetUploadFilesFromSystem dirs rs info (Z.min VENDOR_UPLOAD_NUM numMax)) ≤
    Z.to_nat (Z.min VENDOR_UPLOAD_NUM numMax))%nat as Hs.
  { unfold GetUploadFilesFromSystem. destruct (_ || _); [cbn; lia|apply GetReportFiles_length]. }
  unfold VENDOR_UPLOAD_NUM in *. lia.
Qed.

(** The path check of the clone files.  A path is accepted exactly when it
    starts with the wakeup directory's name and contains no [../]; a refused path
    reaches neither the HAL nor the host manager, for reading and for writing. *)
Theorem wakeup_path_checked filePath buffer s :
  (path_ok filePath = true ↔
     (∃ suffix, filePath = WAKEUP_FILE_PATH_PREFIX ++ suffix) ∧ ¬ (∃ a b, filePath = a ++ PARENT_PATH_PREFIX ++ b)) ∧
  (path_ok filePath = false →
     GetWakeupSourceFile filePath s = ((-1, []), s) ∧ SendWakeupFile filePath buffer s = (-1, s)).
Proof.
  split.
  - unfold path_ok. rewrite negb_true_iff, !orb_false_iff, negb_false_iff, Nat.ltb_ge, bool_decide_eq_true,
      bool_decide_eq_false, find_sub_Some. split.
    + intros [[Hlen Hp] Hno]. split; [|done]. exists (drop (length WAKEUP_FILE_PATH_PREFIX) filePath).
      rewrite <- Hp at 1. by rewrite take_drop.
    + intros [[suffix ->] Hno]. split; [|done]. rewrite length_app, take_app_length. split; [lia|done].
  - intros Hp. unfold GetWakeupSourceFile, SendWakeupFile. by rewrite Hp.
Qed.

(** A second clone request disables the first.  While a clone update with
    information [A] runs, a clone request with other information [B] is accepted but no
    engine is made for it: the running engine, which reports with [A], is kept.  Its
    completion, whatever the result, is then ignored: neither requester is told, the
    engine is not released and the update counts as running. *)
Theorem second_clone_discards A B cb1 cb2 e s
    (Hok : ctl_ok (core (ctl (own s)))) (Hst : updateStrategy_ (ctl (own s)) = Some (CloneUpdateStrategy A (Some cb1)))
    (Hengine : engines_ (mgr_engines (own s)) !! INTELL_VOICE_UPDATE = Some e)
    (Henroll : engines_ (mgr_engines (own s)) !! INTELL_VOICE_ENROLL = None)
    (Hversion : GetStringKVPair KEY_WAKEUP_VESRION (db s) = []) (HB : B ≠ []) (HAB : A ≠ B) :
  let r := CloneUpdate B (Some cb2) s in
  r.1 = 0 ∧ engines_ (mgr_engines (own r.2)) !! INTELL_VOICE_UPDATE = Some e ∧ isUpdating_ (ctl (own r.2)) = true ∧
  ∀ result, IsNeedUpdateComplete result A r.2 = (false, r.2).
Proof.
  cbv zeta. unfold CloneUpdate. rewrite bool_decide_false by done. unfold on_ctl. rewrite zoom_run. cbn [fst snd].
  set (x := with_own _ s). set (st := CloneUpdateStrategy B (Some cb2)).
  destruct (joined_request st B e x) as (Hr & Hst' & Hup & Hf & He);
    [done|change (own x) with (ctl (own s)); by rewrite Hst|done|unfold restrained; cbn; by rewrite Hversion|done|done|].
  set (y := CreateUpdateEngineUntilTime (Some st) false x) in *.
  split_and!; [done|done|done|]. intros result. unfold IsNeedUpdateComplete, on_ctl. rewrite bind_run, zoom_run.
  rewrite ignored_completion; [|done|].
  2: { intros Heq. change (param_ <$> updateStrategy_ (own y.2) = Some A) in Heq. rewrite Hst' in Heq.
       cbn in Heq. congruence. }
  cbn [fst snd]. run. by rewrite orb_true_r.
Qed.
End manager_theorems.

(** * Witnesses

    Engines that only record what is called on them. *)
Inductive EngCall := ECreate (type : Z) | EStop (e : nat) | EDetach (e : nat) | ERelease (e : nat)
| EReset (e : nat) | ESetParameter (e : nat) (kv : str) | ESetCallback (e : nat) | EDetected (e : nat).
Record LogWorld := mkLog { lw_hw : Hw RefHal; lw_next : nat; lw_calls : list EngCall }.
#[global] Instance LogWorld_eta : Eta LogWorld := λ w, mkLog (lw_hw w) (lw_next w) (lw_calls w).
#[global] Instance log_lens : Lens LogWorld (Hw RefHal) := {| view := lw_hw; set h w := w <| lw_hw := h |> |}.
Definition log_call {T D} (c : EngCall) : St (Sys LogWorld T D) unit :=
  modc (λ w, w <| lw_calls ::= λ l, l ++ [c] |>).
#[global] Instance log_engines T D : EngineOps LogWorld T D := {|
  eo_CreateEngineInst t _ _ :=
    n ← getc lw_next; _ ← modc (λ w, w <| lw_next ::= S |>); _ ← log_call (ECreate t); mret (Some n);
  eo_Stop e := _ ← log_call (EStop e); mret 0;
  eo_Detach e := _ ← log_call (EDetach e); mret 0;
  eo_ReleaseAdapter e := log_call (ERelease e);
  eo_ResetAdapter e := _ ← log_call (EReset e); mret true;
  eo_SetParameter e kv := _ ← log_call (ESetParameter e kv); mret 0;
  eo_SetCallback e _ := log_call (ESetCallback e);
  eo_OnDetected e _ := log_call (EDetected e) |}.

Abbreviation LogSys := (SysR (Mgr LogWorld)).
Definition fresh_mgr : LogSys := fresh_sys (init_mgr (mkLog ref_hw 0 [])).
Definition run_ops (ops : list (MgrOp (W := LogWorld) (T := gmap string str) (D := gmap string str)))
    (s : LogSys) : LogSys := foldl (λ s o, do_mop o s) s ops.

(** An enrollment while a wakeup and an update engine exist stops the first and
    replaces the second, and a later update is rejected. *)
Definition enroll_run := run_ops [MCreate 1 [] false; MClone (lit "A") (Some 9%nat); MCreate 0 [] false; MWhisper false] fresh_mgr.
Example enroll_run_calls :
  lw_calls (world (mgr_engines (own enroll_run))) =
  [ECreate 1; ERelease 0; ECreate 2; EStop 0; EDetach 1; ERelease 0; ECreate 0].
Proof. vm_compute. reflexivity. Qed.

Lemma engines_exclusive_witness :
  is_Some (engines_ (mgr_engines (own enroll_run)) !! INTELL_VOICE_ENROLL) ∧
  ¬ (is_Some (engines_ (mgr_engines (own enroll_run)) !! INTELL_VOICE_ENROLL) ∧
     is_Some (engines_ (mgr_engines (own enroll_run)) !! INTELL_VOICE_UPDATE)).
Proof. split; [by eexists; vm_compute|]. exact (engines_exclusive (mkLog ref_hw 0 []) _ fresh_mgr eq_refl). Defined.

Lemma GetUploadFiles_bounded_witness :
  (length (GetUploadFiles (Some [1%nat; 2%nat; 3%nat]) [2; 0]%nat (λ n, Some (mkUpload (Z.of_nat n) [] [])) 5 fresh_mgr).1.2 ≤ 5)%nat.
Proof. apply GetUploadFiles_bounded. intros n h. cbn. by rewrite length_replicate. Defined.

Lemma wakeup_path_checked_witness :
  SendWakeupFile (lit "/data/service/el0/intelligent_voice/wakeup/../x") [1] fresh_mgr = (-1, fresh_mgr).
Proof. refine (proj2 (proj2 (wakeup_path_checked _ [1] fresh_mgr) _)). vm_compute. reflexivity. Defined.

(** A path that ends in two dots passes the check. *)
Example path_parent_passes : path_ok (lit "/data/service/el0/intelligent_voice/wakeup/..") = true.
Proof. vm_compute. reflexivity. Qed.

Definition cloning : LogSys := run_ops [MClone (lit "A") (Some 1%nat)] fresh_mgr.
Lemma second_clone_discards_witness :
  (CloneUpdate (lit "B") (Some 2%nat) cloning).1 = 0 ∧
  IsNeedUpdateComplete 0 (lit "A") (CloneUpdate (lit "B") (Some 2%nat) cloning).2 =
  (false, (CloneUpdate (lit "B") (Some 2%nat) cloning).2).
Proof.
  destruct (second_clone_discards (lit "A") (lit "B") 1 2 0 cloning) as (Hr & _ & _ & Hc); try done.
  assert (ctl (own cloning) = own (do_op (OpRequest (Some (CloneUpdateStrategy (lit "A") (Some 1%nat))) false)
    (with_own (ctl (own fresh_mgr)) fresh_mgr))) as -> by (vm_compute; reflexivity).
  apply do_op_ok; [apply init_ok|done].
Defined.
