(* ===== verification/ServiceManager.v ===== *)
(** * The service manager

    [services/intell_voice_service/server/sa/intell_voice_service_manager.cpp] with
    [utils/switch_provider.cpp]: the class template that ties the trigger manager [T]
    and the engine manager [E] together.  Almost everything runs as a task of one
    executor thread; clients, the settings observer, timers and engines add tasks.
    The model has a queue of tasks ([Sys.tasks]) that [exec] runs one at a time; what
    other threads do without the executor (reading switches, adding tasks) are
    operations of their own.  A client that waits for its task ([AddSyncTask]) is a
    task like the others. *)

From S2P Require Import Prelude StringUtil Settings EngineTypes EngineUtil.

(** ** The engine manager, as the service manager sees it

    The members of the template argument [E], which [IntellVoiceEngineManager],
    [OnlyFirstEngineManager] and [DummyEngineManager] have. *)
Class EngineMgr (E T D : Type) := {
  em_IsEngineExist : Z → E → bool;
  em_AnyEngineExist : list Z → E → bool;
  em_GetEnrollResult : Z → E → bool;
  em_CreateEngine : Z → St (Sys E T D) (option nat);
  em_CreateOrResetWakeupEngine : St (Sys E T D) bool;
  em_ReleaseEngineInner : Z → St (Sys E T D) Z;
  em_ClearUserDataInner : St (Sys E T D) unit;
  em_SilenceUpdate : St (Sys E T D) Z;
  em_WhisperVprUpdate : bool → St (Sys E T D) Z;
  em_CloneUpdate : str → option nat → St (Sys E T D) Z;
  em_ImplicitEnroll : str → option nat → St (Sys E T D) Z;
  em_ServiceStopProc : St (Sys E T D) Z;
  em_ClearWakeupEngineCb : St (Sys E T D) unit;
  em_DeviceServiceDie : str → St (Sys E T D) unit;
  em_IsNeedUpdateComplete : Z → str → St (Sys E T D) bool;
  em_IsNeedUpdateRetry : St (Sys E T D) bool;
  em_EngineOnDetected : Z → St (Sys E T D) unit;
  em_SetParameter : str → str → St (Sys E T D) Z;
  em_SetDspSensibility : str → St (Sys E T D) unit }.

(** ** The switches

    The settings are read through data share: the first query with whether the result
    set is there, its rows, and whether the store was busy, and the query that is made
    again when it was. *)
Class DataShare (Q : Type) := {
  ds_Query : string → Q → option (list str) * bool;
  ds_RetryQuery : string → Q → option (list str) }.

Definition WAKEUP_KEY : string := "intell_voice_trigger_enabled".
Definition WHISPER_KEY : string := "intell_voice_trigger_whisper".

Section provider.
Context {Q : Type} `{!DataShare Q}.

(** [QueryWithRetry]. *)
Definition QueryWithRetry (key : string) (q : Q) : option (list str) :=
  let '(resultSet, busy) := ds_Query key q in
  match resultSet with
  | Some rows => Some rows
  | None => if negb busy then None else ds_RetryQuery key q
  end.

Definition Provider_QuerySwitchStatus (key : string) (q : Q) : bool :=
  match QueryWithRetry key q with
  | None | Some [] => false
  | Some (value :: _) => bool_decide (value = lit "1")
  end.

Definition Provider_IsSwitchError (key : string) (q : Q) : bool :=
  match QueryWithRetry key q with None | Some [] => true | Some _ => false end.
End provider.

(** ** State *)

Definition WAIT_INTERVAL : Z := 500.
Definition WAIT_SWITCH_TIME : Z := 2000.
Definition STOP_ALL_RECOGNITION : string := "stop_all_recognition".
Definition SHORT_WORD_SWITCH : string := "short_word_switch".
Definition WHISPER_VPR_CONFIG_PATH : string :=
  "/sys_prod/variant/region_comm/china/etc/intellvoice/wakeup/vpr/whisper/vpr_domainDict_04.dat".
Definition WHISPER_MODEL_PATH : string :=
  "/sys_prod/variant/region_comm/china/etc/intellvoice/wakeup/dsp/whisper_wakeup_dsp_config".

(** The build switches of the class. *)
Class SvcBuild := {
  TRIGGER_ENABLE : bool; ENGINE_OR_ONESHOT : bool; USE_FFRT : bool; ONLY_FIRST_STAGE : bool;
  FIRST_STAGE_ONESHOT : bool; RECORD_CONCURRENT : bool }.

(** The members: the engine manager, whether [switchProvider_] is set, the data share
    behind it, the observed keys, [isStarted_], the handles of the waiting tasks with
    the queue they are in, the flags and the time of the delayed unload (in
    milliseconds), and the waits for the power mode and the record start. *)
Record Svc (E Q : Type) := mkSvc {
  emgr : E; switchProvider_ : bool; share : Q; switchObserver_ : list string;
  isStarted_ : gmap Z bool; taskHandle_ : gmap Z unit; ffrtQueue : list Z;
  serviceUnloading_ : bool; delayUnloadWaiting_ : bool; lastCallTime_ : Z;
  notifyPowerModeChange_ : bool; recordStart_ : Z; notifyRecordStartInfoChange_ : bool }.
Arguments mkSvc {E Q} _ _ _ _ _ _ _ _ _ _ _ _ _.
Arguments emgr {E Q} _.
Arguments switchProvider_ {E Q} _.
Arguments share {E Q} _.
Arguments switchObserver_ {E Q} _.
Arguments isStarted_ {E Q} _.
Arguments taskHandle_ {E Q} _.
Arguments ffrtQueue {E Q} _.
Arguments serviceUnloading_ {E Q} _.
Arguments delayUnloadWaiting_ {E Q} _.
Arguments lastCallTime_ {E Q} _.
Arguments notifyPowerModeChange_ {E Q} _.
Arguments recordStart_ {E Q} _.
Arguments notifyRecordStartInfoChange_ {E Q} _.
#[global] Instance Svc_eta E Q : Eta (Svc E Q) :=
  λ v, mkSvc (emgr v) (switchProvider_ v) (share v) (switchObserver_ v) (isStarted_ v) (taskHandle_ v)
         (ffrtQueue v) (serviceUnloading_ v) (delayUnloadWaiting_ v) (lastCallTime_ v)
         (notifyPowerModeChange_ v) (recordStart_ v) (notifyRecordStartInfoChange_ v).
#[global] Instance emgr_lens E Q : Lens (Svc E Q) E := {| view := emgr; set := λ e v, v <| emgr := e |> |}.
#[global] Instance emgr_lens_laws E Q : LensLaws (Svc E Q) E.
Proof. constructor; [done|by intros []|done]. Qed.
Definition init_svc {E Q} (e : E) (q : Q) : Svc E Q := mkSvc e false q [] ∅ ∅ [] false false 0 false (-1) false.

Section service.
Context {E Q T D : Type} `{!EngineMgr E T D} `{!DataShare Q} `{!TriggerPort T} `{!KvStore D}.
Context {JL : JsonLib} {PL : Platform} {BL : SvcBuild}.
Abbreviation M := (St (Sys (Svc E Q) T D)).

Definition on_E {A} (m : St (Sys E T D) A) : M A := zoom m.

(** ** Switches *)

Definition IsSwitchKeyValid (key : string) : bool :=
  bool_decide (key = WAKEUP_KEY) || bool_decide (key = WHISPER_KEY)
  || bool_decide (key = SHORTWORD_KEY) || bool_decide (key = DUALMIC_KEY).

Definition QuerySwitchStatus (key : string) (v : Svc E Q) : bool :=
  if negb (IsSwitchKeyValid key) then false else
  if negb (switchProvider_ v) then false else Provider_QuerySwitchStatus key (share v).

Definition QuerySwitchByUuid (uuid : Z) (v : Svc E Q) : bool :=
  if uuid =? VOICE_WAKEUP_MODEL_UUID then QuerySwitchStatus WAKEUP_KEY v
  else if uuid =? PROXIMAL_WAKEUP_MODEL_UUID then QuerySwitchStatus WHISPER_KEY v
  else false.

Definition IsSwitchError (key : string) (v : Svc E Q) : bool :=
  if negb (switchProvider_ v) then true else Provider_IsSwitchError key (share v).

(** Some wakeup switch is on. *)
Definition any_switch_on (v : Svc E Q) : bool := QuerySwitchStatus WAKEUP_KEY v || QuerySwitchStatus WHISPER_KEY v.

(** An enrollment or an update is there. *)
Definition busy (v : Svc E Q) : bool := em_AnyEngineExist [INTELL_VOICE_ENROLL; INTELL_VOICE_UPDATE] (emgr v).

(** ** Detection *)

(** [AddStartDetectionTask]: a task that waits for the audio HAL. *)
Definition AddStartDetectionTask (uuid : Z) : M bool :=
  if negb USE_FFRT then mret true else
  h ← getc (λ v, taskHandle_ v !! uuid);
  match h with
  | Some _ => mret true
  | None =>
    _ ← modc (λ v, v <| taskHandle_ ::= <[uuid := ()]> |> <| ffrtQueue ::= λ q, q ++ [uuid] |>);
    mret true
  end.

(** [DelStartDetectionTask]; [cancel] removes a task that has not begun, the first one
    of the queue is running. *)
Definition cancel_task (uuid : Z) (q : list Z) : list Z :=
  match q with [] => [] | running :: waiting => running :: filter (λ u, u ≠ uuid) waiting end.
Definition DelStartDetectionTask (uuid : Z) : M unit :=
  _ ← st_when USE_FFRT
        (h ← getc (λ v, taskHandle_ v !! uuid);
         match h with
         | None => mret ()
         | Some _ => modc (λ v, v <| ffrtQueue ::= cancel_task uuid |> <| taskHandle_ ::= delete uuid |>)
         end);
  modc (λ v, v <| isStarted_ ::= delete uuid |>).

(** One look of the running waiting task at the switch and the audio HAL; it sleeps and
    looks again unless it ends. *)
Definition WaitingTask : M unit :=
  q ← getc ffrtQueue;
  match q with
  | [] => mret ()
  | uuid :: rest =>
    on ← getc (QuerySwitchByUuid uuid);
    if negb on then modc (λ v, v <| ffrtQueue := rest |>) else
    status ← on_trigger (tp_GetParameter "audio_hal_status");
    if bool_decide (status = lit "true") then
      _ ← modc (λ v, v <| ffrtQueue := rest |>);
      AddAsyncTask (TStartDetection uuid) true
    else mret ()
  end.

Definition StartDetection (uuid : Z) : M bool :=
  b ← getc busy;
  if (b : bool) then mret false else
  on ← getc (QuerySwitchByUuid uuid);
  if negb on then mret false else
  ret ← on_trigger (tp_StartDetection uuid);
  if ret =? 1 then _ ← modc (λ v, v <| isStarted_ ::= <[uuid := true]> |>); mret true
  else if ret =? 0 then AddStartDetectionTask uuid
  else mret false.

Definition StopDetection (uuid : Z) : M unit := on_trigger (tp_StopDetection uuid).

Definition SetShortWordStatus : M unit :=
  if negb (GetSupportAbility ABILITY_SHORT_WORD) then mret () else
  on ← getc (QuerySwitchStatus SHORTWORD_KEY);
  st_void (on_trigger (tp_SetParameter SHORT_WORD_SWITCH (if (on : bool) then lit "1" else lit "0"))).

Definition SetDualMicStatus : M unit :=
  if negb (GetSupportAbility ABILITY_DUAL_MIC) then mret () else
  on ← getc (QuerySwitchStatus DUALMIC_KEY);
  _ ← emit (SwingEvent on);
  st_void (on_trigger (tp_SetParameter KEY_DUALMIC_ENABLE (if (on : bool) then lit "true" else lit "false"))).

Definition CreateAndStartServiceObject (uuid : Z) (needResetAdapter : bool) : M unit :=
  if (uuid =? PROXIMAL_WAKEUP_MODEL_UUID) && negb (IsFileExist WHISPER_MODEL_PATH) then StartAbility "no_whisper" else
  exists_ ← st_gets (λ s, tp_IsModelExist uuid (trig s));
  if TRIGGER_ENABLE && negb exists_ then mret () else
  on ← getc (QuerySwitchByUuid uuid);
  if negb on then mret () else
  _ ← st_when ENGINE_OR_ONESHOT
        (if needResetAdapter then st_void (on_E em_CreateOrResetWakeupEngine)
         else st_void (on_E (em_CreateEngine INTELL_VOICE_WAKEUP)));
  _ ← on_trigger (tp_CreateDetector uuid);
  _ ← st_when (uuid =? VOICE_WAKEUP_MODEL_UUID) (_ ← SetShortWordStatus; SetDualMicStatus);
  st_void (StartDetection uuid).

Definition SwitchOnProc (uuid : Z) (needUpdateAdapter : bool) : M Z :=
  b ← getc busy;
  if (b : bool) then mret 0 else
  on ← getc (QuerySwitchByUuid uuid);
  if negb on then mret 0 else
  _ ← CreateAndStartServiceObject uuid needUpdateAdapter;
  mret 0.

Definition ReleaseServiceObject (uuid : Z) : M unit := on_trigger (tp_ReleaseTriggerDetector uuid).

Definition SwitchOffProc (uuid : Z) : M Z :=
  b ← getc busy;
  if (b : bool) then mret 0 else
  on ← getc (QuerySwitchByUuid uuid);
  if (on : bool) then mret 0 else
  _ ← DelStartDetectionTask uuid;
  _ ← ReleaseServiceObject uuid;
  mret 0.

(** ** Unloading the service *)

Definition IsNeedToUnloadService (v : Svc E Q) : bool :=
  if busy v then false else if any_switch_on v then false else true.

Definition UnloadIntellVoiceService : M Z :=
  need ← getc IsNeedToUnloadService;
  if negb need then mret 0 else
  _ ← modc (λ v, v <| serviceUnloading_ := true |>);
  _ ← emit UnloadSystemAbility;
  mret 0.

Definition HandleOnIdle : M bool :=
  needUnload ← getc IsNeedToUnloadService;
  _ ← modc (λ v, v <| serviceUnloading_ := needUnload |>);
  mret needUnload.

Definition OnServiceActive : M unit := modc (λ v, v <| serviceUnloading_ := false |>).

Definition ScheduleDelayedUnload : M unit :=
  need ← getc IsNeedToUnloadService;
  if negb need then mret () else
  t ← st_gets now;
  modc (λ v, v <| lastCallTime_ := t |> <| delayUnloadWaiting_ := true |>).

(** One turn of the loop of [DelayedUnloadService], after its sleep; the thread is there
    as long as [delayUnloadWaiting_] is set. *)
Definition DelayedUnloadService : M unit :=
  waiting ← getc delayUnloadWaiting_;
  if negb waiting then mret () else
  need ← getc IsNeedToUnloadService;
  if negb need then modc (λ v, v <| delayUnloadWaiting_ := false |>) else
  t ← st_gets now;
  last ← getc lastCallTime_;
  if t - last <? WAIT_SWITCH_TIME then mret () else
  _ ← modc (λ v, v <| delayUnloadWaiting_ := false |>);
  AddAsyncTask TUnload true.

(** ** Tasks *)

Definition ReleaseEngine (type : Z) : M Z :=
  ret ← on_E (em_ReleaseEngineInner type);
  if negb (ret =? 0) then mret ret else
  if negb (type =? INTELL_VOICE_ENROLL) && negb (type =? INTELL_VOICE_IMPLICIT_ENROLL) then mret 0 else
  enrolled ← getc (λ v, em_GetEnrollResult type (emgr v));
  if (enrolled : bool) then
    if IsFileExist WHISPER_VPR_CONFIG_PATH then _ ← AddAsyncTask TWhisperVprUpdate true; mret 0 else
    _ ← SwitchOnProc VOICE_WAKEUP_MODEL_UUID true;
    _ ← SwitchOnProc PROXIMAL_WAKEUP_MODEL_UUID true;
    _ ← SwitchOffProc PROXIMAL_WAKEUP_MODEL_UUID;
    mret 0
  else
    _ ← SwitchOnProc VOICE_WAKEUP_MODEL_UUID true;
    _ ← SwitchOffProc VOICE_WAKEUP_MODEL_UUID;
    _ ← SwitchOnProc PROXIMAL_WAKEUP_MODEL_UUID true;
    _ ← SwitchOffProc PROXIMAL_WAKEUP_MODEL_UUID;
    _ ← UnloadIntellVoiceService;
    mret 0.

(** The restart at the end of an update. *)
Definition restart_and_unload : M unit :=
  _ ← SwitchOnProc VOICE_WAKEUP_MODEL_UUID true;
  _ ← SwitchOnProc PROXIMAL_WAKEUP_MODEL_UUID true;
  st_void UnloadIntellVoiceService.

Definition HandleUpdateComplete_task (result : Z) (param : str) : M unit :=
  need ← on_E (em_IsNeedUpdateComplete result param);
  if need && IsFileExist WHISPER_VPR_CONFIG_PATH && negb (bool_decide (param = lit "WhisperVprUpdate"))
  then st_void (on_E (em_WhisperVprUpdate true))
  else st_when need restart_and_unload.

Definition HandleUpdateRetry_task : M unit :=
  need ← on_E em_IsNeedUpdateRetry;
  st_when need restart_and_unload.

Definition HandleCloseWakeupSource_task (isNeedStop : bool) : M unit :=
  _ ← st_when isNeedStop (st_void (on_trigger (tp_SetParameter STOP_ALL_RECOGNITION (lit "true"))));
  _ ← StartDetection VOICE_WAKEUP_MODEL_UUID;
  st_void (StartDetection PROXIMAL_WAKEUP_MODEL_UUID).

(** [HandleCloseWakeupSource] adds that task, without waiting for room. *)
Definition HandleCloseWakeupSource (isNeedStop : bool) : M unit :=
  AddAsyncTask (THandleCloseWakeupSource isNeedStop) false.

Definition OnDetected_task (uuid : Z) : M unit :=
  v ← getc id;
  if negb (em_IsEngineExist INTELL_VOICE_WAKEUP (emgr v)) then HandleCloseWakeupSource true
  else on_E (em_EngineOnDetected uuid).

Definition CreateEngine_task (type : Z) : M (option nat) :=
  _ ← st_when (type =? INTELL_VOICE_ENROLL)
        (_ ← StopDetection VOICE_WAKEUP_MODEL_UUID; StopDetection PROXIMAL_WAKEUP_MODEL_UUID);
  on_E (em_CreateEngine type).

Definition SilenceUpdate_task : M unit :=
  ret ← on_E em_SilenceUpdate;
  vpr ← st_gets (λ s, GetStringKVPair KEY_WHISPER_VPR (db s));
  st_when (negb (ret =? 0) && IsFileExist WHISPER_VPR_CONFIG_PATH && bool_decide (vpr = lit "false"))
    (st_void (on_E (em_WhisperVprUpdate false))).

Definition CloneUpdate_task (wakeupInfo : str) (object : option nat) : M Z :=
  u ← getc serviceUnloading_;
  if (u : bool) then mret (-1) else
  if IsImplicitEnroll wakeupInfo then on_E (em_ImplicitEnroll wakeupInfo object)
  else on_E (em_CloneUpdate wakeupInfo object).

Definition ShortWordChange_task : M unit :=
  b ← getc busy;
  if (b : bool) then mret () else
  _ ← StopDetection VOICE_WAKEUP_MODEL_UUID;
  _ ← StopDetection PROXIMAL_WAKEUP_MODEL_UUID;
  _ ← on_E em_CreateOrResetWakeupEngine;
  _ ← SetShortWordStatus;
  _ ← StartDetection VOICE_WAKEUP_MODEL_UUID;
  st_void (StartDetection PROXIMAL_WAKEUP_MODEL_UUID).

Definition ClearUserData_task : M Z :=
  _ ← on_E em_ClearUserDataInner;
  _ ← on_settings (DeleteKey [KEY_WAKEUP_ENGINE_BUNDLE_NAME; KEY_WAKEUP_ENGINE_ABILITY_NAME; KEY_WAKEUP_VESRION;
                              KEY_LANGUAGE; KEY_AREA; KEY_WAKEUP_PHRASE; KEY_WHISPER_VPR]);
  _ ← on_settings (DeleteKey TRIGGER_PARAMS);
  UnloadIntellVoiceService.

Definition DataClear_task (key value : str) : M Z :=
  u ← getc serviceUnloading_;
  if (u : bool) then mret (-1) else on_E (em_SetParameter key value).

Definition StartDetection_task (uuid : Z) : M unit :=
  started ← getc (λ v, default false (isStarted_ v !! uuid));
  if (started : bool) then mret () else st_void (StartDetection uuid).

(** The executor runs a task. *)
Definition exec (t : Task) : M unit :=
  match t with
  | THandleUpdateComplete result param => HandleUpdateComplete_task result param
  | THandleUpdateRetry => HandleUpdateRetry_task
  | THandleCloseWakeupSource isNeedStop => HandleCloseWakeupSource_task isNeedStop
  | TStopWakeupSource => st_void (on_trigger (tp_SetParameter STOP_ALL_RECOGNITION (lit "true")))
  | TReleaseEngine type => st_void (ReleaseEngine type)
  | TSilenceUpdate => SilenceUpdate_task
  | TWhisperVprUpdate => st_void (on_E (em_WhisperVprUpdate false))
  | TCloneUpdate wakeupInfo object => st_void (CloneUpdate_task wakeupInfo object)
  | TOnDetected uuid => OnDetected_task uuid
  | TSwitchOn uuid needUpdateAdapter => st_void (SwitchOnProc uuid needUpdateAdapter)
  | TSwitchOff uuid => st_void (SwitchOffProc uuid)
  | TShortWordChange => ShortWordChange_task
  | TDualMicChange => SetDualMicStatus
  | TStartDetection uuid => StartDetection_task uuid
  | TSetTriggerParam key value => st_void (on_trigger (tp_SetParameter key value))
  | TCreateEngine type => st_void (CreateEngine_task type)
  | TClearUserData => st_void ClearUserData_task
  | TServiceStop => st_void (on_E em_ServiceStopProc)
  | TClearWakeupEngineCb => on_E em_ClearWakeupEngineCb
  | TDeviceServiceDie serviceName => on_E (em_DeviceServiceDie serviceName)
  | TSensibility key value => _ ← on_E (em_SetDspSensibility value); st_void (on_E (em_SetParameter key value))
  | TDataClear key value => st_void (DataClear_task key value)
  | TOnIdle => st_void HandleOnIdle
  | TUnload => st_void UnloadIntellVoiceService
  end.

(** One turn of the executor's loop. *)
Definition ExecuteInThread : M unit :=
  q ← st_gets tasks;
  match q with
  | [] => mret ()
  | t :: rest => _ ← st_modify (λ s, s <| tasks := rest |>); exec t
  end.

(** ** What other threads do *)

(** A task added by a client that waits for it or for room in the queue. *)
Definition push (t : Task) : M unit := AddAsyncTask t true.

Definition RegisterObserver (switchKey : string) : M unit :=
  modc (λ v, if bool_decide (switchKey ∈ switchObserver_ v) then v
             else v <| switchObserver_ ::= λ l, l ++ [switchKey] |>).

(** Reasons of a switch report. *)
Definition REASON_INIT : Z := 0.
Definition REASON_POWER_SAVE_MODE : Z := 1.
Definition REASON_USER_SETTING : Z := 2.

(** [CreateSwitchProvider]; [made] tells whether the provider could be made. *)
Definition CreateSwitchProvider (made : bool) : M unit :=
  _ ← modc (λ v, v <| switchProvider_ := made |>);
  if negb made then mret () else
  _ ← RegisterObserver WAKEUP_KEY;
  _ ← RegisterObserver WHISPER_KEY;
  _ ← st_when (GetSupportAbility ABILITY_SHORT_WORD) (RegisterObserver SHORTWORD_KEY);
  _ ← st_when (GetSupportAbility ABILITY_DUAL_MIC) (RegisterObserver DUALMIC_KEY);
  on ← getc any_switch_on;
  st_when on (emit (SwitchReport true REASON_INIT)).

(** [ReleaseSwitchProvider]: the observers stay in [switchObserver_]. *)
Definition ReleaseSwitchProvider : M unit := modc (λ v, v <| switchProvider_ := false |>).

(** [OnSwitchChange], with [NoiftySwitchOnToPowerChange] (a wait ends by itself when
    it sees the switch).  The calls that wait for a task add it.  The result is [false]
    when the log of the reason dereferences a null [switchProvider_]. *)
Definition switch_changed (key other : string) (uuid : Z) (off : M unit) : M bool :=
  on ← getc (QuerySwitchStatus key);
  otherOn ← getc (QuerySwitchStatus other);
  _ ← st_when (negb otherOn) (emit (SwitchReport on REASON_USER_SETTING));
  _ ← (if (on : bool) then push (TSwitchOn uuid false)
       else _ ← push (TSwitchOff uuid); _ ← off; push TUnload);
  getc switchProvider_.
Definition OnSwitchChange (switchKey : string) : M bool :=
  if bool_decide (switchKey = WAKEUP_KEY) then
    switch_changed WAKEUP_KEY WHISPER_KEY VOICE_WAKEUP_MODEL_UUID (on_settings (DeleteKey TRIGGER_PARAMS))
  else if bool_decide (switchKey = WHISPER_KEY) then
    switch_changed WHISPER_KEY WAKEUP_KEY PROXIMAL_WAKEUP_MODEL_UUID (mret ())
  else if bool_decide (switchKey = SHORTWORD_KEY) then _ ← push TShortWordChange; mret true
  else if bool_decide (switchKey = DUALMIC_KEY) then _ ← push TDualMicChange; mret true
  else mret true.

(** [ClearUserData]: the models are deleted at once, the rest is a task. *)
Definition ClearUserData : M unit :=
  _ ← on_trigger (tp_DeleteModel VOICE_WAKEUP_MODEL_UUID);
  _ ← on_trigger (tp_DeleteModel PROXIMAL_WAKEUP_MODEL_UUID);
  push TClearUserData.

(** [HandlePowerSaveModeChange]: the start of the wait, and its end, when a switch is
    on or after two seconds. *)
Definition HandlePowerSaveModeChange : M unit :=
  on ← getc any_switch_on;
  st_when (negb on) (modc (λ v, v <| notifyPowerModeChange_ := true |>)).
Definition PowerSaveWaitEnds : M unit :=
  waiting ← getc notifyPowerModeChange_;
  if negb waiting then mret () else
  on ← getc any_switch_on;
  _ ← modc (λ v, v <| notifyPowerModeChange_ := false |>);
  if (on : bool) then mret () else
  _ ← emit (SwitchReport false REASON_POWER_SAVE_MODE);
  push TUnload.

(** [OnTriggerConnectServiceStart]. *)
Definition OnTriggerConnectServiceStart : M unit :=
  _ ← AddAsyncTask (TSwitchOn VOICE_WAKEUP_MODEL_UUID false) false;
  AddAsyncTask (TSwitchOn PROXIMAL_WAKEUP_MODEL_UUID false) false.

(** [HandleServiceStop]. *)
Definition HandleServiceStop : M unit :=
  _ ← push TServiceStop;
  err ← getc (IsSwitchError WAKEUP_KEY);
  st_when err (StartAbility "db_error").

(** [StopWakeupSource], [OnSingleLevelDetected] with the wait for the record start, and
    [ResetSingleLevelWakeup]. *)
Definition StopWakeupSource : M unit := AddAsyncTask TStopWakeupSource false.
Definition HasReceviedRecordStartMsg (v : Svc E Q) : bool := (recordStart_ v =? 1) || (recordStart_ v =? 0).
Definition HandleRecordStartInfoChange : M unit :=
  received ← getc HasReceviedRecordStartMsg;
  st_when (negb received) (modc (λ v, v <| notifyRecordStartInfoChange_ := true |>)).
Definition RecordStartWaitEnds : M unit :=
  waiting ← getc notifyRecordStartInfoChange_;
  if negb waiting then mret () else
  received ← getc HasReceviedRecordStartMsg;
  _ ← modc (λ v, v <| notifyRecordStartInfoChange_ := false |>);
  if (received : bool) then mret () else HandleCloseWakeupSource true.
Definition OnSingleLevelDetected : M unit :=
  _ ← modc (λ v, v <| recordStart_ := -1 |>);
  _ ← StopWakeupSource;
  _ ← StartAbility "single_level_event";
  HandleRecordStartInfoChange.
Definition ResetSingleLevelWakeup (value : str) : M unit :=
  if negb (bool_decide (value = lit "true")) && negb (bool_decide (value = lit "false")) then mret () else
  _ ← modc (λ v, v <| recordStart_ := if bool_decide (value = lit "true") then 1 else 0 |>);
  r ← getc recordStart_;
  st_when (r =? 0) (HandleCloseWakeupSource true).

(** [ProcSingleLevelModel] and [ProcBreathModel]. *)
Definition model_dir (region : string) (prefix : string) : string :=
  "/sys_prod/variant/region_comm/" +:+ region +:+ "/etc/intellvoice/wakeup/dsp/" +:+ prefix +:+ "wakeup_dsp_config".
Definition SINGLE_LEVEL_MODEL_CN_PATH : string := model_dir "china" "".
Definition SINGLE_LEVEL_MODEL_GB_PATH : string := model_dir "oversea" "gb_".
Definition single_level_path (country : str) : string :=
  if bool_decide (country = lit "CN") then SINGLE_LEVEL_MODEL_CN_PATH
  else if bool_decide (country = lit "AE") then model_dir "oversea" "ae_"
  else if bool_decide (country = lit "MY") then model_dir "oversea" "my_"
  else if bool_decide (country = lit "MX") then model_dir "oversea" "mx_"
  else if bool_decide (country = lit "SA") then model_dir "oversea" "sa_"
  else if bool_decide (country = lit "GB") then SINGLE_LEVEL_MODEL_GB_PATH
  else if bool_decide (country = lit "CL") then model_dir "oversea" "cl_"
  else if IsFileExist SINGLE_LEVEL_MODEL_CN_PATH then SINGLE_LEVEL_MODEL_CN_PATH
  else SINGLE_LEVEL_MODEL_GB_PATH.
Definition bytes_of (s : str) : list Z := (λ c, Z.of_nat (Ascii.nat_of_ascii c)) <$> s.
Definition PROXIMAL_WAKEUP_TYPE : Z := 2.
Definition ProcSingleLevelModel : M unit :=
  if negb ONLY_FIRST_STAGE then mret () else
  country ← st_gets (λ s, GetStringKVPair KEY_COUNTRY_INFO_NAME (db s));
  match ReadFile (single_level_path country) with
  | None => mret ()
  | Some data => on_trigger (tp_UpdateModel (bytes_of data) VOICE_WAKEUP_MODEL_UUID VOICE_WAKEUP_TYPE)
  end.
Definition ProcBreathModel : M unit :=
  match ReadFile WHISPER_MODEL_PATH with
  | None => mret ()
  | Some data => on_trigger (tp_UpdateModel (bytes_of data) PROXIMAL_WAKEUP_MODEL_UUID PROXIMAL_WAKEUP_TYPE)
  end.

(** ** Parameters *)

(** What a handler returns: a value, or the result of a task it waits for. *)
Inductive SetRet := RetNow (z : Z) | RetOf (t : Task).

Definition HandleSensibility (key value : str) : M unit :=
  _ ← on_settings (SetStringKVPair KEY_SENSIBILITY value);
  push (TSensibility key value).
Definition HandleCountryInfo (value : str) : M unit :=
  oldCountry ← st_gets (λ s, GetStringKVPair KEY_COUNTRY_INFO_NAME (db s));
  if bool_decide (oldCountry = value) then mret () else
  _ ← on_settings (SetStringKVPair KEY_COUNTRY_INFO_NAME value);
  _ ← ProcSingleLevelModel;
  push (TSwitchOn VOICE_WAKEUP_MODEL_UUID false).
Definition HandleRecordStart (key value : str) : M unit :=
  if negb ONLY_FIRST_STAGE then mret () else
  if negb FIRST_STAGE_ONESHOT then ResetSingleLevelWakeup value
  else st_void (on_E (em_SetParameter key value)).
Definition HandleWakeupScene (key value : str) : M unit :=
  _ ← on_E (em_SetParameter key value);
  st_void (on_trigger (tp_SetParameter (String.string_of_list_ascii key) value)).
Definition HandleTriggerParam (key : string) (value : str) : M unit :=
  _ ← on_settings (SetStringKVPair key value);
  AddAsyncTask (TSetTriggerParam key value) false.
Definition HandleConcurrentList (key : string) (isWhiteList isBlackList : bool) (value : str) : M unit :=
  _ ← on_settings (SetStringKVPair key value);
  on_trigger (tp_ClearConcurrentControlList isWhiteList isBlackList).

(** [handlerMap_]: the handlers whose result is returned. *)
Definition handlerMap_ (key value : str) : option (M SetRet) :=
  if bool_decide (key = lit "clear_data") then
    Some (_ ← push (TDataClear key value); mret (RetOf (TDataClear key value)))
  else if bool_decide (key = lit "engine_release") then
    Some (if bool_decide (value = lit "implicit_enroll")
          then _ ← push (TReleaseEngine INTELL_VOICE_IMPLICIT_ENROLL); mret (RetNow 0)
          else mret (RetNow (-1)))
  else None.

(** [voidHandlerMap_] as [InitParameterHandlerMap] fills it. *)
Definition voidHandlerMap_ (key value : str) : option (M unit) :=
  if bool_decide (key = lit "Sensibility") then Some (HandleSensibility key value)
  else if bool_decide (key = lit "wakeup_bundle_name")
    then Some (on_settings (SetStringKVPair KEY_WAKEUP_ENGINE_BUNDLE_NAME value))
  else if bool_decide (key = lit "wakeup_ability_name")
    then Some (on_settings (SetStringKVPair KEY_WAKEUP_ENGINE_ABILITY_NAME value))
  else if bool_decide (key = lit "record_start") then Some (HandleRecordStart key value)
  else if bool_decide (key = lit "country") then Some (HandleCountryInfo value)
  else if bool_decide (key = lit "wakeup_scene") then Some (HandleWakeupScene key value)
  else if RECORD_CONCURRENT && bool_decide (key = lit "concurrentWhiteList")
    then Some (HandleConcurrentList "concurrentWhiteList" true false value)
  else if RECORD_CONCURRENT && bool_decide (key = lit "concurrentBlackList")
    then Some (HandleConcurrentList "concurrentBlackList" false true value)
  else match list_find (λ p, lit p = key) TRIGGER_PARAMS with
       | Some (_, p) => Some (HandleTriggerParam p value)
       | None => None
       end.

(** The loop of [EngineSetParameter] over the pairs in key order. *)
Fixpoint set_params (kvs : list (str * str)) : M SetRet :=
  match kvs with
  | [] => mret (RetNow 0)
  | (k, v) :: kvs =>
    match handlerMap_ k v with
    | Some h => h
    | None =>
      _ ← match voidHandlerMap_ k v with Some h => h | None => mret () end;
      set_params kvs
    end
  end.

Definition EngineSetParameter (keyValueList : str) : M SetRet :=
  match SplitStringToKVPair keyValueList ∅ with
  | Some kvpairs => set_params (pairs_in_order kvpairs)
  | None => mret (RetNow 0)
  end.
End service.

(** ** What is relied on of the two managers *)

(** Whether a model is being detected, and that only [StartDetection] starts it. *)
Class Detecting (T : Type) := detecting : Z → T → bool.
Definition quiet {T A} `{!Detecting T} (m : St T A) : Prop :=
  ∀ u t, detecting u (m t).2 = true → detecting u t = true.
Class TriggerLaws (T : Type) `{!TriggerPort T} `{!Detecting T} := {
  tl_stopped u t : detecting u (tp_StopDetection u t).2 = false;
  tl_get k : quiet (tp_GetParameter k);
  tl_set k v : quiet (tp_SetParameter k v);
  tl_update b u ty : quiet (tp_UpdateModel b u ty);
  tl_delete u : quiet (tp_DeleteModel u);
  tl_create u : quiet (tp_CreateDetector u);
  tl_release u : quiet (tp_ReleaseTriggerDetector u);
  tl_stop u : quiet (tp_StopDetection u);
  tl_clear a b : quiet (tp_ClearConcurrentControlList a b) }.

(** An operation of the engine manager that starts no detection and makes no
    enrollment engine: what it leaves detected or enrolling was so before. *)
Definition gentle {E T D A} `{!EngineMgr E T D} `{!Detecting T} (m : St (Sys E T D) A) : Prop :=
  ∀ (U : Z → Prop) (B : Prop),
  ⟪ λ s, (∀ u, detecting u (trig s) = true → U u) ∧ (em_IsEngineExist INTELL_VOICE_ENROLL (own s) = true → B) ⟫ m
  ⟪ λ _ s, (∀ u, detecting u (trig s) = true → U u) ∧ (em_IsEngineExist INTELL_VOICE_ENROLL (own s) = true → B) ⟫.
Definition silent {E T D A} `{!Detecting T} (m : St (Sys E T D) A) : Prop :=
  ∀ s u, detecting u (trig (m s).2) = true → detecting u (trig s) = true.

Class EngineMgrLaws (E T D : Type) `{!EngineMgr E T D} `{!Detecting T} := {
  el_any l e : em_AnyEngineExist l e = existsb (λ t, em_IsEngineExist t e) l;
  el_create t : silent (em_CreateEngine t);
  el_create_other t : t ≠ INTELL_VOICE_ENROLL → gentle (em_CreateEngine t);
  el_reset : gentle em_CreateOrResetWakeupEngine;
  el_release t : gentle (em_ReleaseEngineInner t);
  el_clear : gentle em_ClearUserDataInner;
  el_silence : gentle em_SilenceUpdate;
  el_whisper r : gentle (em_WhisperVprUpdate r);
  el_clone i o : gentle (em_CloneUpdate i o);
  el_implicit i o : gentle (em_ImplicitEnroll i o);
  el_stop : gentle em_ServiceStopProc;
  el_callback : gentle em_ClearWakeupEngineCb;
  el_die n : gentle (em_DeviceServiceDie n);
  el_complete r p : gentle (em_IsNeedUpdateComplete r p);
  el_retry : gentle em_IsNeedUpdateRetry;
  el_detected u : gentle (em_EngineOnDetected u);
  el_param k v : gentle (em_SetParameter k v);
  el_dsp v : gentle (em_SetDspSensibility v) }.

Section service_lemmas.
Context {E Q T D : Type} `{!EngineMgr E T D} `{!DataShare Q} `{!TriggerPort T} `{!KvStore D}.
Context {JL : JsonLib} {PL : Platform} {BL : SvcBuild}.
Context `{!Detecting T} `{!TriggerLaws T} `{!EngineMgrLaws E T D}.
Abbreviation M := (St (Sys (Svc E Q) T D)).
Implicit Types s : Sys (Svc E Q) T D.

Definition enrolling s : bool := em_IsEngineExist INTELL_VOICE_ENROLL (emgr (own s)).

(** Nothing is detected while an enrollment engine exists. *)
Definition undisturbed s : Prop :=
  enrolling s = true → ∀ u, u ∈ [VOICE_WAKEUP_MODEL_UUID; PROXIMAL_WAKEUP_MODEL_UUID] → detecting u (trig s) = false.
Abbreviation keeps_inv m := (⟪ undisturbed ⟫ m ⟪ λ _, undisturbed ⟫) (only parsing).

(** * Lemmas *)

(** What neither changes the trigger manager nor the engine manager. *)
Lemma inv_frame {A} (m : M A) :
  (∀ s, trig (m s).2 = trig s ∧ emgr (own (m s).2) = emgr (own s)) → keeps_inv m.
Proof.
  intros Hm s Hs. destruct (Hm s) as [Ht He]. unfold undisturbed, enrolling in *. by rewrite Ht, He.
Qed.
Lemma inv_modc f : (∀ v, emgr (f v) = emgr v) → keeps_inv (modc f).
Proof. intros Hf. apply inv_frame. intros s. split; [done|apply Hf]. Qed.
Lemma inv_getc {A} (f : Svc E Q → A) : keeps_inv (getc f).
Proof. by apply inv_frame. Qed.
Lemma inv_settings {A} (m : St (option D) A) : keeps_inv (on_settings m).
Proof. apply inv_frame. intros s. by rewrite on_settings_run. Qed.
Lemma inv_emit o : keeps_inv (emit o).
Proof. by apply inv_frame. Qed.
Lemma inv_task t b : keeps_inv (AddAsyncTask t b).
Proof. apply inv_frame. intros s. cbn. by destruct (_ || _). Qed.

Lemma inv_trigger {A} (m : St T A) : quiet m → keeps_inv (on_trigger m).
Proof.
  intros Hm s Hs He u Hu. rewrite on_trigger_run in He |- *. cbn in *.
  destruct (detecting u (m (trig s)).2) eqn:Hd; [|done]. apply Hm in Hd. rewrite (Hs He u Hu) in Hd. done.
Qed.
Lemma inv_E {A} (m : St (Sys E T D) A) : gentle m → keeps_inv (on_E m).
Proof.
  intros Hm s Hs. unfold on_E. rewrite zoom_run. cbn [fst snd]. set (x := with_own (view (own s)) s).
  destruct (Hm (λ u, detecting u (trig s) = true) (enrolling s = true) x) as [Hd He]; [by split|].
  intros Hen u Hu. specialize (He Hen). specialize (Hs He u Hu).
  apply not_true_is_false. intros Hdet%Hd. congruence.
Qed.

Hint Resolve inv_getc inv_settings inv_emit inv_task : ivoice.
Hint Resolve el_reset el_release el_clear el_silence el_whisper el_clone el_implicit el_stop el_callback
  el_die el_complete el_retry el_detected el_param el_dsp : ivoice.
Hint Resolve tl_get tl_set tl_update tl_delete tl_create tl_release tl_stop tl_clear : ivoice.
Hint Extern 1 (hoare _ (modc _) _) => (apply inv_modc; by intros []) : ivoice.
Hint Extern 1 (hoare _ (on_E _) _) => (apply inv_E; solve [auto with ivoice nocore]) : ivoice.
Hint Extern 1 (hoare _ (on_trigger _) _) => (apply inv_trigger; solve [auto with ivoice nocore]) : ivoice.

(** Detection starts only when no enrollment engine exists, and then the invariant
    says nothing. *)
Lemma inv_StartDetection uuid : keeps_inv (StartDetection uuid).
Proof.
  unfold StartDetection. intros s Hs. rewrite bind_run. unfold getc at 1. cbn [fst snd st_gets].
  destruct (busy (own s)) eqn:Hb; [done|]. rewrite bind_run. unfold getc. cbn [fst snd st_gets].
  destruct (negb _); [done|]. rewrite bind_run, on_trigger_run. cbn [fst snd].
  set (s1 := s <| trig := _ |>). assert (undisturbed s1) as Hs1.
  { intros He. unfold busy in Hb. rewrite el_any in Hb. cbn in Hb. unfold enrolling in He. cbn in He.
    rewrite He in Hb. done. }
  clearbody s1. destruct (_ =? 1); [|destruct (_ =? 0); [|done]].
  - revert s1 Hs1. change (keeps_inv (_ ← modc (λ v, v <| isStarted_ ::= <[uuid:=true]> |>); mret true)). keeps.
  - revert s1 Hs1. change (keeps_inv (AddStartDetectionTask uuid)). unfold AddStartDetectionTask. keeps.
Qed.
Hint Resolve inv_StartDetection : ivoice.

Lemma inv_StartAbility e : keeps_inv (StartAbility e).
Proof. unfold StartAbility. keeps. Qed.
Lemma inv_short : keeps_inv SetShortWordStatus.
Proof. unfold SetShortWordStatus. keeps. Qed.
Lemma inv_dual : keeps_inv SetDualMicStatus.
Proof. unfold SetDualMicStatus. keeps. Qed.
Lemma inv_wakeup : gentle (T := T) (D := D) (em_CreateEngine (E := E) INTELL_VOICE_WAKEUP).
Proof. by apply el_create_other. Qed.
Hint Resolve inv_StartAbility inv_short inv_dual inv_wakeup : ivoice.
Lemma inv_SwitchOn uuid b : keeps_inv (SwitchOnProc uuid b).
Proof. unfold SwitchOnProc, CreateAndStartServiceObject. keeps. Qed.
Lemma inv_SwitchOff uuid : keeps_inv (SwitchOffProc uuid).
Proof. unfold SwitchOffProc, DelStartDetectionTask, ReleaseServiceObject. keeps. Qed.
Lemma inv_Unload : keeps_inv UnloadIntellVoiceService.
Proof. unfold UnloadIntellVoiceService. keeps. Qed.
Hint Resolve inv_SwitchOn inv_SwitchOff inv_Unload : ivoice.

(** The creation of an enrollment engine, after detection has been stopped. *)
Lemma inv_CreateEngine type : keeps_inv (CreateEngine_task type).
Proof.
  unfold CreateEngine_task. destruct (Z.eqb_spec type INTELL_VOICE_ENROLL) as [->|Hne].
  2: { cbn [st_when]. keeps. apply inv_E. by apply el_create_other. }
  intros s _. rewrite bind_run. cbn [st_when]. rewrite bind_run. unfold StopDetection. rewrite !on_trigger_run.
  cbn [fst snd]. unfold on_E. rewrite zoom_run. cbn [fst snd]. intros _ u Hu.
  apply not_true_is_false. intros Hd. apply (el_create INTELL_VOICE_ENROLL _ u) in Hd. cbn in Hd.
  apply elem_of_cons in Hu as [->|Hu%list_elem_of_singleton].
  - apply tl_stop in Hd. by rewrite tl_stopped in Hd.
  - subst u. by rewrite tl_stopped in Hd.
Qed.

Lemma inv_exec t : keeps_inv (exec t).
Proof.
  destruct t; cbn [exec]; try solve [keeps].
  - unfold HandleUpdateComplete_task, restart_and_unload. keeps.
  - unfold HandleUpdateRetry_task, restart_and_unload. keeps.
  - unfold HandleCloseWakeupSource_task. keeps.
  - unfold ReleaseEngine. keeps.
  - unfold SilenceUpdate_task. keeps.
  - unfold CloneUpdate_task. keeps.
  - unfold OnDetected_task, HandleCloseWakeupSource. keeps.
  - unfold ShortWordChange_task, StopDetection. keeps.
  - unfold StartDetection_task. keeps.
  - apply hoare_void. apply inv_CreateEngine.
  - unfold ClearUserData_task. keeps.
  - unfold DataClear_task. keeps.
  - unfold HandleOnIdle. keeps.
Qed.

(** ** Runs of the service *)

Inductive SvcOp :=
| SExec
| SPush (t : Task)
| SSwitchChange (key : string)
| SProvider (made : bool)
| SReleaseProvider
| SWaitingTask
| SSchedule
| SDelayedUnload
| SPowerSave
| SPowerSaveEnds
| SConnect
| SServiceStop
| SSingleLevel
| SRecordStart (value : str)
| SRecordEnds
| SClearUserData
| SActive
| SSetParameter (keyValueList : str)
| SEngine (f : St (Sys E T D) unit)
| SShare (f : Q → Q)
| STick (ms : Z).

(** [SExec] is a turn of the executor; [SPush] is any request of a client; [SEngine]
    is what the engines and the trigger manager do by themselves, [SShare] a change of
    the settings. *)
Definition do_sop (o : SvcOp) : M unit :=
  match o with
  | SExec => ExecuteInThread
  | SPush t => push t
  | SSwitchChange key => st_void (OnSwitchChange key)
  | SProvider made => CreateSwitchProvider made
  | SReleaseProvider => ReleaseSwitchProvider
  | SWaitingTask => WaitingTask
  | SSchedule => ScheduleDelayedUnload
  | SDelayedUnload => DelayedUnloadService
  | SPowerSave => HandlePowerSaveModeChange
  | SPowerSaveEnds => PowerSaveWaitEnds
  | SConnect => OnTriggerConnectServiceStart
  | SServiceStop => HandleServiceStop
  | SSingleLevel => OnSingleLevelDetected
  | SRecordStart value => ResetSingleLevelWakeup value
  | SRecordEnds => RecordStartWaitEnds
  | SClearUserData => ClearUserData
  | SActive => OnServiceActive
  | SSetParameter kv => st_void (EngineSetParameter kv)
  | SEngine f => on_E f
  | SShare f => modc (λ v, v <| share ::= f |>)
  | STick ms => st_modify (λ s, s <| now ::= Z.add ms |>)
  end.
Definition sop_ok (o : SvcOp) : Prop := match o with SEngine f => gentle f | _ => True end.

Lemma inv_set_params kvs : keeps_inv (set_params kvs).
Proof.
  induction kvs as [|[k v] kvs IH]; cbn [set_params]; [keeps|].
  assert (∀ h, handlerMap_ k v = Some h → keeps_inv h) as Hh.
  { unfold handlerMap_, push. intros h. destruct (bool_decide _); [intros [= <-]; keeps|].
    destruct (bool_decide _); [|done]. intros [= <-]. keeps. }
  assert (∀ h, voidHandlerMap_ k v = Some h → keeps_inv h) as Hv.
  { unfold voidHandlerMap_, HandleSensibility, HandleRecordStart, ResetSingleLevelWakeup, HandleCloseWakeupSource,
      HandleCountryInfo, ProcSingleLevelModel, HandleWakeupScene, HandleConcurrentList, HandleTriggerParam, push.
    intros h. repeat match goal with |- (if ?b then Some _ else _) = Some _ → _ => destruct b; [intros [= <-]; keeps|] end.
    destruct (list_find _ _) as [[]|]; [|done]. intros [= <-]. keeps. }
  destruct (handlerMap_ k v) as [h|]; [by apply Hh|]. apply hoare_seq; [|by intros ?].
  destruct (voidHandlerMap_ k v) as [h|]; [by apply Hv|keeps].
Qed.

Lemma inv_observer k : keeps_inv (RegisterObserver k).
Proof. apply inv_modc. intros v. by destruct (bool_decide _). Qed.
Hint Resolve inv_observer : ivoice.

Lemma inv_sop o : sop_ok o → keeps_inv (do_sop o).
Proof.
  intros Ho. destruct o; cbn [do_sop]; unfold push, OnSwitchChange, switch_changed, CreateSwitchProvider,
    ReleaseSwitchProvider, WaitingTask, ScheduleDelayedUnload, DelayedUnloadService, HandlePowerSaveModeChange,
    PowerSaveWaitEnds, OnTriggerConnectServiceStart, HandleServiceStop, OnSingleLevelDetected, StopWakeupSource,
    HandleRecordStartInfoChange, ResetSingleLevelWakeup, RecordStartWaitEnds, HandleCloseWakeupSource, ClearUserData,
    OnServiceActive, push; try solve [keeps].
  - unfold ExecuteInThread. apply hoare_gets_bind. intros [|t rest]; [keeps|]. apply hoare_seq; [by apply inv_frame|].
    intros ?. apply inv_exec.
  - apply hoare_void. unfold EngineSetParameter. destruct (SplitStringToKVPair _ _); [apply inv_set_params|keeps].
Qed.
End service_lemmas.
