(* ===== verification/System.v ===== *)
(** * The service put together

    The service manager of [ServiceManager.v] on the engine managers it is built with:
    [IntellVoiceEngineManager] ([EngineManager.v]), [OnlyFirstEngineManager]
    ([manager/only_first_engine_manager.cpp], the build with a single wakeup stage) and
    [DummyEngineManager] ([inc/dummy_engine_manager.h]), and on a trigger manager whose
    start and stop requests are recorded.  What [ServiceManager.v] relies on of the
    engine manager is proved here of each of the three. *)

From S2P Require Import Prelude StringUtil Settings EngineTypes UpdateController EngineUtil DeviceManager.
From S2P Require Import EngineManager ServiceManager.

(** ** A trigger manager with its requests

    Any trigger manager, with the models for which the last of the calls
    [StartDetection] and [StopDetection] was [StartDetection]. *)
Record Tracked (T : Type) := mkTracked { inner : T; requested : gset Z }.
Arguments mkTracked {T} _ _.
Arguments inner {T} _.
Arguments requested {T} _.
#[global] Instance Tracked_eta T : Eta (Tracked T) := λ t, mkTracked (inner t) (requested t).
Definition on_inner {T A} (m : St T A) : St (Tracked T) A := λ t,
  let '(a, i) := m (inner t) in (a, t <| inner := i |>).
#[global] Instance tracked_port {T} `{!TriggerPort T} : TriggerPort (Tracked T) := {|
  tp_GetParameter k := on_inner (tp_GetParameter k);
  tp_SetParameter k v := on_inner (tp_SetParameter k v);
  tp_UpdateModel b u ty := on_inner (tp_UpdateModel b u ty);
  tp_DeleteModel u := on_inner (tp_DeleteModel u);
  tp_IsModelExist u t := tp_IsModelExist u (inner t);
  tp_CreateDetector u := on_inner (tp_CreateDetector u);
  tp_ReleaseTriggerDetector u := on_inner (tp_ReleaseTriggerDetector u);
  tp_StartDetection u := _ ← st_modify (λ t, t <| requested ::= λ q, q ∪ {[u]} |>); on_inner (tp_StartDetection u);
  tp_StopDetection u := _ ← st_modify (λ t, t <| requested ::= λ q, q ∖ {[u]} |>); on_inner (tp_StopDetection u);
  tp_ClearConcurrentControlList a b := on_inner (tp_ClearConcurrentControlList a b) |}.
#[global] Instance tracked_detecting {T} : Detecting (Tracked T) := λ u t, bool_decide (u ∈ requested t).

Lemma on_inner_run {T A} (m : St T A) (t : Tracked T) :
  on_inner m t = ((m (inner t)).1, t <| inner := (m (inner t)).2 |>).
Proof. unfold on_inner. by destruct (m _). Qed.
Lemma on_inner_quiet {T A} (m : St T A) : quiet (on_inner m).
Proof. intros u t. by rewrite on_inner_run. Qed.
#[global] Instance tracked_laws {T} `{!TriggerPort T} : TriggerLaws (Tracked T).
Proof.
  constructor; intros; try apply on_inner_quiet.
  - unfold detecting, tracked_detecting. cbn. rewrite bind_run, on_inner_run. cbn.
    apply bool_decide_eq_false. set_solver.
  - intros v t. unfold detecting, tracked_detecting. cbn. rewrite bind_run, on_inner_run. cbn.
    rewrite !bool_decide_eq_true. set_solver.
Qed.

(** ** [DummyEngineManager] *)

#[global] Instance dummy_manager {T D} : EngineMgr unit T D := {|
  em_IsEngineExist _ _ := false;
  em_AnyEngineExist _ _ := false;
  em_GetEnrollResult _ _ := false;
  em_CreateEngine _ := mret None;
  em_CreateOrResetWakeupEngine := mret false;
  em_ReleaseEngineInner _ := mret 0;
  em_ClearUserDataInner := mret ();
  em_SilenceUpdate := mret 0;
  em_WhisperVprUpdate _ := mret 0;
  em_CloneUpdate _ _ := mret 0;
  em_ImplicitEnroll _ _ := mret 0;
  em_ServiceStopProc := mret 0;
  em_ClearWakeupEngineCb := mret ();
  em_DeviceServiceDie _ := mret ();
  em_IsNeedUpdateComplete _ _ := mret false;
  em_IsNeedUpdateRetry := mret false;
  em_EngineOnDetected _ := mret ();
  em_SetParameter _ _ := mret 0;
  em_SetDspSensibility _ := mret () |}.

(** ** [OnlyFirstEngineManager] *)

Module OnlyFirst.
(** [wakeupEngine_], the death recipient of the client, and the world of the engine. *)
Record OnlyFirstEngineManager (W : Type) := mkOnly {
  wakeupEngine_ : option nat; proxyDeathRecipient_ : bool; deathRecipientObj_ : option nat; only_world : W }.
#[global] Arguments mkOnly {W} _ _ _ _.
#[global] Arguments wakeupEngine_ {W} _.
#[global] Arguments proxyDeathRecipient_ {W} _.
#[global] Arguments deathRecipientObj_ {W} _.
#[global] Arguments only_world {W} _.
#[global] Instance OnlyFirst_eta W : Eta (OnlyFirstEngineManager W) :=
  λ m, mkOnly (wakeupEngine_ m) (proxyDeathRecipient_ m) (deathRecipientObj_ m) (only_world m).
#[global] Instance only_lens W : Lens (OnlyFirstEngineManager W) W :=
  {| view := only_world; set := λ w m, m <| only_world := w |> |}.
#[global] Instance only_lens_laws W : LensLaws (OnlyFirstEngineManager W) W.
Proof. constructor; [done|by intros []|done]. Qed.

Section only_first.
Context {W T D : Type} `{!EngineOps W T D}.
Abbreviation M := (St (Sys (OnlyFirstEngineManager W) T D)).

Definition IsEngineExist (type : Z) (m : OnlyFirstEngineManager W) : bool :=
  if type =? INTELL_VOICE_WAKEUP then
    match wakeupEngine_ m with Some _ => true | None => false end
  else false.
Definition AnyEngineExist (types : list Z) (m : OnlyFirstEngineManager W) : bool :=
  existsb (λ type, IsEngineExist type m) types.

(** [added] and [removed] are what the remote object answers. *)
Definition RegisterProxyDeathRecipient (type : Z) (object : nat) (added : bool) : M bool :=
  if negb (type =? INTELL_VOICE_WAKEUP) then mret false else
  set_ ← getc proxyDeathRecipient_;
  if (set_ : bool) then mret false else
  _ ← modc (λ m, m <| deathRecipientObj_ := Some object |> <| proxyDeathRecipient_ := true |>);
  mret added.
Definition DeregisterProxyDeathRecipient (type : Z) (removed : bool) : M bool :=
  if negb (type =? INTELL_VOICE_WAKEUP) then mret false else
  m ← getc id;
  match deathRecipientObj_ m with
  | None => mret false
  | Some _ =>
    if negb (proxyDeathRecipient_ m) then _ ← modc (λ m, m <| deathRecipientObj_ := None |>); mret false else
    _ ← modc (λ m, m <| deathRecipientObj_ := None |> <| proxyDeathRecipient_ := false |>);
    mret removed
  end.

(** What is done with the engine if there is one. *)
Definition on_engine {A} (dflt : A) (k : nat → M A) : M A :=
  engine ← getc wakeupEngine_;
  match engine with Some engine => k engine | None => mret dflt end.

Definition SetParameter (key value : str) : M Z :=
  on_engine 0 (λ engine, _ ← zoom (eo_SetParameter engine (kv_text key value)); mret 0).
Definition EngineOnDetected (uuid : Z) : M unit := on_engine () (λ engine, zoom (eo_OnDetected engine uuid)).
Definition CreateEngineInner (type : Z) : M (option nat) :=
  engine ← getc wakeupEngine_;
  match engine with
  | Some engine => mret (Some engine)
  | None =>
    engine ← zoom (eo_CreateEngineInst INTELL_VOICE_WAKEUP [] false);
    _ ← modc (λ m, m <| wakeupEngine_ := engine |>);
    mret engine
  end.
Definition CreateEngine (type : Z) : M (option nat) :=
  if negb (type =? INTELL_VOICE_WAKEUP) then mret None else CreateEngineInner type.
Definition CreateOrResetWakeupEngine : M bool :=
  engine ← getc wakeupEngine_;
  match engine with
  | Some engine => _ ← zoom (eo_ReleaseAdapter engine); zoom (eo_ResetAdapter engine)
  | None => engine ← CreateEngineInner INTELL_VOICE_WAKEUP; mret (match engine with Some _ => true | None => false end)
  end.
Definition ReleaseEngineInner (type : Z) : M Z :=
  if negb (type =? INTELL_VOICE_WAKEUP) then mret 0 else
  on_engine 0 (λ engine,
    _ ← zoom (eo_Detach engine);
    _ ← modc (λ m, m <| wakeupEngine_ := None |>);
    mret 0).
Definition ServiceStopProc : M Z := on_engine 0 (λ engine, _ ← zoom (eo_Detach engine); mret 0).
End only_first.
End OnlyFirst.

#[global] Instance only_first_manager {W T D} `{!EngineOps W T D} :
  EngineMgr (OnlyFirst.OnlyFirstEngineManager W) T D := {|
  em_IsEngineExist := OnlyFirst.IsEngineExist;
  em_AnyEngineExist := OnlyFirst.AnyEngineExist;
  em_GetEnrollResult _ _ := false;
  em_CreateEngine := OnlyFirst.CreateEngine;
  em_CreateOrResetWakeupEngine := OnlyFirst.CreateOrResetWakeupEngine;
  em_ReleaseEngineInner := OnlyFirst.ReleaseEngineInner;
  em_ClearUserDataInner := mret ();
  em_SilenceUpdate := mret 0;
  em_WhisperVprUpdate _ := mret 0;
  em_CloneUpdate _ _ := mret 0;
  em_ImplicitEnroll _ _ := mret 0;
  em_ServiceStopProc := OnlyFirst.ServiceStopProc;
  em_ClearWakeupEngineCb := mret ();
  em_DeviceServiceDie _ := mret ();
  em_IsNeedUpdateComplete _ _ := mret false;
  em_IsNeedUpdateRetry := mret false;
  em_EngineOnDetected := OnlyFirst.EngineOnDetected;
  em_SetParameter := OnlyFirst.SetParameter;
  em_SetDspSensibility _ := mret () |}.

(** ** [IntellVoiceEngineManager] *)

Section full_manager.
Context {H W T D : Type} `{!EngineHal H} `{!TriggerPort T} `{!KvStore D} {JL : JsonLib} {PL : Platform}.
Context `{!Lens W (Hw H)} `{!EngineOps W T D}.
#[global] Instance full_manager : EngineMgr (Mgr W) T D := {|
  em_IsEngineExist := IsEngineExist;
  em_AnyEngineExist := AnyEngineExist;
  em_GetEnrollResult t m := GetEnrollResult t (mgr_engines m);
  em_CreateEngine t := on_engines (CreateEngine t [] false);
  em_CreateOrResetWakeupEngine := on_engines CreateOrResetWakeupEngine;
  em_ReleaseEngineInner t := on_engines (ReleaseEngineInner t);
  em_ClearUserDataInner := ClearUserDataInner;
  em_SilenceUpdate := SilenceUpdate;
  em_WhisperVprUpdate := WhisperVprUpdate;
  em_CloneUpdate := CloneUpdate;
  em_ImplicitEnroll i o := on_engines (ImplicitEnroll i o);
  em_ServiceStopProc := on_engines ServiceStopProc;
  em_ClearWakeupEngineCb := on_engines ClearWakeupEngineCb;
  em_DeviceServiceDie := DeviceServiceDie;
  em_IsNeedUpdateComplete := IsNeedUpdateComplete;
  em_IsNeedUpdateRetry := IsNeedUpdateRetry;
  em_EngineOnDetected u := on_engines (EngineOnDetected u);
  em_SetParameter k v := on_engines (Manager_SetParameter k v);
  em_SetDspSensibility := SetDspSensibility |}.
End full_manager.

(** ** What is relied on of the engines *)

(** No member of an engine asks the trigger manager to start or stop detection. *)
Definition still {X T D A} `{!Detecting T} (m : St (Sys X T D) A) : Prop :=
  ∀ s u, detecting u (trig (m s).2) = detecting u (trig s).
Class QuietEngines (W T D : Type) `{!EngineOps W T D} `{!Detecting T} := {
  qe_create t p r : still (eo_CreateEngineInst t p r);
  qe_stop e : still (eo_Stop e);
  qe_detach e : still (eo_Detach e);
  qe_release e : still (eo_ReleaseAdapter e);
  qe_reset e : still (eo_ResetAdapter e);
  qe_set e kv : still (eo_SetParameter e kv);
  qe_callback e c : still (eo_SetCallback e c);
  qe_detected e u : still (eo_OnDetected e u) }.

(** * Lemmas *)

(** ** The laws of the engine managers *)

Lemma silent_gentle {E T D A} `{!EngineMgr E T D} `{!Detecting T} (m : St (Sys E T D) A) :
  silent m → (∀ s, em_IsEngineExist INTELL_VOICE_ENROLL (own (m s).2) = true →
                   em_IsEngineExist INTELL_VOICE_ENROLL (own s) = true) → gentle m.
Proof. intros Hm He U B s [HU HB]. split; [intros u Hu%Hm; auto|auto]. Qed.
Lemma gentle_silent {E T D A} `{!EngineMgr E T D} `{!Detecting T} (m : St (Sys E T D) A) : gentle m → silent m.
Proof. intros Hm s u Hu. exact (proj1 (Hm (λ u, detecting u (trig s) = true) True s (conj (λ _ h, h) (λ _, I))) u Hu). Qed.
Lemma ret_gentle {E T D A} `{!EngineMgr E T D} `{!Detecting T} (a : A) : gentle (E := E) (T := T) (D := D) (mret a).
Proof. by intros U B s Hs. Qed.

#[global] Instance dummy_laws {T D} `{!Detecting T} : EngineMgrLaws unit T D.
Proof. constructor; intros; try exact (ret_gentle _); [by induction l|by intros s u]. Qed.

Lemma still_silent {X T D A} `{!Detecting T} (m : St (Sys X T D) A) : still m → silent m.
Proof. intros Hm s u. by rewrite Hm. Qed.
Lemma void_still {X T D A} `{!Detecting T} (m : St (Sys X T D) A) : still m → still (st_void m).
Proof. intros Hm s u. rewrite void_run. apply Hm. Qed.
Lemma zoom_silent {X Y T D A} `{!Detecting T} `{!Lens Y X} (m : St (Sys X T D) A) :
  silent m → silent (zoom (Y := Y) m).
Proof. intros Hm s u. rewrite zoom_run. cbn. intros Hu%Hm. done. Qed.

(** Nothing more is detected than [U] says. *)
Definition within {X T D} `{!Detecting T} (U : Z → Prop) (s : Sys X T D) : Prop :=
  ∀ u, detecting u (trig s) = true → U u.
Lemma silent_within {X T D A} `{!Detecting T} (m : St (Sys X T D) A) :
  silent m ↔ ∀ U, ⟪ within U ⟫ m ⟪ λ _, within U ⟫.
Proof.
  split; [intros Hm U s HU u Hu%Hm; auto|]. intros Hm s. apply (Hm (λ u, detecting u (trig s) = true) s). by intros u.
Qed.
Lemma within_modc {X T D} `{!Detecting T} (U : Z → Prop) (f : X → X) :
  ⟪ within (T := T) (D := D) U ⟫ modc f ⟪ λ _, within U ⟫.
Proof. by intros s Hs. Qed.
Lemma within_getc {X T D A} `{!Detecting T} (U : Z → Prop) (f : X → A) :
  ⟪ within (T := T) (D := D) U ⟫ getc f ⟪ λ _, within U ⟫.
Proof. by intros s Hs. Qed.
Lemma within_zoom {X Y T D A} `{!Detecting T} `{!Lens Y X} (U : Z → Prop) (m : St (Sys X T D) A) :
  silent m → ⟪ within U ⟫ zoom (Y := Y) m ⟪ λ _, within U ⟫.
Proof. intros Hm. by apply silent_within, zoom_silent. Qed.
#[export] Hint Resolve within_modc within_getc : ivoice.
#[export] Hint Resolve still_silent void_still qe_create qe_stop qe_detach qe_release qe_reset qe_set qe_callback qe_detected : ivoice.
#[export] Hint Extern 1 (hoare (within _) (zoom _) _) => (apply within_zoom; solve [auto with ivoice nocore]) : ivoice.

Section only_first_laws.
Context {W T D : Type} `{!EngineOps W T D} `{!Detecting T} `{!QuietEngines W T D}.

#[global] Instance only_first_laws : EngineMgrLaws (OnlyFirst.OnlyFirstEngineManager W) T D.
Proof.
  constructor; intros; try exact (ret_gentle _); [done|..];
    try (apply silent_gentle; [|by intros s]); apply silent_within; intros U; cbn;
    unfold OnlyFirst.CreateEngine, OnlyFirst.CreateOrResetWakeupEngine, OnlyFirst.CreateEngineInner,
      OnlyFirst.ReleaseEngineInner, OnlyFirst.ServiceStopProc, OnlyFirst.EngineOnDetected, OnlyFirst.SetParameter,
      OnlyFirst.on_engine; keeps.
Qed.
End only_first_laws.

Section full_laws.
Context {H W T D : Type} `{!EngineHal H} `{!TriggerPort T} `{!KvStore D} {JL : JsonLib} {PL : Platform}.
Context `{!Lens W (Hw H)} `{!EngineOps W T D} `{!Detecting T} `{!TriggerLaws T} `{!QuietEngines W T D}.
Implicit Types s : Sys (Engines W) T D.

(** Nothing more is detected than [U] says, and an enrollment engine only if [B]. *)
Definition calm (U : Z → Prop) (B : Prop) s : Prop :=
  within U s ∧ (is_Some (engines_ (own s) !! INTELL_VOICE_ENROLL) → B).
Abbreviation keeps_calm m := (∀ U B, ⟪ calm U B ⟫ m ⟪ λ _, calm U B ⟫) (only parsing).

Lemma calm_zoom {A} (m : St (Sys W T D) A) U B : silent m → ⟪ calm U B ⟫ zoom m ⟪ λ _, calm U B ⟫.
Proof.
  intros Hm s [HU HB]. split; [by apply within_zoom|]. change (engines_ (own ?x)) with (alive x).
  by rewrite zoom_alive.
Qed.
Lemma calm_getc {A} (f : Engines W → A) U B : ⟪ calm U B ⟫ getc f ⟪ λ _, calm U B ⟫.
Proof. by intros s Hs. Qed.
Lemma calm_delete k U B : ⟪ calm U B ⟫ modc (λ e, e <| engines_ ::= delete k |>) ⟪ λ _, calm U B ⟫.
Proof. intros s [HU HB]. split; [done|]. cbn. intros [x [_ Hx]%lookup_delete_Some]. eauto. Qed.
Lemma calm_insert k e U B :
  k ≠ INTELL_VOICE_ENROLL → ⟪ calm U B ⟫ modc (λ x, x <| engines_ ::= <[k := e]> |>) ⟪ λ _, calm U B ⟫.
Proof. intros Hk s [HU HB]. split; [done|]. cbn. by rewrite lookup_insert_ne. Qed.
Hint Resolve calm_getc calm_delete : ivoice.
Hint Extern 1 (hoare (calm _ _) (zoom _) _) => (apply calm_zoom; solve [auto with ivoice nocore]) : ivoice.

Lemma calm_wakeup (m : nat → St (Sys W T D) unit) U B :
  (∀ e, silent (m e)) → ⟪ calm U B ⟫ on_wakeup m ⟪ λ _, calm U B ⟫.
Proof. intros Hm. unfold on_wakeup. keeps. Qed.
Lemma calm_inner type p r U B :
  type ≠ INTELL_VOICE_ENROLL → ⟪ calm U B ⟫ CreateEngineInner type p r ⟪ λ _, calm U B ⟫.
Proof.
  intros Ht. unfold CreateEngineInner, SetEnrollResult. keeps; [by intros s Hs|by apply calm_insert].
Qed.
Lemma calm_create type p r U B :
  type ≠ INTELL_VOICE_ENROLL → ⟪ calm U B ⟫ CreateEngine type p r ⟪ λ _, calm U B ⟫.
Proof.
  intros Ht. unfold CreateEngine, ApplyArbitration, HandlePreemption, HandleReplace. keeps.
  - apply calm_wakeup. auto with ivoice.
  - by apply calm_inner.
Qed.
Lemma calm_release type U B : ⟪ calm U B ⟫ ReleaseEngineInner type ⟪ λ _, calm U B ⟫.
Proof. unfold ReleaseEngineInner. keeps. Qed.

(** The same of the engine manager. *)
Definition mgr_calm (U : Z → Prop) (B : Prop) (s : Sys (Mgr W) T D) : Prop :=
  within U s ∧ (is_Some (engines_ (mgr_engines (own s)) !! INTELL_VOICE_ENROLL) → B).
Lemma enroll_exists (m : Mgr W) :
  IsEngineExist INTELL_VOICE_ENROLL m = true ↔ is_Some (engines_ (mgr_engines m) !! INTELL_VOICE_ENROLL).
Proof.
  unfold IsEngineExist, GetEngine. destruct (_ !! _) as [e|]; cbn; [|by split; [|intros []]]. split; [eauto|done].
Qed.
Lemma mgr_calm_gentle {A} (m : St (Sys (Mgr W) T D) A) :
  (∀ U B, ⟪ mgr_calm U B ⟫ m ⟪ λ _, mgr_calm U B ⟫) → gentle m.
Proof.
  intros Hm U B s [HU HB]. destruct (Hm U B s) as [HU' HB'].
  - split; [done|]. intros Hx%enroll_exists. auto.
  - split; [exact HU'|]. intros Hx. by apply HB', enroll_exists.
Qed.
Lemma mgr_engines_calm {A} (m : St (Sys (Engines W) T D) A) U B :
  ⟪ calm U B ⟫ m ⟪ λ _, calm U B ⟫ → ⟪ mgr_calm U B ⟫ on_engines m ⟪ λ _, mgr_calm U B ⟫.
Proof. intros Hm s Hs. exact (hoare_zoom (L := mgr_engines_lens W) _ _ _ Hm s Hs). Qed.
Lemma mgr_host_calm {A} (m : St (Hw H) A) U B : ⟪ mgr_calm U B ⟫ on_host m ⟪ λ _, mgr_calm U B ⟫.
Proof. intros s Hs. unfold on_host. by destruct (m _). Qed.
Lemma mgr_devices_calm {A} (m : St EngineDeviceManager A) U B :
  ⟪ mgr_calm U B ⟫ on_devices m ⟪ λ _, mgr_calm U B ⟫.
Proof. intros s Hs. unfold on_devices. by destruct (m _). Qed.
Lemma mgr_getc_calm {A} (f : Mgr W → A) U B : ⟪ mgr_calm U B ⟫ getc f ⟪ λ _, mgr_calm U B ⟫.
Proof. by intros s Hs. Qed.
Lemma mgr_trigger_calm {A} (m : St T A) U B : quiet m → ⟪ mgr_calm U B ⟫ on_trigger m ⟪ λ _, mgr_calm U B ⟫.
Proof. intros Hm s [HU HB]. rewrite on_trigger_run. split; [|done]. intros u Hu%Hm. auto. Qed.

(** The controller keeps what its virtual members keep. *)
Lemma ctl_calm (o : UpdateController.Op (Y := Engines W) (T := T) (D := D)) U B :
  match o with
  | OpEnv _ => True
  | _ => ∀ s : Sys (Ctl (Engines W)) T D, calm U B (with_own (rest (own s)) s) →
           calm U B (with_own (rest (own (do_op o s))) (do_op o s))
  end.
Proof.
  pose proof (rest_do_op (λ (e : Engines W) (t : T),
    (∀ u, detecting u t = true → U u) ∧ (is_Some (engines_ e !! INTELL_VOICE_ENROLL) → B))) as Hop.
  ospecialize (Hop _ _ o).
  - intros p r. change (⟪ calm U B ⟫ CreateUpdateEngine p r ⟪ λ _, calm U B ⟫). cbn. keeps. by apply calm_create.
  - change (⟪ calm U B ⟫ ReleaseUpdateEngine ⟪ λ _, calm U B ⟫). cbn. apply hoare_void, calm_release.
  - destruct o; exact Hop.
Qed.
Lemma mgr_ctl_calm {A} (m : St (Sys (Ctl (Engines W)) T D) A) U B :
  (∀ s : Sys (Ctl (Engines W)) T D, calm U B (with_own (rest (own s)) s) →
     calm U B (with_own (rest (own (m s).2)) (m s).2)) → ⟪ mgr_calm U B ⟫ on_ctl m ⟪ λ _, mgr_calm U B ⟫.
Proof.
  intros Hm s Hs. exact (hoare_zoom (L := ctl_lens W) (λ x : Sys (Ctl (Engines W)) T D, calm U B (with_own (rest (own x)) x))
    m (λ _ (x : Sys (Ctl (Engines W)) T D), calm U B (with_own (rest (own x)) x)) Hm s Hs).
Qed.
Lemma calm_implicit i ob U B : ⟪ calm U B ⟫ ImplicitEnroll i ob ⟪ λ _, calm U B ⟫.
Proof. unfold ImplicitEnroll. keeps. by apply calm_create. Qed.
Lemma calm_set k v U B : ⟪ calm U B ⟫ Manager_SetParameter k v ⟪ λ _, calm U B ⟫.
Proof.
  unfold Manager_SetParameter, ClearImplicitEnrollData. keeps; [by apply calm_create|].
  apply calm_wakeup. intros e. destruct (bool_decide _); auto with ivoice.
Qed.
Hint Resolve calm_release calm_implicit calm_set : ivoice.
Hint Resolve mgr_host_calm mgr_devices_calm mgr_getc_calm : ivoice.

#[global] Instance full_laws : EngineMgrLaws (Mgr W) T D.
Proof.
  constructor; intros; try (apply mgr_calm_gentle; intros U B); cbn [em_AnyEngineExist em_CreateEngine
    em_CreateOrResetWakeupEngine em_ReleaseEngineInner em_ClearUserDataInner em_SilenceUpdate em_WhisperVprUpdate
    em_CloneUpdate em_ImplicitEnroll em_ServiceStopProc em_ClearWakeupEngineCb em_DeviceServiceDie
    em_IsNeedUpdateComplete em_IsNeedUpdateRetry em_EngineOnDetected em_SetParameter em_SetDspSensibility full_manager];
    try (apply mgr_engines_calm; solve [auto with ivoice nocore]); [done|..].
  - apply zoom_silent, silent_within. intros U.
    unfold CreateEngine, ApplyArbitration, HandlePreemption, HandleReplace, CreateEngineInner, on_wakeup, SetEnrollResult.
    keeps.
  - apply mgr_engines_calm. by apply calm_create.
  - apply mgr_engines_calm. unfold CreateOrResetWakeupEngine. keeps. by apply calm_inner.
  - unfold ClearUserDataInner. keeps.
    + apply mgr_ctl_calm, (ctl_calm OpForce).
    + apply mgr_engines_calm, calm_wakeup. auto with ivoice.
  - apply mgr_ctl_calm, (ctl_calm (OpRequest _ _)).
  - apply mgr_ctl_calm, (ctl_calm (OpRequest _ _)).
  - unfold CloneUpdate. keeps. apply mgr_ctl_calm, (ctl_calm (OpRequest _ _)).
  - apply mgr_engines_calm. unfold ServiceStopProc. keeps.
  - apply mgr_engines_calm, calm_wakeup. auto with ivoice.
  - unfold DeviceServiceDie. keeps.
  - unfold IsNeedUpdateComplete. keeps. apply mgr_ctl_calm, (ctl_calm (OpComplete _ _)).
  - unfold IsNeedUpdateRetry. keeps. apply mgr_ctl_calm, (ctl_calm OpRetry).
  - apply mgr_engines_calm, calm_wakeup. auto with ivoice.
  - unfold SetDspSensibility. keeps; apply mgr_trigger_calm; [apply tl_get|apply tl_set].
Qed.

(** What the engines and the update timer do by themselves. *)
Lemma timer_gentle : gentle (on_ctl (W := W) (T := T) (D := D) TimerThread).
Proof. apply mgr_calm_gentle. intros U B. apply mgr_ctl_calm, (ctl_calm OpTimer). Qed.
Lemma engine_gentle (m : St (Sys W T D) unit) : silent m → gentle (on_engines (zoom m)).
Proof. intros Hm. apply mgr_calm_gentle. intros U B. by apply mgr_engines_calm, calm_zoom. Qed.
End full_laws.

(** ** Runs *)

Section runs.
Context {E Q T D : Type} `{!EngineMgr E T D} `{!DataShare Q} `{!TriggerPort T} `{!KvStore D}.
Context {JL : JsonLib} {PL : Platform} {BL : SvcBuild}.
Definition run_sop (s : Sys (Svc E Q) T D) (o : SvcOp (E := E) (Q := Q) (T := T) (D := D)) : Sys (Svc E Q) T D :=
  (do_sop o s).2.
Lemma run_undisturbed `{!Detecting T} `{!TriggerLaws T} `{!EngineMgrLaws E T D} ops (s : Sys (Svc E Q) T D) :
  Forall sop_ok ops → undisturbed s → undisturbed (foldl run_sop s ops).
Proof.
  intros Hops. revert s. induction Hops as [|o ops Ho Hops IH]; intros s Hs; [done|].
  apply IH. by apply inv_sop.
Qed.
End runs.

(** ** The way to a started detection *)

Section starting.
Context {H W Q T D : Type} `{!EngineHal H} `{!DataShare Q} `{!TriggerPort T} `{!KvStore D}.
Context {JL : JsonLib} {PL : Platform} {BL : SvcBuild}.
Context `{!Lens W (Hw H)} `{!EngineOps W (Tracked T) D} `{!QuietEngines W (Tracked T) D}.
Implicit Types s : Sys (Svc (Mgr W) Q) (Tracked T) D.

(** No enrollment and no update. *)
Definition free (m : Mgr W) : Prop :=
  engines_ (mgr_engines m) !! INTELL_VOICE_ENROLL = None ∧ engines_ (mgr_engines m) !! INTELL_VOICE_UPDATE = None ∧
  isUpdating_ (ctl m) = false.
Lemma free_spec (v : Svc (Mgr W) Q) : busy (T := Tracked T) (D := D) v = false ↔ free (emgr v).
Proof.
  unfold busy, free. cbn. unfold IsEngineExist, GetEngine. cbn.
  destruct (engines_ _ !! INTELL_VOICE_ENROLL), (engines_ _ !! INTELL_VOICE_UPDATE), (isUpdating_ _); cbn; intuition done.
Qed.

(** Making the wakeup engine keeps the manager free, and detection as it is. *)
Definition idle_engines (x : Sys (Engines W) (Tracked T) D) : Prop :=
  engines_ (own x) !! INTELL_VOICE_ENROLL = None ∧ engines_ (own x) !! INTELL_VOICE_UPDATE = None.
Lemma idle_inner p r : ⟪ idle_engines ⟫ CreateEngineInner INTELL_VOICE_WAKEUP p r ⟪ λ _, idle_engines ⟫.
Proof.
  intros x Hx. pose proof (CreateEngineInner_spec INTELL_VOICE_WAKEUP p r x) as Hc. cbv zeta in Hc.
  destruct (alive x !! INTELL_VOICE_WAKEUP); [by rewrite Hc|].
  destruct (CreateEngineInner _ _ _ x) as [[e|] y]; cbn in *; unfold idle_engines, alive in *; rewrite Hc; [|done].
  by rewrite !lookup_insert_ne.
Qed.
Lemma idle_create p r : ⟪ idle_engines ⟫ CreateEngine INTELL_VOICE_WAKEUP p r ⟪ λ _, idle_engines ⟫.
Proof.
  intros x Hx. pose proof (CreateEngine_spec INTELL_VOICE_WAKEUP p r x) as Hc. cbv zeta in Hc.
  rewrite bool_decide_false in Hc by (by intros []). unfold after_arbitration in Hc. rewrite decide_False in Hc by done.
  unfold alive, idle_engines in *. destruct (engines_ (own x) !! INTELL_VOICE_WAKEUP).
  - destruct Hc as [_ ->]. done.
  - destruct (CreateEngine _ _ _ x) as [[e|] y]; cbn in *; rewrite Hc; [|done]. by rewrite !lookup_insert_ne.
Qed.
Lemma idle_zoom {A} (m : St (Sys W (Tracked T) D) A) : ⟪ idle_engines ⟫ zoom m ⟪ λ _, idle_engines ⟫.
Proof. intros x Hx. unfold idle_engines. change (engines_ (own ?x)) with (alive x). by rewrite zoom_alive. Qed.
Hint Resolve idle_inner idle_create idle_zoom : ivoice.
Lemma idle_reset : ⟪ idle_engines ⟫ CreateOrResetWakeupEngine ⟪ λ _, idle_engines ⟫.
Proof. unfold CreateOrResetWakeupEngine, getc. keeps. Qed.

Lemma free_engines {A} (m : St (Sys (Engines W) (Tracked T) D) A) (x : Sys (Mgr W) (Tracked T) D) :
  ⟪ idle_engines ⟫ m ⟪ λ _, idle_engines ⟫ → free (own x) → free (own (on_engines m x).2).
Proof.
  intros Hm (H0 & H2 & Hu). unfold on_engines. rewrite zoom_run. cbn [fst snd].
  destruct (Hm (with_own (view (own x)) x)) as [H0' H2']; [done|]. split_and!; [exact H0'|exact H2'|done].
Qed.

(** Nothing is in the way of detecting [uuid]. *)
Definition ready (uuid : Z) s : Prop := free (emgr (own s)) ∧ QuerySwitchByUuid uuid (own s) = true.
Abbreviation keeps_ready uuid m := (⟪ ready uuid ⟫ m ⟪ λ _, ready uuid ⟫) (only parsing).
Lemma ready_E {A} uuid (m : St (Sys (Engines W) (Tracked T) D) A) :
  ⟪ idle_engines ⟫ m ⟪ λ _, idle_engines ⟫ → keeps_ready uuid (on_E (on_engines m)).
Proof.
  intros Hm s [Hf Hq]. unfold on_E. rewrite zoom_run. split; [|exact Hq]. by apply free_engines.
Qed.
Lemma ready_trigger {A} uuid (m : St (Tracked T) A) : keeps_ready uuid (on_trigger m).
Proof. intros s Hs. by rewrite on_trigger_run. Qed.
Lemma ready_emit uuid o : keeps_ready uuid (emit o).
Proof. by intros s Hs. Qed.
Lemma ready_getc {A} uuid (f : Svc (Mgr W) Q → A) : keeps_ready uuid (getc f).
Proof. by intros s Hs. Qed.
Hint Resolve ready_trigger ready_emit ready_getc : ivoice.

Lemma StartDetection_starts uuid :
  ⟪ ready uuid ⟫ StartDetection uuid ⟪ λ _ s, uuid ∈ requested (trig s) ⟫.
Proof.
  intros s [Hf%free_spec Hq]. unfold StartDetection. rewrite getc_bind, Hf, getc_bind, Hq. cbn [negb].
  rewrite bind_run, on_trigger_run. cbn [fst snd]. set (s1 := s <| trig := _ |>).
  assert (uuid ∈ requested (trig s1)) as Hs1 by (unfold s1; cbn; rewrite bind_run, on_inner_run; cbn; set_solver).
  clearbody s1. destruct (_ =? 1); [by run|destruct (_ =? 0); [|done]].
  unfold AddStartDetectionTask. destruct USE_FFRT; [|done]. cbn [negb]. rewrite getc_bind. by destruct (taskHandle_ _ !! uuid).
Qed.

(** The model may be detected. *)
Definition model_there (uuid : Z) (t : Tracked T) : Prop :=
  TRIGGER_ENABLE = true → tp_IsModelExist uuid t = true.
Definition file_there (uuid : Z) : Prop := uuid = PROXIMAL_WAKEUP_MODEL_UUID → IsFileExist WHISPER_MODEL_PATH = true.

Lemma SwitchOn_starts uuid b s :
  ready uuid s → model_there uuid (trig s) → file_there uuid → uuid ∈ requested (trig (SwitchOnProc uuid b s).2).
Proof.
  intros Hs Hm Hw. pose proof Hs as [Hf%free_spec Hq]. unfold SwitchOnProc. rewrite getc_bind, Hf, getc_bind, Hq.
  cbn [negb]. rewrite bind_run. cbn [mret st_ret snd]. unfold CreateAndStartServiceObject.
  replace (_ && negb (IsFileExist WHISPER_MODEL_PATH)) with false.
  2: { destruct (Z.eqb_spec uuid PROXIMAL_WAKEUP_MODEL_UUID) as [->|]; [|done]. by rewrite (Hw eq_refl). }
  rewrite bind_run. cbn [fst snd st_gets]. replace (TRIGGER_ENABLE && _) with false.
  2: { unfold model_there in Hm. destruct TRIGGER_ENABLE; [|done]. by rewrite (Hm eq_refl). }
  rewrite getc_bind, Hq. cbn [negb].
  assert (∀ m : St _ unit, keeps_ready uuid m → ∀ k : St _ unit, (∀ s, ready uuid s → uuid ∈ requested (trig (k s).2)) →
    ∀ s, ready uuid s → uuid ∈ requested (trig ((_ ← m; k) s).2)) as Hstep.
  { intros m Hk k Hk' s' Hs'. rewrite bind_run. apply Hk', Hk, Hs'. }
  revert s Hs Hm Hf Hq. intros s Hs _ _ _. revert s Hs.
  apply Hstep; [apply hoare_when; destruct b; apply hoare_void, ready_E; auto with ivoice; apply idle_reset|].
  apply Hstep; [auto with ivoice|]. apply Hstep.
  { unfold SetShortWordStatus, SetDualMicStatus. keeps. }
  intros s Hs. rewrite void_run. by apply StartDetection_starts.
Qed.

(** A step whose effect does not matter. *)
Lemma hoare_skip {S A B} (m : St S A) (k : A → St S B) (R : B → S → Prop) :
  (∀ a, ⟪ λ _, True ⟫ k a ⟪ R ⟫) → ⟪ λ _, True ⟫ m ≫= k ⟪ R ⟫.
Proof. intros Hk x Hx. rewrite bind_run. by apply Hk. Qed.

(** The last completion leaves no update, and then nothing keeps detection off. *)
Lemma last_completion result param :
  ⟪ λ _ : Sys (Ctl (Engines W)) (Tracked T) D, True ⟫ UpdateCompleteProc result param
  ⟪ λ b x, b = true → isUpdating_ (own x) = false ∧ engines_ (rest (own x)) !! INTELL_VOICE_UPDATE = None ⟫.
Proof.
  unfold UpdateCompleteProc. apply hoare_skip. intros []; [by apply hoare_skip; intros [] x|].
  apply hoare_skip. intros st. destruct (negb _); [by intros x|].
  do 4 (apply hoare_skip; intros ?). eapply (hoare_bind _ _ (λ b x, b = true → isUpdating_ (own x) = false)).
  - match goal with |- hoare _ (if ?b then _ else _) _ => destruct b; [by intros x|] end. apply hoare_skip. intros st'. apply hoare_skip. by intros _ x.
  - intros b x Hx. rewrite bind_run. cbn [mret st_ret fst snd]. intros ->. rewrite zoom_run. cbn [fst snd].
    split; [exact (Hx eq_refl)|].
    change (alive (ReleaseUpdateEngine (with_own (rest (own x)) x)).2 !! INTELL_VOICE_UPDATE = None).
    cbn [ReleaseUpdateEngine manager_host]. rewrite void_run. cbn [snd].
    by rewrite ReleaseEngineInner_alive, lookup_delete_eq.
Qed.
Lemma completed_free result param (x : Sys (Mgr W) (Tracked T) D) :
  (IsNeedUpdateComplete result param x).1 = true → free (own (IsNeedUpdateComplete result param x).2).
Proof.
  unfold IsNeedUpdateComplete. rewrite bind_run, getc_bind. cbn [fst snd mret st_ret].
  pose proof (last_completion result param (with_own (ctl (own x)) x) I) as Hl. unfold on_ctl. rewrite zoom_run. cbn [fst snd].
  change (view (own x)) with (ctl (own x)). destruct (UpdateCompleteProc _ _ _) as [b y]. cbn [fst snd] in *.
  intros [He ->%negb_false_iff]%negb_true_iff%orb_false_iff. destruct (Hl eq_refl) as [Hu Hn].
  split_and!; [|exact Hn|exact Hu]. destruct (engines_ _ !! INTELL_VOICE_ENROLL) eqn:Hx; [|done].
  rewrite (proj2 (enroll_exists _)) in He; [done|eauto].
Qed.

End starting.

(** What has been requested stays so while detection is started elsewhere. *)
Definition asked {X T D} `{!Detecting T} (u : Z) (s : Sys X T D) : Prop := detecting u (trig s) = true.
Lemma asked_still {X T D A} `{!Detecting T} u (m : St (Sys X T D) A) : still m → ⟪ asked u ⟫ m ⟪ λ _, asked u ⟫.
Proof. intros Hm s Hs. unfold asked. by rewrite Hm. Qed.
Lemma asked_zoom {X Y T D A} `{!Detecting T} `{!Lens Y X} u (m : St (Sys X T D) A) :
  ⟪ asked u ⟫ m ⟪ λ _, asked u ⟫ → ⟪ asked u ⟫ zoom (Y := Y) m ⟪ λ _, asked u ⟫.
Proof. intros Hm s Hs. rewrite zoom_run. by apply (Hm (with_own (view (own s)) s)). Qed.
Lemma asked_frame {X T D A} `{!Detecting T} u (m : St (Sys X T D) A) :
  (∀ s, trig (m s).2 = trig s) → ⟪ asked u ⟫ m ⟪ λ _, asked u ⟫.
Proof. intros Hm s Hs. unfold asked. by rewrite Hm. Qed.
Lemma asked_inner {X T D A} u (m : St T A) : ⟪ asked (X := X) (D := D) u ⟫ on_trigger (on_inner m) ⟪ λ _, asked u ⟫.
Proof. intros s Hs. by rewrite on_trigger_run, on_inner_run. Qed.
Lemma asked_start {X T D} `{!TriggerPort T} u v :
  ⟪ asked (X := X) (T := Tracked T) (D := D) u ⟫ on_trigger (tp_StartDetection v) ⟪ λ _, asked u ⟫.
Proof.
  intros s Hs. rewrite on_trigger_run. cbn. rewrite bind_run, on_inner_run. apply bool_decide_eq_true_1 in Hs.
  apply bool_decide_eq_true_2. cbn. set_solver.
Qed.
#[export] Hint Resolve asked_zoom : ivoice.
#[export] Hint Extern 1 (hoare (asked _) (getc _) _) => (by apply asked_frame) : ivoice.
#[export] Hint Extern 1 (hoare (asked _) (modc _) _) => (by apply asked_frame) : ivoice.
#[export] Hint Extern 1 (hoare (asked _) (emit _) _) => (by apply asked_frame) : ivoice.
#[export] Hint Extern 1 (hoare (asked _) (on_trigger _) _) =>
  first [exact (asked_start _ _) | exact (asked_inner _ _)] : ivoice.
#[export] Hint Extern 1 (hoare (asked _) (zoom _) _) =>
  (apply asked_zoom, asked_still; solve [auto with ivoice nocore]) : ivoice.

Section restarting.
Context {H W Q T D : Type} `{!EngineHal H} `{!DataShare Q} `{!TriggerPort T} `{!KvStore D}.
Context {JL : JsonLib} {PL : Platform} {BL : SvcBuild}.
Context `{!Lens W (Hw H)} `{!EngineOps W (Tracked T) D} `{!QuietEngines W (Tracked T) D}.
Implicit Types s : Sys (Svc (Mgr W) Q) (Tracked T) D.
Abbreviation keeps_asked u m := (⟪ asked u ⟫ m ⟪ λ _, asked u ⟫) (only parsing).

Lemma asked_create u p r : ⟪ asked u ⟫ CreateEngine (W := W) INTELL_VOICE_WAKEUP p r ⟪ λ _, asked u ⟫.
Proof.
  unfold CreateEngine, ApplyArbitration, HandlePreemption, HandleReplace, CreateEngineInner, on_wakeup, SetEnrollResult. keeps.
Qed.
Lemma asked_reset u : ⟪ asked u ⟫ CreateOrResetWakeupEngine (W := W) ⟪ λ _, asked u ⟫.
Proof. unfold CreateOrResetWakeupEngine, CreateEngineInner, SetEnrollResult. keeps. Qed.
Lemma asked_switch_on u v b : keeps_asked u (SwitchOnProc (E := Mgr W) (Q := Q) v b).
Proof.
  unfold SwitchOnProc, CreateAndStartServiceObject, SetShortWordStatus, SetDualMicStatus, StartDetection,
    AddStartDetectionTask, StartAbility, on_E. cbn [em_CreateEngine em_CreateOrResetWakeupEngine full_manager]. unfold on_engines. keeps.
  - apply asked_zoom, asked_zoom, asked_reset.
  - apply asked_zoom, asked_zoom, asked_create.
Qed.
End restarting.

(** * Theorems *)

Section theorems.
Context {H W Q T D : Type} `{!EngineHal H} `{!DataShare Q} `{!TriggerPort T} `{!KvStore D}.
Context {JL : JsonLib} {PL : Platform} {BL : SvcBuild}.
Context `{!Lens W (Hw H)} `{!EngineOps W (Tracked T) D} `{!QuietEngines W (Tracked T) D}.
Implicit Types s : Sys (Svc (Mgr W) Q) (Tracked T) D.

(** An enrollment is not disturbed.  From the start of the service, whatever
    tasks the executor runs and whatever clients, switches, timers and engines do in
    between, in any order: while an enrollment engine exists, the last request the
    trigger manager got for either wakeup model is not a start. *)
Theorem no_detection_during_enrollment w0 q (ops : list (SvcOp (E := Mgr W) (Q := Q) (T := Tracked T) (D := D))) s
    (Hinit : own s = init_svc (init_mgr w0) q)
    (Hops : Forall sop_ok ops) :
  let s' := foldl run_sop s ops in
  IsEngineExist INTELL_VOICE_ENROLL (emgr (own s')) = true →
  (VOICE_WAKEUP_MODEL_UUID ∉ requested (trig s')) ∧ (PROXIMAL_WAKEUP_MODEL_UUID ∉ requested (trig s')).
Proof.
  cbv zeta. intros He. assert (undisturbed (foldl run_sop s ops)) as Hs.
  { apply run_undisturbed; [done|]. unfold undisturbed, enrolling. by rewrite Hinit. }
  specialize (Hs He). split; eapply bool_decide_eq_false_1, Hs; set_solver.
Qed.

(** Turning a switch on starts detection.  When no enrollment or update is
    there, the switch of the model is on, its model is stored (if the build has models)
    and, for the whisper model, its file is there, then [SwitchOnProc] ends with a start
    request for the model, whether it makes or resets the wakeup engine and whether or
    not that works. *)
Theorem switch_on_starts uuid needUpdateAdapter s
    (Hfree : AnyEngineExist [INTELL_VOICE_ENROLL; INTELL_VOICE_UPDATE] (emgr (own s)) = false)
    (Hswitch : QuerySwitchByUuid uuid (own s) = true)
    (Hmodel : TRIGGER_ENABLE = true → tp_IsModelExist uuid (inner (trig s)) = true)
    (Hfile : uuid = PROXIMAL_WAKEUP_MODEL_UUID → IsFileExist WHISPER_MODEL_PATH = true) :
  uuid ∈ requested (trig (SwitchOnProc uuid needUpdateAdapter s).2).
Proof. apply SwitchOn_starts; [|done|done]. split; [|done]. by apply free_spec. Qed.

(** The end of an update restarts detection.  When the completion of an update
    is found to be its last one and no enrollment is there, and no whisper update
    follows, the task ends with a start request for the voice model, if its switch is
    on and its model is stored. *)
Theorem update_end_restarts result param s
    (Hlast : (IsNeedUpdateComplete result param (with_own (emgr (own s)) s)).1 = true)
    (Hwhisper : IsFileExist WHISPER_VPR_CONFIG_PATH = false ∨ param = lit "WhisperVprUpdate")
    (Hswitch : QuerySwitchStatus WAKEUP_KEY (own s) = true)
    (Hmodel : TRIGGER_ENABLE = true → tp_IsModelExist VOICE_WAKEUP_MODEL_UUID
       (inner (trig (IsNeedUpdateComplete result param (with_own (emgr (own s)) s)).2)) = true) :
  VOICE_WAKEUP_MODEL_UUID ∈ requested (trig (exec (THandleUpdateComplete result param) s).2).
Proof.
  cbn [exec]. unfold HandleUpdateComplete_task. rewrite bind_run. unfold on_E. cbn [em_IsNeedUpdateComplete full_manager].
  rewrite zoom_run. cbn [fst snd]. change (view (own s)) with (emgr (own s)). rewrite Hlast. cbn [andb].
  pose proof (completed_free result param _ Hlast) as Hfree.
  replace (IsFileExist WHISPER_VPR_CONFIG_PATH && _) with false.
  2: { destruct Hwhisper as [->| ->]; [done|]. rewrite bool_decide_true by done. by rewrite andb_false_r. }
  destruct (IsNeedUpdateComplete _ _ _) as [b x]. cbn [fst snd] in *. cbn [st_when]. unfold restart_and_unload.
  set (s1 := with_own _ x). assert (VOICE_WAKEUP_MODEL_UUID ∈ requested (trig (SwitchOnProc VOICE_WAKEUP_MODEL_UUID true s1).2))
    as Hon by (by apply SwitchOn_starts).
  rewrite !bind_run, void_run. eapply bool_decide_eq_true_1.
  set (s2 := (SwitchOnProc VOICE_WAKEUP_MODEL_UUID true s1).2) in *.
  assert (asked VOICE_WAKEUP_MODEL_UUID (SwitchOnProc PROXIMAL_WAKEUP_MODEL_UUID true s2).2) as H2.
  { apply asked_switch_on. by apply bool_decide_eq_true_2. }
  unfold UnloadIntellVoiceService. rewrite getc_bind. destruct (negb _); exact H2.
Qed.
End theorems.

(** * A system to run

    The recording engines of [EngineManager.v], with types that cannot be made; a
    trigger manager that answers as the audio HAL is ready or not; switches by key. *)
Record RefWorld := mkRefWorld { rw_log : LogWorld; rw_refused : list Z }.
#[global] Instance RefWorld_eta : Eta RefWorld := λ w, mkRefWorld (rw_log w) (rw_refused w).
#[global] Instance rw_log_lens : Lens RefWorld LogWorld := {| view := rw_log; set l w := w <| rw_log := l |> |}.
#[global] Instance rw_lens : Lens RefWorld (Hw RefHal) :=
  {| view w := lw_hw (rw_log w); set h w := w <| rw_log ::= λ l, l <| lw_hw := h |> |> |}.
#[global] Instance rw_engines T D : EngineOps RefWorld T D := {|
  eo_CreateEngineInst t p r :=
    refused ← getc rw_refused;
    if bool_decide (t ∈ refused) then mret None else zoom (eo_CreateEngineInst t p r);
  eo_Stop e := zoom (eo_Stop e);
  eo_Detach e := zoom (eo_Detach e);
  eo_ReleaseAdapter e := zoom (eo_ReleaseAdapter e);
  eo_ResetAdapter e := zoom (eo_ResetAdapter e);
  eo_SetParameter e kv := zoom (eo_SetParameter e kv);
  eo_SetCallback e c := zoom (eo_SetCallback e c);
  eo_OnDetected e u := zoom (eo_OnDetected e u) |}.
#[global] Instance rw_quiet T D : QuietEngines RefWorld (Tracked T) D.
Proof.
  constructor; repeat intro; try done. cbn. rewrite getc_bind. by destruct (bool_decide _).
Qed.

Record RefTrig := mkRefTrig { rt_ready : bool; rt_detects : gset Z }.
#[global] Instance RefTrig_eta : Eta RefTrig := λ t, mkRefTrig (rt_ready t) (rt_detects t).
#[global] Instance ref_trig : TriggerPort RefTrig := {|
  tp_GetParameter k := st_gets (λ t,
    if bool_decide (k = "audio_hal_status"%string) then if rt_ready t then lit "true" else lit "false" else []);
  tp_SetParameter _ _ := mret 0;
  tp_UpdateModel _ _ _ := mret ();
  tp_DeleteModel _ := mret ();
  tp_IsModelExist u _ := bool_decide (u ∈ [1; 2]);
  tp_CreateDetector _ := mret ();
  tp_ReleaseTriggerDetector u := st_modify (λ t, t <| rt_detects ::= λ d, d ∖ {[u]} |>);
  tp_StartDetection u := λ t, if rt_ready t then (1, t <| rt_detects ::= λ d, d ∪ {[u]} |>) else (0, t);
  tp_StopDetection u := st_modify (λ t, t <| rt_detects ::= λ d, d ∖ {[u]} |>);
  tp_ClearConcurrentControlList _ _ := mret () |}.
#[global] Instance ref_share : DataShare (gmap string str) := {|
  ds_Query k q := (Some (match q !! k with Some v => [v] | None => [] end), false);
  ds_RetryQuery _ _ := None |}.
#[global] Instance ref_build : SvcBuild := {|
  TRIGGER_ENABLE := true; ENGINE_OR_ONESHOT := true; USE_FFRT := true; ONLY_FIRST_STAGE := false;
  FIRST_STAGE_ONESHOT := false; RECORD_CONCURRENT := false |}.
(** A platform that has the whisper model but not its voice print configuration, and
    one that has both. *)
Definition files_platform (files : list string) : Platform := {|
  ReadFile _ := None; IsFileExist f := bool_decide (f ∈ files); version_line := None; ability_client := true; thread_ok := true |}.

Abbreviation RefSvc := (Sys (Svc (Mgr RefWorld) (gmap string str)) (Tracked RefTrig) (gmap string str)).
Abbreviation RefOp := (SvcOp (E := Mgr RefWorld) (Q := gmap string str) (T := Tracked RefTrig) (D := gmap string str)).
Definition ref_svc (refused : list Z) (ready : bool) : RefSvc :=
  mkSys (init_svc (init_mgr (mkRefWorld (mkLog ref_hw 0 []) refused)) {[WAKEUP_KEY := lit "1"]})
        (mkTracked (mkRefTrig ready ∅) ∅) (Some ∅) [] [] 0.
(** The audio HAL becomes ready or not. *)
Definition hal (ready : bool) : RefOp :=
  SEngine (on_trigger (st_modify (λ t, t <| inner ::= λ i, i <| rt_ready := ready |> |>))).
(** The enrollment engine reports success. *)
Definition enrolled : RefOp := SEngine (on_engines (SetEnrollResult INTELL_VOICE_ENROLL true)).
Definition run_svc {PL : Platform} (ops : list RefOp) (s : RefSvc) : RefSvc := foldl run_sop s ops.

(** ** Witnesses *)

Definition enrolling_run : list RefOp :=
  [SProvider true; SPush (TSwitchOn 1 false); SExec; SPush (TCreateEngine 0); SExec; SPush (TSwitchOn 1 true); SExec].
Example enrolling_run_stops :
  requested (trig (run_svc (take 3 enrolling_run) (ref_svc [] true))) = {[1]} ∧
  IsEngineExist INTELL_VOICE_ENROLL (emgr (own (run_svc enrolling_run (ref_svc [] true)))) = true.
Proof. vm_compute. done. Qed.
Lemma no_detection_during_enrollment_witness :
  1 ∉ requested (trig (run_svc enrolling_run (ref_svc [] true))).
Proof.
  refine (proj1 (no_detection_during_enrollment (mkRefWorld (mkLog ref_hw 0 []) []) _ enrolling_run (ref_svc [] true) eq_refl _ _)).
  - by repeat constructor.
  - vm_compute. reflexivity.
Defined.

Lemma switch_on_starts_witness :
  1 ∈ requested (trig (SwitchOnProc 1 true (run_svc [SProvider true] (ref_svc [INTELL_VOICE_WAKEUP] false))).2).
Proof. apply switch_on_starts; try done; vm_compute; reflexivity. Defined.

Definition updating_run : list RefOp := [SProvider true; SPush (TCloneUpdate (lit "A=1") (Some 1%nat)); SExec].
Lemma update_end_restarts_witness :
  VOICE_WAKEUP_MODEL_UUID ∈
    requested (trig (exec (THandleUpdateComplete 0 (lit "A=1")) (run_svc updating_run (ref_svc [] true))).2).
Proof.
  apply update_end_restarts; [vm_compute; reflexivity|left; vm_compute; reflexivity|vm_compute; reflexivity|].
  intros _. vm_compute. reflexivity.
Defined.

(** ** Detection that is not started again *)

(** Nothing is left that would start detection of the voice model, although the audio
    HAL is ready, the switch is on and no engine is in the way. *)
Definition left_off (s : RefSvc) : bool :=
  bool_decide (rt_detects (inner (trig s)) = ∅) && rt_ready (inner (trig s)) && QuerySwitchByUuid 1 (own s)
  && negb (busy (T := Tracked RefTrig) (D := gmap string str) (own s)) && bool_decide (tasks s = [])
  && bool_decide (ffrtQueue (own s) = []).

(** A wait for the audio HAL after an enrollment is lost.  Detection runs, an
    enrollment stops it and ends while the audio HAL is not ready: the restart waits
    for the HAL.  When the HAL is ready, the waiting task finds [isStarted_] still set
    from before the enrollment, which no stop clears, and detection stays off. *)
Theorem hal_wait_lost :
  let before := run_svc [SProvider true; SPush (TSwitchOn 1 false); SExec] (ref_svc [] true) in
  let waiting := run_svc [SPush (TCreateEngine 0); SExec; hal false; SPush (TReleaseEngine 0); SExec] before in
  let after := run_svc [hal true; SWaitingTask; SExec] waiting in
  rt_detects (inner (trig before)) = {[1]} ∧ ffrtQueue (own waiting) = [1] ∧ left_off after = true.
Proof. vm_compute. done. Qed.

(** A whisper update that cannot start leaves detection off.  After a successful
    enrollment on a device with the whisper configuration, detection is to be started
    at the end of the whisper update; when its engine cannot be made, the failure is
    ignored and nothing starts detection. *)
Theorem failed_whisper_update_leaves_off :
  let PL := files_platform [WHISPER_VPR_CONFIG_PATH] in
  let before := run_svc [SProvider true; SPush (TSwitchOn 1 false); SExec] (ref_svc [INTELL_VOICE_UPDATE] true) in
  let after := run_svc [SPush (TCreateEngine 0); SExec; enrolled; SPush (TReleaseEngine 0); SExec; SExec] before in
  rt_detects (inner (trig before)) = {[1]} ∧ left_off after = true.
Proof. vm_compute. done. Qed.

(** A parameter list with [clear_data] loses the pairs whose keys come after it. *)
Example later_pairs_dropped :
  let s := run_svc [SSetParameter (lit "clear_data=x;wakeup_bundle_name=b")] (ref_svc [] true) in
  tasks s = [TDataClear (lit "clear_data") (lit "x")] ∧ db s = Some ∅.
Proof. vm_compute. done. Qed.

(** A switch notification after the provider is gone dereferences it. *)
Example late_switch_notification :
  (OnSwitchChange WAKEUP_KEY (run_svc [SProvider true; SReleaseProvider] (ref_svc [] true))).1 = false.
Proof. vm_compute. reflexivity. Qed.
