(* ===== verification/Parcel.v ===== *)
(** * Parcels and requests

    The inter-process calls: [MessageParcel] is library code, the
    class [ParcelLib].  [ParcelLaws] states
    what the proxies and stubs rely on: a parcel gives back, in their order, the items
    written to it, as long as they fit into it.  Words of 32 bits are read with either
    sign.  [listed] is a parcel that is the list of its items, an instance of the
    laws; [parcel_with] refuses some items.

    A stub is a function from the code and the data of a request to a result and a
    reply ([Stub]), and so is [Remote()->SendRequest] of a proxy.  [carries] says that
    a request reaches the stub, and that its result is the error of [SendRequest];
    [down] that the request fails.  *)

From S2P Require Import Prelude StringUtil.

(** ** The library *)

(** The readers return a default or a null pointer when the parcel holds no such item. *)
Class ParcelLib (P : Type) := {
  new_parcel : P;
  WriteInterfaceToken : str → St P bool;
  WriteBool : bool → St P bool;
  WriteInt32 : Z → St P bool;
  WriteUint32 : Z → St P bool;
  WriteString : str → St P bool;
  WriteBuffer : list Z → St P bool;
  WriteRemoteObject : option nat → St P bool;
  WriteAshmem : nat → St P bool;
  ReadInterfaceToken : St P str;
  ReadBool : St P bool;
  ReadInt32 : St P Z;
  ReadUint32 : St P Z;
  ReadString : St P str;
  ReadBuffer : Z → St P (option (list Z));
  ReadRemoteObject : St P (option nat);
  ReadAshmem : St P nat;
  IPCObjectStub_OnRemoteRequest : Z → P → Z * P }.

(** What a parcel holds. *)
Inductive Item :=
| IToken (s : str)
| IBool (b : bool)
| IWord (w : Z)
| IString (s : str)
| IBuffer (b : list Z)
| IObject (o : nat)
| IAshmem (a : nat).

(** [holds p l]: what is still to be read of [p] is [l]; [fits l]: a parcel has room
    for [l]. *)
Class ParcelLaws (P : Type) `{!ParcelLib P} := {
  holds : P → list Item → Prop;
  fits : list Item → Prop;
  fits_prefix l l' : fits (l ++ l') → fits l;
  holds_new : holds new_parcel [];
  write_token s p l : holds p l → fits (l ++ [IToken s]) →
    (WriteInterfaceToken s p).1 = true ∧ holds (WriteInterfaceToken s p).2 (l ++ [IToken s]);
  write_bool b p l : holds p l → fits (l ++ [IBool b]) →
    (WriteBool b p).1 = true ∧ holds (WriteBool b p).2 (l ++ [IBool b]);
  write_int32 z p l : holds p l → fits (l ++ [IWord (u32 z)]) →
    (WriteInt32 z p).1 = true ∧ holds (WriteInt32 z p).2 (l ++ [IWord (u32 z)]);
  write_uint32 z p l : holds p l → fits (l ++ [IWord (u32 z)]) →
    (WriteUint32 z p).1 = true ∧ holds (WriteUint32 z p).2 (l ++ [IWord (u32 z)]);
  write_string s p l : holds p l → fits (l ++ [IString s]) →
    (WriteString s p).1 = true ∧ holds (WriteString s p).2 (l ++ [IString s]);
  write_buffer b p l : holds p l → fits (l ++ [IBuffer b]) →
    (WriteBuffer b p).1 = true ∧ holds (WriteBuffer b p).2 (l ++ [IBuffer b]);
  write_object o p l : holds p l → fits (l ++ [IObject o]) →
    (WriteRemoteObject (Some o) p).1 = true ∧ holds (WriteRemoteObject (Some o) p).2 (l ++ [IObject o]);
  write_null p l : holds p l → holds (WriteRemoteObject None p).2 l;
  write_ashmem a p l : holds p l → fits (l ++ [IAshmem a]) →
    (WriteAshmem a p).1 = true ∧ holds (WriteAshmem a p).2 (l ++ [IAshmem a]);
  read_token s p l : holds p (IToken s :: l) → (ReadInterfaceToken p).1 = s ∧ holds (ReadInterfaceToken p).2 l;
  read_bool b p l : holds p (IBool b :: l) → (ReadBool p).1 = b ∧ holds (ReadBool p).2 l;
  read_int32 w p l : holds p (IWord w :: l) → (ReadInt32 p).1 = i32 w ∧ holds (ReadInt32 p).2 l;
  read_uint32 w p l : holds p (IWord w :: l) → (ReadUint32 p).1 = w ∧ holds (ReadUint32 p).2 l;
  read_string s p l : holds p (IString s :: l) → (ReadString p).1 = s ∧ holds (ReadString p).2 l;
  read_buffer b n p l :
    holds p (IBuffer b :: l) → n = Z.of_nat (length b) →
    (ReadBuffer n p).1 = Some b ∧ holds (ReadBuffer n p).2 l;
  read_object o p l : holds p (IObject o :: l) → (ReadRemoteObject p).1 = Some o ∧ holds (ReadRemoteObject p).2 l;
  read_no_object p : holds p [] → (ReadRemoteObject p).1 = None;
  read_ashmem a p l : holds p (IAshmem a :: l) → (ReadAshmem p).1 = a ∧ holds (ReadAshmem p).2 l }.

(** A parcel that is the list of its items, and takes the items [room] says. *)
Definition listed : Type := list Item.
Definition list_read {A} (dflt : A) (f : Item → option A) : St listed A := λ p,
  match p with
  | [] => (dflt, p)
  | i :: l => match f i with Some x => (x, l) | None => (dflt, p) end
  end.
Section room.
Context (room : Item → bool).
Definition list_write (i : Item) : St listed bool := λ p, if room i then (true, p ++ [i]) else (false, p).
Definition parcel_with : ParcelLib listed := {|
  new_parcel := [];
  WriteInterfaceToken s := list_write (IToken s);
  WriteBool b := list_write (IBool b);
  WriteInt32 z := list_write (IWord (u32 z));
  WriteUint32 z := list_write (IWord (u32 z));
  WriteString s := list_write (IString s);
  WriteBuffer b := list_write (IBuffer b);
  WriteRemoteObject o := match o with Some o => list_write (IObject o) | None => λ p, (false, p) end;
  WriteAshmem a := list_write (IAshmem a);
  ReadInterfaceToken := list_read [] (λ i, match i with IToken s => Some s | _ => None end);
  ReadBool := list_read false (λ i, match i with IBool b => Some b | _ => None end);
  ReadInt32 := list_read 0 (λ i, match i with IWord w => Some (i32 w) | _ => None end);
  ReadUint32 := list_read 0 (λ i, match i with IWord w => Some w | _ => None end);
  ReadString := list_read [] (λ i, match i with IString s => Some s | _ => None end);
  ReadBuffer n := list_read None (λ i, match i with
    | IBuffer b => if n =? Z.of_nat (length b) then Some (Some b) else None | _ => None end);
  ReadRemoteObject := list_read None (λ i, match i with IObject o => Some (Some o) | _ => None end);
  ReadAshmem := list_read 0%nat (λ i, match i with IAshmem a => Some a | _ => None end);
  IPCObjectStub_OnRemoteRequest _ _ := (-1, []) |}.
#[local, refine] Instance parcel_with_laws : @ParcelLaws listed parcel_with := {|
  holds p l := p = l;
  fits l := Forall room l |}.
Proof.
  all: intros; subst; try done.
  all: repeat match goal with H : Forall _ (_ ++ _) |- _ => apply Forall_app in H as [? ?]; decompose_Forall end.
  all: cbn; unfold list_write;
    try (by match goal with H : Is_true (room _) |- _ => rewrite (Is_true_true_1 _ H) end).
  all: rewrite ?Z.eqb_refl; done.
Defined.
End room.
#[global] Instance listed_lib : ParcelLib listed := parcel_with (λ _, true).
#[global, refine] Instance listed_laws : ParcelLaws listed := {|
  holds p l := p = l;
  fits l := True |}.
Proof.
  all: intros; subst; try done.
  cbn. by rewrite Z.eqb_refl.
Defined.

(** ** Building and reading parcels *)

Section parcels.
Context {P : Type} `{!ParcelLib P}.

(** The parcel after a sequence of writes. *)
Definition written (m : St P unit) : P := (m new_parcel).2.
(** A write whose result is ignored. *)
Definition put (m : St P bool) : St P unit := st_void m.

(** A request: the descriptor and the arguments. *)
Definition request (descriptor : str) (m : St P unit) : P :=
  written (_ ← put (WriteInterfaceToken descriptor); m).

(** ** Requests *)

(** What [OnRemoteRequest] of a stub does with the code and the data of a request:
    the result it returns, and the reply.  [Remote()->SendRequest] has the same type. *)
Definition Stub (W : Type) : Type := Z → P → St W (Z * P).

(** [OnRemoteRequest] of the stubs of this repository: the token is compared, then the
    handler of the code is run; other codes are the library's. *)
Definition stub_request {W} (descriptor : str) (handlers : Z → option (P → St W (Z * P))) : Stub W := λ code data,
  let '(token, data) := ReadInterfaceToken data in
  if negb (bool_decide (token = descriptor)) then mret (-1, new_parcel) else
  match handlers code with
  | Some handler => handler data
  | None => mret (IPCObjectStub_OnRemoteRequest code data)
  end.

(** The handlers' most common reply. *)
Definition reply_int (ret : Z) : Z * P := (ret, written (put (WriteInt32 ret))).

(** The end of most calls of a proxy. *)
Definition int_result (r : Z * P) : Z := if negb (r.1 =? 0) then -1 else (ReadInt32 r.2).1.
End parcels.
Arguments Stub : clear implicits.

(** * Lemmas *)

Section parcel_lemmas.
Context {P : Type} `{!ParcelLib P} `{!ParcelLaws P}.
Implicit Types (p : P) (l : list Item).

(** [m] writes the items [k]. *)
Definition writes (m : St P unit) (k : list Item) : Prop :=
  ∀ p l, holds p l → fits (l ++ k) → holds (m p).2 (l ++ k).

Lemma writes_ret : writes (mret ()) [].
Proof. intros p l H _. by rewrite app_nil_r. Qed.
Lemma writes_bind (m n : St P unit) k k' : writes m k → writes n k' → writes (_ ← m; n) (k ++ k').
Proof.
  intros Hm Hn p l Hp Hf. rewrite bind_run. rewrite (assoc (++)) in Hf |- *. apply Hn; [|done].
  apply Hm; [done|]. by apply fits_prefix in Hf.
Qed.
Lemma writes_put (m : St P bool) k :
  (∀ p l, holds p l → fits (l ++ k) → (m p).1 = true ∧ holds (m p).2 (l ++ k)) → writes (put m) k.
Proof. intros H p l Hp Hf. unfold put. rewrite void_run. by apply H. Qed.
Lemma writes_seq (m : St P bool) (n : St P unit) i k : writes (put m) [i] → writes n k → writes (_ ← put m; n) (i :: k).
Proof. intros Hm Hn. exact (writes_bind _ _ [i] k Hm Hn). Qed.
Lemma writes_null (n : St P unit) k : writes n k → writes (_ ← put (WriteRemoteObject None); n) k.
Proof.
  intros Hn p l Hp Hf. rewrite bind_run. unfold put. rewrite void_run. apply Hn; [by apply write_null|done].
Qed.

Lemma put_token s : writes (put (WriteInterfaceToken s)) [IToken s].
Proof. apply writes_put. intros. by apply write_token. Qed.
Lemma put_bool b : writes (put (WriteBool b)) [IBool b].
Proof. apply writes_put. intros. by apply write_bool. Qed.
Lemma put_int32 z : writes (put (WriteInt32 z)) [IWord (u32 z)].
Proof. apply writes_put. intros. by apply write_int32. Qed.
Lemma put_uint32 z : writes (put (WriteUint32 z)) [IWord (u32 z)].
Proof. apply writes_put. intros. by apply write_uint32. Qed.
Lemma put_string s : writes (put (WriteString s)) [IString s].
Proof. apply writes_put. intros. by apply write_string. Qed.
Lemma put_buffer b : writes (put (WriteBuffer b)) [IBuffer b].
Proof. apply writes_put. intros. by apply write_buffer. Qed.
Lemma put_object o : writes (put (WriteRemoteObject (Some o))) [IObject o].
Proof. apply writes_put. intros. by apply write_object. Qed.
Lemma put_ashmem a : writes (put (WriteAshmem a)) [IAshmem a].
Proof. apply writes_put. intros. by apply write_ashmem. Qed.

Lemma written_holds m k : writes m k → fits k → holds (written m) k.
Proof. intros Hm Hf. apply (Hm new_parcel []); [apply holds_new|done]. Qed.
Lemma request_holds s m k : writes m k → fits (IToken s :: k) → holds (request s m) (IToken s :: k).
Proof. intros Hm Hf. apply written_holds; [|done]. apply writes_seq; [apply put_token|done]. Qed.

(** [m] reads the items [k] as [x]. *)
Definition reads {A} (m : St P A) (k : list Item) (x : A) : Prop :=
  ∀ p l, holds p (k ++ l) → (m p).1 = x ∧ holds (m p).2 l.
Lemma reads_ret {A} (x : A) : reads (mret x) [] x.
Proof. by intros p l H. Qed.
Lemma reads_bind {A B} (m : St P A) (n : A → St P B) i k x y :
  reads m [i] x → reads (n x) k y → reads (x ← m; n x) (i :: k) y.
Proof.
  intros Hm Hn p l Hp. rewrite bind_run. destruct (Hm p (k ++ l) Hp) as [-> Hp']. by apply Hn.
Qed.
Lemma reads_run {A} (m : St P A) k x p : reads m k x → holds p k → (m p).1 = x.
Proof. intros Hm Hp. apply (Hm p []). by rewrite app_nil_r. Qed.
Lemma get_token s : reads ReadInterfaceToken [IToken s] s.
Proof. intros p l. apply read_token. Qed.
Lemma get_bool b : reads ReadBool [IBool b] b.
Proof. intros p l. apply read_bool. Qed.
Lemma get_int32 w : reads ReadInt32 [IWord w] (i32 w).
Proof. intros p l. apply read_int32. Qed.
Lemma get_uint32 w : reads ReadUint32 [IWord w] w.
Proof. intros p l. apply read_uint32. Qed.
Lemma get_string s : reads ReadString [IString s] s.
Proof. intros p l. apply read_string. Qed.
Lemma get_buffer n b : n = Z.of_nat (length b) → reads (ReadBuffer n) [IBuffer b] (Some b).
Proof. intros Hn p l Hp. by apply read_buffer. Qed.
Lemma get_object o : reads ReadRemoteObject [IObject o] (Some o).
Proof. intros p l. apply read_object. Qed.
Lemma get_ashmem a : reads ReadAshmem [IAshmem a] a.
Proof. intros p l. apply read_ashmem. Qed.

(** A request reaches the stub; its result is the error the proxy gets, and when that
    is 0 the proxy gets the reply. *)
Definition carries {W} (remote stub : Stub P W) : Prop := ∀ code data w,
  (remote code data w).1.1 = (stub code data w).1.1 ∧ (remote code data w).2 = (stub code data w).2 ∧
  ((stub code data w).1.1 = 0 → ∀ l, holds (stub code data w).1.2 l → holds (remote code data w).1.2 l).
(** The request fails and nothing happens on the other side. *)
Definition down {W} (remote : Stub P W) : Prop := ∀ code data w, (remote code data w).1.1 ≠ 0 ∧ (remote code data w).2 = w.

Lemma carries_refl {W} (stub : Stub P W) : carries stub stub.
Proof. by intros code data w. Qed.

(** The handler of a code gets the arguments. *)
Lemma stub_request_run {W} d (handlers : Z → option (P → St W (Z * P))) code h data k w :
  handlers code = Some h → holds data (IToken d :: k) →
  ∃ args, holds args k ∧ stub_request d handlers code data w = h args w.
Proof.
  intros Hh Hd. destruct (read_token _ _ _ Hd) as [Ht Hk]. exists (ReadInterfaceToken data).2. split; [done|].
  unfold stub_request. rewrite (surjective_pairing (ReadInterfaceToken data)), Ht, bool_decide_eq_true_2, Hh by done.
  done.
Qed.

(** What the proxy gets: the error, and a reply that holds what the stub wrote. *)
Lemma transact {W} (remote : Stub P W) d handlers code h (m : St P unit) k w
    (Hc : carries remote (stub_request d handlers)) (Hh : handlers code = Some h) (Hm : writes m k)
    (Hf : fits (IToken d :: k)) :
  ∃ args reply, holds args k ∧ remote code (request d m) w = (((h args w).1.1, reply), (h args w).2) ∧
    ((h args w).1.1 = 0 → ∀ l, holds (h args w).1.2 l → holds reply l).
Proof.
  destruct (stub_request_run d handlers code h _ k w Hh (request_holds d m k Hm Hf)) as (args & Ha & E).
  destruct (Hc code (request d m) w) as (H1 & H2 & H3). rewrite E in H1, H2, H3.
  exists args, (remote code (request d m) w).1.2. split_and!; [done| |done].
  by rewrite <-H1, <-H2, <-!surjective_pairing.
Qed.

(** A call of a proxy, which goes on with [K]. *)
Lemma called {W B} (remote : Stub P W) d handlers code h (m : St P unit) k (K : Z * P → St W B) w x :
  carries remote (stub_request d handlers) → handlers code = Some h → writes m k → fits (IToken d :: k) →
  (∀ args reply, holds args k →
     ((h args w).1.1 = 0 → ∀ l, holds (h args w).1.2 l → holds reply l) → K ((h args w).1.1, reply) (h args w).2 = x) →
  (r ← remote code (request d m); K r) w = x.
Proof.
  intros Hc Hh Hm Hf HK. destruct (transact remote d handlers code h m k w Hc Hh Hm Hf) as (args & reply & Ha & E & Hr).
  rewrite bind_run, E. by apply (HK args).
Qed.

Lemma written_int ret : fits [IWord (u32 ret)] → holds (reply_int ret).2 [IWord (u32 ret)].
Proof. intros Hf. apply (written_holds (put (WriteInt32 ret))); [apply put_int32|done]. Qed.
Lemma int_failed (r : Z * P) : r.1 ≠ 0 → int_result r = -1.
Proof. intros H. unfold int_result. by destruct (Z.eqb_spec r.1 0). Qed.
Lemma int_result_zero reply : holds reply [IWord (u32 0)] → int_result (0, reply) = 0.
Proof. intros H. unfold int_result. cbn. by destruct (read_int32 _ _ _ H) as [-> _]. Qed.
(** Calls that only give a result: any error becomes -1. *)
Lemma int_result_reply ret reply :
  fits [IWord (u32 ret)] → (ret = 0 → ∀ l, holds (reply_int ret).2 l → holds reply l) →
  int_result (ret, reply) = if ret =? 0 then 0 else -1.
Proof.
  intros Hf Hr. destruct (Z.eqb_spec ret 0) as [->|Hne].
  - apply int_result_zero, Hr; [done|]. by apply written_int.
  - unfold int_result. cbn. by destruct (Z.eqb_spec ret 0).
Qed.
End parcel_lemmas.

(** A word carries an [int32_t]. *)
Definition is_i32 (z : Z) : Prop := - 2 ^ 31 ≤ z < 2 ^ 31.
Lemma i32_word z : is_i32 z → i32 (u32 z) = z.
Proof. intros. rewrite i32_u32. by apply i32_small. Qed.

#[export] Hint Resolve put_token put_bool put_int32 put_uint32 put_string put_buffer put_object put_ashmem writes_ret : ivoice.
#[export] Hint Resolve get_token get_bool get_int32 get_uint32 get_string get_object get_ashmem reads_ret : ivoice.

(** [writing] proves what a sequence of writes writes, [reading] what a sequence of
    reads reads. *)
Ltac writing := repeat first [solve [auto 1 with ivoice nocore] | eapply writes_seq | apply writes_null].
Ltac reading := repeat first [solve [auto 1 with ivoice nocore] | eapply reads_bind].
