(* ===== verification/EngineIpc.v ===== *)
(** * An engine in another process

    [inc/i_intell_voice_engine.h], [proxy/intell_voice_engine_proxy.cpp] and
    [server/base/intell_voice_engine_stub.cpp], and the two callbacks
    ([proxy/intell_voice_engine_callback_stub.cpp],
    [server/base/intell_voice_engine_callback_proxy.cpp] and the same of the update).
    [EngineObject] is the interface [IIntellVoiceEngine]; the stub turns such an object
    into a [Stub], the proxy turns what sends requests into such an object again. *)

From S2P Require Import Prelude StringUtil EngineTypes EngineAudio EngineUtil EnrollEngine WakeupFacade Parcel.

(** ** The interface *)

(** The arguments filled by a call ([data] of [Read] and [GetWakeupPcm], [result] of
    [Evaluate]) are taken with what they hold before. *)
Class EngineObject (W : Type) := {
  o_SetCallback : option nat → St W unit;
  o_Attach : EngineInfo → St W Z;
  o_Detach : St W Z;
  o_SetParameter : str → St W Z;
  o_GetParameter : str → St W str;
  o_Start : bool → St W Z;
  o_Stop : St W Z;
  o_WriteAudio : list Z → St W Z;
  o_StartCapturer : Z → St W Z;
  o_Read : list Z → St W (Z * list Z);
  o_StopCapturer : St W Z;
  o_GetWakeupPcm : list Z → St W (Z * list Z);
  o_Evaluate : str → Z * Z → St W (Z * (Z * Z));
  o_NotifyDeviceWakeupEvent : str → EventDetail → St W Z }.

Definition ENGINE_DESCRIPTOR : str := lit "HDI.IntellVoice.Engine".
Definition INTELL_VOICE_ENGINE_SET_CALLBACK : Z := 0.
Definition INTELL_VOICE_ENGINE_ATTACH : Z := 1.
Definition INTELL_VOICE_ENGINE_DETACH : Z := 2.
Definition INTELL_VOICE_ENGINE_SET_PARAMETER : Z := 3.
Definition INTELL_VOICE_ENGINE_GET_PARAMETER : Z := 4.
Definition INTELL_VOICE_ENGINE_START : Z := 5.
Definition INTELL_VOICE_ENGINE_STOP : Z := 6.
Definition INTELL_VOICE_ENGINE_WRITE_AUDIO : Z := 7.
Definition INTELL_VOICE_ENGINE_STAET_CAPTURER : Z := 8.
Definition INTELL_VOICE_ENGINE_READ : Z := 9.
Definition INTELL_VOICE_ENGINE_STOP_CAPTURER : Z := 10.
Definition INTELL_VOICE_ENGINE_GET_WAKEUP_PCM : Z := 11.
Definition INTELL_VOICE_ENGINE_EVALUATE : Z := 12.
Definition INTELL_VOICE_ENGINE_NOTIFY_HEADSET_WAKE_EVENT : Z := 13.
Definition INTELL_VOICE_ENGINE_NOTIFY_HEADSET_HOSTEVENT : Z := 14.
Definition INTELL_VOICE_ENGINE_NOTIFY_DEVICE_WAKEUP_EVENT : Z := 15.
Definition EVENT_MAX : Z := 2.
Definition BUFFER_SIZE_MAX : Z := 10 * 1024 * 1024.

Section proxy.
Context {P W : Type} `{!ParcelLib P}.
Variable remote : Stub P W.
Abbreviation M := (St W).

(** ** The proxy *)

Definition Proxy_SetCallback (object : option nat) : M unit :=
  match object with
  | None => mret ()
  | Some _ =>
    st_void (remote INTELL_VOICE_ENGINE_SET_CALLBACK (request ENGINE_DESCRIPTOR
      (_ ← put (WriteRemoteObject object); mret ())))
  end.

Definition Proxy_Attach (info : EngineInfo) : M Z :=
  r ← remote INTELL_VOICE_ENGINE_ATTACH (request ENGINE_DESCRIPTOR
    (_ ← put (WriteString (ei_wakeupPhrase info));
     _ ← put (WriteBool (ei_isPcmFromExternal info));
     _ ← put (WriteInt32 (ei_minBufSize info));
     _ ← put (WriteInt32 (ei_sampleChannels info));
     _ ← put (WriteInt32 (ei_bitsPerSample info));
     _ ← put (WriteInt32 (ei_sampleRate info)); mret ()));
  mret (int_result r).

Definition Proxy_Detach : M Z :=
  r ← remote INTELL_VOICE_ENGINE_DETACH (request ENGINE_DESCRIPTOR (mret ()));
  mret (int_result r).

Definition Proxy_SetParameter (keyValueList : str) : M Z :=
  r ← remote INTELL_VOICE_ENGINE_SET_PARAMETER (request ENGINE_DESCRIPTOR
    (_ ← put (WriteString keyValueList); mret ()));
  mret (int_result r).

Definition Proxy_GetParameter (key : str) : M str :=
  r ← remote INTELL_VOICE_ENGINE_GET_PARAMETER (request ENGINE_DESCRIPTOR
    (_ ← put (WriteString key); mret ()));
  if negb (r.1 =? 0) then mret [] else mret (ReadString r.2).1.

Definition Proxy_Start (isLast : bool) : M Z :=
  r ← remote INTELL_VOICE_ENGINE_START (request ENGINE_DESCRIPTOR
    (_ ← put (WriteBool isLast); mret ()));
  mret (int_result r).

Definition Proxy_Stop : M Z :=
  r ← remote INTELL_VOICE_ENGINE_STOP (request ENGINE_DESCRIPTOR (mret ()));
  mret (int_result r).

(** [size] is the length of [buffer]. *)
Definition Proxy_WriteAudio (buffer : list Z) : M Z :=
  r ← remote INTELL_VOICE_ENGINE_WRITE_AUDIO (request ENGINE_DESCRIPTOR
    (_ ← put (WriteUint32 (Z.of_nat (length buffer)));
     _ ← put (WriteBuffer buffer); mret ()));
  mret (int_result r).

Definition Proxy_StartCapturer (channels : Z) : M Z :=
  r ← remote INTELL_VOICE_ENGINE_STAET_CAPTURER (request ENGINE_DESCRIPTOR
    (_ ← put (WriteInt32 channels); mret ()));
  mret (int_result r).

(** What [Read] and [GetWakeupPcm] do with the reply. *)
Definition read_data (r : Z * P) (data : list Z) : Z * list Z :=
  if negb (r.1 =? 0) then (-1, data) else
  let '(ret, reply) := ReadInt32 r.2 in
  if negb (ret =? 0) then (ret, data) else
  let '(size, reply) := ReadUint32 reply in
  if size =? 0 then (-1, data) else
  if BUFFER_SIZE_MAX <? size then (-1, data) else
  match (ReadBuffer size reply).1 with
  | None => (-1, data)
  | Some buff => (ret, buff)
  end.

Definition Proxy_Read (data : list Z) : M (Z * list Z) :=
  r ← remote INTELL_VOICE_ENGINE_READ (request ENGINE_DESCRIPTOR (mret ()));
  mret (read_data r data).

Definition Proxy_StopCapturer : M Z :=
  r ← remote INTELL_VOICE_ENGINE_STOP_CAPTURER (request ENGINE_DESCRIPTOR (mret ()));
  mret (int_result r).

Definition Proxy_GetWakeupPcm (data : list Z) : M (Z * list Z) :=
  r ← remote INTELL_VOICE_ENGINE_GET_WAKEUP_PCM (request ENGINE_DESCRIPTOR (mret ()));
  mret (read_data r data).

Definition Proxy_Evaluate (word : str) (result : Z * Z) : M (Z * (Z * Z)) :=
  r ← remote INTELL_VOICE_ENGINE_EVALUATE (request ENGINE_DESCRIPTOR
    (_ ← put (WriteString word); mret ()));
  if negb (r.1 =? 0) then mret (-1, result) else
  let '(ret, reply) := ReadInt32 r.2 in
  if negb (ret =? 0) then mret (ret, result) else
  let '(score, reply) := ReadInt32 reply in
  mret (ret, (score, (ReadInt32 reply).1)).

Definition Proxy_NotifyDeviceWakeupEvent (macAddress : str) (event : EventDetail) : M Z :=
  r ← remote INTELL_VOICE_ENGINE_NOTIFY_DEVICE_WAKEUP_EVENT (request ENGINE_DESCRIPTOR
    (_ ← put (WriteString macAddress);
     _ ← put (WriteInt32 (wakeupEvent event));
     _ ← put (WriteInt32 (endFrameIndex event)); mret ()));
  mret (int_result r).

(** [IntellVoiceEngineProxy]. *)
Definition IntellVoiceEngineProxy : EngineObject W := {|
  o_SetCallback := Proxy_SetCallback; o_Attach := Proxy_Attach; o_Detach := Proxy_Detach;
  o_SetParameter := Proxy_SetParameter; o_GetParameter := Proxy_GetParameter; o_Start := Proxy_Start;
  o_Stop := Proxy_Stop; o_WriteAudio := Proxy_WriteAudio; o_StartCapturer := Proxy_StartCapturer;
  o_Read := Proxy_Read; o_StopCapturer := Proxy_StopCapturer; o_GetWakeupPcm := Proxy_GetWakeupPcm;
  o_Evaluate := Proxy_Evaluate; o_NotifyDeviceWakeupEvent := Proxy_NotifyDeviceWakeupEvent |}.
End proxy.

(** ** The stub *)

Section stub.
Context {P W : Type} `{!ParcelLib P} `{!EngineObject W}.
(** What the memory of an [EvaluationResult] that nobody has written holds. *)
Variable uninitialised : Z * Z.
Abbreviation M := (St W).

Definition SetCallbackInner (data : P) : M (Z * P) :=
  let object := (ReadRemoteObject data).1 in
  _ ← o_SetCallback object;
  mret (0, new_parcel).

Definition AttachInner (data : P) : M (Z * P) :=
  let info := ((wakeupPhrase ← ReadString;
                isPcmFromExternal ← ReadBool;
                minBufSize ← ReadInt32;
                sampleChannels ← ReadInt32;
                bitsPerSample ← ReadInt32;
                sampleRate ← ReadInt32;
                mret (mkEngineInfo wakeupPhrase isPcmFromExternal minBufSize sampleChannels bitsPerSample sampleRate))
               data).1 in
  ret ← o_Attach info;
  mret (reply_int ret).

Definition DetachInner (data : P) : M (Z * P) := ret ← o_Detach; mret (reply_int ret).
Definition SetParameterInner (data : P) : M (Z * P) :=
  ret ← o_SetParameter (ReadString data).1; mret (reply_int ret).
Definition GetParameterInner (data : P) : M (Z * P) :=
  value ← o_GetParameter (ReadString data).1;
  mret (0, written (put (WriteString value))).
Definition StartInner (data : P) : M (Z * P) := ret ← o_Start (ReadBool data).1; mret (reply_int ret).
Definition StopInner (data : P) : M (Z * P) := ret ← o_Stop; mret (reply_int ret).

Definition WriteAudioInner (data : P) : M (Z * P) :=
  let '(size, data) := ReadInt32 data in
  if size <=? 0 then mret (-1, new_parcel) else
  match (ReadBuffer size data).1 with
  | None => mret (-1, new_parcel)
  | Some buffer => ret ← o_WriteAudio buffer; mret (reply_int ret)
  end.

Definition StartCapturerInner (data : P) : M (Z * P) :=
  ret ← o_StartCapturer (ReadInt32 data).1; mret (reply_int ret).

(** The reply of [ReadInner] and [GetWakeupPcmInner]. *)
Definition reply_data (r : Z * list Z) : Z * P :=
  if negb (r.1 =? 0) then reply_int r.1 else
  (r.1, written (_ ← put (WriteInt32 r.1);
                 _ ← put (WriteUint32 (Z.of_nat (length r.2)));
                 _ ← put (WriteBuffer r.2); mret ())).
Definition ReadInner (data : P) : M (Z * P) := r ← o_Read []; mret (reply_data r).
Definition StopCapturerInner (data : P) : M (Z * P) := ret ← o_StopCapturer; mret (reply_int ret).
Definition GetWakeupPcmInner (data : P) : M (Z * P) := r ← o_GetWakeupPcm []; mret (reply_data r).

Definition EvaluateInner (data : P) : M (Z * P) :=
  r ← o_Evaluate (ReadString data).1 uninitialised;
  if negb (r.1 =? 0) then mret (reply_int r.1) else
  mret (r.1, written (_ ← put (WriteInt32 r.1);
                      _ ← put (WriteInt32 r.2.1);
                      _ ← put (WriteInt32 r.2.2); mret ())).

Definition NotifyDeviceWakeupEventInner (data : P) : M (Z * P) :=
  let '(macAddress, eventCode, endFrameIndex) :=
    ((macAddress ← ReadString;
      eventCode ← ReadInt32;
      endFrameIndex ← ReadInt32;
      mret (macAddress, eventCode, endFrameIndex)) data).1 in
  if (EVENT_MAX <=? eventCode) || (eventCode <? VOICE_RECOGNIZE_EVENT) then mret (1, new_parcel) else
  ret ← o_NotifyDeviceWakeupEvent macAddress (mkEventDetail eventCode endFrameIndex);
  mret (reply_int ret).

(** [processFuncMap_], as the constructor fills it. *)
Definition processFuncMap_ (code : Z) : option (P → M (Z * P)) :=
  if code =? INTELL_VOICE_ENGINE_SET_CALLBACK then Some SetCallbackInner
  else if code =? INTELL_VOICE_ENGINE_ATTACH then Some AttachInner
  else if code =? INTELL_VOICE_ENGINE_DETACH then Some DetachInner
  else if code =? INTELL_VOICE_ENGINE_SET_PARAMETER then Some SetParameterInner
  else if code =? INTELL_VOICE_ENGINE_GET_PARAMETER then Some GetParameterInner
  else if code =? INTELL_VOICE_ENGINE_START then Some StartInner
  else if code =? INTELL_VOICE_ENGINE_STOP then Some StopInner
  else if code =? INTELL_VOICE_ENGINE_WRITE_AUDIO then Some WriteAudioInner
  else if code =? INTELL_VOICE_ENGINE_STAET_CAPTURER then Some StartCapturerInner
  else if code =? INTELL_VOICE_ENGINE_READ then Some ReadInner
  else if code =? INTELL_VOICE_ENGINE_STOP_CAPTURER then Some StopCapturerInner
  else if code =? INTELL_VOICE_ENGINE_GET_WAKEUP_PCM then Some GetWakeupPcmInner
  else if code =? INTELL_VOICE_ENGINE_EVALUATE then Some EvaluateInner
  else if code =? INTELL_VOICE_ENGINE_NOTIFY_DEVICE_WAKEUP_EVENT then Some NotifyDeviceWakeupEventInner
  else None.

(** [OnRemoteRequest]. *)
Definition Engine_OnRemoteRequest : Stub P W := stub_request ENGINE_DESCRIPTOR processFuncMap_.
End stub.

(** ** The callbacks *)

(** [ON_INTELL_VOICE_ENGINE_EVENT] and [ON_INTELL_VOICE_UPDATE_EVENT]; a callback of a
    client is what it does with an event.  The stubs return 0 for every code. *)
Definition ENGINE_CALLBACK_DESCRIPTOR : str := lit "IIntelligentVoiceEngineCallback".
Definition UPDATE_CALLBACK_DESCRIPTOR : str := lit "IIntelligentVoiceUpdateCallback".
Definition ON_INTELL_VOICE_ENGINE_EVENT : Z := 0.
Definition ON_INTELL_VOICE_UPDATE_EVENT : Z := 0.
Record CallBackEvent := mkCallBackEvent { ev_msgId : Z; ev_result : Z; ev_info : str }.

Section callbacks.
Context {P W : Type} `{!ParcelLib P}.
Abbreviation M := (St W).

(** The proxies look at the results of the writes. *)
Definition put_checked (m : St P bool) (k : St P bool) : St P bool := ok ← m; if (ok : bool) then k else mret false.
Definition callback_request (remote : Stub P W) (code : Z) (m : St P bool) : M unit :=
  let '(ok, data) := m new_parcel in
  if (ok : bool) then st_void (remote code data) else mret ().

Definition OnIntellVoiceEngineEvent (remote : Stub P W) (event : CallBackEvent) : M unit :=
  callback_request remote ON_INTELL_VOICE_ENGINE_EVENT
    (put_checked (WriteInterfaceToken ENGINE_CALLBACK_DESCRIPTOR)
       (put_checked (WriteInt32 (ev_msgId event))
          (put_checked (WriteInt32 (ev_result event)) (WriteString (ev_info event))))).
Definition OnUpdateComplete_proxy (remote : Stub P W) (result : Z) : M unit :=
  callback_request remote ON_INTELL_VOICE_UPDATE_EVENT
    (put_checked (WriteInterfaceToken UPDATE_CALLBACK_DESCRIPTOR) (WriteInt32 result)).

Definition EngineCallback_OnRemoteRequest (onEvent : CallBackEvent → M unit) : Stub P W := λ code data,
  let '(token, data) := ReadInterfaceToken data in
  if negb (bool_decide (token = ENGINE_CALLBACK_DESCRIPTOR)) then mret (-1, new_parcel) else
  if code =? ON_INTELL_VOICE_ENGINE_EVENT then
    let event := ((msgId ← ReadInt32; result ← ReadInt32; info ← ReadString;
                   mret (mkCallBackEvent msgId result info)) data).1 in
    _ ← onEvent event;
    mret (0, written (put (WriteInt32 0)))
  else mret (0, written (put (WriteInt32 (-1)))).
Definition UpdateCallback_OnRemoteRequest (onComplete : Z → M unit) : Stub P W := λ code data,
  let '(token, data) := ReadInterfaceToken data in
  if negb (bool_decide (token = UPDATE_CALLBACK_DESCRIPTOR)) then mret (-1, new_parcel) else
  if code =? ON_INTELL_VOICE_UPDATE_EVENT then
    _ ← onComplete (ReadInt32 data).1;
    mret (0, written (put (WriteInt32 0)))
  else mret (0, written (put (WriteInt32 (-1)))).
End callbacks.

(** ** Calls *)

(** A call of the interface with its arguments, and what the caller has after it. *)
Inductive EngineCall :=
| CallSetCallback (object : option nat)
| CallAttach (info : EngineInfo)
| CallDetach
| CallSetParameter (keyValueList : str)
| CallGetParameter (key : str)
| CallStart (isLast : bool)
| CallStop
| CallWriteAudio (buffer : list Z)
| CallStartCapturer (channels : Z)
| CallRead (data : list Z)
| CallStopCapturer
| CallGetWakeupPcm (data : list Z)
| CallEvaluate (word : str) (result : Z * Z)
| CallNotifyDeviceWakeupEvent (macAddress : str) (event : EventDetail).
Inductive Answer :=
| ANone
| ARet (ret : Z)
| AText (value : str)
| AData (ret : Z) (data : list Z)
| AEval (ret : Z) (result : Z * Z).

Definition invoke {W} (O : EngineObject W) (c : EngineCall) : St W Answer :=
  match c with
  | CallSetCallback object => _ ← o_SetCallback object; mret ANone
  | CallAttach info => ret ← o_Attach info; mret (ARet ret)
  | CallDetach => ret ← o_Detach; mret (ARet ret)
  | CallSetParameter kv => ret ← o_SetParameter kv; mret (ARet ret)
  | CallGetParameter key => value ← o_GetParameter key; mret (AText value)
  | CallStart isLast => ret ← o_Start isLast; mret (ARet ret)
  | CallStop => ret ← o_Stop; mret (ARet ret)
  | CallWriteAudio buffer => ret ← o_WriteAudio buffer; mret (ARet ret)
  | CallStartCapturer channels => ret ← o_StartCapturer channels; mret (ARet ret)
  | CallRead data => r ← o_Read data; mret (AData r.1 r.2)
  | CallStopCapturer => ret ← o_StopCapturer; mret (ARet ret)
  | CallGetWakeupPcm data => r ← o_GetWakeupPcm data; mret (AData r.1 r.2)
  | CallEvaluate word result => r ← o_Evaluate word result; mret (AEval r.1 r.2)
  | CallNotifyDeviceWakeupEvent mac event => ret ← o_NotifyDeviceWakeupEvent mac event; mret (ARet ret)
  end.

(** The arguments have the types of the interface. *)
Definition typed_call (c : EngineCall) : Prop :=
  match c with
  | CallAttach i => is_i32 (ei_minBufSize i) ∧ is_i32 (ei_sampleChannels i) ∧ is_i32 (ei_bitsPerSample i) ∧ is_i32 (ei_sampleRate i)
  | CallWriteAudio b => Z.of_nat (length b) < 2 ^ 32
  | CallStartCapturer n => is_i32 n
  | CallNotifyDeviceWakeupEvent _ e => is_i32 (wakeupEvent e) ∧ is_i32 (endFrameIndex e)
  | _ => True
  end.
Definition typed_answer (a : Answer) : Prop :=
  match a with
  | AData _ d => Z.of_nat (length d) < 2 ^ 32
  | AEval _ (score, code) => is_i32 score ∧ is_i32 code
  | _ => True
  end.

(** What the two parcels hold. *)
Definition call_items (c : EngineCall) : list Item :=
  IToken ENGINE_DESCRIPTOR :: match c with
  | CallSetCallback None => []
  | CallSetCallback (Some o) => [IObject o]
  | CallAttach i => [IString (ei_wakeupPhrase i); IBool (ei_isPcmFromExternal i); IWord (u32 (ei_minBufSize i));
                     IWord (u32 (ei_sampleChannels i)); IWord (u32 (ei_bitsPerSample i)); IWord (u32 (ei_sampleRate i))]
  | CallDetach | CallStop | CallRead _ | CallStopCapturer | CallGetWakeupPcm _ => []
  | CallSetParameter s | CallGetParameter s | CallEvaluate s _ => [IString s]
  | CallStart b => [IBool b]
  | CallWriteAudio b => [IWord (u32 (Z.of_nat (length b))); IBuffer b]
  | CallStartCapturer n => [IWord (u32 n)]
  | CallNotifyDeviceWakeupEvent mac e => [IString mac; IWord (u32 (wakeupEvent e)); IWord (u32 (endFrameIndex e))]
  end.
Definition answer_items (a : Answer) : list Item :=
  match a with
  | ANone => []
  | ARet ret => [IWord (u32 ret)]
  | AText s => [IString s]
  | AData ret d => [IWord (u32 ret); IWord (u32 (Z.of_nat (length d))); IBuffer d]
  | AEval ret (score, code) => [IWord (u32 ret); IWord (u32 score); IWord (u32 code)]
  end.

(** The call the engine gets for a call of a client, if it gets one. *)
Definition arrives (uninitialised : Z * Z) (c : EngineCall) : option EngineCall :=
  match c with
  | CallSetCallback None => None
  | CallWriteAudio b => if (0 <? Z.of_nat (length b)) && (Z.of_nat (length b) <? 2 ^ 31) then Some c else None
  | CallRead _ => Some (CallRead [])
  | CallGetWakeupPcm _ => Some (CallGetWakeupPcm [])
  | CallEvaluate word _ => Some (CallEvaluate word uninitialised)
  | CallNotifyDeviceWakeupEvent _ e =>
    if (VOICE_RECOGNIZE_EVENT <=? wakeupEvent e) && (wakeupEvent e <? EVENT_MAX) then Some c else None
  | _ => Some c
  end.
(** What the client has when the request failed. *)
Definition refused (c : EngineCall) : Answer :=
  match c with
  | CallSetCallback _ => ANone
  | CallGetParameter _ => AText []
  | CallRead data | CallGetWakeupPcm data => AData (-1) data
  | CallEvaluate _ result => AEval (-1) result
  | _ => ARet (-1)
  end.
(** What the client sees of the engine's answer: every error is -1, and no data comes
    with an error or without bytes. *)
Definition seen (c : EngineCall) (a : Answer) : Answer :=
  match a with
  | ANone | AText _ => a
  | ARet ret => if ret =? 0 then a else refused c
  | AData ret d =>
    if (ret =? 0) && (0 <? Z.of_nat (length d)) && (Z.of_nat (length d) <=? BUFFER_SIZE_MAX) then a else refused c
  | AEval ret _ => if ret =? 0 then a else refused c
  end.

(** * Lemmas *)

Section lemmas.
Context {P W : Type} `{!ParcelLib P} `{!ParcelLaws P}.
Variables (O : EngineObject W) (junk : Z * Z) (remote : Stub P W).
Abbreviation stub := (Engine_OnRemoteRequest (P := P) (W := W) junk).
Hypothesis (Hc : carries remote stub).
Implicit Types w : W.

(** The calls that give a result and nothing else. *)
Lemma int_call code h m k (o : St W Z) w :
  processFuncMap_ (P := P) junk code = Some h → writes m k → fits (IToken ENGINE_DESCRIPTOR :: k) →
  fits [IWord (u32 (o w).1)] →
  (∀ args, holds args k → h args w = (reply_int (o w).1, (o w).2)) →
  (r ← remote code (request ENGINE_DESCRIPTOR m); mret (int_result r)) w =
    (if (o w).1 =? 0 then 0 else -1, (o w).2).
Proof.
  intros Hh Hm Hf Hr Ho. destruct (transact remote _ _ _ _ _ _ w Hc Hh Hm Hf) as (args & reply & Ha & E & Hl).
  rewrite bind_run, E. cbn [fst snd]. rewrite (Ho args Ha) in Hl |- *. cbn [fst snd] in *. unfold mret, st_ret.
  by rewrite int_result_reply.
Qed.
(** A call the stub refuses. *)
Lemma refused_call code h m k w {B} (f : Z * P → B) b e :
  processFuncMap_ (P := P) junk code = Some h → writes m k → fits (IToken ENGINE_DESCRIPTOR :: k) →
  e ≠ 0 → (∀ args, holds args k → h args w = ((e, new_parcel), w)) →
  (∀ r, r.1 ≠ 0 → f r = b) →
  (r ← remote code (request ENGINE_DESCRIPTOR m); mret (f r)) w = (b, w).
Proof.
  intros Hh Hm Hf He Ho Hb. destruct (transact remote _ _ _ _ _ _ w Hc Hh Hm Hf) as (args & reply & Ha & E & Hl).
  rewrite bind_run, E. cbn [fst snd]. rewrite (Ho args Ha). cbn [fst snd]. unfold mret, st_ret. by rewrite Hb.
Qed.

(** The calls that give data. *)
Lemma data_read r d data reply :
  Z.of_nat (length d) < 2 ^ 32 → fits (answer_items (AData r d)) →
  (r = 0 → ∀ l, holds (reply_data (r, d)).2 l → holds reply l) →
  read_data (r, reply) data =
    if (r =? 0) && (0 <? Z.of_nat (length d)) && (Z.of_nat (length d) <=? BUFFER_SIZE_MAX) then (r, d) else (-1, data).
Proof.
  intros Hlen Hf Hr. unfold read_data. cbn [fst snd]. destruct (Z.eqb_spec r 0) as [->|Hne]; [|done].
  cbn [negb andb]. assert (holds reply [IWord (u32 0); IWord (u32 (Z.of_nat (length d))); IBuffer d]) as Hh.
  { apply Hr; [done|]. apply (written_holds _ _); [writing|done]. }
  destruct (read_int32 _ _ _ Hh) as [E1 H1]. rewrite (surjective_pairing (ReadInt32 reply)), E1.
  cbn [negb]. change (i32 (u32 0) =? 0) with true. cbn [negb].
  destruct (read_uint32 _ _ _ H1) as [E2 H2]. rewrite (surjective_pairing (ReadUint32 _)), E2, u32_small by lia.
  destruct (Z.eqb_spec (Z.of_nat (length d)) 0), (Z.ltb_spec 0 (Z.of_nat (length d)));
    try lia; [done|]. cbn [andb].
  destruct (Z.ltb_spec BUFFER_SIZE_MAX (Z.of_nat (length d))), (Z.leb_spec (Z.of_nat (length d)) BUFFER_SIZE_MAX);
    try lia; [done|]. by destruct (read_buffer d (Z.of_nat (length d)) _ [] H2) as [-> _].
Qed.
Lemma data_call code h (o : St W (Z * list Z)) data w :
  processFuncMap_ (P := P) junk code = Some h → fits [IToken ENGINE_DESCRIPTOR] →
  typed_answer (AData (o w).1.1 (o w).1.2) → fits (answer_items (AData (o w).1.1 (o w).1.2)) →
  (∀ args, h args w = (reply_data (o w).1, (o w).2)) →
  (r ← remote code (request ENGINE_DESCRIPTOR (mret ())); mret (read_data r data)) w =
    (if ((o w).1.1 =? 0) && (0 <? Z.of_nat (length (o w).1.2)) && (Z.of_nat (length (o w).1.2) <=? BUFFER_SIZE_MAX)
     then (o w).1 else (-1, data), (o w).2).
Proof.
  intros Hh Hf Ht Hr Ho. destruct (transact remote _ _ _ _ _ _ w Hc Hh writes_ret Hf) as (args & reply & Ha & E & Hl).
  rewrite bind_run, E. cbn [fst snd]. rewrite (Ho args) in Hl |- *. cbn [fst snd] in *. unfold mret, st_ret.
  destruct (o w) as [[r d] w']. cbn [fst snd] in *.
  assert ((reply_data (P := P) (r, d)).1 = r) as Hrd by (unfold reply_data; cbn; by destruct (r =? 0)).
  rewrite Hrd in Hl |- *. by rewrite (data_read r d).
Qed.

Lemma eval_call word result w :
  fits (call_items (CallEvaluate word result)) →
  typed_answer (AEval (o_Evaluate word junk w).1.1 (o_Evaluate word junk w).1.2) →
  fits (answer_items (AEval (o_Evaluate word junk w).1.1 (o_Evaluate word junk w).1.2)) →
  Proxy_Evaluate remote word result w =
    (if (o_Evaluate word junk w).1.1 =? 0 then (o_Evaluate word junk w).1 else (-1, result), (o_Evaluate word junk w).2).
Proof.
  intros Hf Ht Hr. unfold Proxy_Evaluate.
  assert (writes (P := P) (_ ← put (WriteString word); mret ()) [IString word]) as Hm by writing.
  destruct (transact remote _ _ INTELL_VOICE_ENGINE_EVALUATE (EvaluateInner junk)
    (_ ← put (WriteString word); mret ()) [IString word] w Hc eq_refl Hm Hf) as (args & reply & Ha & E & Hl).
  rewrite bind_run, E. cbn [fst snd]. assert (EvaluateInner (P := P) junk args w =
    (if negb ((o_Evaluate word junk w).1.1 =? 0) then reply_int (o_Evaluate word junk w).1.1
     else ((o_Evaluate word junk w).1.1,
           written (_ ← put (WriteInt32 (o_Evaluate word junk w).1.1);
                    _ ← put (WriteInt32 (o_Evaluate word junk w).1.2.1);
                    _ ← put (WriteInt32 (o_Evaluate word junk w).1.2.2); mret ())), (o_Evaluate word junk w).2)) as Hrun.
  { unfold EvaluateInner. rewrite (reads_run _ _ _ _ (get_string word) Ha), bind_run. by destruct (negb _). }
  rewrite Hrun in Hl |- *. cbn [fst snd] in *. destruct (o_Evaluate word junk w) as [[r [score code]] w'].
  cbn [fst snd] in *. destruct (Z.eqb_spec r 0) as [->|Hne]; cbn [negb fst snd reply_int] in *.
  2: { destruct (Z.eqb_spec r 0); [done|]. done. }
  assert (holds reply [IWord (u32 0); IWord (u32 score); IWord (u32 code)]) as Hh.
  { apply Hl; [done|]. apply (written_holds _ _); [writing|done]. }
  change (negb (0 =? 0)) with false. cbn [negb].
  destruct (read_int32 _ _ _ Hh) as [E1 H1]. rewrite (surjective_pairing (ReadInt32 reply)), E1.
  change (negb (i32 (u32 0) =? 0)) with false. cbn iota.
  destruct (read_int32 _ _ _ H1) as [E2 H2]. rewrite (surjective_pairing (ReadInt32 _)), E2.
  destruct (read_int32 _ _ _ H2) as [E3 _]. rewrite E3.
  destruct Ht as [Ht1 Ht2]. by rewrite (i32_word score), (i32_word code).
Qed.

(** One call, from the side of the client. *)
Definition answered (c : EngineCall) w : Prop :=
  ∀ c', arrives junk c = Some c' → typed_answer (invoke O c' w).1 ∧ fits (answer_items (invoke O c' w).1).

Lemma text_call key w :
  fits (call_items (CallGetParameter key)) → fits (answer_items (invoke O (CallGetParameter key) w).1) →
  Proxy_GetParameter remote key w = o_GetParameter key w.
Proof.
  intros Hf Hr. unfold Proxy_GetParameter.
  assert (writes (P := P) (_ ← put (WriteString key); mret ()) [IString key]) as Hm by writing.
  destruct (transact remote _ _ INTELL_VOICE_ENGINE_GET_PARAMETER GetParameterInner
    (_ ← put (WriteString key); mret ()) [IString key] w Hc eq_refl Hm Hf) as (args & reply & Ha & E & Hl).
  rewrite bind_run, E. cbn [fst snd]. unfold GetParameterInner in *.
  rewrite (reads_run _ _ _ _ (get_string key) Ha), bind_run in *. cbn [invoke] in Hr. rewrite bind_run in Hr.
  destruct (o_GetParameter key w) as [v w']. cbn in *.
  destruct (read_string v reply []) as [-> _]; [|done]. apply Hl; [done|]. apply written_holds; [apply put_string|done].
Qed.
Lemma attach_args i : typed_call (CallAttach i) →
  reads (P := P) (wakeupPhrase ← ReadString; isPcmFromExternal ← ReadBool; minBufSize ← ReadInt32;
         sampleChannels ← ReadInt32; bitsPerSample ← ReadInt32; sampleRate ← ReadInt32;
         mret (mkEngineInfo wakeupPhrase isPcmFromExternal minBufSize sampleChannels bitsPerSample sampleRate))
    [IString (ei_wakeupPhrase i); IBool (ei_isPcmFromExternal i); IWord (u32 (ei_minBufSize i));
     IWord (u32 (ei_sampleChannels i)); IWord (u32 (ei_bitsPerSample i)); IWord (u32 (ei_sampleRate i))] i.
Proof.
  intros (H1 & H2 & H3 & H4). do 6 (eapply reads_bind; [auto 1 with ivoice nocore|]).
  rewrite !i32_word by done. destruct i. apply reads_ret.
Qed.
Lemma notify_args mac e : is_i32 (wakeupEvent e) → is_i32 (endFrameIndex e) →
  reads (P := P) (macAddress ← ReadString; eventCode ← ReadInt32; endFrameIndex ← ReadInt32;
         mret (macAddress, eventCode, endFrameIndex))
    [IString mac; IWord (u32 (wakeupEvent e)); IWord (u32 (endFrameIndex e))] (mac, wakeupEvent e, endFrameIndex e).
Proof.
  intros H1 H2. do 3 (eapply reads_bind; [auto 1 with ivoice nocore|]). rewrite !i32_word by done. apply reads_ret.
Qed.

(** The shape of the calls that give a result. *)
Lemma int_step c code h m k (o : St W Z) w :
  invoke O c = (ret ← o; mret (ARet ret)) → refused c = ARet (-1) →
  processFuncMap_ (P := P) junk code = Some h → writes m k → fits (IToken ENGINE_DESCRIPTOR :: k) →
  (∀ args, holds args k → h args w = (ret ← o; mret (reply_int ret)) w) →
  fits (answer_items (invoke O c w).1) →
  (ret ← (r ← remote code (request ENGINE_DESCRIPTOR m); mret (int_result r)); mret (ARet ret)) w =
    let '(a, w') := invoke O c w in (seen c a, w').
Proof.
  intros Hi Hrf Hh Hm Hf Ho Hr. rewrite Hi in Hr |- *. rewrite !(bind_run o) in *. cbn in Hr. rewrite bind_run.
  rewrite (int_call code h m k o w Hh Hm Hf Hr).
  - cbn. rewrite Hrf. by destruct (Z.eqb_spec (o w).1 0) as [->|].
  - intros args Ha. by rewrite (Ho args Ha).
Qed.
Lemma data_step c code h (o : St W (Z * list Z)) data w :
  invoke O c = (r ← o; mret (AData r.1 r.2)) → processFuncMap_ (P := P) junk code = Some h →
  fits [IToken ENGINE_DESCRIPTOR] → (∀ args, h args w = (r ← o; mret (reply_data r)) w) →
  typed_answer (invoke O c w).1 → fits (answer_items (invoke O c w).1) →
  ∀ c', refused c' = AData (-1) data →
  (r ← (r ← remote code (request ENGINE_DESCRIPTOR (mret ())); mret (read_data r data)); mret (AData r.1 r.2)) w =
    let '(a, w') := invoke O c w in (seen c' a, w').
Proof.
  intros Hi Hh Hf Ho Ht Hr c' Hc'. rewrite Hi in Ht, Hr |- *. rewrite !(bind_run o) in *. cbn in Ht, Hr. rewrite bind_run.
  rewrite (data_call code h o data w Hh Hf Ht Hr).
  - cbn. rewrite Hc'. destruct (o w) as [[r d] w']. cbn. by destruct (_ && _).
  - intros args. by rewrite Ho.
Qed.

(** [WriteAudioInner] reads the length as an [int32_t]. *)
Lemma audio_args buffer args w :
  Z.of_nat (length buffer) < 2 ^ 32 → (0 <? Z.of_nat (length buffer)) && (Z.of_nat (length buffer) <? 2 ^ 31) = true →
  holds args [IWord (u32 (Z.of_nat (length buffer))); IBuffer buffer] →
  WriteAudioInner args w = (ret ← o_WriteAudio buffer; mret (reply_int ret)) w.
Proof.
  intros Ht [H1%Z.ltb_lt H2%Z.ltb_lt]%andb_true_iff Hg. unfold WriteAudioInner. destruct (read_int32 _ _ _ Hg) as [E Hg'].
  rewrite (surjective_pairing (ReadInt32 args)), E, i32_word by (unfold is_i32; lia).
  destruct (Z.leb_spec (Z.of_nat (length buffer)) 0); [lia|]. by destruct (read_buffer buffer _ _ [] Hg' eq_refl) as [-> _].
Qed.
Lemma audio_refused buffer args w :
  Z.of_nat (length buffer) < 2 ^ 32 → (0 <? Z.of_nat (length buffer)) && (Z.of_nat (length buffer) <? 2 ^ 31) = false →
  holds args [IWord (u32 (Z.of_nat (length buffer))); IBuffer buffer] →
  WriteAudioInner args w = ((-1, new_parcel), w).
Proof.
  intros Ht Hb Hg. unfold WriteAudioInner. destruct (read_int32 _ _ _ Hg) as [E _].
  rewrite (surjective_pairing (ReadInt32 args)), E, i32_u32. unfold i32.
  destruct (Z.leb_spec ((Z.of_nat (length buffer) + 2 ^ 31) mod 2 ^ 32 - 2 ^ 31) 0) as [|Hpos]; [done|]. exfalso.
  destruct (Z.ltb_spec 0 (Z.of_nat (length buffer))), (Z.ltb_spec (Z.of_nat (length buffer)) (2 ^ 31)); try done.
  - rewrite <-(Z.mod_unique (Z.of_nat (length buffer) + 2 ^ 31) (2 ^ 32) 1 (Z.of_nat (length buffer) - 2 ^ 31)) in Hpos; lia.
  - assert (Z.of_nat (length buffer) = 0) as E0 by lia. by rewrite E0 in Hpos.
  - lia.
Qed.
Lemma event_valid e : (EVENT_MAX <=? e) || (e <? VOICE_RECOGNIZE_EVENT) = negb ((VOICE_RECOGNIZE_EVENT <=? e) && (e <? EVENT_MAX)).
Proof. rewrite negb_andb, orb_comm, (Z.ltb_antisym VOICE_RECOGNIZE_EVENT e), (Z.ltb_antisym EVENT_MAX e). by rewrite negb_involutive. Qed.

Lemma remote_calls c w : typed_call c → fits (call_items c) → answered c w →
  invoke (IntellVoiceEngineProxy remote) c w =
    match arrives junk c with
    | None => (refused c, w)
    | Some c' => let '(a, w') := invoke O c' w in (seen c a, w')
    end.
Proof.
  intros Ht Hf Ha. destruct c as [object|info| |kv|key|isLast| |buffer|channels|data| |data|word result|mac event];
    cbn [arrives]; unfold invoke at 1, IntellVoiceEngineProxy;
    cbn [o_SetCallback o_Attach o_Detach o_SetParameter o_GetParameter o_Start o_Stop o_WriteAudio o_StartCapturer
         o_Read o_StopCapturer o_GetWakeupPcm o_Evaluate o_NotifyDeviceWakeupEvent];
    unfold Proxy_Attach, Proxy_Detach, Proxy_SetParameter, Proxy_Start, Proxy_Stop, Proxy_WriteAudio, Proxy_StartCapturer,
      Proxy_Read, Proxy_StopCapturer, Proxy_GetWakeupPcm, Proxy_NotifyDeviceWakeupEvent.
  - destruct object as [o|]; [|done].
    assert (writes (P := P) (_ ← put (WriteRemoteObject (Some o)); mret ()) [IObject o]) as Hm by writing.
    destruct (transact remote _ _ INTELL_VOICE_ENGINE_SET_CALLBACK SetCallbackInner _ _ w Hc eq_refl Hm Hf)
      as (args & reply & Hg & E & _).
    unfold Proxy_SetCallback. rewrite !bind_run, void_run, E.
    unfold SetCallbackInner, invoke. by rewrite (reads_run _ _ _ _ (get_object o) Hg), !bind_run.
  - refine (int_step (CallAttach info) INTELL_VOICE_ENGINE_ATTACH AttachInner _ _ (o_Attach info) w eq_refl eq_refl eq_refl
      _ Hf _ _); [writing| |by apply Ha].
    intros args Hg. unfold AttachInner. by rewrite (reads_run _ _ _ _ (attach_args info Ht) Hg).
  - refine (int_step CallDetach INTELL_VOICE_ENGINE_DETACH DetachInner _ [] o_Detach w eq_refl eq_refl eq_refl
      writes_ret Hf _ _); [done|by apply Ha].
  - refine (int_step (CallSetParameter kv) INTELL_VOICE_ENGINE_SET_PARAMETER SetParameterInner _ _ (o_SetParameter kv) w
      eq_refl eq_refl eq_refl _ Hf _ _); [writing| |by apply Ha].
    intros args Hg. unfold SetParameterInner. by rewrite (reads_run _ _ _ _ (get_string kv) Hg).
  - rewrite bind_run.
    rewrite (text_call key w Hf) by by apply Ha. cbn [invoke]. by rewrite bind_run.
  - refine (int_step (CallStart isLast) INTELL_VOICE_ENGINE_START StartInner _ _ (o_Start isLast) w
      eq_refl eq_refl eq_refl _ Hf _ _); [writing| |by apply Ha].
    intros args Hg. unfold StartInner. by rewrite (reads_run _ _ _ _ (get_bool isLast) Hg).
  - refine (int_step CallStop INTELL_VOICE_ENGINE_STOP StopInner _ [] o_Stop w eq_refl eq_refl eq_refl
      writes_ret Hf _ _); [done|by apply Ha].
  - cbn in Ht. destruct (_ && _) eqn:Hb.
    + refine (int_step (CallWriteAudio buffer) INTELL_VOICE_ENGINE_WRITE_AUDIO WriteAudioInner _ _ (o_WriteAudio buffer) w
        eq_refl eq_refl eq_refl _ Hf _ _); [writing| |by apply Ha; cbn; rewrite Hb].
      intros args Hg. by apply audio_args.
    + rewrite bind_run. erewrite (refused_call INTELL_VOICE_ENGINE_WRITE_AUDIO WriteAudioInner _ _ w int_result (-1) (-1));
        [done|done|writing|exact Hf|done| |apply int_failed].
      intros args Hg. by apply (audio_refused buffer).
  - refine (int_step (CallStartCapturer channels) INTELL_VOICE_ENGINE_STAET_CAPTURER StartCapturerInner _ _
      (o_StartCapturer channels) w eq_refl eq_refl eq_refl _ Hf _ _); [writing| |by apply Ha].
    intros args Hg. unfold StartCapturerInner. by rewrite (reads_run _ _ _ _ (get_int32 _) Hg), i32_word.
  - destruct (Ha _ eq_refl) as [Ha1 Ha2].
    by apply (data_step (CallRead []) INTELL_VOICE_ENGINE_READ ReadInner (o_Read []) data w).
  - refine (int_step CallStopCapturer INTELL_VOICE_ENGINE_STOP_CAPTURER StopCapturerInner _ [] o_StopCapturer w
      eq_refl eq_refl eq_refl writes_ret Hf _ _); [done|by apply Ha].
  - destruct (Ha _ eq_refl) as [Ha1 Ha2].
    by apply (data_step (CallGetWakeupPcm []) INTELL_VOICE_ENGINE_GET_WAKEUP_PCM GetWakeupPcmInner (o_GetWakeupPcm []) data w).
  - destruct (Ha _ eq_refl) as [Ha1 Ha2]. cbn [arrives invoke] in *. rewrite !(bind_run (o_Evaluate word junk)) in *.
    cbn [fst snd mret st_ret] in *. rewrite bind_run.
    rewrite (eval_call word result w Hf Ha1 Ha2). destruct (o_Evaluate word junk w) as [[r e] w']. cbn.
    by destruct (r =? 0).
  - destruct Ht as [Ht1 Ht2], (_ && _) eqn:Hb.
    + refine (int_step (CallNotifyDeviceWakeupEvent mac event) INTELL_VOICE_ENGINE_NOTIFY_DEVICE_WAKEUP_EVENT
        NotifyDeviceWakeupEventInner _ _ (o_NotifyDeviceWakeupEvent mac event) w eq_refl eq_refl eq_refl _ Hf _ _);
        [writing| |by apply Ha; cbn; rewrite Hb].
      intros args Hg. unfold NotifyDeviceWakeupEventInner. rewrite (reads_run _ _ _ _ (notify_args mac event Ht1 Ht2) Hg).
      rewrite event_valid, Hb. by destruct event.
    + rewrite bind_run.
      erewrite (refused_call INTELL_VOICE_ENGINE_NOTIFY_DEVICE_WAKEUP_EVENT NotifyDeviceWakeupEventInner _ _ w int_result (-1) 1);
        [done|done|writing|exact Hf|done| |apply int_failed].
      intros args Hg. unfold NotifyDeviceWakeupEventInner. rewrite (reads_run _ _ _ _ (notify_args mac event Ht1 Ht2) Hg).
      by rewrite event_valid, Hb.
Qed.
End lemmas.
