(* ===== verification/RemoteEngine.v ===== *)
(** * What a client in another process gets

    The theorems of [EngineIpc.v]: a run of calls through [IntellVoiceEngineProxy] is
    the run of the calls that arrive, with the answers as the client sees them; what a
    stub does with any request; the delivery of callbacks, and their loss.  [base_object] has the
    members [EngineBase] defines itself ([engine_base.cpp]), [enroll_object] is the
    enrollment engine behind the interface. *)

From S2P Require Import Prelude StringUtil Settings EngineTypes EngineAudio EngineUtil EnrollEngine WakeupFacade Parcel EngineIpc.

(** ** [EngineBase] *)

Section base.
Context {W : Type}.
Definition EngineBase_StartCapturer (channels : Z) : St W Z := mret 0.
Definition EngineBase_Read (data : list Z) : St W (Z * list Z) := mret (0, data).
Definition EngineBase_StopCapturer : St W Z := mret 0.
Definition EngineBase_GetWakeupPcm (data : list Z) : St W (Z * list Z) := mret (0, data).
Definition EngineBase_Evaluate (word : str) (result : Z * Z) : St W (Z * (Z * Z)) := mret (0, result).
Definition EngineBase_NotifyDeviceWakeupEvent (macAddress : str) (event : EventDetail) : St W Z := mret 0.
End base.

(** ** The enrollment engine as an object *)

Section enroll_object.
Context {H A T D : Type} `{!EngineHal H} `{!AudioFw A} `{!TriggerPort T} `{!KvStore D}.
Context {JL : JsonLib} {PL : Platform} {IDS : HdiIds} {AM : AudioModes}.

Definition enroll_object : EngineObject (Sys (EnrollEngine H A) T D) := {|
  o_SetCallback := EN_SetCallback;
  o_Attach := EN_Attach;
  o_Detach := EN_Detach;
  o_SetParameter := EN_SetParameter;
  o_GetParameter := EN_GetParameter;
  o_Start := EN_Start;
  o_Stop := EN_Stop;
  o_WriteAudio buffer := EN_WriteAudio (Some buffer);
  o_StartCapturer := EngineBase_StartCapturer;
  o_Read := EngineBase_Read;
  o_StopCapturer := EngineBase_StopCapturer;
  o_GetWakeupPcm := EngineBase_GetWakeupPcm;
  o_Evaluate := EN_Evaluate;
  o_NotifyDeviceWakeupEvent := EngineBase_NotifyDeviceWakeupEvent |}.

(** The operation of [EnOp] a call is, if it reaches the members of the class. *)
Definition enroll_op (c : EngineCall) : list EnOp :=
  match c with
  | CallSetCallback object => [EnSetCallback object]
  | CallAttach info => [EnAttach info]
  | CallDetach => [EnDetach]
  | CallSetParameter kv => [EnSetParameter kv]
  | CallGetParameter key => [EnGetParameter key]
  | CallStart isLast => [EnStart isLast]
  | CallStop => [EnStop]
  | CallWriteAudio buffer => [EnWriteAudio (Some buffer)]
  | CallEvaluate word result => [EnEvaluate word result]
  | _ => []
  end.

Lemma enroll_object_ops c s : (invoke enroll_object c s).2 = en_run (enroll_op c) s.
Proof.
  destruct c; cbn [invoke enroll_object o_SetCallback o_Attach o_Detach o_SetParameter o_GetParameter o_Start o_Stop
    o_WriteAudio o_StartCapturer o_Read o_StopCapturer o_GetWakeupPcm o_Evaluate o_NotifyDeviceWakeupEvent enroll_op];
    unfold en_run; cbn [foldl en_do]; rewrite ?bind_run, ?void_run; done.
Qed.
End enroll_object.

(** ** Runs of calls *)

(** A client's calls, one after the other; [call] says what one of them does. *)
Fixpoint calls {W} (call : EngineCall → St W Answer) (cs : list EngineCall) : St W (list Answer) :=
  match cs with
  | [] => mret []
  | c :: cs => a ← call c; l ← calls call cs; mret (a :: l)
  end.

(** A call of a client on the engine itself, and what the client sees of it. *)
Definition serve {W} (O : EngineObject W) (uninitialised : Z * Z) (c : EngineCall) : St W Answer :=
  match arrives uninitialised c with
  | None => mret (refused c)
  | Some c' => a ← invoke O c'; mret (seen c a)
  end.

Lemma calls_ext {W} (f g : EngineCall → St W Answer) cs w :
  Forall (λ c, ∀ w, f c w = g c w) cs → calls f cs w = calls g cs w.
Proof.
  intros Hf. revert w. induction Hf as [|c cs Hc _ IH]; intros w; [done|]. cbn [calls].
  by rewrite !bind_run, Hc, IH.
Qed.

Section remote.
Context {P W : Type} `{!ParcelLib P} `{!ParcelLaws P}.
Implicit Types (w : W) (O : EngineObject W).

(** The answers of the engine to the calls that arrive have their types and fit a
    parcel. *)
Definition sound_answers O (junk : Z * Z) : Prop :=
  ∀ c c' w, arrives junk c = Some c' →
    typed_answer (invoke O c' w).1 ∧ fits (P := P) (answer_items (invoke O c' w).1).
Definition sound_call (c : EngineCall) : Prop := typed_call c ∧ fits (P := P) (call_items c).

(** C4: a client of an engine in another process sees what a local client would.  When
    requests reach the engine's stub, any sequence of calls through the proxy, with
    arguments of the declared types and parcels that have room, acts on the engine as
    the calls that arrive do, in their order and with the same arguments; refused are
    a null callback, empty or oversized audio, and an event outside the enumeration.
    The answers are the engine's, but every error is -1, and data is given up when it
    is empty or over ten megabytes. *)
Theorem remote_engine O junk (remote : Stub P W) cs w
    (Hc : carries remote (Engine_OnRemoteRequest junk)) (Ho : sound_answers O junk) (Hs : Forall sound_call cs) :
  calls (invoke (IntellVoiceEngineProxy remote)) cs w = calls (serve O junk) cs w.
Proof.
  apply calls_ext. apply (Forall_impl _ _ _ Hs). intros c [Ht Hf] x.
  rewrite (remote_calls O junk remote Hc c x Ht Hf) by (intros c'; apply Ho). unfold serve.
  destruct (arrives junk c) as [c'|]; [|done]. rewrite bind_run. by destruct (invoke O c' x).
Qed.

(** The proxy when the connection is down. *)
Lemma refused_down (remote : Stub P W) c w : down remote → invoke (IntellVoiceEngineProxy remote) c w = (refused c, w).
Proof.
  intros Hd. assert (∀ code data, ∃ e reply, e ≠ 0 ∧ remote code data w = ((e, reply), w)) as Hr.
  { intros code data. destruct (Hd code data w) as [H1 H2]. exists (remote code data w).1.1, (remote code data w).1.2.
    split; [done|]. destruct (remote code data w) as [[]]. cbn in *. by subst. }
  destruct c as [[o|]|info| |kv|key|isLast| |buffer|channels|data| |data|word result|mac event];
    unfold invoke, IntellVoiceEngineProxy;
    cbn [o_SetCallback o_Attach o_Detach o_SetParameter o_GetParameter o_Start o_Stop o_WriteAudio o_StartCapturer
         o_Read o_StopCapturer o_GetWakeupPcm o_Evaluate o_NotifyDeviceWakeupEvent];
    unfold Proxy_SetCallback, Proxy_Attach, Proxy_Detach, Proxy_SetParameter, Proxy_GetParameter, Proxy_Start, Proxy_Stop,
      Proxy_WriteAudio, Proxy_StartCapturer, Proxy_Read, Proxy_StopCapturer, Proxy_GetWakeupPcm, Proxy_Evaluate,
      Proxy_NotifyDeviceWakeupEvent; [|done|..];
    rewrite ?bind_run, ?void_run, ?bind_run;
    match goal with |- context [remote ?code ?data w] => destruct (Hr code data) as (e & reply & He & ->) end;
    unfold int_result, read_data; cbn [fst snd]; by destruct (Z.eqb_spec e 0).
Qed.

(** ** What a request does to the engine *)

(** The calls the stub makes whatever the request holds. *)
Definition guarded (c : EngineCall) : Prop :=
  match c with
  | CallNotifyDeviceWakeupEvent _ e => VOICE_RECOGNIZE_EVENT ≤ wakeupEvent e < EVENT_MAX
  | CallRead d | CallGetWakeupPcm d => d = []
  | _ => True
  end.
Lemma handler_calls O junk code h args w :
  processFuncMap_ (P := P) junk code = Some h →
  (h args w).2 = w ∨ ∃ c, guarded c ∧ (h args w).2 = (invoke O c w).2.
Proof.
  unfold processFuncMap_. intros Hh.
  repeat match type of Hh with (if ?b then _ else _) = _ => destruct b; [injection Hh as <-|] end; [..|done].
  - right. exists (CallSetCallback (ReadRemoteObject args).1). split; [done|]. unfold SetCallbackInner, invoke. by rewrite !bind_run.
  - right. eexists (CallAttach _). split; [done|]. unfold AttachInner, invoke. by rewrite !bind_run.
  - right. exists CallDetach. split; [done|]. unfold DetachInner, invoke. by rewrite !bind_run.
  - right. exists (CallSetParameter (ReadString args).1). split; [done|]. unfold SetParameterInner, invoke. by rewrite !bind_run.
  - right. exists (CallGetParameter (ReadString args).1). split; [done|]. unfold GetParameterInner, invoke. by rewrite !bind_run.
  - right. exists (CallStart (ReadBool args).1). split; [done|]. unfold StartInner, invoke. by rewrite !bind_run.
  - right. exists CallStop. split; [done|]. unfold StopInner, invoke. by rewrite !bind_run.
  - unfold WriteAudioInner. destruct (ReadInt32 args) as [size data], (size <=? 0); [by left|].
    destruct (ReadBuffer size data).1 as [buffer|]; [right|by left].
    exists (CallWriteAudio buffer). split; [done|]. unfold invoke. by rewrite !bind_run.
  - right. exists (CallStartCapturer (ReadInt32 args).1). split; [done|]. unfold StartCapturerInner, invoke. by rewrite !bind_run.
  - right. exists (CallRead []). split; [done|]. unfold ReadInner, invoke. by rewrite !bind_run.
  - right. exists CallStopCapturer. split; [done|]. unfold StopCapturerInner, invoke. by rewrite !bind_run.
  - right. exists (CallGetWakeupPcm []). split; [done|]. unfold GetWakeupPcmInner, invoke. by rewrite !bind_run.
  - right. exists (CallEvaluate (ReadString args).1 junk). split; [done|]. unfold EvaluateInner, invoke. rewrite !bind_run.
    by destruct (negb _).
  - unfold NotifyDeviceWakeupEventInner.
    match goal with |- context [((macAddress ← _; _) args).1] => idtac | _ => idtac end.
    destruct ((macAddress ← ReadString; eventCode ← ReadInt32; endFrameIndex ← ReadInt32;
               mret (macAddress, eventCode, endFrameIndex)) args).1 as [[mac code'] frame] eqn:E.
    rewrite event_valid. destruct (_ && _) eqn:Hb; [right|by left]. cbn [negb].
    exists (CallNotifyDeviceWakeupEvent mac (mkEventDetail code' frame)). split.
    + apply andb_true_iff in Hb as [H1%Z.leb_le H2%Z.ltb_lt]. by split.
    + unfold invoke. by rewrite !bind_run.
Qed.

Lemma request_calls O junk code data w :
  let r := Engine_OnRemoteRequest (P := P) junk code data w in
  ((ReadInterfaceToken data).1 ≠ ENGINE_DESCRIPTOR → r = ((-1, new_parcel), w)) ∧
  (r.2 = w ∨ ∃ c, guarded c ∧ r.2 = (invoke O c w).2).
Proof.
  unfold Engine_OnRemoteRequest, stub_request. destruct (ReadInterfaceToken data) as [token args]. cbn [fst].
  case_bool_decide as Ht; cbn [negb]; [|by split; [|left]]. split; [done|].
  destruct (processFuncMap_ junk code) as [h|] eqn:Hh; [by apply (handler_calls O junk code)|by left].
Qed.

(** ** Callbacks *)

(** [m] writes the items [k] and says so. *)
Definition succeeds (m : St P bool) (k : list Item) : Prop :=
  ∀ p l, holds p l → fits (l ++ k) → (m p).1 = true ∧ holds (m p).2 (l ++ k).
Lemma succeeds_checked m n i k : succeeds m [i] → succeeds n k → succeeds (put_checked m n) (i :: k).
Proof.
  intros Hm Hn p l Hp Hf. change (i :: k) with ([i] ++ k) in *. rewrite (assoc (++)) in Hf |- *.
  destruct (Hm p l Hp (fits_prefix _ _ Hf)) as [E Hp']. unfold put_checked. rewrite bind_run, E. by apply Hn.
Qed.
Lemma callback_sent (remote : Stub P W) code m k w :
  succeeds m k → fits k → ∃ data, holds data k ∧ (callback_request remote code m w).2 = (remote code data w).2.
Proof.
  intros Hm Hf. destruct (Hm new_parcel [] holds_new Hf) as [E Hk]. exists (m new_parcel).2. split; [done|].
  unfold callback_request. rewrite (surjective_pairing (m new_parcel)), E. by rewrite void_run.
Qed.
End remote.

(** ** A client of the enrollment engine *)

Section enrollment.
Context {P : Type} `{!ParcelLib P} `{!ParcelLaws P}.
Context {H A T D : Type} `{!EngineHal H} `{!AudioFw A} `{!TriggerPort T} `{!KvStore D}.
Context {JL : JsonLib} {PL : Platform} {IDS : HdiIds} {AM : AudioModes}.
Implicit Types s : Sys (EnrollEngine H A) T D.

(** What happens to an enrollment engine that clients reach by requests: a request
    with any contents, an event of the HAL, a turn of the engine's executor. *)
Inductive RemoteEvent := RRequest (code : Z) (data : P) | RHdi (msgId result : Z) (info : str) | RTurn (tse : Z).
Definition remote_do (junk : Z * Z) (e : RemoteEvent) s : Sys (EnrollEngine H A) T D :=
  match e with
  | RRequest code data => (Engine_OnRemoteRequest (EngineObject0 := enroll_object) junk code data s).2
  | RHdi msgId result info => (EN_OnIntellVoiceHdiEvent msgId result info s).2
  | RTurn tse => (EN_ExecuteInThread tse s).2
  end.

Lemma remote_do_ops junk e s : ∃ ops, remote_do junk e s = en_run ops s.
Proof.
  destruct e as [code data|msgId result info|tse]; cbn [remote_do].
  - destruct (request_calls enroll_object junk code data s) as [_ [->|(c & _ & ->)]]; [by exists []|].
    exists (enroll_op c). apply enroll_object_ops.
  - by exists [EnHdi msgId result info].
  - by exists [EnTurn tse].
Qed.
Lemma remote_run_ops junk es s : ∃ ops, foldl (λ s e, remote_do junk e s) s es = en_run ops s.
Proof.
  revert s. induction es as [|e es IH]; intros s; [by exists []|]. cbn [foldl].
  destruct (remote_do_ops junk e s) as [ops ->]. destruct (IH (en_run ops s)) as [ops' ->]. exists (ops ++ ops').
  unfold en_run. by rewrite foldl_app.
Qed.

(** No client can leave the microphone on record.  Whatever requests reach the
    stub of an enrollment engine, with whatever codes and contents and in whatever
    order with the events of the HAL, the caller of the last start is on record while the
    engine reads, nobody else is and nobody otherwise, but for callers for whom the privacy
    kit has refused something; and a request to stop or to detach leaves none. *)
Theorem remote_mic_balanced junk es s data (Hs : audioSource_ (own s) = None) (Hm : mic_users (outs s) = ∅)
    (Hd : holds data [IToken ENGINE_DESCRIPTOR]) :
  let s' := foldl (λ s e, remote_do junk e s) s es in
  recording s' ∧ not_recording (remote_do junk (RRequest INTELL_VOICE_ENGINE_STOP data) s') ∧
  not_recording (remote_do junk (RRequest INTELL_VOICE_ENGINE_DETACH data) s').
Proof.
  destruct (remote_run_ops junk es s) as [ops ->]. cbv zeta. pose proof (en_run_keeps ops s (not_recording_is s (not_recording_intro s Hs Hm))) as Hr.
  split; [done|]. cbn [remote_do].
  split.
  - destruct (stub_request_run ENGINE_DESCRIPTOR (processFuncMap_ (EngineObject0 := enroll_object) junk)
      INTELL_VOICE_ENGINE_STOP StopInner data [] (en_run ops s) eq_refl Hd) as (args & _ & E).
    unfold Engine_OnRemoteRequest. rewrite E. unfold StopInner. rewrite bind_run. by apply EN_Stop_ends.
  - destruct (stub_request_run ENGINE_DESCRIPTOR (processFuncMap_ (EngineObject0 := enroll_object) junk)
      INTELL_VOICE_ENGINE_DETACH DetachInner data [] (en_run ops s) eq_refl Hd) as (args & _ & E).
    unfold Engine_OnRemoteRequest. rewrite E. unfold DetachInner. rewrite bind_run. by apply EN_Detach_ends.
Qed.
End enrollment.

Section callback_theorem.
Context {P W : Type} `{!ParcelLib P} `{!ParcelLaws P}.
Implicit Types w : W.

Lemma event_args msgId result info : is_i32 msgId → is_i32 result →
  reads (P := P) (msgId ← ReadInt32; result ← ReadInt32; info ← ReadString; mret (mkCallBackEvent msgId result info))
    [IWord (u32 msgId); IWord (u32 result); IString info] (mkCallBackEvent msgId result info).
Proof.
  intros H1 H2. do 3 (eapply reads_bind; [auto 1 with ivoice nocore|]). rewrite !i32_word by done. apply reads_ret.
Qed.

Definition event_items (event : CallBackEvent) : list Item :=
  [IToken ENGINE_CALLBACK_DESCRIPTOR; IWord (u32 (ev_msgId event)); IWord (u32 (ev_result event)); IString (ev_info event)].
Lemma event_delivered (remote : Stub P W) onEvent event w :
  carries remote (EngineCallback_OnRemoteRequest onEvent) → is_i32 (ev_msgId event) → is_i32 (ev_result event) →
  fits (event_items event) → (OnIntellVoiceEngineEvent remote event w).2 = (onEvent event w).2.
Proof.
  intros Hc H1 H2 Hf. unfold OnIntellVoiceEngineEvent.
  edestruct (callback_sent (W := W) remote ON_INTELL_VOICE_ENGINE_EVENT) as (data & Hd & ->); [|exact Hf|].
  { do 3 (apply succeeds_checked; [by intros ???; first [apply write_token|apply write_int32]|]).
    intros ???. by apply write_string. }
  destruct (Hc ON_INTELL_VOICE_ENGINE_EVENT data w) as (_ & -> & _). unfold EngineCallback_OnRemoteRequest.
  destruct (read_token _ _ _ Hd) as [Et Ha]. rewrite (surjective_pairing (ReadInterfaceToken data)), Et.
  rewrite bool_decide_eq_true_2 by done. destruct event as [msgId res info]. cbn in Ha, H1, H2.
  change (ON_INTELL_VOICE_ENGINE_EVENT =? ON_INTELL_VOICE_ENGINE_EVENT) with true. cbn [negb].
  by rewrite (reads_run _ _ _ _ (event_args msgId res info H1 H2) Ha), bind_run.
Qed.
Lemma update_delivered (remote : Stub P W) onComplete result w :
  carries remote (UpdateCallback_OnRemoteRequest onComplete) → is_i32 result →
  fits (P := P) [IToken UPDATE_CALLBACK_DESCRIPTOR; IWord (u32 result)] →
  (OnUpdateComplete_proxy remote result w).2 = (onComplete result w).2.
Proof.
  intros Hc H1 Hf. unfold OnUpdateComplete_proxy.
  edestruct (callback_sent (W := W) remote ON_INTELL_VOICE_UPDATE_EVENT) as (data & Hd & ->); [|exact Hf|].
  { apply succeeds_checked; intros ???; [by apply write_token|by apply write_int32]. }
  destruct (Hc ON_INTELL_VOICE_UPDATE_EVENT data w) as (_ & -> & _). unfold UpdateCallback_OnRemoteRequest.
  destruct (read_token _ _ _ Hd) as [Et Ha]. rewrite (surjective_pairing (ReadInterfaceToken data)), Et.
  rewrite bool_decide_eq_true_2 by done. change (ON_INTELL_VOICE_UPDATE_EVENT =? ON_INTELL_VOICE_UPDATE_EVENT) with true.
  cbn [negb]. destruct (read_int32 _ _ _ Ha) as [-> _]. by rewrite i32_word, bind_run.
Qed.

(** One of the writes of a request fails, when those before it are done. *)
Fixpoint some_write_fails (l : list (St P bool)) (p : P) : Prop :=
  match l with
  | [] => False
  | m :: l => (m p).1 = false ∨ ((m p).1 = true ∧ some_write_fails l (m p).2)
  end.
Definition event_writes (event : CallBackEvent) : list (St P bool) :=
  [WriteInterfaceToken ENGINE_CALLBACK_DESCRIPTOR; WriteInt32 (ev_msgId event); WriteInt32 (ev_result event);
   WriteString (ev_info event)].
Definition update_writes (result : Z) : list (St P bool) :=
  [WriteInterfaceToken UPDATE_CALLBACK_DESCRIPTOR; WriteInt32 result].

(** A run of [put_checked]s says that it failed when one of its writes does. *)
Lemma checked_fails (m k : St P bool) l p :
  (∀ p, some_write_fails l p → (k p).1 = false) → some_write_fails (m :: l) p → (put_checked m k p).1 = false.
Proof.
  intros Hk Hp. unfold put_checked. rewrite bind_run. destruct Hp as [Hp|[Hp Hl]]; rewrite Hp; [done|by apply Hk].
Qed.
Lemma last_fails (m : St P bool) p : some_write_fails [m] p → (m p).1 = false.
Proof. by intros [|[_ []]]. Qed.
Lemma unsent (remote : Stub P W) code m w : (m new_parcel).1 = false → callback_request remote code m w = ((), w).
Proof. intros Hm. unfold callback_request. by rewrite (surjective_pairing (m new_parcel)), Hm. Qed.
Lemma request_lost (remote : Stub P W) code m w : down remote → callback_request remote code m w = ((), w).
Proof.
  intros Hd. unfold callback_request. destruct (m new_parcel) as [[] data]; [|done].
  unfold st_void. rewrite bind_run. by rewrite (proj2 (Hd code data w)).
Qed.
Lemma event_unsent (remote : Stub P W) event w :
  some_write_fails (event_writes event) new_parcel → OnIntellVoiceEngineEvent remote event w = ((), w).
Proof.
  intros Hf. apply unsent. revert Hf. apply checked_fails. intros p. apply checked_fails. clear p.
  intros p. apply checked_fails. clear p. intros p. apply last_fails.
Qed.
Lemma update_unsent (remote : Stub P W) result w :
  some_write_fails (update_writes result) new_parcel → OnUpdateComplete_proxy remote result w = ((), w).
Proof. intros Hf. apply unsent. revert Hf. apply checked_fails. intros p. apply last_fails. Qed.

(** C40: callbacks are delivered, or lost without a trace.  When requests reach the
    client and the parcel holds what is written into it, an event an engine sends, and
    the result of an update, is handed to the client's callback once, with the message,
    the result and the text the engine gave.  When a write into the parcel fails, or
    the request fails, nothing happens at the client and nothing changes at the sender,
    who is told nothing: the functions return no result. *)
Theorem callbacks_delivered (remote : Stub P W) onEvent (remote_update : Stub P W) onComplete event result w
    (Hc : carries remote (EngineCallback_OnRemoteRequest onEvent))
    (Hu : carries remote_update (UpdateCallback_OnRemoteRequest onComplete))
    (H1 : is_i32 (ev_msgId event)) (H2 : is_i32 (ev_result event)) (H3 : is_i32 result)
    (Hf : fits (P := P) (event_items event))
    (Hg : fits (P := P) [IToken UPDATE_CALLBACK_DESCRIPTOR; IWord (u32 result)]) :
  ((OnIntellVoiceEngineEvent remote event w).2 = (onEvent event w).2 ∧
   (OnUpdateComplete_proxy remote_update result w).2 = (onComplete result w).2) ∧
  (∀ (client : Stub P W) e r,
     (some_write_fails (event_writes e) new_parcel ∨ down client → OnIntellVoiceEngineEvent client e w = ((), w)) ∧
     (some_write_fails (update_writes r) new_parcel ∨ down client → OnUpdateComplete_proxy client r w = ((), w))).
Proof.
  split; [split; [by apply event_delivered|by apply update_delivered]|].
  intros client e r. split; (intros [Hw|Hd]; [|by apply request_lost]); [by apply event_unsent|by apply update_unsent].
Qed.
End callback_theorem.

(** ** Concrete clients *)

Definition ref_enroll_stub : Stub listed RefEnroll := Engine_OnRemoteRequest (EngineObject0 := enroll_object) (5, 5).
Lemma ref_sound : sound_answers (P := listed) (W := RefEnroll) enroll_object (5, 5).
Proof.
  intros c c' w Hc. split; [|done]. destruct c; cbn in Hc; repeat case_match; try done; injection Hc as <-;
    unfold invoke, enroll_object; cbn [o_SetCallback o_Attach o_Detach o_SetParameter o_GetParameter o_Start o_Stop
    o_WriteAudio o_StartCapturer o_Read o_StopCapturer o_GetWakeupPcm o_Evaluate o_NotifyDeviceWakeupEvent];
    rewrite bind_run; try done.
  unfold EN_Evaluate. rewrite bind_run. unfold on_util, Evaluate. rewrite zoom_run. cbn [fst snd].
  destruct (with_adapter _ _ _) as [[r e] x] eqn:E. cbn. destruct (r =? 0); [|by split].
  unfold with_adapter in E. rewrite bind_run in E. unfold getc, st_gets in E. cbn [fst snd] in E.
  destruct (adapter_ _) as [a|]; [|by injection E as <- <- _; split].
  unfold Adapter_Evaluate in E. destruct (adapterProxy1_2_ a); by injection E as <- <- _; split.
Qed.

Definition client_calls : list EngineCall :=
  [CallSetCallback (Some 3%nat); CallAttach (mkEngineInfo (lit "hello") false 1280 1 16 16000); CallWriteAudio [];
   CallEvaluate (lit "hello") (1, 2); CallStart false].
Lemma remote_engine_witness :
  (calls (invoke (IntellVoiceEngineProxy ref_enroll_stub)) client_calls (en_run [EnInit] enroll0)).1 =
  [ANone; ARet 0; ARet (-1); AEval 0 (0, 0); ARet 0].
Proof.
  assert (Forall (sound_call (P := listed)) client_calls) as Hs by (repeat constructor; vm_compute; done).
  pose proof (remote_engine (P := listed) (W := RefEnroll) enroll_object (5, 5) ref_enroll_stub client_calls
    (en_run [EnInit] enroll0) (carries_refl _) ref_sound Hs) as ->. vm_compute. reflexivity.
Defined.

(** While the engine records, its caller, 7, is the user of the microphone; then a
    request to stop ends it. *)
Definition start_requests : list (RemoteEvent (P := listed)) :=
  [RRequest INTELL_VOICE_ENGINE_WRITE_AUDIO [IToken ENGINE_DESCRIPTOR; IString (lit "noise")];
   RRequest 99 []; RRequest INTELL_VOICE_ENGINE_START [IToken ENGINE_DESCRIPTOR; IBool false]].
Definition stop_request : RemoteEvent (P := listed) := RRequest INTELL_VOICE_ENGINE_STOP [IToken ENGINE_DESCRIPTOR].
Lemma remote_mic_balanced_witness :
  let started : RefEnroll := foldl (λ s e, remote_do (5, 5) e s) (en_run enroll_setup enroll0) start_requests in
  7 ∈ mic_users (outs started) ∧ mic_users (outs (remote_do (5, 5) stop_request started)) = ∅.
Proof.
  assert (audioSource_ (own (en_run enroll_setup enroll0)) = None) as Hs by (by vm_compute).
  assert (outs (en_run enroll_setup enroll0) = []) as Ho by (by vm_compute).
  assert (is_Some (audioSource_ (own (foldl (λ s e, remote_do (5, 5) e s) (en_run enroll_setup enroll0) start_requests)))) as [src Ha]
    by (vm_compute; by eexists).
  assert (callerTokenId_ (own (foldl (λ s e, remote_do (5, 5) e s) (en_run enroll_setup enroll0) start_requests)) = 7) as Ht
    by (by vm_compute).
  assert (mic_refused (outs (remote_do (5, 5) stop_request
    (foldl (λ s e, remote_do (5, 5) e s) (en_run enroll_setup enroll0) start_requests))) = ∅) as Hf by (by vm_compute).
  revert Hs Ho Ha Ht Hf. generalize (en_run enroll_setup enroll0), start_requests. intros s es Hs Ho Ha Ht Hf.
  assert (mic_users (outs s) = ∅) as Hm by (by rewrite Ho).
  assert (holds (P := listed) [IToken ENGINE_DESCRIPTOR] [IToken ENGINE_DESCRIPTOR]) as Hd by reflexivity.
  destruct (remote_mic_balanced (P := listed) (5, 5) es s [IToken ENGINE_DESCRIPTOR] Hs Hm Hd) as (H1 & [_ H2] & _).
  cbv zeta. split; [|exact (mic_for_exact None _ H2 Hf)]. unfold recording in H1. rewrite Ha, Ht in H1. by apply H1.
Defined.

(** Parcels that refuse texts of more than eight characters. *)
Section short_texts.
Definition short_text (i : Item) : bool := match i with IString s => (length s <=? 8)%nat | _ => true end.
#[local] Instance short_lib : ParcelLib listed := parcel_with short_text.
#[local] Instance short_laws : ParcelLaws listed := parcel_with_laws short_text.
Definition log_events : Stub listed (list CallBackEvent) :=
  EngineCallback_OnRemoteRequest (λ e, st_modify (λ l, l ++ [e])).
Definition log_updates : Stub listed (list CallBackEvent) :=
  UpdateCallback_OnRemoteRequest (λ r, st_modify (λ l, l ++ [mkCallBackEvent r r []])).
Definition dead_client : Stub listed (list CallBackEvent) := λ _ _, mret (29189, []).
Lemma callbacks_delivered_witness :
  (OnIntellVoiceEngineEvent log_events (mkCallBackEvent 4 (-1) (lit "text")) []).2 = [mkCallBackEvent 4 (-1) (lit "text")] ∧
  (OnUpdateComplete_proxy log_updates (-3) []).2 = [mkCallBackEvent (-3) (-3) []] ∧
  OnIntellVoiceEngineEvent log_events (mkCallBackEvent 4 (-1) (lit "a longer text")) [] = ((), []) ∧
  OnUpdateComplete_proxy dead_client (-3) [] = ((), []).
Proof.
  assert (is_i32 4 ∧ is_i32 (-1) ∧ is_i32 (-3)) as (H1 & H2 & H3) by (unfold is_i32; lia).
  assert (fits (P := listed) (event_items (mkCallBackEvent 4 (-1) (lit "text")))) as Hf by (repeat constructor).
  assert (fits (P := listed) [IToken UPDATE_CALLBACK_DESCRIPTOR; IWord (u32 (-3))]) as Hg by (repeat constructor).
  assert (some_write_fails (event_writes (mkCallBackEvent 4 (-1) (lit "a longer text"))) (new_parcel (P := listed))) as Hl
    by (vm_compute; tauto).
  assert (down dead_client) as Hd by done.
  destruct (callbacks_delivered (P := listed) log_events _ log_updates _ (mkCallBackEvent 4 (-1) (lit "text")) (-3) []
    (carries_refl _) (carries_refl _) H1 H2 H3 Hf Hg) as [[E1 E2] Hlost].
  split; [exact E1|]. split; [exact E2|]. split.
  - exact (proj1 (Hlost log_events (mkCallBackEvent 4 (-1) (lit "a longer text")) 0 ) (or_introl Hl)).
  - exact (proj2 (Hlost dead_client (mkCallBackEvent 0 0 []) (-3)) (or_intror Hd)).
Defined.
End short_texts.

(** An engine that does not define [Evaluate], as the wakeup engines, answers 0 and
    leaves the result alone: a client gets what the memory of the stub's local
    variable held. *)
Definition base_object : EngineObject unit := {|
  o_SetCallback _ := mret ();
  o_Attach _ := mret 0;
  o_Detach := mret 0;
  o_SetParameter _ := mret 0;
  o_GetParameter _ := mret [];
  o_Start _ := mret 0;
  o_Stop := mret 0;
  o_WriteAudio _ := mret 0;
  o_StartCapturer := EngineBase_StartCapturer;
  o_Read := EngineBase_Read;
  o_StopCapturer := EngineBase_StopCapturer;
  o_GetWakeupPcm := EngineBase_GetWakeupPcm;
  o_Evaluate := EngineBase_Evaluate;
  o_NotifyDeviceWakeupEvent := EngineBase_NotifyDeviceWakeupEvent |}.
Example base_evaluate_leaks :
  (invoke (IntellVoiceEngineProxy (Engine_OnRemoteRequest (P := listed) (EngineObject0 := base_object) (1234, 5678)))
     (CallEvaluate (lit "word") (0, 0)) tt).1 = AEval 0 (1234, 5678).
Proof. reflexivity. Qed.

(** The code of an engine's error does not reach a client: the stub returns it as the
    result of the request. *)
Definition failing_object : EngineObject unit := {|
  o_SetCallback _ := mret ();
  o_Attach _ := mret (-7);
  o_Detach := mret 0;
  o_SetParameter _ := mret 0;
  o_GetParameter _ := mret [];
  o_Start _ := mret 0;
  o_Stop := mret 0;
  o_WriteAudio _ := mret 0;
  o_StartCapturer := EngineBase_StartCapturer;
  o_Read := EngineBase_Read;
  o_StopCapturer := EngineBase_StopCapturer;
  o_GetWakeupPcm := EngineBase_GetWakeupPcm;
  o_Evaluate := EngineBase_Evaluate;
  o_NotifyDeviceWakeupEvent := EngineBase_NotifyDeviceWakeupEvent |}.
Example error_code_lost :
  (invoke (IntellVoiceEngineProxy (Engine_OnRemoteRequest (P := listed) (EngineObject0 := failing_object) (0, 0)))
     (CallAttach (mkEngineInfo [] false 0 0 0 0)) tt).1 = ARet (-1).
Proof. reflexivity. Qed.
