(* ===== verification/ServiceIpc.v ===== *)
(** * The service in another process

    [inc/i_intell_voice_service.h], [proxy/intell_voice_service_proxy.cpp] and
    [server/sa/intell_voice_service_stub.cpp].  [ServiceObject] is what the stub calls:
    the interface [IIntellVoiceService] and the registration of the clients' death
    recipients.  Objects of other processes and shared memory are numbers. *)

From S2P Require Import Prelude StringUtil EngineTypes DeviceManager Parcel.

(** ** The interface *)

Record UploadFilesFromHdi := mkUploadFiles { uf_type : Z; uf_filesDescription : str; uf_filesContent : list nat }.

(** Arguments that a call fills are taken with what they hold before. *)
Class ServiceObject (W : Type) := {
  s_CreateIntellVoiceEngine : Z → option nat → St W (Z * option nat);
  s_ReleaseIntellVoiceEngine : Z → St W Z;
  s_RegisterDeathRecipient : Z → option nat → St W bool;
  s_DeregisterDeathRecipient : Z → St W bool;
  s_RegisterDeviceDeathRecipient : str → option nat → St W bool;
  s_GetUploadFiles : Z → list UploadFilesFromHdi → St W (Z * list UploadFilesFromHdi);
  s_SetParameter : str → St W Z;
  s_GetParameter : str → St W str;
  s_GetWakeupSourceFilesList : list str → St W (Z * list str);
  s_GetWakeupSourceFile : str → list Z → St W (Z * list Z);
  s_SendWakeupFile : str → list Z → St W Z;
  s_EnrollWithWakeupFilesForResult : str → option nat → St W Z;
  s_ClearUserData : St W Z;
  s_RegisterDeviceWakeupInfo : str → WakeupDeviceInfo → St W Z;
  s_DeregisterDeviceWakeupInfo : str → St W Z }.

Definition SERVICE_DESCRIPTOR : str := lit "IntellVoiceFramework.Service".
Definition HDI_INTELL_VOICE_SERVICE_CREATE_ENGINE : Z := 0.
Definition HDI_INTELL_VOICE_SERVICE_RELEASE_ENGINE : Z := 1.
Definition HDI_INTELL_VOICE_SERVICE_GET_REPORTED_FILES : Z := 2.
Definition HDI_INTELL_VOICE_SERVICE_GET_PARAMETER : Z := 5.
Definition HDI_INTELL_VOICE_SERVICE_GET_CLONE_FILES_LIST : Z := 6.
Definition HDI_INTELL_VOICE_SERVICE_GET_CLONE_FILE : Z := 7.
Definition HDI_INTELL_VOICE_SERVICE_SEND_CLONE_FILE : Z := 8.
Definition HDI_INTELL_VOICE_SERVICE_CLONE_FOR_RESULT : Z := 9.
Definition HDI_INTELL_VOICE_SERVICE_SET_PARAMETER : Z := 10.
Definition HDI_INTELL_VOICE_SERVICE_CLEAR_USER_DATA : Z := 11.
Definition HDI_INTELL_VOICE_SERVICE_REGISTER_DEVICE : Z := 12.
Definition HDI_INTELL_VOICE_SERVICE_DEREGISTER_DEVICE : Z := 13.
Definition INTELL_VOICE_HEADSET_WAKEUP : Z := 200.
Definition CROSS_PROCESS_BUF_SIZE_LIMIT : Z := 256 * 1024.
Definition CLONE_FILES_NUM_MAX : Z := 100.
Definition FILE_SIZE_MAX : Z := 10 * 1024 * 1024.

(** ** Loops over parcels *)

Section loops.
Context {P : Type} `{!ParcelLib P}.
(** [for (auto x : l) write(x)], and [n] turns of a loop that reads. *)
Fixpoint put_all {A} (f : A → St P unit) (l : list A) : St P unit :=
  match l with [] => mret () | x :: l => _ ← f x; put_all f l end.
Fixpoint get_all {A} (f : St P A) (n : nat) : St P (list A) :=
  match n with O => mret [] | S n => x ← f; l ← get_all f n; mret (x :: l) end.
End loops.

(** ** The proxy *)

Section proxy.
Context {P W : Type} `{!ParcelLib P}.
Variable remote : Stub P W.
Abbreviation M := (St W).

(** The ends of the calls that fill an argument. *)
Definition engine_result (inst : option nat) (r : Z * P) : Z * option nat :=
  if negb (r.1 =? 0) then (-1, inst) else
  let '(ret, reply) := ReadInt32 r.2 in
  if negb (ret =? 0) then (ret, inst) else
  match (ReadRemoteObject reply).1 with
  | None => (-1, inst)
  | Some engine => (0, Some engine)
  end.

(** [stub] is the death recipient object the proxy allocates. *)
Definition SProxy_CreateIntellVoiceEngine (stub : option nat) (type : Z) (inst : option nat) : M (Z * option nat) :=
  r ← remote HDI_INTELL_VOICE_SERVICE_CREATE_ENGINE (request SERVICE_DESCRIPTOR
    (_ ← put (WriteInt32 type);
     _ ← put (WriteRemoteObject stub); mret ()));
  mret (engine_result inst r).

Definition SProxy_ReleaseIntellVoiceEngine (type : Z) : M Z :=
  r ← remote HDI_INTELL_VOICE_SERVICE_RELEASE_ENGINE (request SERVICE_DESCRIPTOR
    (_ ← put (WriteInt32 type); mret ()));
  mret (int_result r).

(** One file of the reply. *)
Definition read_file : St P UploadFilesFromHdi :=
  type ← ReadInt32;
  filesDescription ← ReadString;
  filesContentSize ← ReadInt32;
  filesContent ← get_all ReadAshmem (Z.to_nat filesContentSize);
  mret (mkUploadFiles type filesDescription filesContent).

Definition files_result (files : list UploadFilesFromHdi) (r : Z * P) : Z * list UploadFilesFromHdi :=
  if negb (r.1 =? 0) then (-1, files) else
  let '(ret, reply) := ReadInt32 r.2 in
  if negb (ret =? 0) then (ret, files) else
  let '(size, reply) := ReadInt32 reply in
  if size <=? 0 then (-1, files) else
  (ret, files ++ (get_all read_file (Z.to_nat size) reply).1).
Definition SProxy_GetUploadFiles (numMax : Z) (files : list UploadFilesFromHdi) : M (Z * list UploadFilesFromHdi) :=
  r ← remote HDI_INTELL_VOICE_SERVICE_GET_REPORTED_FILES (request SERVICE_DESCRIPTOR
    (_ ← put (WriteInt32 numMax); mret ()));
  mret (files_result files r).

Definition SProxy_GetParameter (key : str) : M str :=
  r ← remote HDI_INTELL_VOICE_SERVICE_GET_PARAMETER (request SERVICE_DESCRIPTOR
    (_ ← put (WriteString key); mret ()));
  mret (if negb (r.1 =? 0) then [] else (ReadString r.2).1).

Definition SProxy_SetParameter (keyValueList : str) : M Z :=
  r ← remote HDI_INTELL_VOICE_SERVICE_SET_PARAMETER (request SERVICE_DESCRIPTOR
    (_ ← put (WriteString keyValueList); mret ()));
  mret (int_result r).

Definition names_result (cloneFiles : list str) (r : Z * P) : Z * list str :=
  if negb (r.1 =? 0) then (-1, cloneFiles) else
  let '(ret, reply) := ReadInt32 r.2 in
  if negb (ret =? 0) then (ret, cloneFiles) else
  let '(size, reply) := ReadUint32 reply in
  if CLONE_FILES_NUM_MAX <? size then (-1, cloneFiles) else
  (ret, cloneFiles ++ (get_all ReadString (Z.to_nat size) reply).1).
Definition SProxy_GetWakeupSourceFilesList (cloneFiles : list str) : M (Z * list str) :=
  r ← remote HDI_INTELL_VOICE_SERVICE_GET_CLONE_FILES_LIST (request SERVICE_DESCRIPTOR (mret ()));
  mret (names_result cloneFiles r).

Definition bytes_result (buffer : list Z) (r : Z * P) : Z * list Z :=
  if negb (r.1 =? 0) then (-1, buffer) else
  let '(ret, reply) := ReadInt32 r.2 in
  if negb (ret =? 0) then (ret, buffer) else
  let '(size, reply) := ReadUint32 reply in
  if (size =? 0) || (CROSS_PROCESS_BUF_SIZE_LIMIT <? size) then (-1, buffer) else
  match (ReadBuffer size reply).1 with
  | None => (-1, buffer)
  | Some buff => (ret, buff)
  end.
Definition SProxy_GetWakeupSourceFile (filePath : str) (buffer : list Z) : M (Z * list Z) :=
  r ← remote HDI_INTELL_VOICE_SERVICE_GET_CLONE_FILE (request SERVICE_DESCRIPTOR
    (_ ← put (WriteString filePath); mret ()));
  mret (bytes_result buffer r).

Definition SProxy_SendWakeupFile (filePath : str) (buffer : list Z) : M Z :=
  if (Z.of_nat (length buffer) =? 0) || (CROSS_PROCESS_BUF_SIZE_LIMIT <? Z.of_nat (length buffer)) then mret (-1) else
  r ← remote HDI_INTELL_VOICE_SERVICE_SEND_CLONE_FILE (request SERVICE_DESCRIPTOR
    (_ ← put (WriteString filePath);
     _ ← put (WriteUint32 (Z.of_nat (length buffer)));
     _ ← put (WriteBuffer buffer); mret ()));
  mret (int_result r).

Definition SProxy_EnrollWithWakeupFilesForResult (wakeupInfo : str) (object : option nat) : M Z :=
  r ← remote HDI_INTELL_VOICE_SERVICE_CLONE_FOR_RESULT (request SERVICE_DESCRIPTOR
    (_ ← put (WriteString wakeupInfo);
     _ ← put (WriteRemoteObject object); mret ()));
  mret (int_result r).

Definition SProxy_ClearUserData : M Z :=
  r ← remote HDI_INTELL_VOICE_SERVICE_CLEAR_USER_DATA (request SERVICE_DESCRIPTOR (mret ()));
  mret (int_result r).

Definition SProxy_RegisterDeviceWakeupInfo (stub : option nat) (macAddress : str) (info : WakeupDeviceInfo) : M Z :=
  match stub with
  | None => mret (-1)
  | Some _ =>
    r ← remote HDI_INTELL_VOICE_SERVICE_REGISTER_DEVICE (request SERVICE_DESCRIPTOR
      (_ ← put (WriteString macAddress);
       _ ← put (WriteUint32 (i_type info));
       _ ← put (WriteString (i_serviceName info));
       _ ← put (WriteString (i_parameters info));
       _ ← put (WriteRemoteObject stub); mret ()));
    mret (int_result r)
  end.

Definition SProxy_DeregisterDeviceWakeupInfo (macAddress : str) : M Z :=
  r ← remote HDI_INTELL_VOICE_SERVICE_DEREGISTER_DEVICE (request SERVICE_DESCRIPTOR
    (_ ← put (WriteString macAddress); mret ()));
  mret (int_result r).
End proxy.

(** ** The stub *)

Section stub.
Context {P W : Type} `{!ParcelLib P} `{!ServiceObject W}.
Abbreviation M := (St W).

(** Headsets and other devices use the wakeup engine. *)
Definition engine_of_request (type : Z) : Z :=
  if (type =? INTELL_VOICE_HEADSET_WAKEUP) || (type =? INTELL_VOICE_DEVICE) then INTELL_VOICE_WAKEUP else type.

Definition reply_engine (r : Z * option nat) : Z * P :=
  if negb (r.1 =? 0) then reply_int r.1 else
  (r.1, written (_ ← put (WriteInt32 r.1);
                 match r.2 with Some engine => put (WriteRemoteObject (Some engine)) | None => mret () end)).
Definition CreateEngineInner (data : P) : M (Z * P) :=
  let '(type, obj) := ((type ← ReadInt32; obj ← ReadRemoteObject; mret (type, obj)) data).1 in
  _ ← s_RegisterDeathRecipient type obj;
  r ← s_CreateIntellVoiceEngine (engine_of_request type) None;
  mret (reply_engine r).

Definition ReleaseEngineInner (data : P) : M (Z * P) :=
  let type := (ReadInt32 data).1 in
  ret ← s_ReleaseIntellVoiceEngine type;
  _ ← s_DeregisterDeathRecipient type;
  mret (reply_int ret).

Definition write_file (file : UploadFilesFromHdi) : St P unit :=
  _ ← put (WriteInt32 (uf_type file));
  _ ← put (WriteString (uf_filesDescription file));
  _ ← put (WriteInt32 (Z.of_nat (length (uf_filesContent file))));
  put_all (λ ashmem, put (WriteAshmem ashmem)) (uf_filesContent file).
Definition reply_files (r : Z * list UploadFilesFromHdi) : Z * P :=
  if negb (r.1 =? 0) then reply_int r.1 else
  let size := i32 (Z.of_nat (length r.2)) in
  if size <=? 0 then (-1, written (_ ← put (WriteInt32 r.1); put (WriteInt32 size))) else
  (r.1, written (_ ← put (WriteInt32 r.1); _ ← put (WriteInt32 size); put_all write_file r.2)).
Definition GetReportedFilesInner (data : P) : M (Z * P) :=
  r ← s_GetUploadFiles (ReadInt32 data).1 []; mret (reply_files r).

Definition Service_GetParameterInner (data : P) : M (Z * P) :=
  val ← s_GetParameter (ReadString data).1;
  mret (0, written (put (WriteString val))).
Definition Service_SetParameterInner (data : P) : M (Z * P) :=
  ret ← s_SetParameter (ReadString data).1; mret (reply_int ret).

Definition reply_names (r : Z * list str) : Z * P :=
  if negb (r.1 =? 0) then reply_int r.1 else
  (r.1, written (_ ← put (WriteInt32 r.1);
                 _ ← put (WriteUint32 (Z.of_nat (length r.2)));
                 put_all (λ i, put (WriteString i)) r.2)).
Definition GetCloneFileListInner (data : P) : M (Z * P) :=
  r ← s_GetWakeupSourceFilesList []; mret (reply_names r).

Definition reply_bytes (r : Z * list Z) : Z * P :=
  if negb (r.1 =? 0) then reply_int r.1 else
  (r.1, written (_ ← put (WriteInt32 r.1);
                 _ ← put (WriteUint32 (Z.of_nat (length r.2)));
                 _ ← put (WriteBuffer r.2); mret ())).
Definition GetCloneFileInner (data : P) : M (Z * P) :=
  r ← s_GetWakeupSourceFile (ReadString data).1 []; mret (reply_bytes r).

Definition SendCloneFileInner (data : P) : M (Z * P) :=
  let '(filePath, data) := ReadString data in
  let '(size, data) := ReadUint32 data in
  if (size =? 0) || (FILE_SIZE_MAX <=? size) then mret (-1, new_parcel) else
  match (ReadBuffer size data).1 with
  | None => mret (-1, new_parcel)
  | Some buffer => ret ← s_SendWakeupFile filePath buffer; mret (reply_int ret)
  end.

Definition CloneForResultInner (data : P) : M (Z * P) :=
  let '(wakeupInfo, object) := ((wakeupInfo ← ReadString; object ← ReadRemoteObject; mret (wakeupInfo, object)) data).1 in
  ret ← s_EnrollWithWakeupFilesForResult wakeupInfo object; mret (reply_int ret).

Definition ClearUserDataInner (data : P) : M (Z * P) := ret ← s_ClearUserData; mret (reply_int ret).

Definition RegisterDeviceInner (data : P) : M (Z * P) :=
  let '(macAddress, info, obj) :=
    ((macAddress ← ReadString;
      type ← ReadUint32;
      serviceName ← ReadString;
      parameters ← ReadString;
      obj ← ReadRemoteObject;
      mret (macAddress, mkInfo type serviceName parameters, obj)) data).1 in
  ok ← s_RegisterDeviceDeathRecipient (i_serviceName info) obj;
  if negb ok then mret (-1, new_parcel) else
  ret ← s_RegisterDeviceWakeupInfo macAddress info; mret (reply_int ret).

Definition DeregisterDeviceInner (data : P) : M (Z * P) :=
  ret ← s_DeregisterDeviceWakeupInfo (ReadString data).1; mret (reply_int ret).

(** [processServiceFuncMap_], as the constructor fills it. *)
Definition processServiceFuncMap_ (code : Z) : option (P → M (Z * P)) :=
  if code =? HDI_INTELL_VOICE_SERVICE_CREATE_ENGINE then Some CreateEngineInner
  else if code =? HDI_INTELL_VOICE_SERVICE_RELEASE_ENGINE then Some ReleaseEngineInner
  else if code =? HDI_INTELL_VOICE_SERVICE_GET_PARAMETER then Some Service_GetParameterInner
  else if code =? HDI_INTELL_VOICE_SERVICE_GET_REPORTED_FILES then Some GetReportedFilesInner
  else if code =? HDI_INTELL_VOICE_SERVICE_GET_CLONE_FILES_LIST then Some GetCloneFileListInner
  else if code =? HDI_INTELL_VOICE_SERVICE_GET_CLONE_FILE then Some GetCloneFileInner
  else if code =? HDI_INTELL_VOICE_SERVICE_SEND_CLONE_FILE then Some SendCloneFileInner
  else if code =? HDI_INTELL_VOICE_SERVICE_CLONE_FOR_RESULT then Some CloneForResultInner
  else if code =? HDI_INTELL_VOICE_SERVICE_SET_PARAMETER then Some Service_SetParameterInner
  else if code =? HDI_INTELL_VOICE_SERVICE_CLEAR_USER_DATA then Some ClearUserDataInner
  else if code =? HDI_INTELL_VOICE_SERVICE_REGISTER_DEVICE then Some RegisterDeviceInner
  else if code =? HDI_INTELL_VOICE_SERVICE_DEREGISTER_DEVICE then Some DeregisterDeviceInner
  else None.

Definition Service_OnRemoteRequest : Stub P W := stub_request SERVICE_DESCRIPTOR processServiceFuncMap_.
End stub.

(** ** Calls *)

Inductive ServiceCall :=
| SCreate (stub : option nat) (type : Z) (inst : option nat)
| SRelease (type : Z)
| SGetUploadFiles (numMax : Z) (files : list UploadFilesFromHdi)
| SGetParameter (key : str)
| SSetParameter (keyValueList : str)
| SGetFilesList (cloneFiles : list str)
| SGetFile (filePath : str) (buffer : list Z)
| SSendFile (filePath : str) (buffer : list Z)
| SEnroll (wakeupInfo : str) (object : option nat)
| SClearUserData
| SRegisterDevice (stub : option nat) (macAddress : str) (info : WakeupDeviceInfo)
| SDeregisterDevice (macAddress : str).
Inductive SAnswer :=
| SRet (ret : Z)
| SText (value : str)
| SEngine (ret : Z) (inst : option nat)
| SFiles (ret : Z) (files : list UploadFilesFromHdi)
| SNames (ret : Z) (names : list str)
| SBytes (ret : Z) (buffer : list Z).

(** A call through the proxy. *)
Definition s_invoke {P W} `{!ParcelLib P} (remote : Stub P W) (c : ServiceCall) : St W SAnswer :=
  match c with
  | SCreate stub type inst => r ← SProxy_CreateIntellVoiceEngine remote stub type inst; mret (SEngine r.1 r.2)
  | SRelease type => ret ← SProxy_ReleaseIntellVoiceEngine remote type; mret (SRet ret)
  | SGetUploadFiles numMax files => r ← SProxy_GetUploadFiles remote numMax files; mret (SFiles r.1 r.2)
  | SGetParameter key => value ← SProxy_GetParameter remote key; mret (SText value)
  | SSetParameter kv => ret ← SProxy_SetParameter remote kv; mret (SRet ret)
  | SGetFilesList names => r ← SProxy_GetWakeupSourceFilesList remote names; mret (SNames r.1 r.2)
  | SGetFile path buffer => r ← SProxy_GetWakeupSourceFile remote path buffer; mret (SBytes r.1 r.2)
  | SSendFile path buffer => ret ← SProxy_SendWakeupFile remote path buffer; mret (SRet ret)
  | SEnroll info object => ret ← SProxy_EnrollWithWakeupFilesForResult remote info object; mret (SRet ret)
  | SClearUserData => ret ← SProxy_ClearUserData remote; mret (SRet ret)
  | SRegisterDevice stub mac info => ret ← SProxy_RegisterDeviceWakeupInfo remote stub mac info; mret (SRet ret)
  | SDeregisterDevice mac => ret ← SProxy_DeregisterDeviceWakeupInfo remote mac; mret (SRet ret)
  end.

(** What the service does for a call that reaches it, and its answer before it is
    sent. *)
Definition s_plan {W} `{!ServiceObject W} (c : ServiceCall) : option (St W SAnswer) :=
  match c with
  | SCreate stub type _ => Some
      (r ← (_ ← s_RegisterDeathRecipient type stub; s_CreateIntellVoiceEngine (engine_of_request type) None);
       mret (SEngine r.1 r.2))
  | SRelease type => Some
      (ret ← (ret ← s_ReleaseIntellVoiceEngine type; _ ← s_DeregisterDeathRecipient type; mret ret); mret (SRet ret))
  | SGetUploadFiles numMax _ => Some (r ← s_GetUploadFiles numMax []; mret (SFiles r.1 r.2))
  | SGetParameter key => Some (value ← s_GetParameter key; mret (SText value))
  | SSetParameter kv => Some (ret ← s_SetParameter kv; mret (SRet ret))
  | SGetFilesList _ => Some (r ← s_GetWakeupSourceFilesList []; mret (SNames r.1 r.2))
  | SGetFile path _ => Some (r ← s_GetWakeupSourceFile path []; mret (SBytes r.1 r.2))
  | SSendFile path buffer =>
    if (Z.of_nat (length buffer) =? 0) || (CROSS_PROCESS_BUF_SIZE_LIMIT <? Z.of_nat (length buffer)) then None
    else Some (ret ← s_SendWakeupFile path buffer; mret (SRet ret))
  | SEnroll info object => Some (ret ← s_EnrollWithWakeupFilesForResult info object; mret (SRet ret))
  | SClearUserData => Some (ret ← s_ClearUserData; mret (SRet ret))
  | SRegisterDevice None _ _ => None
  | SRegisterDevice stub mac info => Some
      (ret ← (ok ← s_RegisterDeviceDeathRecipient (i_serviceName info) stub;
              if (ok : bool) then s_RegisterDeviceWakeupInfo mac info else mret (-1)); mret (SRet ret))
  | SDeregisterDevice mac => Some (ret ← s_DeregisterDeviceWakeupInfo mac; mret (SRet ret))
  end.
(** What the client has when the call fails. *)
Definition s_refused (c : ServiceCall) : SAnswer :=
  match c with
  | SCreate _ _ inst => SEngine (-1) inst
  | SGetUploadFiles _ files => SFiles (-1) files
  | SGetParameter _ => SText []
  | SGetFilesList names => SNames (-1) names
  | SGetFile _ buffer => SBytes (-1) buffer
  | _ => SRet (-1)
  end.
(** What the client has of the answer; files and names are added to those it had. *)
Definition s_seen (c : ServiceCall) (a : SAnswer) : SAnswer :=
  match a with
  | SRet ret => if ret =? 0 then a else s_refused c
  | SText _ => a
  | SEngine ret inst => if ret =? 0 then match inst with Some _ => a | None => s_refused c end else s_refused c
  | SFiles ret files =>
    match c with
    | SGetUploadFiles _ had => if (ret =? 0) && (0 <? Z.of_nat (length files)) then SFiles 0 (had ++ files) else s_refused c
    | _ => a
    end
  | SNames ret names =>
    match c with
    | SGetFilesList had => if (ret =? 0) && (Z.of_nat (length names) <=? CLONE_FILES_NUM_MAX) then SNames 0 (had ++ names) else s_refused c
    | _ => a
    end
  | SBytes ret buffer =>
    if (ret =? 0) && (0 <? Z.of_nat (length buffer)) && (Z.of_nat (length buffer) <=? CROSS_PROCESS_BUF_SIZE_LIMIT) then a else s_refused c
  end.
Definition s_serve {W} `{!ServiceObject W} (c : ServiceCall) : St W SAnswer :=
  match s_plan c with None => mret (s_refused c) | Some m => a ← m; mret (s_seen c a) end.

(** The types of arguments and answers, and what the parcels hold. *)
Definition s_typed_call (c : ServiceCall) : Prop :=
  match c with
  | SCreate _ type _ | SRelease type | SGetUploadFiles type _ => is_i32 type
  | SRegisterDevice _ _ info => 0 ≤ i_type info < 2 ^ 32
  | _ => True
  end.
Definition object_items (o : option nat) : list Item := match o with Some o => [IObject o] | None => [] end.
Definition s_call_items (c : ServiceCall) : list Item :=
  IToken SERVICE_DESCRIPTOR :: match c with
  | SCreate stub type _ => IWord (u32 type) :: object_items stub
  | SRelease type | SGetUploadFiles type _ => [IWord (u32 type)]
  | SGetParameter s | SSetParameter s | SGetFile s _ | SDeregisterDevice s => [IString s]
  | SGetFilesList _ | SClearUserData => []
  | SSendFile path buffer => [IString path; IWord (u32 (Z.of_nat (length buffer))); IBuffer buffer]
  | SEnroll info object => IString info :: object_items object
  | SRegisterDevice stub mac info =>
    [IString mac; IWord (u32 (i_type info)); IString (i_serviceName info); IString (i_parameters info)] ++ object_items stub
  end.
Definition file_typed (f : UploadFilesFromHdi) : Prop :=
  is_i32 (uf_type f) ∧ Z.of_nat (length (uf_filesContent f)) < 2 ^ 31.
Definition file_items (f : UploadFilesFromHdi) : list Item :=
  [IWord (u32 (uf_type f)); IString (uf_filesDescription f); IWord (u32 (Z.of_nat (length (uf_filesContent f))))]
  ++ (IAshmem <$> uf_filesContent f).
Definition s_typed_answer (a : SAnswer) : Prop :=
  match a with
  | SFiles _ files => Z.of_nat (length files) < 2 ^ 31 ∧ Forall file_typed files
  | SNames _ names => Z.of_nat (length names) < 2 ^ 32
  | SBytes _ buffer => Z.of_nat (length buffer) < 2 ^ 32
  | _ => True
  end.
Definition s_answer_items (a : SAnswer) : list Item :=
  match a with
  | SRet ret => [IWord (u32 ret)]
  | SText s => [IString s]
  | SEngine ret inst => IWord (u32 ret) :: object_items inst
  | SFiles ret files => [IWord (u32 ret); IWord (u32 (Z.of_nat (length files)))] ++ concat (file_items <$> files)
  | SNames ret names => [IWord (u32 ret); IWord (u32 (Z.of_nat (length names)))] ++ (IString <$> names)
  | SBytes ret buffer => [IWord (u32 ret); IWord (u32 (Z.of_nat (length buffer))); IBuffer buffer]
  end.

(** * Lemmas *)

Section loop_lemmas.
Context {P : Type} `{!ParcelLib P} `{!ParcelLaws P}.

Lemma writes_all {A} (f : A → St P unit) (items : A → list Item) l :
  (∀ x, writes (f x) (items x)) → writes (put_all f l) (concat (items <$> l)).
Proof.
  intros Hf. induction l as [|x l IH]; [apply writes_ret|]. cbn [put_all fmap list_fmap concat].
  by apply writes_bind.
Qed.
Lemma writes_each {A} (f : A → St P bool) (item : A → Item) l :
  (∀ x, writes (put (f x)) [item x]) → writes (put_all (λ x, put (f x)) l) (item <$> l).
Proof.
  intros Hf. induction l as [|x l IH]; [apply writes_ret|]. cbn [put_all fmap list_fmap]. by apply writes_seq.
Qed.
Lemma reads_seq {A B} (m : St P A) (n : A → St P B) k k' x y :
  reads m k x → reads (n x) k' y → reads (x ← m; n x) (k ++ k') y.
Proof.
  intros Hm Hn p l Hp. rewrite bind_run. rewrite <-(assoc (++)) in Hp. destruct (Hm p (k' ++ l) Hp) as [-> Hp']. by apply Hn.
Qed.
Lemma reads_all {A} (f : St P A) (items : A → list Item) l :
  Forall (λ x, reads f (items x) x) l → reads (get_all f (length l)) (concat (items <$> l)) l.
Proof.
  intros Hf. induction Hf as [|x l Hx _ IH]; [apply reads_ret|]. cbn [get_all length fmap list_fmap concat].
  eapply reads_seq; [done|]. rewrite <-(app_nil_r (concat _)). eapply reads_seq; [done|]. apply reads_ret.
Qed.
Lemma reads_each {A} (f : St P A) (item : A → Item) l :
  (∀ x, reads f [item x] x) → reads (get_all f (length l)) (item <$> l) l.
Proof.
  intros Hf. induction l as [|x l IH]; [apply reads_ret|]. cbn [get_all length fmap list_fmap].
  eapply reads_bind; [done|]. rewrite <-(app_nil_r (_ <$> l)). eapply reads_seq; [done|]. apply reads_ret.
Qed.
Lemma writes_file f : writes (write_file f) (file_items f).
Proof.
  unfold write_file, file_items. do 3 (apply writes_seq; [auto 1 with ivoice nocore|]).
  apply writes_each. intros a. apply put_ashmem.
Qed.
Lemma reads_file f : file_typed f → reads read_file (file_items f) f.
Proof.
  intros [H1 H2]. unfold read_file, file_items. cbn [app]. eapply reads_bind; [apply get_int32|].
  eapply reads_bind; [apply get_string|]. eapply reads_bind; [apply get_int32|].
  rewrite !i32_word by (unfold is_i32 in *; lia). rewrite Nat2Z.id, <-(app_nil_r (_ <$> _)).
  eapply reads_seq; [apply reads_each, get_ashmem|]. destruct f. apply reads_ret.
Qed.
(** An object that may be missing at the end of a parcel. *)
Lemma writes_object o : writes (_ ← put (WriteRemoteObject o); mret ()) (object_items o).
Proof. destruct o as [o|]; [writing|apply writes_null, writes_ret]. Qed.
Lemma read_last_object o p : holds p (object_items o) → (ReadRemoteObject p).1 = o.
Proof. destruct o as [o|]; [by intros H; apply (read_object o p [])|apply read_no_object]. Qed.
End loop_lemmas.

Section service_calls.
Context {P W : Type} `{!ParcelLib P} `{!ParcelLaws P} `{!ServiceObject W}.
Variable remote : Stub P W.
Hypothesis (Hc : carries remote Service_OnRemoteRequest).
Implicit Types w : W.
Abbreviation token := (IToken SERVICE_DESCRIPTOR).

(** The shape of the calls that give a result. *)
Lemma s_int_step c code h m k (o : St W Z) w :
  s_plan c = Some (ret ← o; mret (SRet ret)) → s_refused c = SRet (-1) →
  processServiceFuncMap_ (P := P) code = Some h → writes m k → fits (token :: k) →
  (∀ args, holds args k → (h args w).1.1 = (o w).1 ∧ (h args w).2 = (o w).2 ∧
     ((o w).1 = 0 → (h args w).1.2 = written (put (WriteInt32 0)))) →
  fits [IWord (u32 (o w).1)] →
  (ret ← (r ← remote code (request SERVICE_DESCRIPTOR m); mret (int_result r)); mret (SRet ret)) w = s_serve c w.
Proof.
  intros Hp Hrf Hh Hm Hf Ho Hr. unfold s_serve. rewrite Hp, bind_run.
  rewrite (called remote _ _ code h m k (λ r, mret (int_result r)) w (if (o w).1 =? 0 then 0 else -1, (o w).2) Hc Hh Hm Hf).
  - cbn [fst snd]. rewrite !bind_run. cbn. rewrite Hrf. by destruct (Z.eqb_spec (o w).1 0) as [->|].
  - intros args reply Ha Hl. destruct (Ho args Ha) as (E1 & E2 & E3). rewrite E1, E2 in *. unfold mret, st_ret. f_equal.
    destruct (Z.eqb_spec (o w).1 0) as [E0|Hne]; [|by apply int_failed].
    rewrite E0 in *. apply int_result_zero, Hl; [done|]. rewrite E3 by done. by apply (written_int 0).
Qed.
(** Handlers that reply with the result. *)
Lemma plain_handler (o : St W Z) (h : P → St W (Z * P)) args w :
  h args w = (ret ← o; mret (reply_int ret)) w →
  (h args w).1.1 = (o w).1 ∧ (h args w).2 = (o w).2 ∧ ((o w).1 = 0 → (h args w).1.2 = written (put (WriteInt32 0))).
Proof. intros ->. rewrite bind_run. cbn. by split_and!; [..|intros ->]. Qed.

(** The shape of the calls that fill an argument: [f] is what the proxy makes of the
    reply, [rep] what the stub writes. *)
Lemma s_data_step {R} c code h m k (o : St W R) (wrap : R → SAnswer) (rep : R → Z * P) (f : Z * P → R) w :
  s_plan c = Some (r ← o; mret (wrap r)) → processServiceFuncMap_ (P := P) code = Some h →
  writes m k → fits (token :: k) →
  (∀ args, holds args k → h args w = (r ← o; mret (rep r)) w) →
  (∀ reply, ((rep (o w).1).1 = 0 → ∀ l, holds (rep (o w).1).2 l → holds reply l) →
     wrap (f ((rep (o w).1).1, reply)) = s_seen c (wrap (o w).1)) →
  (x ← (r ← remote code (request SERVICE_DESCRIPTOR m); mret (f r)); mret (wrap x)) w = s_serve c w.
Proof.
  intros Hp Hh Hm Hf Ho HK. rewrite bind_run.
  transitivity (s_seen c (wrap (o w).1), (o w).2); [|unfold s_serve; by rewrite Hp, !bind_run].
  destruct (transact remote _ _ code h m k w Hc Hh Hm Hf) as (args & reply & Ha & E & Hr).
  rewrite (Ho args Ha), bind_run in E, Hr. unfold mret, st_ret in E, Hr. cbn [fst snd] in E, Hr.
  rewrite !bind_run, E. unfold mret, st_ret. cbn [fst snd]. f_equal. by apply HK.
Qed.

Definition s_answered c w : Prop :=
  ∀ m, s_plan c = Some m → s_typed_answer (m w).1 ∧ fits (s_answer_items (m w).1).

Lemma zero_first reply k : holds reply (IWord (u32 0) :: k) → (ReadInt32 reply).1 = 0 ∧ holds (ReadInt32 reply).2 k.
Proof. apply read_int32. Qed.

Lemma engine_received r e inst reply stub type :
  fits (s_answer_items (SEngine r e)) →
  ((reply_engine (P := P) (r, e)).1 = 0 → ∀ l, holds (reply_engine (r, e)).2 l → holds reply l) →
  let x := engine_result inst ((reply_engine (P := P) (r, e)).1, reply) in
  SEngine x.1 x.2 = s_seen (SCreate stub type inst) (SEngine r e).
Proof.
  intros Hf Hr. cbn [s_seen s_refused]. unfold reply_engine, engine_result in *. cbn [fst snd] in *.
  destruct (Z.eqb_spec r 0) as [->|]; cbn [negb fst snd reply_int] in *; [|by destruct (Z.eqb_spec r 0)].
  assert (holds reply (IWord (u32 0) :: object_items e)) as Hh.
  { apply Hr; [done|]. apply written_holds; [|done]. apply writes_seq; [apply put_int32|].
    destruct e; [apply put_object|apply writes_ret]. }
  destruct (zero_first _ _ Hh) as [E Hg]. rewrite (surjective_pairing (ReadInt32 reply)), E. cbn [negb Z.eqb].
  rewrite (read_last_object e _ Hg). by destruct e.
Qed.

Lemma files_received r files had reply numMax :
  Z.of_nat (length files) < 2 ^ 31 → Forall file_typed files → fits (s_answer_items (SFiles r files)) →
  ((reply_files (P := P) (r, files)).1 = 0 → ∀ l, holds (reply_files (r, files)).2 l → holds reply l) →
  let x := files_result had ((reply_files (P := P) (r, files)).1, reply) in
  SFiles x.1 x.2 = s_seen (SGetUploadFiles numMax had) (SFiles r files).
Proof.
  intros Hlen Hty Hf Hr. cbn [s_seen s_refused]. unfold reply_files, files_result in *. cbn [fst snd] in *.
  destruct (Z.eqb_spec r 0) as [->|]; cbn [negb andb fst snd reply_int] in *; [|by destruct (Z.eqb_spec r 0)].
  rewrite i32_small in * by lia.
  destruct (Z.leb_spec (Z.of_nat (length files)) 0), (Z.ltb_spec 0 (Z.of_nat (length files))); try lia; [done|].
  cbn [fst snd] in *. assert (holds reply (IWord (u32 0) :: IWord (u32 (Z.of_nat (length files))) :: concat (file_items <$> files))) as Hh.
  { apply Hr; [done|]. apply written_holds; [|done]. do 2 (apply writes_seq; [apply put_int32|]). apply writes_all, writes_file. }
  destruct (zero_first _ _ Hh) as [E Hg]. rewrite (surjective_pairing (ReadInt32 reply)), E. cbn [negb Z.eqb].
  destruct (read_int32 _ _ _ Hg) as [E2 Hg2]. rewrite (surjective_pairing (ReadInt32 (ReadInt32 reply).2)), E2.
  rewrite i32_word by (unfold is_i32; lia). destruct (Z.leb_spec (Z.of_nat (length files)) 0); [lia|]. rewrite Nat2Z.id.
  rewrite (reads_run (get_all read_file (length files)) _ files _ (reads_all read_file file_items files
    (Forall_impl _ _ _ Hty reads_file)) Hg2). done.
Qed.

Lemma names_received r names had reply :
  Z.of_nat (length names) < 2 ^ 32 → fits (s_answer_items (SNames r names)) →
  ((reply_names (P := P) (r, names)).1 = 0 → ∀ l, holds (reply_names (r, names)).2 l → holds reply l) →
  let x := names_result had ((reply_names (P := P) (r, names)).1, reply) in
  SNames x.1 x.2 = s_seen (SGetFilesList had) (SNames r names).
Proof.
  intros Hlen Hf Hr. cbn [s_seen s_refused]. unfold reply_names, names_result in *. cbn [fst snd] in *.
  destruct (Z.eqb_spec r 0) as [->|]; cbn [negb andb fst snd reply_int] in *; [|by destruct (Z.eqb_spec r 0)].
  assert (holds reply (IWord (u32 0) :: IWord (u32 (Z.of_nat (length names))) :: (IString <$> names))) as Hh.
  { apply Hr; [done|]. apply written_holds; [|done]. apply writes_seq; [apply put_int32|].
    apply writes_seq; [apply put_uint32|]. apply writes_each. apply put_string. }
  destruct (zero_first _ _ Hh) as [E Hg]. rewrite (surjective_pairing (ReadInt32 reply)), E. cbn [negb Z.eqb].
  destruct (read_uint32 _ _ _ Hg) as [E2 Hg2]. rewrite (surjective_pairing (ReadUint32 _)), E2, u32_small by lia.
  destruct (Z.ltb_spec CLONE_FILES_NUM_MAX (Z.of_nat (length names))), (Z.leb_spec (Z.of_nat (length names)) CLONE_FILES_NUM_MAX);
    try lia; [done|].
  rewrite Nat2Z.id, (reads_run _ _ names _ (reads_each ReadString IString names get_string) Hg2). done.
Qed.

Lemma bytes_received r b had path reply :
  Z.of_nat (length b) < 2 ^ 32 → fits (s_answer_items (SBytes r b)) →
  ((reply_bytes (P := P) (r, b)).1 = 0 → ∀ l, holds (reply_bytes (r, b)).2 l → holds reply l) →
  let x := bytes_result had ((reply_bytes (P := P) (r, b)).1, reply) in
  SBytes x.1 x.2 = s_seen (SGetFile path had) (SBytes r b).
Proof.
  intros Hlen Hf Hr. cbn [s_seen s_refused]. unfold reply_bytes, bytes_result in *. cbn [fst snd] in *.
  destruct (Z.eqb_spec r 0) as [->|]; cbn [negb andb fst snd reply_int] in *; [|by destruct (Z.eqb_spec r 0)].
  assert (holds reply [IWord (u32 0); IWord (u32 (Z.of_nat (length b))); IBuffer b]) as Hh.
  { apply Hr; [done|]. apply written_holds; [writing|done]. }
  destruct (zero_first _ _ Hh) as [E Hg]. rewrite (surjective_pairing (ReadInt32 reply)), E. cbn [negb Z.eqb].
  destruct (read_uint32 _ _ _ Hg) as [E2 Hg2]. rewrite (surjective_pairing (ReadUint32 _)), E2, u32_small by lia.
  destruct (Z.eqb_spec (Z.of_nat (length b)) 0), (Z.ltb_spec 0 (Z.of_nat (length b))); try lia; [done|]. cbn [orb andb].
  destruct (Z.ltb_spec CROSS_PROCESS_BUF_SIZE_LIMIT (Z.of_nat (length b))), (Z.leb_spec (Z.of_nat (length b)) CROSS_PROCESS_BUF_SIZE_LIMIT);
    try lia; [done|]. by destruct (read_buffer b (Z.of_nat (length b)) _ [] Hg2 eq_refl) as [-> _].
Qed.

(** The arguments of the handlers that take several. *)
Lemma create_args stub type args :
  is_i32 type → holds args (IWord (u32 type) :: object_items stub) →
  ((type ← ReadInt32; obj ← ReadRemoteObject; mret (type, obj)) args).1 = (type, stub).
Proof.
  intros Ht Hg. rewrite bind_run. destruct (read_int32 _ _ _ Hg) as [-> Hg']. rewrite bind_run. cbn.
  by rewrite (read_last_object _ _ Hg'), i32_word.
Qed.
Lemma enroll_args info object args :
  holds args (IString info :: object_items object) →
  ((wakeupInfo ← ReadString; object ← ReadRemoteObject; mret (wakeupInfo, object)) args).1 = (info, object).
Proof.
  intros Hg. rewrite bind_run. destruct (read_string _ _ _ Hg) as [-> Hg']. rewrite bind_run. cbn.
  by rewrite (read_last_object _ _ Hg').
Qed.
Lemma register_args stub mac info args :
  0 ≤ i_type info < 2 ^ 32 →
  holds args ([IString mac; IWord (u32 (i_type info)); IString (i_serviceName info); IString (i_parameters info)] ++ object_items stub) →
  ((macAddress ← ReadString; type ← ReadUint32; serviceName ← ReadString; parameters ← ReadString;
    obj ← ReadRemoteObject; mret (macAddress, mkInfo type serviceName parameters, obj)) args).1 = (mac, info, stub).
Proof.
  intros Ht Hg. rewrite bind_run. destruct (read_string _ _ _ Hg) as [-> Hg1]. rewrite bind_run.
  destruct (read_uint32 _ _ _ Hg1) as [-> Hg2]. rewrite bind_run. destruct (read_string _ _ _ Hg2) as [-> Hg3].
  rewrite bind_run. destruct (read_string _ _ _ Hg3) as [-> Hg4]. rewrite bind_run. cbn.
  rewrite (read_last_object _ _ Hg4), u32_small by done. by destruct info.
Qed.
Lemma send_args path buffer args w :
  (Z.of_nat (length buffer) =? 0) || (CROSS_PROCESS_BUF_SIZE_LIMIT <? Z.of_nat (length buffer)) = false →
  holds args [IString path; IWord (u32 (Z.of_nat (length buffer))); IBuffer buffer] →
  SendCloneFileInner args w = (ret ← s_SendWakeupFile path buffer; mret (reply_int ret)) w.
Proof.
  intros [H1%Z.eqb_neq H2%Z.ltb_ge]%orb_false_iff Hg. unfold CROSS_PROCESS_BUF_SIZE_LIMIT in H2. unfold SendCloneFileInner.
  destruct (read_string _ _ _ Hg) as [E1 Hg1]. rewrite (surjective_pairing (ReadString args)), E1.
  destruct (read_uint32 _ _ _ Hg1) as [E2 Hg2]. rewrite (surjective_pairing (ReadUint32 _)), E2, u32_small by lia.
  destruct (Z.eqb_spec (Z.of_nat (length buffer)) 0), (Z.leb_spec FILE_SIZE_MAX (Z.of_nat (length buffer)));
    unfold FILE_SIZE_MAX in *; try lia. cbn [orb]. by destruct (read_buffer buffer _ _ [] Hg2 eq_refl) as [-> _].
Qed.

(** The calls that fill an argument, and the others. *)
Definition fills (c : ServiceCall) : bool :=
  match c with SCreate _ _ _ | SGetUploadFiles _ _ | SGetParameter _ | SGetFilesList _ | SGetFile _ _ => true | _ => false end.
Lemma service_data_calls c w : fills c = true →
  s_typed_call c → fits (s_call_items c) → s_answered c w → s_invoke remote c w = s_serve c w.
Proof.
  intros Hd Ht Hf Ha. destruct c as [stub type inst| |numMax files|key| |names|path buffer| | | | |]; try discriminate Hd;
    unfold s_invoke, SProxy_CreateIntellVoiceEngine, SProxy_GetUploadFiles, SProxy_GetParameter,
      SProxy_GetWakeupSourceFilesList, SProxy_GetWakeupSourceFile.
  - destruct (Ha _ eq_refl) as [_ Ha2]. rewrite bind_run in Ha2.
    refine (s_data_step (SCreate stub type inst) HDI_INTELL_VOICE_SERVICE_CREATE_ENGINE CreateEngineInner _ _ _
      (λ r, SEngine r.1 r.2) reply_engine (engine_result inst) w eq_refl eq_refl _ Hf _ _).
    + apply writes_seq; [apply put_int32|apply writes_object].
    + intros args Hg. unfold CreateEngineInner. rewrite (create_args stub type args Ht Hg), !bind_run. done.
    + intros reply Hr. rewrite (surjective_pairing (_ w).1) in Hr |- *. by apply engine_received.
  - destruct (Ha _ eq_refl) as [Ha1 Ha2]. rewrite bind_run in Ha1, Ha2. destruct Ha1 as [Ha1 Ha1'].
    refine (s_data_step (SGetUploadFiles numMax files) HDI_INTELL_VOICE_SERVICE_GET_REPORTED_FILES GetReportedFilesInner
      _ _ _ (λ r, SFiles r.1 r.2) reply_files (files_result files) w eq_refl eq_refl _ Hf _ _); [writing| |].
    + intros args Hg. unfold GetReportedFilesInner. by rewrite (reads_run _ _ _ _ (get_int32 _) Hg), i32_word.
    + intros reply Hr. rewrite (surjective_pairing (_ w).1) in Hr |- *. by apply files_received.
  - destruct (Ha _ eq_refl) as [_ Ha2]. rewrite bind_run in Ha2.
    refine (s_data_step (SGetParameter key) HDI_INTELL_VOICE_SERVICE_GET_PARAMETER Service_GetParameterInner
      _ _ _ SText (λ v, (0, written (put (WriteString v)))) _ w eq_refl eq_refl _ Hf _ _); [writing| |].
    + intros args Hg. unfold Service_GetParameterInner. by rewrite (reads_run _ _ _ _ (get_string _) Hg).
    + intros reply Hr. cbn [fst snd Z.eqb negb s_seen] in *. f_equal. apply (read_string _ reply []), Hr; [done|].
      by apply written_holds; [apply put_string|].
  - destruct (Ha _ eq_refl) as [Ha1 Ha2]. rewrite bind_run in Ha1, Ha2.
    refine (s_data_step (SGetFilesList names) HDI_INTELL_VOICE_SERVICE_GET_CLONE_FILES_LIST GetCloneFileListInner
      _ _ _ (λ r, SNames r.1 r.2) reply_names (names_result names) w eq_refl eq_refl writes_ret Hf _ _); [done|].
    intros reply Hr. rewrite (surjective_pairing (_ w).1) in Hr |- *. by apply names_received.
  - destruct (Ha _ eq_refl) as [Ha1 Ha2]. rewrite bind_run in Ha1, Ha2.
    refine (s_data_step (SGetFile path buffer) HDI_INTELL_VOICE_SERVICE_GET_CLONE_FILE GetCloneFileInner
      _ _ _ (λ r, SBytes r.1 r.2) reply_bytes (bytes_result buffer) w eq_refl eq_refl _ Hf _ _); [writing| |].
    + intros args Hg. unfold GetCloneFileInner. by rewrite (reads_run _ _ _ _ (get_string _) Hg).
    + intros reply Hr. rewrite (surjective_pairing (_ w).1) in Hr |- *. by apply bytes_received.
Qed.
Lemma service_int_calls c w : fills c = false →
  s_typed_call c → fits (s_call_items c) → s_answered c w → s_invoke remote c w = s_serve c w.
Proof.
  intros Hd Ht Hf Ha. destruct c as [|type| | |kv| | |path buffer|info object| |stub mac info|mac]; try discriminate Hd;
    unfold s_invoke, SProxy_ReleaseIntellVoiceEngine, SProxy_SetParameter, SProxy_EnrollWithWakeupFilesForResult,
      SProxy_ClearUserData, SProxy_DeregisterDeviceWakeupInfo.
  - destruct (Ha _ eq_refl) as [_ Ha2]. rewrite bind_run in Ha2.
    refine (s_int_step (SRelease type) HDI_INTELL_VOICE_SERVICE_RELEASE_ENGINE ReleaseEngineInner _ _ _ w
      eq_refl eq_refl eq_refl _ Hf _ Ha2); [writing|].
    intros args Hg. apply plain_handler. unfold ReleaseEngineInner.
    rewrite (reads_run _ _ _ _ (get_int32 _) Hg), i32_word, !bind_run by done. done.
  - destruct (Ha _ eq_refl) as [_ Ha2]. rewrite bind_run in Ha2.
    refine (s_int_step (SSetParameter kv) HDI_INTELL_VOICE_SERVICE_SET_PARAMETER Service_SetParameterInner _ _ _ w
      eq_refl eq_refl eq_refl _ Hf _ Ha2); [writing|].
    intros args Hg. apply plain_handler. unfold Service_SetParameterInner. by rewrite (reads_run _ _ _ _ (get_string _) Hg).
  - unfold SProxy_SendWakeupFile, s_answered, s_serve in *. cbn [s_plan] in *. destruct (_ || _) eqn:Hb; [done|].
    destruct (Ha _ eq_refl) as [_ Ha2]. rewrite bind_run in Ha2.
    assert (s_plan (SSendFile path buffer) = Some (ret ← s_SendWakeupFile path buffer; mret (SRet ret))) as Hp
      by (cbn [s_plan]; by rewrite Hb).
    pose proof (λ m Hm, s_int_step (SSendFile path buffer) HDI_INTELL_VOICE_SERVICE_SEND_CLONE_FILE SendCloneFileInner
      m _ _ w Hp eq_refl eq_refl Hm Hf) as Hs. unfold s_serve in Hs. rewrite Hp in Hs. apply Hs; [writing| |done].
    intros args Hg. apply plain_handler. by apply send_args.
  - destruct (Ha _ eq_refl) as [_ Ha2]. rewrite bind_run in Ha2.
    refine (s_int_step (SEnroll info object) HDI_INTELL_VOICE_SERVICE_CLONE_FOR_RESULT CloneForResultInner _ _ _ w
      eq_refl eq_refl eq_refl _ Hf _ Ha2); [apply writes_seq; [apply put_string|apply writes_object]|].
    intros args Hg. apply plain_handler. unfold CloneForResultInner. by rewrite (enroll_args info object args Hg).
  - destruct (Ha _ eq_refl) as [_ Ha2]. rewrite bind_run in Ha2.
    refine (s_int_step SClearUserData HDI_INTELL_VOICE_SERVICE_CLEAR_USER_DATA ClearUserDataInner _ _ _ w
      eq_refl eq_refl eq_refl writes_ret Hf _ Ha2). intros args Hg. by apply plain_handler.
  - destruct stub as [stub|]; [|done]. destruct (Ha _ eq_refl) as [_ Ha2]. rewrite bind_run in Ha2.
    unfold SProxy_RegisterDeviceWakeupInfo.
    refine (s_int_step (SRegisterDevice (Some stub) mac info) HDI_INTELL_VOICE_SERVICE_REGISTER_DEVICE RegisterDeviceInner
      _ _ _ w eq_refl eq_refl eq_refl _ Hf _ Ha2); [writing|].
    intros args Hg. unfold RegisterDeviceInner. rewrite (register_args (Some stub) mac info args Ht Hg), !bind_run.
    destruct (s_RegisterDeviceDeathRecipient _ _ w) as [[] w']; cbn [fst snd negb]; [by apply (plain_handler _ (λ _ w, _) args)|].
    by split_and!.
  - destruct (Ha _ eq_refl) as [_ Ha2]. rewrite bind_run in Ha2.
    refine (s_int_step (SDeregisterDevice mac) HDI_INTELL_VOICE_SERVICE_DEREGISTER_DEVICE DeregisterDeviceInner _ _ _ w
      eq_refl eq_refl eq_refl _ Hf _ Ha2); [writing|].
    intros args Hg. apply plain_handler. unfold DeregisterDeviceInner. by rewrite (reads_run _ _ _ _ (get_string _) Hg).
Qed.
Lemma service_calls c w : s_typed_call c → fits (s_call_items c) → s_answered c w → s_invoke remote c w = s_serve c w.
Proof. destruct (fills c) eqn:Hc'; [by apply service_data_calls|by apply service_int_calls]. Qed.
End service_calls.

(** ** Runs of calls *)

Fixpoint s_calls {W} (call : ServiceCall → St W SAnswer) (cs : list ServiceCall) : St W (list SAnswer) :=
  match cs with
  | [] => mret []
  | c :: cs => a ← call c; l ← s_calls call cs; mret (a :: l)
  end.

Section remote_service.
Context {P W : Type} `{!ParcelLib P} `{!ParcelLaws P} `{!ServiceObject W}.

(** The answers of the service have their types and fit a parcel. *)
Definition s_sound_answers : Prop := ∀ c w m, s_plan c = Some m →
  s_typed_answer (m w).1 ∧ fits (P := P) (s_answer_items (m w).1).
Definition s_sound_call (c : ServiceCall) : Prop := s_typed_call c ∧ fits (P := P) (s_call_items c).

(** C14: a client of the service in another process.  When requests reach the service's
    stub, any sequence of calls through the proxy, with arguments of the declared
    types and parcels that have room, does to the service what the calls do there: a
    creation first registers the client's death recipient, for a headset or another
    device too, and then asks for the wakeup engine; a release ends with the removal
    of the recipient, whatever it returned; a device is registered only if its death
    recipient was.  Files of more than 256 kilobytes are not sent.  Every error is -1
    for the client, and an engine, a file or a list comes only with a success and
    within its bound. *)
Theorem remote_service (remote : Stub P W) cs w
    (Hc : carries remote Service_OnRemoteRequest) (Ho : s_sound_answers) (Hs : Forall s_sound_call cs) :
  s_calls (s_invoke remote) cs w = s_calls s_serve cs w.
Proof.
  revert w. induction Hs as [|c cs [Ht Hf] _ IH]; intros w; [done|]. cbn [s_calls].
  rewrite !bind_run, (service_calls remote Hc c w Ht Hf) by (intros m; apply Ho). by rewrite IH.
Qed.
End remote_service.

(** ** A concrete service *)

(** It has the engine 8, one file, and remembers whom it watches. *)
#[local] Instance log_service : ServiceObject (list (Z * option nat)) := {|
  s_CreateIntellVoiceEngine type inst := mret (if type =? INTELL_VOICE_WAKEUP then (0, Some 8%nat) else (-5, inst));
  s_ReleaseIntellVoiceEngine type := mret 0;
  s_RegisterDeathRecipient type o := λ w, (true, w ++ [(type, o)]);
  s_DeregisterDeathRecipient type := λ w, (true, filter (λ x, x.1 ≠ type) w);
  s_RegisterDeviceDeathRecipient _ o := mret (bool_decide (is_Some o));
  s_GetUploadFiles n files := mret (0, files ++ [mkUploadFiles 1 (lit "file") [4%nat; 5%nat]]);
  s_SetParameter _ := mret 0;
  s_GetParameter key := mret key;
  s_GetWakeupSourceFilesList names := mret (0, names ++ [lit "a"; lit "b"]);
  s_GetWakeupSourceFile _ _ := mret (0, [1; 2; 3]);
  s_SendWakeupFile _ _ := mret 0;
  s_EnrollWithWakeupFilesForResult _ _ := mret 0;
  s_ClearUserData := mret 0;
  s_RegisterDeviceWakeupInfo _ _ := mret 0;
  s_DeregisterDeviceWakeupInfo _ := mret 0 |}.
Lemma remote_service_witness :
  s_calls (s_invoke (P := listed) Service_OnRemoteRequest)
    [SCreate (Some 2%nat) INTELL_VOICE_HEADSET_WAKEUP None; SGetUploadFiles 3 []; SGetFilesList [lit "z"];
     SGetFile (lit "a") []; SSendFile (lit "a") []; SCreate (Some 3%nat) INTELL_VOICE_ENROLL None; SRelease INTELL_VOICE_ENROLL] [] =
  ([SEngine 0 (Some 8%nat); SFiles 0 [mkUploadFiles 1 (lit "file") [4%nat; 5%nat]]; SNames 0 [lit "z"; lit "a"; lit "b"];
    SBytes 0 [1; 2; 3]; SRet (-1); SEngine (-1) None; SRet 0], [(INTELL_VOICE_HEADSET_WAKEUP, Some 2%nat)]).
Proof.
  rewrite (remote_service (P := listed) Service_OnRemoteRequest).
  - vm_compute. reflexivity.
  - apply carries_refl.
  - intros c w m Hm. split; [|done]. destruct c; cbn in Hm; repeat case_match; try discriminate Hm; injection Hm as <-;
      rewrite ?bind_run; cbn; try done; unfold is_i32; repeat constructor; cbn; unfold is_i32; lia.
  - repeat constructor; vm_compute; done.
Defined.
