(* ===== verification/VoiceService.v ===== *)
(** * The system ability

    [server/sa/intell_voice_service.cpp] with [server/utils/system_event_observer.cpp]:
    the object clients reach through [ServiceIpc.v].  It checks the caller of every
    request, hands it to the service manager ([ServicePort]: the members of
    [ServiceManagerType::GetInstance()] it uses), and starts, initialises and stops
    the service as the system abilities it depends on come and go. *)

From S2P Require Import Prelude StringUtil Settings EngineTypes EngineAudio EngineUtil DeviceManager Parcel ServiceIpc.

(** ** The service manager *)

(** [sp_change id] is the function that [OnServiceStart] registers for a system
    ability, if it does; [sp_StartAbility] is [IntellVoiceUtil::StartAbility]. *)
Class ServicePort (S : Type) := {
  sp_HandleCreateEngine : Z → St S (option nat);
  sp_HandleReleaseEngine : Z → St S Z;
  sp_RegisterProxyDeathRecipient : Z → nat → St S bool;
  sp_DeregisterProxyDeathRecipient : Z → St S bool;
  sp_RegisterDeviceDeathRecipient : str → nat → St S bool;
  sp_GetUploadFiles : Z → list UploadFilesFromHdi → St S (Z * list UploadFilesFromHdi);
  sp_EngineSetParameter : str → St S Z;
  sp_EngineGetParameter : str → St S str;
  sp_GetWakeupSourceFilesList : list str → St S (Z * list str);
  sp_GetWakeupSourceFile : str → list Z → St S (Z * list Z);
  sp_SendWakeupFile : str → list Z → St S Z;
  sp_HandleCloneUpdate : str → option nat → St S Z;
  sp_ClearUserData : St S Z;
  sp_RegisterWakeupDevice : str → WakeupDeviceInfo → St S Z;
  sp_DeregisterWakeupDevice : str → St S Z;
  sp_OnServiceStart : St S unit;
  sp_change : Z → option (bool → St S unit);
  sp_OnServiceStop : St S unit;
  sp_HandleServiceStop : St S unit;
  sp_ReleaseSwitchProvider : St S unit;
  sp_HandleOnIdle : St S bool;
  sp_OnServiceActive : St S unit;
  sp_HandleUnloadIntellVoiceService : bool → St S unit;
  sp_CreateSwitchProvider : St S unit;
  sp_CheckIfDataShareReady : S → bool;
  sp_ProcBreathModel : St S unit;
  sp_ProcSingleLevelModel : St S unit;
  sp_HandleSilenceUpdate : St S unit;
  sp_HandleSwitchOn : bool → Z → bool → St S unit;
  sp_HandlePowerSaveModeChange : St S unit;
  sp_SetScreenOff : bool → St S unit;
  sp_StartAbility : string → St S unit }.

(** Numbers of system abilities and start reasons, and names of events, which belong
    to other repositories. *)
Class SystemIds := {
  COMMON_EVENT_SERVICE_ID : Z; DISTRIBUTED_KV_DATA_SERVICE_ABILITY_ID : Z;
  REASON_INTERFACE_CALL : Z; REASON_COMMON_EVENT : Z;
  COMMON_EVENT_SCREEN_ON : str; COMMON_EVENT_SCREEN_OFF : str; COMMON_EVENT_DATA_SHARE_READY : str }.

Definition INTELLIGENT_VOICE_NO_MEMORY : Z := 22700101.

(** ** State *)

(** [SystemEventObserver::state_]. *)
Inductive ObserverState := OBS_IDLE | OBS_SUBSCRIBED | OBS_UNSUBSCRIBED.
#[global] Instance ObserverState_eq_dec : EqDecision ObserverState.
Proof. solve_decision. Defined.

(** The members; [changes_] tells whether [OnServiceStart] has filled
    [systemAbilityChangeMap_], and [inits] has the reason of each run of
    [InitIntellVoiceService]. *)
Record VoiceService (S : Type) := mkVoice {
  manager : S; reasonId_ : Z; isServiceInit_ : bool; isDataShareRemoved_ : bool; reasonName_ : str;
  systemEventObserver_ : option ObserverState; changes_ : bool; inits : list Z }.
Arguments mkVoice {S} _ _ _ _ _ _ _ _.
Arguments manager {S} _.
Arguments reasonId_ {S} _.
Arguments isServiceInit_ {S} _.
Arguments isDataShareRemoved_ {S} _.
Arguments reasonName_ {S} _.
Arguments systemEventObserver_ {S} _.
Arguments changes_ {S} _.
Arguments inits {S} _.
#[global] Instance VoiceService_eta S : Eta (VoiceService S) :=
  λ v, mkVoice (manager v) (reasonId_ v) (isServiceInit_ v) (isDataShareRemoved_ v) (reasonName_ v)
         (systemEventObserver_ v) (changes_ v) (inits v).
Definition new_service {S} (m : S) : VoiceService S := mkVoice m (-1) false false [] None false [].

(** [Between]. *)
Definition Between (val min max : Z) : bool := (min <=? val) && (val <=? max).

Section service.
Context {S A : Type} `{!ServicePort S} `{!AudioFw A} {AM : AudioModes} {SI : SystemIds}.
Abbreviation M := (St (VoiceService S)).

Definition on_manager {B} (m : St S B) : M B := λ v, let '(b, x) := m (manager v) in (b, v <| manager := x |>).

(** ** Requests *)

Section requests.
(** The calling process. *)
Variable caller : A.

(** The check at the head of every request; [denied] is what is returned when it fails. *)
Definition checked {B} (denied : Z → B) (m : M B) : M B :=
  let ret := VerifySystemPermission caller in
  if negb (ret =? INTELLIGENT_VOICE_SUCCESS) then mret (denied ret) else m.

Definition CreateIntellVoiceEngine (type : Z) (inst : option nat) : M (Z * option nat) :=
  checked (λ ret, (ret, inst))
    (inst ← on_manager (sp_HandleCreateEngine type);
     match inst with
     | None => mret (INTELLIGENT_VOICE_NO_MEMORY, inst)
     | Some _ => mret (0, inst)
     end).
Definition ReleaseIntellVoiceEngine (type : Z) : M Z :=
  checked id
    (if type =? INTELL_VOICE_DEVICE then mret INTELLIGENT_VOICE_SUCCESS
     else on_manager (sp_HandleReleaseEngine type)).
(** The types whose clients are watched. *)
Definition watched (type : Z) : bool :=
  Between type INTELL_VOICE_ENROLL INTELL_VOICE_WAKEUP
  || Between type INTELL_VOICE_HEADSET_WAKEUP INTELL_VOICE_HEADSET_WAKEUP.
Definition RegisterDeathRecipient (type : Z) (object : option nat) : M bool :=
  checked (λ _, false)
    match object with
    | None => mret false
    | Some o => if negb (watched type) then mret false else on_manager (sp_RegisterProxyDeathRecipient type o)
    end.
Definition DeregisterDeathRecipient (type : Z) : M bool :=
  checked (λ _, false)
    (if negb (watched type) then mret false else on_manager (sp_DeregisterProxyDeathRecipient type)).
Definition RegisterDeviceDeathRecipient (serviceName : str) (object : option nat) : M bool :=
  checked (λ _, false)
    match serviceName, object with
    | [], _ | _, None => mret false
    | _, Some o => on_manager (sp_RegisterDeviceDeathRecipient serviceName o)
    end.
Definition GetUploadFiles (numMax : Z) (files : list UploadFilesFromHdi) : M (Z * list UploadFilesFromHdi) :=
  checked (λ ret, (ret, files)) (on_manager (sp_GetUploadFiles numMax files)).
Definition GetParameter (key : str) : M str := checked (λ _, []) (on_manager (sp_EngineGetParameter key)).
Definition SetParameter (keyValueList : str) : M Z := checked id (on_manager (sp_EngineSetParameter keyValueList)).
Definition GetWakeupSourceFilesList (cloneFiles : list str) : M (Z * list str) :=
  checked (λ ret, (ret, cloneFiles)) (on_manager (sp_GetWakeupSourceFilesList cloneFiles)).
Definition GetWakeupSourceFile (filePath : str) (buffer : list Z) : M (Z * list Z) :=
  checked (λ ret, (ret, buffer)) (on_manager (sp_GetWakeupSourceFile filePath buffer)).
Definition SendWakeupFile (filePath : str) (buffer : list Z) : M Z :=
  checked id (on_manager (sp_SendWakeupFile filePath buffer)).
Definition EnrollWithWakeupFilesForResult (wakeupInfo : str) (object : option nat) : M Z :=
  checked id
    match object with
    | None => mret (-1)
    | Some _ => on_manager (sp_HandleCloneUpdate wakeupInfo object)
    end.
Definition ClearUserData : M Z := checked id (on_manager sp_ClearUserData).
Definition RegisterDeviceWakeupInfo (macAddress : str) (info : WakeupDeviceInfo) : M Z :=
  checked id (on_manager (sp_RegisterWakeupDevice macAddress info)).
Definition DeregisterDeviceWakeupInfo (macAddress : str) : M Z :=
  checked id (on_manager (sp_DeregisterWakeupDevice macAddress)).

(** The service as the stub calls it. *)
Definition voice_object : ServiceObject (VoiceService S) := {|
  s_CreateIntellVoiceEngine := CreateIntellVoiceEngine;
  s_ReleaseIntellVoiceEngine := ReleaseIntellVoiceEngine;
  s_RegisterDeathRecipient := RegisterDeathRecipient;
  s_DeregisterDeathRecipient := DeregisterDeathRecipient;
  s_RegisterDeviceDeathRecipient := RegisterDeviceDeathRecipient;
  s_GetUploadFiles := GetUploadFiles;
  s_SetParameter := SetParameter;
  s_GetParameter := GetParameter;
  s_GetWakeupSourceFilesList := GetWakeupSourceFilesList;
  s_GetWakeupSourceFile := GetWakeupSourceFile;
  s_SendWakeupFile := SendWakeupFile;
  s_EnrollWithWakeupFilesForResult := EnrollWithWakeupFilesForResult;
  s_ClearUserData := ClearUserData;
  s_RegisterDeviceWakeupInfo := RegisterDeviceWakeupInfo;
  s_DeregisterDeviceWakeupInfo := DeregisterDeviceWakeupInfo |}.
End requests.

(** ** Start and stop *)

Definition modv (f : VoiceService S → VoiceService S) : M unit := st_modify f.

(** [CreateSystemEventObserver], [SystemEventObserver::Subscribe] and [Unsubscribe];
    [ok] is what the event manager answers. *)
Definition CreateSystemEventObserver : M unit := modv (λ v, v <| systemEventObserver_ := Some OBS_IDLE |>).
Definition Subscribe (ok : bool) (o : ObserverState) : bool * ObserverState :=
  if negb (bool_decide (o = OBS_IDLE)) then (true, o) else
  if negb ok then (false, o) else (true, OBS_SUBSCRIBED).
Definition Unsubscribe (o : ObserverState) : bool * ObserverState :=
  if negb (bool_decide (o = OBS_SUBSCRIBED)) then (true, o) else (true, OBS_UNSUBSCRIBED).

(** [OnStart]; [published] is what [Publish] returns. *)
Definition OnStart (published : bool) (id : Z) (name : str) : M unit :=
  _ ← modv (λ v, v <| reasonId_ := id |> <| reasonName_ := name |>);
  _ ← on_manager sp_OnServiceStart;
  _ ← modv (λ v, v <| changes_ := true |>);
  if negb published then on_manager sp_OnServiceStop else CreateSystemEventObserver.

Definition OnStop : M unit :=
  _ ← on_manager sp_HandleServiceStop;
  _ ← on_manager sp_ReleaseSwitchProvider;
  _ ← on_manager sp_OnServiceStop;
  modv (λ v, v <| systemEventObserver_ ::= option_map (λ o, (Unsubscribe o).2) |>).

Definition OnIdle : M Z :=
  ok ← on_manager sp_HandleOnIdle;
  mret (if (ok : bool) then 0 else -1).

Definition OnActive (id : Z) (name : str) : M unit :=
  _ ← modv (λ v, v <| reasonId_ := id |> <| reasonName_ := name |>);
  _ ← on_manager sp_OnServiceActive;
  if (id =? REASON_COMMON_EVENT) && (bool_decide (name = lit "usual.event.BOOT_COMPLETED")
                                     || bool_decide (name = lit "usual.event.POWER_SAVE_MODE_CHANGED"))
  then on_manager (sp_HandleUnloadIntellVoiceService true) else mret ().

(** What the start reason asks for. *)
Definition start_by_reason (id : Z) (name : str) : M unit :=
  if id =? REASON_COMMON_EVENT then
    _ ← on_manager (sp_HandleSwitchOn true VOICE_WAKEUP_MODEL_UUID false);
    _ ← on_manager (sp_HandleSwitchOn true PROXIMAL_WAKEUP_MODEL_UUID false);
    if bool_decide (name = lit "usual.event.POWER_SAVE_MODE_CHANGED")
    then on_manager sp_HandlePowerSaveModeChange
    else on_manager (sp_HandleUnloadIntellVoiceService true)
  else if id =? REASON_INTERFACE_CALL then
    _ ← on_manager (sp_HandleSwitchOn true VOICE_WAKEUP_MODEL_UUID false);
    on_manager (sp_HandleSwitchOn true PROXIMAL_WAKEUP_MODEL_UUID false)
  else mret ().
Definition InitIntellVoiceService : M unit :=
  _ ← on_manager sp_CreateSwitchProvider;
  _ ← on_manager sp_ProcBreathModel;
  _ ← on_manager sp_ProcSingleLevelModel;
  _ ← on_manager sp_HandleSilenceUpdate;
  id ← st_gets reasonId_;
  name ← st_gets reasonName_;
  _ ← start_by_reason id name;
  _ ← on_manager (sp_StartAbility "power_on");
  modv (λ v, v <| inits ::= λ l, l ++ [id] |> <| reasonId_ := -1 |>).

(** The initialisation under [initServiceMutex_]. *)
Definition init_again : M unit :=
  _ ← modv (λ v, if isDataShareRemoved_ v then v <| reasonId_ := REASON_INTERFACE_CALL |> else v);
  _ ← InitIntellVoiceService;
  modv (λ v, v <| isServiceInit_ := true |> <| isDataShareRemoved_ := false |>).

Definition OnReceiveCes (action : str) : M unit :=
  if bool_decide (action = COMMON_EVENT_DATA_SHARE_READY) then
    v ← st_get; if isServiceInit_ v then mret () else init_again
  else mret ().

(** [SystemEventObserver::OnReceiveEvent]. *)
Definition OnReceiveEvent (action : str) : M unit :=
  if bool_decide (action = COMMON_EVENT_SCREEN_ON) then on_manager (sp_SetScreenOff false)
  else if bool_decide (action = COMMON_EVENT_SCREEN_OFF) then on_manager (sp_SetScreenOff true)
  else if bool_decide (action = COMMON_EVENT_DATA_SHARE_READY) then OnReceiveCes action
  else mret ().

Definition OnCommonEventServiceChange (ok isAdded : bool) : M unit :=
  st_when isAdded (modv (λ v, v <| systemEventObserver_ ::= option_map (λ o, (Subscribe ok o).2) |>)).

Definition OnDistributedKvDataServiceChange (isAdded : bool) : M unit :=
  if isAdded then
    v ← st_get;
    if isServiceInit_ v then mret () else
    if negb (sp_CheckIfDataShareReady (manager v)) then mret () else init_again
  else modv (λ v, v <| isServiceInit_ := false |> <| isDataShareRemoved_ := true |>).

(** [systemAbilityChangeMap_]: the entries of the constructor, which those of
    [OnServiceStart] overwrite. *)
Definition change_func (ok : bool) (id : Z) (v : VoiceService S) : option (bool → M unit) :=
  match if changes_ v then sp_change id else None with
  | Some f => Some (λ isAdded, on_manager (f isAdded))
  | None =>
    if id =? DISTRIBUTED_KV_DATA_SERVICE_ABILITY_ID then Some OnDistributedKvDataServiceChange
    else if id =? COMMON_EVENT_SERVICE_ID then Some (OnCommonEventServiceChange ok)
    else None
  end.
Definition OnAddSystemAbility (ok : bool) (id : Z) : M unit :=
  v ← st_get;
  match change_func ok id v with None => mret () | Some f => f true end.
Definition NeedProcOnRemoved (id : Z) : bool := id =? DISTRIBUTED_KV_DATA_SERVICE_ABILITY_ID.
Definition OnRemoveSystemAbility (id : Z) : M unit :=
  if negb (NeedProcOnRemoved id) then mret () else
  v ← st_get;
  match change_func false id v with None => mret () | Some f => f false end.
End service.

(** ** What initialises the service, abstractly *)

(** The service waits for the data share ([Waiting]), is initialised ([Ready]), or has
    lost the data service ([Lost]); with the reasons of the initialisations so far and
    the reason of the last start or activation. *)
Inductive Phase := Waiting | Ready | Lost.
Record Init := mkInit { i_phase : Phase; i_inits : list Z; i_cause : Z }.

(** What an event means for it: a start or activation with a reason, the data share being
    there, the data service being lost, or nothing. *)
Inductive InitEvent := Caused (id : Z) | ShareThere | DataLost | Other.
Definition init_event `{!SystemIds} (x : Init) (e : InitEvent) : Init :=
  match e, x with
  | Caused id, mkInit p l _ => mkInit p l id
  | ShareThere, mkInit Waiting l c => mkInit Ready (l ++ [c]) (-1)
  | ShareThere, mkInit Lost l _ => mkInit Ready (l ++ [REASON_INTERFACE_CALL]) (-1)
  | ShareThere, mkInit Ready _ _ => x
  | DataLost, mkInit _ l c => mkInit Lost l c
  | Other, _ => x
  end.

(** * Lemmas *)

(** A request to [voice_object] does what its parts do. *)
Ltac in_request :=
  unfold Service_OnRemoteRequest, stub_request;
  match goal with |- context [ReadInterfaceToken ?d] => destruct (ReadInterfaceToken d) as [? ?] end;
  destruct (negb _); [keeps|];
  match goal with |- context [processServiceFuncMap_ ?c] =>
    let Hh := fresh in
    destruct (processServiceFuncMap_ c) as [?|] eqn:Hh; [|keeps]; unfold processServiceFuncMap_ in Hh;
    repeat match type of Hh with (if ?b then _ else _) = _ => destruct b; [injection Hh as <-|] end; [..|done]
  end;
  unfold CreateEngineInner, ReleaseEngineInner, Service_GetParameterInner, GetReportedFilesInner, GetCloneFileListInner,
    GetCloneFileInner, SendCloneFileInner, CloneForResultInner, Service_SetParameterInner, ClearUserDataInner,
    RegisterDeviceInner, DeregisterDeviceInner;
  cbn [voice_object s_CreateIntellVoiceEngine s_ReleaseIntellVoiceEngine s_RegisterDeathRecipient s_DeregisterDeathRecipient
    s_RegisterDeviceDeathRecipient s_GetUploadFiles s_SetParameter s_GetParameter s_GetWakeupSourceFilesList
    s_GetWakeupSourceFile s_SendWakeupFile s_EnrollWithWakeupFilesForResult s_ClearUserData s_RegisterDeviceWakeupInfo
    s_DeregisterDeviceWakeupInfo];
  unfold CreateIntellVoiceEngine, ReleaseIntellVoiceEngine, RegisterDeathRecipient, DeregisterDeathRecipient,
    RegisterDeviceDeathRecipient, GetUploadFiles, SetParameter, GetParameter, GetWakeupSourceFilesList,
    GetWakeupSourceFile, SendWakeupFile, EnrollWithWakeupFilesForResult, ClearUserData, RegisterDeviceWakeupInfo,
    DeregisterDeviceWakeupInfo, checked; keeps.

Lemma on_manager_run {S B} (m : St S B) (v : VoiceService S) :
  on_manager m v = ((m (manager v)).1, v <| manager := (m (manager v)).2 |>).
Proof. unfold on_manager. by destruct (m (manager v)). Qed.

(** ** What happens to the service *)

(** The events of the system, and requests of any caller. *)
Inductive VoiceEvent (A P : Type) :=
| VStart (published : bool) (id : Z) (name : str)
| VActive (id : Z) (name : str)
| VIdle
| VStop
| VAdded (ok : bool) (id : Z)
| VRemoved (id : Z)
| VReceive (action : str)
| VRequest (caller : A) (code : Z) (data : P).
Arguments VStart {A P} _ _ _.
Arguments VActive {A P} _ _.
Arguments VIdle {A P}.
Arguments VStop {A P}.
Arguments VAdded {A P} _ _.
Arguments VRemoved {A P} _.
Arguments VReceive {A P} _.
Arguments VRequest {A P} _ _ _.

Section events.
Context {S A P : Type} `{!ServicePort S} `{!AudioFw A} {AM : AudioModes} {SI : SystemIds} `{!ParcelLib P}.

Definition do_event (e : VoiceEvent A P) : St (VoiceService S) unit :=
  match e with
  | VStart published id name => OnStart published id name
  | VActive id name => OnActive id name
  | VIdle => st_void OnIdle
  | VStop => OnStop
  | VAdded ok id => OnAddSystemAbility ok id
  | VRemoved id => OnRemoveSystemAbility id
  | VReceive action => OnReceiveEvent action
  | VRequest caller code data => st_void (Service_OnRemoteRequest (ServiceObject0 := voice_object caller) code data)
  end.

(** What every member of the service manager keeps, every event keeps. *)
Class PortKeeps (I : S → Prop) := {
  pk_create t : ⟪ I ⟫ sp_HandleCreateEngine t ⟪ λ _, I ⟫;
  pk_release t : ⟪ I ⟫ sp_HandleReleaseEngine t ⟪ λ _, I ⟫;
  pk_register t o : ⟪ I ⟫ sp_RegisterProxyDeathRecipient t o ⟪ λ _, I ⟫;
  pk_deregister t : ⟪ I ⟫ sp_DeregisterProxyDeathRecipient t ⟪ λ _, I ⟫;
  pk_device n o : ⟪ I ⟫ sp_RegisterDeviceDeathRecipient n o ⟪ λ _, I ⟫;
  pk_upload n l : ⟪ I ⟫ sp_GetUploadFiles n l ⟪ λ _, I ⟫;
  pk_set kv : ⟪ I ⟫ sp_EngineSetParameter kv ⟪ λ _, I ⟫;
  pk_get k : ⟪ I ⟫ sp_EngineGetParameter k ⟪ λ _, I ⟫;
  pk_files l : ⟪ I ⟫ sp_GetWakeupSourceFilesList l ⟪ λ _, I ⟫;
  pk_file f b : ⟪ I ⟫ sp_GetWakeupSourceFile f b ⟪ λ _, I ⟫;
  pk_send f b : ⟪ I ⟫ sp_SendWakeupFile f b ⟪ λ _, I ⟫;
  pk_clone i o : ⟪ I ⟫ sp_HandleCloneUpdate i o ⟪ λ _, I ⟫;
  pk_clear : ⟪ I ⟫ sp_ClearUserData ⟪ λ _, I ⟫;
  pk_add m i : ⟪ I ⟫ sp_RegisterWakeupDevice m i ⟪ λ _, I ⟫;
  pk_remove m : ⟪ I ⟫ sp_DeregisterWakeupDevice m ⟪ λ _, I ⟫;
  pk_start : ⟪ I ⟫ sp_OnServiceStart ⟪ λ _, I ⟫;
  pk_change id f b : sp_change id = Some f → ⟪ I ⟫ f b ⟪ λ _, I ⟫;
  pk_stop : ⟪ I ⟫ sp_OnServiceStop ⟪ λ _, I ⟫;
  pk_stopped : ⟪ I ⟫ sp_HandleServiceStop ⟪ λ _, I ⟫;
  pk_provider : ⟪ I ⟫ sp_ReleaseSwitchProvider ⟪ λ _, I ⟫;
  pk_idle : ⟪ I ⟫ sp_HandleOnIdle ⟪ λ _, I ⟫;
  pk_active : ⟪ I ⟫ sp_OnServiceActive ⟪ λ _, I ⟫;
  pk_unload b : ⟪ I ⟫ sp_HandleUnloadIntellVoiceService b ⟪ λ _, I ⟫;
  pk_switches : ⟪ I ⟫ sp_CreateSwitchProvider ⟪ λ _, I ⟫;
  pk_breath : ⟪ I ⟫ sp_ProcBreathModel ⟪ λ _, I ⟫;
  pk_single : ⟪ I ⟫ sp_ProcSingleLevelModel ⟪ λ _, I ⟫;
  pk_silence : ⟪ I ⟫ sp_HandleSilenceUpdate ⟪ λ _, I ⟫;
  pk_on a u b : ⟪ I ⟫ sp_HandleSwitchOn a u b ⟪ λ _, I ⟫;
  pk_power : ⟪ I ⟫ sp_HandlePowerSaveModeChange ⟪ λ _, I ⟫;
  pk_screen b : ⟪ I ⟫ sp_SetScreenOff b ⟪ λ _, I ⟫;
  pk_ability e : ⟪ I ⟫ sp_StartAbility e ⟪ λ _, I ⟫ }.
#[local] Hint Resolve pk_create pk_release pk_register pk_deregister pk_device pk_upload pk_set pk_get pk_files pk_file
  pk_send pk_clone pk_clear pk_add pk_remove pk_start pk_stop pk_stopped pk_provider pk_idle pk_active
  pk_unload pk_switches pk_breath pk_single pk_silence pk_on pk_power pk_screen pk_ability : ivoice.

Context (I : S → Prop) `{!PortKeeps I}.
Definition behind (v : VoiceService S) : Prop := I (manager v).
Lemma behind_manager {B} (m : St S B) : ⟪ I ⟫ m ⟪ λ _, I ⟫ → ⟪ behind ⟫ on_manager m ⟪ λ _, behind ⟫.
Proof. intros Hm v Hv. rewrite on_manager_run. exact (Hm (manager v) Hv). Qed.
Lemma behind_modv f : (∀ v, manager (f v) = manager v) → ⟪ behind ⟫ modv f ⟪ λ _, behind ⟫.
Proof. intros Hf v Hv. unfold behind. cbn. by rewrite Hf. Qed.
#[local] Hint Extern 1 (hoare _ (on_manager _) _) => (apply behind_manager; solve [auto with ivoice nocore]) : ivoice.
#[local] Hint Extern 1 (hoare _ (modv _) _) => (apply behind_modv; intros; by repeat case_match) : ivoice.

Lemma behind_init : ⟪ behind ⟫ init_again ⟪ λ _, behind ⟫.
Proof. unfold init_again, InitIntellVoiceService, start_by_reason. keeps. Qed.
#[local] Hint Resolve behind_init : ivoice.
Lemma behind_change ok id v f b : change_func ok id v = Some f → ⟪ behind ⟫ f b ⟪ λ _, behind ⟫.
Proof.
  unfold change_func. destruct (changes_ v), (sp_change id) as [g|] eqn:Hg;
    [intros [= <-]; by eapply behind_manager, pk_change|..];
    (destruct (_ =? _); [intros [= <-]|destruct (_ =? _); [intros [= <-]|done]]);
    unfold OnDistributedKvDataServiceChange, OnCommonEventServiceChange; keeps.
Qed.
Lemma behind_event e : ⟪ behind ⟫ do_event e ⟪ λ _, behind ⟫.
Proof.
  destruct e as [published id name|id name| | |ok id|id|action|caller code data]; cbn [do_event];
    unfold OnStart, CreateSystemEventObserver, OnActive, OnIdle, OnStop, OnReceiveEvent, OnReceiveCes; try solve [keeps].
  - unfold OnAddSystemAbility. apply hoare_get_bind. intros v. destruct (change_func ok id v) as [f|] eqn:Hf; [|keeps].
    by eapply behind_change.
  - unfold OnRemoveSystemAbility. destruct (negb _); [keeps|]. apply hoare_get_bind. intros v.
    destruct (change_func false id v) as [f|] eqn:Hf; [|keeps]. by eapply behind_change.
  - apply hoare_void. in_request.
Qed.
End events.

Section lemmas.
Context {S A : Type} `{!ServicePort S} `{!AudioFw A} {AM : AudioModes} {SI : SystemIds}.
Implicit Types v : VoiceService S.

Lemma checked_denied caller {B} (d : Z → B) (m : St (VoiceService S) B) v :
  VerifySystemPermission caller ≠ INTELLIGENT_VOICE_SUCCESS → checked caller d m v = (d (VerifySystemPermission caller), v).
Proof. intros H. unfold checked. by destruct (Z.eqb_spec (VerifySystemPermission caller) INTELLIGENT_VOICE_SUCCESS). Qed.

Context {P : Type} `{!ParcelLib P}.

(** A handler for a caller without the permission. *)
Lemma handler_denied caller code h args v :
  VerifySystemPermission caller ≠ INTELLIGENT_VOICE_SUCCESS →
  processServiceFuncMap_ (P := P) (ServiceObject0 := voice_object caller) code = Some h →
  (h args v).2 = v ∧
  if code =? HDI_INTELL_VOICE_SERVICE_GET_PARAMETER then (h args v).1 = (0, written (put (WriteString [])))
  else (h args v).1.1 ≠ 0.
Proof.
  intros Hp Hh. assert ((VerifySystemPermission caller =? 0) = false) as Hz by by apply Z.eqb_neq.
  unfold processServiceFuncMap_ in Hh.
  repeat match type of Hh with (if ?c =? ?k then _ else _) = _ => destruct (Z.eqb_spec c k) as [->|]; [injection Hh as <-|] end;
    [..|done].
  all: unfold CreateEngineInner, ReleaseEngineInner, Service_GetParameterInner, GetReportedFilesInner, GetCloneFileListInner,
    GetCloneFileInner, SendCloneFileInner, CloneForResultInner, Service_SetParameterInner, ClearUserDataInner,
    RegisterDeviceInner, DeregisterDeviceInner;
    cbn [voice_object s_CreateIntellVoiceEngine s_ReleaseIntellVoiceEngine s_RegisterDeathRecipient s_DeregisterDeathRecipient
      s_RegisterDeviceDeathRecipient s_GetUploadFiles s_SetParameter s_GetParameter s_GetWakeupSourceFilesList
      s_GetWakeupSourceFile s_SendWakeupFile s_EnrollWithWakeupFilesForResult s_ClearUserData s_RegisterDeviceWakeupInfo
      s_DeregisterDeviceWakeupInfo];
    unfold CreateIntellVoiceEngine, ReleaseIntellVoiceEngine, RegisterDeathRecipient, DeregisterDeathRecipient,
      RegisterDeviceDeathRecipient, GetUploadFiles, SetParameter, GetParameter, GetWakeupSourceFilesList,
      GetWakeupSourceFile, SendWakeupFile, EnrollWithWakeupFilesForResult, ClearUserData, RegisterDeviceWakeupInfo,
      DeregisterDeviceWakeupInfo;
    repeat case_match; rewrite ?bind_run, ?checked_denied by done; cbn [fst snd id]; rewrite ?bind_run, ?checked_denied by done;
    cbn [fst snd id mret st_ret]; unfold reply_engine, reply_files, reply_names, reply_bytes; cbn [fst snd]; rewrite ?Hz;
    by split.
Qed.

(** C15: a caller without the permission gets nothing.  Whatever a process that is not
    a system application, or has not been granted the permission, sends to the service,
    in whatever request, the service and everything behind it stay as they are, and
    every call fails, but for the reading of a parameter, which succeeds with an empty
    text. *)
Theorem denied_requests caller code data v (Hp : VerifySystemPermission caller ≠ INTELLIGENT_VOICE_SUCCESS) :
  let r := Service_OnRemoteRequest (P := P) (ServiceObject0 := voice_object caller) code data v in
  r.2 = v ∧
  (is_Some (processServiceFuncMap_ (P := P) (ServiceObject0 := voice_object caller) code) →
   r.1.1 ≠ 0 ∨ code = HDI_INTELL_VOICE_SERVICE_GET_PARAMETER ∧ r.1.2 = written (put (WriteString []))).
Proof.
  unfold Service_OnRemoteRequest, stub_request. destruct (ReadInterfaceToken data) as [token args].
  case_bool_decide; cbn [negb]; [|split; [done|by left]].
  destruct (processServiceFuncMap_ code) as [h|] eqn:Hh; [|by split; [|intros []]].
  destruct (handler_denied caller code h args v Hp Hh) as [-> Hr]. split; [done|intros _].
  destruct (Z.eqb_spec code HDI_INTELL_VOICE_SERVICE_GET_PARAMETER) as [->|]; [right; by rewrite Hr|by left].
Qed.

(** ** The initialisation *)

(** What is not the service manager. *)
Definition same_flags v0 v : Prop :=
  reasonId_ v = reasonId_ v0 ∧ isServiceInit_ v = isServiceInit_ v0 ∧ isDataShareRemoved_ v = isDataShareRemoved_ v0 ∧
  inits v = inits v0.
Lemma manager_flags {B} (m : St S B) v0 : ⟪ same_flags v0 ⟫ on_manager m ⟪ λ _, same_flags v0 ⟫.
Proof. intros v Hv. by rewrite on_manager_run. Qed.
#[local] Hint Resolve manager_flags : ivoice.
Lemma init_flags v :
  let v' := (InitIntellVoiceService v).2 in
  isServiceInit_ v' = isServiceInit_ v ∧ isDataShareRemoved_ v' = isDataShareRemoved_ v ∧
  inits v' = inits v ++ [reasonId_ v] ∧ reasonId_ v' = -1.
Proof.
  assert (⟪ same_flags v ⟫ InitIntellVoiceService ⟪ λ _ v', isServiceInit_ v' = isServiceInit_ v ∧
    isDataShareRemoved_ v' = isDataShareRemoved_ v ∧ inits v' = inits v ++ [reasonId_ v] ∧ reasonId_ v' = -1 ⟫) as Hi.
  { unfold InitIntellVoiceService. do 4 (apply (hoare_bind _ _ (λ _, same_flags v)); [keeps|intros _]).
    apply (hoare_bind _ _ (λ id x, same_flags v x ∧ id = reasonId_ v)); [by intros x Hx; split; [|apply Hx]|intros id].
    destruct (decide (id = reasonId_ v)) as [->|Hne]; [|by intros x []].
    refine (hoare_conseq _ (same_flags v) _ _ _ _ _ (λ _ _ h, h)); [|by intros x []]. apply hoare_gets_bind. intros name. do 2 (apply (hoare_bind _ _ (λ _, same_flags v)); [unfold start_by_reason; keeps|intros _]).
    intros x (H1 & H2 & H3 & H4). cbn. by rewrite H2, H3, H4. }
  exact (Hi v (conj eq_refl (conj eq_refl (conj eq_refl eq_refl)))).
Qed.

Definition init_of v : Init :=
  mkInit (if isServiceInit_ v then Ready else if isDataShareRemoved_ v then Lost else Waiting) (inits v) (reasonId_ v).

Lemma init_again_step v : isServiceInit_ v = false → init_of (init_again v).2 = init_event (init_of v) ShareThere.
Proof.
  intros Hv. unfold init_again, modv. rewrite !bind_run. cbn [st_modify fst snd].
  set (x := if isDataShareRemoved_ v then _ else v). destruct (init_flags x) as (_ & _ & H1 & H2). unfold init_of. cbn.
  rewrite H1, H2, Hv. unfold x. by destruct (isDataShareRemoved_ v).
Qed.

(** The meaning of an event of the system.  The data share is there when it is announced,
    or when the data service comes and the settings can be read ([CheckIfDataShareReady]);
    a system ability that the service manager has asked to be told of is its own. *)
Definition meaning (e : VoiceEvent A P) v : InitEvent :=
  let for_manager id := changes_ v && bool_decide (is_Some (sp_change (S := S) id)) in
  match e with
  | VStart _ id _ | VActive id _ => Caused id
  | VAdded _ id =>
    if negb (for_manager id) && (id =? DISTRIBUTED_KV_DATA_SERVICE_ABILITY_ID) && sp_CheckIfDataShareReady (manager v)
    then ShareThere else Other
  | VRemoved id => if negb (for_manager id) && (id =? DISTRIBUTED_KV_DATA_SERVICE_ABILITY_ID) then DataLost else Other
  | VReceive action =>
    if bool_decide (action = COMMON_EVENT_DATA_SHARE_READY) && negb (bool_decide (action ∈ [COMMON_EVENT_SCREEN_ON; COMMON_EVENT_SCREEN_OFF]))
    then ShareThere else Other
  | VIdle | VStop | VRequest _ _ _ => Other
  end.

(** An operation that leaves the flags alone. *)
Definition plain {B} (m : St (VoiceService S) B) : Prop := ∀ x, ⟪ λ v, init_of v = x ⟫ m ⟪ λ _ v, init_of v = x ⟫.
Lemma plain_manager {B} (m : St S B) : plain (on_manager m).
Proof. intros x v Hv. by rewrite on_manager_run. Qed.
Lemma plain_step {B} (m : St (VoiceService S) B) v : plain m → init_of (m v).2 = init_of v.
Proof. intros Hm. exact (Hm (init_of v) v eq_refl). Qed.
#[local] Hint Extern 1 (hoare _ (on_manager _) _) => apply plain_manager : ivoice.

Lemma plain_request caller code data : plain (Service_OnRemoteRequest (P := P) (ServiceObject0 := voice_object caller) code data).
Proof. intros x. in_request. Qed.

Lemma plain_modv f : (∀ v, init_of (f v) = init_of v) → plain (modv f).
Proof. intros Hf x v Hv. cbn. by rewrite Hf. Qed.
Lemma plain_bind {B C} (m : St (VoiceService S) B) (k : B → St (VoiceService S) C) :
  plain m → (∀ b, plain (k b)) → plain (m ≫= k).
Proof. intros Hm Hk x. apply hoare_seq; [apply Hm|intros b; apply Hk]. Qed.
Lemma caused_step id name (k : St (VoiceService S) unit) v :
  plain k → init_of ((_ ← modv (λ v, v <| reasonId_ := id |> <| reasonName_ := name |>); k) v).2 = init_event (init_of v) (Caused id).
Proof.
  intros Hk. rewrite bind_run. cbn [modv st_modify fst snd]. set (y := v <| reasonId_ := id |> <| reasonName_ := name |>).
  by rewrite (Hk (init_of y) y eq_refl).
Qed.
Lemma ready_step v : isServiceInit_ v = true → init_event (init_of v) ShareThere = init_of v.
Proof. unfold init_of. by intros ->. Qed.

Lemma plain_common ok b : plain (OnCommonEventServiceChange (S := S) ok b).
Proof. unfold OnCommonEventServiceChange. destruct b; [by apply plain_modv|by intros x v Hv]. Qed.
(** The change of a system ability that is, or is not, the manager's. *)
Lemma change_step ok id b v :
  init_of ((match change_func ok id v with None => mret () | Some f => f b end) v).2 =
  init_event (init_of v)
    (if changes_ v && bool_decide (is_Some (sp_change (S := S) id)) then Other
     else if id =? DISTRIBUTED_KV_DATA_SERVICE_ABILITY_ID
     then if b then if sp_CheckIfDataShareReady (manager v) then ShareThere else Other else DataLost
     else Other).
Proof.
  assert (∀ f : bool → St S unit, init_of (on_manager (f b) v).2 = init_of v) as Hf by (intros f; apply plain_step, plain_manager).
  unfold change_func. destruct (changes_ v); [destruct (sp_change id) as [f|]; [apply Hf|]|];
    (rewrite ?bool_decide_false by (by intros []); cbn [andb]; destruct (id =? DISTRIBUTED_KV_DATA_SERVICE_ABILITY_ID);
     [|destruct (_ =? _); [|done]; apply plain_step, plain_common]);
    (destruct b; [|done]; unfold OnDistributedKvDataServiceChange; rewrite bind_run; cbn [st_get fst snd];
     destruct (sp_CheckIfDataShareReady (manager v)); cbn [negb];
     [destruct (isServiceInit_ v) eqn:Hv; [by rewrite ready_step|by apply init_again_step]|by destruct (isServiceInit_ v)]).
Qed.

Lemma event_step e v : init_of (do_event e v).2 = init_event (init_of v) (meaning e v).
Proof.
  destruct e as [published id name|id name| | |ok id|id|action|caller code data]; cbn [do_event meaning].
  - apply caused_step. do 2 (apply plain_bind; [first [apply plain_manager|by apply plain_modv]|intros _]).
    destruct published; [by apply plain_modv|apply plain_manager].
  - apply caused_step. apply plain_bind; [apply plain_manager|intros _]. destruct (_ && _); [apply plain_manager|intros x; keeps].
  - apply plain_step. intros x. unfold OnIdle. keeps.
  - apply plain_step. unfold OnStop. do 3 (apply plain_bind; [apply plain_manager|intros _]). by apply plain_modv.
  - unfold OnAddSystemAbility. rewrite bind_run. cbn [st_get fst snd]. rewrite change_step.
    by destruct (_ && _), (id =? _), (sp_CheckIfDataShareReady _).
  - unfold OnRemoveSystemAbility, NeedProcOnRemoved. destruct (id =? _) eqn:Hid; cbn [negb]; [|by rewrite andb_false_r].
    rewrite bind_run. cbn [st_get fst snd]. rewrite change_step, Hid. by destruct (_ && _).
  - unfold OnReceiveEvent, OnReceiveCes. destruct (bool_decide_reflect (action = COMMON_EVENT_SCREEN_ON)) as [H1|H1].
    { rewrite (bool_decide_true (action ∈ _)) by set_solver. rewrite andb_false_r. apply plain_step, plain_manager. }
    destruct (bool_decide_reflect (action = COMMON_EVENT_SCREEN_OFF)) as [H2|H2].
    { rewrite (bool_decide_true (action ∈ _)) by set_solver. rewrite andb_false_r. apply plain_step, plain_manager. }
    rewrite (bool_decide_false (action ∈ _)) by set_solver. rewrite andb_true_r.
    destruct (bool_decide_reflect (action = COMMON_EVENT_DATA_SHARE_READY)) as [->|H3]; [|done].
    rewrite bind_run. cbn [st_get fst snd]. destruct (isServiceInit_ v) eqn:Hv; [by rewrite ready_step|by apply init_again_step].
  - apply plain_step. intros x. apply hoare_void, plain_request.
Qed.

(** A run of events, and what each of them means when it comes. *)
Fixpoint voice_events (es : list (VoiceEvent A P)) v : VoiceService S :=
  match es with [] => v | e :: es => voice_events es (do_event e v).2 end.
Fixpoint meanings (es : list (VoiceEvent A P)) v : list InitEvent :=
  match es with [] => [] | e :: es => meaning e v :: meanings es (do_event e v).2 end.

(** C16: the service is initialised once for each time the data share becomes
    available.  Under any sequence of starts, activations, idle requests and stops,
    system abilities that come and go, events and requests of clients, the service is
    in the state the abstract one reaches by the meanings of these events: when the data
    share is there ([InitEvent]: it is announced, or the data service comes and the settings
    can be read) and at no other time, [InitIntellVoiceService] runs, unless it has run since
    the data service was last lost; with the reason of the last start or activation the
    first time, and with that of an interface call after a loss. *)
Theorem init_refines es v : init_of (voice_events es v) = foldl init_event (init_of v) (meanings es v).
Proof. revert v. induction es as [|e es IH]; intros v; [done|]. cbn [voice_events meanings foldl]. by rewrite IH, event_step. Qed.
End lemmas.

(** * A service to run

    It remembers what it was asked for, and starts without the data share. *)
#[local] Instance log_port : ServicePort (bool * list string) :=
  let log {B} (r : B) (c : string) : St (bool * list string) B := λ w, (r, (w.1, w.2 ++ [c])) in {|
  sp_HandleCreateEngine _ := log (Some 8%nat) "create"%string;
  sp_HandleReleaseEngine _ := log 0 "release"%string;
  sp_RegisterProxyDeathRecipient _ _ := log true "register"%string;
  sp_DeregisterProxyDeathRecipient _ := log true "deregister"%string;
  sp_RegisterDeviceDeathRecipient _ _ := log true "watch"%string;
  sp_GetUploadFiles _ l := log (0, l) "upload"%string;
  sp_EngineSetParameter _ := log 0 "set"%string;
  sp_EngineGetParameter k := log k "get"%string;
  sp_GetWakeupSourceFilesList l := log (0, l) "list"%string;
  sp_GetWakeupSourceFile _ _ := log (0, [1]) "file"%string;
  sp_SendWakeupFile _ _ := log 0 "send"%string;
  sp_HandleCloneUpdate _ _ := log 0 "clone"%string;
  sp_ClearUserData := log 0 "clear"%string;
  sp_RegisterWakeupDevice _ _ := log 0 "add"%string;
  sp_DeregisterWakeupDevice _ := log 0 "remove"%string;
  sp_OnServiceStart := log () "start"%string;
  sp_change id := if id =? 5 then Some (λ b, λ w, ((), (b, w.2))) else None;
  sp_OnServiceStop := log () "stop"%string;
  sp_HandleServiceStop := log () "stopping"%string;
  sp_ReleaseSwitchProvider := log () "no_switches"%string;
  sp_HandleOnIdle := log true "idle"%string;
  sp_OnServiceActive := log () "active"%string;
  sp_HandleUnloadIntellVoiceService _ := log () "unload"%string;
  sp_CreateSwitchProvider := log () "switches"%string;
  sp_CheckIfDataShareReady w := w.1;
  sp_ProcBreathModel := mret ();
  sp_ProcSingleLevelModel := mret ();
  sp_HandleSilenceUpdate := log () "silence"%string;
  sp_HandleSwitchOn _ _ _ := log () "on"%string;
  sp_HandlePowerSaveModeChange := log () "power"%string;
  sp_SetScreenOff _ := mret ();
  sp_StartAbility e := log () e |}.
#[local] Instance log_ids : SystemIds := {|
  COMMON_EVENT_SERVICE_ID := 1; DISTRIBUTED_KV_DATA_SERVICE_ABILITY_ID := 2;
  REASON_INTERFACE_CALL := 10; REASON_COMMON_EVENT := 11;
  COMMON_EVENT_SCREEN_ON := lit "on"; COMMON_EVENT_SCREEN_OFF := lit "off"; COMMON_EVENT_DATA_SHARE_READY := lit "ready" |}.

(** A request to clear the user data. *)
Definition clear_request : listed := request (P := listed) SERVICE_DESCRIPTOR (mret ()).
Abbreviation RefVoice := (VoiceService (bool * list string)).
(** The process [stranger] has no permission, [trusted] has. *)
#[local] Instance callers : AudioFw RefFw := ref_fw_for false rf_broken.
Definition stranger : RefFw := mkRefFw 0 true [].
Definition trusted : RefFw := mkRefFw 0 false [].
Definition fresh_voice : RefVoice := new_service (false, []).
Definition voice_run (es : list (VoiceEvent RefFw listed)) : RefVoice := foldl (λ v e, (do_event e v).2) fresh_voice es.

Example trusted_clears :
  manager (voice_run [VRequest trusted HDI_INTELL_VOICE_SERVICE_CLEAR_USER_DATA clear_request]) = (false, ["clear"%string]).
Proof. vm_compute. reflexivity. Qed.
Lemma denied_requests_witness :
  let r := Service_OnRemoteRequest (P := listed) (ServiceObject0 := voice_object stranger)
             HDI_INTELL_VOICE_SERVICE_CLEAR_USER_DATA clear_request fresh_voice in
  r.2 = fresh_voice ∧
  (r.1.1 ≠ 0 ∨ HDI_INTELL_VOICE_SERVICE_CLEAR_USER_DATA = HDI_INTELL_VOICE_SERVICE_GET_PARAMETER ∧
               r.1.2 = written (P := listed) (put (WriteString []))).
Proof.
  assert (VerifySystemPermission stranger ≠ INTELLIGENT_VOICE_SUCCESS) as Hp by (vm_compute; discriminate).
  destruct (denied_requests (P := listed) stranger HDI_INTELL_VOICE_SERVICE_CLEAR_USER_DATA clear_request fresh_voice Hp) as [H1 H2].
  split; [exact H1|apply H2]. eexists. reflexivity.
Defined.

(** The service is started, the data service comes before the data share, which is then
    announced; the data service goes and comes back. *)
Definition init_run : list (VoiceEvent RefFw listed) :=
  [VStart true 11 (lit "usual.event.BOOT_COMPLETED"); VAdded true 1; VAdded true 2;
   VReceive (lit "ready"); VReceive (lit "ready"); VRemoved 2; VAdded true 5; VAdded true 2;
   VRequest stranger HDI_INTELL_VOICE_SERVICE_CLEAR_USER_DATA clear_request].
(** The data service that comes at once finds no settings to read; the first announcement
    initialises the service, and the second does not. *)
Lemma init_refines_witness :
  meanings init_run fresh_voice =
    [Caused 11; Other; Other; ShareThere; ShareThere; DataLost; Other; ShareThere; Other] ∧
  init_of (voice_events init_run fresh_voice) = mkInit Ready [11; 10] (-1).
Proof.
  assert (meanings init_run fresh_voice = [Caused 11; Other; Other; ShareThere; ShareThere; DataLost; Other; ShareThere; Other]) as Hm
    by (vm_compute; reflexivity).
  split; [exact Hm|]. rewrite (init_refines init_run fresh_voice), Hm. vm_compute. reflexivity.
Defined.
