(* ===== verification/VoiceSystem.v ===== *)
(** * The service behind its system ability

    The system ability of [VoiceService.v] on the service manager of
    [ServiceManager.v] with [IntellVoiceEngineManager] and a tracked trigger manager
    ([System.v]): the rest of the members of [intell_voice_service_manager.cpp], those
    that clients wait for and those that only hand a call on, as the instance of
    [ServicePort].  Requests come in as parcels of processes that are not trusted, so
    what [System.v] shows of the operations of the service manager is shown here of
    whatever other processes send. *)

From S2P Require Import Prelude StringUtil Settings EngineTypes EngineAudio UpdateController EngineUtil DeviceManager.
From S2P Require Import EngineManager ServiceManager System Parcel ServiceIpc VoiceService.

(** ** Outside the service *)

(** What remote objects, the device manager of the HAL, the settings and the files
    answer, as functions of the time. *)
Class Surroundings (F : Type) := {
  object_added : Z → bool;
  object_removed : Z → bool;
  devmgr_there : Z → bool;
  provider_made : Z → bool;
  share_ready : Z → bool;
  preferred_devices : Z → list (bool * str);
  is_whispering : Z → option bool;
  report_dirs : Z → option (list F);
  random_numbers : Z → list nat;
  file_info : F → option UploadFile }.

(** Start and stop of the trigger manager, and what it does when a system ability comes
    or goes. *)
Class TriggerLife (T : Type) := {
  tl_OnServiceStart : St T unit;
  tl_OnServiceStop : St T unit;
  tl_OnTelephonyStateRegistryServiceChange : bool → St T unit;
  tl_OnAudioDistributedServiceChange : bool → St T unit;
  tl_OnAudioPolicyServiceChange : bool → St T unit;
  tl_OnPowerManagerServiceChange : bool → St T unit;
  tl_OnDisplayManagerServiceChange : bool → St T unit }.
#[global] Instance tracked_life {T} `{!TriggerLife T} : TriggerLife (Tracked T) := {|
  tl_OnServiceStart := on_inner tl_OnServiceStart;
  tl_OnServiceStop := on_inner tl_OnServiceStop;
  tl_OnTelephonyStateRegistryServiceChange b := on_inner (tl_OnTelephonyStateRegistryServiceChange b);
  tl_OnAudioDistributedServiceChange b := on_inner (tl_OnAudioDistributedServiceChange b);
  tl_OnAudioPolicyServiceChange b := on_inner (tl_OnAudioPolicyServiceChange b);
  tl_OnPowerManagerServiceChange b := on_inner (tl_OnPowerManagerServiceChange b);
  tl_OnDisplayManagerServiceChange b := on_inner (tl_OnDisplayManagerServiceChange b) |}.

(** Numbers of the system abilities, and the build switch of the power manager. *)
Class AbilityIds := {
  TELEPHONY_STATE_REGISTRY_SYS_ABILITY_ID : Z; AUDIO_DISTRIBUTED_SERVICE_ID : Z; AUDIO_POLICY_SERVICE_ID : Z;
  POWER_MANAGER_SERVICE_ID : Z; DISPLAY_MANAGER_SERVICE_ID : Z; POWER_MANAGER_ENABLE : bool }.

(** ** The members clients and the system ability call *)

Section members.
Context {H W Q T D F : Type} `{!EngineHal H} `{!DataShare Q} `{!TriggerPort T} `{!KvStore D}.
Context {JL : JsonLib} {PL : Platform} {BL : SvcBuild}.
Context `{!Lens W (Hw H)} `{!EngineOps W T D} `{!Surroundings F} `{!TriggerLife T} {AI : AbilityIds}.
Abbreviation M := (St (Sys (Svc (Mgr W) Q) T D)).

Definition asked_now {A} (f : Z → A) : M A := st_gets (λ s, f (now s)).

(** [AddSyncTask]: the task is added and waited for.  The executor first runs the
    tasks before it; what they add comes after it. *)
Fixpoint turns (n : nat) : M unit :=
  match n with O => mret () | S n => _ ← ExecuteInThread; turns n end.
Definition wait_for {A} (body : M A) : M A :=
  q ← st_gets tasks;
  _ ← turns (pred (length q));
  _ ← st_modify (λ s, s <| tasks ::= tail |>);
  body.
Definition AddSyncTask {A} (t : Task) (body : M A) : M A := _ ← push t; wait_for body.
Definition AddTask (isAsync : bool) {A} (t : Task) (body : M A) : M unit :=
  if isAsync then push t else st_void (AddSyncTask t body).

Definition HandleCreateEngine (type : Z) : M (option nat) := AddSyncTask (TCreateEngine type) (CreateEngine_task type).
Definition HandleReleaseEngine (type : Z) : M Z := AddSyncTask (TReleaseEngine type) (ReleaseEngine type).
Definition HandleCloneUpdate (wakeupInfo : str) (object : option nat) : M Z :=
  AddSyncTask (TCloneUpdate wakeupInfo object) (CloneUpdate_task wakeupInfo object).
Definition HandleUnloadIntellVoiceService (isAsync : bool) : M unit := AddTask isAsync TUnload UnloadIntellVoiceService.
Definition HandleSwitchOn (isAsync : bool) (uuid : Z) (needUpdateAdapter : bool) : M unit :=
  AddTask isAsync (TSwitchOn uuid needUpdateAdapter) (SwitchOnProc uuid needUpdateAdapter).
Definition HandleOnIdle_sync : M bool := AddSyncTask TOnIdle HandleOnIdle.
Definition HandleServiceStop_sync : M unit :=
  _ ← AddSyncTask TServiceStop (on_E em_ServiceStopProc);
  err ← getc (IsSwitchError WAKEUP_KEY);
  st_when err (StartAbility "db_error").
Definition HandleSilenceUpdate : M unit := push TSilenceUpdate.
(** [ClearUserData] and [EngineSetParameter], with the wait for the task they add. *)
Definition ClearUserData_sync : M Z := _ ← ServiceManager.ClearUserData; wait_for ClearUserData_task.
Definition EngineSetParameter_sync (keyValueList : str) : M Z :=
  r ← EngineSetParameter keyValueList;
  match r with
  | RetNow z => mret z
  | RetOf (TDataClear key value) => wait_for (DataClear_task key value)
  | RetOf _ => mret 0
  end.

(** Calls handed on to the engine manager. *)
Definition upload (f : UploadFile) : UploadFilesFromHdi :=
  mkUploadFiles (up_type f) (up_description f) (Z.to_nat <$> up_content f).
Definition Service_GetUploadFiles (numMax : Z) (files : list UploadFilesFromHdi) : M (Z * list UploadFilesFromHdi) :=
  dirs ← asked_now report_dirs;
  rs ← asked_now random_numbers;
  r ← on_E (EngineManager.GetUploadFiles dirs rs file_info numMax);
  let files := files ++ (upload <$> r.2) in
  _ ← ScheduleDelayedUnload;
  mret (if bool_decide (files = []) then -1 else 0, files).
Definition Service_RegisterProxyDeathRecipient (type : Z) (object : nat) : M bool :=
  added ← asked_now object_added; on_E (EngineManager.RegisterProxyDeathRecipient type object added).
Definition Service_DeregisterProxyDeathRecipient (type : Z) : M bool :=
  removed ← asked_now object_removed; on_E (EngineManager.DeregisterProxyDeathRecipient type removed).
Definition Service_RegisterDeviceDeathRecipient (serviceName : str) (object : nat) : M bool :=
  added ← asked_now object_added; on_E (EngineManager.RegisterDeviceDeathRecipient serviceName object added).
Definition EngineGetParameter (key : str) : M str :=
  whispering ← asked_now is_whispering;
  on_E (st_gets (Manager_GetParameter whispering key)).
(** The buffers the stub passes are empty. *)
Definition Service_GetWakeupSourceFilesList (cloneFiles : list str) : M (Z * list str) :=
  on_E (st_gets (λ s, Host_GetWakeupSourceFilesList (view (world (mgr_engines (own s)))))).
Definition Service_GetWakeupSourceFile (filePath : str) (buffer : list Z) : M (Z * list Z) :=
  on_E (EngineManager.GetWakeupSourceFile filePath).
Definition Service_SendWakeupFile (filePath : str) (buffer : list Z) : M Z :=
  on_E (EngineManager.SendWakeupFile filePath buffer).
Definition Service_SetScreenOff (value : bool) : M unit := on_E (SetScreenOff value).
(** An exception goes through the service and its stub to the IPC library, which is not
    modelled: the layers above see a failed registration. *)
Definition Service_RegisterWakeupDevice (macAddress : str) (info : WakeupDeviceInfo) : M Z :=
  r ← on_E (RegisterWakeupDevice macAddress info); mret (default (-1) r).
Definition Service_DeregisterWakeupDevice (macAddress : str) : M Z :=
  removed ← asked_now object_removed; on_E (DeregisterWakeupDevice macAddress removed).

(** [OnServiceStart], with what it registers, and [OnServiceStop]. *)
Definition Service_OnServiceStart : M unit :=
  there ← asked_now devmgr_there;
  _ ← on_trigger tl_OnServiceStart;
  on_E (LoadIntellVoiceHost there).
Definition saChangeFuncMap (id : Z) : option (bool → M unit) :=
  if id =? TELEPHONY_STATE_REGISTRY_SYS_ABILITY_ID
  then Some (λ isAdded, on_trigger (tl_OnTelephonyStateRegistryServiceChange isAdded))
  else if negb RECORD_CONCURRENT && (id =? AUDIO_DISTRIBUTED_SERVICE_ID)
  then Some (λ isAdded, on_trigger (tl_OnAudioDistributedServiceChange isAdded))
  else if id =? AUDIO_POLICY_SERVICE_ID
  then Some (λ isAdded,
    _ ← on_trigger (tl_OnAudioPolicyServiceChange isAdded);
    desc ← asked_now preferred_devices;
    on_E (OnAudioPolicyServiceChange isAdded desc))
  else if POWER_MANAGER_ENABLE && (id =? POWER_MANAGER_SERVICE_ID)
  then Some (λ isAdded, on_trigger (tl_OnPowerManagerServiceChange isAdded))
  else if id =? DISPLAY_MANAGER_SERVICE_ID
  then Some (λ isAdded, on_trigger (tl_OnDisplayManagerServiceChange isAdded))
  else None.
Definition Service_OnServiceStop : M unit :=
  there ← asked_now devmgr_there;
  _ ← on_trigger tl_OnServiceStop;
  on_E (UnloadIntellVoiceHost there).

(** [ServiceManagerType]: the members the system ability uses. *)
#[global] Instance service_manager_port : ServicePort (Sys (Svc (Mgr W) Q) T D) := {|
  sp_HandleCreateEngine := HandleCreateEngine;
  sp_HandleReleaseEngine := HandleReleaseEngine;
  sp_RegisterProxyDeathRecipient := Service_RegisterProxyDeathRecipient;
  sp_DeregisterProxyDeathRecipient := Service_DeregisterProxyDeathRecipient;
  sp_RegisterDeviceDeathRecipient := Service_RegisterDeviceDeathRecipient;
  sp_GetUploadFiles := Service_GetUploadFiles;
  sp_EngineSetParameter := EngineSetParameter_sync;
  sp_EngineGetParameter := EngineGetParameter;
  sp_GetWakeupSourceFilesList := Service_GetWakeupSourceFilesList;
  sp_GetWakeupSourceFile := Service_GetWakeupSourceFile;
  sp_SendWakeupFile := Service_SendWakeupFile;
  sp_HandleCloneUpdate := HandleCloneUpdate;
  sp_ClearUserData := ClearUserData_sync;
  sp_RegisterWakeupDevice := Service_RegisterWakeupDevice;
  sp_DeregisterWakeupDevice := Service_DeregisterWakeupDevice;
  sp_OnServiceStart := Service_OnServiceStart;
  sp_change := saChangeFuncMap;
  sp_OnServiceStop := Service_OnServiceStop;
  sp_HandleServiceStop := HandleServiceStop_sync;
  sp_ReleaseSwitchProvider := ReleaseSwitchProvider;
  sp_HandleOnIdle := HandleOnIdle_sync;
  sp_OnServiceActive := OnServiceActive;
  sp_HandleUnloadIntellVoiceService := HandleUnloadIntellVoiceService;
  sp_CreateSwitchProvider := made ← asked_now provider_made; CreateSwitchProvider made;
  sp_CheckIfDataShareReady s := share_ready (now s);
  sp_ProcBreathModel := ProcBreathModel;
  sp_ProcSingleLevelModel := ProcSingleLevelModel;
  sp_HandleSilenceUpdate := HandleSilenceUpdate;
  sp_HandleSwitchOn := HandleSwitchOn;
  sp_HandlePowerSaveModeChange := HandlePowerSaveModeChange;
  sp_SetScreenOff := Service_SetScreenOff;
  sp_StartAbility := StartAbility |}.
End members.

(** ** What is relied on of the trigger manager *)

Class TriggerLifeLaws (T : Type) `{!TriggerLife T} `{!Detecting T} := {
  ll_start : quiet tl_OnServiceStart;
  ll_stop : quiet tl_OnServiceStop;
  ll_telephony b : quiet (tl_OnTelephonyStateRegistryServiceChange b);
  ll_distributed b : quiet (tl_OnAudioDistributedServiceChange b);
  ll_policy b : quiet (tl_OnAudioPolicyServiceChange b);
  ll_power b : quiet (tl_OnPowerManagerServiceChange b);
  ll_display b : quiet (tl_OnDisplayManagerServiceChange b) }.
#[global] Instance tracked_life_laws {T} `{!TriggerLife T} : TriggerLifeLaws (Tracked T).
Proof. constructor; intros; apply on_inner_quiet. Qed.

(** * Lemmas *)

Section lemmas.
Context {H W Q T D F : Type} `{!EngineHal H} `{!DataShare Q} `{!TriggerPort T} `{!KvStore D}.
Context {JL : JsonLib} {PL : Platform} {BL : SvcBuild}.
Context `{!Lens W (Hw H)} `{!EngineOps W T D} `{!Surroundings F} `{!TriggerLife T} {AI : AbilityIds}.
Context `{!Detecting T} `{!TriggerLaws T} `{!TriggerLifeLaws T} `{!QuietEngines W T D}.
Abbreviation M := (St (Sys (Svc (Mgr W) Q) T D)).
Abbreviation keeps_inv m := (⟪ undisturbed (E := Mgr W) (Q := Q) (T := T) (D := D) ⟫ m ⟪ λ _, undisturbed ⟫) (only parsing).
Hint Resolve inv_settings inv_emit inv_task inv_getc inv_StartAbility : ivoice.
Hint Resolve mgr_host_calm mgr_devices_calm mgr_getc_calm : ivoice.
Hint Resolve ll_start ll_stop ll_telephony ll_distributed ll_policy ll_power ll_display tl_update : ivoice.
Hint Extern 1 (hoare _ (modc _) _) => (apply inv_modc; by intros []) : ivoice.
Hint Extern 1 (hoare _ (on_trigger _) _) => (apply inv_trigger; solve [auto with ivoice nocore]) : ivoice.

(** A member of the engine manager that reaches neither detection nor the engines. *)
Lemma inv_mgr {A} (m : St (Sys (Mgr W) T D) A) :
  (∀ U B, ⟪ mgr_calm U B ⟫ m ⟪ λ _, mgr_calm U B ⟫) → keeps_inv (on_E m).
Proof. intros Hm. by apply inv_E, mgr_calm_gentle. Qed.
Lemma inv_asked {A} (f : Z → A) : keeps_inv (asked_now f).
Proof. by intros s Hs. Qed.
Lemma mgr_modc_calm (f : Mgr W → Mgr W) U B :
  (∀ m, mgr_engines (f m) = mgr_engines m) → ⟪ mgr_calm U B ⟫ modc (T := T) (D := D) f ⟪ λ _, mgr_calm U B ⟫.
Proof. intros Hf s [HU HB]. split; [exact HU|]. cbn. by rewrite Hf. Qed.
Hint Resolve inv_asked : ivoice.
Hint Extern 1 (hoare (mgr_calm _ _) (modc _) _) => (by apply mgr_modc_calm) : ivoice.
Hint Extern 1 (hoare _ (on_E _) _) => (apply inv_mgr; intros ? ?; solve [keeps]) : ivoice.

Lemma inv_turns n : keeps_inv (turns (W := W) n).
Proof.
  induction n as [|n IH]; cbn [turns]; [keeps|]. apply hoare_seq; [|by intros ?].
  exact (inv_sop SExec I).
Qed.
Lemma inv_wait {A} (body : M A) : keeps_inv body → keeps_inv (wait_for body).
Proof.
  intros Hb. unfold wait_for. apply hoare_gets_bind. intros q. apply hoare_seq; [apply inv_turns|intros _].
  apply hoare_seq; [by apply inv_frame|by intros _].
Qed.
Lemma inv_sync {A} t (body : M A) : keeps_inv body → keeps_inv (AddSyncTask t body).
Proof. intros Hb. apply hoare_seq; [apply inv_task|intros _; by apply inv_wait]. Qed.
Lemma inv_add b {A} t (body : M A) : keeps_inv body → keeps_inv (AddTask b t body).
Proof. intros Hb. destruct b; [apply inv_task|by apply hoare_void, inv_sync]. Qed.

(** A task whose run is that of [exec]. *)
Lemma inv_task_of {A} t (body : M A) : exec t = st_void body → keeps_inv body.
Proof.
  intros He s Hs. pose proof (inv_exec t s Hs) as Hi. rewrite He, void_run in Hi. exact Hi.
Qed.
Lemma inv_synced {A} t (body : M A) : exec t = st_void body → keeps_inv (AddSyncTask t body).
Proof. intros He. by eapply inv_sync, inv_task_of. Qed.

Lemma inv_change id f b : saChangeFuncMap id = Some f → keeps_inv (f b).
Proof.
  unfold saChangeFuncMap.
  repeat match goal with |- (if ?c then _ else _) = Some _ → _ => destruct c; [intros [= <-]|] end; [..|done];
    unfold OnAudioPolicyServiceChange; keeps.
Qed.

#[global] Instance port_undisturbed : PortKeeps (undisturbed (E := Mgr W) (Q := Q) (T := T) (D := D)).
Proof.
  constructor; intros; cbn [sp_HandleCreateEngine sp_HandleReleaseEngine sp_RegisterProxyDeathRecipient
    sp_DeregisterProxyDeathRecipient sp_RegisterDeviceDeathRecipient sp_GetUploadFiles sp_EngineSetParameter
    sp_EngineGetParameter sp_GetWakeupSourceFilesList sp_GetWakeupSourceFile sp_SendWakeupFile sp_HandleCloneUpdate
    sp_ClearUserData sp_RegisterWakeupDevice sp_DeregisterWakeupDevice sp_OnServiceStart sp_OnServiceStop
    sp_HandleServiceStop sp_ReleaseSwitchProvider sp_HandleOnIdle sp_OnServiceActive sp_HandleUnloadIntellVoiceService
    sp_CreateSwitchProvider sp_ProcBreathModel sp_ProcSingleLevelModel sp_HandleSilenceUpdate sp_HandleSwitchOn
    sp_HandlePowerSaveModeChange sp_SetScreenOff sp_StartAbility service_manager_port].
  all: unfold HandleCreateEngine, HandleReleaseEngine, HandleCloneUpdate, HandleOnIdle_sync;
    try match goal with |- hoare _ (AddSyncTask _ _) _ => by apply inv_synced end.
  all: unfold Service_RegisterProxyDeathRecipient, Service_DeregisterProxyDeathRecipient, EngineGetParameter,
    Service_RegisterDeviceDeathRecipient, Service_GetUploadFiles, ScheduleDelayedUnload, Service_GetWakeupSourceFilesList,
    Service_GetWakeupSourceFile, Service_SendWakeupFile, Service_RegisterWakeupDevice, Service_DeregisterWakeupDevice,
    Service_OnServiceStart, Service_OnServiceStop, ReleaseSwitchProvider, OnServiceActive, ProcBreathModel,
    ProcSingleLevelModel, HandleSilenceUpdate, Service_SetScreenOff,
    EngineManager.RegisterProxyDeathRecipient, EngineManager.DeregisterProxyDeathRecipient,
    EngineManager.RegisterDeviceDeathRecipient, EngineManager.GetUploadFiles, GetUploadFilesFromVendor,
    EngineManager.GetWakeupSourceFile, EngineManager.SendWakeupFile, RegisterWakeupDevice, DeregisterWakeupDevice,
    DeregisterDeviceDeathRecipient, LoadIntellVoiceHost, UnloadIntellVoiceHost, SetScreenOff, push.
  all: try solve [keeps].
  - unfold EngineSetParameter_sync, EngineSetParameter. apply hoare_seq.
    + destruct (SplitStringToKVPair _ _); [apply inv_set_params|keeps].
    + intros [z|t]; [keeps|]. destruct t; try solve [keeps]. eapply inv_wait, (inv_task_of (TDataClear _ _)); done.
  - unfold ClearUserData_sync. apply hoare_seq; [exact (inv_sop ServiceManager.SClearUserData I)|intros _].
    by apply inv_wait, (inv_task_of TClearUserData).
  - match goal with Hf : sp_change _ = _ |- _ => exact (inv_change _ _ _ Hf) end.
  - unfold HandleServiceStop_sync. apply hoare_seq; [by apply inv_synced|intros _]. keeps.
  - by apply inv_add, (inv_task_of TUnload).
  - apply hoare_gets_bind. intros made. exact (inv_sop (SProvider made) I).
  - by eapply inv_add, (inv_task_of (TSwitchOn _ _)).
  - exact (inv_sop SPowerSave I).
Qed.
End lemmas.

(** * Theorems *)

Section theorems.
Context {H W Q T D F A P : Type} `{!EngineHal H} `{!DataShare Q} `{!TriggerPort T} `{!KvStore D}.
Context {JL : JsonLib} {PL : Platform} {BL : SvcBuild}.
Context `{!Lens W (Hw H)} `{!EngineOps W (Tracked T) D} `{!QuietEngines W (Tracked T) D}.
Context `{!Surroundings F} `{!TriggerLife T} {AI : AbilityIds}.
Context `{!AudioFw A} {AM : AudioModes} {SI : SystemIds} `{!ParcelLib P}.
Abbreviation Service := (VoiceService (Sys (Svc (Mgr W) Q) (Tracked T) D)).

(** What happens to the service: what comes through the system ability, and what the
    threads of the process do by themselves. *)
Inductive ServiceStep :=
| Outside (e : VoiceEvent A P)
| Inside (o : SvcOp (E := Mgr W) (Q := Q) (T := Tracked T) (D := D)).
Definition do_step (v : Service) (x : ServiceStep) : Service :=
  match x with Outside e => (do_event e v).2 | Inside o => (on_manager (do_sop o) v).2 end.
Definition step_ok (x : ServiceStep) : Prop := match x with Outside _ => True | Inside o => sop_ok o end.

(** C1: no process can make the service listen while a user enrolls.  From the start
    of the service, whatever requests processes send it, with or without the permission
    and whatever is in the parcels, however they interleave with starts and stops of
    the service, system abilities that come and go, and the work of its own threads:
    while an enrollment engine exists, the last request the trigger manager got for
    either wakeup model is not a start. *)
Theorem requests_undisturbed w0 q (steps : list ServiceStep) (v : Service)
    (Hinit : own (manager v) = init_svc (init_mgr w0) q)
    (Hsteps : Forall step_ok steps) :
  let s := manager (foldl do_step v steps) in
  IsEngineExist INTELL_VOICE_ENROLL (emgr (own s)) = true →
  (VOICE_WAKEUP_MODEL_UUID ∉ requested (trig s)) ∧ (PROXIMAL_WAKEUP_MODEL_UUID ∉ requested (trig s)).
Proof.
  cbv zeta. intros He. assert (undisturbed (manager (foldl do_step v steps))) as Hs.
  { assert (undisturbed (manager v)) as Hv by (by unfold undisturbed, enrolling; rewrite Hinit).
    clear Hinit He. revert v Hv. induction Hsteps as [|x steps Hx _ IH]; intros v Hv; [done|]. apply IH.
    destruct x as [e|o]; [by apply (behind_event undisturbed)|]. cbn. rewrite on_manager_run. by apply inv_sop. }
  specialize (Hs He). split; eapply bool_decide_eq_false_1, Hs; set_solver.
Qed.
End theorems.

(** * A service to run *)

(** Everything outside is there and works. *)
#[local] Instance ref_surroundings : Surroundings UploadFile := {|
  object_added _ := true; object_removed _ := true; devmgr_there _ := true; provider_made _ := true;
  share_ready _ := true; preferred_devices _ := []; is_whispering _ := None; report_dirs _ := Some [];
  random_numbers _ := []; file_info := Some |}.
#[local] Instance ref_life : TriggerLife RefTrig := {|
  tl_OnServiceStart := mret (); tl_OnServiceStop := mret (); tl_OnTelephonyStateRegistryServiceChange _ := mret ();
  tl_OnAudioDistributedServiceChange _ := mret (); tl_OnAudioPolicyServiceChange _ := mret ();
  tl_OnPowerManagerServiceChange _ := mret (); tl_OnDisplayManagerServiceChange _ := mret () |}.
#[local] Instance ref_abilities : AbilityIds := {|
  TELEPHONY_STATE_REGISTRY_SYS_ABILITY_ID := 4010; AUDIO_DISTRIBUTED_SERVICE_ID := 3001; AUDIO_POLICY_SERVICE_ID := 3009;
  POWER_MANAGER_SERVICE_ID := 3301; DISPLAY_MANAGER_SERVICE_ID := 4607; POWER_MANAGER_ENABLE := true |}.
#[local] Instance ref_system : SystemIds := {|
  COMMON_EVENT_SERVICE_ID := 3299; DISTRIBUTED_KV_DATA_SERVICE_ABILITY_ID := 1301;
  REASON_INTERFACE_CALL := 0; REASON_COMMON_EVENT := 1;
  COMMON_EVENT_SCREEN_ON := lit "on"; COMMON_EVENT_SCREEN_OFF := lit "off"; COMMON_EVENT_DATA_SHARE_READY := lit "ready" |}.
#[local] Instance ref_callers : AudioFw RefFw := ref_fw_for false rf_broken.

Definition create_request (type : Z) : listed :=
  request SERVICE_DESCRIPTOR (_ ← put (WriteInt32 type); put (WriteRemoteObject (Some 3%nat))).
Abbreviation RefStep := (ServiceStep (W := RefWorld) (Q := gmap string str) (T := RefTrig) (D := gmap string str) (A := RefFw) (P := listed)).
Definition ref_voice : VoiceService RefSvc := new_service (ref_svc [] true).
Definition steps_to (steps : list RefStep) : VoiceService RefSvc := foldl do_step ref_voice steps.

(** The service starts and detects; a stranger and then a client ask for an enrollment
    engine, and a switch notification follows. *)
Definition started : list RefStep :=
  [Outside (VStart true 1 (lit "usual.event.BOOT_COMPLETED")); Outside (VAdded true 1301);
   Inside SExec; Inside SExec; Inside SExec; Inside SExec].
Definition ask caller : RefStep :=
  Outside (VRequest caller HDI_INTELL_VOICE_SERVICE_CREATE_ENGINE (create_request INTELL_VOICE_ENROLL)).
Definition enrolled_by (caller : RefFw) : list RefStep :=
  started ++ [ask caller; Inside (SSwitchChange WAKEUP_KEY); Inside SExec].
Example stranger_does_not_enroll :
  requested (trig (manager (steps_to started))) = {[1]} ∧
  requested (trig (manager (steps_to (enrolled_by stranger)))) = {[1]} ∧
  IsEngineExist INTELL_VOICE_ENROLL (emgr (own (manager (steps_to (enrolled_by stranger))))) = false ∧
  IsEngineExist INTELL_VOICE_ENROLL (emgr (own (manager (steps_to (enrolled_by trusted))))) = true.
Proof. vm_compute. done. Qed.
Lemma requests_undisturbed_witness :
  let s := manager (foldl do_step ref_voice (enrolled_by trusted)) in
  IsEngineExist INTELL_VOICE_ENROLL (emgr (own s)) = true ∧
  (VOICE_WAKEUP_MODEL_UUID ∉ requested (trig s)) ∧ (PROXIMAL_WAKEUP_MODEL_UUID ∉ requested (trig s)).
Proof.
  assert (IsEngineExist INTELL_VOICE_ENROLL (emgr (own (manager (foldl do_step ref_voice (enrolled_by trusted))))) = true)
    as He by (vm_compute; reflexivity).
  split; [exact He|].
  refine (requests_undisturbed (mkRefWorld (mkLog ref_hw 0 []) []) _ (enrolled_by trusted) ref_voice eq_refl _ He).
  repeat constructor.
Defined.
