(* ===== verification/ImplicitEngine.v ===== *)
(** * The implicit enrollment engine

    [implicit/implicit_enroll_engine.cpp] and [implicit_enroll_adapter_listener.cpp]: a
    message-driven engine that learns a user's voice from wakeups of the past.  A client
    starts an enrollment with a parameter ([start_enroll]); the HAL answers with an event.

    Its threads: the callers of its members; the HAL's, which puts tasks in the queue of
    the engine's executor and starts a detached thread for each report of the HAL's
    initialisation; those threads ([im_starting], the results they were started with), each
    of which, when the HAL is ready, starts one more thread of the executor; the executor's
    ([im_threads], what each is at); and the timer thread.  [msgHandleMutex_] is held while a
    message is handled, and only then: what [OnEnrollComplete] does after its message is
    done without it, a step for each member or service it uses.  [HandleSetParam] keeps the
    mutex ([im_held]) until the executor has run its task.  [im_answers] are the results
    [Detach] has returned with. *)

From S2P Require Import Prelude TimerMgr StringUtil Settings StateManager EngineTypes.
From S2P Require Import EngineUtil WakeupListener WakeupImpl.
Import StateManager.

Definition MAX_IMPLICIT_TASK_NUM : Z := 100.
(** 5 minutes. *)
Definition ENROLLING_TIMEOUT_US : Z := 5 * 60 * 1000 * 1000.
Definition DIALOG_STAGE : str := lit "dialog".
Definition VERIFY_STAGE : str := lit "verify".
Definition STAGE_TXT : str := lit "stage=".
Definition START_TIME_TXT : str := lit "startTime=".
Definition END_TIME_TXT : str := lit "endTime=".

(** The lambdas the engine gives to its executor. *)
Inductive IeTask :=
| TStart (stage : str) (startTime endTime : Z)
| TClear (param : str)
| TComplete (result : Z) (info : str)
| TDetach.

(** What a thread of the executor is at: a task, or one of the steps that save the result of
    an enrollment. *)
Inductive IeWork :=
| WTask (t : IeTask)
| WReport (result : Z)
| WModel | WVersion | WBundle | WAbility | WPhrase.

(** The members; [im_listener] is whether [adapterListener_] is there, with its [cb_] and
    [historyEvent_]. *)
Record ImplicitEnrollEngine (H : Type) := mkImplicit {
  im_adapter : option AdapterHostManager; im_adapterType : Z; im_hw : Hw H;
  im_listener : bool; im_cb : option nat; im_history : option HdiEvent;
  im_wakeupPhrase : str; im_stage : str; im_bundleName : str; im_abilityName : str; im_startTime : Z; im_endTime : Z;
  im_tasks : list IeTask; im_threads : list (option IeWork); im_starting : list Z; im_held : bool; im_answers : list Z }.
Arguments mkImplicit {H} _ _ _ _ _ _ _ _ _ _ _ _ _ _ _ _ _.
Arguments im_adapter {H} _.
Arguments im_adapterType {H} _.
Arguments im_hw {H} _.
Arguments im_listener {H} _.
Arguments im_cb {H} _.
Arguments im_history {H} _.
Arguments im_wakeupPhrase {H} _.
Arguments im_stage {H} _.
Arguments im_bundleName {H} _.
Arguments im_abilityName {H} _.
Arguments im_startTime {H} _.
Arguments im_endTime {H} _.
Arguments im_tasks {H} _.
Arguments im_threads {H} _.
Arguments im_starting {H} _.
Arguments im_held {H} _.
Arguments im_answers {H} _.
#[global] Instance ImplicitEnrollEngine_eta H : Eta (ImplicitEnrollEngine H) :=
  λ e, mkImplicit (im_adapter e) (im_adapterType e) (im_hw e) (im_listener e) (im_cb e) (im_history e)
         (im_wakeupPhrase e) (im_stage e) (im_bundleName e) (im_abilityName e) (im_startTime e) (im_endTime e)
         (im_tasks e) (im_threads e) (im_starting e) (im_held e) (im_answers e).
#[global] Instance im_util_lens H : Lens (ImplicitEnrollEngine H) (EngineUtil H) := {|
  view e := mkEngineUtil (im_adapter e) (im_adapterType e) (im_hw e);
  set u e := e <| im_adapter := adapter_ u |> <| im_adapterType := adapterType u |> <| im_hw := hw u |> |}.
#[global] Instance im_util_laws H : LensLaws (ImplicitEnrollEngine H) (EngineUtil H).
Proof. constructor; [by intros [] []|by intros []|done]. Qed.

Definition new_implicit {H} (adapterTypeBut : Z) (w : Hw H) : ImplicitEnrollEngine H :=
  mkImplicit None adapterTypeBut w false None None [] [] [] [] 0 0 [] [] [] false [].

Section implicit.
Context {H T D : Type} `{!EngineHal H} `{!TriggerPort T} `{!KvStore D}.
Context {JL : JsonLib} {PL : Platform} {IDS : HdiIds}.
Abbreviation E := (Sys (ImplicitEnrollEngine H) T D).
Abbreviation M := (St (Sys (ImplicitEnrollEngine H) T D)).
Abbreviation Hand := (Handler Body E).

Definition on_util {B} (m : St (Sys (EngineUtil H) T D) B) : M B := zoom m.
Definition ie_answer (ret next : Z) : M HandlerResult := mret (mkResult ret next false).

(** [TaskExecutor::AddAsyncTask] of the engine; with [isWait] the caller waits for room. *)
Definition ie_push (t : IeTask) (isWait : bool) : M unit :=
  modc (λ e, if isWait || (Z.of_nat (length (im_tasks e)) <? MAX_IMPLICIT_TASK_NUM)
             then e <| im_tasks ::= λ q, q ++ [t] |> else e).

(** [RELEASE_IMPLICIT_ENROLL_ENGINE] over the message bus:
    [IntellVoiceServiceManager::ReleaseImplicitEnrollEngine]. *)
Definition ReleaseImplicitEnrollEngine : M unit := AddAsyncTask (TReleaseEngine INTELL_VOICE_IMPLICIT_ENROLL) true.

(** ** The listener *)

Definition IL_SetCallback (cb : option nat) : M unit :=
  match cb with
  | None => modc (λ e, e <| im_cb := None |>)
  | Some cb =>
    _ ← modc (λ e, e <| im_cb := Some cb |>);
    history ← getc im_history;
    match history with None => mret () | Some event => emit (OnUpdateComplete cb (ev_result event)) end
  end.
Definition IL_BackupCallBackEvent (event : HdiEvent) : M unit :=
  if ev_msgId event =? INTELL_VOICE_ENGINE_MSG_ENROLL_COMPLETE
  then modc (λ e, e <| im_history := Some event |>) else mret ().
Definition IL_Notify (event : HdiEvent) : M unit :=
  cb ← getc im_cb;
  match cb with
  | None => IL_BackupCallBackEvent event
  | Some cb =>
    _ ← modc (λ e, e <| im_history := None |>);
    if negb (ev_msgId event =? INTELL_VOICE_ENGINE_MSG_ENROLL_COMPLETE) then mret () else
    emit (OnUpdateComplete cb (ev_result event))
  end.

(** ** Parameters *)

(** A member of [root] of type string. *)
Definition str_member (root : json) (key : str) : option str :=
  if negb (isMember root key) then None else
  if negb (isString (member root key)) then None else Some (asString (member root key)).
Definition int_member (root : json) (key : str) : option Z :=
  if negb (isMember root key) then None else
  if negb (isInt (member root key)) then None else Some (asInt (member root key)).
(** One of the checks of [CheckParams]: the member is kept and the next checks follow. *)
Definition check_member {B} (v : option B) (keep : B → ImplicitEnrollEngine H → ImplicitEnrollEngine H) (rest : M bool) : M bool :=
  match v with
  | None => mret false
  | Some b => _ ← modc (keep b); rest
  end.
Definition CheckParams (param : str) : M bool :=
  match parseFromStream param with
  | None => mret false
  | Some root =>
    check_member (str_member root (lit "stage")) (λ v e, e <| im_stage := v |>) (
    stage ← getc im_stage;
    if bool_decide (stage = VERIFY_STAGE) then
      check_member (str_member root (lit "bundle_name")) (λ v e, e <| im_bundleName := v |>) (
      check_member (str_member root (lit "ability_name")) (λ v e, e <| im_abilityName := v |>) (
      check_member (int_member root (lit "start_time")) (λ v e, e <| im_startTime := v |>) (
      check_member (int_member root (lit "end_time")) (λ v e, e <| im_endTime := v |>) (
      mret true))))
    else mret (bool_decide (stage = DIALOG_STAGE)))
  end.

(** ** Handlers *)

Definition IE_Attach (wakeupPhrase : str) (minBufSize sampleChannels bitsPerSample sampleRate : Z) : M Z :=
  a ← getc im_adapter;
  match a with
  | None => mret (-1)
  | Some _ =>
    _ ← on_util SetDspFeatures;
    _ ← on_util SetImproveParam;
    on_util (adapter_call (CAttach wakeupPhrase minBufSize sampleChannels bitsPerSample sampleRate))
  end.
Definition IE_SetCallbackInner : M unit :=
  listener ← getc im_listener;
  a ← getc im_adapter;
  match a with
  | Some _ => if (listener : bool) then st_void (on_util (adapter_call CSetCallback)) else mret ()
  | None => mret ()
  end.

Definition IE_HandleInit : Hand := λ _ cur,
  created ← on_util (CreateAdapterInner IMPLICIT_ENROLL_ADAPTER_TYPE);
  if negb created then ie_answer (-1) cur else
  _ ← modc (λ e, e <| im_wakeupPhrase := DEFAULT_WAKEUP_PHRASE |>);
  _ ← IE_SetCallbackInner;
  _ ← on_util SetLanguage;
  _ ← on_util SetArea;
  ret ← IE_Attach DEFAULT_WAKEUP_PHRASE 1280 1 16 16000;
  if negb (ret =? 0) then
    _ ← on_util ReleaseAdapterInner;
    ie_answer (-1) cur
  else ie_answer 0 INITIALIZED.

Definition IE_HandleRecognizingTimeout : Hand := λ _ _,
  _ ← ReleaseImplicitEnrollEngine;
  ie_answer 0 IDLE.

Definition IE_HandleSetListener : Hand := λ msg cur,
  listener ← getc im_listener;
  match inMsg msg with
  | Some (BListener (Some cb)) =>
    if (listener : bool) then _ ← IL_SetCallback (Some cb); ie_answer 0 cur else ie_answer (-1) cur
  | _ => ie_answer (-1) cur
  end.

Definition IE_HandleStart : Hand := λ msg cur,
  match inMsg msg with
  | Some (BStr param) =>
    valid ← CheckParams param;
    if negb valid then ie_answer (-1) cur else
    e ← getc id;
    _ ← ie_push (TStart (im_stage e) (im_startTime e) (im_endTime e)) false;
    ie_answer 0 RECOGNIZING
  | _ => ie_answer (-1) cur
  end.

(** The wait for the task, with the mutex, is [im_held]. *)
Definition IE_HandleSetParam : Hand := λ msg cur,
  match inMsg msg with
  | Some (BStr param) =>
    _ ← ie_push (TClear param) true;
    _ ← modc (λ e, e <| im_held := true |>);
    ie_answer 0 cur
  | _ => ie_answer (-1) cur
  end.

Definition IE_HandleRelease : Hand := λ _ cur,
  a ← getc im_adapter;
  match a with
  | None => ie_answer 0 cur
  | Some _ =>
    ret ← on_util (adapter_call CDetach);
    _ ← on_util ReleaseAdapterInner;
    ie_answer ret IDLE
  end.

Definition IE_HandleEnrollComplete : Hand := λ msg cur,
  match inMsg msg with
  | Some (BEvent event) =>
    listener ← getc im_listener;
    _ ← st_when listener (IL_Notify event);
    ie_answer 0 INITIALIZED
  | _ => ie_answer (-1) cur
  end.

(** ** The machine *)

Abbreviation Machine := (ModuleStates Body E).

Definition IE_InitStates (m : Machine) : Machine :=
  let m := foldl (λ m i, for_state i (Add SET_LISTENER IE_HandleSetListener) m) m (state_range IDLE RECOGNIZING) in
  let m := for_state IDLE (Add INIT IE_HandleInit) m in
  let m := for_state INITIALIZED (λ a, Add RELEASE IE_HandleRelease (Add SET_PARAM IE_HandleSetParam
             (Add START_RECOGNIZE IE_HandleStart a))) m in
  for_state RECOGNIZING (λ a, Add RELEASE IE_HandleRelease (Add RECOGNIZE_COMPLETE IE_HandleEnrollComplete
    (WaitUntil RECOGNIZING_TIMEOUT IE_HandleRecognizingTimeout ENROLLING_TIMEOUT_US 0 a))) m.

(** The constructor, and the first part of [Init]. *)
Definition IE_make (e : E) : Machine := IE_InitStates (make_states IDLE true PROCESS_IDLE e).

Definition IE_Handle (now : Z) (msg : StateMsg Body) (m : Machine) : option (Z * Machine) :=
  if negb (isInitSucc_ m) then Some (-1, m) else HandleMsg now msg m.

Definition IE_Init (now : Z) (m : Machine) : option (bool * Machine) :=
  '(r, m1) ← IE_Handle now (mkStateMsg INIT None) (with_env (modc (λ e, e <| im_listener := true |>)) m).2;
  Some (r =? 0, m1).

(** [object] is [None] for an object that is not an update callback. *)
Definition IE_SetCallback (now : Z) (object : option nat) (m : Machine) : option Machine :=
  match object with
  | None => Some m
  | Some cb => snd <$> IE_Handle now (mkStateMsg SET_LISTENER (Some (BListener (Some cb)))) m
  end.

(** The message of [SetParameter]: the first of the two keys, in key order. *)
Fixpoint param_msg (keyValueList : str) (kvs : list (str * str)) : option (StateMsg Body) :=
  match kvs with
  | [] => None
  | kv :: kvs =>
    if bool_decide (kv.1 = lit "start_enroll") then Some (mkStateMsg START_RECOGNIZE (Some (BStr kv.2)))
    else if bool_decide (kv.1 = lit "clear_data") then Some (mkStateMsg SET_PARAM (Some (BStr keyValueList)))
    else param_msg keyValueList kvs
  end.
Definition IE_SetParameter (now : Z) (keyValueList : str) (m : Machine) : option Machine :=
  match SplitStringToKVPair keyValueList ∅ with
  | None => Some m
  | Some kvpairs =>
    match param_msg keyValueList (pairs_in_order kvpairs) with
    | None => Some m
    | Some msg => snd <$> IE_Handle now msg m
    end
  end.

(** [Detach], up to the wait for its task. *)
Definition IE_Detach : M unit := ie_push TDetach true.

(** ** Events of the HAL *)

(** [OnEnrollEvent]; the report of the initialisation is left to a thread of its own. *)
Definition IE_OnEnrollEvent (event : HdiEvent) : M unit :=
  if ev_msgId event =? INTELL_VOICE_ENGINE_MSG_INIT_DONE then
    modc (λ e, e <| im_starting ::= λ l, l ++ [ev_result event] |>)
  else if ev_msgId event =? INTELL_VOICE_ENGINE_MSG_ENROLL_COMPLETE then
    ie_push (TComplete (ev_result event) (ev_info event)) false
  else mret ().
(** [TaskExecutor::StartThread]; [created] is whether the thread can be made. *)
Definition IE_StartThread (created : bool) : M unit :=
  modc (λ e, if created then e <| im_threads ::= λ l, l ++ [None] |> else e).
(** The body of the [k]th of those threads. *)
Definition IE_InitDone (k : nat) (created : bool) : M unit :=
  starting ← getc im_starting;
  match starting !! k with
  | None => mret ()
  | Some result =>
    _ ← modc (λ e, e <| im_starting := delete k starting |>);
    if negb (result =? 0) then ReleaseImplicitEnrollEngine else IE_StartThread created
  end.
(** [ImplicitEnrollAdapterListener::OnIntellVoiceHdiEvent]. *)
Definition IE_OnIntellVoiceHdiEvent (event : HdiEvent) : M unit :=
  listener ← getc im_listener;
  st_when listener (IE_OnEnrollEvent event).

(** ** The executor *)

Definition IE_start_task (stage : str) (startTime endTime : Z) : M unit :=
  _ ← on_util (SetParameter (STAGE_TXT ++ stage));
  _ ← st_when (bool_decide (stage = VERIFY_STAGE))
        (_ ← on_util (SetParameter (START_TIME_TXT ++ Int2String startTime));
         st_void (on_util (SetParameter (END_TIME_TXT ++ Int2String endTime))));
  st_void (on_util (adapter_call (CStart true))).

(** [OnEnrollComplete]: its message; the rest is left to do. *)
Definition IE_OnEnrollComplete (now result : Z) (info : str) (m : Machine) : option (option IeWork * Machine) :=
  '(_, m1) ← IE_Handle now (mkStateMsg RECOGNIZE_COMPLETE
    (Some (BEvent (mkEvent INTELL_VOICE_ENGINE_MSG_ENROLL_COMPLETE result info)))) m;
  Some (Some (WReport result), m1).
(** One of the steps after it, and the one that follows. *)
Definition IE_save (w : IeWork) : M (option IeWork) :=
  e ← getc id;
  match w with
  | WTask _ => mret None
  | WReport result =>
    if negb (bool_decide (im_stage e = VERIFY_STAGE)) then mret None else
    _ ← emit (EnrollResult INTELL_VOICE_IMPLICIT_ENROLL (result =? 0));
    mret (if negb (result =? 0) then None else Some WModel)
  | WModel =>
    model ← on_util (ReadDspModel DSP_MODLE);
    _ ← on_util (ProcDspModel model);
    mret (Some WVersion)
  | WVersion => _ ← on_settings (SaveWakeupVesion version_line); mret (Some WBundle)
  | WBundle =>
    _ ← on_settings (SetStringKVPair KEY_WAKEUP_ENGINE_BUNDLE_NAME (im_bundleName e)); mret (Some WAbility)
  | WAbility =>
    _ ← on_settings (SetStringKVPair KEY_WAKEUP_ENGINE_ABILITY_NAME (im_abilityName e)); mret (Some WPhrase)
  | WPhrase => _ ← on_settings (SetStringKVPair KEY_WAKEUP_PHRASE (im_wakeupPhrase e)); mret None
  end.

(** The tasks that handle a message wait for the mutex. *)
Definition needs_mutex (t : IeTask) : bool := match t with TComplete _ _ | TDetach => true | _ => false end.
Definition work_waits (w : IeWork) : bool := match w with WTask t => needs_mutex t | _ => false end.
(** A step of what a thread is at: what it is at afterwards. *)
Definition IE_work (now : Z) (w : IeWork) (m : Machine) : option (option IeWork * Machine) :=
  match w with
  | WTask (TStart stage startTime endTime) => Some (None, (with_env (IE_start_task stage startTime endTime) m).2)
  | WTask (TClear param) =>
    Some (None, (with_env (_ ← on_util (SetParameter param); modc (λ e, e <| im_held := false |>)) m).2)
  | WTask (TComplete result info) => IE_OnEnrollComplete now result info m
  | WTask TDetach =>
    '(r, m1) ← IE_Handle now (mkStateMsg RELEASE None) m;
    Some (None, (with_env (modc (λ e, e <| im_answers ::= λ l, l ++ [r] |>)) m1).2)
  | _ => Some (with_env (IE_save w) m)
  end.
(** A step of the [i]th thread of the executor: it takes a task, or goes on with what it is
    at unless it has to wait. *)
Definition IE_ExecuteInThread (now : Z) (i : nat) (m : Machine) : option Machine :=
  let e := own (env m) in
  match im_threads e !! i with
  | None => Some m
  | Some (Some w) =>
    if im_held e && work_waits w then Some m else
    '(next, m1) ← IE_work now w m;
    Some (with_env (modc (λ e, e <| im_threads ::= <[i := next]> |>)) m1).2
  | Some None =>
    match im_tasks e with
    | [] => Some m
    | t :: rest => Some (with_env (modc (λ e, e <| im_threads ::= <[i := Some (WTask t)]> |> <| im_tasks := rest |>)) m).2
    end
  end.
End implicit.
