(* ===== verification/ImplicitSafety.v ===== *)
(** * The implicit enrollment engine: its runs

    What holds whatever is done with the engine and in whatever order: an enrollment the
    HAL never completes ends by the timer alone; the engine's executor, and with it every
    [Detach], runs only once the HAL has reported that it is ready, and then answers every
    [Detach] unless it waits for the mutex that a [clear_data] holds while it waits for
    the executor. *)

From S2P Require Import Prelude TimerMgr StringUtil Settings StateManager StateTimeout MachineRuns EngineTypes.
From S2P Require Import EngineUtil WakeupListener WakeupImpl ImplicitEngine.
Import StateManager.

Section safety.
Context {H T D : Type} `{!EngineHal H} `{!TriggerPort T} `{!KvStore D}.
Context {JL : JsonLib} {PL : Platform} {IDS : HdiIds}.
Abbreviation E := (Sys (ImplicitEnrollEngine H) T D).
Abbreviation M := (St (Sys (ImplicitEnrollEngine H) T D)).
Abbreviation Machine := (ModuleStates Body (Sys (ImplicitEnrollEngine H) T D)).
Implicit Types e : E.
Implicit Types m : Machine.

(** ** What a computation leaves alone *)

(** The executor and the mutex. *)
Definition ie_queue e := (im_tasks (own e), im_threads (own e), im_starting (own e), im_held (own e), im_answers (own e)).
(** The adapter and the tasks of the service. *)
Definition ie_asks e := (im_adapter (own e), tasks e).
Abbreviation quiet := (frames ie_queue).
Abbreviation keeps_asks := (frames ie_asks).

Section frames.
Context {C : Type} (core : E → C).
Lemma ie_fr_getc {B} (f : ImplicitEnrollEngine H → B) : frames core (getc f).
Proof. by intros c e He. Qed.
Lemma fr_ret {B} (b : B) : frames core (mret b).
Proof. by intros c e He. Qed.
End frames.
Lemma ie_quiet_util {B} (m : St (Sys (EngineUtil H) T D) B) : quiet (on_util m).
Proof. intros c e <-. unfold on_util. rewrite zoom_run. done. Qed.
Lemma ie_quiet_settings {B} (m : St (option D) B) : quiet (on_settings m).
Proof. intros c e <-. by rewrite on_settings_run. Qed.
Lemma ie_quiet_emit o : quiet (emit o).
Proof. by intros c e <-. Qed.
Lemma ie_quiet_release : quiet ReleaseImplicitEnrollEngine.
Proof. by intros c e <-. Qed.
Lemma ie_quiet_modc f :
  (∀ x, (im_tasks (f x), im_threads (f x), im_starting (f x), im_held (f x), im_answers (f x)) =
        (im_tasks x, im_threads x, im_starting x, im_held x, im_answers x)) → quiet (modc f).
Proof. intros Hf c e <-. unfold ie_queue, modc. run. cbn. apply Hf. Qed.
Create HintDb ie_quiet discriminated.
#[local] Hint Resolve ie_quiet_util ie_quiet_settings ie_quiet_emit ie_quiet_release ie_fr_getc fr_ret : ie_quiet.
#[local] Hint Extern 1 (frames ie_queue (modc _)) => (apply ie_quiet_modc; by intros []) : ie_quiet.
#[local] Hint Extern 1 (hoare (λ e, ie_queue e = _) _ _) =>
  (lazymatch goal with |- hoare _ ?m _ => assert (frames ie_queue m) by (solve [auto with ie_quiet nocore]); auto end) : ivoice.

Lemma ie_quiet_set_callback cb : quiet (IL_SetCallback cb).
Proof. intros c. unfold IL_SetCallback. keeps. Qed.
Lemma ie_quiet_notify ev : quiet (IL_Notify ev).
Proof. intros c. unfold IL_Notify, IL_BackupCallBackEvent. keeps. Qed.
Lemma ie_quiet_member {B} (v : option B) keep rest :
  (∀ b, quiet (modc (keep b))) → quiet rest → quiet (check_member v keep rest).
Proof. intros Hk Hr c. unfold check_member. destruct v as [b|]; [|by intros e He]. eapply hoare_seq; [apply Hk|intros _; apply Hr]. Qed.
Lemma ie_quiet_check param : quiet (CheckParams param).
Proof.
  unfold CheckParams. destruct (parseFromStream param); [|intros c; keeps].
  apply ie_quiet_member; [auto with ie_quiet nocore|]. intros c. apply hoare_seq; [by intros e He|intros stage].
  destruct (bool_decide _); [|keeps]. revert c.
  repeat (apply ie_quiet_member; [auto with ie_quiet nocore|]). auto with ie_quiet nocore.
Qed.
Lemma ie_quiet_save w : quiet (IE_save w).
Proof. intros c. unfold IE_save. destruct w; keeps. Qed.
Lemma ie_quiet_start stage a b : quiet (IE_start_task stage a b).
Proof. intros c. unfold IE_start_task. keeps. Qed.
#[local] Hint Resolve ie_quiet_set_callback ie_quiet_notify ie_quiet_check : ie_quiet.

(** Every handler but the two that give the executor a task. *)
Abbreviation quiet_handler h := (∀ msg cur, quiet (h msg cur : M HandlerResult)).
Lemma ie_quiet_init : quiet_handler IE_HandleInit.
Proof. intros msg cur c. unfold IE_HandleInit, IE_SetCallbackInner, IE_Attach, ie_answer. keeps. Qed.
Lemma ie_quiet_listener : quiet_handler IE_HandleSetListener.
Proof. intros msg cur c. unfold IE_HandleSetListener, ie_answer. keeps. Qed.
Lemma ie_quiet_timeout : quiet_handler IE_HandleRecognizingTimeout.
Proof. intros msg cur c. unfold IE_HandleRecognizingTimeout, ie_answer. keeps. Qed.
Lemma ie_quiet_handle_release : quiet_handler IE_HandleRelease.
Proof. intros msg cur c. unfold IE_HandleRelease, ie_answer. keeps. Qed.
Lemma ie_quiet_complete : quiet_handler IE_HandleEnrollComplete.
Proof. intros msg cur c. unfold IE_HandleEnrollComplete, ie_answer. keeps. Qed.

(** ** The engine's release is asked for *)

(** Without adapter, or the service has been asked to release the engine. *)
Definition released e : Prop :=
  im_adapter (own e) = None ∨ TReleaseEngine INTELL_VOICE_IMPLICIT_ENROLL ∈ tasks e.
Lemma released_framed : framed ie_asks released.
Proof. intros e e' Hc. unfold released. unfold ie_asks in Hc. by injection Hc as -> ->. Qed.

Lemma asks_adapter {B} (r : B) c : keeps_asks (on_util (with_adapter r c)).
Proof.
  intros v e <-. unfold on_util. rewrite zoom_run.
  by destruct (with_adapter_run r c (with_own (view (own e)) e)) as [w ->].
Qed.
Lemma asks_param kv : keeps_asks (on_util (SetParameter kv)).
Proof. apply asks_adapter. Qed.
Lemma asks_call c : keeps_asks (on_util (adapter_call c)).
Proof. apply asks_adapter. Qed.
Lemma asks_model type : keeps_asks (on_util (ReadDspModel type)).
Proof.
  intros v e <-. unfold on_util, ReadDspModel. rewrite zoom_run, bind_run.
  by destruct (with_adapter_run None (λ a, Adapter_Read a type) (with_own (view (own e)) e)) as [w ->].
Qed.
Lemma asks_proc model : keeps_asks (on_util (ProcDspModel model)).
Proof. intros v e <-. unfold on_util, ProcDspModel. rewrite zoom_run. destruct (bool_decide _); [done|]. by rewrite on_trigger_run. Qed.
Lemma asks_settings {B} (m : St (option D) B) : keeps_asks (on_settings m).
Proof. intros v e <-. by rewrite on_settings_run. Qed.
Lemma asks_emit o : keeps_asks (emit o).
Proof. by intros v e <-. Qed.
Lemma asks_modc f : (∀ x, im_adapter (f x) = im_adapter x) → keeps_asks (modc f).
Proof. intros Hf v e <-. unfold ie_asks, modc. run. cbn. by rewrite Hf. Qed.
Create HintDb ie_asks discriminated.
#[local] Hint Resolve asks_param asks_call asks_model asks_proc asks_settings asks_emit ie_fr_getc fr_ret : ie_asks.
#[local] Hint Extern 1 (frames ie_asks (modc _)) => (apply asks_modc; by intros []) : ie_asks.
#[local] Hint Extern 1 (hoare (λ e, ie_asks e = _) _ _) =>
  (lazymatch goal with |- hoare _ ?m _ => assert (frames ie_asks m) by (solve [auto with ie_asks nocore]); auto end) : ivoice.
Lemma asks_set_callback cb : keeps_asks (IL_SetCallback cb).
Proof. intros c. unfold IL_SetCallback. keeps. Qed.
Lemma asks_notify ev : keeps_asks (IL_Notify ev).
Proof. intros c. unfold IL_Notify, IL_BackupCallBackEvent. keeps. Qed.
Lemma asks_save w : keeps_asks (IE_save w).
Proof. intros c. unfold IE_save. destruct w; keeps. Qed.
Lemma asks_start stage a b : keeps_asks (IE_start_task stage a b).
Proof. intros c. unfold IE_start_task. keeps. Qed.
Lemma asks_push t w : keeps_asks (ie_push t w).
Proof. apply asks_modc. intros []. cbn. by destruct (_ || _). Qed.

Lemma ask_release e : released (ReleaseImplicitEnrollEngine e).2.
Proof. right. cbn. apply elem_of_app. right. by apply list_elem_of_singleton. Qed.
Lemma gone_release e : im_adapter (own (on_util ReleaseAdapterInner e).2) = None.
Proof. unfold on_util. rewrite zoom_run. by destruct (ReleaseAdapterInner_run (with_own (view (own e)) e)) as [w ->]. Qed.
Lemma gone_create type e :
  (on_util (CreateAdapterInner type) e).1 = false → im_adapter (own (on_util (CreateAdapterInner type) e).2) = None.
Proof.
  unfold on_util. rewrite zoom_run. destruct (CreateAdapterInner_run type (with_own (view (own e)) e)) as (a & w & ->).
  cbn. by destruct a.
Qed.

(** ** The handlers *)

Definition ie_inv (s : Z) e : Prop := s = IDLE → released e.
Abbreviation post := (post ie_inv IDLE RECOGNIZING).
Abbreviation good_handler := (good_handler ie_inv IDLE RECOGNIZING : Z → Handler Body E → Prop).

(** Handlers that leave the state and [released] alone. *)
Lemma ie_stay cur ret (c : M unit) :
  IDLE ≤ cur ≤ RECOGNIZING → keeps_asks c → ⟪ ie_inv cur ⟫ (_ ← c; ie_answer ret cur) ⟪ post cur ⟫.
Proof.
  intros Hs Hc e He. rewrite bind_run. split; [|done]. cbn.
  assert (ie_inv cur (c e).2); [|by destruct (ret =? 0)]. intros E1.
  eapply (released_framed e); [by apply (Hc (ie_asks e))|by apply He].
Qed.
(** Handlers that go to a state that asks for nothing. *)
Lemma ie_go cur next (Q : E → Prop) : IDLE < next ≤ RECOGNIZING → ⟪ Q ⟫ ie_answer 0 next ⟪ post cur ⟫.
Proof. intros Hs e _. split; [|split; cbn; lia]. cbn. intros ->. by destruct Hs. Qed.
Lemma ie_fail cur (Q : E → Prop) : 
  IDLE ≤ cur ≤ RECOGNIZING → (∀ e, Q e → ie_inv cur e) → ⟪ Q ⟫ ie_answer (-1) cur ⟪ post cur ⟫.
Proof. intros Hs HQ e He. split; [by apply HQ|done]. Qed.

Lemma ie_good_listener cur : IDLE ≤ cur ≤ RECOGNIZING → good_handler cur IE_HandleSetListener.
Proof.
  intros Hs msg. unfold IE_HandleSetListener. intros e He. rewrite getc_bind. destruct (inMsg msg) as [[| | | |[cb|]|]|]; try by apply (ie_fail cur (ie_inv cur)).
  destruct (im_listener (own e)); [|by apply (ie_fail cur (ie_inv cur))]. apply (ie_stay cur 0); [done|apply asks_set_callback|done].
Qed.
Lemma ie_good_init : good_handler IDLE IE_HandleInit.
Proof.
  intros msg. unfold IE_HandleInit. intros e He. rewrite bind_run.
  pose proof (gone_create IMPLICIT_ENROLL_ADAPTER_TYPE e) as Hg. destruct (on_util _ e) as [created e1]. cbn [fst snd] in *.
  destruct created; cbn [negb].
  2: { apply (ie_fail IDLE released); [done|by intros e0 H0 _|]. left. by apply Hg. }
  revert e1 Hg. clear e He.
  match goal with |- ∀ e1, _ → post _ (?c e1).1 (?c e1).2 => cut (⟪ λ _, True ⟫ c ⟪ post IDLE ⟫); [intros Hc e1 _; by apply Hc|] end.
  do 5 (apply (hoare_bind _ _ (λ _ _, True)); [by intros e _|intros ?]).
  destruct (_ =? _); cbn [negb]; [by apply ie_go|].
  apply (hoare_bind _ _ (λ _, released)); [intros e _; left; apply gone_release|intros _].
  apply ie_fail; [done|by intros e He _].
Qed.
Lemma ie_good_timeout : good_handler RECOGNIZING IE_HandleRecognizingTimeout.
Proof. intros msg e _. unfold IE_HandleRecognizingTimeout. rewrite bind_run. split; [intros _; apply ask_release|done]. Qed.
Lemma ie_good_start : good_handler INITIALIZED IE_HandleStart.
Proof.
  intros msg. unfold IE_HandleStart. destruct (inMsg msg) as [[]|]; try (apply ie_fail; [done|by intros]).
  apply (hoare_bind _ _ (λ _ _, True)); [by intros e _|intros []; cbn [negb]]; [|by apply ie_fail].
  do 2 (apply (hoare_bind _ _ (λ _ _, True)); [by intros e _|intros ?]). by apply ie_go.
Qed.
Lemma ie_good_set_param : good_handler INITIALIZED IE_HandleSetParam.
Proof.
  intros msg. unfold IE_HandleSetParam. destruct (inMsg msg) as [[]|]; try (apply ie_fail; [done|by intros]).
  do 2 (apply (hoare_bind _ _ (λ _ _, True)); [by intros e _|intros ?]). by apply ie_go.
Qed.
Lemma ie_good_release s : s = INITIALIZED ∨ s = RECOGNIZING → good_handler s IE_HandleRelease.
Proof.
  intros Hs msg e He. unfold IE_HandleRelease. rewrite getc_bind. destruct (im_adapter (own e)) as [a|].
  - rewrite !bind_run. split; [|done]. cbn [fst snd]. destruct (hRet _ =? 0); [intros _; left; apply gone_release|].
    by destruct Hs as [-> | ->].
  - split; [exact He|]. cbn. unfold IDLE, RECOGNIZING, INITIALIZED in *. lia.
Qed.
Lemma ie_good_complete : good_handler RECOGNIZING IE_HandleEnrollComplete.
Proof.
  intros msg. unfold IE_HandleEnrollComplete. destruct (inMsg msg) as [[]|]; try (apply ie_fail; [done|by intros]).
  do 2 (apply (hoare_bind _ _ (λ _ _, True)); [by intros e0 _|intros ?]). by apply ie_go.
Qed.

(** ** The machine *)

#[local] Tactic Notation "hide" uconstr(h) := generalize (h : Handler Body E); intros ?.
Ltac hide_handlers :=
  hide IE_HandleSetListener; hide IE_HandleInit; hide IE_HandleStart; hide IE_HandleSetParam;
  hide IE_HandleRelease; hide IE_HandleEnrollComplete; hide IE_HandleRecognizingTimeout.
Ltac compute_machine := unfold IE_make, IE_InitStates; hide_handlers; by vm_compute.

Lemma implicit_table e :
  Permutation (actions_list (IE_make e))
    [(0, 12, IE_HandleSetListener); (0, 1, IE_HandleInit); (1, 12, IE_HandleSetListener);
     (2, 12, IE_HandleSetListener); (2, 3, IE_HandleStart); (2, 13, IE_HandleSetParam); (2, 18, IE_HandleRelease);
     (3, 12, IE_HandleSetListener); (3, 9, IE_HandleRecognizingTimeout); (3, 5, IE_HandleEnrollComplete);
     (3, 18, IE_HandleRelease)].
Proof.
  unfold IE_make, IE_InitStates. hide_handlers.
  match goal with |- Permutation ?a _ => let b := eval vm_compute in a in change a with b end.
  solve_Permutation.
Qed.
Lemma implicit_timeouts e :
  timeout_table (IE_make e) = [(3, 9, Some (IE_HandleRecognizingTimeout : Handler Body E))].
Proof. compute_machine. Qed.
Lemma implicit_states e s : s ∈ seqZ 0 4 → is_Some (states_ (IE_make e) !! s).
Proof.
  unfold IE_make, IE_InitStates. hide_handlers. intros Hs.
  assert (s = 0 ∨ s = 1 ∨ s = 2 ∨ s = 3) as Hc by (apply elem_of_seqZ in Hs; lia).
  repeat (destruct Hc as [->|Hc]; [vm_compute; by eexists|]). subst s. vm_compute. by eexists.
Qed.
Lemma implicit_curr e : currState_ (IE_make e) = Some IDLE.
Proof. compute_machine. Qed.
Lemma implicit_init_succ e : isInitSucc_ (IE_make e) = true.
Proof. compute_machine. Qed.
Lemma implicit_env e : env (IE_make e) = e.
Proof. unfold IE_make, IE_InitStates. hide_handlers. by vm_compute. Qed.
Lemma implicit_timers e : timers (IE_make e) = TimerMgr.Start true None (TimerMgr.make 10).
Proof. done. Qed.
Lemma implicit_configured e : configured (IE_make e).
Proof. apply (configured_intro _ IDLE); [compute_machine|apply implicit_curr|apply implicit_states; by apply elem_of_seqZ]. Qed.
Lemma implicit_no_timer e :
  forallb (λ x, match x.2 with Some a => actTimerId a =? INVALID_ID | None => true end)
    (map_to_list (states_ (IE_make e))) = true.
Proof. compute_machine. Qed.
(** A handler of the machine is one of the table. *)
Lemma implicit_handler (Q : Z * Z * Handler Body E → Prop) e :
  Forall Q [(0, 12, IE_HandleSetListener); (0, 1, IE_HandleInit); (1, 12, IE_HandleSetListener);
     (2, 12, IE_HandleSetListener); (2, 3, IE_HandleStart); (2, 13, IE_HandleSetParam); (2, 18, IE_HandleRelease);
     (3, 12, IE_HandleSetListener); (3, 9, IE_HandleRecognizingTimeout); (3, 5, IE_HandleEnrollComplete);
     (3, 18, IE_HandleRelease)] → Forall Q (actions_list (IE_make e)).
Proof. intros HQ. by rewrite implicit_table. Qed.
Lemma implicit_keeps e : handlers_keep ie_inv (IE_make e).
Proof.
  apply (good_table ie_inv IDLE RECOGNIZING); [apply implicit_states|]. apply implicit_handler.
  repeat (apply Forall_cons; split; [|]); [..|by apply Forall_nil]; cbn [fst snd].
  all: first [simple apply ie_good_listener; by split|simple apply ie_good_init|simple apply ie_good_start
    |simple apply ie_good_set_param|simple apply ie_good_release; by auto|simple apply ie_good_timeout|simple apply ie_good_complete].
Qed.
Lemma implicit_timeouts_to e : timeouts_to (IE_make e) IDLE IDLE.
Proof.
  unfold timeouts_to. rewrite implicit_timeouts. apply Forall_cons. split; [|by apply Forall_nil].
  split; [done|]. by intros h body e' [= <-].
Qed.
Lemma implicit_timeout e : timeout_to (IE_make e) RECOGNIZING IDLE.
Proof. apply (timeouts_to_timeout _ _ _ (implicit_timeouts_to e)). rewrite implicit_timeouts. do 2 eexists. by left. Qed.
Lemma implicit_target e : is_Some (states_ (IE_make e) !! IDLE).
Proof. apply implicit_states. by apply elem_of_seqZ. Qed.
Lemma implicit_good e : released e → good ie_inv (IE_make e) (IE_make e) [].
Proof.
  intros He. apply (good_fresh ie_inv (IE_make e) IDLE IDLE (implicit_timeouts_to e) (implicit_target e)
    (implicit_timers e) (implicit_no_timer e) (implicit_configured e) (implicit_curr e)). rewrite implicit_env. by intros _.
Qed.

(** ** Runs *)

(** What other parts of the service change: the HAL, the settings, the trigger manager, the
    tasks of the service but for the release of this engine, the clock. *)
Definition ie_world_change e e' : Prop :=
  (∃ w, own e' = own e <| im_hw := w |>) ∧
  (TReleaseEngine INTELL_VOICE_IMPLICIT_ENROLL ∈ tasks e → TReleaseEngine INTELL_VOICE_IMPLICIT_ENROLL ∈ tasks e').

(** Whether the mutex of the machine is free. *)
Definition mutex_free m : Prop := im_held (own (env m)) = false.
(** The HAL reports that it is ready. *)
Definition is_ready (ev : HdiEvent) : bool := (ev_msgId ev =? INTELL_VOICE_ENGINE_MSG_INIT_DONE) && (ev_result ev =? 0).

(** The steps with events of which [ok] holds: calls, which wait for the mutex; events;
    the threads that treat the reports of the initialisation; the executor; the timer
    thread, which waits for the mutex to deliver an event. *)
Inductive istep (ok : HdiEvent → Prop) : relation (Machine * list TimerMgr.TimerEvent) :=
| i_init now m fl b m' : mutex_free m → IE_Init now m = Some (b, m') → istep ok (m, fl) (m', fl)
| i_callback now object m fl m' : mutex_free m → IE_SetCallback now object m = Some m' → istep ok (m, fl) (m', fl)
| i_param now kv m fl m' : mutex_free m → IE_SetParameter now kv m = Some m' → istep ok (m, fl) (m', fl)
| i_detach m fl : istep ok (m, fl) ((with_env IE_Detach m).2, fl)
| i_event ev m fl : ok ev → istep ok (m, fl) ((with_env (IE_OnIntellVoiceHdiEvent ev) m).2, fl)
| i_started k created m fl : istep ok (m, fl) ((with_env (IE_InitDone k created) m).2, fl)
| i_exec now i m fl m' : IE_ExecuteInThread now i m = Some m' → istep ok (m, fl) (m', fl)
| i_thread x y : mutex_free x.1 → thread_step x y → istep ok x y
| i_world e m fl : ie_world_change (env m) e → istep ok (m, fl) (m <| env := e |>, fl).

Lemma with_env_seq {B C} (c : M B) (d : M C) m : (with_env d (with_env c m).2).2 = (with_env (_ ← c; d) m).2.
Proof. unfold with_env. rewrite bind_run. destruct (c (env m)) as [b e]. cbn. by destruct (d e). Qed.
Lemma env_with {B} (c : M B) m : env (with_env c m).2 = (c (env m)).2.
Proof. unfold with_env. by destruct (c (env m)). Qed.
Lemma curr_with {B} (c : M B) m : currState_ (with_env c m).2 = currState_ m.
Proof. unfold with_env. by destruct (c (env m)). Qed.

(** [m'] handles a message of [IE_Handle] in [m]. *)
Lemma IE_Handle_inv now msg m r m' :
  IE_Handle now msg m = Some (r, m') → m' = m ∨ HandleMsg now msg m = Some (r, m').
Proof. unfold IE_Handle. destruct (negb _); [intros [= _ <-]; by left|by right]. Qed.

Section keep.
Context (m0 : Machine) (Hk : handlers_keep ie_inv m0).
Abbreviation good m fl := (good ie_inv m0 m fl).

Lemma good_ie_handle now msg m fl r m' : good m fl → IE_Handle now msg m = Some (r, m') → good m' fl.
Proof. intros Hm [-> |Hr]%IE_Handle_inv; [done|by eapply (good_handle ie_inv m0 Hk)]. Qed.
Lemma good_ie_snd now msg m fl m' : good m fl → snd <$> IE_Handle now msg m = Some m' → good m' fl.
Proof.
  intros Hm Hs. destruct (IE_Handle _ _ _) as [[r m1]|] eqn:Hr; [|done]. apply (inj Some) in Hs. subst m'.
  by eapply good_ie_handle.
Qed.
Lemma good_ie_keeps {B} (c : M B) m fl : keeps_asks c → good m fl → good (with_env c m).2 fl.
Proof. intros Hc. apply good_keeping. intros s e He E1. eapply (released_framed e); [by apply (Hc (ie_asks e))|by apply He]. Qed.
Lemma good_ie_event ev m fl : good m fl → good (with_env (IE_OnIntellVoiceHdiEvent ev) m).2 fl.
Proof.
  apply good_ie_keeps. intros c. unfold IE_OnIntellVoiceHdiEvent, IE_OnEnrollEvent.
  assert (∀ t b, keeps_asks (ie_push t b)) by apply asks_push. keeps.
Qed.
Lemma good_ie_started k created m fl : good m fl → good (with_env (IE_InitDone k created) m).2 fl.
Proof.
  apply good_keeping. intros s. unfold IE_InitDone. intros e He. rewrite getc_bind.
  destruct (im_starting (own e) !! k) as [result|]; [|done]. rewrite bind_run. cbn [snd].
  destruct (result =? 0); cbn [negb]; [|intros _; apply ask_release].
  unfold IE_StartThread. intros E1. eapply (released_framed e); [|by apply He]. by destruct created.
Qed.
Lemma good_ie_work now w m fl next m' : good m fl → IE_work now w m = Some (next, m') → good m' fl.
Proof.
  intros Hm. destruct w as [t|result| | | | |]; cbn [IE_work].
  2-7: intros Hq%(inj Some); change m' with (next, m').2; rewrite <- Hq; by apply good_ie_keeps; [apply asks_save|].
  destruct t as [stage a b|param|result info|].
  - intros Hq%(inj Some). apply (f_equal snd) in Hq; cbn [snd] in Hq; subst m'. by apply good_ie_keeps; [apply asks_start|].
  - intros Hq%(inj Some). apply (f_equal snd) in Hq; cbn [snd] in Hq; subst m'. apply good_ie_keeps; [|done]. intros c. keeps.
  - unfold IE_OnEnrollComplete. destruct (IE_Handle _ _ _) as [[r m1]|] eqn:Hr; [|done]. intros Hq%(inj Some).
    apply (f_equal snd) in Hq; cbn [snd] in Hq; subst m'. by eapply good_ie_handle.
  - destruct (IE_Handle _ _ _) as [[r m1]|] eqn:Hr; [|done]. intros Hq%(inj Some). apply (f_equal snd) in Hq; cbn [snd] in Hq; subst m'.
    apply good_ie_keeps; [apply asks_modc; by intros []|]. by eapply good_ie_handle.
Qed.
Lemma good_ie_exec now i m fl m' : good m fl → IE_ExecuteInThread now i m = Some m' → good m' fl.
Proof.
  intros Hm. unfold IE_ExecuteInThread. destruct (im_threads _ !! i) as [[w|]|]; [| |by intros Hq%(inj Some); subst m'].
  - destruct (_ && _); [by intros Hq%(inj Some); subst m'|].
    destruct (IE_work now w m) as [[next m1]|] eqn:Hw; [|done]. intros Hq%(inj Some); subst m'.
    apply good_ie_keeps; [apply asks_modc; by intros []|]. by eapply good_ie_work.
  - destruct (im_tasks _) as [|t rest]; intros Hq%(inj Some); subst m'; [done|].
    apply good_ie_keeps; [apply asks_modc; by intros []|done].
Qed.
Lemma istep_good ok x y : istep ok x y → good x.1 x.2 → good y.1 y.2.
Proof.
  intros [now m fl b m' _ Hi| | | | | | | |e m fl [(w & Hown) Ht]] Hm; cbn [fst snd] in *.
  - unfold IE_Init in Hi. destruct (IE_Handle _ _ _) as [[r m1]|] eqn:Hr; [|done].
    apply (inj Some) in Hi. assert (m1 = m') as <- by congruence. eapply good_ie_handle; [|exact Hr].
    apply good_ie_keeps; [apply asks_modc; by intros []|done].
  - unfold IE_SetCallback in *. destruct object; [by eapply good_ie_snd|by simplify_eq].
  - unfold IE_SetParameter in *. destruct (SplitStringToKVPair _ _); [|by simplify_eq].
    destruct (param_msg _ _); [by eapply good_ie_snd|by simplify_eq].
  - apply good_ie_keeps; [apply asks_push|done].
  - by apply good_ie_event.
  - by apply good_ie_started.
  - by eapply good_ie_exec.
  - by eapply (good_thread ie_inv m0 Hk).
  - apply good_env; [done|]. intros cur Hi _ E1.
    destruct (Hi E1) as [?|?]; [left; by rewrite Hown|right; auto].
Qed.
End keep.

Lemma new_released ty w t d ts n : released (mkSys (new_implicit ty w) t d ts [] n).
Proof. by left. Qed.
Lemma ie_reachable_good ok e m fl :
  released e → rtc (istep ok) (IE_make e, []) (m, fl) → good ie_inv (IE_make e) m fl.
Proof. intros He Hr. exact (good_run _ _ _ _ _ (istep_good _ (implicit_keeps e) ok) Hr (implicit_good e He)). Qed.

(** ** The executor and the mutex *)

(** The work the executor has not finished: what its threads are at, and the tasks. *)
Definition pending e : list IeWork := omap id (im_threads (own e)) ++ (WTask <$> im_tasks (own e)).

(** What is counted over the threads and the tasks: the tasks that free the mutex, the
    calls of [Detach], the threads that do not wait for the mutex when it is held, and the
    steps there are still to do. *)
Definition is_clear (w : IeWork) : bool := match w with WTask (TClear _) => true | _ => false end.
Definition is_detach (w : IeWork) : bool := match w with WTask TDetach => true | _ => false end.
Definition count (f : IeWork → nat) e : nat := sum_list_with f (pending e).
Definition clears := count (λ w, Nat.b2n (is_clear w)).
Definition detaches := count (λ w, Nat.b2n (is_detach w)).
Definition slot_free (s : option IeWork) : nat := match s with Some w => Nat.b2n (negb (work_waits w)) | None => 1 end.
Definition free e : nat := sum_list_with slot_free (im_threads (own e)).
Definition steps_left (w : IeWork) : nat :=
  match w with
  | WTask (TComplete _ _) => 7 | WTask _ => 1
  | WReport _ => 6 | WModel => 5 | WVersion => 4 | WBundle => 3 | WAbility => 2 | WPhrase => 1
  end.
(** A task also has to be taken. *)
Definition load e : nat := (count steps_left e + length (im_tasks (own e)))%nat.

(** [k] threads that do not wait yet come to wait, all of them, before the task that frees
    the mutex is taken. *)
Fixpoint waits (k : nat) (l : list IeTask) : bool :=
  match l with
  | [] => false
  | t :: l => (k =? 0)%nat || negb (is_clear (WTask t)) && waits (if needs_mutex t then pred k else k) l
  end.
(** The executor waits for the mutex, or will, before it gets to the task that frees it. *)
Definition stuck e : bool :=
  im_held (own e) && negb (existsb (from_option is_clear false) (im_threads (own e))) && waits (free e) (im_tasks (own e)).

Lemma sum_app {B} (f : B → nat) l l' : sum_list_with f (l ++ l') = (sum_list_with f l + sum_list_with f l')%nat.
Proof. induction l as [|b l IH]; cbn; [done|]. rewrite IH. lia. Qed.
Lemma sum_insert {B} (f : B → nat) l i b c :
  l !! i = Some b → (sum_list_with f (<[i:=c]> l) + f b = sum_list_with f l + f c)%nat.
Proof.
  revert i. induction l as [|x l IH]; intros [|i] Hl; cbn in *; [done..| |].
  - injection Hl as ->. lia.
  - change (f x + sum_list_with f (<[i:=c]> l) + f b = f x + sum_list_with f l + f c)%nat. specialize (IH i Hl). lia.
Qed.
Lemma sum_ge {B} (f : B → nat) l i b : l !! i = Some b → (f b ≤ sum_list_with f l)%nat.
Proof.
  revert i. induction l as [|x l IH]; intros [|i] Hl; cbn in *; [done..| |].
  - injection Hl as ->. lia.
  - specialize (IH i Hl). lia.
Qed.
Lemma sum_slots {B} (f : B → nat) l : sum_list_with f (omap id l) = sum_list_with (from_option f 0%nat) l.
Proof. induction l as [|[b|] l IH]; cbn; [done|by rewrite IH|done]. Qed.
Lemma count_split f e :
  count f e = (sum_list_with (from_option f 0) (im_threads (own e)) + sum_list_with (λ t, f (WTask t)) (im_tasks (own e)))%nat.
Proof.
  unfold count, pending. rewrite sum_app, sum_slots. f_equal. induction (im_tasks (own e)) as [|t l IH]; cbn; [done|].
  by rewrite IH.
Qed.
Lemma waits_app k l l' : waits k l = true → waits k (l ++ l') = true.
Proof.
  revert k. induction l as [|t l IH]; intros k; cbn [waits app]; [done|].
  destruct (k =? 0)%nat; cbn [orb]; [done|]. intros [-> Hl]%andb_true_iff. by apply IH.
Qed.

(** The executor has only got more tasks. *)
Definition grows e e' : Prop :=
  im_threads (own e') = im_threads (own e) ∧ im_starting (own e') = im_starting (own e) ∧
  im_answers (own e') = im_answers (own e) ∧ ∃ l, im_tasks (own e') = im_tasks (own e) ++ l.
(** The mutex is as it was, or held by a call that waits for its task. *)
Definition held_ok e (cur next : Z) e' : Prop :=
  im_held (own e') = im_held (own e) ∨ (next = cur ∧ cur = INITIALIZED ∧ (0 < clears e')%nat).
Definition handler_ok (cur : Z) (h : Handler Body E) : Prop := ∀ msg e,
  let '(r, e') := h msg cur e in grows e e' ∧ held_ok e cur (hNext r) e'.

Lemma grows_refl e : grows e e.
Proof. split_and!; [done..|]. exists []. by rewrite app_nil_r. Qed.
Lemma grows_trans e1 e2 e3 : grows e1 e2 → grows e2 e3 → grows e1 e3.
Proof.
  intros (A1 & A2 & A3 & l & A4) (B1 & B2 & B3 & l' & B4). split_and!; [congruence..|].
  exists (l ++ l'). by rewrite B4, A4, app_assoc.
Qed.
Lemma quiet_grows e e' : ie_queue e' = ie_queue e → grows e e' ∧ im_held (own e') = im_held (own e).
Proof.
  unfold ie_queue. intros Hq. injection Hq as E1 E2 E3 E4 E5. split; [|done]. split_and!; [done..|].
  exists []. by rewrite app_nil_r.
Qed.
Lemma push_grows t w e : grows e (ie_push t w e).2 ∧ im_held (own (ie_push t w e).2) = im_held (own e).
Proof.
  unfold grows, ie_push, modc. run. cbn. destruct (_ || _); split_and!; try done; [by exists [t]|].
  exists []. by rewrite app_nil_r.
Qed.

Lemma quiet_ok cur h : quiet_handler h → handler_ok cur h.
Proof.
  intros Hq msg e. pose proof (Hq msg cur (ie_queue e) e eq_refl) as He. destruct (h msg cur e) as [r e'].
  destruct (quiet_grows e e' He) as [H1 H2]. split; [done|by left].
Qed.
Lemma ie_start_ok : handler_ok INITIALIZED IE_HandleStart.
Proof.
  intros msg e. unfold IE_HandleStart, ie_answer. destruct (inMsg msg) as [[]|];
    try (split; [apply grows_refl|by left]). rewrite bind_run. pose proof (ie_quiet_check s (ie_queue e) e eq_refl) as Hq.
  destruct (CheckParams s e) as [valid e1]. destruct (quiet_grows e e1 Hq) as [H1 H2]. cbn [fst snd].
  destruct valid; cbn [negb]; [|by split; [|left]].
  rewrite getc_bind, bind_run. unfold id. set (t := TStart _ _ _). destruct (push_grows t false e1) as [H3 H4].
  destruct (ie_push t false e1) as [u e2]. cbn in *. split; [by eapply grows_trans|left; congruence].
Qed.
Lemma ie_set_param_ok : handler_ok INITIALIZED IE_HandleSetParam.
Proof.
  intros msg e. unfold IE_HandleSetParam, ie_answer. destruct (inMsg msg) as [[]|]; try (split; [apply grows_refl|by left]).
  cbn. split; [split_and!; [done..|by eexists]|]. right. split_and!; [done..|].
  unfold clears. rewrite count_split. cbn. rewrite sum_app. cbn. lia.
Qed.

Section executor.
Context (e0 : E).
Abbreviation good m fl := (good ie_inv (IE_make e0) m fl).

Lemma implicit_ok : Forall (λ x, handler_ok x.1.1 x.2) (actions_list (IE_make e0)).
Proof.
  apply implicit_handler. repeat (apply Forall_cons; split; [|]); [..|by apply Forall_nil]; cbn [fst snd].
  all: first [simple apply ie_start_ok|simple apply ie_set_param_ok|apply quiet_ok].
  all: first [simple apply ie_quiet_init|simple apply ie_quiet_listener|simple apply ie_quiet_timeout
    |simple apply ie_quiet_handle_release|simple apply ie_quiet_complete].
Qed.
Definition handled m m' : Prop :=
  grows (env m) (env m') ∧
  (im_held (own (env m')) = im_held (own (env m)) ∨
   (currState_ m' = Some INITIALIZED ∧ (0 < clears (env m'))%nat)).
Lemma HandleMsg_handled now msg m fl r m' : good m fl → HandleMsg now msg m = Some (r, m') → handled m m'.
Proof.
  intros Hm Hr.
  destruct (gd_state _ _ _ _ Hm) as (cur & Hc & _).
  destruct (good_after ie_inv (IE_make e0) (λ s e, grows (env m) e ∧ held_ok (env m) INITIALIZED s e) now msg m fl cur r m')
    as (s & Hs & Hg & Hh); [done..|by split; [apply grows_refl|left]| |done|].
  - intros h Hin e ->. pose proof implicit_ok as Hall. rewrite Forall_forall in Hall. specialize (Hall _ Hin). cbn in Hall.
    specialize (Hall msg (env m)). destruct (h msg cur (env m)) as [hr e']. destruct Hall as [H1 H2].
    intros s Hs. cbn in Hs |- *. split; [done|]. destruct H2 as [H2|(E1 & E2 & H3)]; [by left|]. right.
    split_and!; [by destruct Hs as [-> | ->]; rewrite ?E1, E2|done|done].
  - split; [done|]. destruct Hh as [?|(-> & _ & ?)]; [by left|by right].
Qed.
Lemma IE_Handle_handled now msg m fl r m' : good m fl → IE_Handle now msg m = Some (r, m') → handled m m'.
Proof. intros Hm [-> |Hr]%IE_Handle_inv; [split; [apply grows_refl|by left]|by eapply HandleMsg_handled]. Qed.

(** While the mutex is held, the machine is in INITIALIZED and the task waited for is there. *)
Definition held_inv m : Prop :=
  im_held (own (env m)) = true → currState_ m = Some INITIALIZED ∧ (0 < clears (env m))%nat.
(** What a step that is not one of the executor does: more tasks and threads. *)
Definition calm e e' : Prop :=
  im_answers (own e') = im_answers (own e) ∧
  (∃ l, im_threads (own e') = im_threads (own e) ++ l ∧ Forall (λ s, s = None) l) ∧
  ∃ l, im_tasks (own e') = im_tasks (own e) ++ l.
(** No thread is made, nor will be, to run the executor. *)
Definition no_start e : Prop := 0 ∉ im_starting (own e).
Definition aside (ok : HdiEvent → Prop) m m' : Prop :=
  calm (env m) (env m') ∧
  ((∀ ev, ok ev → is_ready ev = false) → no_start (env m) →
     no_start (env m') ∧ im_threads (own (env m')) = im_threads (own (env m))) ∧
  ((im_held (own (env m')) = im_held (own (env m)) ∧ currState_ m' = currState_ m) ∨ (mutex_free m ∧ held_inv m')).

Lemma grows_calm e e' : grows e e' → calm e e'.
Proof. unfold calm. intros (-> & _ & -> & ?). split_and!; [done| |done]. exists []. by rewrite app_nil_r. Qed.
Lemma grows_no_start e e' : grows e e' → no_start e → no_start e' ∧ im_threads (own e') = im_threads (own e).
Proof. unfold no_start. intros (-> & -> & _). done. Qed.
Lemma aside_grows ok m m' :
  grows (env m) (env m') → im_held (own (env m')) = im_held (own (env m)) → currState_ m' = currState_ m → aside ok m m'.
Proof. intros Hg Hh Hc. split_and!; [by apply grows_calm|intros _; by apply grows_no_start|by left]. Qed.
Lemma aside_handle ok m1 m m' :
  handled m m' → mutex_free m → grows (env m1) (env m) → im_held (own (env m1)) = im_held (own (env m)) → aside ok m1 m'.
Proof.
  intros [H1 H2] Hf Hg Hh. pose proof (grows_trans _ _ _ Hg H1) as Hg'.
  split_and!; [by apply grows_calm|intros _; by apply grows_no_start|right].
  unfold mutex_free in *. split; [congruence|]. intros Ht. destruct H2 as [H2|H2]; [congruence|done].
Qed.
Lemma aside_snd ok now msg m fl m' :
  good m fl → mutex_free m → snd <$> IE_Handle now msg m = Some m' → aside ok m m'.
Proof.
  intros Hm Hf Hs. destruct (IE_Handle _ _ _) as [[r m1]|] eqn:Hr; [|done]. apply (inj Some) in Hs. subst m'.
  eapply aside_handle; [by eapply IE_Handle_handled|done|apply grows_refl|done].
Qed.
Lemma aside_env (ok : HdiEvent → Prop) {B} (c : M B) m :
  grows (env m) (c (env m)).2 → im_held (own (c (env m)).2) = im_held (own (env m)) → aside ok m (with_env c m).2.
Proof. intros Hg Hh. apply aside_grows; rewrite ?env_with, ?curr_with; done. Qed.
Lemma aside_refl ok m : aside ok m m.
Proof. apply aside_grows; [apply grows_refl|done..]. Qed.

(** An event of the HAL gives the executor a task, or a thread that is to start it. *)
Lemma event_run ev m :
  (with_env (IE_OnIntellVoiceHdiEvent ev) m).2 =
  (with_env (if im_listener (own (env m)) then IE_OnEnrollEvent ev else mret ()) m).2.
Proof.
  unfold with_env, IE_OnIntellVoiceHdiEvent. rewrite getc_bind. by destruct (im_listener (own (env m))).
Qed.
Lemma aside_event (ok : HdiEvent → Prop) ev m : ok ev → aside ok m (with_env (IE_OnIntellVoiceHdiEvent ev) m).2.
Proof.
  intros Hev. rewrite event_run. destruct (im_listener _); [|by apply aside_env; [apply grows_refl|]].
  unfold IE_OnEnrollEvent. destruct (ev_msgId ev =? INTELL_VOICE_ENGINE_MSG_INIT_DONE) eqn:Hi.
  - split_and!; [|intros Hok Hn|by left].
    + split_and!; [done|exists []; by rewrite app_nil_r|exists []; by rewrite app_nil_r].
    + split; [|done]. specialize (Hok ev Hev). unfold is_ready in Hok. rewrite Hi in Hok. cbn in Hok. apply Z.eqb_neq in Hok.
      unfold no_start in *. cbn. rewrite elem_of_app, list_elem_of_singleton. intros [?|?]; [done|lia].
  - destruct (ev_msgId ev =? INTELL_VOICE_ENGINE_MSG_ENROLL_COMPLETE); [apply aside_env; apply push_grows|by apply aside_env; [apply grows_refl|]].
Qed.
(** A thread that treats the report of the initialisation. *)
Lemma started_run k created m :
  (with_env (IE_InitDone k created) m).2 =
  (with_env (match im_starting (own (env m)) !! k with
             | None => mret ()
             | Some result =>
               _ ← modc (λ x, x <| im_starting := delete k (im_starting (own (env m))) |>);
               if negb (result =? 0) then ReleaseImplicitEnrollEngine else IE_StartThread created
             end) m).2.
Proof. unfold with_env, IE_InitDone. rewrite getc_bind. by destruct (im_starting (own (env m)) !! k). Qed.
Lemma aside_started ok k created m : aside ok m (with_env (IE_InitDone k created) m).2.
Proof.
  rewrite started_run. destruct (im_starting (own (env m)) !! k) as [result|] eqn:Hk; [|by apply aside_env; [apply grows_refl|]].
  assert (no_start (env m) → 0 ∉ delete k (im_starting (own (env m)))) as Hn.
  { intros Hn Hin. apply Hn. apply list_elem_of_lookup in Hin as [j Hj]. apply list_elem_of_lookup.
    destruct (decide (j < k)%nat); [exists j; by rewrite list_lookup_delete_lt in Hj|].
    exists (S j). rewrite list_lookup_delete_ge in Hj by lia. done. }
  unfold aside. rewrite env_with, curr_with, bind_run. cbn [snd].
  destruct (result =? 0) eqn:Hr; cbn [negb].
  - unfold IE_StartThread. split_and!; [| |left; by destruct created].
    + destruct created; (split_and!; [done|eexists; split; [cbn; symmetry; first [done|apply app_nil_r]|]|exists []; by rewrite app_nil_r]); by repeat constructor.
    + intros _ Hs. destruct Hs. apply Z.eqb_eq in Hr. subst. by eapply list_elem_of_lookup_2.
  - split_and!; [|intros _ Hs; split; [exact (Hn Hs)|done]|by left].
    split_and!; [done|exists []; by rewrite app_nil_r|exists []; by rewrite app_nil_r].
Qed.
Lemma istep_cases ok x y :
  istep ok x y → good x.1 x.2 → (∃ now i, IE_ExecuteInThread now i x.1 = Some y.1) ∨ aside ok x.1 y.1.
Proof.
  intros [now m fl b m' Hf Hi|now object m fl m' Hf Hs|now kv m fl m' Hf Hs|m fl|ev m fl Hev|k created m fl|now i m fl m' Hx|x0 y0 Hf Ht|e m fl [(w & Hown) Ht]] Hm;
    cbn [fst snd] in *.
  - right. unfold IE_Init in Hi. destruct (IE_Handle _ _ _) as [[r m1]|] eqn:Hr; [|done].
    apply (inj Some) in Hi. assert (m1 = m') as <- by congruence.
    eapply aside_handle; [eapply IE_Handle_handled, Hr|exact Hf|split_and!; [done..|exists []; by rewrite app_nil_r]|done].
    apply good_ie_keeps; [apply asks_modc; by intros []|exact Hm].
  - right. unfold IE_SetCallback in Hs. destruct object; [by eapply aside_snd|]. apply (inj Some) in Hs. subst. apply aside_refl.
  - right. unfold IE_SetParameter in Hs. destruct (SplitStringToKVPair _ _); [|apply (inj Some) in Hs; subst; apply aside_refl].
    destruct (param_msg _ _); [by eapply aside_snd|]. apply (inj Some) in Hs. subst. apply aside_refl.
  - right. apply aside_env; apply push_grows.
  - right. by apply aside_event.
  - right. apply aside_started.
  - left. by exists now, i.
  - right. destruct Ht as [now m fl ob info t Hr|now body info m fl fl' r m' Hr]; cbn [fst snd] in *; [apply aside_grows; [apply grows_refl|done..]|].
    unfold OnTimerEvent in Hr. eapply aside_handle; [by eapply HandleMsg_handled|done|apply grows_refl|done].
  - right. apply aside_grows; cbn; rewrite ?Hown; [|done..]. split_and!; cbn; rewrite ?Hown; [done..|].
    exists []. by rewrite app_nil_r.
Qed.

(** *** The work *)

(** The messages of the executor give it no tasks. *)
Lemma handle_quiet now mid body m fl r m' :
  mid = RECOGNIZE_COMPLETE ∨ mid = RELEASE → good m fl → IE_Handle now (mkStateMsg mid body) m = Some (r, m') →
  ie_queue (env m') = ie_queue (env m).
Proof.
  intros Hmid Hm [-> |Hr]%IE_Handle_inv; [done|]. destruct (gd_state _ _ _ _ Hm) as (cur & Hc & _).
  destruct (good_after ie_inv (IE_make e0) (λ _ e, ie_queue e = ie_queue (env m)) now (mkStateMsg mid body) m fl cur r m') as (s & _ & Hs);
    [done..| |done|exact Hs].
  intros h Hin e ->. cut (quiet_handler h); [intros Hq s _; by apply (Hq _ _ (ie_queue (env m)))|].
  assert (Forall (λ x : Z * Z * Handler Body E, x.1.2 = RECOGNIZE_COMPLETE ∨ x.1.2 = RELEASE → quiet_handler x.2)
            (actions_list (IE_make e0))) as Hall.
  { apply implicit_handler. repeat (apply Forall_cons; split; [|]); [..|by apply Forall_nil]; cbn [fst snd];
      try (by intros [?|?]); intros _; first [simple apply ie_quiet_handle_release|simple apply ie_quiet_complete]. }
  rewrite Forall_forall in Hall. exact (Hall _ Hin Hmid).
Qed.
Lemma handle_total now msg m fl : good m fl → ∃ r m', IE_Handle now msg m = Some (r, m').
Proof.
  intros Hm. unfold IE_Handle. destruct (negb _); [by do 2 eexists|].
  destruct (HandleMsg_total now msg m) as (r & m' & Hr & _); [apply Hm|]. by do 2 eexists.
Qed.

(** What a step of [w] leaves of the queue, and what comes after it. *)
Record after_work (w : IeWork) (next : option IeWork) e e' : Prop := {
  aw_tasks : im_tasks (own e') = im_tasks (own e);
  aw_threads : im_threads (own e') = im_threads (own e);
  aw_starting : im_starting (own e') = im_starting (own e);
  aw_held : im_held (own e') = (if is_clear w then false else im_held (own e));
  aw_answers : ∃ l, im_answers (own e') = im_answers (own e) ++ l ∧ length l = Nat.b2n (is_detach w);
  aw_less : (from_option steps_left 0 next < steps_left w)%nat;
  aw_next : ∀ w', next = Some w' → is_clear w' = false ∧ is_detach w' = false ∧ work_waits w' = false }.
Lemma after_quiet w next e e' :
  is_clear w = false → is_detach w = false → ie_queue e' = ie_queue e → (from_option steps_left 0 next < steps_left w)%nat →
  (∀ w', next = Some w' → is_clear w' = false ∧ is_detach w' = false ∧ work_waits w' = false) → after_work w next e e'.
Proof.
  unfold ie_queue. intros Hc Hd Hq Hl Hn. injection Hq as E1 E2 E3 E4 E5. constructor; rewrite ?Hc, ?Hd; try done.
  exists []. by rewrite app_nil_r.
Qed.
Lemma save_next w e : is_clear w = false → is_detach w = false → work_waits w = false → (∀ t, w ≠ WTask t) →
  after_work w (IE_save w e).1 e (IE_save w e).2.
Proof.
  intros Hc Hd Hw Ht. apply after_quiet; [done..|by apply (ie_quiet_save w (ie_queue e) e)| |];
    (destruct w as [t|result| | | | |]; [by destruct (Ht t)|..]); unfold IE_save; rewrite getc_bind; unfold id;
    try (destruct (bool_decide _); cbn [negb]; [rewrite bind_run; destruct (_ =? _)|]); rewrite ?bind_run; cbn;
    rewrite ?bind_run; cbn; first [lia|by intros w' [= <-]|done].
Qed.
Lemma work_done now w m fl :
  good m fl → ∃ next m', IE_work now w m = Some (next, m') ∧ after_work w next (env m) (env m') ∧
    (work_waits w = false → currState_ m' = currState_ m).
Proof.
  intros Hm. assert (∀ w, (∀ t, w ≠ WTask t) → ∃ next m', Some (with_env (IE_save w) m) = Some (next, m') ∧
    after_work w next (env m) (env m') ∧ (work_waits w = false → currState_ m' = currState_ m)) as Hs.
  { intros w' Ht. assert (is_clear w' = false ∧ is_detach w' = false ∧ work_waits w' = false) as (H1 & H2 & H3)
      by (destruct w' as [t| | | | | |]; [by destruct (Ht t)|done..]).
    pose proof (save_next w' (env m) H1 H2 H3 Ht) as Ha. unfold with_env. destruct (IE_save w' (env m)) as [next e'].
    do 2 eexists. split; [done|]. cbn in *. done. }
  destruct w as [t|result| | | | |]; [|by apply Hs..]. clear Hs. destruct t as [stage a b|param|result info|]; cbn [IE_work].
  - do 2 eexists. split; [done|]. rewrite env_with, curr_with. split; [|done].
    apply after_quiet; [done|done|by apply ie_quiet_start|cbn; lia|done].
  - do 2 eexists. split; [done|]. rewrite env_with, curr_with, bind_run. split; [|done].
    pose proof (ie_quiet_util (SetParameter param) (ie_queue (env m)) (env m) eq_refl) as Hq. cbv beta in Hq. unfold ie_queue in Hq.
    destruct (on_util _ (env m)) as [u e1]. cbn in Hq |- *. injection Hq as E1 E2 E3 E4 E5.
    constructor; cbn; try done; [|lia]. exists []. by rewrite app_nil_r, E5.
  - unfold IE_OnEnrollComplete. destruct (handle_total now (mkStateMsg RECOGNIZE_COMPLETE
      (Some (BEvent (mkEvent INTELL_VOICE_ENGINE_MSG_ENROLL_COMPLETE result info)))) m fl Hm) as (r & m1 & Hr).
    rewrite Hr. do 2 eexists. split; [done|]. split; [|done]. apply after_quiet; [done|done| |cbn; lia|by intros w' [= <-]].
    exact (handle_quiet _ _ _ _ _ _ _ (or_introl eq_refl) Hm Hr).
  - destruct (handle_total now (mkStateMsg RELEASE None) m fl Hm) as (r & m1 & Hr). rewrite Hr. do 2 eexists. split; [done|]. split; [|done].
    pose proof (handle_quiet _ _ _ _ _ _ _ (or_intror eq_refl) Hm Hr) as Hq. unfold ie_queue in Hq. injection Hq as E1 E2 E3 E4 E5.
    constructor; cbn; try done; [|lia]. exists [r]. by rewrite E5.
Qed.

(** A step of the [i]th thread of the executor: nothing, when there is none, no task for it
    or it waits for the mutex; a step of its work; or it takes a task. *)
Inductive exec_effect (i : nat) m m' : Prop :=
| exec_idle (Ht : im_threads (own (env m)) !! i = None ∨
     (∃ w, im_threads (own (env m)) !! i = Some (Some w) ∧ im_held (own (env m)) = true ∧ work_waits w = true) ∨
     (im_threads (own (env m)) !! i = Some None ∧ im_tasks (own (env m)) = []))
    (He : m' = m)
| exec_work w next (Ht : im_threads (own (env m)) !! i = Some (Some w))
    (Hw : im_held (own (env m)) && work_waits w = false)
    (Ha : after_work w next (env m <| own ::= λ x, x <| im_threads ::= <[i := next]> |> |>) (env m'))
    (Hc : work_waits w = false → currState_ m' = currState_ m)
| exec_take t rest (Ht : im_threads (own (env m)) !! i = Some None) (Hr : im_tasks (own (env m)) = t :: rest)
    (Hc : currState_ m' = currState_ m)
    (He : env m' = env m <| own ::= λ x, x <| im_threads ::= <[i := Some (WTask t)]> |> <| im_tasks := rest |> |>).
Lemma exec_step_effect now i m fl : good m fl → ∃ m', IE_ExecuteInThread now i m = Some m' ∧ exec_effect i m m'.
Proof.
  intros Hm. unfold IE_ExecuteInThread. destruct (im_threads (own (env m)) !! i) as [[w|]|] eqn:Ht.
  - destruct (im_held (own (env m)) && work_waits w) eqn:Hw.
    { exists m. split; [done|]. apply exec_idle; [|done]. right. left. exists w. by apply andb_true_iff in Hw as [-> ->]. }
    destruct (work_done now w m fl Hm) as (next & m1 & -> & [A1 A2 A3 A4 A5 A6 A7] & Hc). cbn [mbind option_bind].
    eexists. split; [done|]. apply (exec_work i _ _ w next); [done|done| |by rewrite curr_with]. rewrite env_with.
    constructor; cbn; rewrite ?A2; done.
  - destruct (im_tasks (own (env m))) as [|t rest] eqn:Hr.
    + exists m. split; [done|]. apply exec_idle; [|done]. right. by right.
    + eexists. split; [done|]. by apply (exec_take i _ _ t rest).
  - exists m. split; [done|]. apply exec_idle; [by left|done].
Qed.
Lemma exec_effect_of now i m fl m' : good m fl → IE_ExecuteInThread now i m = Some m' → exec_effect i m m'.
Proof. intros Hm Hx. destruct (exec_step_effect now i m fl Hm) as (m2 & Hx2 & He). congruence. Qed.

(** What is counted, after such a step. *)
Lemma count_work f i w next e e' :
  im_threads (own e) !! i = Some (Some w) → im_threads (own e') = <[i := next]> (im_threads (own e)) →
  im_tasks (own e') = im_tasks (own e) → (count f e' + f w = count f e + from_option f 0 next)%nat.
Proof.
  intros Hi Ht Hq. rewrite !count_split, Ht, Hq. pose proof (sum_insert (from_option f 0%nat) _ _ _ next Hi) as Hs.
  cbn [from_option] in Hs. lia.
Qed.
Lemma count_take f i t rest e e' :
  im_threads (own e) !! i = Some None → im_tasks (own e) = t :: rest →
  im_threads (own e') = <[i := Some (WTask t)]> (im_threads (own e)) → im_tasks (own e') = rest → count f e' = count f e.
Proof.
  intros Hi Hr Ht Hq. rewrite !count_split, Ht, Hq, Hr. pose proof (sum_insert (from_option f 0%nat) _ _ _ (Some (WTask t)) Hi) as Hs.
  cbn [from_option sum_list_with] in *. lia.
Qed.

(** *** The mutex *)

Lemma exec_held now i m fl m' : good m fl → held_inv m → IE_ExecuteInThread now i m = Some m' → held_inv m'.
Proof.
  intros Hm Hh Hx. destruct (exec_effect_of now i m fl m' Hm Hx) as [_ ->|w next Ht Hw [A1 A2 A3 A4 A5 A6 A7] Hc|t rest Ht Hr Hc He]; [done| |].
  - cbn in A1, A2, A4. intros H2. rewrite H2 in A4. destruct (is_clear w) eqn:Hcl; [done|]. destruct (Hh (eq_sym A4)) as [H3 H4].
    rewrite <- A4 in Hw. cbn [andb] in Hw. split; [by rewrite Hc|].
    pose proof (count_work (λ w, Nat.b2n (is_clear w)) i w next (env m) (env m') Ht A2 A1) as Hn. cbn beta in Hn. rewrite Hcl in Hn.
    unfold clears in *. cbn [Nat.b2n] in Hn. lia.
  - intros H2. rewrite He in H2. destruct (Hh H2) as [H3 H4]. split; [by rewrite Hc|]. unfold clears.
    erewrite (count_take _ i t rest (env m)); [exact H4|done|done|by rewrite He..].
Qed.
Lemma calm_count f e e' : calm e e' → (count f e ≤ count f e')%nat.
Proof.
  intros (_ & (l & Ht & _) & l' & Hq). rewrite !count_split, Ht, Hq, !sum_app. lia.
Qed.
Lemma held_step ok x y : istep ok x y → good x.1 x.2 → held_inv x.1 → held_inv y.1.
Proof.
  intros Hxy Hm Hh. destruct (istep_cases ok x y Hxy Hm) as [(now & i & Hx)|(Hc & _ & [[H1 H2]|[_ H3]])]; [by eapply exec_held| |done].
  intros Ht. rewrite H1 in Ht. destruct (Hh Ht) as [H3 H4]. rewrite H2. split; [done|].
  pose proof (calm_count (λ w, Nat.b2n (is_clear w)) _ _ Hc). unfold clears in *. lia.
Qed.

Lemma held_run ok x y : rtc (istep ok) x y → good x.1 x.2 → held_inv x.1 → held_inv y.1.
Proof.
  induction 1 as [x|x y z Hxy _ IH]; [done|]. intros Hm Hh.
  apply IH; [by apply (istep_good _ (implicit_keeps e0) ok x)|by apply (held_step ok x y)].
Qed.

(** *** An executor that gets on *)

(** A step of the executor that does something. *)
Definition IE_can e (i : nat) : Prop :=
  match im_threads (own e) !! i with
  | None => False
  | Some (Some w) => im_held (own e) && work_waits w = false
  | Some None => im_tasks (own e) ≠ []
  end.
Definition exec_step m m' : Prop := ∃ now i, IE_can (env m) i ∧ IE_ExecuteInThread now i m = Some m'.
(** Whichever of its threads goes on, and whenever, the executor comes to rest within [n]
    steps, in a state of [P]. *)
Inductive settles (P : Machine → Prop) : nat → Machine → Prop :=
| settled n m (Hn : ∀ m', ¬ exec_step m m') (HP : P m) : settles P n m
| settling n m m' (Hm : exec_step m m') (Hs : ∀ m', exec_step m m' → settles P n m') : settles P (S n) m.
(** The executor gets to its end. *)
Definition finished m m' : Prop :=
  pending (env m') = [] ∧ mutex_free m' ∧
  ∃ l, im_answers (own (env m')) = im_answers (own (env m)) ++ l ∧ length l = detaches (env m).

Lemma existsb_slot (f : IeWork → bool) l :
  existsb (from_option f false) l = negb (sum_list_with (from_option (λ w, Nat.b2n (f w)) 0%nat) l =? 0)%nat.
Proof. induction l as [|[w|] l IH]; cbn; [done| |done]. rewrite IH. by destruct (f w). Qed.
Lemma stuck_spec e :
  stuck e = true ↔ im_held (own e) = true ∧
    sum_list_with (from_option (λ w, Nat.b2n (is_clear w)) 0%nat) (im_threads (own e)) = 0%nat ∧
    waits (free e) (im_tasks (own e)) = true.
Proof.
  unfold stuck. rewrite !andb_true_iff, negb_true_iff, existsb_slot, negb_false_iff, Nat.eqb_eq. tauto.
Qed.
Lemma stuck_same e e' : im_held (own e') = im_held (own e) → im_threads (own e') = im_threads (own e) →
  im_tasks (own e') = im_tasks (own e) → stuck e' = stuck e.
Proof. intros H1 H2 H3. unfold stuck, free. by rewrite H1, H2, H3. Qed.
(** The executor does not change whether it is stuck. *)
Lemma exec_stuck now i m fl m' : good m fl → IE_ExecuteInThread now i m = Some m' → stuck (env m') = true → stuck (env m) = true.
Proof.
  intros Hm Hx. rewrite !stuck_spec.
  destruct (exec_effect_of now i m fl m' Hm Hx) as [_ ->|w next Ht Hw [A1 A2 A3 A4 A5 A6 A7] Hc|t rest Ht Hr Hc He]; [done| |].
  - cbn in A1, A2, A4. unfold free. rewrite A1, A2, A4. intros (H1 & H2 & H3). destruct (is_clear w) eqn:Hcl; [done|].
    rewrite H1 in Hw |- *. cbn [andb] in Hw. pose proof (sum_insert (from_option (λ w, Nat.b2n (is_clear w)) 0%nat) _ _ _ next Ht) as Hs.
    pose proof (sum_insert slot_free _ _ _ next Ht) as Hf. cbn [from_option slot_free] in Hs, Hf. rewrite Hcl in Hs. rewrite Hw in Hf. cbn [Nat.b2n negb] in Hs, Hf.
    assert (slot_free next = 1%nat) as E1 by (destruct next as [w'|]; [|done]; cbn; by destruct (A7 w' eq_refl) as (_ & _ & ->)).
    split_and!; [done|lia|]. by replace (sum_list_with slot_free (im_threads (own (env m)))) with
      (sum_list_with slot_free (<[i:=next]> (im_threads (own (env m))))) by lia.
  - unfold free. rewrite He. cbn. rewrite Hr. intros (H1 & H2 & H3).
    pose proof (sum_insert (from_option (λ w, Nat.b2n (is_clear w)) 0%nat) _ _ _ (Some (WTask t)) Ht) as Hs.
    pose proof (sum_insert slot_free _ _ _ (Some (WTask t)) Ht) as Hf. cbn [from_option slot_free work_waits] in Hs, Hf.
    destruct (is_clear (WTask t)) eqn:Hcl; [cbn [Nat.b2n] in Hs; lia|]. split_and!; [done|cbn [Nat.b2n] in Hs; lia|].
    cbn [waits]. rewrite Hcl. apply orb_true_iff. right. cbn [negb andb]. rewrite <- H3. f_equal.
    destruct (needs_mutex t); cbn [negb Nat.b2n] in Hf; lia.
Qed.

(** As long as there is work, and the executor is not stuck, some thread can go on. *)
Lemma exec_can m : held_inv m → im_threads (own (env m)) ≠ [] → stuck (env m) = false → pending (env m) ≠ [] →
  ∃ i, IE_can (env m) i.
Proof.
  intros Hh Ht Hs Hp. apply not_true_iff_false in Hs. rewrite stuck_spec in Hs. unfold IE_can.
  destruct (im_held (own (env m))) eqn:Hhe.
  - destruct (Hh Hhe) as [_ Hcl]. unfold clears in Hcl. rewrite count_split in Hcl.
    destruct (decide (sum_list_with (from_option (λ w, Nat.b2n (is_clear w)) 0%nat) (im_threads (own (env m))) = 0%nat)) as [Hz|Hz].
    + destruct (im_tasks (own (env m))) as [|t rest] eqn:Hq; [cbn in Hcl; lia|].
      destruct (free (env m)) as [|k] eqn:Hf; [destruct Hs; by split_and!; rewrite ?Hf|].
      assert (∃ i s, im_threads (own (env m)) !! i = Some s ∧ slot_free s ≠ 0%nat) as (i & s & Hi & Hsf).
      { unfold free in Hf. clear -Hf. induction (im_threads (own (env m))) as [|s l IH]; [done|].
        destruct (slot_free s) eqn:Hs; [|exists 0%nat, s; by split; [|rewrite Hs]].
        cbn in Hf. rewrite Hs in Hf. destruct (IH Hf) as (i & s' & ? & ?). by exists (S i), s'. }
      exists i. rewrite Hi. destruct s as [w|]; [|done]. cbn in Hsf. by destruct (work_waits w).
    + assert (∃ i w, im_threads (own (env m)) !! i = Some (Some w) ∧ is_clear w = true) as (i & w & Hi & Hw).
      { clear -Hz. induction (im_threads (own (env m))) as [|s l IH]; [done|]. destruct s as [w|].
        - destruct (is_clear w) eqn:Hw; [by exists 0%nat, w|]. cbn in Hz. rewrite Hw in Hz. destruct (IH Hz) as (i & w' & ? & ?). by exists (S i), w'.
        - destruct (IH Hz) as (i & w' & ? & ?). by exists (S i), w'. }
      exists i. rewrite Hi. by destruct w as [[]| | | | | |].
  - unfold pending in Hp. destruct (im_threads (own (env m))) as [|s l] eqn:Hl; [done|].
    destruct (im_tasks (own (env m))) as [|t rest] eqn:Hq.
    + assert (∃ i w, (s :: l) !! i = Some (Some w)) as (i & w & Hi).
      { clear -Hp. rewrite app_nil_r in Hp. induction (s :: l) as [|[w|] l' IH]; [done|by exists 0%nat, w|].
        destruct (IH Hp) as (i & w & ?). by exists (S i), w. }
      exists i. by rewrite Hi.
    + exists 0%nat. cbn. by destruct s.
Qed.
Lemma nothing_pending m m' : pending (env m) = [] → ¬ exec_step m m'.
Proof.
  intros [Ht Hq]%app_eq_nil (now & i & Hc & _). unfold IE_can in Hc.
  destruct (im_threads (own (env m)) !! i) as [[w|]|] eqn:Hi; [| |done].
  - assert (w ∈ omap id (im_threads (own (env m)))) as Hw; [|rewrite Ht in Hw; by apply not_elem_of_nil in Hw].
    apply list_elem_of_omap. exists (Some w). split; [by eapply list_elem_of_lookup_2|done].
  - by apply fmap_nil_inv in Hq.
Qed.
Lemma steps_left_pos w : (0 < steps_left w)%nat.
Proof. destruct w as [[]| | | | | |]; cbn; lia. Qed.
Lemma load_pos e : pending e ≠ [] → (0 < load e)%nat.
Proof.
  unfold load, count. destruct (pending e) as [|w l]; [done|]. intros _. cbn. pose proof (steps_left_pos w). lia.
Qed.
Lemma load_bound e : (load e ≤ 8 * length (pending e))%nat.
Proof.
  unfold load, count, pending. rewrite sum_app, length_app, length_fmap.
  assert (∀ l, (sum_list_with steps_left l ≤ 8 * length l)%nat) as H1
    by (induction l as [|w l IH]; cbn; [lia|]; destruct w as [[]| | | | | |]; cbn in *; lia).
  assert (∀ l, (sum_list_with steps_left (WTask <$> l) + length l ≤ 8 * length l)%nat) as H2
    by (induction l as [|w l IH]; cbn; [lia|]; destruct w; cbn in *; lia).
  specialize (H1 (omap id (im_threads (own e)))). specialize (H2 (im_tasks (own e))). lia.
Qed.
(** Every step of the executor leaves it less to do, and answers what it takes off. *)
Lemma exec_progress now i m fl m' :
  good m fl → IE_can (env m) i → IE_ExecuteInThread now i m = Some m' →
  (load (env m') < load (env m))%nat ∧
  length (im_threads (own (env m'))) = length (im_threads (own (env m))) ∧
  ∃ l, im_answers (own (env m')) = im_answers (own (env m)) ++ l ∧ (length l + detaches (env m') = detaches (env m))%nat.
Proof.
  intros Hm Hc Hx. unfold load, detaches.
  destruct (exec_effect_of now i m fl m' Hm Hx) as [Hi _|w next Ht Hw [A1 A2 A3 A4 A5 A6 A7] _|t rest Ht Hr _ He].
  - unfold IE_can in Hc. destruct Hi as [Hi|[(w & Hi & H1 & H2)|[Hi H1]]]; rewrite Hi in Hc; [done|by rewrite H1, H2 in Hc|done].
  - cbn in A1, A2, A5. rewrite A1, A2. pose proof (count_work steps_left i w next (env m) (env m') Ht A2 A1) as H1.
    pose proof (count_work (λ w, Nat.b2n (is_detach w)) i w next (env m) (env m') Ht A2 A1) as H2. cbn beta in H2.
    split_and!; [lia|by rewrite length_insert|]. destruct A5 as (l & Ha & Hl). exists l. split; [done|].
    assert (from_option (λ w, Nat.b2n (is_detach w)) 0%nat next = 0%nat) as E1
      by (destruct next as [w'|]; [|done]; cbn; by destruct (A7 w' eq_refl) as (_ & -> & _)). lia.
  - assert (im_threads (own (env m')) = <[i:=Some (WTask t)]> (im_threads (own (env m)))) as E1 by (by rewrite He).
    assert (im_tasks (own (env m')) = rest) as E2 by (by rewrite He).
    rewrite !(count_take _ i t rest (env m) (env m') Ht Hr E1 E2), E1, E2, Hr, length_insert. split_and!; [cbn; lia|done|].
    exists []. rewrite app_nil_r, He. done.
Qed.
Lemma settle n base total m fl l :
  good m fl → held_inv m → im_threads (own (env m)) ≠ [] → stuck (env m) = false → (load (env m) ≤ n)%nat →
  im_answers (own (env m)) = base ++ l → (length l + detaches (env m) = total)%nat →
  settles (λ m', pending (env m') = [] ∧ mutex_free m' ∧ ∃ l, im_answers (own (env m')) = base ++ l ∧ length l = total) n m.
Proof.
  revert m l. induction n as [|n IH]; intros m l Hm Hh Ht Hs Hn Ha Hl.
  all: destruct (decide (pending (env m) = [])) as [Hp|Hp].
  1, 3: apply settled; [intros m'; by apply nothing_pending|split_and!; [done| |exists l; split; [done|]]].
  1, 3: unfold mutex_free; apply not_true_iff_false; intros Hhe; destruct (Hh Hhe) as [_ Hc]; unfold clears, count in Hc; rewrite Hp in Hc; cbn in Hc; lia.
  1, 2: unfold detaches, count in Hl; rewrite Hp in Hl; cbn in Hl; lia.
  1: pose proof (load_pos _ Hp); lia.
  destruct (exec_can m Hh Ht Hs Hp) as [i Hi]. destruct (exec_step_effect 0 i m fl Hm) as (m1 & Hx & _).
  eapply settling; [by exists 0, i|]. intros m' (now & j & Hj & Hxj).
  destruct (exec_progress now j m fl m' Hm Hj Hxj) as (H1 & H2 & l' & H3 & H4).
  apply (IH m' (l ++ l')).
  - exact (good_ie_exec _ (implicit_keeps e0) _ _ _ _ _ Hm Hxj).
  - exact (exec_held _ _ _ _ _ Hm Hh Hxj).
  - intros E1. rewrite E1 in H2. by destruct (im_threads (own (env m))).
  - apply not_true_iff_false. intros E1. by rewrite (exec_stuck now j m fl m' Hm Hxj E1) in Hs.
  - lia.
  - by rewrite H3, Ha, app_assoc.
  - rewrite length_app. lia.
Qed.

(** An executor that is stuck stays stuck while no thread is added. *)
Lemma stuck_step x y : istep (λ ev, is_ready ev = false) x y → good x.1 x.2 → no_start (env x.1) → stuck (env x.1) = true →
  no_start (env y.1) ∧ stuck (env y.1) = true ∧ im_answers (own (env y.1)) = im_answers (own (env x.1)) ∧ currState_ y.1 = currState_ x.1.
Proof.
  intros Hxy Hm Hn Hs. pose proof Hs as (Hh & Hz & Hw)%stuck_spec.
  destruct (istep_cases _ x y Hxy Hm) as [(now & i & Hx)|(Hc & Ht & [[H1 H2]|[H3 _]])].
  - destruct (exec_effect_of now i x.1 x.2 y.1 Hm Hx) as [_ He|w next Ht Hb [A1 A2 A3 A4 A5 A6 A7] Hc|t rest Ht Hr Hc He].
    + rewrite He. done.
    + cbn in A1, A2, A3, A4, A5. rewrite Hh in Hb, A4. cbn [andb] in Hb.
      pose proof (sum_insert (from_option (λ w, Nat.b2n (is_clear w)) 0%nat) _ _ _ next Ht) as Hsu. cbn [from_option] in Hsu.
      assert (is_clear w = false) as Hcl.
      { pose proof (sum_ge (from_option (λ w, Nat.b2n (is_clear w)) 0%nat) _ _ _ Ht) as Hge. cbn in Hge.
        destruct (is_clear w); cbn in Hge; [lia|done]. }
      rewrite Hcl in A4, Hsu. assert (is_detach w = false) as Hd by (by destruct w as [[]| | | | | |]).
      destruct A5 as (l & Ha & Hl). rewrite Hd in Hl. destruct l; [|done]. rewrite app_nil_r in Ha.
      assert (from_option (λ w, Nat.b2n (is_clear w)) 0%nat next = 0%nat) as E1
        by (destruct next as [w'|]; [|done]; cbn; by destruct (A7 w' eq_refl) as (-> & _ & _)).
      assert (slot_free next = 1%nat) as E2 by (destruct next as [w'|]; [|done]; cbn; by destruct (A7 w' eq_refl) as (_ & _ & ->)).
      pose proof (sum_insert slot_free _ _ _ next Ht) as Hf. cbn [slot_free] in Hf. rewrite Hb, E2 in Hf. cbn [negb Nat.b2n] in Hf, Hsu.
      split_and!; [unfold no_start; by rewrite A3| |done|by rewrite Hc].
      rewrite stuck_spec. unfold free. rewrite A1, A2, A4. split_and!; [done|lia|].
      by replace (sum_list_with slot_free (<[i:=next]> _)) with (free (env x.1)) by (unfold free; lia).
    + assert (stuck (env y.1) = true) as Hs'; [|by rewrite He in Hs' |- *].
      rewrite stuck_spec. unfold free. rewrite He. cbn. rewrite Hr in Hw. cbn [waits] in Hw.
      pose proof (sum_insert (from_option (λ w, Nat.b2n (is_clear w)) 0%nat) _ _ _ (Some (WTask t)) Ht) as Hsu.
      pose proof (sum_insert slot_free _ _ _ (Some (WTask t)) Ht) as Hf. cbn [from_option slot_free work_waits] in Hsu, Hf.
      assert ((free (env x.1) =? 0)%nat = false) as Hk by (apply Nat.eqb_neq; pose proof (sum_ge slot_free _ _ _ Ht) as Hge; cbn in Hge; unfold free; lia). rewrite Hk in Hw. cbn [orb] in Hw.
      apply andb_true_iff in Hw as [Hcl Hw]. apply negb_true_iff in Hcl. rewrite Hcl in Hsu. cbn [Nat.b2n] in Hsu.
      split_and!; [done|lia|]. rewrite <- Hw. f_equal. unfold free. destruct (needs_mutex t); cbn [negb Nat.b2n] in Hf; lia.
  - destruct (Ht (λ ev, id) Hn) as [H3 H4]. destruct Hc as (Ha & _ & l & Hq). split_and!; [done| |done|done].
    rewrite stuck_spec. unfold free. rewrite H1, H4, Hq. split_and!; [done|done|]. by apply waits_app.
  - unfold mutex_free in H3. congruence.
Qed.
Lemma stuck_run x y : rtc (istep (λ ev, is_ready ev = false)) x y → good x.1 x.2 → no_start (env x.1) → stuck (env x.1) = true →
  stuck (env y.1) = true ∧ im_answers (own (env y.1)) = im_answers (own (env x.1)) ∧ currState_ y.1 = currState_ x.1.
Proof.
  induction 1 as [x|x z y Hxz _ IH]; [done|]. intros Hm Hn Hs.
  destruct (stuck_step x z Hxz Hm Hn Hs) as (H0 & H1 & H2 & H3).
  destruct IH as (H4 & H5 & H6); [by apply (istep_good _ (implicit_keeps e0) (λ ev, is_ready ev = false) x)|done..|]. split_and!; [done|congruence..].
Qed.

(** An executor without threads does nothing. *)
Lemma idle_step x y : istep (λ ev, is_ready ev = false) x y → good x.1 x.2 → no_start (env x.1) → im_threads (own (env x.1)) = [] →
  no_start (env y.1) ∧ im_threads (own (env y.1)) = [] ∧ im_answers (own (env y.1)) = im_answers (own (env x.1)) ∧
  ∃ l, im_tasks (own (env y.1)) = im_tasks (own (env x.1)) ++ l.
Proof.
  intros Hxy Hm Hn Hr. destruct (istep_cases _ x y Hxy Hm) as [(now & i & Hx)|((Ha & _ & Hl) & Ht & _)].
  - unfold IE_ExecuteInThread in Hx. rewrite Hr in Hx. cbn in Hx. apply (inj Some) in Hx. rewrite <- Hx.
    split_and!; [done..|]. exists []. by rewrite app_nil_r.
  - destruct (Ht (λ ev, id) Hn) as [H1 H2]. by rewrite H2.
Qed.
Lemma idle_run x y : rtc (istep (λ ev, is_ready ev = false)) x y → good x.1 x.2 → no_start (env x.1) → im_threads (own (env x.1)) = [] →
  no_start (env y.1) ∧ im_threads (own (env y.1)) = [] ∧ im_answers (own (env y.1)) = im_answers (own (env x.1)) ∧
  ∃ l, im_tasks (own (env y.1)) = im_tasks (own (env x.1)) ++ l.
Proof.
  induction 1 as [x|x y z Hxy _ IH]; [intros; split_and!; [done..|exists []; by rewrite app_nil_r]|]. intros Hg Hn Ht.
  destruct (idle_step x y Hxy Hg Hn Ht) as (H0 & H1 & H2 & l & H3).
  destruct IH as (H4 & H5 & H6 & l' & H7); [by apply (istep_good _ (implicit_keeps e0) (λ ev, is_ready ev = false) x)|done..|].
  split_and!; [done|done|congruence|]. exists (l ++ l'). by rewrite H7, H3, app_assoc.
Qed.
End executor.

Section theorems.
Context (ty : Z) (w : Hw H) (t : T) (d : option D) (ts : list Task) (n : Z).
Abbreviation e0 := (mkSys (new_implicit ty w) t d ts [] n : E).
Abbreviation start := (IE_make (mkSys (new_implicit ty w) t d ts [] n)).
Abbreviation any := (λ _ : HdiEvent, True).

Lemma from_start ok m fl :
  rtc (istep ok) (start, []) (m, fl) → good ie_inv start m fl ∧ held_inv m.
Proof.
  intros Hr. pose proof (new_released ty w t d ts n) as Hn.
  assert (held_inv start) as Hh by (unfold held_inv; by rewrite implicit_env).
  split; [by eapply ie_reachable_good|]. eapply (held_run _ _ _ _ Hr); [by apply implicit_good|done].
Qed.

(** C18: An enrollment the HAL never completes ends.  Whatever is done with an implicit
    enrollment engine, and in whatever order: in IDLE it has no adapter, or the service has
    been asked to release it; in RECOGNIZING, nothing holds the mutex, and the timer thread
    alone brings it to IDLE. *)
Theorem implicit_enroll_ends m fl (Hr : rtc (istep any) (start, []) (m, fl)) :
  (currState_ m = Some IDLE → released (env m)) ∧
  (currState_ m = Some RECOGNIZING →
     mutex_free m ∧ ∃ y, rtc thread_step (m, fl) y ∧ currState_ y.1 = Some IDLE ∧ released (env y.1)).
Proof.
  destruct (from_start _ _ _ Hr) as [Hg Hh]. pose proof Hg as [_ _ (s & Hs & Hi)]. split.
  - intros H1. apply Hi. congruence.
  - intros H1. split.
    + unfold mutex_free. destruct (im_held (own (env m))) eqn:He; [|done]. destruct (Hh He) as [H2 _]. by rewrite H1 in H2.
    + destruct (good_ends _ _ (implicit_keeps e0) m fl RECOGNIZING IDLE Hg H1 (implicit_timeout e0)) as (y & Hy & H2 & H3).
      exists y. split_and!; [done|done|by apply H3].
Qed.

(** C32: [Detach] returns only once the HAL has been ready.  Unless an event has reported
    that the HAL is ready, no [Detach] of the engine ever returns, however often and by
    whomever it is called: the executor, which is to run its task, has no thread, and the
    tasks only pile up. *)
Theorem detach_needs_ready m fl m' fl'
    (Hr : rtc (istep (λ ev, is_ready ev = false)) (start, []) (m, fl))
    (Hr' : rtc (istep (λ ev, is_ready ev = false)) (m, fl) (m', fl')) :
  im_threads (own (env m')) = [] ∧ im_answers (own (env m')) = [] ∧
  im_tasks (own (env m)) `prefix_of` im_tasks (own (env m')).
Proof.
  assert (good ie_inv start start []) as H0 by (apply implicit_good, new_released).
  destruct (idle_run e0 _ _ Hr H0) as (Hn & H1 & H2 & _); [unfold no_start; cbn [fst]; rewrite implicit_env; apply not_elem_of_nil|by cbn [fst]; rewrite implicit_env|].
  destruct (idle_run e0 _ _ Hr') as (_ & H3 & H4 & l & H5); [by apply (from_start _ _ _ Hr)|done..|].
  cbn [fst] in *. rewrite H4, H2, implicit_env. split_and!; [done|done|by exists l].
Qed.

(** C31: Once the executor runs it answers.  Whatever has been done with the engine, an
    executor that has a thread (or several: each report that the HAL is ready starts one
    more) and does not wait for a mutex that only it can free ([stuck]) comes to rest by
    itself, whichever of its threads goes on and whenever, within eight steps for each
    piece of work ([load] is what is left of them); it has then finished all that was
    pending, answered every [Detach] that waited, and left the mutex free. *)
Theorem detach_returns m fl
    (Hr : rtc (istep any) (start, []) (m, fl)) (Hrun : im_threads (own (env m)) ≠ []) (Hs : stuck (env m) = false) :
  settles (finished m) (load (env m)) m ∧ (load (env m) ≤ 8 * length (pending (env m)))%nat.
Proof.
  destruct (from_start _ _ _ Hr) as [Hg Hh]. split.
  - exact (settle e0 _ (im_answers (own (env m))) _ m fl [] Hg Hh Hrun Hs (le_n _) (eq_sym (app_nil_r _)) eq_refl).
  - apply load_bound.
Qed.

(** A [clear_data] can block the engine for good.  It waits for the executor with the
    mutex of the machine; when every thread of the executor is at, or will come to, a
    [Detach] or a result of the HAL before the task waited for, none ever goes on, whatever
    else happens short of the HAL's reporting once more that it is ready: no [Detach]
    returns any more and the machine stays in its state. *)
Theorem clear_data_deadlock m fl m' fl'
    (Hr : rtc (istep any) (start, []) (m, fl)) (Hs : stuck (env m) = true) (Hn : no_start (env m))
    (Hr' : rtc (istep (λ ev, is_ready ev = false)) (m, fl) (m', fl')) :
  stuck (env m') = true ∧ ¬ mutex_free m' ∧ im_answers (own (env m')) = im_answers (own (env m)) ∧
  currState_ m' = currState_ m.
Proof.
  destruct (from_start _ _ _ Hr) as [Hg _]. destruct (stuck_run e0 _ _ Hr' Hg Hn Hs) as (H1 & H2 & H3).
  split_and!; [done| |done|done]. unfold mutex_free. apply stuck_spec in H1 as [H1 _]. cbn [fst] in H1. by rewrite H1.
Qed.
End theorems.

(** ** What a verified enrollment leaves *)

(** What the enrollment was started with, and what saving it uses and changes. *)
Definition names e := (im_stage (own e), im_bundleName (own e), im_abilityName (own e), im_wakeupPhrase (own e)).
Definition util e : EngineUtil H := view (own e).
Definition slot (i : nat) e : option (option IeWork) := im_threads (own e) !! i.
Definition ie_params e := (names e, util e, db e, trig e).

(** A step that the [i]th thread takes, and steps of others that leave alone what it saves. *)
Definition turn (i : nat) (x y : Machine * list TimerMgr.TimerEvent) : Prop :=
  IE_can (env x.1) i ∧ (∃ now, IE_ExecuteInThread now i x.1 = Some y.1) ∧ y.2 = x.2.
Definition apart (i : nat) (x y : Machine * list TimerMgr.TimerEvent) : Prop :=
  istep (λ _, True) x y ∧ slot i (env y.1) = slot i (env x.1) ∧ ie_params (env y.1) = ie_params (env x.1).
(** The thread takes [k] steps, the others any in between. *)
Fixpoint turns (i k : nat) (x y : Machine * list TimerMgr.TimerEvent) : Prop :=
  match k with
  | O => x = y
  | S k => ∃ z1 z2, rtc (apart i) x z1 ∧ turn i z1 z2 ∧ turns i k z2 y
  end.

Lemma complete_params msg cur e : ie_params (IE_HandleEnrollComplete msg cur e).2 = ie_params e.
Proof.
  unfold IE_HandleEnrollComplete. destruct (inMsg msg) as [[]|]; try done. rewrite getc_bind, bind_run. unfold st_when.
  destruct (im_listener (own e)); [|done]. unfold IL_Notify, IL_BackupCallBackEvent. rewrite getc_bind. cbn.
  destruct (im_cb (own e)); repeat case_match; done.
Qed.
Lemma complete_handled e0 now body m fl r m' :
  good ie_inv (IE_make e0) m fl → IE_Handle now (mkStateMsg RECOGNIZE_COMPLETE body) m = Some (r, m') →
  ie_params (env m') = ie_params (env m).
Proof.
  intros Hm [-> |Hr]%IE_Handle_inv; [done|]. destruct (gd_state _ _ _ _ Hm) as (cur & Hc & _).
  destruct (good_after ie_inv (IE_make e0) (λ _ e, ie_params e = ie_params (env m)) now (mkStateMsg RECOGNIZE_COMPLETE body) m fl cur r m')
    as (s & _ & Hs); [done..| |done|exact Hs].
  intros h Hin e ->. cut (∀ msg cur e, ie_params (h msg cur e).2 = ie_params e); [intros Hq s _; apply Hq|].
  assert (Forall (λ x : Z * Z * Handler Body E, x.1.2 = RECOGNIZE_COMPLETE → ∀ msg cur e, ie_params (x.2 msg cur e).2 = ie_params e)
            (actions_list (IE_make e0))) as Hall.
  { apply implicit_handler. repeat (apply Forall_cons; split; [|]); [..|by apply Forall_nil]; cbn [fst snd];
      try done; intros _; apply complete_params. }
  rewrite Forall_forall in Hall. exact (Hall _ Hin eq_refl).
Qed.
Lemma model_saved type e :
  let model := held_model type (util e) in
  let e' := ((model ← on_util (ReadDspModel type); on_util (ProcDspModel model)) e).2 in
  own e' = own e <| im_hw := im_hw (own e') |> ∧ db e' = db e ∧
  trig e' = if bool_decide (model = []) then trig e
            else (tp_UpdateModel model VOICE_WAKEUP_MODEL_UUID VOICE_WAKEUP_TYPE (trig e)).2.
Proof.
  cbv zeta. rewrite bind_run.
  assert ((on_util (ReadDspModel type) e).1 = held_model type (util e)) as ->
    by (unfold on_util; rewrite zoom_run; apply ReadDspModel_run).
  set (model := held_model type (util e)).
  assert (∃ w, (on_util (ReadDspModel type) e).2 = e <| own ::= λ x, x <| im_hw := w |> |>) as [w ->].
  { unfold on_util, ReadDspModel. rewrite zoom_run, bind_run.
    destruct (with_adapter_run None (λ a, Adapter_Read a type) (with_own (view (own e)) e)) as [w E1].
    exists w. cbn [snd]. rewrite E1. by destruct e as [[]]. }
  unfold on_util, ProcDspModel. rewrite zoom_run. destruct (bool_decide (model = [])); [by destruct e as [[]]|].
  rewrite on_trigger_run. by destruct e as [[]].
Qed.

(** What a step of [w] does, from [e] to [e']. *)
Definition turn_does (i : nat) (w : IeWork) e e' : Prop :=
  names e' = names e ∧
  match w with
  | WTask (TComplete result _) =>
    slot i e' = Some (Some (WReport result)) ∧ util e' = util e ∧ db e' = db e ∧ trig e' = trig e
  | WTask _ => True
  | WReport result =>
    slot i e' = Some (if bool_decide (im_stage (own e) = VERIFY_STAGE) && (result =? 0) then Some WModel else None) ∧
    util e' = util e ∧ db e' = db e ∧ trig e' = trig e ∧
    (im_stage (own e) = VERIFY_STAGE → outs e' = outs e ++ [EnrollResult INTELL_VOICE_IMPLICIT_ENROLL (result =? 0)])
  | WModel =>
    slot i e' = Some (Some WVersion) ∧ db e' = db e ∧
    let model := held_model DSP_MODLE (util e) in
    trig e' = if bool_decide (model = []) then trig e
              else (tp_UpdateModel model VOICE_WAKEUP_MODEL_UUID VOICE_WAKEUP_TYPE (trig e)).2
  | WVersion => slot i e' = Some (Some WBundle) ∧ trig e' = trig e ∧ db e' = (SaveWakeupVesion version_line (db e)).2
  | WBundle =>
    slot i e' = Some (Some WAbility) ∧ trig e' = trig e ∧
    db e' = (SetStringKVPair KEY_WAKEUP_ENGINE_BUNDLE_NAME (im_bundleName (own e)) (db e)).2
  | WAbility =>
    slot i e' = Some (Some WPhrase) ∧ trig e' = trig e ∧
    db e' = (SetStringKVPair KEY_WAKEUP_ENGINE_ABILITY_NAME (im_abilityName (own e)) (db e)).2
  | WPhrase =>
    slot i e' = Some None ∧ trig e' = trig e ∧
    db e' = (SetStringKVPair KEY_WAKEUP_PHRASE (im_wakeupPhrase (own e)) (db e)).2
  end.

Lemma save_does i w e e' :
  (∀ t, w ≠ WTask t) → slot i e = Some (Some w) →
  e' = (IE_save w e).2 <| own ::= λ o, o <| im_threads ::= <[i := (IE_save w e).1]> |> |> → turn_does i w e e'.
Proof.
  intros Hw Hs ->. assert (i < length (im_threads (own e)))%nat as Hi by (by eapply lookup_lt_Some).
  destruct w as [t|result| | | | |]; [by destruct (Hw t)|..]; unfold turn_does, slot, names, util, IE_save; rewrite !getc_bind; unfold id.
  - destruct (bool_decide (im_stage (own e) = VERIFY_STAGE)) eqn:Hst; cbn [negb andb].
    + rewrite !bind_run. cbn. rewrite list_lookup_insert_eq by done. split_and!; try done. by destruct (result =? 0).
    + cbn. rewrite list_lookup_insert_eq by done. split_and!; try done. by apply bool_decide_eq_false in Hst.
  - pose proof (model_saved DSP_MODLE e) as Hm. cbv zeta in Hm. unfold util in Hm. revert Hm. rewrite !bind_run.
    set (e1 := (on_util (ProcDspModel _) _).2). intros (H1 & H2 & H3). cbn [fst snd mret st_ret].
    destruct e1 as [o1 t1 d1 ts1 os1 n1]. cbn in H1, H2, H3 |- *. subst d1 t1. rewrite H1. cbn.
    rewrite list_lookup_insert_eq by done. done.
  - rewrite !bind_run, on_settings_run. cbn. rewrite list_lookup_insert_eq by done. done.
  - rewrite !bind_run, on_settings_run. cbn. rewrite list_lookup_insert_eq by done. done.
  - rewrite !bind_run, on_settings_run. cbn. rewrite list_lookup_insert_eq by done. done.
  - rewrite !bind_run, on_settings_run. cbn. rewrite list_lookup_insert_eq by done. done.
Qed.
Section saving.
Context (e0 : E) (i : nat).
Abbreviation good m fl := (good ie_inv (IE_make e0) m fl).
Implicit Types x y z : Machine * list TimerMgr.TimerEvent.

Definition saves (w : IeWork) : Prop := match w with WTask (TComplete _ _) => True | WTask _ => False | _ => True end.
Lemma turn_at x y w :
  good x.1 x.2 → turn i x y → slot i (env x.1) = Some (Some w) → saves w → turn_does i w (env x.1) (env y.1).
Proof.
  intros Hg (Hc & (now & Hx) & _) Hs Hw. unfold IE_can in Hc. unfold slot in Hs. unfold IE_ExecuteInThread in Hx.
  rewrite Hs in Hc, Hx. rewrite Hc in Hx.
  destruct (IE_work now w x.1) as [[next m1]|] eqn:Hwork; [|done]. apply (inj Some) in Hx. rewrite <- Hx, env_with.
  destruct (work_done e0 now w x.1 x.2 Hg) as (next' & m1' & Hwork' & Ha & _).
  assert (next' = next ∧ m1' = m1) as [-> ->] 
    by (pose proof (eq_trans (eq_sym Hwork) Hwork') as Hq%(inj Some);
        split; [exact (eq_sym (f_equal fst Hq))|exact (eq_sym (f_equal snd Hq))]).
  destruct w as [[| |result info|]|result| | | | |]; try done.
  2-7: apply save_does; [done|done|]; cbn [IE_work] in Hwork; unfold with_env in Hwork;
    destruct (IE_save _ (env x.1)) as [n1 e1]; cbn [fst snd]; apply (inj Some) in Hwork;
    by rewrite <- (f_equal fst Hwork : n1 = next), <- (f_equal snd Hwork : _ = m1).
  cbn [IE_work] in Hwork. unfold IE_OnEnrollComplete in Hwork. destruct (IE_Handle _ _ _) as [[r m2]|] eqn:Hh; [|done].
  pose proof (complete_handled _ _ _ _ _ _ _ Hg Hh) as Hp. cbn [mbind option_bind] in Hwork. apply (inj Some) in Hwork.
  assert (next = Some (WReport result) ∧ m2 = m1) as [-> ->] by (split; [exact (eq_sym (f_equal fst Hwork))|exact (f_equal snd Hwork)]).
  pose proof (aw_threads _ _ _ _ Ha) as Ht. pose proof (f_equal (λ p, p.1.1.1) Hp) as P1. pose proof (f_equal (λ p, p.1.1.2) Hp) as P2.
  pose proof (f_equal (λ p, p.1.2) Hp) as P3. pose proof (f_equal snd Hp) as P4. cbn in P3, P4.
  split; [exact P1|]. split_and!; [|exact P2|exact P3|exact P4].
  unfold slot. cbn. rewrite Ht. apply list_lookup_insert_eq. by eapply lookup_lt_Some.
Qed.
Lemma apart_run x y : rtc (apart i) x y →
  rtc (istep (λ _, True)) x y ∧ slot i (env y.1) = slot i (env x.1) ∧ ie_params (env y.1) = ie_params (env x.1).
Proof.
  induction 1 as [x|x z y (H1 & H2 & H3) _ (H4 & H5 & H6)]; [done|]. split_and!; [by eapply rtc_l|congruence..].
Qed.
Lemma good_apart x y : good x.1 x.2 → rtc (apart i) x y → good y.1 y.2.
Proof. intros Hg [Hr _]%apart_run. exact (good_run _ _ _ x y (istep_good _ (implicit_keeps e0) _) Hr Hg). Qed.
Lemma good_turn x y : good x.1 x.2 → turn i x y → good y.1 y.2.
Proof. intros Hg (_ & (now & Hx) & ->). exact (good_ie_exec _ (implicit_keeps e0) _ _ _ _ _ Hg Hx). Qed.

(** The first of some steps of the thread: as seen from before the steps of others. *)
Lemma turn_does_frame w e1 e2 e' :
  ie_params e2 = ie_params e1 → turn_does i w e2 e' →
  turn_does i w (e1 <| outs := outs e2 |>) e'.
Proof.
  intros Hp Hd. pose proof (f_equal (λ p, p.1.1.1) Hp) as P1. pose proof (f_equal (λ p, p.1.1.2) Hp) as P2.
  pose proof (f_equal (λ p, p.1.2) Hp) as P3. pose proof (f_equal snd Hp) as P4. cbn [ie_params fst snd] in P1, P2, P3, P4.
  unfold turn_does in *. rewrite P1 in Hd. unfold names in P1. injection P1 as N1 N2 N3 N4.
  destruct w as [[]|result| | | | |]; rewrite ?N1, ?N2, ?N3, ?N4, ?P2, ?P3, ?P4 in Hd; exact Hd.
Qed.
Lemma turns_S k x y w :
  good x.1 x.2 → turns i (S k) x y → slot i (env x.1) = Some (Some w) → saves w →
  ∃ z o, good z.1 z.2 ∧ turns i k z y ∧ turn_does i w (env x.1 <| outs := o |>) (env z.1).
Proof.
  intros Hg (z1 & z2 & Hr & Ht & Hk) Hs Hw. destruct (apart_run _ _ Hr) as (_ & Hs1 & Hp).
  pose proof (good_apart _ _ Hg Hr) as Hg1. exists z2, (outs (env z1.1)). split_and!; [by apply (good_turn z1)|done|].
  apply (turn_does_frame w _ (env z1.1)); [done|]. apply turn_at; [done|done|by rewrite Hs1|done].
Qed.
(** The thread can take its step. *)
Lemma turn_exists x w :
  good x.1 x.2 → slot i (env x.1) = Some (Some w) → im_held (own (env x.1)) && work_waits w = false →
  ∃ y, turn i x y ∧ good y.1 y.2.
Proof.
  intros Hg Hs Hw. destruct (exec_step_effect e0 0 i x.1 x.2 Hg) as (m' & Hx & _). exists (m', x.2).
  assert (turn i x (m', x.2)) as Ht by (split_and!; [unfold IE_can; unfold slot in Hs; by rewrite Hs|by exists 0|done]).
  split; [done|by apply (good_turn x)].
Qed.
Lemma turns_exist_S k x w :
  good x.1 x.2 → slot i (env x.1) = Some (Some w) → im_held (own (env x.1)) && work_waits w = false → saves w →
  (∀ z, good z.1 z.2 → turn_does i w (env x.1) (env z.1) → ∃ y, turns i k z y) → ∃ y, turns i (S k) x y.
Proof.
  intros Hg Hs Hw Hsv Hk. destruct (turn_exists x w Hg Hs Hw) as (z & Ht & Hz).
  destruct (Hk z Hz) as [y Hy]; [by apply turn_at|]. exists y, x, z. split_and!; [done..].
Qed.
End saving.

(** The names are read back when the store is open and takes what is put into it. *)
Lemma set_get `{!KvLaws D} k v (d : D) :
  (∀ k v d, (kv_Put k v d : bool * D).1 = true) →
  ∃ d', (SetStringKVPair k v (Some d)).2 = Some d' ∧ GetStringKVPair k (Some d') = v ∧
    ∀ k', k' ≠ k → GetStringKVPair k' (Some d') = GetStringKVPair k' (Some d).
Proof. intros Hput. destruct (kv_put_law k v d (Hput k v d)) as [H1 H2]. by exists (kv_Put k v d).2. Qed.
Lemma names_saved `{!KvLaws D} line bundle ability phrase (d : D) :
  (∀ k v d, (kv_Put k v d : bool * D).1 = true) →
  let o := (SetStringKVPair KEY_WAKEUP_PHRASE phrase (SetStringKVPair KEY_WAKEUP_ENGINE_ABILITY_NAME ability
             (SetStringKVPair KEY_WAKEUP_ENGINE_BUNDLE_NAME bundle (SaveWakeupVesion line (Some d)).2).2).2).2 in
  GetStringKVPair KEY_WAKEUP_ENGINE_BUNDLE_NAME o = bundle ∧
  GetStringKVPair KEY_WAKEUP_ENGINE_ABILITY_NAME o = ability ∧ GetStringKVPair KEY_WAKEUP_PHRASE o = phrase.
Proof.
  intros Hput. cbv zeta.
  assert (∃ d1, (SaveWakeupVesion line (Some d)).2 = Some d1) as [d1 ->]
    by (unfold SaveWakeupVesion; destruct (GetWakeupVesion line); by eexists).
  destruct (set_get KEY_WAKEUP_ENGINE_BUNDLE_NAME bundle d1 Hput) as (d2 & -> & G2 & _).
  destruct (set_get KEY_WAKEUP_ENGINE_ABILITY_NAME ability d2 Hput) as (d3 & -> & G3 & O3).
  destruct (set_get KEY_WAKEUP_PHRASE phrase d3 Hput) as (d4 & -> & G4 & O4).
  split_and!; [by rewrite O4, O3, G2|by rewrite O4, G3|done].
Qed.

(** The steps after the report, when there is something to save. *)
Lemma saved_after_report e0 i x y :
  good ie_inv (IE_make e0) x.1 x.2 → slot i (env x.1) = Some (Some WModel) → turns i 5 x y →
  let e := env x.1 in let e' := env y.1 in let model := held_model DSP_MODLE (util e) in
  slot i e' = Some None ∧
  trig e' = (if bool_decide (model = []) then trig e
             else (tp_UpdateModel model VOICE_WAKEUP_MODEL_UUID VOICE_WAKEUP_TYPE (trig e)).2) ∧
  db e' = (SetStringKVPair KEY_WAKEUP_PHRASE (im_wakeupPhrase (own e))
            (SetStringKVPair KEY_WAKEUP_ENGINE_ABILITY_NAME (im_abilityName (own e))
              (SetStringKVPair KEY_WAKEUP_ENGINE_BUNDLE_NAME (im_bundleName (own e))
                (SaveWakeupVesion version_line (db e)).2).2).2).2.
Proof.
  intros Hg Hs Ht. cbv zeta.
  destruct (turns_S e0 i _ _ _ _ Hg Ht Hs I) as (z1 & o1 & Hg1 & Ht1 & N1 & S1 & D1 & T1).
  destruct (turns_S e0 i _ _ _ _ Hg1 Ht1 S1 I) as (z2 & o2 & Hg2 & Ht2 & N2 & S2 & T2 & D2).
  destruct (turns_S e0 i _ _ _ _ Hg2 Ht2 S2 I) as (z3 & o3 & Hg3 & Ht3 & N3 & S3 & T3 & D3).
  destruct (turns_S e0 i _ _ _ _ Hg3 Ht3 S3 I) as (z4 & o4 & Hg4 & Ht4 & N4 & S4 & T4 & D4).
  destruct (turns_S e0 i _ _ _ _ Hg4 Ht4 S4 I) as (z5 & o5 & _ & Hy & _ & S5 & T5 & D5). cbn in Hy. subst z5.
  unfold names in N1, N2, N3, N4. cbn in N1, N2, N3, N4, D1, D2, D3, D4, D5, T1, T2, T3, T4, T5.
  injection N1 as _ B1 A1 P1. injection N2 as _ B2 A2 P2. injection N3 as _ _ A3 P3. injection N4 as _ _ _ P4.
  split; [exact S5|]. split; [rewrite T5, T4, T3, T2; exact T1|]. rewrite D5, P4, P3, P2, P1, D4, A3, A2, A1, D3, B2, B1, D2, D1. done.
Qed.

Lemma save_exists e0 i x :
  good ie_inv (IE_make e0) x.1 x.2 → slot i (env x.1) = Some (Some WModel) → ∃ y, turns i 5 x y.
Proof.
  intros Hg Hs. eapply (turns_exist_S _ i 4 _ _ Hg Hs); [by rewrite andb_false_r|done|]. intros z1 Hg1 (_ & S1 & _).
  eapply (turns_exist_S _ i 3 _ _ Hg1 S1); [by rewrite andb_false_r|done|]. intros z2 Hg2 (_ & S2 & _).
  eapply (turns_exist_S _ i 2 _ _ Hg2 S2); [by rewrite andb_false_r|done|]. intros z3 Hg3 (_ & S3 & _).
  eapply (turns_exist_S _ i 1 _ _ Hg3 S3); [by rewrite andb_false_r|done|]. intros z4 Hg4 (_ & S4 & _).
  eapply (turns_exist_S _ i 0 _ _ Hg4 S4); [by rewrite andb_false_r|done|]. intros z5 _ _. by exists z5.
Qed.

(** C33: What an implicit enrollment leaves behind.  Let a thread of the executor, in any
    state the engine can get to, be at the result of an enrollment.  It treats it in steps,
    with other threads' in between, of which it is assumed that none starts or ends an
    enrollment, or changes the adapter, the HAL, the settings or the models, before it is
    done.  In the stage "verify" it reports whether the enrollment succeeded.  Unless that
    is the stage and it did, that is all, and the settings and the models stay as they
    are; otherwise the trigger manager is handed exactly the model the HAL holds, as the
    voice wakeup model (nothing when nothing can be read), and if the store of the settings
    is open and takes what is put into it, the settings have the names of the bundle and of
    the ability the enrollment was started with, and the engine's wakeup phrase.  Once the
    mutex is free the thread can take all these steps. *)
Theorem verified_enrollment_saved `{!KvLaws D} ty w t d ts n (x : Machine * list TimerMgr.TimerEvent) i result info
    (Hr : rtc (istep (λ _, True)) (IE_make (mkSys (new_implicit ty w) t d ts [] n : E), []) x)
    (Hi : slot i (env x.1) = Some (Some (WTask (TComplete result info)))) :
  let e := env x.1 in
  let model := held_model DSP_MODLE (util e) in
  (∀ y, turns i 2 x y →
     (im_stage (own e) = VERIFY_STAGE →
        last (outs (env y.1)) = Some (EnrollResult INTELL_VOICE_IMPLICIT_ENROLL (result =? 0))) ∧
     (im_stage (own e) ≠ VERIFY_STAGE ∨ result ≠ 0 →
        slot i (env y.1) = Some None ∧ db (env y.1) = db e ∧ trig (env y.1) = trig e)) ∧
  (im_stage (own e) = VERIFY_STAGE → result = 0 → ∀ y, turns i 7 x y →
     slot i (env y.1) = Some None ∧
     trig (env y.1) = (if bool_decide (model = []) then trig e
                       else (tp_UpdateModel model VOICE_WAKEUP_MODEL_UUID VOICE_WAKEUP_TYPE (trig e)).2) ∧
     (∀ dm, db e = Some dm → (∀ k v d, (kv_Put k v d : bool * D).1 = true) →
        GetStringKVPair KEY_WAKEUP_ENGINE_BUNDLE_NAME (db (env y.1)) = im_bundleName (own e) ∧
        GetStringKVPair KEY_WAKEUP_ENGINE_ABILITY_NAME (db (env y.1)) = im_abilityName (own e) ∧
        GetStringKVPair KEY_WAKEUP_PHRASE (db (env y.1)) = im_wakeupPhrase (own e))) ∧
  (mutex_free x.1 → (∃ y, turns i 2 x y) ∧
     (im_stage (own e) = VERIFY_STAGE → result = 0 → ∃ y, turns i 7 x y)).
Proof.
  assert (good ie_inv (IE_make (mkSys (new_implicit ty w) t d ts [] n : E)) x.1 x.2) as Hg
    by (destruct x as [m fl]; exact (proj1 (from_start _ _ _ _ _ _ _ _ _ Hr))).
  cbv zeta. split_and!.
  - intros y Ht. destruct (turns_S _ i _ _ _ _ Hg Ht Hi I) as (z & o & Hgz & Htz & N1 & S1 & _ & D1 & T1).
    destruct (turns_S _ i _ _ _ _ Hgz Htz S1 I) as (z2 & o2 & _ & Hy & _ & S2 & _ & D2 & T2 & O2). cbn in Hy. subst z2.
    unfold names in N1. cbn in N1, S2, D1, T1, D2, T2, O2. injection N1 as N1 _ _ _. rewrite N1 in S2, O2. split.
    + intros Hst. by rewrite (O2 Hst), last_snoc.
    + intros Hn. rewrite D2, T2. split_and!; [|done..]. rewrite S2. case_bool_decide; [|done].
      destruct Hn as [?|Hn%Z.eqb_neq]; [done|]. cbn. by rewrite Hn.
  - intros Hst -> y Ht. destruct (turns_S _ i _ _ _ _ Hg Ht Hi I) as (z & o & Hgz & Htz & N1 & S1 & U1 & D1 & T1).
    destruct (turns_S _ i _ _ _ _ Hgz Htz S1 I) as (z2 & o2 & Hg2 & Ht2 & N2 & S2 & U2 & D2 & T2 & _).
    unfold names in N1, N2. cbn in N1, N2, S2, D1, D2, T1, T2. injection N1 as N1 B1 A1 P1. injection N2 as _ B2 A2 P2.
    rewrite N1, bool_decide_true in S2 by done. cbn in S2.
    destruct (saved_after_report _ i _ _ Hg2 S2 Ht2) as (S3 & T3 & D3).
    assert (util (env z2.1) = util (env x.1)) as Hu by exact (eq_trans U2 U1).
    rewrite Hu, T2, T1 in T3. rewrite B2, B1, A2, A1, P2, P1, D2, D1 in D3. split_and!; [exact S3|exact T3|].
    intros dm Hd Hput. rewrite D3, Hd. by apply names_saved.
  - intros Hf. split; [|intros Hst ->].
    + eapply (turns_exist_S _ i 1 _ _ Hg Hi); [by rewrite Hf|done|]. intros z Hgz (_ & S1 & _).
      eapply (turns_exist_S _ i 0 _ _ Hgz S1); [by rewrite andb_false_r|done|]. intros z2 _ _. by exists z2.
    + eapply (turns_exist_S _ i 6 _ _ Hg Hi); [by rewrite Hf|done|]. intros z Hgz (N1 & S1 & _).
      eapply (turns_exist_S _ i 5 _ _ Hgz S1); [by rewrite andb_false_r|done|]. intros z2 Hg2 (_ & S2 & _).
      unfold names in N1. injection N1 as N1 _ _ _. rewrite N1, bool_decide_true in S2 by done. cbn in S2.
      by eapply save_exists.
Qed.
End safety.

(** ** Concrete runs *)

(** A parser that knows two parameters. *)
Definition verify_text : str := lit "verify".
Definition verify_root : Jval :=
  JObj [(lit "stage", JStr (lit "verify")); (lit "bundle_name", JStr (lit "b")); (lit "ability_name", JStr (lit "a"));
        (lit "start_time", JInt 10); (lit "end_time", JInt 20)].
Definition dialog_root : Jval := JObj [(lit "stage", JStr (lit "dialog"))].
Definition enroll_json : JsonLib := json_with (λ t, if bool_decide (t = verify_text) then Some verify_root else
  if bool_decide (t = lit "dialog") then Some dialog_root else None).
Abbreviation RefImplicit := (Sys (ImplicitEnrollEngine RefHal) (gmap string str) (gmap string str)).
Abbreviation RefMachine := (ModuleStates Body RefImplicit).
Definition implicit0 : RefMachine := IE_make (JL := enroll_json)
  (mkSys (new_implicit 9 ref_hw) (∅ : gmap string str) (Some (∅ : gmap string str)) [] [] 0).

(** Operations that are given, with events of which [ok] holds. *)
Inductive IeOp := OInit | OParam (kv : str) | ODetach | OEvent (ev : HdiEvent) | OStarted | OExec (i : nat).
Definition ie_do (ok : HdiEvent → bool) (o : IeOp) (x : RefMachine * list TimerMgr.TimerEvent) :
    option (RefMachine * list TimerMgr.TimerEvent) :=
  let m := x.1 in let free := negb (im_held (own (env m))) in
  (λ m', (m', x.2)) <$>
  match o with
  | OInit => if free then snd <$> IE_Init 1 m else None
  | OParam kv => if free then IE_SetParameter 1 kv m else None
  | ODetach => Some (with_env IE_Detach m).2
  | OEvent ev => if ok ev then Some (with_env (IE_OnIntellVoiceHdiEvent ev) m).2 else None
  | OStarted => Some (with_env (IE_InitDone 0 true) m).2
  | OExec i => IE_ExecuteInThread 1 i m
  end.
Lemma ie_do_step ok o x y : ie_do ok o x = Some y → istep (λ ev, ok ev = true) x y.
Proof.
  destruct x as [m fl]. unfold ie_do. cbn [fst snd].
  match goal with |- _ <$> ?c = _ → _ => destruct c as [m'|] eqn:Hd end; [|done].
  cbn. intros Hq%(inj Some). subst y. destruct o as [|kv| |ev| |i].
  - destruct (im_held (own (env m))) eqn:Hf; [done|]. cbn [negb] in Hd.
    destruct (IE_Init 1 m) as [[b m1]|] eqn:Hi; [|done]. apply (inj Some) in Hd. cbn in Hd. subst m1. by eapply i_init.
  - destruct (im_held (own (env m))) eqn:Hf; [done|]. cbn [negb] in Hd. by eapply i_param.
  - apply (inj Some) in Hd. subst m'. apply i_detach.
  - destruct (ok ev) eqn:Hok; [|done]. apply (inj Some) in Hd. subst m'. by apply i_event.
  - apply (inj Some) in Hd. subst m'. apply i_started.
  - by eapply i_exec.
Qed.
Lemma istep_weaken (ok ok' : HdiEvent → Prop) (x y : RefMachine * list TimerMgr.TimerEvent) :
  (∀ ev, ok ev → ok' ev) → istep ok x y → istep ok' x y.
Proof. intros Hok []; [by eapply i_init|by eapply i_callback|by eapply i_param|apply i_detach|apply i_event; auto|apply i_started|by eapply i_exec|by apply i_thread|by apply i_world]. Qed.
Lemma ie_run ok (P : HdiEvent → Prop) os x y :
  (∀ ev, ok ev = true → P ev) → run_ops (ie_do ok) os x = Some y → rtc (istep P) x y.
Proof.
  intros HP. apply (run_ops_rtc _ (istep P)). intros o x' y' Ho.
  eapply istep_weaken; [exact HP|by eapply ie_do_step].
Qed.
Definition every : HdiEvent → bool := λ _, true.

Definition ready : IeOp := OEvent (mkEvent INTELL_VOICE_ENGINE_MSG_INIT_DONE 0 []).
Definition not_ready : IeOp := OEvent (mkEvent INTELL_VOICE_ENGINE_MSG_INIT_DONE 1 []).
Definition enrolled : IeOp := OEvent (mkEvent INTELL_VOICE_ENGINE_MSG_ENROLL_COMPLETE 0 []).
(** The reports of the initialisation are treated. *)
Definition setup : list IeOp := [OInit; ready; OStarted].
Definition exec : IeOp := OExec 0.
Definition start_enroll : IeOp := OParam (lit "start_enroll=verify").
Definition clear_data : IeOp := OParam (lit "clear_data=1").
Definition state_of (os : list IeOp) : option (option Z) := (λ x, currState_ x.1) <$> run_ops (ie_do every) os (implicit0, []).

(** An enrollment that has been started ends. *)
Lemma implicit_enroll_ends_witness :
  ∃ x y : RefMachine * list TimerMgr.TimerEvent, run_ops (ie_do every) (setup ++ [start_enroll; exec; exec]) (implicit0, []) = Some x ∧
    currState_ x.1 = Some RECOGNIZING ∧ rtc thread_step x y ∧ currState_ y.1 = Some IDLE ∧ released (env y.1).
Proof.
  assert (state_of (setup ++ [start_enroll; exec; exec]) = Some (Some RECOGNIZING)) as Hs by by vm_compute.
  unfold state_of in Hs. revert Hs. generalize (setup ++ [start_enroll; exec; exec]). intros os Hs.
  destruct (run_ops (ie_do every) os (implicit0, [])) as [[m fl]|] eqn:Hm; [|discriminate Hs].
  injection Hs as Hs. destruct (implicit_enroll_ends (JL := enroll_json) 9 ref_hw ∅ (Some ∅) [] 0 m fl (ie_run every (λ _, True) os _ _ (λ _ _, I) Hm))
    as [_ H2]. destruct (H2 Hs) as (_ & y & Hy). exists (m, fl), y. exact (conj eq_refl (conj Hs Hy)).
Defined.

(** When the HAL reports a failure, or nothing, [Detach] waits for ever. *)
Lemma detach_needs_ready_witness :
  ∃ x y : RefMachine * list TimerMgr.TimerEvent,
    run_ops (ie_do (λ ev, negb (is_ready ev))) [OInit; not_ready; OStarted; ODetach] (implicit0, []) = Some x ∧
    run_ops (ie_do (λ ev, negb (is_ready ev))) [exec; ODetach; exec] x = Some y ∧
    im_answers (own (env y.1)) = [] ∧ [TDetach] `prefix_of` im_tasks (own (env y.1)).
Proof.
  assert (match run_ops (ie_do (λ ev, negb (is_ready ev))) [OInit; not_ready; OStarted; ODetach] (implicit0, []) with
    | Some x => match im_tasks (own (env x.1)) with [TDetach] => true | _ => false end &&
        match run_ops (ie_do (λ ev, negb (is_ready ev))) [exec; ODetach; exec] x with Some _ => true | None => false end
    | None => false end = true) as Hs by by vm_compute.
  revert Hs. generalize [OInit; not_ready; OStarted; ODetach], [exec; ODetach; exec]. intros os os' Hs.
  destruct (run_ops _ os (implicit0, [])) as [[m fl]|] eqn:Hm; [|discriminate Hs].
  apply andb_true_iff in Hs as [Ht Hs]. destruct (run_ops _ os' (m, fl)) as [[m' fl']|] eqn:Hm'; [|discriminate Hs].
  assert (im_tasks (own (env m)) = [TDetach]) as Ht'.
  { cbn [fst] in Ht. destruct (im_tasks (own (env m))) as [|[] []]; done. }
  assert (∀ ev, negb (is_ready ev) = true → is_ready ev = false) as Hok by (intros ev; by apply negb_true_iff).
  destruct (detach_needs_ready (JL := enroll_json) 9 ref_hw ∅ (Some ∅) [] 0 m fl m' fl' (ie_run _ _ os _ _ Hok Hm)
    (ie_run _ _ os' _ _ Hok Hm')) as (_ & H2 & H3).
  rewrite Ht' in H3. exists (m, fl), (m', fl'). exact (conj eq_refl (conj Hm' (conj H2 H3))).
Defined.

(** A [Detach] after the HAL is ready is answered. *)
Lemma detach_returns_witness :
  ∃ x : RefMachine * list TimerMgr.TimerEvent,
    run_ops (ie_do every) (setup ++ [start_enroll; ODetach]) (implicit0, []) = Some x ∧ settles (finished x.1) 4 x.1.
Proof.
  assert (match run_ops (ie_do every) (setup ++ [start_enroll; ODetach]) (implicit0, []) with
    | Some x => bool_decide (length (im_threads (own (env x.1))) = 1%nat) && negb (stuck (env x.1)) && bool_decide (load (env x.1) = 4%nat)
    | None => false end = true) as Hs by by vm_compute.
  revert Hs. generalize (setup ++ [start_enroll; ODetach]). intros os Hs.
  destruct (run_ops (ie_do every) os (implicit0, [])) as [[m fl]|] eqn:Hm; [|discriminate Hs].
  apply andb_true_iff in Hs as [[Hr%bool_decide_eq_true Hk]%andb_true_iff Hl%bool_decide_eq_true]. apply negb_true_iff in Hk.
  assert (im_threads (own (env m)) ≠ []) as Hr' by (cbn [fst] in Hr; by destruct (im_threads (own (env m)))).
  destruct (detach_returns (JL := enroll_json) 9 ref_hw ∅ (Some ∅) [] 0 m fl (ie_run every (λ _, True) os _ _ (λ _ _, I) Hm) Hr' Hk) as [Hd _].
  cbn [fst] in Hl. rewrite Hl in Hd. exists (m, fl). exact (conj eq_refl Hd).
Defined.

(** A [clear_data] behind a [Detach] that has not been run blocks the engine. *)
Lemma clear_data_deadlock_witness :
  ∃ x y : RefMachine * list TimerMgr.TimerEvent,
    run_ops (ie_do every) (setup ++ [ODetach; clear_data]) (implicit0, []) = Some x ∧
    run_ops (ie_do (λ ev, negb (is_ready ev))) [exec; exec; enrolled; exec] x = Some y ∧
    stuck (env y.1) = true ∧ currState_ y.1 = currState_ x.1.
Proof.
  assert (match run_ops (ie_do every) (setup ++ [ODetach; clear_data]) (implicit0, []) with
    | Some x => stuck (env x.1) && bool_decide (length (im_starting (own (env x.1))) = 0%nat) &&
        match run_ops (ie_do (λ ev, negb (is_ready ev))) [exec; exec; enrolled; exec] x with Some _ => true | None => false end
    | None => false end = true) as Hs by by vm_compute.
  revert Hs. generalize (setup ++ [ODetach; clear_data]), [exec; exec; enrolled; exec]. intros os os' Hs.
  destruct (run_ops (ie_do every) os (implicit0, [])) as [[m fl]|] eqn:Hm; [|discriminate Hs].
  apply andb_true_iff in Hs as [[Hk Hl%bool_decide_eq_true]%andb_true_iff Hs].
  destruct (run_ops _ os' (m, fl)) as [[m' fl']|] eqn:Hm'; [|discriminate Hs].
  assert (no_start (env m)) as Hn.
  { cbn [fst] in Hl. unfold no_start. destruct (im_starting (own (env m))); [apply not_elem_of_nil|done]. }
  assert (∀ ev, negb (is_ready ev) = true → is_ready ev = false) as Hok by (intros ev; by apply negb_true_iff).
  destruct (clear_data_deadlock (JL := enroll_json) 9 ref_hw ∅ (Some ∅) [] 0 m fl m' fl' (ie_run every (λ _, True) os _ _ (λ _ _, I) Hm) Hk Hn
    (ie_run _ _ os' _ _ Hok Hm')) as (H1 & _ & _ & H2).
  exists (m, fl), (m', fl'). exact (conj eq_refl (conj Hm' (conj H1 H2))).
Defined.

(** The names of a verified enrollment get into the settings. *)
Lemma verified_enrollment_saved_witness :
  ∃ (x y : RefMachine * list TimerMgr.TimerEvent),
    run_ops (ie_do every) (setup ++ [start_enroll; enrolled; exec; exec; exec]) (implicit0, []) = Some x ∧
    turns 0 7 x y ∧ GetStringKVPair KEY_WAKEUP_ENGINE_BUNDLE_NAME (db (env y.1)) = lit "b".
Proof.
  assert (match run_ops (ie_do every) (setup ++ [start_enroll; enrolled; exec; exec; exec]) (implicit0, []) with
    | Some x => bool_decide (im_stage (own (env x.1)) = VERIFY_STAGE) && bool_decide (im_bundleName (own (env x.1)) = lit "b") &&
        bool_decide (db (env x.1) = Some ∅) && negb (im_held (own (env x.1))) &&
        match slot 0 (env x.1) with Some (Some (WTask (TComplete 0 []))) => true | _ => false end
    | None => false end = true) as Hs by by vm_compute.
  revert Hs. generalize (setup ++ [start_enroll; enrolled; exec; exec; exec]). intros os Hs.
  destruct (run_ops (ie_do every) os (implicit0, [])) as [x|] eqn:Hm; [|discriminate Hs].
  apply andb_true_iff in Hs as [[[[Hst%bool_decide_eq_true Hb%bool_decide_eq_true]%andb_true_iff Hd%bool_decide_eq_true]%andb_true_iff Hf%negb_true_iff]%andb_true_iff Hs].
  assert (slot 0 (env x.1) = Some (Some (WTask (TComplete 0 [])))) as Hi.
  { destruct (slot 0 (env x.1)) as [[[[| |[| |] []|]| | | | | |]|]|]; done. }
  assert (∀ k v (d : gmap string str), (kv_Put k v d).1 = true) as Hput by done.
  destruct (verified_enrollment_saved (JL := enroll_json) 9 ref_hw ∅ (Some ∅) [] 0 x 0 0 []
    (ie_run every (λ _, True) os _ _ (λ _ _, I) Hm) Hi) as (_ & H2 & H3).
  destruct (H3 Hf) as [_ H4]. destruct (H4 Hst eq_refl) as [y Hy]. destruct (H2 Hst eq_refl y Hy) as (_ & _ & H5).
  destruct (H5 _ Hd Hput) as [H6 _]. rewrite Hb in H6. exists x, y. exact (conj eq_refl (conj Hy H6)).
Defined.

(** [RELEASE] is not handled in IDLE: after a timeout the adapter stays attached, through
    the [Detach] of the release the service was asked for. *)
Example timeout_leaves_adapter :
  match run_ops (ie_do every) (setup ++ [start_enroll; exec; exec]) (implicit0, []) with
  | Some (m, fl) =>
    match OnTimerEvent 1 (TimerMgr.mkTimerEvent RECOGNIZING_TIMEOUT 0 0) None m with
    | Some (_, m1) =>
      match run_ops (ie_do every) [ODetach; exec; exec] (m1, fl) with
      | Some (m2, _) => bool_decide (currState_ m2 = Some IDLE) && bool_decide (im_answers (own (env m2)) = [NO_PROCESS_RET]) &&
                        match im_adapter (own (env m2)) with Some _ => true | None => false end
      | None => false
      end
    | None => false
    end
  | None => false
  end = true.
Proof. by vm_compute. Qed.

(** A result that comes when no enrollment is being done is still saved and reported, as the
    stage is the one of the last enrollment. *)
Definition save_turns : list IeOp := replicate 7 exec.
Example stale_result_saved :
  match run_ops (ie_do every) (setup ++ [start_enroll; enrolled; enrolled; exec; exec; exec] ++ save_turns) (implicit0, []) with
  | Some (m, fl) =>
    match run_ops (ie_do every) (exec :: save_turns) (m, fl) with
    | Some (m', _) => bool_decide (currState_ m = Some INITIALIZED) && bool_decide (outs (env m) = [EnrollResult 4 true]) &&
                      bool_decide (outs (env m') = [EnrollResult 4 true; EnrollResult 4 true])
    | None => false
    end
  | None => false
  end = true.
Proof. by vm_compute. Qed.

(** What is saved is read after the mutex has been released: an enrollment that is started
    between the message of a result and its saving takes the result over.  Here the second
    one is in the stage "dialog", and the success of the first is neither saved nor told. *)
Example new_start_takes_over :
  match run_ops (ie_do every) (setup ++ [start_enroll; enrolled; exec; exec; exec; exec;
                                OParam (lit "start_enroll=dialog")] ++ save_turns) (implicit0, []) with
  | Some (m, _) => bool_decide (outs (env m) = []) && bool_decide (db (env m) = Some ∅)
  | None => false
  end = true.
Proof. by vm_compute. Qed.

(** A second report that the HAL is ready starts a second thread of the executor. *)
Example second_thread :
  (λ x, length (im_threads (own (env x.1)))) <$> run_ops (ie_do every) (setup ++ [ready; OStarted]) (implicit0, []) = Some 2%nat.
Proof. by vm_compute. Qed.

(** A result kept for a client is told again with each callback that is set. *)
Example history_told_twice :
  match run_ops (ie_do every) (setup ++ [start_enroll; enrolled; exec; exec; exec] ++ save_turns) (implicit0, []) with
  | Some (m, _) =>
    match IE_SetCallback 1 (Some 5%nat) m with
    | Some m1 => match IE_SetCallback 1 (Some 6%nat) m1 with
                 | Some m2 => bool_decide (outs (env m2) = [EnrollResult 4 true; OnUpdateComplete 5 0; OnUpdateComplete 6 0])
                 | None => false
                 end
    | None => false
    end
  | None => false
  end = true.
Proof. by vm_compute. Qed.
