(* ===== verification/MessageBus.v ===== *)
(** * The message bus between the engines and the service manager

    [engine_callback_message.h] and [intell_voice_engine_registrar.cpp].  Engines know
    nothing of the service manager: they send it messages with arguments of type
    [std::any], which the functions it has registered take apart again, so that a mistake in
    the number or the types of the arguments shows only when the message is sent.  The other
    files model a message as the call it stands for; here the bus is modelled, and every
    message an engine sends is shown to be that call. *)

From S2P Require Import Prelude StringUtil Settings EngineTypes EngineAudio UpdateController EngineUtil DeviceManager.
From S2P Require Import EngineManager ServiceManager System Parcel ServiceIpc VoiceService VoiceSystem.

(** [enum EngineCbMessageId]. *)
Definition HANDLE_CLOSE_WAKEUP_SOURCE : Z := 0.
Definition HANDLE_HEADSET_HOST_DIE : Z := 1.
Definition HANDLE_CLEAR_WAKEUP_ENGINE_CB : Z := 2.
Definition HANDLE_RELEASE_ENGINE : Z := 3.
Definition HANDLE_ENGINE_SET_SENSIBILITY : Z := 4.
Definition HANDLE_UPDATE_COMPLETE : Z := 5.
Definition HANDLE_UPDATE_RETRY : Z := 6.
Definition RELEASE_ENGINE : Z := 7.
Definition RELEASE_IMPLICIT_ENROLL_ENGINE : Z := 8.
Definition QUERY_SWITCH_STATUS : Z := 9.
Definition TRIGGERMGR_GET_PARAMETER : Z := 10.
Definition TRIGGERMGR_SET_PARAMETER : Z := 11.
Definition TRIGGERMGR_UPDATE_MODEL : Z := 12.
Definition HANDLE_DEVICE_SERVICE_DIE : Z := 13.

(** [std::any] with the types that are put in one; [ANone] has no value. *)
Inductive Any :=
| ANone | ABool (b : bool) | AInt (z : Z) | AString (s : str) | AEngineType (z : Z) | ABytes (l : list Z) | AModelType (z : Z).

Definition has_value (a : Any) : bool := match a with ANone => false | _ => true end.
(** [std::any_cast], [None] for [std::bad_any_cast]. *)
Definition any_bool (a : Any) : option bool := match a with ABool b => Some b | _ => None end.
Definition any_int (a : Any) : option Z := match a with AInt z => Some z | _ => None end.
Definition any_string (a : Any) : option str := match a with AString s => Some s | _ => None end.
Definition any_engine (a : Any) : option Z := match a with AEngineType z => Some z | _ => None end.
Definition any_bytes (a : Any) : option (list Z) := match a with ABytes l => Some l | _ => None end.
Definition any_model (a : Any) : option Z := match a with AModelType z => Some z | _ => None end.

(** The virtual members of [IntellVoiceEngineRegistrar]. *)
Class Registrar (S : Type) := {
  rg_HandleCloseWakeupSource : bool → St S unit;
  rg_HandleClearWakeupEngineCb : St S unit;
  rg_HandleReleaseEngine : Z → St S Z;
  rg_HandleDeviceServiceDie : str → St S unit;
  rg_HandleUpdateComplete : Z → str → St S unit;
  rg_HandleUpdateRetry : St S unit;
  rg_ReleaseEngine : Z → St S Z;
  rg_ReleaseImplicitEnrollEngine : St S Z;
  rg_QuerySwitchStatus : str → St S bool;
  rg_TriggerGetParameter : str → St S str;
  rg_TriggerSetParameter : str → str → St S Z;
  rg_TriggerMgrUpdateModel : list Z → Z → Z → St S unit }.

Section bus.
Context {S : Type} `{!Registrar S}.
Abbreviation M := (St S).
Definition Func : Type := list Any → M (option Any).
Abbreviation FuncMap := (gmap Z Func).

Definition RegisterFunc (id : Z) (func : Func) (m : FuncMap) : FuncMap := <[id := func]> m.
Definition CallFunc (m : FuncMap) (id : Z) (args : list Any) : M (option Any) :=
  match m !! id with
  | Some func => func args
  | None => mret None
  end.

(** A body that returns no value, and one that does. *)
Definition no_value (c : M unit) : M (option Any) := _ ← c; mret None.
Definition value {B} (f : B → Any) (c : M B) : M (option Any) := b ← c; mret (Some (f b)).
(** The checks of the functions: the number of the arguments, that they have values, and the
    casts, any of which ends the function. *)
Definition args_none (c : M (option Any)) : Func := λ args,
  match args with [] => c | _ => mret None end.
Definition args_one {B} (cast : Any → option B) (c : B → M (option Any)) : Func := λ args,
  match args with
  | [a] => if negb (has_value a) then mret None else
           match cast a with Some b => c b | None => mret None end
  | _ => mret None
  end.
Definition args_two {B C} (cast1 : Any → option B) (cast2 : Any → option C) (c : B → C → M (option Any)) : Func := λ args,
  match args with
  | [a1; a2] => if negb (has_value a1) || negb (has_value a2) then mret None else
                match cast1 a1 with
                | Some b => match cast2 a2 with Some b2 => c b b2 | None => mret None end
                | None => mret None
                end
  | _ => mret None
  end.
Definition args_three {B C D} (cast1 : Any → option B) (cast2 : Any → option C) (cast3 : Any → option D)
    (c : B → C → D → M (option Any)) : Func := λ args,
  match args with
  | [a1; a2; a3] =>
    if negb (has_value a1) || negb (has_value a2) || negb (has_value a3) then mret None else
    match cast1 a1, cast2 a2, cast3 a3 with
    | Some b1, Some b2, Some b3 => c b1 b2 b3
    | _, _, _ => mret None
    end
  | _ => mret None
  end.

Definition RegisterHandleCloseWakeupSource : FuncMap → FuncMap :=
  RegisterFunc HANDLE_CLOSE_WAKEUP_SOURCE (args_one any_bool (λ b, no_value (rg_HandleCloseWakeupSource b))).
Definition RegisterHandleClearWakeupEngineCb : FuncMap → FuncMap :=
  RegisterFunc HANDLE_CLEAR_WAKEUP_ENGINE_CB (args_none (no_value rg_HandleClearWakeupEngineCb)).
Definition RegisterHandleReleaseEngine : FuncMap → FuncMap :=
  RegisterFunc HANDLE_RELEASE_ENGINE (args_one any_engine (λ t, value AInt (rg_HandleReleaseEngine t))).
Definition RegisterHandleDeviceServiceDie : FuncMap → FuncMap :=
  RegisterFunc HANDLE_DEVICE_SERVICE_DIE (args_one any_string (λ n, no_value (rg_HandleDeviceServiceDie n))).
Definition RegisterHandleUpdateComplete : FuncMap → FuncMap :=
  RegisterFunc HANDLE_UPDATE_COMPLETE (args_two any_int any_string (λ r p, no_value (rg_HandleUpdateComplete r p))).
Definition RegisterHandleUpdateRetry : FuncMap → FuncMap :=
  RegisterFunc HANDLE_UPDATE_RETRY (args_none (no_value rg_HandleUpdateRetry)).
Definition RegisterReleaseEngine : FuncMap → FuncMap :=
  RegisterFunc RELEASE_ENGINE (args_one any_engine (λ t, value AInt (rg_ReleaseEngine t))).
Definition RegisterReleaseImplicitEnrollEngine : FuncMap → FuncMap :=
  RegisterFunc RELEASE_IMPLICIT_ENROLL_ENGINE (args_none (value AInt rg_ReleaseImplicitEnrollEngine)).
Definition RegisterQuerySwitchStatus : FuncMap → FuncMap :=
  RegisterFunc QUERY_SWITCH_STATUS (args_one any_string (λ k, value ABool (rg_QuerySwitchStatus k))).
Definition RegisterTriggerGetParameter : FuncMap → FuncMap :=
  RegisterFunc TRIGGERMGR_GET_PARAMETER (args_one any_string (λ k, value AString (rg_TriggerGetParameter k))).
Definition RegisterTriggerSetParameter : FuncMap → FuncMap :=
  RegisterFunc TRIGGERMGR_SET_PARAMETER (args_two any_string any_string (λ k v, value AInt (rg_TriggerSetParameter k v))).
Definition RegisterTriggerMgrUpdateModel : FuncMap → FuncMap :=
  RegisterFunc TRIGGERMGR_UPDATE_MODEL (args_three any_bytes any_int any_model
    (λ b u t, no_value (rg_TriggerMgrUpdateModel b u t))).

Definition RegisterEngineCallbacks (m : FuncMap) : FuncMap :=
  let m := RegisterHandleCloseWakeupSource m in
  let m := RegisterHandleClearWakeupEngineCb m in
  let m := RegisterHandleReleaseEngine m in
  let m := RegisterHandleDeviceServiceDie m in
  let m := RegisterHandleUpdateComplete m in
  let m := RegisterHandleUpdateRetry m in
  let m := RegisterReleaseEngine m in
  let m := RegisterReleaseImplicitEnrollEngine m in
  let m := RegisterQuerySwitchStatus m in
  let m := RegisterTriggerGetParameter m in
  let m := RegisterTriggerSetParameter m in
  RegisterTriggerMgrUpdateModel m.
End bus.

(** ** The service manager as the registrar *)

Section registrar.
Context {H W Q T D : Type} `{!EngineHal H} `{!DataShare Q} `{!TriggerPort T} `{!KvStore D}.
Context {JL : JsonLib} {PL : Platform} {BL : SvcBuild}.
Context `{!Lens W (Hw H)} `{!EngineOps W T D}.
Abbreviation S := (Sys (Svc (Mgr W) Q) T D).
Abbreviation M := (St (Sys (Svc (Mgr W) Q) T D)).

Definition key_of (key : str) : string := String.string_of_list_ascii key.
Lemma key_of_lit (key : string) : key_of (lit key) = key.
Proof. apply String.string_of_list_ascii_of_string. Qed.

Definition Bus_HandleClearWakeupEngineCb : M unit := AddSyncTask TClearWakeupEngineCb (on_E em_ClearWakeupEngineCb).
Definition Bus_HandleDeviceServiceDie (serviceName : str) : M unit :=
  AddSyncTask (TDeviceServiceDie serviceName) (on_E (em_DeviceServiceDie serviceName)).
Definition Bus_HandleUpdateComplete (result : Z) (param : str) : M unit :=
  AddAsyncTask (THandleUpdateComplete result param) false.
Definition Bus_HandleUpdateRetry : M unit := AddAsyncTask THandleUpdateRetry false.
Definition Bus_ReleaseImplicitEnrollEngine : M Z :=
  _ ← push (TReleaseEngine INTELL_VOICE_IMPLICIT_ENROLL); mret 0.
Definition TriggerGetParameter (key : str) : M str := on_trigger (tp_GetParameter (key_of key)).
Definition TriggerSetParameter (key value : str) : M Z := on_trigger (tp_SetParameter (key_of key) value).
Definition TriggerMgrUpdateModel (buffer : list Z) (uuid type : Z) : M unit := on_trigger (tp_UpdateModel buffer uuid type).
#[global] Instance service_registrar : Registrar (Sys (Svc (Mgr W) Q) T D) := {|
  rg_HandleCloseWakeupSource := HandleCloseWakeupSource;
  rg_HandleClearWakeupEngineCb := Bus_HandleClearWakeupEngineCb;
  rg_HandleReleaseEngine := HandleReleaseEngine;
  rg_HandleDeviceServiceDie := Bus_HandleDeviceServiceDie;
  rg_HandleUpdateComplete := Bus_HandleUpdateComplete;
  rg_HandleUpdateRetry := Bus_HandleUpdateRetry;
  rg_ReleaseEngine := ReleaseEngine;
  rg_ReleaseImplicitEnrollEngine := Bus_ReleaseImplicitEnrollEngine;
  rg_QuerySwitchStatus key := getc (QuerySwitchStatus (key_of key));
  rg_TriggerGetParameter := TriggerGetParameter;
  rg_TriggerSetParameter := TriggerSetParameter;
  rg_TriggerMgrUpdateModel := TriggerMgrUpdateModel |}.

(** The bus once the service manager has been made. *)
Definition EngineFuncMap : gmap Z (Func (S := S)) := RegisterEngineCallbacks ∅.
Definition Bus_CallFunc : Z → list Any → M (option Any) := CallFunc EngineFuncMap.
End registrar.

(** ** The messages the engines send *)

(** One constructor for each call of [CallFunc] in the engines and their manager, with what
    varies in it: [UpdateEngine] (twice, with a result of 32 bits),
    [UpdateEngineController::OnTimerEvent], the wakeup engines and the callback of the audio
    source ([MCloseWakeupSource]), the death recipients of [IntellVoiceEngineManager], the
    engine manager at the end of an update, the implicit enrollment engine, and what the
    engines ask and tell the trigger manager. *)
Inductive Message :=
| MUpdateComplete (result : Z) (param : str)
| MUpdateRetry
| MCloseWakeupSource (isNeedStop : bool)
| MEnrollClientDied
| MWakeupClientDied
| MDeviceDied (serviceName : str)
| MReleaseUpdate
| MReleaseImplicitEnroll
| MQuerySwitch (key : string)
| MGetParameter (key : string)
| MSetParameter (key : string) (value0 : str)
| MUpdateModel (buffer : list Z).

(** What is sent. *)
Definition sent (msg : Message) : Z * list Any :=
  match msg with
  | MUpdateComplete result param => (HANDLE_UPDATE_COMPLETE, [AInt result; AString param])
  | MUpdateRetry => (HANDLE_UPDATE_RETRY, [])
  | MCloseWakeupSource isNeedStop => (HANDLE_CLOSE_WAKEUP_SOURCE, [ABool isNeedStop])
  | MEnrollClientDied => (HANDLE_RELEASE_ENGINE, [AEngineType INTELL_VOICE_ENROLL])
  | MWakeupClientDied => (HANDLE_CLEAR_WAKEUP_ENGINE_CB, [])
  | MDeviceDied serviceName => (HANDLE_DEVICE_SERVICE_DIE, [AString serviceName])
  | MReleaseUpdate => (RELEASE_ENGINE, [AEngineType INTELL_VOICE_UPDATE])
  | MReleaseImplicitEnroll => (RELEASE_IMPLICIT_ENROLL_ENGINE, [])
  | MQuerySwitch key => (QUERY_SWITCH_STATUS, [AString (lit key)])
  | MGetParameter key => (TRIGGERMGR_GET_PARAMETER, [AString (lit key)])
  | MSetParameter key value => (TRIGGERMGR_SET_PARAMETER, [AString (lit key); AString value])
  | MUpdateModel buffer => (TRIGGERMGR_UPDATE_MODEL, [ABytes buffer; AInt VOICE_WAKEUP_MODEL_UUID; AModelType VOICE_WAKEUP_TYPE])
  end.

(** The types a message takes, [None] when nobody listens. *)
Inductive AnyType := TyBool | TyInt | TyString | TyEngineType | TyBytes | TyModelType.
#[global] Instance AnyType_eq : EqDecision AnyType.
Proof. solve_decision. Defined.
Definition type_of (a : Any) : option AnyType :=
  match a with
  | ANone => None | ABool _ => Some TyBool | AInt _ => Some TyInt | AString _ => Some TyString
  | AEngineType _ => Some TyEngineType | ABytes _ => Some TyBytes | AModelType _ => Some TyModelType
  end.
Definition signature (id : Z) : option (list AnyType) :=
  if id =? HANDLE_CLOSE_WAKEUP_SOURCE then Some [TyBool]
  else if id =? HANDLE_CLEAR_WAKEUP_ENGINE_CB then Some []
  else if id =? HANDLE_RELEASE_ENGINE then Some [TyEngineType]
  else if id =? HANDLE_DEVICE_SERVICE_DIE then Some [TyString]
  else if id =? HANDLE_UPDATE_COMPLETE then Some [TyInt; TyString]
  else if id =? HANDLE_UPDATE_RETRY then Some []
  else if id =? RELEASE_ENGINE then Some [TyEngineType]
  else if id =? RELEASE_IMPLICIT_ENROLL_ENGINE then Some []
  else if id =? QUERY_SWITCH_STATUS then Some [TyString]
  else if id =? TRIGGERMGR_GET_PARAMETER then Some [TyString]
  else if id =? TRIGGERMGR_SET_PARAMETER then Some [TyString; TyString]
  else if id =? TRIGGERMGR_UPDATE_MODEL then Some [TyBytes; TyInt; TyModelType]
  else None.

(** *** Arguments of other types *)

Section rejects.
Context {S : Type}.
Lemma CallFunc_register id func (m : gmap Z (Func (S := S))) id' args s :
  CallFunc (RegisterFunc id func m) id' args s = if decide (id = id') then func args s else CallFunc m id' args s.
Proof. unfold CallFunc, RegisterFunc. rewrite lookup_insert. by case_decide. Qed.
Definition casts {B} (cast : Any → option B) (ty : AnyType) : Prop := ∀ a b, cast a = Some b → type_of a = Some ty.

Lemma rejects_none c args (s : S) : type_of <$> args ≠ [] → args_none c args s = (None, s).
Proof. by destruct args. Qed.
Lemma rejects_one {B} cast ty (c : B → St S (option Any)) args s :
  casts cast ty → type_of <$> args ≠ [Some ty] → args_one cast c args s = (None, s).
Proof.
  intros Hc Hn. destruct args as [|a [|]]; try done. cbn. destruct (has_value a); [|done]. cbn.
  destruct (cast a) as [b|] eqn:Ha; [|done]. exfalso. apply Hn. cbn. by rewrite (Hc _ _ Ha).
Qed.
Lemma rejects_two {B C} cast1 cast2 ty1 ty2 (c : B → C → St S (option Any)) args s :
  casts cast1 ty1 → casts cast2 ty2 → type_of <$> args ≠ [Some ty1; Some ty2] → args_two cast1 cast2 c args s = (None, s).
Proof.
  intros H1 H2 Hn. destruct args as [|a1 [|a2 [|]]]; try done. cbn. destruct (_ || _); [done|].
  destruct (cast1 a1) as [b1|] eqn:E1, (cast2 a2) as [b2|] eqn:E2; try done.
  exfalso. apply Hn. cbn. by rewrite (H1 _ _ E1), (H2 _ _ E2).
Qed.
Lemma rejects_three {B C D} cast1 cast2 cast3 ty1 ty2 ty3 (c : B → C → D → St S (option Any)) args s :
  casts cast1 ty1 → casts cast2 ty2 → casts cast3 ty3 → type_of <$> args ≠ [Some ty1; Some ty2; Some ty3] →
  args_three cast1 cast2 cast3 c args s = (None, s).
Proof.
  intros H1 H2 H3 Hn. destruct args as [|a1 [|a2 [|a3 [|]]]]; try done. cbn. destruct (_ || _); [done|].
  destruct (cast1 a1) as [b1|] eqn:E1, (cast2 a2) as [b2|] eqn:E2, (cast3 a3) as [b3|] eqn:E3; try done.
  exfalso. apply Hn. cbn. by rewrite (H1 _ _ E1), (H2 _ _ E2), (H3 _ _ E3).
Qed.
End rejects.
Lemma casts_bool : casts any_bool TyBool.
Proof. by intros []. Qed.
Lemma casts_int : casts any_int TyInt.
Proof. by intros []. Qed.
Lemma casts_string : casts any_string TyString.
Proof. by intros []. Qed.
Lemma casts_engine : casts any_engine TyEngineType.
Proof. by intros []. Qed.
Lemma casts_bytes : casts any_bytes TyBytes.
Proof. by intros []. Qed.
Lemma casts_model : casts any_model TyModelType.
Proof. by intros []. Qed.
#[local] Hint Resolve casts_bool casts_int casts_string casts_engine casts_bytes casts_model : core.
#[local] Hint Resolve rejects_none rejects_one rejects_two rejects_three : core.

Section messages.
Context {H W Q T D : Type} `{!EngineHal H} `{!DataShare Q} `{!TriggerPort T} `{!KvStore D}.
Context {JL : JsonLib} {PL : Platform} {BL : SvcBuild}.
Context `{!Lens W (Hw H)} `{!EngineOps W T D}.
Abbreviation M := (St (Sys (Svc (Mgr W) Q) T D)).

(** The call a message stands for in the other files. *)
Definition stands_for (msg : Message) : M (option Any) :=
  match msg with
  | MUpdateComplete result param => no_value (AddAsyncTask (THandleUpdateComplete result param) false)
  | MUpdateRetry => no_value (AddAsyncTask THandleUpdateRetry false)
  | MCloseWakeupSource isNeedStop => no_value (AddAsyncTask (THandleCloseWakeupSource isNeedStop) false)
  | MEnrollClientDied => value AInt (AddSyncTask (TReleaseEngine INTELL_VOICE_ENROLL) (ReleaseEngine INTELL_VOICE_ENROLL))
  | MWakeupClientDied => no_value (AddSyncTask TClearWakeupEngineCb (on_E em_ClearWakeupEngineCb))
  | MDeviceDied serviceName => no_value (AddSyncTask (TDeviceServiceDie serviceName) (on_E (em_DeviceServiceDie serviceName)))
  | MReleaseUpdate => value AInt (ReleaseEngine INTELL_VOICE_UPDATE)
  | MReleaseImplicitEnroll => _ ← AddAsyncTask (TReleaseEngine INTELL_VOICE_IMPLICIT_ENROLL) true; mret (Some (AInt 0))
  | MQuerySwitch key => on ← getc (QuerySwitchStatus key); mret (Some (ABool on))
  | MGetParameter key => value AString (on_trigger (tp_GetParameter key))
  | MSetParameter key v => value AInt (on_trigger (tp_SetParameter key v))
  | MUpdateModel buffer => no_value (on_trigger (tp_UpdateModel buffer VOICE_WAKEUP_MODEL_UUID VOICE_WAKEUP_TYPE))
  end.

(** C19: Every message arrives.  A message of an engine finds the function the service
    manager has registered for it, its arguments have the number and the types that function
    casts them to, and so it is the call it stands for in the other files, with its result;
    any other message - one nobody listens to, with a wrong number of arguments, an empty one
    or one of another type - is dropped: it changes nothing and returns nothing. *)
Theorem messages_arrive :
  (∀ msg (s : Sys (Svc (Mgr W) Q) T D), Bus_CallFunc (sent msg).1 (sent msg).2 s = stands_for msg s) ∧
  (∀ id args (s : Sys (Svc (Mgr W) Q) T D), Some (type_of <$> args) ≠ fmap Some <$> signature id →
     Bus_CallFunc id args s = (None, s)).
Proof.
  split.
  - intros [] s; try reflexivity.
    + by refine (eq_trans _ (f_equal (λ k, stands_for (MQuerySwitch k) s) (key_of_lit key))).
    + by refine (eq_trans _ (f_equal (λ k, stands_for (MGetParameter k) s) (key_of_lit key))).
    + by refine (eq_trans _ (f_equal (λ k, stands_for (MSetParameter k value0) s) (key_of_lit key))).
  - intros id args s Hn. unfold Bus_CallFunc, EngineFuncMap, RegisterEngineCallbacks.
    unfold RegisterHandleCloseWakeupSource, RegisterHandleClearWakeupEngineCb, RegisterHandleReleaseEngine,
      RegisterHandleDeviceServiceDie, RegisterHandleUpdateComplete, RegisterHandleUpdateRetry, RegisterReleaseEngine,
      RegisterReleaseImplicitEnrollEngine, RegisterQuerySwitchStatus, RegisterTriggerGetParameter,
      RegisterTriggerSetParameter, RegisterTriggerMgrUpdateModel. cbv zeta.
    assert (∀ l : list (option AnyType), fmap Some <$> signature id = Some l → type_of <$> args ≠ l) as Hs
      by (intros l Hl Hq; unfold not in Hn; rewrite Hl, Hq in Hn; exact (Hn eq_refl)).
    clear Hn. rewrite !CallFunc_register.
    repeat (destruct (decide (_ = id)) as [<-|_]; [specialize (Hs _ eq_refl); eauto|]).
    done.
Qed.
End messages.
