(* ===== verification/OnlyFirstEngine.v ===== *)
(** * The wakeup engine of a build with a first stage only

    [wakeup/only_first/only_first_wakeup_engine_impl.cpp] and [only_first_wakeup_engine.cpp]:
    nothing confirms the wakeup word, the engine reads the microphone for the client as soon
    as the DSP has detected it.  The second class is the engine the service sees; it turns
    calls into messages of the first.  The theorem says in which states the microphone is
    read, and that the timer thread ends it. *)

From S2P Require Import Prelude TimerMgr StringUtil AudioUtil Settings StateManager StateTimeout MachineRuns EngineTypes.
From S2P Require Import EngineAudio EngineUtil WakeupSource WakeupListener WakeupImpl.

(** [EngineState] and [EngineEvent] of this class. *)
Definition OF_IDLE : Z := 0.
Definition OF_INITIALIZED : Z := 1.
Definition OF_RECOGNIZED : Z := 2.
Definition OF_READ_CAPTURER : Z := 3.
Definition OF_INIT : Z := 0.
Definition OF_INIT_DONE : Z := 1.
Definition OF_START_RECOGNIZE : Z := 2.
Definition OF_START_CAPTURER : Z := 3.
Definition OF_READ : Z := 4.
Definition OF_STOP_CAPTURER : Z := 5.
Definition OF_READ_CAPTURER_TIMEOUT : Z := 6.
Definition OF_GET_PARAM : Z := 7.
Definition OF_RELEASE : Z := 8.
Definition OF_RECOGNIZE_COMPLETE_TIMEOUT : Z := 9.
Definition OF_RECORD_START : Z := 10.
Definition OF_INTERVAL : Z := 96.
Definition SINGLE_WAKEUP_RECORD_START : str := lit "record_start".

(** The members; [capturerOptions_] stays as the constructor makes it, with one channel.
    [of_str] and [of_data] are what the last handler wrote through [msg.outMsg]. *)
Record OnlyFirstWakeupEngineImpl (A : Type) := mkOnlyFirst {
  of_fw : A; of_sp : WakeupSourceProcess; of_channels : Z; of_channelId : Z; of_stopCallback : bool;
  of_source : option AudioSource; of_recordStart : Z; of_str : str; of_data : list Z }.
Arguments mkOnlyFirst {A} _ _ _ _ _ _ _ _ _.
Arguments of_fw {A} _.
Arguments of_sp {A} _.
Arguments of_channels {A} _.
Arguments of_channelId {A} _.
Arguments of_stopCallback {A} _.
Arguments of_source {A} _.
Arguments of_recordStart {A} _.
Arguments of_str {A} _.
Arguments of_data {A} _.
#[global] Instance OnlyFirstWakeupEngineImpl_eta A : Eta (OnlyFirstWakeupEngineImpl A) :=
  λ e, mkOnlyFirst (of_fw e) (of_sp e) (of_channels e) (of_channelId e) (of_stopCallback e) (of_source e)
         (of_recordStart e) (of_str e) (of_data e).
#[global] Instance of_fw_lens A : Lens (OnlyFirstWakeupEngineImpl A) A := {| view := of_fw; set a e := e <| of_fw := a |> |}.
#[global] Instance of_fw_laws A : LensLaws (OnlyFirstWakeupEngineImpl A) A.
Proof. constructor; [done|by intros []|done]. Qed.
Definition new_only_first {A} (a : A) : OnlyFirstWakeupEngineImpl A := mkOnlyFirst a new_sp 0 0 false None (-1) [] [].

Section only_first.
Context {A T D : Type} `{!AudioFw A} `{!TriggerPort T} `{!KvStore D}.
Context {JL : JsonLib} {PL : Platform} {AM : AudioModes}.
Abbreviation E := (Sys (OnlyFirstWakeupEngineImpl A) T D).
Abbreviation M := (St (Sys (OnlyFirstWakeupEngineImpl A) T D)).
Abbreviation Hand := (Handler Body E).

Definition of_on_sp {B} (m : St WakeupSourceProcess B) : M B := λ s,
  let '(b, p) := m (of_sp (own s)) in (b, s <| own ::= λ e, e <| of_sp := p |> |>).
Definition of_answer (ret next : Z) : M HandlerResult := mret (mkResult ret next false).

(** ** The audio source *)

Definition OF_CreateWakeupSourceStopCallback : M bool :=
  cb ← getc of_stopCallback;
  if (cb : bool) then mret true else
  sys ← get_fw af_system;
  if negb sys then mret false else
  _ ← modc (λ e, e <| of_stopCallback := true |>);
  _ ← on_fw (af_SetWakeUpSourceCloseCallback true);
  mret true.
Definition OF_DestroyWakeupSourceStopCallback : M unit :=
  cb ← getc of_stopCallback;
  if negb cb then mret () else
  sys ← get_fw af_system;
  if negb sys then mret () else
  _ ← on_fw (af_SetWakeUpSourceCloseCallback false);
  modc (λ e, e <| of_stopCallback := false |>).

(** The new source replaces the old one, which is stopped as it is destroyed. *)
Definition replace_source (source : AudioSource) : M unit :=
  old ← getc of_source;
  _ ← modc (λ e, e <| of_source := Some source |>);
  match old with None => mret () | Some old => st_void (on_fw (Source_Stop old)) end.
Definition OF_StartAudioSource : M bool :=
  _ ← of_on_sp (SP_Init MONO);
  let source := new_source (MIN_BUFFER_SIZE * MONO) OF_INTERVAL SOURCE_TYPE_WAKEUP MONO in
  _ ← replace_source source;
  r ← on_fw (Source_Start source);
  if negb r.1 then
    _ ← modc (λ e, e <| of_source := None |>);
    _ ← of_on_sp SP_Release;
    mret false
  else
    _ ← modc (λ e, e <| of_source := Some r.2 |>);
    mret true.
Definition OF_StopAudioSource : M unit :=
  source ← getc of_source;
  match source with
  | None => mret ()
  | Some source =>
    _ ← on_fw (Source_Stop source);
    _ ← modc (λ e, e <| of_source := None |>);
    of_on_sp SP_Release
  end.

(** The callback of the source; [size] is in bytes and [buffer] in samples. *)
Definition OF_ReadBufferCallback (buffer : list Z) (size : Z) : M unit :=
  channelId ← getc of_channelId;
  match DeinterleaveAudioData buffer (u32 (size / 2)) MONO with
  | None | Some (false, _) => mret ()
  | Some (true, audioData) =>
    if negb (Z.of_nat (length audioData) =? MONO) || (Z.of_nat (length audioData) <=? channelId) then mret ()
    else of_on_sp (SP_Write audioData)
  end.

(** ** Handlers *)

Definition OF_HandleGetParam : Hand := λ msg cur,
  match inMsg msg with
  | Some (BKey key) =>
    _ ← modc (λ e, e <| of_str := if bool_decide (key = lit WAKEUP_SOURCE_CHANNEL) then Int2String MONO else [] |>);
    of_answer 0 cur
  | _ => of_answer (-1) cur
  end.

Definition OF_HandleInit : Hand := λ _ _, of_answer 0 OF_INITIALIZED.

Definition OF_WakeupSource : M Z :=
  created ← OF_CreateWakeupSourceStopCallback;
  if negb created then mret (-1) else
  started ← OF_StartAudioSource;
  mret (if (started : bool) then 0 else -1).

Definition OF_HandleStart : Hand := λ msg cur,
  match body_int (inMsg msg) with
  | None => of_answer (-1) cur
  | Some _ =>
    _ ← modc (λ e, e <| of_channelId := 0 |>);
    _ ← StartAbility "single_level_event";
    ret ← OF_WakeupSource;
    of_answer ret (if ret =? 0 then OF_RECOGNIZED else cur)
  end.

Definition OF_HandleStartCapturer : Hand := λ msg cur,
  ret ← get_fw VerifySystemPermission;
  if negb (ret =? INTELLIGENT_VOICE_SUCCESS) then of_answer ret cur else
  match body_int (inMsg msg) with
  | None => of_answer INTELLIGENT_VOICE_START_CAPTURER_FAILED cur
  | Some channels => _ ← modc (λ e, e <| of_channels := channels |>); of_answer 0 OF_READ_CAPTURER
  end.

(** [msg.outMsg] is there: the message is only sent by [OnlyFirstWakeupEngine::Read]. *)
Definition OF_HandleRead : Hand := λ _ cur,
  channels ← getc of_channels;
  r ← of_on_sp (SP_Read [] channels);
  _ ← modc (λ e, e <| of_data := r.2 |>);
  if negb (r.1 =? 0) then of_answer r.1 cur else mret (mkResult 0 cur true).

Definition OF_HandleStopCapturer : Hand := λ _ _,
  _ ← OF_StopAudioSource;
  of_answer 0 OF_INITIALIZED.

Definition OF_HandleRelease : Hand := λ _ _,
  _ ← OF_DestroyWakeupSourceStopCallback;
  _ ← OF_StopAudioSource;
  of_answer 0 OF_IDLE.

Definition OF_HandleRecordStart : Hand := λ msg cur,
  match body_int (inMsg msg) with
  | None => of_answer (-1) cur
  | Some value =>
    if negb (value =? 0) && negb (value =? 1) then of_answer 0 cur else
    _ ← modc (λ e, e <| of_recordStart := value |>);
    _ ← st_when (value =? 0) OF_StopAudioSource;
    of_answer 0 OF_INITIALIZED
  end.

(** ** The machine *)

Abbreviation Machine := (ModuleStates Body E).

Definition OF_InitStates (m : Machine) : Machine :=
  let m := GroupAdd OF_GET_PARAM OF_HandleGetParam (FromState true OF_IDLE OF_READ_CAPTURER m) in
  let m := for_state OF_IDLE (Add OF_INIT OF_HandleInit) m in
  let m := for_state OF_INITIALIZED (Add OF_START_RECOGNIZE OF_HandleStart) m in
  let m := for_state OF_RECOGNIZED (λ a, Add OF_RECORD_START OF_HandleRecordStart (Add OF_STOP_CAPTURER OF_HandleStopCapturer
             (Add OF_START_CAPTURER OF_HandleStartCapturer
             (WaitUntil OF_RECOGNIZE_COMPLETE_TIMEOUT OF_HandleStopCapturer RECOGNIZE_COMPLETE_TIMEOUT_US 0 a)))) m in
  let m := for_state OF_READ_CAPTURER (λ a, Add OF_STOP_CAPTURER OF_HandleStopCapturer (Add OF_READ OF_HandleRead
             (WaitUntil OF_READ_CAPTURER_TIMEOUT OF_HandleStopCapturer READ_CAPTURER_TIMEOUT_US 0 a))) m in
  GroupAdd OF_RELEASE OF_HandleRelease (FromState true OF_INITIALIZED OF_READ_CAPTURER m).
(** The constructor. *)
Definition OF_make (e : E) : Machine := OF_InitStates (make_states OF_IDLE true PROCESS_IDLE e).
Definition OF_Handle (now : Z) (msg : StateMsg Body) (m : Machine) : option (Z * Machine) :=
  if negb (isInitSucc_ m) then Some (-1, m) else HandleMsg now msg m.

(** ** The engine of the service *)

Definition OF_send (now id : Z) (body : option Body) (m : Machine) : option (Z * Machine) := OF_Handle now (mkStateMsg id body) m.
Definition OF_OnDetected (now uuid : Z) (m : Machine) : option Machine :=
  '(r, m1) ← OF_send now OF_START_RECOGNIZE (Some (BInt uuid)) m;
  Some (if negb (r =? 0) then (with_env (AddAsyncTask (THandleCloseWakeupSource true) false) m1).2 else m1).
Definition OF_Init (now : Z) (m : Machine) : option (bool * Machine) :=
  '(r, m1) ← OF_send now OF_INIT None m; Some (r =? 0, m1).
Definition OF_StartCapturer (now channels : Z) : Machine → option (Z * Machine) := OF_send now OF_START_CAPTURER (Some (BInt channels)).
Definition OF_Read (now : Z) (m : Machine) : option (Z * list Z * Machine) :=
  '(r, m1) ← OF_send now OF_READ (Some BOut) m;
  Some (if negb (r =? 0) then (-1, [], m1) else (0, of_data (own (env m1)), m1)).
Definition OF_StopCapturer (now : Z) : Machine → option (Z * Machine) := OF_send now OF_STOP_CAPTURER None.
Definition OF_Detach (now : Z) : Machine → option (Z * Machine) := OF_send now OF_RELEASE None.
Definition OF_ReleaseAdapter (now : Z) : Machine → option (Z * Machine) := OF_send now OF_RELEASE None.
Definition OF_ResetSingleLevelWakeup (now : Z) (value : str) (m : Machine) : option Machine :=
  if negb (bool_decide (value = lit "true")) && negb (bool_decide (value = lit "false")) then Some m else
  snd <$> OF_send now OF_RECORD_START (Some (BInt (if bool_decide (value = lit "true") then 1 else 0))) m.
Fixpoint OF_set_params (now : Z) (kvs : list (str * str)) (m : Machine) : option Machine :=
  match kvs with
  | [] => Some m
  | (k, v) :: kvs =>
    m1 ← (if bool_decide (k = SINGLE_WAKEUP_RECORD_START) then OF_ResetSingleLevelWakeup now v m else Some m);
    OF_set_params now kvs m1
  end.
Definition OF_SetParameter (now : Z) (keyValueList : str) (m : Machine) : option Machine :=
  match SplitStringToKVPair keyValueList ∅ with
  | Some kv => OF_set_params now (pairs_in_order kv) m
  | None => Some m
  end.
Definition OF_GetParameter (now : Z) (key : str) (m : Machine) : option (str * Machine) :=
  '(r, m1) ← OF_send now OF_GET_PARAM (Some (BKey key)) m;
  Some (if negb (r =? 0) then ([], m1) else (of_str (own (env m1)), m1)).
End only_first.

(** ** What holds in each state *)

Section safety.
Context {A T D : Type} `{!AudioFw A} `{!TriggerPort T} `{!KvStore D}.
Context {JL : JsonLib} {PL : Platform} {AM : AudioModes}.
Abbreviation E := (Sys (OnlyFirstWakeupEngineImpl A) T D).
Abbreviation M := (St (Sys (OnlyFirstWakeupEngineImpl A) T D)).
Abbreviation Machine := (ModuleStates Body (Sys (OnlyFirstWakeupEngineImpl A) T D)).
Implicit Types e : E.

(** The microphone is read; it is not, and no audio is kept. *)
Definition of_on e : Prop := ∃ source, of_source (own e) = Some source ∧ isReading_ source = true.
Definition of_off e : Prop :=
  of_source (own e) = None ∧ channelCnt_ (of_sp (own e)) = 0 ∧ bufferQueue_ (of_sp (own e)) = [].
Definition of_either e : Prop := of_on e ∨ of_off e.

(** What the invariant looks at; the buffers only while there is no source. *)
Definition of_core e :=
  (of_source (own e), of_recordStart (own e),
   match of_source (own e) with
   | None => Some (channelCnt_ (of_sp (own e)), bufferQueue_ (of_sp (own e)))
   | Some _ => None
   end).
Abbreviation same := (frames of_core).
Lemma of_on_framed : framed of_core of_on.
Proof. intros e e' Hc. unfold of_on. unfold of_core in Hc. by injection Hc as -> _ _. Qed.
Lemma of_off_framed : framed of_core of_off.
Proof.
  intros e e' Hc (H1 & H2 & H3). unfold of_core in Hc. injection Hc as E1 _ E2. unfold of_off. rewrite E1 in E2 |- *. rewrite H1 in E2.
  injection E2 as -> ->. done.
Qed.
Lemma of_either_framed : framed of_core of_either.
Proof. intros e e' Hc [?|?]; [left; by eapply of_on_framed|right; by eapply of_off_framed]. Qed.

Lemma of_same_fw {B} (m : St A B) : same (on_fw m).
Proof. intros c e <-. by rewrite on_fw_run. Qed.
Lemma of_same_getc {B} (f : OnlyFirstWakeupEngineImpl A → B) : same (getc f).
Proof. by intros c e He. Qed.
Lemma of_same_emit o : same (emit o).
Proof. by intros c e <-. Qed.
Lemma of_same_modc f :
  (∀ x, (of_source (f x), of_recordStart (f x), of_sp (f x)) = (of_source x, of_recordStart x, of_sp x)) → same (modc f).
Proof. intros Hf c e <-. unfold of_core, modc. run. cbn. specialize (Hf (own e)). injection Hf as -> -> ->. done. Qed.
Create HintDb of_same discriminated.
#[local] Hint Resolve of_same_fw of_same_getc of_same_emit : of_same.
#[local] Hint Extern 1 (frames of_core (modc _)) => (apply of_same_modc; by intros []) : of_same.
#[local] Hint Extern 1 (hoare (λ e, of_core e = _) _ _) =>
  (lazymatch goal with |- hoare _ ?m _ => assert (frames of_core m) by (solve [auto with of_same nocore]); auto end) : ivoice.
Lemma of_same_ability event : same (StartAbility event : M unit).
Proof.
  intros c. unfold StartAbility. do 2 (apply hoare_seq; [by intros e He|intros ?]).
  destruct (_ || _); [by apply hoare_ret|]. destruct (negb _); [by apply hoare_ret|]. by apply of_same_emit.
Qed.
Lemma of_same_create : same OF_CreateWakeupSourceStopCallback.
Proof. intros c. unfold OF_CreateWakeupSourceStopCallback, get_fw. keeps. Qed.
Lemma of_same_destroy : same OF_DestroyWakeupSourceStopCallback.
Proof. intros c. unfold OF_DestroyWakeupSourceStopCallback, get_fw. keeps. Qed.
#[local] Hint Resolve of_same_ability of_same_create of_same_destroy : of_same.

(** ** The audio *)

Lemma of_stop : ⟪ of_either ⟫ OF_StopAudioSource ⟪ λ _, of_off ⟫.
Proof.
  unfold OF_StopAudioSource. intros e He. rewrite getc_bind. destruct (of_source (own e)) as [source|] eqn:Hs.
  - rewrite bind_run, on_fw_run. cbn [snd]. rewrite bind_run. unfold of_on_sp. cbn. by split_and!.
  - destruct He as [(x & Hx & _)|He]; [congruence|exact He].
Qed.
Lemma of_start : ⟪ λ _, True ⟫ OF_StartAudioSource ⟪ λ b, if b then of_on else of_off ⟫.
Proof.
  unfold OF_StartAudioSource. cbv zeta. do 2 (apply (hoare_bind _ _ (λ _ _, True)); [by intros e _|intros _]).
  apply (hoare_bind _ _ (λ r _, r.1 = true → isReading_ r.2 = true)).
  { intros e _. rewrite on_fw_run. cbn [fst snd]. apply Source_Start_reading. }
  intros [[] source]; cbn [fst snd negb]; intros e He; rewrite bind_run.
  - exists source. split; [done|by apply He].
  - rewrite bind_run. unfold of_on_sp. cbn. by split_and!.
Qed.

Definition of_reads (s : Z) : bool := (s =? OF_RECOGNIZED) || (s =? OF_READ_CAPTURER).
Definition of_inv (s : Z) e : Prop :=
  if of_reads s then of_on e
  else if s =? OF_INITIALIZED then of_off e ∨ (of_recordStart (own e) = 1 ∧ of_on e) else of_off e.
Lemma of_inv_framed s : framed of_core (of_inv s).
Proof.
  intros e e' Hc. unfold of_inv. repeat case_match; [by apply of_on_framed| |by apply of_off_framed].
  assert (of_recordStart (own e') = of_recordStart (own e)) as -> by (unfold of_core in Hc; by injection Hc).
  intros [?|[? ?]]; [left; by eapply of_off_framed|right; split; [done|by eapply of_on_framed]].
Qed.
Lemma of_inv_either s e : of_inv s e → of_either e.
Proof. unfold of_inv, of_either. repeat case_match; naive_solver. Qed.

Abbreviation post := (post of_inv OF_IDLE OF_READ_CAPTURER).
Abbreviation good_handler := (good_handler of_inv OF_IDLE OF_READ_CAPTURER : Z → Handler Body E → Prop).
Lemma of_stays cur ret : OF_IDLE ≤ cur ≤ OF_READ_CAPTURER → ⟪ of_inv cur ⟫ of_answer ret cur ⟪ post cur ⟫.
Proof. apply answer_stay. Qed.
Lemma of_goes cur next (Q : E → Prop) :
  OF_IDLE ≤ next ≤ OF_READ_CAPTURER → (∀ e, Q e → of_inv next e) → ⟪ Q ⟫ of_answer 0 next ⟪ post cur ⟫.
Proof. intros Hn HQ e He. split; [by apply HQ|done]. Qed.
Lemma of_stop_then cur next : next = OF_IDLE ∨ next = OF_INITIALIZED →
  ⟪ of_either ⟫ (_ ← OF_StopAudioSource; of_answer 0 next) ⟪ post cur ⟫.
Proof.
  intros Hn. apply (hoare_bind _ _ (λ _, of_off)); [apply of_stop|intros _]. destruct Hn as [-> | ->]; apply of_goes; try done.
  intros e He. by left.
Qed.

Lemma of_good_get_param s : OF_IDLE ≤ s ≤ OF_READ_CAPTURER → good_handler s OF_HandleGetParam.
Proof.
  intros Hs msg. unfold OF_HandleGetParam. destruct (inMsg msg) as [[]|]; try by apply of_stays.
Qed.
Lemma of_good_init : good_handler OF_IDLE OF_HandleInit.
Proof. intros msg. apply of_goes; [done|]. intros e He. by left. Qed.
Lemma of_good_start : good_handler OF_INITIALIZED OF_HandleStart.
Proof.
  intros msg. unfold OF_HandleStart. destruct (body_int (inMsg msg)); [|by apply of_stays].
  do 2 (eapply hoare_bind; [eapply (frames_run of_core); [apply of_inv_framed|auto with of_same nocore]|intros ?; cbv beta]).
  apply (hoare_bind _ _ (λ ret, if ret =? 0 then of_on else of_inv OF_INITIALIZED)).
  - unfold OF_WakeupSource. eapply hoare_bind; [eapply (frames_run of_core); [apply of_inv_framed|auto with of_same nocore]|].
    intros []; cbn [negb]; [|by intros e He].
    eapply hoare_bind; [|intros started; cbv beta].
    + eapply hoare_conseq; [apply of_start|done|intros b e Hb; exact Hb].
    + intros e He. destruct started; [exact He|by left].
  - intros ret. cbv beta. intros e He. cbn. destruct (Z.eqb_spec ret 0) as [->|Hr]; [by split|]. split; [|done].
    cbn. by rewrite (proj2 (Z.eqb_neq _ _) Hr).
Qed.
Lemma of_good_start_capturer : good_handler OF_RECOGNIZED OF_HandleStartCapturer.
Proof.
  intros msg. unfold OF_HandleStartCapturer, get_fw.
  apply (hoare_bind _ _ (λ _, of_inv OF_RECOGNIZED)); [by intros e He|intros ret].
  destruct (ret =? _); cbn [negb]; [|by apply of_stays]. destruct (body_int (inMsg msg)); [|by apply of_stays].
  eapply hoare_bind; [eapply (frames_run of_core); [apply of_inv_framed|auto with of_same nocore]|intros ?; by apply of_goes].
Qed.
Lemma of_on_buffers {B} (m : St WakeupSourceProcess B) : ⟪ of_on ⟫ of_on_sp m ⟪ λ _, of_on ⟫.
Proof. intros e He. unfold of_on_sp. by destruct (m _). Qed.
Lemma of_good_read : good_handler OF_READ_CAPTURER OF_HandleRead.
Proof.
  intros msg. unfold OF_HandleRead. apply (hoare_bind _ _ (λ _, of_on)); [by intros e He|intros channels].
  apply (hoare_bind _ _ (λ _, of_on)); [apply of_on_buffers|intros r].
  apply (hoare_bind _ _ (λ _, of_on)); [apply (frames_run of_core); [apply of_on_framed|auto with of_same nocore]|intros _].
  destruct (r.1 =? 0); cbn [negb]; [by intros e He; split|]. by apply (of_stays OF_READ_CAPTURER).
Qed.
Lemma of_good_stop_capturer s : of_reads s = true → good_handler s OF_HandleStopCapturer.
Proof.
  intros Hs msg. unfold OF_HandleStopCapturer.
  eapply hoare_conseq; [apply (of_stop_then s); by right|intros e He; by eapply of_inv_either|done].
Qed.
Lemma of_good_release s : good_handler s OF_HandleRelease.
Proof.
  intros msg. unfold OF_HandleRelease. eapply hoare_bind; [eapply (frames_run of_core); [apply of_inv_framed|auto with of_same nocore]|].
  intros ?; cbv beta. eapply hoare_conseq; [apply (of_stop_then s); by left|intros e He; by eapply of_inv_either|done].
Qed.
Lemma of_good_record_start : good_handler OF_RECOGNIZED OF_HandleRecordStart.
Proof.
  intros msg. unfold OF_HandleRecordStart. destruct (body_int (inMsg msg)) as [value|]; [|by apply of_stays].
  destruct (Z.eqb_spec value 0) as [->|H0]; cbn [negb andb].
  - apply (hoare_bind _ _ (λ _, of_either)); [intros e He; by left|intros _].
    apply (hoare_bind _ _ (λ _, of_off)); [apply of_stop|intros _]. apply of_goes; [done|]. intros e He. by left.
  - destruct (Z.eqb_spec value 1) as [->|H1]; cbn [negb]; [|by apply of_stays].
    apply (hoare_bind _ _ (λ _ e, of_recordStart (own e) = 1 ∧ of_on e)); [by intros e He|intros _].
    apply (hoare_bind _ _ (λ _ e, of_recordStart (own e) = 1 ∧ of_on e)); [by intros e He|intros _].
    apply of_goes; [done|]. intros e He. by right.
Qed.

(** ** The machine *)

#[local] Tactic Notation "hide" uconstr(h) := generalize (h : Handler Body E); intros ?.
Ltac hide_handlers :=
  hide OF_HandleGetParam; hide OF_HandleInit; hide OF_HandleStart; hide OF_HandleRecordStart; hide OF_HandleStopCapturer;
  hide OF_HandleStartCapturer; hide OF_HandleRead; hide OF_HandleRelease.
Ltac compute_machine := unfold OF_make, OF_InitStates; hide_handlers; by vm_compute.

(** The group of the first [FromState] is still in use at the second one: IDLE has a handler
    for RELEASE too. *)
Lemma only_first_table e :
  Permutation (actions_list (OF_make e))
    [(0, 7, OF_HandleGetParam); (0, 0, OF_HandleInit); (0, 8, OF_HandleRelease);
     (1, 7, OF_HandleGetParam); (1, 2, OF_HandleStart); (1, 8, OF_HandleRelease);
     (2, 7, OF_HandleGetParam); (2, 9, OF_HandleStopCapturer); (2, 3, OF_HandleStartCapturer); (2, 5, OF_HandleStopCapturer);
     (2, 10, OF_HandleRecordStart); (2, 8, OF_HandleRelease);
     (3, 7, OF_HandleGetParam); (3, 6, OF_HandleStopCapturer); (3, 4, OF_HandleRead); (3, 5, OF_HandleStopCapturer);
     (3, 8, OF_HandleRelease)].
Proof.
  unfold OF_make, OF_InitStates. hide_handlers.
  match goal with |- Permutation ?a _ => let b := eval vm_compute in a in change a with b end.
  solve_Permutation.
Qed.
Lemma only_first_timeouts e :
  Permutation (timeout_table (OF_make e))
    [(2, 9, Some (OF_HandleStopCapturer : Handler Body E)); (3, 6, Some (OF_HandleStopCapturer : Handler Body E))].
Proof.
  unfold OF_make, OF_InitStates. hide_handlers.
  match goal with |- Permutation ?a _ => let b := eval vm_compute in a in change a with b end.
  solve_Permutation.
Qed.
Lemma only_first_states e s : s ∈ seqZ 0 4 → is_Some (states_ (OF_make e) !! s).
Proof.
  unfold OF_make, OF_InitStates. hide_handlers. intros Hs.
  assert (s = 0 ∨ s = 1 ∨ s = 2 ∨ s = 3) as Hc by (apply elem_of_seqZ in Hs; lia).
  repeat (destruct Hc as [->|Hc]; [vm_compute; by eexists|]). subst s. vm_compute. by eexists.
Qed.
Lemma only_first_curr e : currState_ (OF_make e) = Some OF_IDLE.
Proof. compute_machine. Qed.
Lemma only_first_env e : env (OF_make e) = e.
Proof. unfold OF_make, OF_InitStates. hide_handlers. by vm_compute. Qed.
Lemma only_first_timers e : timers (OF_make e) = TimerMgr.Start true None (TimerMgr.make 10).
Proof. done. Qed.
Lemma only_first_configured e : configured (OF_make e).
Proof. apply (configured_intro _ OF_IDLE); [compute_machine|apply only_first_curr|apply only_first_states; by apply elem_of_seqZ]. Qed.
Lemma only_first_no_timer e :
  forallb (λ x, match x.2 with Some a => actTimerId a =? INVALID_ID | None => true end)
    (map_to_list (states_ (OF_make e))) = true.
Proof. compute_machine. Qed.
Lemma only_first_keeps e : handlers_keep of_inv (OF_make e).
Proof.
  apply (good_table of_inv OF_IDLE OF_READ_CAPTURER); [apply only_first_states|]. rewrite only_first_table.
  repeat (apply Forall_cons; split; [|]); [..|by apply Forall_nil]; cbn [fst snd].
  all: first [simple apply of_good_get_param; by split|simple apply of_good_init|simple apply of_good_start
    |simple apply of_good_start_capturer|simple apply of_good_stop_capturer; done|simple apply of_good_read
    |simple apply of_good_record_start|simple apply of_good_release].
Qed.
Lemma only_first_timeouts_to e : timeouts_to (OF_make e) OF_IDLE OF_INITIALIZED.
Proof.
  unfold timeouts_to. rewrite only_first_timeouts.
  repeat (apply Forall_cons; split; [|]); [..|by apply Forall_nil]; (split; [done|]); intros h body e' [= <-];
    revert e'; match goal with |- ∀ e', goes_to _ (?c e').1 => cut (returns c (goes_to OF_INITIALIZED)); [intros Hc e'; by apply Hc|] end;
    unfold OF_HandleStopCapturer; repeat (apply returns_seq; intros ?); by intros e' _.
Qed.
Lemma only_first_target e : is_Some (states_ (OF_make e) !! OF_INITIALIZED).
Proof. apply only_first_states. by apply elem_of_seqZ. Qed.
Lemma only_first_timeout e s : of_reads s = true → timeout_to (OF_make e) s OF_INITIALIZED.
Proof.
  intros Hs. apply (timeouts_to_timeout _ _ _ (only_first_timeouts_to e)).
  apply orb_true_iff in Hs as [Hs|Hs]; apply Z.eqb_eq in Hs; subst s; do 2 eexists; rewrite only_first_timeouts; [left|right; left].
Qed.
Lemma only_first_good e : of_off e → good of_inv (OF_make e) (OF_make e) [].
Proof.
  intros He. apply (good_fresh of_inv (OF_make e) OF_IDLE OF_INITIALIZED (only_first_timeouts_to e) (only_first_target e)
    (only_first_timers e) (only_first_no_timer e) (only_first_configured e) (only_first_curr e)). by rewrite only_first_env.
Qed.

(** ** Runs *)

(** Messages, whoever sends them; detections; parameters; a buffer of a source that reads;
    the timer thread; and what other parts of the service change. *)
Inductive ofstep : relation (Machine * list TimerMgr.TimerEvent) :=
| of_msg now msg m fl r m' : OF_Handle now msg m = Some (r, m') → ofstep (m, fl) (m', fl)
| of_detected now uuid m fl m' : OF_OnDetected now uuid m = Some m' → ofstep (m, fl) (m', fl)
| of_param now kv m fl m' : OF_SetParameter now kv m = Some m' → ofstep (m, fl) (m', fl)
| of_buffer buffer size m fl :
    is_Some (of_source (own (env m))) → ofstep (m, fl) ((with_env (OF_ReadBufferCallback buffer size) m).2, fl)
| of_thread x y : thread_step x y → ofstep x y
| of_world e m fl : (∃ a, own e = own (env m) <| of_fw := a |>) → ofstep (m, fl) (m <| env := e |>, fl).

Section keep.
Context (m0 : Machine) (Hk : handlers_keep of_inv m0).
Abbreviation good m fl := (good of_inv m0 m fl).

Lemma good_of_handle now msg m fl r m' : good m fl → OF_Handle now msg m = Some (r, m') → good m' fl.
Proof. intros Hm. unfold OF_Handle. destruct (negb _); [by intros [= _ <-]|by apply (good_handle of_inv m0 Hk)]. Qed.
Lemma good_of_snd now msg m fl m' : good m fl → snd <$> OF_Handle now msg m = Some m' → good m' fl.
Proof. intros Hm Hs. destruct (OF_Handle _ _ _) as [[r m1]|] eqn:Hr; [|done]. apply (inj Some) in Hs. subst m'. by eapply good_of_handle. Qed.
Lemma good_of_params now kvs m fl m' : good m fl → OF_set_params now kvs m = Some m' → good m' fl.
Proof.
  revert m. induction kvs as [|[k v] kvs IH]; intros m Hm; cbn [OF_set_params]; [by intros [= <-]|].
  destruct (bool_decide _); [|exact (IH m Hm)]. destruct (OF_ResetSingleLevelWakeup now v m) as [m1|] eqn:Hr; [|done].
  apply IH. unfold OF_ResetSingleLevelWakeup in Hr. destruct (_ && _); [by simplify_eq|]. by eapply good_of_snd.
Qed.
Lemma ofstep_good x y : ofstep x y → good x.1 x.2 → good y.1 y.2.
Proof.
  intros [now msg m fl r m' Hr|now uuid m fl m' Hd|now kv m fl m' Hp|buffer size m fl Hs|x0 y0 Ht|e m fl [a Ha]] Hm; cbn [fst snd] in *.
  - by eapply good_of_handle.
  - unfold OF_OnDetected, OF_send in Hd. destruct (OF_Handle _ _ _) as [[r m1]|] eqn:Hr; [|done]. apply (inj Some) in Hd. subst m'.
    pose proof (good_of_handle _ _ _ _ _ _ Hm Hr) as H1. destruct (negb _); [|done].
    apply good_keeping; [|done]. intros s e He. eapply (of_inv_framed s e); [|done]. unfold AddAsyncTask. run. by destruct (_ || _).
  - unfold OF_SetParameter in Hp. destruct (SplitStringToKVPair _ _); [by eapply good_of_params|by simplify_eq].
  - apply good_with_env; [done|]. intros cur _ e [He ->]. eapply (of_inv_framed cur); [|exact He].
    destruct Hs as [src Hsrc]. unfold of_core, OF_ReadBufferCallback. rewrite getc_bind. destruct (DeinterleaveAudioData _ _ _) as [[[] l]|]; [|done..].
    destruct (_ || _); [done|]. unfold of_on_sp. destruct (SP_Write _ _). cbn. by rewrite Hsrc.
  - by eapply (good_thread of_inv m0 Hk).
  - apply good_env; [done|]. intros cur Hi _. revert Hi. apply of_inv_framed. unfold of_core. by rewrite Ha.
Qed.
End keep.

Lemma new_off a t d ts n : of_off (mkSys (new_only_first a) t d ts [] n : E).
Proof. done. Qed.

(** C30: When the microphone is read with a first stage only.  Whatever is sent to the engine,
    and in whatever order: in RECOGNIZED and READ_CAPTURER a source reads the microphone, in
    IDLE there is none, and in INITIALIZED there is one only if the parameter record_start
    has been set to true.  From RECOGNIZED and READ_CAPTURER the timer thread alone brings
    the engine to INITIALIZED with no source and no audio kept. *)
Theorem only_first_reading a t d ts n m fl
    (Hr : rtc ofstep (OF_make (mkSys (new_only_first a) t d ts [] n), []) (m, fl)) :
  ∃ s, currState_ m = Some s ∧
    (of_reads s = true → of_on (env m)) ∧ (s = OF_IDLE → of_off (env m)) ∧
    (s = OF_INITIALIZED → of_off (env m) ∨ of_recordStart (own (env m)) = 1) ∧
    (of_reads s = true → ∃ y, rtc thread_step (m, fl) y ∧ currState_ y.1 = Some OF_INITIALIZED ∧ of_off (env y.1)).
Proof.
  set (e0 := mkSys (new_only_first a) t d ts [] n) in *.
  pose proof (good_run _ _ _ _ _ (ofstep_good _ (only_first_keeps e0)) Hr (only_first_good e0 (new_off a t d ts n))) as Hg.
  pose proof Hg as [_ _ (s & Hs & Hi)]. exists s. split; [done|]. unfold of_inv in Hi. split_and!.
  - intros H1. by rewrite H1 in Hi.
  - intros ->. exact Hi.
  - intros ->. cbn in Hi. destruct Hi as [?|[? _]]; [by left|by right].
  - intros H1. destruct (good_ends_post _ _ (only_first_keeps e0) m fl s OF_INITIALIZED of_off Hg Hs (only_first_timeout e0 s H1))
      as (y & Hy & H2 & _ & H3); [|by exists y].
    intros ty h Hin. rewrite only_first_timeouts in Hin.
    assert (h = OF_HandleStopCapturer) as ->.
    { apply elem_of_cons in Hin as [Hq|[Hq|Hq%not_elem_of_nil]%elem_of_cons]; [by injection Hq..|done]. }
    intros e He. apply of_inv_either in He. unfold OF_HandleStopCapturer. rewrite bind_run. by apply of_stop.
Qed.
End safety.

(** ** Concrete runs *)

Abbreviation RefFirst := (Sys (OnlyFirstWakeupEngineImpl RefFw) (gmap string str) (gmap string str)).
Abbreviation of_first := (OF_make (mkSys (new_only_first (mkRefFw 0 false [])) (∅ : gmap string str) (Some (∅ : gmap string str)) [] [] 0 : RefFirst)).

(** A start-up, a wakeup, and a client that may start to read. *)
Definition of_session : list (StateMsg Body) :=
  [mkStateMsg OF_INIT None; mkStateMsg OF_START_RECOGNIZE (Some (BInt 1)); mkStateMsg OF_START_CAPTURER (Some (BInt 1))].
Definition of_do (msg : StateMsg Body) (x : ModuleStates Body RefFirst * list TimerMgr.TimerEvent) :=
  (λ r, (r.2, x.2)) <$> OF_Handle 1 msg x.1.
Lemma of_do_step msg x y : of_do msg x = Some y → ofstep x y.
Proof.
  destruct x as [m fl]. unfold of_do. cbn [fst snd]. destruct (OF_Handle 1 msg m) as [[r m']|] eqn:Hh; [|done].
  intros Hq%(inj Some). subst y. by eapply of_msg.
Qed.

Lemma only_first_reading_witness :
  ∃ (m : ModuleStates Body RefFirst) y, currState_ m = Some OF_READ_CAPTURER ∧ of_on (env m) ∧
    rtc thread_step (m, []) y ∧ currState_ y.1 = Some OF_INITIALIZED ∧ of_off (env y.1).
Proof.
  assert (match run_ops of_do of_session (of_first, []) with
    | Some (m, fl) => bool_decide (currState_ m = Some OF_READ_CAPTURER) && bool_decide (fl = [])
    | None => false
    end = true) as Hc by by vm_compute.
  destruct (run_ops of_do of_session (of_first, [])) as [[m fl]|] eqn:Hm; [|done].
  apply andb_true_iff in Hc as [Hs%bool_decide_eq_true Hf%bool_decide_eq_true].
  pose proof (run_ops_rtc of_do ofstep of_session _ _ of_do_step Hm) as Hr. rewrite Hf in Hr.
  destruct (only_first_reading (mkRefFw 0 false []) ∅ (Some ∅) [] 0 m [] Hr) as (s & Hs' & H1 & _ & _ & H4).
  rewrite Hs in Hs'. injection Hs' as <-. destruct (H4 eq_refl) as (y & Hy & H5 & H6).
  exists m, y. exact (conj Hs (conj (H1 eq_refl) (conj Hy (conj H5 H6)))).
Defined.

(** What a run of messages leaves: the state, whether a source reads, the timer of the state. *)
Definition of_left (msgs : list (StateMsg Body)) :=
  (λ x : ModuleStates Body RefFirst * list TimerMgr.TimerEvent,
     (currState_ x.1, isReading_ <$> of_source (own (env x.1)), actTimerId <$> (currState_ x.1 ≫= (λ s, mjoin (states_ x.1 !! s)))))
  <$> run_ops of_do msgs (of_first, []).

(** The parameter record_start=true takes the engine to INITIALIZED with its source reading,
    and there the message that stops it has no handler. *)
Example record_start_leaves_source :
  of_left [mkStateMsg OF_INIT None; mkStateMsg OF_START_RECOGNIZE (Some (BInt 1)); mkStateMsg OF_RECORD_START (Some (BInt 1));
           mkStateMsg OF_STOP_CAPTURER None] = Some (Some OF_INITIALIZED, Some true, Some INVALID_ID).
Proof. by vm_compute. Qed.
