(* ===== verification/OfflineAudio.v ===== *)
(** * Audio of an enrollment, processed again

    [base/engine_offline_audio_processor.cpp]: after an enrollment the recordings of its
    three sentences are read back from the HAL with a text that says at which frames the
    wakeup word and the command of each begin and end, and the six pieces are fed to an
    effect chain of the audio framework.  The theorems say what the text is read as, when
    the pieces are inside of the recordings and what the chain is fed, and that the
    processing ends and leaves no chain behind. *)

From S2P Require Import Prelude StringUtil EngineTypes EngineUtil.
From Stdlib Require Import Ascii.

(** ** The effect chains of the audio framework *)

Class OfflineFx (X : Type) := {
  fx_GetOfflineAudioEffectChains : X → list str;
  (** Whether a chain is made. *)
  fx_CreateOfflineAudioEffectChain : str → St X bool;
  fx_Configure : St X Z;
  fx_Prepare : St X Z;
  fx_GetEffectBufferSize : St X Z;
  fx_SetParam : str → St X Z;
  (** The bytes of the input, and the size of the output. *)
  fx_Process : list Z → Z → St X Z;
  fx_Release : St X unit }.

Definition BYTES_PER_FRAME : Z := 320.
Definition OFFLINE_BYTES_MAX_16K_MONO : Z := 5120.
Definition CHAIN_NAME_POST_EDIT : str := lit "asr_tse_reg".
Definition EINVAL : Z := 22.
Definition ENODEV : Z := 19.

(** What code that reads memory comes to: a result, a read outside of a buffer (undefined
    in C++), or, for a loop, no fuel left. *)
Inductive Outcome (A : Type) := Ret (a : A) | Outside | OutOfFuel.
Arguments Ret {A} _.
Arguments Outside {A}.
Arguments OutOfFuel {A}.

(** The HAL with its manager, the audio framework, and the members of the processor:
    whether it has a manager and a chain.  [oa_slept] counts the seconds it has slept. *)
Record Offline (H X : Type) := mkOffline { oa_hw : Hw H; oa_fx : X; oa_manager : bool; oa_chain : bool; oa_slept : Z }.
Arguments mkOffline {H X} _ _ _ _ _.
Arguments oa_hw {H X} _.
Arguments oa_fx {H X} _.
Arguments oa_manager {H X} _.
Arguments oa_chain {H X} _.
Arguments oa_slept {H X} _.
#[global] Instance Offline_eta H X : Eta (Offline H X) :=
  λ p, mkOffline (oa_hw p) (oa_fx p) (oa_manager p) (oa_chain p) (oa_slept p).
(** The constructor. *)
Definition new_offline {H X} (w : Hw H) (x : X) : Offline H X := mkOffline w x false false 0.

(** ** The frame numbers in the text *)

Definition FRAME_KEYS : list str := [lit "beginFrameNo"; lit "endFrameNo"; lit "cmdBeginFrame"; lit "cmdEndFrame"].

(** The digits at the front, and what follows. *)
Fixpoint span_digits (s : str) : str * str :=
  match s with
  | c :: s' => match digit_of c with
               | Some _ => let '(d, r) := span_digits s' in (c :: d, r)
               | None => ([], s)
               end
  | [] => ([], [])
  end.
(** The regular expression, anchored: a key, blanks, a colon, blanks, digits (the group) and
    what follows.  No choice in it can be taken back: no key is a prefix of another, and
    neither a colon nor a digit is a blank. *)
Definition frame_match (s : str) : option (str * str) :=
  key ← list_find (λ k, starts_with k s = true) FRAME_KEYS;
  match skip_spaces (drop (length key.2) s) with
  | c :: s1 =>
    if bool_decide (c = ":"%char) then
      let '(d, r) := span_digits (skip_spaces s1) in
      match d with [] => None | _ => Some (d, r) end
    else None
  | [] => None
  end.
(** [std::sregex_iterator] over a line: the groups of the matches, left to right; the next
    search begins where the last match ends. *)
Fixpoint frame_groups (fuel : nat) (s : str) : list str :=
  match fuel with
  | O => []
  | S fuel =>
    match frame_match s with
    | Some (d, r) => d :: frame_groups fuel r
    | None => match s with [] => [] | _ :: s' => frame_groups fuel s' end
    end
  end.
Definition line_frames (line : str) : list Z := omap stoi (frame_groups (S (length line)) line).
(** [std::getline] gives no empty line after the last end of line, and empty lines are left out. *)
Definition parseFrameNumbers (buffer4 : list Z) : list Z :=
  let text := (λ b, ascii_of_nat (Z.to_nat b)) <$> buffer4 in
  mjoin (line_frames <$> filter nonempty (split_on (ascii_of_nat 10) text)).

Section offline.
Context {H X : Type} `{!EngineHal H} `{!OfflineFx X}.
(** Whether [data] of an empty vector is null, which the language leaves open. *)
Context (null_data : bool).
Abbreviation S := (Offline H X).
Abbreviation M := (St (Offline H X)).

Definition on_fx {A} (m : St X A) : M A := λ p, let '(a, x) := m (oa_fx p) in (a, p <| oa_fx := x |>).
Definition on_oa_hw {A} (m : St (Hw H) A) : M A := λ p, let '(a, w) := m (oa_hw p) in (a, p <| oa_hw := w |>).
(** Code that reads memory: the rest is only run after a result. *)
Definition seq_out {A B} (m : M (Outcome A)) (k : A → M (Outcome B)) : M (Outcome B) :=
  r ← m;
  match r with
  | Ret a => k a
  | Outside => mret Outside
  | OutOfFuel => mret OutOfFuel
  end.
Definition out_of {A} (m : M A) : M (Outcome A) := a ← m; mret (Ret a).

(** ** Reading the files *)

Definition GetWakeupBackupAudio (filePath : str) (buffer : list Z) : M (Z * list Z) :=
  p ← st_get;
  let ret := (Host_GetWakeupSourceFilesList (oa_hw p)).1 in
  if negb (ret =? 0) then mret (ret, buffer) else on_oa_hw (Host_GetWakeupSourceFile filePath).

(** [ProcessOfflineAudio]: the first failure ends the loop. *)
Fixpoint read_files (filePaths : list str) (buffers : list (list Z)) : M (Z * list (list Z)) :=
  match filePaths, buffers with
  | f :: filePaths, b :: buffers =>
    r ← GetWakeupBackupAudio f b;
    if negb (r.1 =? 0) then mret (r.1, r.2 :: buffers) else
    rest ← read_files filePaths buffers;
    mret (rest.1, r.2 :: rest.2)
  | _, _ => mret (0, buffers)
  end.
(** [ProcessOfflineAudioWhile]: all files are read and the results added up. *)
Fixpoint read_files_sum (ret : Z) (filePaths : list str) (buffers : list (list Z)) : M (Z * list (list Z)) :=
  match filePaths, buffers with
  | f :: filePaths, b :: buffers =>
    r ← GetWakeupBackupAudio f b;
    rest ← read_files_sum (i32 (ret + r.1)) filePaths buffers;
    mret (rest.1, r.2 :: rest.2)
  | _, _ => mret (ret, buffers)
  end.
Definition sleep_1 : M unit := st_modify (λ p, p <| oa_slept ::= Z.succ |>).
(** The loop that polls: the last result, with the buffers if it is 0. *)
Fixpoint poll_files (fuel : nat) (tryCount : Z) (filePaths : list str) (buffers : list (list Z)) : M (Outcome (Z * list (list Z))) :=
  match fuel with
  | O => mret OutOfFuel
  | Datatypes.S fuel =>
    r ← read_files_sum 0 filePaths buffers;
    if r.1 =? 0 then mret (Ret r) else
    if 10 <? tryCount + 1 then mret (Ret r) else
    _ ← sleep_1;
    poll_files fuel (tryCount + 1) filePaths r.2
  end.

(** ** The effect chain *)

Definition ReleaseResources : M unit :=
  p ← st_get;
  _ ← st_when (oa_chain p) (_ ← on_fx fx_Release; st_modify (λ p, p <| oa_chain := false |>));
  st_modify (λ p, p <| oa_manager := false |>).

Definition CreateOfflineAudioEffectChain : M Z :=
  _ ← st_modify (λ p, p <| oa_manager := true |>);
  p ← st_get;
  match list_find (λ s, is_Some (find_sub CHAIN_NAME_POST_EDIT s)) (fx_GetOfflineAudioEffectChains (oa_fx p)) with
  | None => mret (- ENODEV)
  | Some (_, selectedChain_) =>
    made ← on_fx (fx_CreateOfflineAudioEffectChain selectedChain_);
    _ ← st_modify (λ p, p <| oa_chain := made |>);
    mret (if (made : bool) then 0 else - ENODEV)
  end.

Definition ConfigureAudioStreamAndEffectChain : M Z :=
  p ← st_get;
  if negb (oa_chain p) then mret (-1) else
  ret ← on_fx fx_Configure;
  if negb (ret =? 0) then mret ret else
  ret ← on_fx fx_Prepare;
  if negb (ret =? 0) then mret ret else
  on_fx fx_GetEffectBufferSize.

Definition frame_param (frameNumbers : list Z) : str := lit "FRAME_NUMBERS:" ++ join ","%char (print_int <$> frameNumbers).
Definition SetOfflineEffectChainParams (frameNumbers : list Z) : M Z :=
  p ← st_get;
  if negb (oa_chain p) then mret (-1) else on_fx (fx_SetParam (frame_param frameNumbers)).

Definition audio_offline_init (frameNumbers : list Z) : M Z :=
  ret ← CreateOfflineAudioEffectChain;
  if negb (ret =? 0) then mret ret else
  ret ← ConfigureAudioStreamAndEffectChain;
  if negb (ret =? 0) then mret ret else
  SetOfflineEffectChainParams frameNumbers.

(** ** The pieces *)

(** The bytes from [offset] on, by a library that reads all it is given. *)
Definition read_bytes (data : list Z) (offset size : Z) : M (Outcome (list Z)) :=
  mret (if (0 <=? offset) && (offset + size <=? Z.of_nat (length data))
        then Ret (take (Z.to_nat size) (drop (Z.to_nat offset) data)) else Outside).

(** The loop of [ProcessDataWithOfflineEffect]. *)
Fixpoint process_loop (fuel : nat) (data : list Z) (inOffset remainingSize outputBufferSize maxProcessSize : Z) : M (Outcome Z) :=
  match fuel with
  | O => mret OutOfFuel
  | Datatypes.S fuel =>
    if negb (0 <? remainingSize) then mret (Ret 0) else
    let currentProcessSize := if maxProcessSize <? remainingSize then maxProcessSize else remainingSize in
    seq_out (read_bytes data inOffset currentProcessSize) (λ input,
    seq_out (out_of (on_fx (fx_Process input outputBufferSize))) (λ ret_status,
    if negb (ret_status =? 0) then mret (Ret ret_status) else
    process_loop fuel data (inOffset + currentProcessSize) (remainingSize - currentProcessSize) outputBufferSize maxProcessSize))
  end.

(** [inputData] is the address [offset] bytes into [data]; it must not be outside of it. *)
Definition ProcessDataWithOfflineEffect (data : list Z) (offset inputDataSize outputBufferSize maxProcessSize : Z) : M (Outcome Z) :=
  if Z.of_nat (length data) <? offset then mret Outside else
  if null_data && bool_decide (data = []) then mret (Ret (- EINVAL)) else
  if inputDataSize <=? 0 then mret (Ret 0) else
  p ← st_get;
  if negb (oa_chain p) then mret (Ret (- ENODEV)) else
  process_loop (Datatypes.S (Z.to_nat inputDataSize)) data offset inputDataSize outputBufferSize maxProcessSize.

(** The offset and the size of a piece; the products are of type [uint32_t]. *)
Definition piece_offset (begin : Z) : Z := u32 (begin * BYTES_PER_FRAME).
Definition piece_size (begin end_ : Z) : Z := u32 ((end_ - begin + 1) * BYTES_PER_FRAME).

Definition frame (frameNumbers : list Z) (k : nat) : Z := default 0 (frameNumbers !! k).
(** The six calls: piece [k] is in recording [k / 2]. *)
Fixpoint process_pieces (ks : list nat) (total : Z) (buffers : list (list Z)) (frameNumbers : list Z) : M (Outcome Z) :=
  match ks with
  | [] => mret (Ret total)
  | k :: ks =>
    let begin := frame frameNumbers (2 * k) in
    let end_ := frame frameNumbers (2 * k + 1) in
    seq_out (ProcessDataWithOfflineEffect (default [] (buffers !! (k / 2)%nat)) (piece_offset begin) (piece_size begin end_)
               BYTES_PER_FRAME OFFLINE_BYTES_MAX_16K_MONO) (λ r,
    process_pieces ks (i32 (total + r)) buffers frameNumbers)
  end.
Definition ProcessRegistrationCorpusData (buffers : list (list Z)) (frameNumbers : list Z) : M (Outcome Z) :=
  if Z.of_nat (length buffers) <? 4 then mret (Ret (-1)) else
  if Z.of_nat (length frameNumbers) <? 12 then mret (Ret (-1)) else
  process_pieces [0; 1; 2; 3; 4; 5]%nat 0 buffers frameNumbers.

(** ** The two entry points *)

(** What follows in both once the files are read; only [ProcessOfflineAudio] releases the
    chain after a failure of the processing. *)
Definition process_buffers (release_always : bool) (buffers : list (list Z)) : M (Outcome Z) :=
  let frameNumbers := parseFrameNumbers (default [] (buffers !! 3%nat)) in
  if Z.of_nat (length frameNumbers) <? 12 then mret (Ret (-1)) else
  seq_out (out_of (audio_offline_init frameNumbers)) (λ ret,
  if negb (ret =? 0) then mret (Ret ret) else
  seq_out (ProcessRegistrationCorpusData buffers frameNumbers) (λ ret,
  if negb release_always && negb (ret =? 0) then mret (Ret ret) else
  _ ← ReleaseResources;
  mret (Ret ret))).

Definition ProcessOfflineAudio (filePaths : list str) : M (Outcome Z) :=
  r ← read_files filePaths (replicate 4 []);
  if negb (r.1 =? 0) then mret (Ret r.1) else process_buffers true r.2.

Definition ProcessOfflineAudioWhile (filePaths : list str) : M (Outcome Z) :=
  seq_out (poll_files 11 0 filePaths (replicate 4 [])) (λ r,
  if negb (r.1 =? 0) then mret (Ret r.1) else process_buffers false r.2).

(** The task of the engines: the processor goes with the lambda that holds it. *)
Definition offline_task (filePaths : list str) : M (Outcome Z) :=
  seq_out (ProcessOfflineAudioWhile filePaths) (λ ret, _ ← ReleaseResources; mret (Ret ret)).
End offline.

(** * Lemmas *)

(** ** The text *)

Definition newline : ascii := ascii_of_nat 10.
Definition bytes_of (s : str) : list Z := (λ c, Z.of_nat (nat_of_ascii c)) <$> s.
Lemma text_of_bytes s : (λ b, ascii_of_nat (Z.to_nat b)) <$> bytes_of s = s.
Proof.
  unfold bytes_of. rewrite <- list_fmap_compose. induction s as [|c s IH]; [done|]. cbn. rewrite IH. f_equal.
  by rewrite Nat2Z.id, ascii_nat_embedding.
Qed.

(** One entry of the text: a key, a colon with blanks around it, a number, and what is
    between it and the next. *)
Record FrameEntry := mkEntry { fe_key : str; fe_before : str; fe_after : str; fe_no : Z; fe_sep : str }.
Definition show_entry (e : FrameEntry) : str :=
  fe_key e ++ fe_before e ++ ":"%char :: fe_after e ++ print_int (fe_no e) ++ fe_sep e.
Definition blank (c : ascii) : Prop := isspace c = true ∧ c ≠ newline.
(** No digit, no end of line, and no letter a key begins with. *)
Definition between (c : ascii) : Prop := (c ∉ [newline; "b"%char; "e"%char; "c"%char]) ∧ digit_of c = None.
Definition entry_ok (e : FrameEntry) : Prop :=
  fe_key e ∈ FRAME_KEYS ∧ Forall blank (fe_before e) ∧ Forall blank (fe_after e) ∧ 0 ≤ fe_no e < 2 ^ 31 ∧
  Forall between (fe_sep e).
#[global] Instance blank_dec c : Decision (blank c).
Proof. unfold blank. apply _. Defined.
#[global] Instance between_dec c : Decision (between c).
Proof. unfold between. apply _. Defined.
#[global] Instance entry_ok_dec e : Decision (entry_ok e).
Proof. unfold entry_ok. apply _. Defined.

Lemma find_key k s : k ∈ FRAME_KEYS → ∃ i, list_find (λ key, starts_with key (k ++ s) = true) FRAME_KEYS = Some (i, k).
Proof.
  intros Hk. unfold FRAME_KEYS in Hk. rewrite !elem_of_cons in Hk.
  destruct Hk as [-> | [-> | [-> | [-> | Hk%not_elem_of_nil]]]]; [eexists; reflexivity..|done].
Qed.
Lemma no_key c s : c ∉ ["b"%char; "e"%char; "c"%char] → frame_match (c :: s) = None.
Proof.
  intros Hc. unfold frame_match. rewrite (proj2 (list_find_None _ _)); [done|].
  unfold FRAME_KEYS. assert (∀ d key, d ∈ ["b"%char; "e"%char; "c"%char] → starts_with (d :: key) (c :: s) ≠ true) as Hn.
  { intros d key Hd. cbn. rewrite bool_decide_false; [done|]. by intros ->. }
  repeat (apply Forall_cons; split; [apply Hn; set_solver|]). by apply Forall_nil.
Qed.
Lemma skip_blanks sp s : Forall blank sp → skip_spaces (sp ++ s) = skip_spaces s.
Proof. induction 1 as [|c sp [Hc _] _ IH]; [done|]. cbn. by rewrite Hc. Qed.
Lemma span_print_nat s n rest :
  Forall (λ c, (48 ≤ nat_of_ascii c ≤ 57)%nat) s → match rest with [] => True | c :: _ => digit_of c = None end →
  n = s → span_digits (n ++ rest) = (s, rest).
Proof.
  intros Hs Hr ->. induction Hs as [|c s Hc _ IH]; cbn.
  - destruct rest as [|c rest]; [done|]. cbn. by rewrite Hr.
  - unfold digit_of at 1. rewrite (proj2 (Z.leb_le _ _)), (proj2 (Z.leb_le _ _)) by lia. cbn. by rewrite IH.
Qed.
Lemma print_frame n : 0 ≤ n → ∃ c s, print_int n = c :: s ∧ Forall (λ c, (48 ≤ nat_of_ascii c ≤ 57)%nat) (c :: s).
Proof.
  intros Hn. unfold print_int. rewrite (proj2 (Z.ltb_ge _ _)) by lia.
  destruct (print_nat_head 20 n) as (c & s & Hp & _); [lia|lia|]. exists c, s. split; [done|].
  rewrite <- Hp. by apply print_nat_digits.
Qed.
Lemma stoi_print n : 0 ≤ n < 2 ^ 31 → stoi (print_int n) = Some n.
Proof.
  intros Hn. unfold stoi. rewrite c_str_print_int, scan_print_int by lia. cbn.
  by rewrite (proj2 (Z.ltb_ge _ _)), (proj2 (Z.ltb_ge _ _)) by lia.
Qed.
Lemma match_entry e rest :
  entry_ok e → match fe_sep e ++ rest with [] => True | c :: _ => digit_of c = None end →
  frame_match (show_entry e ++ rest) = Some (print_int (fe_no e), fe_sep e ++ rest).
Proof.
  intros (Hk & H1 & H2 & Hn & _) Hr. unfold frame_match, show_entry. rewrite <- app_assoc.
  destruct (find_key (fe_key e) ((fe_before e ++ ":"%char :: fe_after e ++ print_int (fe_no e) ++ fe_sep e) ++ rest) Hk) as [i ->].
  cbn [mbind option_bind snd]. rewrite drop_app_length, <- app_assoc, skip_blanks by done.
  cbn [app skip_spaces]. change (isspace ":"%char) with false. cbv iota. rewrite bool_decide_true by done.
  rewrite <- app_assoc, skip_blanks by done. destruct (print_frame (fe_no e)) as (c & s & Hp & Hd); [lia|].
  rewrite <- app_assoc. assert (skip_spaces (print_int (fe_no e) ++ fe_sep e ++ rest) = print_int (fe_no e) ++ fe_sep e ++ rest) as ->.
  { rewrite Hp. cbn. rewrite not_space; [done|]. left. by inversion Hd. }
  rewrite (span_print_nat (c :: s) _ _ Hd Hr Hp), Hp. done.
Qed.

Lemma groups_between fuel sep s :
  Forall between sep → frame_groups (length sep + fuel) (sep ++ s) = frame_groups fuel s.
Proof.
  intros Hs. induction Hs as [|c sep [Hc _] _ IH]; [done|].
  cbn [length Nat.add app frame_groups]. rewrite no_key by set_solver. exact IH.
Qed.
Definition line_text (es : list FrameEntry) : str := mjoin (show_entry <$> es).
Lemma key_head k : k ∈ FRAME_KEYS → match k with c :: _ => digit_of c = None ∧ c ≠ newline | [] => False end.
Proof.
  intros Hk. unfold FRAME_KEYS in Hk. rewrite !elem_of_cons in Hk.
  destruct Hk as [-> | [-> | [-> | [-> | Hk%not_elem_of_nil]]]]; done.
Qed.
Lemma rest_head sep es :
  Forall between sep → Forall entry_ok es → match sep ++ line_text es with [] => True | c :: _ => digit_of c = None end.
Proof.
  intros [|c sep' [_ Hc] _] He; [|done]. destruct He as [|e es (Hk & _) _]; [done|].
  cbn. unfold show_entry. apply key_head in Hk. by destruct (fe_key e); destruct Hk.
Qed.
Lemma groups_line fuel es :
  Forall entry_ok es → (length (line_text es) < fuel)%nat →
  frame_groups fuel (line_text es) = (λ e, print_int (fe_no e)) <$> es.
Proof.
  intros He. revert fuel. induction He as [|e es Hok He IH]; intros [|fuel] Hf; try (cbn in Hf; lia); [done|].
  change (line_text (e :: es)) with (show_entry e ++ line_text es) in *. cbn [frame_groups].
  pose proof Hok as (_ & _ & _ & _ & Hsep).
  rewrite match_entry by (done || by apply rest_head). cbn [fmap list_fmap]. f_equal.
  assert (length (fe_sep e) + length (line_text es) < fuel)%nat as Hl.
  { rewrite length_app in Hf. unfold show_entry in Hf. rewrite !length_app in Hf. cbn [length] in Hf. rewrite !length_app in Hf. lia. }
  replace fuel with (length (fe_sep e) + (fuel - length (fe_sep e)))%nat by lia.
  rewrite groups_between by done. apply IH. lia.
Qed.
Lemma line_read es : Forall entry_ok es → line_frames (line_text es) = fe_no <$> es.
Proof.
  intros He. unfold line_frames. rewrite groups_line by (done || lia).
  induction He as [|e es (_ & _ & _ & Hn & _) _ IH]; [done|]. cbn. by rewrite stoi_print, IH.
Qed.
Lemma one_line es : Forall entry_ok es → newline ∉ line_text es.
Proof.
  induction 1 as [|e es (Hk & H1 & H2 & Hn & H3) _ IH]; [apply not_elem_of_nil|].
  change (line_text (e :: es)) with (show_entry e ++ line_text es). unfold show_entry.
  assert (∀ s, Forall blank s → newline ∉ s) as Hb.
  { intros s Hs Hi. rewrite Forall_forall in Hs. by destruct (Hs _ Hi). }
  assert (newline ∉ fe_sep e) as Hs.
  { intros Hi. rewrite Forall_forall in H3. destruct (H3 _ Hi) as [H4 _]. apply H4. by left. }
  assert (newline ∉ print_int (fe_no e)) as Hp.
  { destruct (print_frame (fe_no e)) as (c & s & -> & Hd); [lia|]. intros Hi. rewrite Forall_forall in Hd. specialize (Hd _ Hi).
    change (nat_of_ascii newline) with 10%nat in Hd. lia. }
  assert (newline ∉ fe_key e) as Hkey.
  { clear -Hk. unfold FRAME_KEYS in Hk. rewrite !elem_of_cons in Hk.
    destruct Hk as [-> | [-> | [-> | [-> | Hk%not_elem_of_nil]]]]; [by apply (bool_decide_unpack _); vm_compute..|done]. }
  rewrite !elem_of_app, elem_of_cons, !elem_of_app. specialize (Hb _ H1) as Hb1. specialize (Hb _ H2) as Hb2.
  assert (newline ≠ ":"%char) by done. tauto.
Qed.
Lemma lines_join f (ls : list str) : f [] = [] → mjoin (f <$> filter nonempty ls) = (mjoin (f <$> ls) : list Z).
Proof.
  intros Hf. induction ls as [|l ls IH]; [done|]. rewrite filter_cons. destruct l as [|c l].
  - rewrite decide_False by (by intros []). rewrite IH. cbn. by rewrite Hf.
  - rewrite decide_True by done. rewrite !fmap_cons. exact (f_equal (app (f (c :: l))) IH).
Qed.

(** C26: The text of an enrollment is read back.  Whatever blanks are around the colons,
    whatever is between the entries that is neither a digit nor the first letter of a key,
    and however the entries are spread over lines, the frame numbers of the text are the
    numbers written in it, in order. *)
Theorem frames_read_back (lines : list (list FrameEntry)) (Hok : Forall (Forall entry_ok) lines) :
  parseFrameNumbers (bytes_of (join newline (line_text <$> lines))) = fe_no <$> mjoin lines.
Proof.
  unfold parseFrameNumbers. cbv zeta. rewrite text_of_bytes. change (ascii_of_nat 10) with newline. rewrite (lines_join line_frames) by done.
  destruct lines as [|l lines]; [done|].
  rewrite split_on_join; [|done|].
  - revert Hok. generalize (l :: lines). induction 1 as [|es ls He _ IH]; [done|]. rewrite !fmap_cons.
    change (line_frames (line_text es) ++ mjoin (line_frames <$> (line_text <$> ls)) = fe_no <$> es ++ mjoin ls).
    by rewrite line_read, fmap_app, IH.
  - apply Forall_fmap. eapply Forall_impl; [exact Hok|]. intros es He. by apply one_line.
Qed.

(** ** The pieces *)

(** Pieces of at most [n] bytes. *)
Fixpoint chunks (fuel n : nat) (l : list Z) : list (list Z) :=
  match fuel, l with
  | Datatypes.S fuel, _ :: _ => take n l :: chunks fuel n (drop n l)
  | _, _ => []
  end.
Lemma chunks_ok fuel n l :
  (0 < n)%nat → (length l ≤ fuel)%nat →
  mjoin (chunks fuel n l) = l ∧ Forall (λ c, (0 < length c ≤ n)%nat) (chunks fuel n l).
Proof.
  intros Hn. revert l. induction fuel as [|fuel IH]; intros l Hl.
  { destruct l; [|cbn in Hl; lia]. split; [done|constructor]. }
  destruct l as [|x l]; [split; [done|constructor]|].
  destruct (IH (drop n (x :: l))) as [H1 H2].
  { rewrite length_drop. cbn [length] in *. lia. }
  cbn [chunks]. split.
  - change (take n (x :: l) ++ mjoin (chunks fuel n (drop n (x :: l))) = x :: l). by rewrite H1, take_drop.
  - constructor; [|exact H2]. rewrite length_take. cbn [length]. lia.
Qed.

Definition slice (data : list Z) (offset size : Z) : list Z := take (Z.to_nat size) (drop (Z.to_nat offset) data).
(** A piece is inside of its recording. *)
Definition piece_inside (data : list Z) (begin end_ : Z) : Prop := piece_offset begin + piece_size begin end_ ≤ Z.of_nat (length data).
#[global] Instance piece_inside_dec data b e : Decision (piece_inside data b e).
Proof. unfold piece_inside. apply _. Defined.
(** What the chain gets of a piece. *)
Definition piece_chunks (data : list Z) (begin end_ : Z) : list (list Z) :=
  chunks (Datatypes.S (Z.to_nat (piece_size begin end_))) (Z.to_nat OFFLINE_BYTES_MAX_16K_MONO)
    (slice data (piece_offset begin) (piece_size begin end_)).
Definition recording (buffers : list (list Z)) (k : nat) : list Z := default [] (buffers !! (k / 2)%nat).
Definition the_pieces : list nat := [0; 1; 2; 3; 4; 5]%nat.
Definition inside (buffers : list (list Z)) (f : list Z) (k : nat) : Prop :=
  piece_inside (recording buffers k) (frame f (2 * k)) (frame f (2 * k + 1)).
Definition corpus_chunks (buffers : list (list Z)) (f : list Z) : list (list Z) :=
  mjoin ((λ k, piece_chunks (recording buffers k) (frame f (2 * k)) (frame f (2 * k + 1))) <$> the_pieces).

Section pieces.
Context {H X : Type} `{!EngineHal H} `{!OfflineFx X} (null_data : bool).
Abbreviation S := (Offline H X).
Abbreviation M := (St (Offline H X)).
Implicit Types s : Offline H X.

(** The chain fed piece by piece, until it fails. *)
Fixpoint feed (cs : list (list Z)) (outSize : Z) : M Z :=
  match cs with
  | [] => mret 0
  | c :: cs => r ← on_fx (fx_Process c outSize); if negb (r =? 0) then mret r else feed cs outSize
  end.

Lemma seq_out_ret {A B} (m : M (Outcome A)) (k : A → M (Outcome B)) s a s' :
  m s = (Ret a, s') → seq_out m k s = k a s'.
Proof. intros Hm. unfold seq_out. by rewrite bind_run, Hm. Qed.
Lemma seq_out_outside {A B} (m : M (Outcome A)) (k : A → M (Outcome B)) s s' :
  m s = (Outside, s') → seq_out m k s = (Outside, s').
Proof. intros Hm. unfold seq_out. by rewrite bind_run, Hm. Qed.
Lemma out_of_run {A} (m : M A) s : out_of m s = (Ret (m s).1, (m s).2).
Proof. unfold out_of. rewrite bind_run. by destruct (m s). Qed.

Lemma slice_take data off size n : 0 ≤ n ≤ size → take (Z.to_nat n) (slice data off size) = slice data off n.
Proof. intros Hn. unfold slice. rewrite take_take. f_equal. lia. Qed.
Lemma slice_drop data off size n : 0 ≤ off → 0 ≤ n ≤ size → drop (Z.to_nat n) (slice data off size) = slice data (off + n) (size - n).
Proof.
  intros Ho Hn. unfold slice. rewrite skipn_firstn_comm, drop_drop. f_equal; [lia|]. f_equal. lia.
Qed.
Lemma slice_length data off size : 0 ≤ off → 0 ≤ size → off + size ≤ Z.of_nat (length data) → length (slice data off size) = Z.to_nat size.
Proof. intros. unfold slice. rewrite length_take, length_drop. lia. Qed.

Lemma process_loop_fed fuel data off rem outSize max s :
  0 ≤ off → 0 ≤ rem → 0 < max → off + rem ≤ Z.of_nat (length data) → (Z.to_nat rem < fuel)%nat →
  process_loop fuel data off rem outSize max s =
    (let r := feed (chunks fuel (Z.to_nat max) (slice data off rem)) outSize s in (Ret r.1, r.2)).
Proof.
  revert off rem s. induction fuel as [|fuel IH]; intros off rem s Ho Hr Hmax Hin Hf; [lia|].
  pose proof (slice_length data off rem Ho Hr Hin) as Hl. cbn [process_loop].
  destruct (Z.ltb_spec 0 rem) as [Hpos|Hz]; cbn [negb].
  - destruct (slice data off rem) as [|x l] eqn:Hs; [cbn in Hl; lia|]. cbn [chunks feed].
    rewrite <- Hs in *. set (cur := if max <? rem then max else rem).
    assert (0 < cur ≤ rem ∧ take (Z.to_nat max) (slice data off rem) = slice data off cur ∧
            drop (Z.to_nat max) (slice data off rem) = slice data (off + cur) (rem - cur)) as (Hc & Ht & Hd).
    { unfold cur. destruct (Z.ltb_spec max rem).
      - split; [lia|]. by rewrite slice_take, slice_drop by lia.
      - split; [lia|]. rewrite take_ge, drop_ge by lia. split; [done|]. by rewrite Z.sub_diag. }
    rewrite Ht, Hd. erewrite seq_out_ret.
    2: { unfold read_bytes. rewrite (proj2 (Z.leb_le _ _)), (proj2 (Z.leb_le _ _)) by lia. reflexivity. }
    erewrite seq_out_ret by apply out_of_run. rewrite bind_run. fold (slice data off cur).
    destruct (on_fx (fx_Process (slice data off cur) outSize) s) as [r s1]. cbn [fst snd].
    destruct (r =? 0); cbn [negb]; [|done]. by rewrite IH by lia.
  - assert (rem = 0) as -> by lia. unfold slice. cbn. done.
Qed.

Lemma on_fx_chain {A} (m : St X A) s : oa_chain (on_fx m s).2 = oa_chain s.
Proof. unfold on_fx. by destruct (m (oa_fx s)). Qed.
Lemma feed_chain cs outSize s : oa_chain (feed cs outSize s).2 = oa_chain s.
Proof.
  revert s. induction cs as [|c cs IH]; intros s; [done|]. cbn [feed]. rewrite bind_run.
  destruct (negb _); [apply on_fx_chain|]. by rewrite IH, on_fx_chain.
Qed.
Lemma piece_bounds b e : 0 ≤ piece_offset b ∧ 0 ≤ piece_size b e.
Proof. unfold piece_offset, piece_size, u32. split; by apply Z.mod_pos_bound. Qed.
Abbreviation process_piece data b e :=
  (ProcessDataWithOfflineEffect null_data data (piece_offset b) (piece_size b e) BYTES_PER_FRAME OFFLINE_BYTES_MAX_16K_MONO : M (Outcome Z)).

Lemma process_data_fed data b e s :
  piece_inside data b e → data ≠ [] → oa_chain s = true →
  process_piece data b e s = (let r := feed (piece_chunks data b e) BYTES_PER_FRAME s in (Ret r.1, r.2)).
Proof.
  intros Hin Hne Hc. destruct (piece_bounds b e) as [H1 H2]. unfold piece_inside in Hin. unfold ProcessDataWithOfflineEffect.
  rewrite (proj2 (Z.ltb_ge _ _)) by lia. rewrite (bool_decide_false _ Hne), andb_false_r. cbv iota.
  destruct (Z.leb_spec (piece_size b e) 0) as [Hz|Hpos].
  - unfold piece_chunks, slice. replace (piece_size b e) with 0 by lia. done.
  - rewrite bind_run. cbn [fst snd st_get]. rewrite Hc. cbn [negb]. by apply process_loop_fed; try lia.
Qed.

(** A chain that takes whatever it is given. *)
Definition accepting : Prop := ∀ c n x, (fx_Process c n x : Z * X).1 = 0.
Lemma feed_accepted cs outSize s : accepting → (feed cs outSize s).1 = 0.
Proof.
  intros Ha. revert s. induction cs as [|c cs IH]; intros s; [done|]. cbn [feed]. rewrite bind_run.
  assert ((on_fx (fx_Process c outSize) s).1 = 0) as -> by (specialize (Ha c outSize (oa_fx s)); unfold on_fx; by destruct (fx_Process _ _ _)).
  apply IH.
Qed.
Lemma feed_app cs cs' outSize s : accepting → (feed (cs ++ cs') outSize s).2 = (feed cs' outSize (feed cs outSize s).2).2.
Proof.
  intros Ha. revert s. induction cs as [|c cs IH]; intros s; [done|]. cbn [app feed]. rewrite !bind_run.
  assert ((on_fx (fx_Process c outSize) s).1 = 0) as -> by (specialize (Ha c outSize (oa_fx s)); unfold on_fx; by destruct (fx_Process _ _ _)).
  apply IH.
Qed.

Lemma process_loop_outside fuel data off rem s :
  accepting → 0 ≤ off → 0 < rem → Z.of_nat (length data) < off + rem → (Z.to_nat rem < fuel)%nat →
  (process_loop fuel data off rem BYTES_PER_FRAME OFFLINE_BYTES_MAX_16K_MONO s).1 = Outside.
Proof.
  intros Ha. revert off rem s. induction fuel as [|fuel IH]; intros off rem s Ho Hr Hout Hf; [lia|].
  cbn [process_loop]. rewrite (proj2 (Z.ltb_lt _ _)) by lia. cbn [negb].
  set (cur := if OFFLINE_BYTES_MAX_16K_MONO <? rem then OFFLINE_BYTES_MAX_16K_MONO else rem).
  assert (0 < cur ≤ rem) as Hc by (unfold cur, OFFLINE_BYTES_MAX_16K_MONO; destruct (Z.ltb_spec 5120 rem); lia).
  destruct (Z.leb_spec (off + cur) (Z.of_nat (length data))) as [Hin|Hno].
  - erewrite seq_out_ret.
    2: { unfold read_bytes. rewrite (proj2 (Z.leb_le _ _)), (proj2 (Z.leb_le _ _)) by lia. reflexivity. }
    erewrite seq_out_ret by apply out_of_run.
    match goal with |- context [on_fx (fx_Process ?c ?n) s] => pose proof (Ha c n (oa_fx s)) as Hp end.
    unfold on_fx. destruct (fx_Process _ _ _) as [r x]. cbn [fst snd] in *. subst r. cbn [negb Z.eqb]. apply IH; lia.
  - by erewrite seq_out_outside; [|unfold read_bytes; rewrite (proj2 (Z.leb_gt _ _) Hno), andb_false_r; reflexivity].
Qed.
Lemma process_data_outside data b e s :
  accepting → ¬ piece_inside data b e → data ≠ [] → oa_chain s = true → (process_piece data b e s).1 = Outside.
Proof.
  intros Ha Hin Hne Hc. destruct (piece_bounds b e) as [H1 H2]. unfold piece_inside in Hin. unfold ProcessDataWithOfflineEffect.
  destruct (Z.ltb_spec (Z.of_nat (length data)) (piece_offset b)); [done|].
  rewrite (bool_decide_false _ Hne), andb_false_r, (proj2 (Z.leb_gt _ _)) by lia. cbv iota. rewrite bind_run. cbn [fst snd st_get].
  rewrite Hc. cbn [negb]. apply process_loop_outside; [done|lia..].
Qed.

Section corpus.
Context (buffers : list (list Z)) (f : list Z).
Abbreviation chunks_of ks := (mjoin ((λ k, piece_chunks (recording buffers k) (frame f (2 * k)) (frame f (2 * k + 1))) <$> ks)).
Abbreviation pieces_run ks total s := (process_pieces null_data ks total buffers f s : Outcome Z * Offline H X).

Lemma pieces_safe ks total s :
  Forall (λ k, inside buffers f k ∧ recording buffers k ≠ []) ks → oa_chain s = true → ∃ r s', pieces_run ks total s = (Ret r, s').
Proof.
  intros Hks. revert total s. induction Hks as [|k ks [Hin Hne] _ IH]; intros total s Hc; [by do 2 eexists|].
  cbn [process_pieces]. erewrite seq_out_ret by by apply process_data_fed. apply IH. by rewrite feed_chain.
Qed.
Lemma pieces_fed ks s :
  accepting → Forall (λ k, inside buffers f k ∧ recording buffers k ≠ []) ks → oa_chain s = true →
  pieces_run ks 0 s = (Ret 0, (feed (chunks_of ks) BYTES_PER_FRAME s).2).
Proof.
  intros Ha Hks. revert s. induction Hks as [|k ks [Hin Hne] _ IH]; intros s Hc; [done|].
  cbn [process_pieces]. erewrite seq_out_ret by by apply process_data_fed. rewrite feed_accepted by done.
  change (i32 (0 + 0)) with 0. rewrite IH by by rewrite feed_chain. f_equal. rewrite fmap_cons. symmetry. by apply feed_app.
Qed.
Lemma pieces_outside ks s :
  accepting → Forall (λ k, recording buffers k ≠ []) ks → ¬ Forall (inside buffers f) ks → oa_chain s = true →
  (pieces_run ks 0 s).1 = Outside.
Proof.
  intros Ha Hks. revert s. induction Hks as [|k ks Hne _ IH]; intros s Hout Hc; [by destruct Hout|].
  cbn [process_pieces]. destruct (decide (inside buffers f k)) as [Hin|Hno].
  - erewrite seq_out_ret by by apply process_data_fed. rewrite feed_accepted by done. change (i32 (0 + 0)) with 0.
    apply IH; [|by rewrite feed_chain]. intros Hks. apply Hout. by constructor.
  - pose proof (process_data_outside _ _ _ s Ha Hno Hne Hc) as Ho. unfold recording in Ho.
    destruct (process_piece _ _ _ s) as [o s'] eqn:Hp; cbn in Ho; subst o. by erewrite seq_out_outside.
Qed.
End corpus.
End pieces.

Lemma corpus_chunks_ok buffers f :
  Forall (inside buffers f) the_pieces →
  mjoin (corpus_chunks buffers f) =
    mjoin ((λ k, slice (recording buffers k) (piece_offset (frame f (2 * k))) (piece_size (frame f (2 * k)) (frame f (2 * k + 1)))) <$> the_pieces) ∧
  Forall (λ c, (0 < length c ≤ Z.to_nat OFFLINE_BYTES_MAX_16K_MONO)%nat) (corpus_chunks buffers f).
Proof.
  unfold corpus_chunks. generalize the_pieces. induction 1 as [|k ks Hin _ [IH1 IH2]]; [split; [done|constructor]|].
  rewrite !fmap_cons. set (b := frame f (2 * k)) in *. set (e := frame f (2 * k + 1)) in *.
  pose proof (piece_bounds b e) as [Hb1 Hb2].
  destruct (chunks_ok (Datatypes.S (Z.to_nat (piece_size b e))) (Z.to_nat OFFLINE_BYTES_MAX_16K_MONO)
    (slice (recording buffers k) (piece_offset b) (piece_size b e))) as [H1 H2]; [by compute; lia| |].
  { rewrite slice_length by (done || exact Hin). lia. }
  split; [|by apply Forall_app].
  match goal with |- mjoin (mjoin (?c :: ?l)) = mjoin (?d :: ?l') => change (mjoin (c ++ mjoin l) = d ++ mjoin l') end.
  rewrite join_app. by f_equal.
Qed.

(** ** Frames *)

(** The frames of a recording. *)
Definition frames_of (data : list Z) : Z := Z.of_nat (length data) / BYTES_PER_FRAME.
(** Frames from [b] to [e] of a recording of less than 4 GB: the piece is inside, and its bytes are theirs. *)
Lemma frames_inside data b e :
  0 ≤ b ≤ e → e < frames_of data → Z.of_nat (length data) < 2 ^ 32 →
  piece_inside data b e ∧ piece_offset b = b * BYTES_PER_FRAME ∧ piece_size b e = (e - b + 1) * BYTES_PER_FRAME.
Proof.
  unfold frames_of, piece_inside, piece_offset, piece_size, BYTES_PER_FRAME, u32. intros Hb He Hl.
  assert ((e + 1) * 320 ≤ Z.of_nat (length data)) as H1.
  { pose proof (Z.mul_div_le (Z.of_nat (length data)) 320). lia. }
  rewrite !Z.mod_small by lia. lia.
Qed.
(** An end past the recording is not. *)
Lemma frames_outside data b e :
  0 ≤ b ≤ e → frames_of data < e + 1 → (e + 1) * BYTES_PER_FRAME < 2 ^ 32 → ¬ piece_inside data b e.
Proof.
  unfold frames_of, piece_inside, piece_offset, piece_size, BYTES_PER_FRAME, u32. intros Hb He Hl.
  rewrite !Z.mod_small by lia. pose proof (Z.mul_succ_div_gt (Z.of_nat (length data)) 320). lia.
Qed.

(** C24: When the processing of the corpus stays inside of the recordings.  Given enough
    recordings, none empty, and a chain: if each of the six pieces the frame numbers give
    is inside of its recording, the processing has a result whatever the chain answers,
    and a chain that accepts all it is given is fed exactly these pieces, in order and cut
    into at most 5120 bytes, with the result 0.  If one is not, such a chain is made to
    read outside of a recording.  Nothing compares the frame numbers with the recordings. *)
Theorem corpus_in_bounds {H X} `{!OfflineFx X} (null_data : bool) (buffers : list (list Z)) (f : list Z) (s : Offline H X)
    (Hb : (4 ≤ length buffers)%nat) (Hf : (12 ≤ length f)%nat) (Hne : Forall (λ k, recording buffers k ≠ []) the_pieces)
    (Hc : oa_chain s = true) :
  (Forall (inside buffers f) the_pieces →
     (∃ r s', ProcessRegistrationCorpusData null_data buffers f s = (Ret r, s')) ∧
     (accepting (X := X) →
        ProcessRegistrationCorpusData null_data buffers f s = (Ret 0, (feed (corpus_chunks buffers f) BYTES_PER_FRAME s).2)) ∧
     mjoin (corpus_chunks buffers f) =
       mjoin ((λ k, slice (recording buffers k) (piece_offset (frame f (2 * k))) (piece_size (frame f (2 * k)) (frame f (2 * k + 1))))
              <$> the_pieces) ∧
     Forall (λ c, (0 < length c ≤ Z.to_nat OFFLINE_BYTES_MAX_16K_MONO)%nat) (corpus_chunks buffers f)) ∧
  (¬ Forall (inside buffers f) the_pieces → accepting (X := X) →
     (ProcessRegistrationCorpusData null_data buffers f s).1 = Outside).
Proof.
  unfold ProcessRegistrationCorpusData. rewrite !(proj2 (Z.ltb_ge _ _)) by lia. cbv iota. fold the_pieces. split.
  - intros Hin. assert (Forall (λ k, inside buffers f k ∧ recording buffers k ≠ []) the_pieces) as Hall by (apply Forall_and; done).
    split; [by apply pieces_safe|]. split; [intros Ha; by apply pieces_fed|by apply corpus_chunks_ok].
  - intros Hout Ha. by apply pieces_outside.
Qed.

(** ** The task *)

(** The chains of the framework: a chain that is made counts until it is released. *)
Class OfflineFxLaws (X : Type) `{!OfflineFx X} := {
  fx_live : X → Z;
  fx_live_create name x : fx_live (fx_CreateOfflineAudioEffectChain name x).2 =
    fx_live x + (if (fx_CreateOfflineAudioEffectChain name x).1 then 1 else 0);
  fx_live_Configure x : fx_live (fx_Configure x : Z * X).2 = fx_live x;
  fx_live_Prepare x : fx_live (fx_Prepare x : Z * X).2 = fx_live x;
  fx_live_GetEffectBufferSize x : fx_live (fx_GetEffectBufferSize x : Z * X).2 = fx_live x;
  fx_live_SetParam t x : fx_live (fx_SetParam t x : Z * X).2 = fx_live x;
  fx_live_Process c n x : fx_live (fx_Process c n x : Z * X).2 = fx_live x;
  fx_live_Release x : fx_live (fx_Release x : unit * X).2 = fx_live x - 1 }.

Section task.
Context {H X : Type} `{!EngineHal H} `{!OfflineFx X} `{!OfflineFxLaws X} (null_data : bool).
Abbreviation M := (St (Offline H X)).
Implicit Types s : Offline H X.

(** [base] chains are somebody else's; the one of the processor is its only one. *)
Definition owns (base : Z) s : Prop := fx_live (oa_fx s) = base + (if oa_chain s then 1 else 0).
Definition calm (base t : Z) s : Prop := owns base s ∧ oa_slept s = t.
(** With no chain of its own. *)
Definition bare (base t : Z) s : Prop := calm base t s ∧ oa_chain s = false.
(** A run that ends: it has a result or has read outside of a buffer. *)
Definition ends {A} (P : Offline H X → Prop) (m : M (Outcome A)) (Q : Offline H X → Prop) : Prop :=
  ∀ s, P s → (m s).1 ≠ OutOfFuel ∧ Q (m s).2.

Lemma ends_seq {A B} P (m : M (Outcome A)) (k : A → M (Outcome B)) Q R :
  ends P m Q → (∀ a, ends Q (k a) R) → (∀ s, Q s → R s) → ends P (seq_out m k) R.
Proof.
  intros Hm Hk HQ s Hs. destruct (Hm s Hs) as [H1 H2]. unfold seq_out. rewrite bind_run.
  destruct (m s) as [[a| |] s']; cbn [fst snd] in *; [by apply Hk|split; [done|by apply HQ]|done].
Qed.
Lemma ends_out {A} P (m : M A) Q : ⟪ P ⟫ m ⟪ λ _, Q ⟫ → ends P (out_of m) Q.
Proof. intros Hm s Hs. unfold out_of. rewrite bind_run. split; [done|]. by apply Hm. Qed.
Lemma ends_ret {A} P (o : Outcome A) : o ≠ OutOfFuel → ends P (mret o) P.
Proof. intros Ho s Hs. by split. Qed.

Lemma calm_fx {A} base t (m : St X A) : (∀ x, fx_live (m x).2 = fx_live x) → ⟪ calm base t ⟫ on_fx m ⟪ λ _, calm base t ⟫.
Proof.
  intros Hm s [Ho Ht]. unfold on_fx, calm, owns in *. specialize (Hm (oa_fx s)). destruct (m (oa_fx s)) as [a x]. cbn in *.
  split; [congruence|done].
Qed.
Lemma calm_hw {A} base t (m : St (Hw H) A) : ⟪ bare base t ⟫ on_oa_hw m ⟪ λ _, bare base t ⟫.
Proof. intros s [Ho Ht]. unfold on_oa_hw. by destruct (m (oa_hw s)). Qed.

(** *** Reading *)

Lemma calm_read base t f b : ⟪ bare base t ⟫ GetWakeupBackupAudio f b ⟪ λ _, bare base t ⟫.
Proof.
  unfold GetWakeupBackupAudio. intros s Hs. rewrite bind_run. cbn [fst snd st_get]. destruct (negb _); [done|]. by apply calm_hw.
Qed.
Lemma calm_reads base t ret fs bs : ⟪ bare base t ⟫ read_files_sum ret fs bs ⟪ λ _, bare base t ⟫.
Proof.
  revert ret bs. induction fs as [|f fs IH]; intros ret [|b bs]; [by apply hoare_ret..|]. cbn [read_files_sum].
  apply (hoare_bind _ _ (λ _, bare base t)); [apply calm_read|intros r].
  apply (hoare_bind _ _ (λ _, bare base t)); [apply IH|intros rest; by apply hoare_ret].
Qed.
Lemma poll_ends base fuel k fs bs t :
  0 ≤ k → 11 ≤ Z.of_nat fuel + k → k ≤ 10 →
  ends (bare base t) (poll_files fuel k fs bs) (λ s, ∃ t', t ≤ t' ≤ t + (10 - k) ∧ bare base t' s).
Proof.
  revert k bs t. induction fuel as [|fuel IH]; intros k bs t Hk Hf Hk'; [lia|]. intros s Hs. cbn [poll_files]. rewrite bind_run.
  pose proof (calm_reads base t 0 fs bs s Hs) as H1. destruct (read_files_sum 0 fs bs s) as [[r bs'] s1]. cbn [fst snd] in *.
  destruct (r =? 0); [split; [done|exists t; split; [lia|done]]|].
  destruct (Z.ltb_spec 10 (k + 1)); [split; [done|exists t; split; [lia|done]]|]. rewrite bind_run.
  destruct (IH (k + 1) bs' (t + 1) ltac:(lia) ltac:(lia) ltac:(lia) (sleep_1 s1).2) as [H2 (t' & H3 & H4)].
  { destruct H1 as [[H1 Ht] Hc]. unfold sleep_1, st_modify. cbn. unfold bare, calm, owns in *. cbn. split_and!; [done|by rewrite Ht|done]. }
  split; [done|]. exists t'. split; [lia|done].
Qed.

(** *** Processing *)

Lemma calm_make base t : ⟪ bare base t ⟫ CreateOfflineAudioEffectChain ⟪ λ _, calm base t ⟫.
Proof.
  intros s [[Ho Ht] Hc]. unfold CreateOfflineAudioEffectChain. rewrite !bind_run. cbn [fst snd st_modify st_get].
  destruct (list_find _ _) as [[i name]|]; [|by split]. rewrite bind_run. unfold on_fx. cbn.
  pose proof (fx_live_create name (oa_fx s)) as Hl. destruct (fx_CreateOfflineAudioEffectChain name (oa_fx s)) as [made x]. cbn in *.
  rewrite bind_run. unfold owns in Ho. rewrite Hc in Ho. split; [|done]. unfold owns. cbn. rewrite Hl. lia.
Qed.
Lemma calm_configure base t : ⟪ calm base t ⟫ ConfigureAudioStreamAndEffectChain ⟪ λ _, calm base t ⟫.
Proof.
  unfold ConfigureAudioStreamAndEffectChain. intros s Hs. rewrite bind_run. cbn [fst snd st_get].
  destruct (oa_chain s); cbn [negb]; [|done].
  match goal with |- calm base t (?m s).2 => cut (⟪ calm base t ⟫ m ⟪ λ _, calm base t ⟫); [intros Hm; by apply Hm|] end.
  apply (hoare_bind _ _ (λ _, calm base t)); [apply calm_fx, fx_live_Configure|intros r]. destruct (negb _); [by apply hoare_ret|].
  apply (hoare_bind _ _ (λ _, calm base t)); [apply calm_fx, fx_live_Prepare|intros r']. destruct (negb _); [by apply hoare_ret|].
  apply calm_fx, fx_live_GetEffectBufferSize.
Qed.
Lemma calm_params base t f : ⟪ calm base t ⟫ SetOfflineEffectChainParams f ⟪ λ _, calm base t ⟫.
Proof.
  intros s Hs. unfold SetOfflineEffectChainParams. rewrite bind_run. cbn [fst snd st_get]. destruct (negb _); [done|].
  by apply calm_fx; [apply fx_live_SetParam|].
Qed.
Lemma calm_init base t f : ⟪ bare base t ⟫ audio_offline_init f ⟪ λ _, calm base t ⟫.
Proof.
  unfold audio_offline_init. apply (hoare_bind _ _ (λ _, calm base t)); [apply calm_make|intros r].
  destruct (negb _); [by apply hoare_ret|].
  apply (hoare_bind _ _ (λ _, calm base t)); [apply calm_configure|intros r'].
  destruct (negb _); [by apply hoare_ret|]. apply calm_params.
Qed.
Lemma loop_ends base t fuel data off rem outSize max :
  0 < max → (Z.to_nat rem < fuel)%nat → ends (calm base t) (process_loop fuel data off rem outSize max) (calm base t).
Proof.
  intros Hmax. revert off rem. induction fuel as [|fuel IH]; intros off rem Hf; [lia|]. cbn [process_loop].
  destruct (Z.ltb_spec 0 rem); cbn [negb]; [|by apply ends_ret].
  eapply ends_seq; [|intros input|done].
  { unfold read_bytes. destruct (_ && _); by apply ends_ret. }
  eapply ends_seq; [apply ends_out, calm_fx; intros x; apply fx_live_Process|intros r|done].
  destruct (negb _); [by apply ends_ret|]. apply IH. destruct (Z.ltb_spec max rem); lia.
Qed.
Lemma data_ends base t data off size outSize max :
  0 < max → ends (calm base t) (ProcessDataWithOfflineEffect null_data data off size outSize max) (calm base t).
Proof.
  intros Hmax. unfold ProcessDataWithOfflineEffect. destruct (_ <? _); [by apply ends_ret|].
  destruct (_ && _); [by apply ends_ret|]. destruct (_ <=? _); [by apply ends_ret|].
  intros s Hs. rewrite bind_run. cbn [fst snd st_get]. destruct (negb _); [by split|]. by apply loop_ends; [|lia|].
Qed.
Lemma pieces_end base t ks total buffers f :
  ends (calm base t) (process_pieces null_data ks total buffers f) (calm base t).
Proof.
  revert total. induction ks as [|k ks IH]; intros total; [by apply ends_ret|]. cbn [process_pieces].
  eapply ends_seq; [by apply data_ends|intros r; apply IH|done].
Qed.
Lemma calm_free base t : ⟪ calm base t ⟫ ReleaseResources ⟪ λ _, bare base t ⟫.
Proof.
  intros s [Ho Ht]. unfold ReleaseResources. rewrite bind_run. cbn [fst snd st_get]. rewrite bind_run.
  unfold owns in Ho. destruct (oa_chain s) eqn:Hc; cbn [st_when].
  - rewrite bind_run. unfold on_fx. pose proof (fx_live_Release (oa_fx s)) as Hl. destruct (fx_Release (oa_fx s)) as [[] x].
    cbn in *. unfold bare, calm, owns. cbn. split_and!; [lia|done|done].
  - unfold bare, calm, owns. cbn. rewrite Hc. by split_and!.
Qed.
Lemma buffers_end base t always buffers :
  ends (bare base t) (process_buffers null_data always buffers) (calm base t).
Proof.
  unfold process_buffers. cbv zeta. destruct (_ <? _); [intros s [Hs _]; by split|].
  eapply ends_seq; [apply ends_out, calm_init|intros r|done]. destruct (negb _); [by apply ends_ret|].
  eapply ends_seq; [|intros r'|done].
  { unfold ProcessRegistrationCorpusData. destruct (_ <? _); [by apply ends_ret|]. destruct (_ <? _); [by apply ends_ret|]. apply pieces_end. }
  destruct (_ && _); [by apply ends_ret|]. intros s Hs. rewrite bind_run. split; [done|]. by apply calm_free.
Qed.

(** C25: The task of the processing ends.  Whatever the HAL and the framework answer, it has
    a result, or has read outside of a recording; it has slept for at most 10 seconds; and
    with a result it leaves the framework with as many chains as it found, on every path. *)
Theorem offline_task_ends paths s (Hs : oa_chain s = false) :
  let r := offline_task null_data paths s in
  r.1 ≠ OutOfFuel ∧ oa_slept s ≤ oa_slept r.2 ≤ oa_slept s + 10 ∧
  (∀ ret, r.1 = Ret ret → oa_chain r.2 = false ∧ fx_live (oa_fx r.2) = fx_live (oa_fx s)).
Proof.
  intros r. assert (r = offline_task null_data paths s) as Hr by done. clearbody r. set (base := fx_live (oa_fx s)).
  assert (bare base (oa_slept s) s) as H0 by (split; [split; [unfold owns; rewrite Hs; lia|done]|done]).
  destruct (poll_ends base 11 0 paths (replicate 4 []) (oa_slept s) ltac:(lia) ltac:(lia) ltac:(lia) s H0) as [H1 (t & Ht & H2)].
  unfold offline_task, ProcessOfflineAudioWhile in Hr. unfold seq_out at 1 2 in Hr. rewrite !bind_run in Hr.
  destruct (poll_files 11 0 paths (replicate 4 []) s) as [[a| |] s1]; cbn [fst snd] in *; [| |done].
  2: { destruct H2 as [[H2 H3] _]. subst r. cbn. split_and!; [done|lia..|done]. }
  set (m := if negb (a.1 =? 0) then mret (Ret a.1) else process_buffers null_data false a.2) in *.
  assert (ends (bare base t) m (calm base t)) as He.
  { unfold m. destruct (negb _); [|apply buffers_end]. intros s2 [H3 _]. by split. }
  destruct (He s1 H2) as [H3 H4]. destruct (m s1) as [[b| |] s2]; cbn [fst snd] in *; [rewrite bind_run in Hr; cbn [fst snd] in Hr| |done].
  - destruct (calm_free base t s2 H4) as [[H5 H6] H7]. subst r. cbn. split_and!; [done|lia..|].
    intros ret _. split; [done|]. unfold owns in H5. rewrite H7 in H5. rewrite H5. lia.
  - destruct H4 as [_ H4]. subst r. cbn. split_and!; [done|lia..|done].
Qed.
End task.

(** * Concrete runs *)

(** A framework that counts its chains and keeps what they are fed. *)
Record RefChain := mkRefChain { rc_live : Z; rc_fed : list (list Z) }.
#[global] Instance RefChain_eta : Eta RefChain := λ x, mkRefChain (rc_live x) (rc_fed x).
#[global] Instance ref_fx : OfflineFx RefChain := {|
  fx_GetOfflineAudioEffectChains _ := [lit "record"; lit "my_asr_tse_reg"];
  fx_CreateOfflineAudioEffectChain _ := λ x, (true, x <| rc_live ::= Z.succ |>);
  fx_Configure := mret 0; fx_Prepare := mret 0; fx_GetEffectBufferSize := mret 0; fx_SetParam _ := mret 0;
  fx_Process c _ := λ x, (0, x <| rc_fed ::= λ l, l ++ [c] |>);
  fx_Release := λ x, ((), x <| rc_live ::= Z.pred |>) |}.
#[global] Instance ref_fx_laws : OfflineFxLaws RefChain.
Proof. exists rc_live; done. Defined.

(** A HAL that has files, and answers requests for others with an error each. *)
Definition FileHal : Type := list (str * (Z * list Z)).
#[global] Instance file_hal : EngineHal FileHal := {|
  eh_Get _ := true; eh_GetVersion _ := (1, 3); eh_CastFrom _ _ := true; eh_objcast _ := true;
  eh_AddDeathRecipient := mret true; eh_RemoveDeathRecipient := mret (); eh_SetDataOprCallback := mret ();
  eh_CreateAdapter _ _ := mret None; eh_ReleaseAdapter _ := mret (); eh_call _ _ := mret 0; eh_GetParameter _ _ := mret [];
  eh_Read _ _ := mret None; eh_GetWakeupPcm _ := mret (0, []); eh_Evaluate _ _ := mret (0, (0, 0));
  eh_GetUploadFiles _ := mret (0, []); eh_GetCloneFilesList h := (0, h.*1);
  eh_GetCloneFile f := st_gets (λ h, match list_find (λ x, x.1 = f) h with Some (_, x) => x.2 | None => (-1, []) end);
  eh_SendCloneFile _ _ := mret 0; eh_ClearUserWakeupData _ := mret 0 |}.
Definition enroll_files : list str := [lit "enroll_1.pcm"; lit "enroll_2.pcm"; lit "enroll_3.pcm"; lit "enroll_phrase.txt"].
Definition with_files (files : list (Z * list Z)) : Offline FileHal RefChain :=
  new_offline (Host_Init (mkHw (zip enroll_files files : FileHal) init_host)).2 (mkRefChain 0 []).

(** The text for one sentence. *)
Definition sentence (b e cb ce : Z) : list FrameEntry :=
  [mkEntry (lit "beginFrameNo") [] (lit " ") b (lit ", "); mkEntry (lit "endFrameNo") [] (lit " ") e (lit ", ");
   mkEntry (lit "cmdBeginFrame") (lit " ") [] cb (lit ", "); mkEntry (lit "cmdEndFrame") [] [] ce []].
Definition phrase_text (end_ : Z) : list Z := bytes_of (join newline (line_text <$> [sentence 0 0 1 2; sentence 0 1 1 2; sentence 1 1 2 end_])).
(** Three recordings of three frames. *)
Definition recordings : list (list Z) := [replicate 960 1; replicate 960 2; replicate 960 3].
Definition good_files : list (Z * list Z) := pair 0 <$> recordings ++ [phrase_text 2].

Lemma frames_read_back_witness :
  parseFrameNumbers (phrase_text 2) = [0; 0; 1; 2; 0; 1; 1; 2; 1; 1; 2; 2].
Proof.
  apply (frames_read_back [sentence 0 0 1 2; sentence 0 1 1 2; sentence 1 1 2 2]).
  apply (bool_decide_unpack _). vm_compute. exact I.
Defined.

Lemma corpus_in_bounds_witness :
  let f := [0; 0; 1; 2; 0; 1; 1; 2; 1; 1; 2; 2] in
  let s := mkOffline (mkHw ([] : FileHal) init_host) (mkRefChain 1 []) true true 0 in
  ProcessRegistrationCorpusData true (recordings ++ [[]]) f s =
    (Ret 0, (feed (corpus_chunks (recordings ++ [[]]) f) BYTES_PER_FRAME s).2).
Proof.
  intros f s. destruct (corpus_in_bounds true (recordings ++ [[]]) f s) as [H1 _].
  - vm_compute. lia.
  - vm_compute. lia.
  - apply (bool_decide_unpack _). vm_compute. exact I.
  - reflexivity.
  - destruct H1 as (_ & H1 & _); [unfold inside; apply (bool_decide_unpack _); vm_compute; exact I|]. apply H1. by intros c n [].
Defined.

Lemma offline_task_ends_witness :
  let r := offline_task true enroll_files (with_files good_files) in
  r.1 = Ret 0 ∧ oa_slept r.2 ≤ 10 ∧ oa_chain r.2 = false ∧ fx_live (oa_fx r.2) = 0.
Proof.
  intros r. assert (r.1 = Ret 0) as Hr by (vm_compute; reflexivity).
  destruct (offline_task_ends true enroll_files (with_files good_files) eq_refl) as (_ & [_ H2] & H3).
  destruct (H3 0 Hr) as [H4 H5]. exact (conj Hr (conj H2 (conj H4 H5))).
Defined.

(** The last number of the text is one frame past the end of the recording: the chain is made
    to read what lies behind it. *)
Example frame_past_the_end : (offline_task true enroll_files (with_files (pair 0 <$> recordings ++ [phrase_text 3]))).1 = Outside.
Proof. vm_compute. reflexivity. Qed.
(** A piece whose end comes before its begin is not taken for empty but for one of almost 4 GB. *)
Example end_before_begin : piece_size 5 3 = 4294966976.
Proof. vm_compute. reflexivity. Qed.
(** A number that does not fit is left out, and those after it move up to its place. *)
Example numbers_move_up : parseFrameNumbers (bytes_of (lit "beginFrameNo: 7, endFrameNo: 4294967296, cmdBeginFrame: 9")) = [7; 9].
Proof. vm_compute. reflexivity. Qed.
(** Two failures whose codes add up to 0 count as none. *)
Example failures_cancel :
  (read_files_sum 0 enroll_files (replicate 4 []) (with_files [(1, []); (-1, []); (0, [4]); (0, [5])])).1 = (0, [[]; []; [4]; [5]]).
Proof. vm_compute. reflexivity. Qed.
(** A failed processing keeps its chain until the processor goes. *)
Example chain_kept : ∃ s : Offline FileHal RefChain,
  oa_chain (ProcessOfflineAudioWhile true enroll_files s).2 = true ∧ (ProcessOfflineAudioWhile true enroll_files s).1 = Ret (- 2 * EINVAL) ∧
  oa_chain (offline_task true enroll_files s).2 = false.
Proof. exists (with_files (pair 0 <$> [[]; replicate 960 2; replicate 960 3;
    bytes_of (join newline (line_text <$> [sentence 0 0 0 0; sentence 0 1 1 2; sentence 1 1 2 2]))])). vm_compute. done. Qed.
