(* ===== verification/Huks.v ===== *)
(** * Encryption of the files of the HAL

    [utils/huks_aes_adapter.cpp] and [base/data_operation_callback.cpp]: the HAL keeps its
    files encrypted and asks the service to encrypt and decrypt them.  The key is in the key
    store HUKS, which has a key for each alias, takes long data in parts and may fail at any
    call.  The theorems say that what is encrypted is decrypted to the same bytes or not at
    all, whatever its length, and that a text with another tag is refused. *)

From S2P Require Import Prelude StringUtil AudioUtil EngineTypes EngineUtil.

Definition HKS_SUCCESS : Z := 0.
Definition MAX_UPDATE_SIZE : Z := 64 * 1024.
Definition MAX_OUTDATA_SIZE : Z := 128 * 1024.
Definition NONCE_SIZE : Z := 12.
Definition AEAD_SIZE : Z := 16.
Definition g_aliasName : str := lit "IntelligentVoiceKey".
Definition g_aadValue : str := lit "IntelligentVoiceAAD".

(** The four parameter sets; their constant parts (AES-GCM, 128 bits, no padding, storage
    level DE) are their names. *)
Inductive HksParams :=
| ExistParams
| GenParams
| EncryptParams (aad : str) (nonce : list Z)
| DecryptParams (aad : str) (nonce aead : list Z).

(** Enumerators of HUKS, and of the HAL's interface. *)
Class HksCodes := {
  HKS_FAILURE : Z; HKS_ERROR_INVALID_ARGUMENT : Z; HKS_ERROR_MALLOC_FAIL : Z;
  ENCRYPT_TYPE : Z; DECRYPT_TYPE : Z }.

(** HUKS: results, handles, and bytes; [hk_Update] and [hk_Finish] are told how much
    room there is for their output. *)
Class Huks (K : Type) := {
  hk_InitParamSet : St K Z;
  hk_AddParams : HksParams → St K Z;
  hk_BuildParamSet : St K Z;
  hk_FreeParamSet : St K unit;
  hk_KeyExist : str → St K Z;
  hk_GenerateKey : str → St K Z;
  hk_GenerateRandom : Z → St K (Z * list Z);
  hk_Init : str → HksParams → St K (Z * Z);
  hk_Update : Z → HksParams → list Z → Z → St K (Z * list Z);
  hk_Finish : Z → HksParams → list Z → Z → St K (Z * list Z) }.

Section huks.
Context {K : Type} `{!Huks K} {HC : HksCodes}.
Abbreviation M := (St K).

Definition ConstructParamSet (params : HksParams) : M Z :=
  ret ← hk_InitParamSet;
  if negb (ret =? HKS_SUCCESS) then mret ret else
  ret ← hk_AddParams params;
  if negb (ret =? HKS_SUCCESS) then (_ ← hk_FreeParamSet; mret ret) else
  ret ← hk_BuildParamSet;
  if negb (ret =? HKS_SUCCESS) then (_ ← hk_FreeParamSet; mret ret) else
  mret ret.

(** The result, and whether the key exists. *)
Definition IsKeyExist (keyAlias : str) : M (Z * bool) :=
  ret ← ConstructParamSet ExistParams;
  if negb (ret =? HKS_SUCCESS) then mret (ret, false) else
  exist ← hk_KeyExist keyAlias;
  _ ← hk_FreeParamSet;
  mret (HKS_SUCCESS, exist =? HKS_SUCCESS).
Definition GenerateKey (keyAlias : str) : M Z :=
  ret ← ConstructParamSet GenParams;
  if negb (ret =? HKS_SUCCESS) then mret ret else
  ret ← hk_GenerateKey keyAlias;
  _ ← hk_FreeParamSet;
  mret ret.
(** The result with the nonce, which is part of the set. *)
Definition CreateEncryptParamSet : M (Z * list Z) :=
  r ← hk_GenerateRandom NONCE_SIZE;
  if negb (r.1 =? HKS_SUCCESS) then mret (r.1, r.2) else
  ret ← ConstructParamSet (EncryptParams g_aadValue r.2);
  mret (ret, r.2).
Definition CreateDecryptParamSet (nonce aead : list Z) : M Z := ConstructParamSet (DecryptParams g_aadValue nonce aead).

(** ** Long data *)

(** The part of [data] that an update or the end of the operation is given. *)
Definition segment (data : list Z) (from size : Z) : list Z := take (Z.to_nat size) (drop (Z.to_nat from) data).
(** The loop of [UpdateAndFinish]: an error code, or how far it has come and what is out.
    [outSegSize] is the size of the output buffer, which an update sets to the size of its
    output.  [None] when the fuel is used up. *)
Fixpoint update_loop (fuel : nat) (handle : Z) (params : HksParams) (inData : list Z) (outSize : Z)
    (inUpdateSize outSegSize : Z) (out : list Z) : M (option (Z + (Z * list Z))) :=
  match fuel with
  | O => mret None
  | S fuel =>
    let size := Z.of_nat (length inData) in
    if size <=? u32 (inUpdateSize + MAX_UPDATE_SIZE) then mret (Some (inr (inUpdateSize, out))) else
    if outSegSize =? 0 then mret (Some (inl HKS_FAILURE)) else
    r ← hk_Update handle params (segment inData inUpdateSize MAX_UPDATE_SIZE) outSegSize;
    if negb (r.1 =? HKS_SUCCESS) then mret (Some (inl HKS_FAILURE)) else
    let outSegSize := Z.of_nat (length r.2) in
    if outSize <? u32 (Z.of_nat (length out) + outSegSize) then mret (Some (inl HKS_FAILURE)) else
    update_loop fuel handle params inData outSize (u32 (inUpdateSize + MAX_UPDATE_SIZE)) outSegSize (out ++ r.2)
  end.
(** [inData] is not empty. *)
Definition UpdateAndFinish (handle : Z) (params : HksParams) (inData : list Z) (outSize : Z) : M (option (Z * list Z)) :=
  let size := Z.of_nat (length inData) in
  l ← update_loop (S (Z.to_nat (size / MAX_UPDATE_SIZE))) handle params inData outSize 0 MAX_OUTDATA_SIZE [];
  match l with
  | None => mret None
  | Some (inl ret) => mret (Some (ret, []))
  | Some (inr (inUpdateSize, out)) =>
    let segSize := size - inUpdateSize in
    r ← hk_Finish handle params (segment inData inUpdateSize segSize) (u32 (segSize + AEAD_SIZE));
    if negb (r.1 =? HKS_SUCCESS) then mret (Some (HKS_FAILURE, [])) else
    if outSize <? u32 (Z.of_nat (length out) + Z.of_nat (length r.2)) then mret (Some (HKS_FAILURE, [])) else
    mret (Some (HKS_SUCCESS, out ++ r.2))
  end.

(** ** Encryption and decryption

    The result and the bytes of [outBuffer], which is only made with a success; a buffer
    without bytes cannot be made ([CreateArrayBuffer]).  Memory is always there. *)
Definition out_buffer (data : list Z) : Z * option (list Z) :=
  match data with [] => (HKS_ERROR_MALLOC_FAIL, None) | _ => (HKS_SUCCESS, Some data) end.
Definition done_with {A} (a : A) : M (option A) := mret (Some a).

Definition Encrypt (inBuffer : list Z) : M (option (Z * option (list Z))) :=
  if Z.of_nat (length inBuffer) =? 0 then done_with (HKS_ERROR_INVALID_ARGUMENT, None) else
  exist ← IsKeyExist g_aliasName;
  if negb (exist.1 =? HKS_SUCCESS) then done_with (exist.1, None) else
  ret ← (if (exist : Z * bool).2 then mret HKS_SUCCESS else GenerateKey g_aliasName : M Z);
  if negb (ret =? HKS_SUCCESS) then done_with (ret, None) else
  p ← CreateEncryptParamSet;
  if negb (p.1 =? HKS_SUCCESS) then done_with (p.1, None) else
  let params := EncryptParams g_aadValue p.2 in
  h ← hk_Init g_aliasName params;
  if negb (h.1 =? HKS_SUCCESS) then (_ ← hk_FreeParamSet; done_with (h.1, None)) else
  r ← UpdateAndFinish h.2 params inBuffer (u32 (Z.of_nat (length inBuffer) + AEAD_SIZE));
  _ ← hk_FreeParamSet;
  match r with
  | None => mret None
  | Some (ret, out) =>
    if negb (ret =? HKS_SUCCESS) then done_with (ret, None) else done_with (out_buffer (p.2 ++ out))
  end.

Definition Decrypt (inBuffer : list Z) : M (option (Z * option (list Z))) :=
  let size := Z.of_nat (length inBuffer) in
  if size <=? NONCE_SIZE + AEAD_SIZE then done_with (HKS_ERROR_INVALID_ARGUMENT, None) else
  exist ← IsKeyExist g_aliasName;
  if negb (exist.1 =? HKS_SUCCESS) then done_with (exist.1, None) else
  if negb exist.2 then done_with (HKS_FAILURE, None) else
  let nonce := segment inBuffer 0 NONCE_SIZE in
  let aead := segment inBuffer (size - AEAD_SIZE) AEAD_SIZE in
  let params := DecryptParams g_aadValue nonce aead in
  ret ← CreateDecryptParamSet nonce aead;
  if negb (ret =? HKS_SUCCESS) then done_with (ret, None) else
  h ← hk_Init g_aliasName params;
  if negb (h.1 =? HKS_SUCCESS) then (_ ← hk_FreeParamSet; done_with (h.1, None)) else
  let len := size - NONCE_SIZE - AEAD_SIZE in
  r ← UpdateAndFinish h.2 params (segment inBuffer NONCE_SIZE len) len;
  _ ← hk_FreeParamSet;
  match r with
  | None => mret None
  | Some (ret, out) => if negb (ret =? HKS_SUCCESS) then done_with (ret, None) else done_with (out_buffer out)
  end.

(** ** [DataOperationCallback] *)

Definition CreateArrayBufferFromAshmem (ashmem : option AshmemBuf) : option (list Z) :=
  match ashmem with
  | None => None
  | Some a => if u32 (ash_size a) =? 0 then None else if negb (ash_map a) then None else ash_read a
  end.
(** What the system says when shared memory is made, mapped and written. *)
Record ShmAnswers := mkShm { shm_made : bool; shm_mapped : bool; shm_written : bool }.
Definition CreateAshmemFromArrayBuffer (answers : ShmAnswers) (buffer : option (list Z)) : option (list Z) :=
  match buffer with
  | None | Some [] => None
  | Some data => if shm_made answers && shm_mapped answers && shm_written answers then Some data else None
  end.

(** The result and the contents of [outBuffer]. *)
Definition OnIntellVoiceDataOprEvent (answers : ShmAnswers) (type : Z) (inBuffer : option AshmemBuf) : M (option (Z * option (list Z))) :=
  match inBuffer with
  | None => done_with (-1, None)
  | Some _ =>
    if (type <? ENCRYPT_TYPE) || (DECRYPT_TYPE <? type) then done_with (-1, None) else
    match CreateArrayBufferFromAshmem inBuffer with
    | None => done_with (-1, None)
    | Some inData =>
      r ← (if type =? ENCRYPT_TYPE then Encrypt inData else Decrypt inData : M (option (Z * option (list Z))));
      match r with
      | None => mret None
      | Some (ret, outData) =>
        if negb (ret =? HKS_SUCCESS) then done_with (-1, None) else
        match CreateAshmemFromArrayBuffer answers outData with
        | None => done_with (-1, None)
        | Some out => done_with (0, Some out)
        end
      end
    end
  end.
End huks.

(** * Lemmas *)

(** An operation that has been begun: the key and the parameters it was begun with, and what
    went in and came out. *)
Record Session := mkSession { ss_key : Z; ss_params : HksParams; ss_in : list Z; ss_out : list Z }.

(** What the documentation of HUKS says of AES-GCM.  Every alias has a key of its own, kept
    until another is generated for it; an operation uses the key of the alias it is begun
    with.  Encryption and decryption xor the data with a stream that key and nonce give
    ([gcm_xor]), and the tag is that of the encrypted bytes.  Any call may fail; when an
    update succeeds it gives as many bytes as it gets, when the end of an encryption does
    it adds the tag, and the end of a decryption does only for the right tag.  [hk_works]
    says that the store is in working order: no call with valid arguments fails. *)
Class HuksLaws (K : Type) `{!Huks K} {HC : HksCodes} := {
  hk_keys : K → gmap str Z;
  hk_session : K → Z → option Session;
  hk_works : Prop;
  gcm_xor : Z → list Z → list Z → list Z;
  gcm_tag : Z → str → list Z → list Z → list Z;
  gcm_length key nonce x : length (gcm_xor key nonce x) = length x;
  gcm_twice key nonce x : gcm_xor key nonce (gcm_xor key nonce x) = x;
  tag_length key aad nonce x : Z.of_nat (length (gcm_tag key aad nonce x)) = AEAD_SIZE;
  codes_ok : HKS_FAILURE ≠ HKS_SUCCESS ∧ HKS_ERROR_INVALID_ARGUMENT ≠ HKS_SUCCESS ∧ ENCRYPT_TYPE < DECRYPT_TYPE;
  law_InitParamSet (k : K) : hk_keys (hk_InitParamSet k).2 = hk_keys k ∧ (hk_works → (hk_InitParamSet k).1 = HKS_SUCCESS);
  law_AddParams p (k : K) : hk_keys (hk_AddParams p k).2 = hk_keys k ∧ (hk_works → (hk_AddParams p k).1 = HKS_SUCCESS);
  law_BuildParamSet (k : K) : hk_keys (hk_BuildParamSet k).2 = hk_keys k ∧ (hk_works → (hk_BuildParamSet k).1 = HKS_SUCCESS);
  law_FreeParamSet (k : K) : hk_keys (hk_FreeParamSet k).2 = hk_keys k;
  law_KeyExist a (k : K) :
    hk_keys (hk_KeyExist a k).2 = hk_keys k ∧ ((hk_KeyExist a k).1 = HKS_SUCCESS → is_Some (hk_keys k !! a)) ∧
    (hk_works → is_Some (hk_keys k !! a) → (hk_KeyExist a k).1 = HKS_SUCCESS);
  law_GenerateKey a (k : K) :
    (∀ b, b ≠ a → hk_keys (hk_GenerateKey a k).2 !! b = hk_keys k !! b) ∧
    ((hk_GenerateKey a k).1 = HKS_SUCCESS → is_Some (hk_keys (hk_GenerateKey a k).2 !! a)) ∧
    (hk_works → (hk_GenerateKey a k).1 = HKS_SUCCESS);
  law_GenerateRandom n (k : K) : 0 ≤ n →
    hk_keys (hk_GenerateRandom n k).2 = hk_keys k ∧
    ((hk_GenerateRandom n k).1.1 = HKS_SUCCESS → Z.of_nat (length (hk_GenerateRandom n k).1.2) = n) ∧
    (hk_works → (hk_GenerateRandom n k).1.1 = HKS_SUCCESS);
  law_Init a p (k : K) :
    let r := hk_Init a p k in hk_keys r.2 = hk_keys k ∧
    (r.1.1 = HKS_SUCCESS → ∃ key, hk_keys k !! a = Some key ∧ hk_session r.2 r.1.2 = Some (mkSession key p [] [])) ∧
    (hk_works → is_Some (hk_keys k !! a) → r.1.1 = HKS_SUCCESS);
  law_Update h key p x room (k : K) i o : hk_session k h = Some (mkSession key p i o) →
    let r := hk_Update h p x room k in hk_keys r.2 = hk_keys k ∧
    (r.1.1 = HKS_SUCCESS → length r.1.2 = length x ∧ hk_session r.2 h = Some (mkSession key p (i ++ x) (o ++ r.1.2))) ∧
    (hk_works → Z.of_nat (length x) ≤ room → r.1.1 = HKS_SUCCESS);
  law_Finish_encrypt h key aad nonce x room (k : K) i o : hk_session k h = Some (mkSession key (EncryptParams aad nonce) i o) →
    let r := hk_Finish h (EncryptParams aad nonce) x room k in hk_keys r.2 = hk_keys k ∧
    (r.1.1 = HKS_SUCCESS → o ++ r.1.2 = gcm_xor key nonce (i ++ x) ++ gcm_tag key aad nonce (gcm_xor key nonce (i ++ x))) ∧
    (hk_works → Z.of_nat (length x) + AEAD_SIZE ≤ room → r.1.1 = HKS_SUCCESS);
  law_Finish_decrypt h key aad nonce aead x room (k : K) i o : hk_session k h = Some (mkSession key (DecryptParams aad nonce aead) i o) →
    let r := hk_Finish h (DecryptParams aad nonce aead) x room k in hk_keys r.2 = hk_keys k ∧
    (r.1.1 = HKS_SUCCESS → aead = gcm_tag key aad nonce (i ++ x) ∧ o ++ r.1.2 = gcm_xor key nonce (i ++ x)) ∧
    (hk_works → Z.of_nat (length x) ≤ room → aead = gcm_tag key aad nonce (i ++ x) → r.1.1 = HKS_SUCCESS) }.

Section laws.
Context {K : Type} `{!Huks K} {HC : HksCodes} `{!HuksLaws K}.
Abbreviation M := (St K).
Implicit Types k : K.

(** Lengths the code is used with; near 2^32 its sums wrap. *)
Definition usual (x : list Z) : Prop := Z.of_nat (length x) < 2 ^ 31.

(** A failed check: the rest is not run. *)
Ltac on_failure r H := destruct (Z.eqb_spec r HKS_SUCCESS) as [->|H]; cbn [negb].

Lemma params_built p k :
  hk_keys (ConstructParamSet p k).2 = hk_keys k ∧ (hk_works → (ConstructParamSet p k).1 = HKS_SUCCESS).
Proof.
  assert (∀ ret k, (_ ← hk_FreeParamSet; mret ret : M Z) k = (ret, (hk_FreeParamSet k).2)) as Hf by (intros ret k1; by rewrite bind_run).
  unfold ConstructParamSet. rewrite bind_run. destruct (law_InitParamSet k) as [H1 W1].
  destruct (hk_InitParamSet k) as [r1 k1]. cbn [fst snd] in *. on_failure r1 E1; [|split; [done|by intros W; destruct E1, W1]].
  rewrite bind_run. destruct (law_AddParams p k1) as [H2 W2]. destruct (hk_AddParams p k1) as [r2 k2]. cbn [fst snd] in *.
  on_failure r2 E2; [|rewrite Hf; cbn [fst snd]; rewrite law_FreeParamSet; split; [congruence|by intros W; destruct E2, W2]].
  rewrite bind_run. destruct (law_BuildParamSet k2) as [H3 W3]. destruct (hk_BuildParamSet k2) as [r3 k3]. cbn [fst snd] in *.
  on_failure r3 E3; [|rewrite Hf; cbn [fst snd]; rewrite law_FreeParamSet; split; [congruence|by intros W; destruct E3, W3]].
  split; [cbn; congruence|done].
Qed.
Lemma key_exists a k :
  hk_keys (IsKeyExist a k).2 = hk_keys k ∧ ((IsKeyExist a k).1 = (HKS_SUCCESS, true) → is_Some (hk_keys k !! a)) ∧
  (hk_works → (IsKeyExist a k).1 = (HKS_SUCCESS, bool_decide (is_Some (hk_keys k !! a)))).
Proof.
  unfold IsKeyExist. rewrite bind_run. destruct (params_built ExistParams k) as [H1 W1].
  destruct (ConstructParamSet ExistParams k) as [r1 k1]. cbn [fst snd] in *.
  on_failure r1 E1; [|split_and!; [done|by intros [= ?]|by intros W; destruct E1, W1]].
  rewrite bind_run. destruct (law_KeyExist a k1) as (H3 & H4 & W4). rewrite H1 in *.
  destruct (hk_KeyExist a k1) as [r2 k2]. cbn [fst snd] in *. rewrite bind_run. cbn [mret st_ret fst snd].
  split_and!; [by rewrite law_FreeParamSet|by intros [= ->%Z.eqb_eq]; apply H4|].
  intros W. destruct (Z.eqb_spec r2 HKS_SUCCESS) as [Hr|Hr]; [by rewrite bool_decide_true by by apply H4|].
  rewrite bool_decide_false; [done|]. intros Hk. by apply Hr, W4.
Qed.
Lemma key_made a k :
  ((GenerateKey a k).1 = HKS_SUCCESS → is_Some (hk_keys (GenerateKey a k).2 !! a)) ∧ (hk_works → (GenerateKey a k).1 = HKS_SUCCESS).
Proof.
  unfold GenerateKey. rewrite bind_run. destruct (params_built GenParams k) as [H1 W1].
  destruct (ConstructParamSet GenParams k) as [r1 k1]. cbn [fst snd] in *. on_failure r1 E1; [|split; [done|by intros W; destruct E1, W1]].
  rewrite bind_run. destruct (law_GenerateKey a k1) as (_ & H3 & W3).
  destruct (hk_GenerateKey a k1) as [r2 k2]. cbn [fst snd] in *. rewrite bind_run. cbn [mret st_ret fst snd]. by rewrite law_FreeParamSet.
Qed.
Lemma nonce_made k :
  let r := CreateEncryptParamSet k in hk_keys r.2 = hk_keys k ∧
  (r.1.1 = HKS_SUCCESS → Z.of_nat (length r.1.2) = NONCE_SIZE) ∧ (hk_works → r.1.1 = HKS_SUCCESS).
Proof.
  cbv zeta. unfold CreateEncryptParamSet. rewrite bind_run. destruct (law_GenerateRandom NONCE_SIZE k) as (H1 & H2 & W2); [done|].
  destruct (hk_GenerateRandom NONCE_SIZE k) as [[r nonce] k1]. cbn [fst snd] in *.
  on_failure r E1; [|split_and!; [done|by intros ?|by intros W; destruct E1, W2]].
  rewrite bind_run. destruct (params_built (EncryptParams g_aadValue nonce) k1) as [H4 W4].
  destruct (ConstructParamSet _ k1) as [r k2]. cbn [fst snd mret st_ret] in *. split_and!; [congruence|by intros _; apply H2|done].
Qed.

(** ** Long data *)

Lemma segment_app x from size : 0 ≤ from → 0 ≤ size → take (Z.to_nat from) x ++ segment x from size = take (Z.to_nat (from + size)) x.
Proof. intros Hf Hs. unfold segment. rewrite take_take_drop. f_equal. lia. Qed.
Lemma segment_length x from size :
  0 ≤ from → 0 ≤ size → from + size ≤ Z.of_nat (length x) → Z.of_nat (length (segment x from size)) = size.
Proof. intros. unfold segment. rewrite length_take, length_drop. lia. Qed.

(** What the loop leaves: all but the last part has been taken, and as much is out. *)
Definition taken (h key : Z) (p : HksParams) (x : list Z) (from : Z) (out : list Z) k : Prop :=
  hk_session k h = Some (mkSession key p (take (Z.to_nat from) x) out) ∧ Z.of_nat (length out) = from ∧ 0 ≤ from ≤ Z.of_nat (length x).
(** The loop ends with an error, or where the last part begins. *)
Definition loop_end (h key : Z) (p : HksParams) (x : list Z) k (l : Z + (Z * list Z)) k' : Prop :=
  hk_keys k' = hk_keys k ∧
  match l with
  | inl ret => ret = HKS_FAILURE ∧ ¬ hk_works
  | inr (from, out) => taken h key p x from out k' ∧ Z.of_nat (length x) - from ≤ MAX_UPDATE_SIZE
  end.
Lemma loop_takes fuel h key p x outSize from room out k :
  usual x → taken h key p x from out k → MAX_UPDATE_SIZE ≤ room → Z.of_nat (length x) ≤ outSize →
  (Z.of_nat (length x) - from) / MAX_UPDATE_SIZE < Z.of_nat fuel →
  ∃ l k', update_loop fuel h p x outSize from room out k = (Some l, k') ∧ loop_end h key p x k l k'.
Proof.
  intros Hx. revert from room out k. induction fuel as [|fuel IH]; intros from room out k (Hs & Ho & Hf) Hr Hout Hfuel.
  { pose proof (Z.div_pos (Z.of_nat (length x) - from) MAX_UPDATE_SIZE). unfold MAX_UPDATE_SIZE in *. lia. }
  unfold usual in Hx. cbn [update_loop]. cbv zeta. unfold u32 at 1. rewrite Z.mod_small by (unfold MAX_UPDATE_SIZE; lia).
  destruct (Z.leb_spec (Z.of_nat (length x)) (from + MAX_UPDATE_SIZE)) as [Hl|Hl].
  { exists (inr (from, out)), k. split; [done|]. split; [done|]. split; [exact (conj Hs (conj Ho Hf))|lia]. }
  rewrite (proj2 (Z.eqb_neq room 0)) by (unfold MAX_UPDATE_SIZE in Hr; lia).
  assert (Z.of_nat (length (segment x from MAX_UPDATE_SIZE)) = MAX_UPDATE_SIZE) as Hseg
    by (apply segment_length; unfold MAX_UPDATE_SIZE in *; lia).
  destruct (law_Update h key p (segment x from MAX_UPDATE_SIZE) room k _ _ Hs) as (H1 & H2 & W2).
  rewrite bind_run. destruct (hk_Update h p _ room k) as [[r o] k1]. cbn [fst snd] in *. on_failure r E1.
  2: { exists (inl HKS_FAILURE), k1. split; [done|]. split; [done|]. split; [done|]. intros W. apply E1, W2; [done|lia]. }
  destruct (H2 eq_refl) as [H3 H4]. clear H2 W2.
  assert (Z.of_nat (length o) = MAX_UPDATE_SIZE) as Ho' by by rewrite H3.
  unfold u32. rewrite !Z.mod_small by (unfold MAX_UPDATE_SIZE in *; lia). rewrite (proj2 (Z.ltb_ge _ _)) by lia.
  destruct (IH (from + MAX_UPDATE_SIZE) (Z.of_nat (length o)) (out ++ o) k1) as (l & k' & H5 & H6 & H7); [|lia|done| |].
  - unfold taken. split_and!; [|rewrite length_app; lia|unfold MAX_UPDATE_SIZE; lia|lia].
    rewrite H4, segment_app by (unfold MAX_UPDATE_SIZE; lia). done.
  - replace (Z.of_nat (length x) - from) with (Z.of_nat (length x) - (from + MAX_UPDATE_SIZE) + 1 * MAX_UPDATE_SIZE) in Hfuel by lia.
    rewrite Z.div_add in Hfuel by done. lia.
  - exists l, k'. split; [done|]. split; [congruence|done].
Qed.

(** What is there at the end of the loop. *)
Lemma loop_done h key p x outSize k :
  usual x → hk_session k h = Some (mkSession key p [] []) → Z.of_nat (length x) ≤ outSize →
  ∃ l k', update_loop (S (Z.to_nat (Z.of_nat (length x) / MAX_UPDATE_SIZE))) h p x outSize 0 MAX_OUTDATA_SIZE [] k = (Some l, k') ∧
    loop_end h key p x k l k'.
Proof.
  intros Hx Hs Hout. apply loop_takes; [done| |done|done|].
  - split; [done|]. split; [done|lia].
  - rewrite Z.sub_0_r. pose proof (Z.div_pos (Z.of_nat (length x)) MAX_UPDATE_SIZE). unfold MAX_UPDATE_SIZE in *. lia.
Qed.
Lemma last_segment x from : 0 ≤ from ≤ Z.of_nat (length x) →
  Z.of_nat (length (segment x from (Z.of_nat (length x) - from))) = Z.of_nat (length x) - from ∧
  take (Z.to_nat from) x ++ segment x from (Z.of_nat (length x) - from) = x.
Proof. intros Hf. split; [apply segment_length; lia|]. rewrite segment_app by lia. apply take_ge. lia. Qed.

Definition sealed (key : Z) (nonce x : list Z) : list Z :=
  gcm_xor key nonce x ++ gcm_tag key g_aadValue nonce (gcm_xor key nonce x).
Lemma sealed_length key nonce x : Z.of_nat (length (sealed key nonce x)) = Z.of_nat (length x) + AEAD_SIZE.
Proof. unfold sealed. rewrite length_app, gcm_length, Nat2Z.inj_add, tag_length. done. Qed.

Lemma finish_encrypt h key nonce x k :
  usual x → hk_session k h = Some (mkSession key (EncryptParams g_aadValue nonce) [] []) →
  ∃ r k', UpdateAndFinish h (EncryptParams g_aadValue nonce) x (u32 (Z.of_nat (length x) + AEAD_SIZE)) k = (Some r, k') ∧
    hk_keys k' = hk_keys k ∧ (r.1 = HKS_SUCCESS → r.2 = sealed key nonce x) ∧ (hk_works → r.1 = HKS_SUCCESS).
Proof.
  intros Hx Hs. pose proof Hx as Hx'. unfold usual in Hx'.
  assert (u32 (Z.of_nat (length x) + AEAD_SIZE) = Z.of_nat (length x) + AEAD_SIZE) as Hu
    by (unfold u32; apply Z.mod_small; unfold AEAD_SIZE; lia).
  destruct codes_ok as (Hcode & _ & _).
  destruct (loop_done h key (EncryptParams g_aadValue nonce) x (u32 (Z.of_nat (length x) + AEAD_SIZE)) k Hx Hs)
    as (l & k1 & H1 & H2 & H3); [unfold AEAD_SIZE in *; lia|].
  unfold UpdateAndFinish. cbv zeta. rewrite bind_run, H1. cbn [fst snd]. destruct l as [ret|[from out]].
  { destruct H3 as [-> Hw]. exists (HKS_FAILURE, []), k1. split_and!; [done|done|by intros ?|by intros ?%Hw]. }
  destruct H3 as [(Hk1 & Hl1 & Hf1) Hm1]. destruct (last_segment x from Hf1) as [Hsl Hsx]. rewrite bind_run.
  destruct (law_Finish_encrypt h key g_aadValue nonce (segment x from (Z.of_nat (length x) - from))
    (u32 (Z.of_nat (length x) - from + AEAD_SIZE)) k1 _ _ Hk1) as (H4 & H5 & W5).
  destruct (hk_Finish h _ _ _ k1) as [[r o] k2]. cbn [fst snd] in *. rewrite Hsx in H5. on_failure r E1.
  2: { exists (HKS_FAILURE, []), k2. split_and!; [done|congruence|by intros ?|]. intros W. destruct E1. apply W5; [done|].
       unfold u32. rewrite Z.mod_small by (unfold AEAD_SIZE; lia). lia. }
  specialize (H5 eq_refl). fold (sealed key nonce x) in H5.
  assert (Z.of_nat (length out) + Z.of_nat (length o) = Z.of_nat (length x) + AEAD_SIZE) as Hl
    by (rewrite <- (sealed_length key nonce x), <- H5, length_app; lia).
  rewrite Hl, Hu, (proj2 (Z.ltb_ge _ _)) by lia. exists (HKS_SUCCESS, out ++ o), k2. split_and!; [done|congruence|done|done].
Qed.
Lemma finish_decrypt h key nonce aead c k :
  usual c → hk_session k h = Some (mkSession key (DecryptParams g_aadValue nonce aead) [] []) →
  ∃ r k', UpdateAndFinish h (DecryptParams g_aadValue nonce aead) c (Z.of_nat (length c)) k = (Some r, k') ∧
    hk_keys k' = hk_keys k ∧
    (r.1 = HKS_SUCCESS → aead = gcm_tag key g_aadValue nonce c ∧ r.2 = gcm_xor key nonce c) ∧
    (hk_works → aead = gcm_tag key g_aadValue nonce c → r.1 = HKS_SUCCESS).
Proof.
  intros Hx Hs. pose proof Hx as Hx'. unfold usual in Hx'. destruct codes_ok as (Hcode & _ & _).
  destruct (loop_done h key (DecryptParams g_aadValue nonce aead) c (Z.of_nat (length c)) k Hx Hs) as (l & k1 & H1 & H2 & H3); [lia|].
  unfold UpdateAndFinish. cbv zeta. rewrite bind_run, H1. cbn [fst snd]. destruct l as [ret|[from out]].
  { destruct H3 as [-> Hw]. exists (HKS_FAILURE, []), k1. split_and!; [done|done|by intros ?|by intros ?%Hw]. }
  destruct H3 as [(Hk1 & Hl1 & Hf1) Hm1]. destruct (last_segment c from Hf1) as [Hsl Hsx]. rewrite bind_run.
  destruct (law_Finish_decrypt h key g_aadValue nonce aead (segment c from (Z.of_nat (length c) - from))
    (u32 (Z.of_nat (length c) - from + AEAD_SIZE)) k1 _ _ Hk1) as (H4 & H5 & W5).
  destruct (hk_Finish h _ _ _ k1) as [[r o] k2]. cbn [fst snd] in *. rewrite Hsx in H5, W5. on_failure r E1.
  2: { exists (HKS_FAILURE, []), k2. split_and!; [done|congruence|by intros ?|]. intros W Ht. destruct E1. apply W5; [done| |done].
       unfold u32. rewrite Z.mod_small by (unfold AEAD_SIZE; lia). unfold AEAD_SIZE. lia. }
  destruct (H5 eq_refl) as [Ht Ho].
  assert (Z.of_nat (length out) + Z.of_nat (length o) = Z.of_nat (length c)) as ->
    by (rewrite <- (gcm_length key nonce c), <- Ho, length_app; lia).
  unfold u32. rewrite Z.mod_small by lia. rewrite Z.ltb_irrefl. exists (HKS_SUCCESS, out ++ o), k2. split_and!; [done|congruence|done|done].
Qed.

(** ** Encryption and decryption *)

(** An operation that has been begun, to its end: what follows [hk_Init] in both. *)
Lemma free_run {B} (b : B) k : (_ ← hk_FreeParamSet; done_with b) k = (Some b, (hk_FreeParamSet k).2).
Proof. by rewrite bind_run. Qed.

(** The key of the alias, which is made if it does not exist. *)
Definition ensure_key (exist : bool) : M Z := if exist then mret HKS_SUCCESS else GenerateKey g_aliasName.
Lemma key_ensured exist k :
  (exist = true → is_Some (hk_keys k !! g_aliasName)) →
  ((ensure_key exist k).1 = HKS_SUCCESS → is_Some (hk_keys (ensure_key exist k).2 !! g_aliasName)) ∧
  (hk_works → (ensure_key exist k).1 = HKS_SUCCESS) ∧ (exist = true → hk_keys (ensure_key exist k).2 = hk_keys k).
Proof.
  intros He. destruct exist; cbn [ensure_key]; [by split_and!; [intros _; apply He|..]|].
  destruct (key_made g_aliasName k) as [H1 H2]. by split_and!.
Qed.

(** The result of an encryption from [k], and the state after it. *)
Definition encrypted (x : list Z) k (r : Z * option (list Z)) k' : Prop :=
  (r.1 = HKS_SUCCESS → ∃ key nonce, r.2 = Some (nonce ++ sealed key nonce x) ∧ hk_keys k' !! g_aliasName = Some key ∧
     Z.of_nat (length nonce) = NONCE_SIZE) ∧
  (hk_works → r.1 = HKS_SUCCESS ∧ (is_Some (hk_keys k !! g_aliasName) → hk_keys k' = hk_keys k)).
Lemma encrypt_failed x k r k' : r.1 ≠ HKS_SUCCESS → ¬ hk_works → encrypted x k r k'.
Proof. by split. Qed.

Lemma encrypt_runs x k : usual x → x ≠ [] → ∃ r k', Encrypt x k = (Some r, k') ∧ encrypted x k r k'.
Proof.
  intros Hx Hne. unfold Encrypt. rewrite (proj2 (Z.eqb_neq _ _)) by (destruct x; cbn; [done|lia]).
  destruct (key_exists g_aliasName k) as (H1 & H2 & W2). rewrite bind_run.
  destruct (IsKeyExist g_aliasName k) as [[e exist] k1]. cbn [fst snd] in *. on_failure e E1.
  2: { do 2 eexists. split; [done|]. apply encrypt_failed; [done|]. intros W. specialize (W2 W). congruence. }
  rewrite bind_run. fold (ensure_key exist).
  destruct (key_ensured exist k1) as (H3 & W3 & H3'); [intros ->; rewrite H1; by apply H2|].
  destruct (ensure_key exist k1) as [r2 k2]. cbn [fst snd] in *. on_failure r2 E2.
  2: { do 2 eexists. split; [done|]. apply encrypt_failed; [done|]. by intros W%W3. }
  destruct (nonce_made k2) as (H4 & H5 & W5). rewrite bind_run.
  destruct (CreateEncryptParamSet k2) as [[r3 nonce] k3]. cbn [fst snd] in *. on_failure r3 E3.
  2: { do 2 eexists. split; [done|]. apply encrypt_failed; [done|]. by intros W%W5. }
  destruct (law_Init g_aliasName (EncryptParams g_aadValue nonce) k3) as (H6 & H7 & W7). cbv zeta. rewrite bind_run.
  destruct (hk_Init g_aliasName (EncryptParams g_aadValue nonce) k3) as [[r4 h] k4]. cbn [fst snd] in *. on_failure r4 E4.
  2: { rewrite free_run. do 2 eexists. split; [done|]. apply encrypt_failed; [done|]. intros W. apply E4, W7; [done|].
       rewrite H4. by apply H3. }
  destruct (H7 eq_refl) as (key & Hkey & Hses).
  destruct (finish_encrypt h key nonce x k4 Hx Hses) as ([ret out] & k5 & H8 & H9 & H10 & W10). cbn [fst snd] in *.
  rewrite bind_run, H8. cbn [fst snd]. rewrite bind_run. on_failure ret E5.
  2: { do 2 eexists. split; [done|]. apply encrypt_failed; [done|]. by intros W%W10. }
  assert (hk_keys (hk_FreeParamSet k5).2 = hk_keys k3) as Hk5 by (rewrite law_FreeParamSet; congruence).
  specialize (H5 eq_refl). rewrite H10 by done.
  assert (out_buffer (nonce ++ sealed key nonce x) = (HKS_SUCCESS, Some (nonce ++ sealed key nonce x))) as -> by (destruct nonce; [by cbn in H5|done]).
  do 2 eexists. split; [done|]. split; [intros _; exists key, nonce; cbn [fst snd]; by rewrite Hk5|].
  intros W. split; [done|]. intros He. cbn [fst snd]. rewrite Hk5, H4. specialize (W2 W). injection W2 as W2.
  rewrite bool_decide_true in W2 by done. by rewrite H3'.
Qed.

Lemma segment_middle (a b c : list Z) from size :
  Z.of_nat (length a) = from → Z.of_nat (length b) = size → segment (a ++ b ++ c) from size = b.
Proof.
  intros <- <-. unfold segment. rewrite !Nat2Z.id, drop_app_length, take_app_length. done.
Qed.
(** The three parts of a text. *)
Lemma text_parts nonce c aead :
  Z.of_nat (length nonce) = NONCE_SIZE → Z.of_nat (length aead) = AEAD_SIZE →
  let size := Z.of_nat (length (nonce ++ c ++ aead)) in
  size = NONCE_SIZE + Z.of_nat (length c) + AEAD_SIZE ∧ segment (nonce ++ c ++ aead) 0 NONCE_SIZE = nonce ∧
  segment (nonce ++ c ++ aead) (size - AEAD_SIZE) AEAD_SIZE = aead ∧
  segment (nonce ++ c ++ aead) NONCE_SIZE (size - NONCE_SIZE - AEAD_SIZE) = c.
Proof.
  intros Hn Ha size.
  assert (size = NONCE_SIZE + Z.of_nat (length c) + AEAD_SIZE) as Hl by (unfold size; rewrite !length_app; lia).
  split_and!; [done| | |].
  - rewrite <- Hn. exact (segment_middle [] nonce (c ++ aead) 0 _ eq_refl eq_refl).
  - assert (nonce ++ c ++ aead = (nonce ++ c) ++ aead ++ []) as -> by by rewrite app_nil_r, app_assoc.
    apply segment_middle; [rewrite length_app; lia|done].
  - apply segment_middle; lia.
Qed.
Lemma decrypt_runs nonce c aead k key :
  usual c → c ≠ [] → Z.of_nat (length nonce) = NONCE_SIZE → Z.of_nat (length aead) = AEAD_SIZE → hk_keys k !! g_aliasName = Some key →
  ∃ r k', Decrypt (nonce ++ c ++ aead) k = (Some r, k') ∧
    (r.1 = HKS_SUCCESS → aead = gcm_tag key g_aadValue nonce c ∧ r.2 = Some (gcm_xor key nonce c)) ∧
    (hk_works → aead = gcm_tag key g_aadValue nonce c → r.1 = HKS_SUCCESS).
Proof.
  intros Hc Hne Hn Ha Hk. unfold Decrypt. cbv zeta. destruct (text_parts nonce c aead Hn Ha) as (Hl & S1 & S2 & S3).
  assert (0 < Z.of_nat (length c)) as Hpos by (destruct c; cbn; [done|lia]). rewrite S1, S2, S3.
  replace (Z.of_nat (length (nonce ++ c ++ aead)) - NONCE_SIZE - AEAD_SIZE) with (Z.of_nat (length c)) by lia.
  rewrite Hl, (proj2 (Z.leb_gt _ _)) by lia. destruct codes_ok as (Hcode & _ & _).
  destruct (key_exists g_aliasName k) as (H1 & H2 & W2). rewrite bind_run.
  destruct (IsKeyExist g_aliasName k) as [[e exist] k1]. cbn [fst snd] in *. on_failure e E1.
  2: { do 2 eexists. split_and!; [done|done|]. intros W. specialize (W2 W). congruence. }
  destruct exist; cbn [negb].
  2: { do 2 eexists. split_and!; [done|by intros ?|]. intros W. specialize (W2 W). injection W2 as W2.
       rewrite bool_decide_true in W2; [done|]. by rewrite Hk. }
  rewrite bind_run. unfold CreateDecryptParamSet. destruct (params_built (DecryptParams g_aadValue nonce aead) k1) as [H3 W3].
  destruct (ConstructParamSet _ k1) as [r2 k2]. cbn [fst snd] in *. on_failure r2 E2.
  2: { do 2 eexists. split_and!; [done|done|]. by intros W%W3. }
  destruct (law_Init g_aliasName (DecryptParams g_aadValue nonce aead) k2) as (H4 & H5 & W5). rewrite bind_run.
  destruct (hk_Init g_aliasName (DecryptParams g_aadValue nonce aead) k2) as [[r3 h] k3]. cbn [fst snd] in *. on_failure r3 E3.
  2: { rewrite free_run. do 2 eexists. split_and!; [done|done|]. intros W _. destruct E3. apply W5; [done|]. by rewrite H3, H1, Hk. }
  destruct (H5 eq_refl) as (key' & Hkey & Hses). rewrite H3, H1, Hk in Hkey. injection Hkey as <-.
  destruct (finish_decrypt h key nonce aead c k3 Hc Hses) as ([ret out] & k4 & H6 & H7 & H8 & W8). cbn [fst snd] in *.
  rewrite bind_run, H6. cbn [fst snd]. rewrite bind_run. on_failure ret E4.
  2: { do 2 eexists. split_and!; [done|done|]. by intros W Ht%W8. }
  destruct (H8 eq_refl) as [Ht ->].
  assert (out_buffer (gcm_xor key nonce c) = (HKS_SUCCESS, Some (gcm_xor key nonce c))) as ->.
  { unfold out_buffer. destruct (gcm_xor key nonce c) as [|b l] eqn:Hg; [|done].
    apply (f_equal length) in Hg. rewrite gcm_length in Hg. cbn in Hg. lia. }
  do 2 eexists. by split_and!.
Qed.

(** ** The callback *)

(** Shared memory with these bytes, and a system that makes it. *)
Definition shared (x : list Z) : option AshmemBuf := Some (mkAshmem (Z.of_nat (length x)) true (Some x)).
Definition shm_ok : ShmAnswers := mkShm true true true.

Lemma shared_read x : usual x → x ≠ [] → CreateArrayBufferFromAshmem (shared x) = Some x.
Proof.
  intros Hx Hne. unfold usual in Hx. cbn. unfold u32. rewrite Z.mod_small by lia.
  rewrite (proj2 (Z.eqb_neq _ _)); [done|]. destruct x; [done|cbn; lia].
Qed.
Lemma type_ok type : type = ENCRYPT_TYPE ∨ type = DECRYPT_TYPE → (type <? ENCRYPT_TYPE) || (DECRYPT_TYPE <? type) = false.
Proof.
  destruct codes_ok as (_ & _ & Hc). intros Ht. apply orb_false_iff. split; apply Z.ltb_ge; destruct Ht; subst; lia.
Qed.
(** The answers to the HAL, from those of the adapter. *)
Lemma answer_encrypt x k r k' : usual x → x ≠ [] → Encrypt x k = (Some r, k') → (r.1 = HKS_SUCCESS → ∃ b l, r.2 = Some (b :: l)) →
  OnIntellVoiceDataOprEvent shm_ok ENCRYPT_TYPE (shared x) k = (Some (if r.1 =? HKS_SUCCESS then (0, r.2) else (-1, None)), k').
Proof.
  intros Hu Hne He Hr. unfold OnIntellVoiceDataOprEvent. cbn [shared]. fold (shared x). rewrite type_ok by by left.
  rewrite shared_read, Z.eqb_refl, bind_run, He by done. destruct r as [ret out]. cbn [fst snd] in *. on_failure ret E; [|done].
  destruct (Hr eq_refl) as (b & l & ->). done.
Qed.
Lemma answer_decrypt c k r k' : usual c → c ≠ [] → Decrypt c k = (Some r, k') → (r.1 = HKS_SUCCESS → ∃ b l, r.2 = Some (b :: l)) →
  OnIntellVoiceDataOprEvent shm_ok DECRYPT_TYPE (shared c) k = (Some (if r.1 =? HKS_SUCCESS then (0, r.2) else (-1, None)), k').
Proof.
  intros Hu Hne He Hr. unfold OnIntellVoiceDataOprEvent. cbn [shared]. fold (shared c). rewrite type_ok by by right.
  destruct codes_ok as (_ & _ & Hc). rewrite shared_read, (proj2 (Z.eqb_neq DECRYPT_TYPE ENCRYPT_TYPE)), bind_run, He by (done || lia).
  destruct r as [ret out]. cbn [fst snd] in *. on_failure ret E; [|done]. destruct (Hr eq_refl) as (b & l & ->). done.
Qed.

(** What a text of [x] is good for while the alias has its key. *)
Definition opens_to (x c : list Z) (key : Z) : Prop := ∀ k, hk_keys k !! g_aliasName = Some key →
  let opened c := (OnIntellVoiceDataOprEvent shm_ok DECRYPT_TYPE (shared c) k).1 in
  (opened c = Some (0, Some x) ∨ opened c = Some (-1, None)) ∧ (hk_works → opened c = Some (0, Some x)) ∧
  ∀ tag, Z.of_nat (length tag) = AEAD_SIZE → take (length x + Z.to_nat NONCE_SIZE) c ++ tag ≠ c →
    opened (take (length x + Z.to_nat NONCE_SIZE) c ++ tag) = Some (-1, None).
Lemma sealed_opens x nonce key :
  x ≠ [] → Z.of_nat (length x) < 2 ^ 31 - (NONCE_SIZE + AEAD_SIZE) → Z.of_nat (length nonce) = NONCE_SIZE →
  opens_to x (nonce ++ sealed key nonce x) key.
Proof.
  intros Hne Hx Hn k Hk opened. set (g := gcm_xor key nonce x). set (t := gcm_tag key g_aadValue nonce g).
  change (sealed key nonce x) with (g ++ t). assert (length g = length x) as Hg by apply gcm_length.
  assert (∀ tag, Z.of_nat (length tag) = AEAD_SIZE →
    (opened (nonce ++ g ++ tag) = Some (0, Some x) ∧ tag = t ∨ opened (nonce ++ g ++ tag) = Some (-1, None)) ∧
    (hk_works → tag = t → opened (nonce ++ g ++ tag) = Some (0, Some x))) as Hdec.
  { intros tag Hl.
    assert (usual g ∧ g ≠ []) as [Hgu Hgne]. { unfold usual, NONCE_SIZE, AEAD_SIZE in *. split; [lia|by destruct x, g]. }
    assert (usual (nonce ++ g ++ tag) ∧ nonce ++ g ++ tag ≠ []) as [Hcu Hcne].
    { unfold usual. rewrite !length_app. unfold NONCE_SIZE, AEAD_SIZE in *. split; [lia|by destruct nonce, g]. }
    destruct (decrypt_runs nonce g tag k key Hgu Hgne Hn Hl Hk) as (r & k' & E & H1 & W1).
    assert (r.1 = HKS_SUCCESS → r.2 = Some x) as Hr by (intros Hs; destruct (H1 Hs) as [_ ->]; unfold g; by rewrite gcm_twice).
    unfold opened. rewrite (answer_decrypt _ _ r k' Hcu Hcne E) by (intros Hs; rewrite (Hr Hs); destruct x; [done|by do 2 eexists]).
    cbn [fst]. fold t in H1, W1. split.
    - destruct (Z.eqb_spec r.1 HKS_SUCCESS) as [Hs|]; [|by right]. left. by rewrite Hr, (proj1 (H1 Hs)).
    - intros W Ht. by rewrite (proj2 (Z.eqb_eq _ _) (W1 W Ht)), (Hr (W1 W Ht)). }
  assert (Z.of_nat (length t) = AEAD_SIZE) as Ht by apply tag_length. split_and!.
  - destruct (Hdec t Ht) as [[[H _]|H] _]; [by left|by right].
  - intros W. by apply Hdec.
  - intros tag Hl.
    assert (take (length x + Z.to_nat NONCE_SIZE) (nonce ++ g ++ t) ++ tag = nonce ++ g ++ tag) as ->
      by (rewrite !app_assoc, take_app_le, take_ge by (rewrite length_app; lia); done).
    intros Hno. destruct (Hdec tag Hl) as [[[_ ->]|H] _]; done.
Qed.

(** C13: What the HAL has encrypted it gets back, or an error.  The key store may fail at any
    call.  The encryption of any bytes, given in shared memory, comes to an end, with an
    error or with a text 28 bytes longer under a key that the alias of the service then has.
    While the alias has this key, the decryption of the text, however long it is and in
    however many parts it is taken, gives the same bytes or an error and never others, and
    with any other bytes in the place of the tag it gives an error.  If the store works,
    neither is an error, and a key that was there is kept. *)
Theorem data_round_trip (x : list Z) (k : K) (Hne : x ≠ []) (Hx : Z.of_nat (length x) < 2 ^ 31 - (NONCE_SIZE + AEAD_SIZE)) :
  let r := OnIntellVoiceDataOprEvent shm_ok ENCRYPT_TYPE (shared x) k in
  (r.1 = Some (-1, None) ∨ ∃ c key, r.1 = Some (0, Some c) ∧ hk_keys r.2 !! g_aliasName = Some key ∧
     Z.of_nat (length c) = Z.of_nat (length x) + NONCE_SIZE + AEAD_SIZE ∧ opens_to x c key) ∧
  (hk_works → r.1 ≠ Some (-1, None) ∧ (is_Some (hk_keys k !! g_aliasName) → hk_keys r.2 = hk_keys k)).
Proof.
  assert (usual x) as Hu by (unfold usual, NONCE_SIZE, AEAD_SIZE in *; lia).
  destruct (encrypt_runs x k Hu Hne) as (r & k' & He & H1 & W1). cbv zeta.
  assert (r.1 = HKS_SUCCESS → ∃ b l, r.2 = Some (b :: l)) as Hb.
  { intros Hs. destruct (H1 Hs) as (key & [|b nonce] & -> & _ & Hn); [done|by do 2 eexists]. }
  rewrite (answer_encrypt x k r k' Hu Hne He Hb). cbn [fst snd]. split.
  - destruct (Z.eqb_spec r.1 HKS_SUCCESS) as [Hs|]; [right|by left]. destruct (H1 Hs) as (key & nonce & -> & Hk & Hn).
    exists (nonce ++ sealed key nonce x), key. split_and!; [done|done| |by apply sealed_opens].
    rewrite length_app, Nat2Z.inj_add, sealed_length. lia.
  - intros W. destruct (W1 W) as [Hs Hk]. rewrite (proj2 (Z.eqb_eq _ _) Hs). by split.
Qed.

(** What is refused, before the key store is asked: bytes that are no encrypted text, other
    types than the two, and memory that is not there, is empty or cannot be mapped. *)
Theorem data_refused answers type inBuffer (k : K) :
  (inBuffer = None ∨ type < ENCRYPT_TYPE ∨ DECRYPT_TYPE < type ∨ CreateArrayBufferFromAshmem inBuffer = None ∨
   (type = DECRYPT_TYPE ∧ ∃ c, CreateArrayBufferFromAshmem inBuffer = Some c ∧ Z.of_nat (length c) ≤ NONCE_SIZE + AEAD_SIZE)) →
  OnIntellVoiceDataOprEvent answers type inBuffer k = (Some (-1, None), k).
Proof.
  intros Hr. destruct codes_ok as (_ & Hcode & Hcodes). unfold OnIntellVoiceDataOprEvent. destruct inBuffer as [a|]; [|done].
  destruct (Z.ltb_spec type ENCRYPT_TYPE); [done|]. destruct (Z.ltb_spec DECRYPT_TYPE type); [done|]. cbn [orb].
  destruct Hr as [Hr|[Hr|[Hr|[Hr|[-> (c & Hr & Hl)]]]]]; [done|lia|lia|by rewrite Hr|].
  rewrite Hr, (proj2 (Z.eqb_neq DECRYPT_TYPE ENCRYPT_TYPE)) by lia.
  rewrite bind_run. unfold Decrypt. cbv zeta. rewrite (proj2 (Z.leb_le _ _)) by done. cbn [fst snd done_with mret st_ret].
  by rewrite (proj2 (Z.eqb_neq _ _) Hcode).
Qed.
End laws.

(** * A reference key store

    It makes a new key each time it is asked, its stream repeats the key, and its tag
    counts.  With [flaky] it cannot say whether a key exists. *)
Record RefHuks := mkRefHuks { rk_keys : gmap str Z; rk_next : Z; rk_sessions : gmap Z (Z * HksParams * list Z) }.
#[global] Instance RefHuks_eta : Eta RefHuks := λ k, mkRefHuks (rk_keys k) (rk_next k) (rk_sessions k).
Definition rk_xor (key : Z) (x : list Z) : list Z := Z.lxor key <$> x.
Definition rk_tag (key : Z) (nonce x : list Z) : list Z := replicate 16 (key + foldl Z.add 0 (nonce ++ x)).
(** What an operation gives for all that has gone in. *)
Definition rk_result (key : Z) (p : HksParams) (x : list Z) : option (list Z) :=
  match p with
  | EncryptParams _ nonce => Some (rk_xor key x ++ rk_tag key nonce (rk_xor key x))
  | DecryptParams _ nonce aead => if bool_decide (aead = rk_tag key nonce x) then Some (rk_xor key x) else None
  | _ => None
  end.
#[global] Instance ref_codes : HksCodes := {|
  HKS_FAILURE := -1; HKS_ERROR_INVALID_ARGUMENT := -3; HKS_ERROR_MALLOC_FAIL := -5; ENCRYPT_TYPE := 0; DECRYPT_TYPE := 1 |}.
Definition ref_huks_with (flaky : bool) : Huks RefHuks := {|
  hk_InitParamSet := mret 0; hk_AddParams _ := mret 0; hk_BuildParamSet := mret 0; hk_FreeParamSet := mret ();
  hk_KeyExist a := st_gets (λ k, if flaky then -1 else match rk_keys k !! a with Some _ => 0 | None => -13 end);
  hk_GenerateKey a := λ k, (0, k <| rk_keys ::= <[a := 85 + rk_next k]> |> <| rk_next ::= Z.succ |>);
  hk_GenerateRandom n := mret (0, replicate (Z.to_nat n) 9);
  hk_Init a p := λ k,
    match rk_keys k !! a with
    | Some key => ((0, rk_next k), k <| rk_sessions ::= <[rk_next k := (key, p, [])]> |> <| rk_next ::= Z.succ |>)
    | None => ((-13, 0), k)
    end;
  hk_Update h p x room := λ k,
    match rk_sessions k !! h with
    | Some (key, _, i) => ((0, rk_xor key x), k <| rk_sessions ::= <[h := (key, p, i ++ x)]> |>)
    | None => ((-1, []), k)
    end;
  hk_Finish h p x room := λ k,
    match rk_sessions k !! h with
    | Some (key, _, i) =>
      match rk_result key p (i ++ x) with
      | Some full => ((0, drop (length i) full), k)
      | None => ((-1, []), k)
      end
    | None => ((-1, []), k)
    end |}.
#[global] Instance ref_huks : Huks RefHuks := ref_huks_with false.
(** An operation has put out what it gives for what has gone in. *)
Definition rk_session (k : RefHuks) (h : Z) : option Session :=
  (λ s : Z * HksParams * list Z, mkSession s.1.1 s.1.2 s.2 (rk_xor s.1.1 s.2)) <$> rk_sessions k !! h.
#[local] Arguments rk_xor : simpl never.
#[local] Arguments rk_tag : simpl never.
Lemma rk_xor_app key x y : rk_xor key (x ++ y) = rk_xor key x ++ rk_xor key y.
Proof. apply fmap_app. Qed.
Lemma rk_xor_length key x : length (rk_xor key x) = length x.
Proof. apply length_fmap. Qed.
Lemma rk_session_is k h key p i o :
  rk_session k h = Some (mkSession key p i o) → rk_sessions k !! h = Some (key, p, i) ∧ o = rk_xor key i.
Proof. unfold rk_session. destruct (rk_sessions k !! h) as [[[key' p'] i']|]; [|done]. by intros [= -> -> -> <-]. Qed.
#[global] Instance ref_huks_laws : HuksLaws RefHuks.
Proof.
  refine {| hk_keys := rk_keys; hk_session := rk_session; hk_works := True;
            gcm_xor key _ x := rk_xor key x; gcm_tag key _ nonce x := rk_tag key nonce x |}.
  all: try done.
  - intros key _ x. apply rk_xor_length.
  - intros key _ x. unfold rk_xor. rewrite <- list_fmap_compose. rewrite <- (list_fmap_id x) at 2. apply list_fmap_ext.
    intros i b _. cbn. by rewrite <- Z.lxor_assoc, Z.lxor_nilpotent, Z.lxor_0_l.
  - intros a k. cbn. split; [done|]. destruct (rk_keys k !! a); split; try done; by intros _ [].
  - intros a k. cbn. split; [intros b Hb; by rewrite lookup_insert_ne|]. split; [|done]. intros _. rewrite lookup_insert_eq. by eexists.
  - intros n k Hn. cbn. split_and!; [done|rewrite length_replicate; lia|done].
  - intros a p k. cbn. destruct (rk_keys k !! a) as [key|]; cbn; split_and!; try done.
    intros _. exists key. split; [done|]. unfold rk_session. cbn. by rewrite lookup_insert_eq.
  - intros h key p x room k i o [Hh ->]%rk_session_is. cbn. rewrite Hh. cbn. split_and!; try done. intros _.
    split; [apply rk_xor_length|]. unfold rk_session. cbn. rewrite lookup_insert_eq. cbn. by rewrite rk_xor_app.
  - intros h key aad nonce x room k i o [Hh ->]%rk_session_is. cbn. rewrite Hh. cbn. split_and!; try done. intros _.
    rewrite !rk_xor_app, <- !app_assoc. by rewrite <- (rk_xor_length key i), drop_app_length.
  - intros h key aad nonce aead x room k i o [Hh ->]%rk_session_is. cbn. rewrite Hh. cbn.
    destruct (decide (aead = rk_tag key nonce (i ++ x))) as [Ht|Ht].
    + rewrite bool_decide_true by done. cbn. split_and!; try done. intros _. split; [done|].
      rewrite !rk_xor_app. by rewrite <- (rk_xor_length key i), drop_app_length.
    + rewrite bool_decide_false by done. by split_and!.
Defined.
Definition empty_store : RefHuks := mkRefHuks ∅ 0 ∅.

(** Bytes that are taken in four parts, by a key store that has no key yet. *)
Definition long_data : list Z := replicate (Z.to_nat (3 * MAX_UPDATE_SIZE + 5)) 200.
Lemma data_round_trip_witness :
  ∃ c k1, OnIntellVoiceDataOprEvent shm_ok ENCRYPT_TYPE (shared long_data) empty_store = (Some (0, Some c), k1) ∧
    (OnIntellVoiceDataOprEvent shm_ok DECRYPT_TYPE (shared c) k1).1 = Some (0, Some long_data).
Proof.
  assert (Z.of_nat (length long_data) = 3 * MAX_UPDATE_SIZE + 5) as Hl by (unfold long_data; rewrite length_replicate; apply Z2Nat.id; discriminate).
  destruct (data_round_trip long_data empty_store) as [H1 H2].
  - intros H0. apply (f_equal (λ l : list Z, Z.of_nat (length l))) in H0. rewrite Hl in H0. discriminate H0.
  - rewrite Hl. reflexivity.
  - destruct (H2 I) as [Hok _]. destruct H1 as [H1|(c & key & H1 & Hk & _ & Ho)]; [contradiction|].
    destruct (OnIntellVoiceDataOprEvent shm_ok ENCRYPT_TYPE (shared long_data) empty_store) as [r k1].
    cbn [fst snd] in H1, Hk. subst r. exists c, k1. split; [reflexivity|]. destruct (Ho k1 Hk) as (_ & Hw & _). exact (Hw I).
Defined.
Lemma data_refused_witness : OnIntellVoiceDataOprEvent shm_ok DECRYPT_TYPE (shared (replicate 28 1)) empty_store = (Some (-1, None), empty_store).
Proof.
  apply (data_refused shm_ok DECRYPT_TYPE (shared (replicate 28 1)) empty_store).
  right. right. right. right. split; [reflexivity|]. exists (replicate 28 1). split; [reflexivity|]. vm_compute. discriminate.
Defined.

(** The nonce, the encrypted bytes and the tag. *)
Definition short_text : list Z := replicate 12 9 ++ [84; 87; 86] ++ replicate 16 450.
Definition with_text : RefHuks := (OnIntellVoiceDataOprEvent shm_ok ENCRYPT_TYPE (shared [1; 2; 3]) empty_store).2.
Example short_text_made :
  (OnIntellVoiceDataOprEvent shm_ok ENCRYPT_TYPE (shared [1; 2; 3]) empty_store).1 = Some (0, Some short_text) ∧
  (OnIntellVoiceDataOprEvent shm_ok DECRYPT_TYPE (shared short_text) with_text).1 = Some (0, Some [1; 2; 3]).
Proof. vm_compute. split; reflexivity. Qed.
(** [IsKeyExist] takes any error of [HksKeyExist] to mean that there is no key: the next
    encryption replaces the key, and what was encrypted before cannot be read any more. *)
Example key_replaced :
  let k := (OnIntellVoiceDataOprEvent (Huks0 := ref_huks_with true) shm_ok ENCRYPT_TYPE (shared [4]) with_text).2 in
  rk_keys k !! g_aliasName ≠ rk_keys with_text !! g_aliasName ∧
  (OnIntellVoiceDataOprEvent shm_ok DECRYPT_TYPE (shared short_text) k).1 = Some (-1, None).
Proof. vm_compute. split; [discriminate|reflexivity]. Qed.
