(* ===== verification/Client.v ===== *)
(** * The client library

    [frameworks/native]: what an application links.  [IntellVoiceManager] holds a proxy of
    the service, which it loads; [EnrollIntellVoiceEngine] and [WakeupIntellVoiceEngine] hold
    a proxy of an engine the service has made for them.  How a call goes over the proxies is
    an argument, so that the library can be put over the proxies and parcels of
    [ServiceIpc.v].  The theorems say that a user's recordings, fetched on one device and
    handed to another, arrive as they were, and what comes of a part of them. *)

From S2P Require Import Prelude StringUtil Settings EngineTypes EngineUtil DeviceManager WakeupFacade EnrollEngine Parcel EngineIpc ServiceIpc.
From Stdlib Require Import Ascii.

Definition INTELLIGENT_VOICE_SYSTEM_ERROR : Z := 22700107.
Definition CL_MIN_BUFFER_SIZE : Z := 1280.
Definition CL_CHANNEL_CNT : Z := 1.
Definition CL_BITS_PER_SAMPLE : Z := 16.
Definition CL_SAMPLE_RATE : Z := 16000.

Record WakeupSourceFile := mkSourceFile { filePath : str; fileContent : list Z }.
Record UploadFilesInfo := mkFilesInfo { fi_type : Z; fi_filesDescription : str; fi_filesContent : list (list Z) }.
Record WakeupHapInfo := mkHap { hap_bundleName : str; hap_abilityName : str }.
Record EngineConfig := mkConfig { ec_language : str; ec_region : str; ec_enrollScenario : str }.

(** ** [IntellVoiceManager]

    The service on the other side, whether [g_sProxy] is there, and [callback_]. *)
Record ClientManager (W : Type) := mkClient { cm_service : W; cm_proxy : bool; cm_callback : option nat }.
Arguments mkClient {W} _ _ _.
Arguments cm_service {W} _.
Arguments cm_proxy {W} _.
Arguments cm_callback {W} _.
#[global] Instance ClientManager_eta W : Eta (ClientManager W) := λ m, mkClient (cm_service m) (cm_proxy m) (cm_callback m).

(** What the system says: whether there is an ability manager, whether the service can be
    loaded, and whether the object it gives is one of a service. *)
Record Abilities := mkAbilities { sys_manager : bool; sys_object : bool; sys_cast : bool }.

Section manager.
Context {W : Type} {JL : JsonLib} (call : ServiceCall → St W SAnswer).
(** [AddDeathRecipient] and [RemoveDeathRecipient] of the proxy's object, and shared memory. *)
Context (AddDeathRecipient RemoveDeathRecipient : nat → St W bool) (ashmem : nat → AshmemBuf).
Abbreviation M := (St (ClientManager W)).

Definition on_service {A} (m : St W A) : M A := λ c, let '(a, w) := m (cm_service c) in (a, c <| cm_service := w |>).
(** A call of [g_sProxy], and what is returned without one. *)
Definition with_service {A} (none : A) (m : M A) : M A := c ← st_get; if cm_proxy c then m else mret none.
Definition call_int (c : ServiceCall) : M Z := a ← on_service (call c); mret (match a with SRet ret => ret | _ => -1 end).

Definition Client_Init (sys : Abilities) : M bool :=
  if negb (sys_manager sys) then mret false else
  if negb (sys_object sys) then mret false else
  _ ← st_modify (λ c, c <| cm_proxy := sys_cast sys |>);
  mret true.

Definition Client_CreateIntellVoiceEngine (stub : option nat) (type : Z) (inst : option nat) : M (Z * option nat) :=
  with_service (-1, inst)
    (a ← on_service (call (SCreate stub type inst));
     mret (match a with SEngine ret inst => (ret, inst) | _ => (-1, inst) end)).
Definition Client_ReleaseIntellVoiceEngine (type : Z) : M Z := with_service (-1) (call_int (SRelease type)).
Definition RegisterServiceDeathRecipient (callback : option nat) : M Z :=
  with_service (-1)
    match callback with
    | None => mret (-1)
    | Some callback => ret ← on_service (AddDeathRecipient callback); mret (if (ret : bool) then 0 else -1)
    end.
Definition DeregisterServiceDeathRecipient (callback : option nat) : M Z :=
  with_service (-1)
    match callback with
    | None => mret (-1)
    | Some callback => ret ← on_service (RemoveDeathRecipient callback); mret (if (ret : bool) then 0 else -1)
    end.
Definition Client_RegisterDeviceWakeupInfo (stub : option nat) (macAddress : str) (info : WakeupDeviceInfo) : M Z :=
  with_service (-1) (if bool_decide (macAddress = []) then mret (-1) else call_int (SRegisterDevice stub macAddress info)).
Definition Client_DeregisterDeviceWakeupInfo (macAddress : str) : M Z :=
  with_service (-1) (if bool_decide (macAddress = []) then mret (-1) else call_int (SDeregisterDevice macAddress)).

(** The bytes of one piece of shared memory. *)
Definition GetFileDataFromAshmem (a : nat) : option (list Z) :=
  let a := ashmem a in
  if u32 (ash_size a) =? 0 then None else if negb (ash_map a) then None else ash_read a.
(** The contents that can be read. *)
Definition files_info (hdiFile : UploadFilesFromHdi) : UploadFilesInfo :=
  mkFilesInfo (uf_type hdiFile) (uf_filesDescription hdiFile) (omap GetFileDataFromAshmem (uf_filesContent hdiFile)).
Definition Client_GetUploadFiles (numMax : Z) (files : list UploadFilesInfo) : M (Z * list UploadFilesInfo) :=
  with_service (-1, files)
    (a ← on_service (call (SGetUploadFiles numMax []));
     match a with
     | SFiles ret hdiFiles =>
       if negb (ret =? 0) then mret (ret, files) else
       if bool_decide (hdiFiles = []) then mret (-1, files) else mret (0, files ++ (files_info <$> hdiFiles))
     | _ => mret (-1, files)
     end).

Definition Client_SetParameter (key value : str) : M Z := with_service (-1) (call_int (SSetParameter (key ++ lit "=" ++ value))).
Definition call_text (key : str) : M str := a ← on_service (call (SGetParameter key)); mret (match a with SText value => value | _ => [] end).
Definition Client_GetParameter (key : str) : M str := with_service [] (if bool_decide (key = []) then mret [] else call_text key).

(** The loop of [GetWakeupSourceFiles]; [fileContent] is that of the turn before. *)
Fixpoint fetch_files (names : list str) (fileContent : list Z) (cloneFileInfo : list WakeupSourceFile) : M (Z * list WakeupSourceFile) :=
  match names with
  | [] => mret (0, cloneFileInfo)
  | name :: names =>
    a ← on_service (call (SGetFile name fileContent));
    match a with
    | SBytes ret fileContent =>
      if negb (ret =? 0) then mret (-1, cloneFileInfo) else
      fetch_files names fileContent (cloneFileInfo ++ [mkSourceFile name fileContent])
    | _ => mret (-1, cloneFileInfo)
    end
  end.
Definition GetWakeupSourceFiles (cloneFileInfo : list WakeupSourceFile) : M (Z * list WakeupSourceFile) :=
  with_service (-1, cloneFileInfo)
    (a ← on_service (call (SGetFilesList []));
     match a with
     | SNames ret cloneFiles => if negb (ret =? 0) then mret (-1, cloneFileInfo) else fetch_files cloneFiles [] cloneFileInfo
     | _ => mret (-1, cloneFileInfo)
     end).

Fixpoint send_files (cloneFileInfo : list WakeupSourceFile) : M bool :=
  match cloneFileInfo with
  | [] => mret true
  | f :: cloneFileInfo =>
    ret ← call_int (SSendFile (filePath f) (fileContent f));
    if negb (ret =? 0) then mret false else send_files cloneFileInfo
  end.
(** [object] is the callback object the manager makes for [callback]. *)
Definition Client_EnrollWithWakeupFilesForResult (cloneFileInfo : list WakeupSourceFile) (wakeupInfo : str) (object : nat) : M Z :=
  with_service (-1)
    match parseFromStream wakeupInfo with
    | None => mret (-1)
    | Some root =>
      supported ← (if isMember root (lit "implicit_enroll") && bool_decide (asString (member root (lit "implicit_enroll")) = lit "true")
                   then value ← call_text (lit "isSupportImplicitEnroll"); mret (bool_decide (value = lit "true"))
                   else mret true : M bool);
      if negb supported then mret (-1) else
      sent ← send_files cloneFileInfo;
      if negb sent then mret (-1) else
      _ ← st_modify (λ c, c <| cm_callback := Some object |>);
      call_int (SEnroll wakeupInfo (Some object))
    end.
Definition Client_ClearUserData : M Z := with_service (-1) (call_int SClearUserData).
End manager.

(** ** The engines of the library

    [descriptor_] with the wakeup phrase, [engine_], [result_] and [callback_]; how a call
    reaches an engine of the service is an argument. *)
Record ClientEngine := mkClientEngine { ce_phrase : str; ce_engine : option nat; ce_result : Z; ce_callback : option nat }.
#[global] Instance ClientEngine_eta : Eta ClientEngine := λ e, mkClientEngine (ce_phrase e) (ce_engine e) (ce_result e) (ce_callback e).

Section engines.
Context {W : Type} {JL : JsonLib} (call : ServiceCall → St W SAnswer) (engine_call : nat → EngineCall → St W Answer).
Abbreviation C := (ClientManager W * ClientEngine)%type.
Abbreviation M := (St C).

Definition on_engine (engine : nat) (c : EngineCall) : M Answer := λ s,
  let '(a, w) := engine_call engine c (cm_service s.1) in (a, (s.1 <| cm_service := w |>, s.2)).
Definition with_engine {A} (none : A) (m : nat → M A) : M A := s ← st_get; match ce_engine s.2 with None => mret none | Some e => m e end.
Definition engine_int (e : nat) (c : EngineCall) : M Z := a ← on_engine e c; mret (match a with ARet ret => ret | _ => -1 end).
Definition engine_parameter (e : nat) (text : str) : M Z := engine_int e (CallSetParameter text).

(** The constructors; [GetInstance] looks for the service again each time. *)
Definition new_client_engine (sys : Abilities) (stub : option nat) (type : Z) (phrase : str) : St (ClientManager W) ClientEngine :=
  found ← Client_Init sys;
  if (found : bool) then
    r ← Client_CreateIntellVoiceEngine call stub type None;
    mret (mkClientEngine phrase r.2 r.1 None)
  else mret (mkClientEngine phrase None INTELLIGENT_VOICE_SYSTEM_ERROR None).
Definition CreateHeadsetWakeupEngine (sys : Abilities) (stub : option nat) : St (ClientManager W) ClientEngine :=
  new_client_engine sys stub INTELL_VOICE_HEADSET_WAKEUP (lit "小艺小艺").
(** The destructor of [EnrollIntellVoiceEngine]; that of the other class does nothing. *)
Definition CE_Destruct (sys : Abilities) : St (ClientManager W) unit :=
  found ← Client_Init sys;
  if (found : bool) then st_void (Client_ReleaseIntellVoiceEngine call INTELL_VOICE_ENROLL) else mret ().

Definition CE_Init (config : EngineConfig) : M Z :=
  with_engine (-1) (λ e,
    _ ← engine_parameter e (lit "language=" ++ ec_language config);
    _ ← engine_parameter e (lit "area=" ++ ec_region config);
    _ ← st_when (negb (bool_decide (ec_enrollScenario config = [])))
          (st_void (engine_parameter e (lit "enrollScenario=" ++ ec_enrollScenario config)));
    s ← st_get;
    engine_int e (CallAttach (mkEngineInfo (ce_phrase s.2) false CL_MIN_BUFFER_SIZE CL_CHANNEL_CNT CL_BITS_PER_SAMPLE CL_SAMPLE_RATE))).
Definition CE_Start (isLast : bool) : M Z := with_engine (-1) (λ e, engine_int e (CallStart isLast)).
Definition CE_Stop : M Z := with_engine (-1) (λ e, engine_int e CallStop).
Definition CE_Commit : M Z := with_engine (-1) (λ e, engine_parameter e (lit "CommitEnrollment=true")).
Definition CE_SetSensibility (sensibility : Z) : M Z :=
  with_engine (-1) (λ e, engine_parameter e (lit "Sensibility=" ++ print_int sensibility)).
(** Of the two classes, the second stops at the first failure. *)
Definition Enroll_SetWakeupHapInfo (info : WakeupHapInfo) : M Z :=
  with_engine (-1) (λ e,
    ret ← engine_parameter e (lit "wakeup_bundle_name=" ++ hap_bundleName info);
    ret' ← engine_parameter e (lit "wakeup_ability_name=" ++ hap_abilityName info);
    mret (i32 (ret + ret'))).
Definition Wakeup_SetWakeupHapInfo (info : WakeupHapInfo) : M Z :=
  with_engine (-1) (λ e,
    ret ← engine_parameter e (lit "wakeup_bundle_name=" ++ hap_bundleName info);
    if negb (ret =? 0) then mret ret else
    engine_parameter e (lit "wakeup_ability_name=" ++ hap_abilityName info)).
Definition CE_SetParameter (key value : str) : M Z := with_engine (-1) (λ e, engine_parameter e (key ++ lit "=" ++ value)).
Definition CE_GetParameter (key : str) : M str :=
  with_engine [] (λ e, a ← on_engine e (CallGetParameter key); mret (match a with AText value => value | _ => [] end)).
Definition CE_Evaluate (word : str) (result : Z * Z) : M (Z * (Z * Z)) :=
  _ ← st_modify (λ s : C, (s.1, s.2 <| ce_phrase := word |>));
  with_engine (-1, result) (λ e, a ← on_engine e (CallEvaluate word result);
    mret (match a with AEval ret result => (ret, result) | _ => (-1, result) end)).
Definition Enroll_Release : M Z := with_engine (-1) (λ e, engine_int e CallDetach).
Definition Wakeup_Release : M Z := mret 0.
(** [object] is the callback object made for the client's callback. *)
Definition CE_SetCallback (object : nat) : M Z :=
  with_engine (-1) (λ e,
    _ ← st_modify (λ s : C, (s.1, s.2 <| ce_callback := Some object |>));
    _ ← on_engine e (CallSetCallback (Some object));
    mret 0).
Definition CE_StartCapturer (channels : Z) : M Z := with_engine (-1) (λ e, engine_int e (CallStartCapturer channels)).
Definition engine_data (e : nat) (c : EngineCall) (data : list Z) : M (Z * list Z) :=
  a ← on_engine e c; mret (match a with AData ret data => (ret, data) | _ => (-1, data) end).
Definition CE_Read (data : list Z) : M (Z * list Z) := with_engine (-1, data) (λ e, engine_data e (CallRead data) data).
Definition CE_StopCapturer : M Z := with_engine (-1) (λ e, engine_int e CallStopCapturer).
Definition CE_GetWakeupPcm (data : list Z) : M (Z * list Z) := with_engine (-1, data) (λ e, engine_data e (CallGetWakeupPcm data) data).
Definition CE_NotifyDeviceWakeupEvent (macAddress : str) (event : EventDetail) : M Z :=
  with_engine (-1) (λ e, if bool_decide (macAddress = []) then mret (-1) else engine_int e (CallNotifyDeviceWakeupEvent macAddress event)).
End engines.

(** * Lemmas *)

(** ** The service itself *)

Section handover.
Context {W : Type} {JL : JsonLib} `{!ServiceObject W}.
(** Recordings given to a service, up to the first it does not take. *)
Fixpoint deliver (files : list WakeupSourceFile) : St W bool :=
  match files with
  | [] => mret true
  | f :: files => ret ← s_SendWakeupFile (filePath f) (fileContent f); if ret =? 0 then deliver files else mret false
  end.
Definition wants_implicit (root : json) : bool :=
  isMember root (lit "implicit_enroll") && bool_decide (asString (member root (lit "implicit_enroll")) = lit "true").
Definition serves_implicit : St W bool := value ← s_GetParameter (lit "isSupportImplicitEnroll"); mret (bool_decide (value = lit "true")).
(** An enrollment with recordings of another device: whether the callback is set, and the
    result. *)
Definition hand_over (files : list WakeupSourceFile) (info : str) (object : nat) : St W (bool * Z) :=
  match parseFromStream info with
  | None => mret (false, -1)
  | Some root =>
    ok ← (if wants_implicit root then serves_implicit else mret true : St W bool);
    if negb ok then mret (false, -1) else
    ok ← deliver files;
    if negb ok then mret (false, -1) else
    ret ← s_EnrollWithWakeupFilesForResult info (Some object);
    mret (true, if ret =? 0 then 0 else -1)
  end.
End handover.

Section remote.
Context {P W : Type} {JL : JsonLib} `{!ParcelLib P} `{!ParcelLaws P} `{!ServiceObject W}.
Variable remote : Stub P W.
Hypothesis (Hc : carries remote Service_OnRemoteRequest) (Ho : s_sound_answers (P := P) (W := W)).
Implicit Types (w : W) (c : ClientManager W).
Abbreviation call := (s_invoke remote).
Abbreviation sound := (s_sound_call (P := P)).

Lemma call_served (k : ServiceCall) w : sound k → call k w = s_serve k w.
Proof. intros [Ht Hf]. apply service_calls; [done..|]. intros m. apply Ho. Qed.
Lemma on_service_run {A} (m : St W A) c : on_service m c = ((m (cm_service c)).1, c <| cm_service := (m (cm_service c)).2 |>).
Proof. unfold on_service. by destruct (m _). Qed.
Lemma with_service_run {A} (none : A) (m : St (ClientManager W) A) c : cm_proxy c = true → with_service none m c = m c.
Proof. unfold with_service. rewrite bind_run. cbn. by intros ->. Qed.
Lemma call_text_run key c : sound (SGetParameter key) →
  call_text call key c = on_service (s_GetParameter key) c.
Proof.
  intros Hs. unfold call_text. rewrite bind_run, !on_service_run, (call_served _ _ Hs). unfold s_serve. cbn [s_plan].
  rewrite !bind_run. done.
Qed.

(** Recordings of a size that goes through a parcel. *)
Definition sendable (b : list Z) : Prop := 0 < Z.of_nat (length b) ≤ CROSS_PROCESS_BUF_SIZE_LIMIT.
Lemma send_run f c : sound (SSendFile (filePath f) (fileContent f)) → sendable (fileContent f) →
  let r := s_SendWakeupFile (filePath f) (fileContent f) (cm_service c) in
  call_int call (SSendFile (filePath f) (fileContent f)) c = (if r.1 =? 0 then 0 else -1, c <| cm_service := r.2 |>).
Proof.
  intros Hs [H1 H2] r. unfold call_int. rewrite bind_run, on_service_run, (call_served _ _ Hs). unfold s_serve. cbn [s_plan].
  destruct (Z.eqb_spec (Z.of_nat (length (fileContent f))) 0), (Z.ltb_spec CROSS_PROCESS_BUF_SIZE_LIMIT (Z.of_nat (length (fileContent f))));
    try lia. cbn [orb]. rewrite !bind_run. fold r. cbn. destruct (Z.eqb_spec r.1 0) as [->|]; done.
Qed.
Lemma send_files_run files c :
  Forall (λ f, sound (SSendFile (filePath f) (fileContent f)) ∧ sendable (fileContent f)) files →
  send_files call files c = on_service (deliver files) c.
Proof.
  intros Hf. revert c. induction Hf as [|f files [Hs Hb] _ IH]; intros c.
  { rewrite on_service_run. by destruct c. }
  cbn [send_files]. rewrite bind_run, (send_run f c Hs Hb), on_service_run. cbn [fst snd deliver]. rewrite bind_run.
  destruct (s_SendWakeupFile _ _ _) as [ret w]. cbn [fst snd]. destruct (ret =? 0); cbn [negb Z.eqb]; [|done].
  rewrite IH, on_service_run. done.
Qed.

Lemma supported_run root c : sound (SGetParameter (lit "isSupportImplicitEnroll")) →
  (if wants_implicit root then value ← call_text call (lit "isSupportImplicitEnroll"); mret (bool_decide ((value : str) = lit "true"))
   else mret true : St (ClientManager W) bool) c =
  on_service (if wants_implicit root then serves_implicit else mret true : St W bool) c.
Proof.
  intros Hs. destruct (wants_implicit root); [|by destruct c].
  rewrite bind_run, (call_text_run _ _ Hs), !on_service_run. unfold serves_implicit. by rewrite bind_run.
Qed.
Lemma enroll_run files info object c : cm_proxy c = true →
  sound (SGetParameter (lit "isSupportImplicitEnroll")) → sound (SEnroll info (Some object)) →
  Forall (λ f, sound (SSendFile (filePath f) (fileContent f)) ∧ sendable (fileContent f)) files →
  let r := hand_over files info object (cm_service c) in
  Client_EnrollWithWakeupFilesForResult call files info object c =
    (r.1.2, (if r.1.1 then c <| cm_callback := Some object |> else c) <| cm_service := r.2 |>).
Proof.
  intros Hp Hg He Hf r. unfold Client_EnrollWithWakeupFilesForResult. rewrite with_service_run by done.
  subst r. unfold hand_over. destruct (parseFromStream info) as [root|]; [|by destruct c].
  fold (wants_implicit root). rewrite bind_run, (supported_run root c Hg).
  generalize (if wants_implicit root then serves_implicit else mret true : St W bool). intros sup.
  rewrite on_service_run, (bind_run sup). destruct (sup _) as [[] w]; cbn [fst snd negb]; [|done].
  rewrite bind_run, send_files_run, on_service_run, (bind_run (deliver _)) by done.
  change (cm_service (c <| cm_service := w |>)) with w.
  destruct (deliver files w) as [[] w']; cbn [fst snd negb]; [|done].
  rewrite bind_run. cbn [st_modify fst snd]. unfold call_int. rewrite bind_run, on_service_run, (call_served _ _ He).
  unfold s_serve. cbn [s_plan]. rewrite !bind_run. cbn. by destruct (Z.eqb_spec (s_EnrollWithWakeupFilesForResult info (Some object) w').1 0) as [->|].
Qed.

(** ** Fetching *)

Lemma seen_file n had b : sendable b → s_seen (SGetFile n had) (SBytes 0 b) = SBytes 0 b.
Proof.
  intros [H1 H2]. cbn [s_seen Z.eqb andb]. destruct (Z.ltb_spec 0 (Z.of_nat (length b))); [|lia].
  by destruct (Z.leb_spec (Z.of_nat (length b)) CROSS_PROCESS_BUF_SIZE_LIMIT); [|lia].
Qed.
Lemma seen_names names : Z.of_nat (length names) ≤ CLONE_FILES_NUM_MAX → s_seen (SGetFilesList []) (SNames 0 names) = SNames 0 names.
Proof. intros H. cbn [s_seen Z.eqb andb]. by destruct (Z.leb_spec (Z.of_nat (length names)) CLONE_FILES_NUM_MAX); [|lia]. Qed.

Section fetching.
(** The service has these recordings, and goes on having them. *)
Context (names : list str) (content : str → list Z) (keeps : W → Prop).
Hypothesis (Hlist : ∀ w, keeps w → (s_GetWakeupSourceFilesList [] w).1 = (0, names) ∧ keeps (s_GetWakeupSourceFilesList [] w).2).
Hypothesis (Hfile : ∀ w n, keeps w → n ∈ names →
  (s_GetWakeupSourceFile n [] w).1 = (0, content n) ∧ keeps (s_GetWakeupSourceFile n [] w).2).
Hypothesis (Hcount : Z.of_nat (length names) ≤ CLONE_FILES_NUM_MAX) (Hsend : ∀ n, n ∈ names → sendable (content n)).
Hypothesis (Hnames : sound (SGetFilesList [])) (Hget : ∀ n b, n ∈ names → sound (SGetFile n b)).

Lemma fetch_run ns had files c : ns ⊆ names → keeps (cm_service c) →
  (fetch_files call ns had files c).1 = (0, files ++ ((λ n, mkSourceFile n (content n)) <$> ns)).
Proof.
  revert had files c. induction ns as [|n ns IH]; intros had files c Hn Hk; [cbn; by rewrite app_nil_r|].
  cbn [fetch_files fmap list_fmap]. assert (n ∈ names) as Hin by set_solver.
  rewrite bind_run, on_service_run, (call_served _ _ (Hget n had Hin)). unfold s_serve. cbn [s_plan]. rewrite !bind_run. cbn [fst snd].
  destruct (Hfile _ n Hk Hin) as [E Hk']. destruct (s_GetWakeupSourceFile _ _ _) as [r w]. cbn [fst snd] in *. subst r.
  unfold mret, st_ret. cbn [fst snd]. rewrite (seen_file n had _ (Hsend n Hin)). cbn [Z.eqb negb]. rewrite IH; [by rewrite <-(assoc (++))|set_solver|done].
Qed.
Lemma source_files_run c : cm_proxy c = true → keeps (cm_service c) →
  (GetWakeupSourceFiles call [] c).1 = (0, (λ n, mkSourceFile n (content n)) <$> names).
Proof.
  intros Hp Hk. unfold GetWakeupSourceFiles. rewrite with_service_run, bind_run, on_service_run, (call_served _ _ Hnames) by done.
  unfold s_serve. cbn [s_plan]. rewrite !bind_run. destruct (Hlist _ Hk) as [E Hk'].
  destruct (s_GetWakeupSourceFilesList _ _) as [r w]. cbn [fst snd] in *. subst r.
  unfold mret, st_ret. cbn [fst snd]. rewrite (seen_names _ Hcount). cbn [Z.eqb negb].
  by rewrite fetch_run.
Qed.
End fetching.
End remote.

(** ** From one device to another *)

(** What a device has to have for its recordings to be fetched. *)
Record Shares {W} `{!ServiceObject W} (keeps : W → Prop) (names : list str) (content : str → list Z) : Prop := {
  shares_list w : keeps w → (s_GetWakeupSourceFilesList [] w).1 = (0, names) ∧ keeps (s_GetWakeupSourceFilesList [] w).2;
  shares_file w n : keeps w → n ∈ names → (s_GetWakeupSourceFile n [] w).1 = (0, content n) ∧ keeps (s_GetWakeupSourceFile n [] w).2;
  shares_count : Z.of_nat (length names) ≤ CLONE_FILES_NUM_MAX;
  shares_size n : n ∈ names → sendable (content n) }.
(** The calls that are made fit the parcels. *)
Definition fetch_fits (P : Type) `{!ParcelLib P} `{!ParcelLaws P} (names : list str) : Prop :=
  s_sound_call (P := P) (SGetFilesList []) ∧ ∀ n b, n ∈ names → s_sound_call (P := P) (SGetFile n b).
Definition enroll_fits (P : Type) `{!ParcelLib P} `{!ParcelLaws P} (files : list WakeupSourceFile) (info : str) (object : nat) : Prop :=
  s_sound_call (P := P) (SGetParameter (lit "isSupportImplicitEnroll")) ∧ s_sound_call (P := P) (SEnroll info (Some object)) ∧
  Forall (λ f, s_sound_call (P := P) (SSendFile (filePath f) (fileContent f))) files.

(** C12: A user's recordings go from one device to another. An application with the
    client library on both fetches the recordings of the first: it gets all of them in
    the order of the list, each with its name and its bytes, if there are at most a
    hundred, none is empty or longer than 256 kilobytes, the service does not change
    them meanwhile and every request and answer fits into a parcel. What it then hands
    to the library of the second device does to the service there, over the proxies,
    exactly this: a request for an implicit enrollment is refused unless the service
    says that it can; the recordings are given to it in the same order, byte for byte,
    up to the first it does not take; and only when it took them all the callback is
    kept and the enrollment asked for. Text that is not JSON ends the call before
    anything is sent, and every failure is -1. *)
Theorem clone_round_trip {P A B} {JL : JsonLib} `{!ParcelLib P} `{!ParcelLaws P} `{!ServiceObject A} `{!ServiceObject B}
    (old : Stub P A) (new : Stub P B) (names : list str) (content : str → list Z) (keeps : A → Prop)
    (info : str) (object : nat) (a : ClientManager A) (b : ClientManager B)
    (Hold : carries old Service_OnRemoteRequest) (Hnew : carries new Service_OnRemoteRequest)
    (Hansa : s_sound_answers (P := P) (W := A)) (Hansb : s_sound_answers (P := P) (W := B))
    (Ha : cm_proxy a = true) (Hb : cm_proxy b = true)
    (Hs : Shares keeps names content) (Hk : keeps (cm_service a)) (Hf : fetch_fits P names)
    (He : enroll_fits P ((λ n, mkSourceFile n (content n)) <$> names) info object) :
  let fetched := (GetWakeupSourceFiles (s_invoke old) [] a).1 in
  let handed := hand_over fetched.2 info object (cm_service b) in
  fetched = (0, (λ n, mkSourceFile n (content n)) <$> names) ∧
  Client_EnrollWithWakeupFilesForResult (s_invoke new) fetched.2 info object b =
    (handed.1.2, (if handed.1.1 then b <| cm_callback := Some object |> else b) <| cm_service := handed.2 |>).
Proof.
  destruct Hs as [H1 H2 H3 H4], Hf as [Hf1 Hf2], He as (He1 & He2 & He3).
  cbv zeta. rewrite (source_files_run old Hold Hansa names content keeps H1 H2 H3 H4 Hf1 Hf2 a Ha Hk).
  split; [done|]. apply enroll_run; [done..|]. apply Forall_fmap, Forall_forall. intros n Hn. split; [|by apply H4].
  rewrite Forall_fmap, Forall_forall in He3. by apply He3.
Qed.

(** ** Concrete runs *)

(** A device with recordings, of which it tells nine and ninety-nine bytes each, and the text of the enrollments asked for. *)
Record Phone := mkPhone { ph_files : list (str * list Z); ph_enrolled : list str }.
#[local] Instance phone_service : ServiceObject Phone := {|
  s_CreateIntellVoiceEngine _ inst := mret (-1, inst);
  s_ReleaseIntellVoiceEngine _ := mret 0;
  s_RegisterDeathRecipient _ _ := mret true;
  s_DeregisterDeathRecipient _ := mret true;
  s_RegisterDeviceDeathRecipient _ _ := mret true;
  s_GetUploadFiles _ files := mret (0, files);
  s_SetParameter _ := mret 0;
  s_GetParameter key := mret (if bool_decide (key = lit "isSupportImplicitEnroll") then lit "true" else []);
  s_GetWakeupSourceFilesList names := λ w, ((0, take 9 (names ++ (ph_files w).*1)), w);
  s_GetWakeupSourceFile n _ := λ w, (match list_find (λ f, f.1 = n) (ph_files w) with Some (_, f) => (0, take 99 f.2) | None => (-1, []) end, w);
  s_SendWakeupFile n b := λ w, if bool_decide (length (ph_files w) < 2)%nat then (0, mkPhone (ph_files w ++ [(n, b)]) (ph_enrolled w)) else (-1, w);
  s_EnrollWithWakeupFilesForResult info _ := λ w, (0, mkPhone (ph_files w) (ph_enrolled w ++ [info]));
  s_ClearUserData := mret 0;
  s_RegisterDeviceWakeupInfo _ _ := mret 0;
  s_DeregisterDeviceWakeupInfo _ := mret 0 |}.
Definition two_files : list (str * list Z) := [(lit "a.pcm", [1; 2; 3]); (lit "b.pcm", [4; 5])].
Definition implicit_text : str := lit "implicit_enroll=true".
Definition old_phone : ClientManager Phone := mkClient (mkPhone two_files []) true None.
Definition new_phone (files : list (str * list Z)) : ClientManager Phone := mkClient (mkPhone files []) true None.
Abbreviation over := (s_invoke (P := listed) Service_OnRemoteRequest).
Definition moved (new : ClientManager Phone) : Z * ClientManager Phone :=
  Client_EnrollWithWakeupFilesForResult over (GetWakeupSourceFiles over [] old_phone).1.2 implicit_text 7 new.

Lemma phone_answers : s_sound_answers (P := listed) (W := Phone).
Proof.
  intros c w m Hm. split; [|done]. destruct c; cbn in Hm; repeat case_match; try discriminate Hm; injection Hm as <-;
    rewrite ?bind_run; try (cbn; done).
  - cbn [fst snd mret st_ret s_typed_answer]. rewrite length_take. lia.
  - destruct (list_find _ _) as [[? f]|]; unfold mret, st_ret; cbn [fst snd s_typed_answer]; [rewrite length_take; lia|done].
Qed.

Lemma clone_round_trip_witness :
  moved (new_phone []) = (0, mkClient (mkPhone two_files [implicit_text]) true (Some 7%nat)).
Proof.
  unfold moved.
  destruct (clone_round_trip (P := listed) Service_OnRemoteRequest Service_OnRemoteRequest
    (two_files.*1) (λ n, match list_find (λ f, f.1 = n) two_files with Some (_, f) => f.2 | None => [] end)
    (λ w, ph_files w = two_files) implicit_text 7%nat old_phone (new_phone [])) as [_ E];
    [apply carries_refl..|apply phone_answers|apply phone_answers|reflexivity|reflexivity| |reflexivity|by repeat constructor| |].
  - split.
    + intros w Hw. unfold s_GetWakeupSourceFilesList, phone_service. by rewrite Hw.
    + intros w n Hw Hn. unfold s_GetWakeupSourceFile, phone_service. rewrite Hw. cbn in Hn.
      rewrite !elem_of_cons, elem_of_nil in Hn. by destruct Hn as [->|[->|[]]].
    + vm_compute. discriminate.
    + intros n Hn. cbn in Hn. rewrite !elem_of_cons, elem_of_nil in Hn. unfold sendable. by destruct Hn as [->|[->|[]]].
  - repeat constructor; done.
  - rewrite E. vm_compute. reflexivity.
Defined.

(** The second device takes no more than two: nothing is enrolled, and no callback is kept. *)
Example moved_to_full : moved (new_phone [(lit "c", [6])]) = (-1, mkClient (mkPhone [(lit "c", [6]); (lit "a.pcm", [1; 2; 3])] []) true None).
Proof. vm_compute. reflexivity. Qed.
(** A file that cannot be fetched ends the call, with those before it in the list. *)
Example part_of_a_list :
  (GetWakeupSourceFiles over [] (new_phone [(lit "a", [1]); (lit "b", []); (lit "c", [2])])).1 = (-1, [mkSourceFile (lit "a") [1]]).
Proof. vm_compute. reflexivity. Qed.
